(* ===== verification/_CoqProject ===== *)
-Q . S2P
Prelude.v
Request.v
Net.v
Text.v
Ext.v
Concrete.v
Model.v
FileSystem.v
StateProtection.v
SystemdUnit.v
StateFile.v
ServiceIdentity.v
Membership.v
Authorization.v
Responses.v
RelayProto.v
Session.v
RootProto.v
Planet.v
RelayServer.v
RootServer.v
Policy.v
Joined.v
ExitGateway.v
PolicyPlan.v
DataPlane.v
PeerDirectory.v
Observability.v
TransportHealth.v
SocketText.v
LinuxAdapter.v
ControlUrl.v
StateBackup.v
Frames.v
AgentSession.v
AgentWorker.v
Turn.v
TlsRelay.v
PortMapping.v
AgentState.v
AgentMigration.v
StateCommand.v
AgentControl.v
AgentRefresh.v
AgentPolicy.v
AgentNetworks.v
Controller.v
Samples.v
FileFacts.v
StateFileFacts.v
ProtectionFacts.v
CoreFacts.v
PolicyFacts.v
RootFacts.v
PlanetFacts.v
PolicyPlanFacts.v
LinuxAdapterFacts.v
DataPlaneFacts.v
FramesFacts.v
TransportHealthFacts.v
RelayFacts.v
TurnFacts.v
TlsRelayFacts.v
PortMappingFacts.v
RootServerFacts.v
SessionFacts.v
AgentSessionFacts.v
AgentDeliveryFacts.v
AgentWorkerFacts.v
AgentDirectoryFacts.v
AgentHealthFacts.v
AgentHistoryFacts.v
AgentDocumentFacts.v
ControllerFacts.v
ControllerStateFacts.v
ControllerSamples.v
ControllerDocumentFacts.v
ControllerEnrollFacts.v
ControllerAccessFacts.v
ControllerFile.v
