(* ===== verification/Prelude.v ===== *)
(** * MeshLake: a verification library for the MeshLake overlay network

    MeshLake joins devices into virtual networks.  A controller keeps the
    networks, their members, keys and policies, and signs what it says about
    them.  Root servers let members find each other, relay servers forward
    datagrams between members that cannot reach each other directly, and the
    agent on every device keeps sessions with its peers, a virtual adapter, and
    the documents of the controller.  This library is a shallow embedding of the
    Rust crates under [src/crates]: each function of the code that it covers is a
    function here, with the code's name, its guards in the code's order, and its
    early returns.

    ** Files, and the code they model

    Support.  [Prelude] (this file): results, loops with early return, lists,
    machine integers.  [Request]: handlers over shared state.  [Net], [Text],
    [SocketText]: the parts of the Rust standard library the code relies on
    (addresses and their textual forms, byte strings, [str]).  [Ext]: the
    third-party crates as classes of operations, with their documented laws as
    separate classes; [Concrete]: an instance of each class that satisfies its
    laws, used by the witnesses, so no theorem rests on contradictory laws.

    Signed documents (crate [meshlake-core]).  [Model] is [model.rs];
    [ServiceIdentity] is [service_identity.rs]; [Membership] and [Planet] are
    [crypto.rs]; [Authorization] is [authorization.rs]; [Responses] the documents
    the controller returns; [Policy] is [policy.rs]; [RelayProto] is [relay.rs]
    and [overlay.rs]; [RootProto] is [root.rs]; [Session] is [session.rs].

    Servers.  [RelayServer] is [meshlake-relay/src/main.rs]: state [RelayState],
    one [receive] per datagram and one [prune] per timer turn, composed by
    [relay_step].  [RootServer] is [meshlake-root/src/main.rs].  [Controller] is
    [meshlake-controller/src/main.rs]: one handler per HTTP request over
    [ControllerState], composed by [serve]; [open_state] is what happens to a
    state file at start.

    The agent (crate [meshlaked]).  [Joined]: the record of a joined network.
    [DataPlane] is [data_plane/ip.rs].  [PeerDirectory], [Frames],
    [AgentSession] and [AgentWorker] are the transport worker of [main.rs]: the
    peer directory, the frames, the session table as a machine of turns
    ([session_step]), and the worker around it ([worker_step]).  [Turn] is
    [turn.rs]: the messages, the protocol over a [Transport] (a UDP socket or a TLS
    stream), and the forwarding loop as a machine of events ([forward_event]).
    [TlsRelay] is [tls_relay.rs] and the proxy at its other end, in
    [meshlake-relay/src/main.rs]; [PortMapping] is [port_mapping.rs] and [upnp.rs].
    [Observability] and [TransportHealth] are the files of those names.
    [ExitGateway] is [exit_gateway.rs] and [adapter/kill_switch.rs];
    [PolicyPlan] is [adapter/policy.rs]; [LinuxAdapter] is [adapter/linux.rs].
    [ControlUrl], [AgentState], [AgentMigration], [AgentControl],
    [AgentRefresh], [AgentPolicy] and [AgentNetworks] are the control side of
    [main.rs]: addresses of controllers, the persisted state and its checks, the
    migrations, the handlers of the local API, the refresh of documents, joining
    and leaving; [agent_step] composes them over the state [Agent].

    State files.  [FileSystem] is the part of [std::path] and [std::fs] that the
    code uses on Unix: names, links, inodes, system calls that may each fail, and
    what a crash leaves.  [StateProtection] (envelopes) and [StateFile] (the lock,
    reading, replacing, recovering, key providers) are [state_protection.rs];
    [secret_file.rs] is at the end of [StateProtection]; [StateBackup] is
    [state_backup.rs]; [StateCommand] is the two [state_backup_command.rs] and the
    opening of the agent's state; [ControllerFile] is the opening and creation of
    the controller's; the identity file is at the end of [ServiceIdentity].
    [SystemdUnit] is [systemd_unit.rs] with the units that the agent and the root
    server install, and a reading of unit files to compare them with.

    The files named [...Facts] hold the theorems (those of [SystemdUnit] are in its
    file), the files named [...Samples] and parts of the last files of the agent, the
    controller and the state files the concrete documents, servers and agents of the
    witnesses.

    ** How the code is represented

    An unsigned integer is a [Z] in range, with the saturation or wrap-around the
    code asks for.  A [HashMap] is a [gmap]; where the code iterates over one,
    the order is a function of the class [HashOrder], of which only that it
    permutes is known.  A [Vec] and a map whose order matters are lists.  A
    function that returns [Result] returns [result]; the text of an error is
    dropped unless callers look at it.  A request that holds a lock is a
    [handler], which keeps on an error return the updates made before it.  A
    clock is read once per call, so the several readings of one call agree.
    Sends, trace lines and adapter writes of the worker are lists of effects in
    the order of the code.  The state file is a separate component of the
    state, written where the code writes it, and a write may fail.  The commands
    of the Linux adapter are run by an environment that may let any of them fail
    depending on all that ran before.  A JSON value is not represented: a
    [serde] implementation is a class with an encoder and a decoder, and laws say
    that decoding undoes encoding where a theorem needs it.

    A socket or a stream is a state: what arrives, in order, what was sent, and which
    of the next calls fail.  A [select!] loop is run over a list of events, one for
    each branch it takes.  A branch that is taken while another had begun to read
    drops what that one had read, which the events give as a number of bytes.

    Calls are atomic steps where the code holds a lock throughout.  An agent
    call that awaits the controller between two critical sections is split into
    the two, so that other calls may come in between ([agent_moves]).

    Recursion follows the data.  The loops that do not (the attributes of a
    STUN or TURN message, the search for a TURN response in a stream, the trimming
    of observations, the search for a free address) take the length or the size of
    what they walk as fuel, and the theorems state that this is enough:
    [stun_parser_total], [turn_client_returns], [allocation_least_free].

    ** The theorems

    Documents: a signed policy, Planet or registration that verifies has the
    properties the code relies on ([PolicyFacts], [PlanetFacts], [RootFacts],
    [CoreFacts]).  Sessions: both ends of a handshake agree on keys, sequence
    numbers are never accepted twice, and the replay window is the set of
    accepted numbers ([SessionFacts]).  TURN: messages are read back as they were
    written, addresses are those of the RFC for IPv4 only, the client takes packets
    from its server only, renews permissions and allocations in time, and never
    indexes out of a message ([TurnFacts]).  Routing: an outbound packet goes directly, or to
    the gateway of the better policy route or the selected exit, entitled to it, and one is delivered only when its sender may send it
    ([DataPlaneFacts]).  Relay and root: what every reachable state satisfies,
    isolation between networks, refusal of replays ([RelayFacts],
    [RootServerFacts]).  Agent transport: invariants of every reachable session
    table and worker, delivery of a first packet, the worker as exactly the turns of
    the session machine that its datagrams and its timer ask for ([AgentWorkerFacts]),
    a certified directory that changes by the steps of [DataPlaneFacts] only
    ([AgentDirectoryFacts]), earned health ([AgentHealthFacts]).
    Agent control: the Planet of a joined network never rolls back and its
    controller never changes, through any sequence of calls
    ([AgentHistoryFacts], [AgentDocumentFacts]).  Relays over TLS: a route exchanges
    bytes only with the peer of a handshake that showed the pinned certificate and signed
    with its key, and the connection with the proxy behind it is
    a queue of packets in each direction ([TlsRelayFacts]).  Port mapping: which
    answers of a gateway are taken, and when a mapping is renewed
    ([PortMappingFacts]).  Units: what a generated unit says ([SystemdUnit]).  Adapter: where each planned
    route comes from ([PolicyPlanFacts]) and which firewall rules are installed
    whatever commands fail ([LinuxAdapterFacts]).  Controller: consistency of
    the state through every request and restart, tokens, removal, enrolment,
    policies ([Controller...]).  State files: replacing and recovering a file is
    atomic whatever call fails and whenever the machine goes down
    ([StateFileFacts]); links are refused, envelopes and backups open as what was
    sealed, for their purpose, kind and key only ([ProtectionFacts]).  These theorems
    rest on [FileFacts], a small logic of what an operation ensures when it returns
    and when it fails.

    ** Not modelled, and why

    Sockets, TLS, HTTP routing, tracing, command lines and configuration files
    are input and output.  The Windows adapter and its filters call the
    operating system through bindings.  The clients ([meshlake-cli],
    [meshlake-gui]) print and draw what the servers return.  The Windows
    build of the state files (DPAPI, access control lists, replacement with a
    backup) is left out; the prompt for a password is input.  [rustls], [webpki] and
    [igd-next] are not part of the repository; they are parameters or outcomes of calls.
    Zeroisation of secrets has no meaning in a pure model.  A poisoned mutex is
    left out: no function of the model panics while holding one. *)
From Stdlib Require Export ZArith Lia.
From stdpp Require Export sorting.
From stdpp Require Export base tactics numbers strings gmap list.
#[local] Open Scope Z_scope.

(** ** Fallible code: Rust's [Result] *)

Inductive result (E A : Type) : Type :=
| Ok (a : A)
| Err (e : E).
Arguments Ok {E A} a.
Arguments Err {E A} e.

#[export] Instance result_mret E : MRet (result E) := λ A a, Ok a.
#[export] Instance result_mbind E : MBind (result E) := λ A B f m,
  match m with Ok a => f a | Err e => Err e end.
#[export] Instance result_fmap E : FMap (result E) := λ A B f m,
  match m with Ok a => Ok (f a) | Err e => Err e end.

#[export] Instance result_eq_dec E A `{EqDecision E, EqDecision A} :
  EqDecision (result E A).
Proof. solve_decision. Defined.

(** An early return [if c { return Err(e) }]. *)
Definition bail_if {E} (c : bool) (e : E) : result E unit :=
  if c then Err e else Ok tt.

(** [Option::ok_or], [Result::ok], [Result::map_err], [Result::is_ok]. *)
Definition ok_or {E A} (o : option A) (e : E) : result E A :=
  match o with Some a => Ok a | None => Err e end.
Definition ok {E A} (r : result E A) : option A :=
  match r with Ok a => Some a | Err _ => None end.
Definition map_err {E F A} (f : E → F) (r : result E A) : result F A :=
  match r with Ok a => Ok a | Err e => Err (f e) end.
Definition is_ok {E A} (r : result E A) : bool :=
  match r with Ok _ => true | Err _ => false end.

(** A [for] loop whose body may return early with an error. *)
Fixpoint for_each {E A} (f : A → result E unit) (l : list A) : result E unit :=
  match l with
  | [] => Ok tt
  | x :: l => f x ;; for_each f l
  end.

(** A [for] loop that pushes one value per iteration, with early return. *)
Fixpoint try_map {E A B} (f : A → result E B) (l : list A) : result E (list B) :=
  match l with
  | [] => Ok []
  | x :: l => y ← f x; ys ← try_map f l; Ok (y :: ys)
  end.

(** A [for] loop that updates a state and may return early. *)
Fixpoint try_foldl {E A B} (f : A → B → result E A) (a : A) (l : list B) : result E A :=
  match l with
  | [] => Ok a
  | x :: l => a ← f a x; try_foldl f a l
  end.

Section result_lemmas.
Context {E A B : Type}.

Lemma try_foldl_preserves (f : A → B → result E A) (P : A → Prop) l a a' :
  try_foldl f a l = Ok a' → P a → (∀ a b a', P a → f a b = Ok a' → P a') → P a'.
Proof.
  revert a. induction l as [|b l IH]; intros a Hl Ha Hf; cbn in Hl; [by injection Hl as <-|].
  destruct (f a b) as [a1|] eqn:Hb; [|done]. eapply IH; eauto.
Qed.

Lemma bind_Ok (m : result E A) (f : A → result E B) b :
  m ≫= f = Ok b ↔ ∃ a, m = Ok a ∧ f a = Ok b.
Proof.
  destruct m; cbn; split; [eauto| |done|].
  - by intros (? & [= ->] & ?).
  - by intros (? & ? & ?).
Qed.

Lemma bind_Err (m : result E A) (f : A → result E B) e :
  m ≫= f = Err e ↔ m = Err e ∨ ∃ a, m = Ok a ∧ f a = Err e.
Proof. destruct m; cbn; naive_solver. Qed.

Lemma bail_if_Ok c (e : E) u : bail_if c e = Ok u ↔ c = false.
Proof. destruct c, u; cbn; naive_solver. Qed.

Lemma bail_if_Err c (e e' : E) : bail_if c e = Err e' ↔ c = true ∧ e = e'.
Proof. destruct c; cbn; naive_solver. Qed.

Lemma ok_or_Ok (o : option A) (e : E) a : ok_or o e = Ok a ↔ o = Some a.
Proof. destruct o; cbn; naive_solver. Qed.

Lemma map_err_Ok {F} (f : E → F) (r : result E A) a :
  map_err f r = Ok a ↔ r = Ok a.
Proof. destruct r; cbn; naive_solver. Qed.

Lemma is_ok_true (r : result E A) : is_ok r = true ↔ ∃ a, r = Ok a.
Proof. destruct r; cbn; naive_solver. Qed.

Lemma ok_Some (r : result E A) a : ok r = Some a ↔ r = Ok a.
Proof. destruct r; cbn; naive_solver. Qed.

Lemma for_each_Ok (f : A → result E unit) l u :
  for_each f l = Ok u ↔ Forall (λ x, f x = Ok tt) l.
Proof.
  destruct u. induction l as [|x l IH]; cbn.
  - split; [by constructor|done].
  - rewrite Forall_cons. destruct (f x) as [[]|]; cbn; naive_solver.
Qed.

Lemma try_map_Ok (f : A → result E B) l ys :
  try_map f l = Ok ys ↔ Forall2 (λ x y, f x = Ok y) l ys.
Proof.
  revert ys. induction l as [|x l IH]; intros ys; cbn.
  - split; [by intros [= <-]|]. by intros ->%Forall2_nil_inv_l.
  - destruct (f x) as [y|e] eqn:Hx; cbn.
    + destruct (try_map f l) as [ys'|e] eqn:Hl; cbn; split.
      * intros [= <-]. constructor; [done|by apply IH].
      * inversion 1 as [|? y' ? ys'' Hy Hys]; subst.
        apply IH in Hys. congruence.
      * done.
      * inversion 1 as [|? y' ? ys'' Hy Hys]; subst.
        apply IH in Hys. congruence.
    + split; [done|]. inversion 1; congruence.
Qed.
End result_lemmas.




(** [Ok] is injective, without looking into its argument. *)
Lemma Ok_inj {E A} (a b : A) : @Ok E A a = Ok b → a = b.
Proof. by intros [= ->]. Qed.

(** Inverts the hypotheses that say a fallible computation returned [Ok]. *)
Ltac inv_ok :=
  repeat match goal with
  | H : @mbind _ _ _ _ _ _ = Ok _ |- _ => apply bind_Ok in H as (? & ? & H)
  | H : bail_if _ _ = Ok _ |- _ => apply bail_if_Ok in H
  | H : ok_or _ _ = Ok _ |- _ => apply ok_or_Ok in H
  | H : map_err _ _ = Ok _ |- _ => apply map_err_Ok in H
  | H : for_each _ _ = Ok _ |- _ => apply for_each_Ok in H
  | H : Ok _ = Ok _ |- _ => apply Ok_inj in H
  | H : Err _ = Ok _ |- _ => discriminate H
  | H : _ || _ = false |- _ => apply orb_false_iff in H as [? H]
  | H : _ && _ = true |- _ => apply andb_true_iff in H as [? H]
  | H : negb _ = false |- _ => apply negb_false_iff in H
  | H : negb _ = true |- _ => apply negb_true_iff in H
  | H : bool_decide _ = true |- _ => apply bool_decide_eq_true in H
  | H : bool_decide _ = false |- _ => apply bool_decide_eq_false in H
  | H : Z.ltb _ _ = true |- _ => apply Z.ltb_lt in H
  | H : Z.ltb _ _ = false |- _ => apply Z.ltb_ge in H
  | H : Z.leb _ _ = true |- _ => apply Z.leb_le in H
  | H : Z.leb _ _ = false |- _ => apply Z.leb_gt in H
  | H : Z.eqb _ _ = true |- _ => apply Z.eqb_eq in H
  | H : Z.eqb _ _ = false |- _ => apply Z.eqb_neq in H
  end.

(** Decides a boolean guard from the facts in the context. *)
Ltac solve_guard :=
  rewrite ?orb_false_iff, ?orb_true_iff, ?andb_true_iff, ?negb_true_iff, ?negb_false_iff,
    ?bool_decide_eq_true, ?bool_decide_eq_false, ?Z.ltb_ge, ?Z.ltb_lt, ?Z.leb_gt, ?Z.leb_le,
    ?Z.eqb_eq, ?Z.eqb_neq;
  repeat split; first [done | lia | congruence | naive_solver].

Lemma fmap_Ok {E A B} (a : A) (f : A → B) : f <$> @Ok E A a = Ok (f a).
Proof. done. Qed.
Lemma bind_ret {E A B} (a : A) (f : A → result E B) : Ok a ≫= f = f a.
Proof. done. Qed.

(** Steps over the next early return whose guard is false. *)
Ltac pass_guard :=
  match goal with
  | |- @mbind _ _ _ _ _ (bail_if ?c ?e) = _ =>
      let H := fresh in
      assert (bail_if c e = Ok tt) as H by (apply bail_if_Ok; solve_guard);
      rewrite H; clear H
  | |- bail_if _ _ = Ok _ => apply bail_if_Ok; solve_guard
  | |- context [@mbind _ _ _ _ _ (bail_if ?c ?e)] =>
      let H := fresh in
      assert (bail_if c e = Ok tt) as H by (apply bail_if_Ok; solve_guard);
      rewrite H; clear H
  end; rewrite ?bind_ret; cbv beta iota zeta.
(** Steps over a call whose result an equation of the context gives. *)
Ltac pass_call H :=
  rewrite H; cbn [ok_or map_err]; rewrite ?bind_ret; cbv beta iota zeta.

(** Evaluates a closed decidable statement. *)
Ltac vm_decide := apply (bool_decide_unpack _); vm_compute; exact I.

(** ** Machine integers

    Unsigned integers are [Z] values in range.  Each operation names what
    Rust does at the edge of the range: saturate, wrap, or take the absolute
    difference. *)
Definition u64_max : Z := 18446744073709551615.
Definition in_u64 (x : Z) : Prop := 0 ≤ x ≤ u64_max.
Definition sat_add64 (a b : Z) : Z := Z.min u64_max (a + b).
Definition sat_add8 (a b : Z) : Z := Z.min 255 (a + b).
Definition sat_sub (a b : Z) : Z := Z.max 0 (a - b).
Definition abs_diff (a b : Z) : Z := Z.abs (a - b).
(** [u64] addition in a release build wraps around. *)
Definition wrap64 (x : Z) : Z := x mod 2 ^ 64.
Definition wrap_add64 (a b : Z) : Z := wrap64 (a + b).
Definition clamp (lo hi x : Z) : Z := Z.max lo (Z.min hi x).

(** [std::time]: an [Instant] and a [Duration] are counts of nanoseconds. *)
Definition secs (n : Z) : Z := n * 1000000000.
Definition millis (n : Z) : Z := n * 1000000.
Definition as_secs (d : Z) : Z := d / 1000000000.
Definition as_millis (d : Z) : Z := d / 1000000.
Definition as_micros (d : Z) : Z := d / 1000.
(** [Instant::saturating_duration_since] and [Instant::elapsed]. *)
Definition duration_since (now earlier : Z) : Z := sat_sub now earlier.

(** The length of a [Vec] or slice, as [usize]. *)
Definition len {A} (l : list A) : Z := Z.of_nat (length l).

Lemma len_nonneg {A} (l : list A) : 0 ≤ len l.
Proof. unfold len. lia. Qed.
Lemma len_nil {A} : len (@nil A) = 0.
Proof. done. Qed.
Lemma len_cons {A} (x : A) l : len (x :: l) = len l + 1.
Proof. unfold len; cbn; lia. Qed.
Lemma len_app {A} (l k : list A) : len (l ++ k) = len l + len k.
Proof. unfold len. rewrite length_app. lia. Qed.

(** [Vec::contains] and [Vec::is_empty]. *)
Definition contains {A} `{EqDecision A} (x : A) (l : list A) : bool :=
  bool_decide (x ∈ l).
Definition is_empty {A} (l : list A) : bool :=
  match l with [] => true | _ => false end.

Lemma contains_true {A} `{EqDecision A} (x : A) l : contains x l = true ↔ x ∈ l.
Proof. apply bool_decide_eq_true. Qed.
Lemma contains_false {A} `{EqDecision A} (x : A) l : contains x l = false ↔ x ∉ l.
Proof. apply bool_decide_eq_false. Qed.
Lemma is_empty_true {A} (l : list A) : is_empty l = true ↔ l = [].
Proof. by destruct l. Qed.
Lemma is_empty_false {A} (l : list A) : is_empty l = false ↔ l ≠ [].
Proof. by destruct l. Qed.

(** [Option::is_some_and] and [Option::is_none_or]. *)
Definition is_some_and {A} (o : option A) (f : A → bool) : bool :=
  match o with Some a => f a | None => false end.
Definition is_none_or {A} (o : option A) (f : A → bool) : bool :=
  match o with Some a => f a | None => true end.
Definition is_some {A} (o : option A) : bool :=
  match o with Some _ => true | None => false end.
Definition is_none {A} (o : option A) : bool := negb (is_some o).

Lemma is_some_true {A} (o : option A) : is_some o = true ↔ is_Some o.
Proof. unfold is_Some. destruct o; cbn; naive_solver. Qed.
Lemma is_some_false {A} (o : option A) : is_some o = false ↔ o = None.
Proof. by destruct o. Qed.

(** [Iterator::any] and [Iterator::all]. *)
Lemma existsb_elem {A} (f : A → bool) l :
  existsb f l = true ↔ ∃ x, x ∈ l ∧ f x = true.
Proof. rewrite existsb_exists. by setoid_rewrite list_elem_of_In. Qed.
Lemma existsb_not_elem {A} (f : A → bool) l :
  existsb f l = false ↔ ∀ x, x ∈ l → f x = false.
Proof.
  rewrite <-not_true_iff_false, existsb_elem. split.
  - intros H x Hx. apply not_true_iff_false. naive_solver.
  - intros H (x & Hx & Hf). specialize (H x Hx). congruence.
Qed.
Lemma forallb_elem {A} (f : A → bool) l :
  forallb f l = true ↔ ∀ x, x ∈ l → f x = true.
Proof. rewrite forallb_forall. by setoid_rewrite list_elem_of_In. Qed.

Lemma Forall2_elem_r {A B} (P : A → B → Prop) l k y :
  Forall2 P l k → y ∈ k → ∃ x, x ∈ l ∧ P x y.
Proof.
  induction 1 as [|a b l k Hab _ IH]; [by intros ?%elem_of_nil|].
  intros [->|Hy]%elem_of_cons; [exists a; by split; [left|]|].
  destruct (IH Hy) as (x & ? & ?). exists x. by split; [right|].
Qed.
Lemma elem_of_concat {A} (ls : list (list A)) x : x ∈ concat ls ↔ ∃ l, l ∈ ls ∧ x ∈ l.
Proof. setoid_rewrite list_elem_of_In. apply List.in_concat. Qed.
Lemma elem_of_list_filter {A} (f : A → bool) l x :
  x ∈ List.filter f l ↔ x ∈ l ∧ f x = true.
Proof. setoid_rewrite list_elem_of_In. apply List.filter_In. Qed.

(** The set of keys a validation loop has already inserted. *)
Lemma Forall_not_in_insert {A B} `{Countable B} (f : A → B) x (seen : gset B) l :
  Forall (λ a, f a ∉ {[x]} ∪ seen) l ↔ x ∉ map f l ∧ Forall (λ a, f a ∉ seen) l.
Proof.
  rewrite !Forall_forall, list_elem_of_fmap. setoid_rewrite not_elem_of_union.
  setoid_rewrite not_elem_of_singleton. split.
  - intros Hl. split; [|intros a Ha; by apply Hl].
    intros (a & -> & Ha). by destruct (Hl a Ha) as [[] _].
  - intros [Hx Hl] a Ha. split; [|by apply Hl]. intros <-. apply Hx. eauto.
Qed.

(** ** Bytes *)

Abbreviation bytes := (list Z).
Definition is_byte (b : Z) : Prop := 0 ≤ b < 256.
Definition wf_bytes (bs : bytes) : Prop := Forall is_byte bs.
#[export] Instance is_byte_dec b : Decision (is_byte b).
Proof. unfold is_byte. apply _. Defined.
#[export] Instance wf_bytes_dec bs : Decision (wf_bytes bs).
Proof. unfold wf_bytes. apply _. Defined.

(** [&v[a..b]] for a range the caller has checked, and the conversion of a
    slice into an array of [n] bytes. *)
Definition slice {A} (a b : nat) (l : list A) : list A := take (b - a) (drop a l).
Definition try_into (n : nat) (l : bytes) : option bytes :=
  if decide (length l = n) then Some l else None.

(** Big-endian integers: [to_be_bytes] and [from_be_bytes]. *)
Fixpoint be_bytes (n : nat) (v : Z) : bytes :=
  match n with
  | O => []
  | S m => (v / 256 ^ Z.of_nat m) mod 256 :: be_bytes m v
  end.
Definition from_be (bs : bytes) : Z := fold_left (λ acc b, acc * 256 + b) bs 0.

(** The bytes of an ASCII literal such as [b"MLR1"]. *)
Fixpoint bytes_of_string (s : string) : bytes :=
  match s with
  | EmptyString => []
  | String a s => Z.of_nat (Ascii.nat_of_ascii a) :: bytes_of_string s
  end.

Section bytes_lemmas.
Lemma try_into_Some n l l' : try_into n l = Some l' ↔ l' = l ∧ length l = n.
Proof. unfold try_into. case_decide; naive_solver. Qed.

Lemma try_into_length n l : length l = n → try_into n l = Some l.
Proof. intros. by apply try_into_Some. Qed.

Lemma length_be_bytes n v : length (be_bytes n v) = n.
Proof. induction n; cbn; congruence. Qed.

Lemma be_bytes_wf n v : wf_bytes (be_bytes n v).
Proof.
  induction n; cbn; constructor; [|done].
  apply Z.mod_pos_bound. lia.
Qed.

Lemma from_be_acc bs a :
  fold_left (λ acc b, acc * 256 + b) bs a
    = a * 256 ^ Z.of_nat (length bs) + from_be bs.
Proof.
  unfold from_be. revert a. induction bs as [|b bs IH]; intros a.
  - cbn. lia.
  - cbn [fold_left length]. rewrite IH, (IH (0 * 256 + b)), Nat2Z.inj_succ.
    rewrite Z.pow_succ_r by lia. ring.
Qed.

Lemma from_be_cons b bs :
  from_be (b :: bs) = b * 256 ^ Z.of_nat (length bs) + from_be bs.
Proof. unfold from_be at 1. cbn [fold_left]. rewrite from_be_acc. ring. Qed.

Lemma from_be_be_bytes n v :
  from_be (be_bytes n v) = v mod 256 ^ Z.of_nat n.
Proof.
  induction n as [|n IH].
  - cbn. by rewrite Z.mod_1_r.
  - cbn [be_bytes]. rewrite from_be_cons, length_be_bytes, IH.
    rewrite Nat2Z.inj_succ, Z.pow_succ_r by lia.
    set (p := 256 ^ Z.of_nat n). assert (0 < p) by (apply Z.pow_pos_nonneg; lia).
    rewrite (Z.mul_comm 256 p), Z.rem_mul_r by lia. lia.
Qed.

Lemma from_be_bound bs :
  wf_bytes bs → 0 ≤ from_be bs < 256 ^ Z.of_nat (length bs).
Proof.
  induction 1 as [|b bs Hb _ IH]; [done|].
  rewrite from_be_cons. cbn [length]. rewrite Nat2Z.inj_succ, Z.pow_succ_r by lia.
  unfold is_byte in Hb. nia.
Qed.

Lemma be_bytes_add n v k :
  be_bytes n (v + k * 256 ^ Z.of_nat n) = be_bytes n v.
Proof.
  revert v k. induction n as [|n IH]; intros v k; [done|].
  cbn [be_bytes]. rewrite Nat2Z.inj_succ, Z.pow_succ_r by lia.
  set (p := 256 ^ Z.of_nat n). assert (0 < p) by (apply Z.pow_pos_nonneg; lia).
  f_equal.
  - replace (v + k * (256 * p)) with (v + (k * 256) * p) by ring.
    rewrite Z.div_add by lia. by rewrite Z.mod_add by lia.
  - replace (v + k * (256 * p)) with (v + (k * 256) * p) by ring. apply IH.
Qed.

Lemma be_bytes_from_be bs :
  wf_bytes bs → be_bytes (length bs) (from_be bs) = bs.
Proof.
  induction 1 as [|b bs Hb Hbs IH]; [done|].
  cbn [length be_bytes]. rewrite from_be_cons.
  pose proof (from_be_bound bs Hbs) as Hf. unfold is_byte in Hb.
  set (p := 256 ^ Z.of_nat (length bs)) in *.
  f_equal.
  - rewrite Z.add_comm, Z.div_add by lia.
    rewrite Z.div_small by lia. rewrite Z.add_0_l. by apply Z.mod_small.
  - rewrite Z.add_comm. unfold p. by rewrite be_bytes_add.
Qed.

(** Reading back a field of a packet built by concatenation. *)
Lemma slice_app_here {A} (a b : nat) (l1 l2 l3 : list A) :
  length l1 = a → length l2 = (b - a)%nat → slice a b (l1 ++ l2 ++ l3) = l2.
Proof.
  intros <- H. unfold slice. rewrite drop_app_length.
  by rewrite take_app_length'.
Qed.

Lemma slice_app_end {A} (a b : nat) (l1 l2 : list A) :
  length l1 = a → length l2 = (b - a)%nat → slice a b (l1 ++ l2) = l2.
Proof. intros. rewrite <-(app_nil_r l2) at 1. by apply slice_app_here. Qed.

Lemma length_slice {A} a b (l : list A) :
  (a ≤ b)%nat → (b ≤ length l)%nat → length (slice a b l) = (b - a)%nat.
Proof. intros. unfold slice. rewrite length_take, length_drop. lia. Qed.

Lemma slice_wf a b l : wf_bytes l → wf_bytes (slice a b l).
Proof. intros. unfold slice. by apply Forall_take, Forall_drop. Qed.

Lemma bytes_of_string_wf s : wf_bytes (bytes_of_string s).
Proof.
  induction s as [|a s IH]; cbn; constructor; [|done].
  unfold is_byte. pose proof (Ascii.nat_ascii_bounded a). lia.
Qed.
End bytes_lemmas.

(** ** Sorting and deduplication

    [Vec::sort_by] is a stable sort and [Vec::dedup] drops an element equal
    to its predecessor.  Both are modelled on lists, the sort as a stable
    insertion sort. *)
Section sorting.
Context {A : Type} (le : A → A → bool).

Fixpoint insert_sorted (x : A) (l : list A) : list A :=
  match l with
  | [] => [x]
  | y :: l' => if le x y then x :: l else y :: insert_sorted x l'
  end.
Fixpoint sort_by (l : list A) : list A :=
  match l with
  | [] => []
  | x :: l => insert_sorted x (sort_by l)
  end.

Lemma insert_sorted_perm x l : insert_sorted x l ≡ₚ x :: l.
Proof.
  induction l as [|y l IH]; cbn; [done|]. destruct (le x y); [done|].
  rewrite IH. apply Permutation_swap.
Qed.
Lemma sort_by_perm l : sort_by l ≡ₚ l.
Proof. induction l; cbn; [done|]. rewrite insert_sorted_perm. by constructor. Qed.
Lemma elem_of_sort_by x l : x ∈ sort_by l ↔ x ∈ l.
Proof. by rewrite sort_by_perm. Qed.
Lemma length_sort_by l : length (sort_by l) = length l.
Proof. apply Permutation_length, sort_by_perm. Qed.
Lemma NoDup_sort_by l : NoDup (sort_by l) ↔ NoDup l.
Proof. by rewrite sort_by_perm. Qed.
Lemma sort_by_nil_iff l : sort_by l = [] ↔ l = [].
Proof.
  split; [|by intros ->]. intros H. apply Permutation_nil_r.
  by rewrite <-H, sort_by_perm.
Qed.

Definition le_rel (x y : A) : Prop := le x y = true.

(** A sorted list is left alone, whatever the order. *)
Lemma sort_by_sorted l : StronglySorted le_rel l → sort_by l = l.
Proof.
  induction 1 as [|x l Hl IH Hx]; [done|]. cbn. rewrite IH.
  destruct Hx as [|y l Hxy]; [done|]. cbn. unfold le_rel in Hxy. by rewrite Hxy.
Qed.

Context (le_total : ∀ x y, le x y = true ∨ le y x = true).
Context (le_trans : ∀ x y z, le x y = true → le y z = true → le x z = true).

Lemma insert_sorted_sorted x l :
  StronglySorted le_rel l → StronglySorted le_rel (insert_sorted x l).
Proof using le_total le_trans.
  induction 1 as [|y l Hl IH Hy]; cbn; [repeat constructor|].
  destruct (le x y) eqn:Hxy.
  - constructor; [by constructor|]. constructor; [done|].
    eapply Forall_impl; [exact Hy|]. intros z. unfold le_rel. eauto.
  - constructor; [done|]. rewrite insert_sorted_perm. constructor; [|done].
    unfold le_rel. destruct (le_total x y); congruence.
Qed.
Lemma sort_by_StronglySorted l : StronglySorted le_rel (sort_by l).
Proof using le_total le_trans.
  induction l; cbn; [constructor|]. by apply insert_sorted_sorted.
Qed.
Lemma sort_by_idemp l : sort_by (sort_by l) = sort_by l.
Proof using le_total le_trans. apply sort_by_sorted, sort_by_StronglySorted. Qed.

(** With an antisymmetric order the result does not depend on the order of
    the input (a [HashMap] iteration, say). *)
Context (le_antisym : ∀ x y, le x y = true → le y x = true → x = y).

Lemma StronglySorted_perm_unique l k :
  StronglySorted le_rel l → StronglySorted le_rel k → l ≡ₚ k → l = k.
Proof using le_antisym.
  intros Hl. revert k. induction Hl as [|x l Hl IH Hx]; intros k Hk Hp.
  - by apply Permutation_nil_l in Hp.
  - destruct Hk as [|y k Hk Hy]; [by apply Permutation_nil_r in Hp|].
    assert (x = y) as ->.
    { assert (x ∈ y :: k) as [->|Hxk]%elem_of_cons by (rewrite <-Hp; left); [done|].
      assert (y ∈ x :: l) as [->|Hyl]%elem_of_cons by (rewrite Hp; left); [done|].
      rewrite Forall_forall in Hx, Hy. apply le_antisym.
      - by apply Hx.
      - by apply Hy. }
    f_equal. apply IH; [done|]. by apply Permutation_cons_inv in Hp.
Qed.
Lemma sort_by_unique l k : l ≡ₚ k → sort_by l = sort_by k.
Proof using le_total le_trans le_antisym.
  intros Hp. apply StronglySorted_perm_unique; try apply sort_by_StronglySorted.
  by rewrite !sort_by_perm.
Qed.
End sorting.

Section dedup.
Context {A : Type} `{EqDecision A}.

Fixpoint dedup (l : list A) : list A :=
  match l with
  | [] => []
  | x :: t =>
      match t with
      | [] => [x]
      | y :: _ => if decide (x = y) then dedup t else x :: dedup t
      end
  end.

Lemma dedup_cons x y l :
  dedup (x :: y :: l) = if decide (x = y) then dedup (y :: l) else x :: dedup (y :: l).
Proof. done. Qed.

Lemma elem_of_dedup x l : x ∈ dedup l ↔ x ∈ l.
Proof.
  induction l as [|y l IH]; [done|]. destruct l as [|z l]; [done|].
  rewrite dedup_cons. case_decide as Hyz.
  - rewrite IH, (elem_of_cons (z :: l)). subst. set_solver.
  - rewrite !elem_of_cons, IH, elem_of_cons. done.
Qed.

Lemma length_dedup l : (length (dedup l) ≤ length l)%nat.
Proof.
  induction l as [|y l IH]; [done|]. destruct l as [|z l]; [done|].
  rewrite dedup_cons. case_decide; cbn [length] in *; lia.
Qed.

Lemma dedup_NoDup_id l : NoDup l → dedup l = l.
Proof.
  induction 1 as [|x l Hx Hl IH]; [done|]. destruct l as [|y l]; [done|].
  rewrite dedup_cons, decide_False, IH; [done|]. set_solver.
Qed.

Lemma dedup_nil_iff l : dedup l = [] ↔ l = [].
Proof.
  split; [|by intros ->]. destruct l as [|x l]; [done|]. intros H.
  assert (x ∈ dedup (x :: l)) as Hx by (rewrite elem_of_dedup; left).
  rewrite H in Hx. by apply elem_of_nil in Hx.
Qed.

Context (le : A → A → bool).
Context (le_antisym : ∀ x y, le x y = true → le y x = true → x = y).

Lemma dedup_sorted l :
  StronglySorted (le_rel le) l →
  StronglySorted (le_rel le) (dedup l) ∧ NoDup (dedup l).
Proof using le_antisym.
  induction 1 as [|x l Hl [IHs IHn] Hx]; [by split; constructor|].
  destruct l as [|y l]; [split; repeat constructor; set_solver|].
  rewrite dedup_cons. case_decide as Hxy; [done|].
  assert (Forall (le_rel le x) (dedup (y :: l))).
  { rewrite Forall_forall in Hx |- *. intros z Hz. apply Hx. by rewrite elem_of_dedup in Hz. }
  split; [by constructor|]. constructor; [|done].
  intros Hin. rewrite elem_of_dedup in Hin. apply elem_of_cons in Hin as [?|Hin]; [done|].
  inversion Hl as [|? ? _ Hy]; subst. inversion Hx as [|? ? Hxy' _]; subst.
  rewrite Forall_forall in Hy. apply Hxy, le_antisym; [done|]. by apply Hy.
Qed.
End dedup.

(** [Iterator::find] returns the first element that satisfies the test. *)
(** A [for] loop that updates a state keeps what each turn keeps. *)
Lemma foldl_preserves {A B} (f : A → B → A) (P : A → Prop) l a :
  P a → (∀ a b, b ∈ l → P a → P (f a b)) → P (foldl f a l).
Proof.
  revert a. induction l as [|b l IH]; intros a Ha Hf; cbn; [done|].
  apply IH; [apply Hf; [by left|done]|]. intros a' b' Hb. apply Hf. by right.
Qed.

Lemma find_first_Some {A} (f : A → bool) l x :
  List.find f l = Some x
  ↔ ∃ l1 l2, l = l1 ++ x :: l2 ∧ f x = true ∧ ∀ y, y ∈ l1 → f y = false.
Proof.
  split.
  - induction l as [|z l IH]; cbn; [done|]. destruct (f z) eqn:Hz.
    + intros [= ->]. exists [], l. split_and!; [done|done|]. by intros y ?%elem_of_nil.
    + intros (l1 & l2 & -> & Hx & Hl)%IH. exists (z :: l1), l2. split_and!; [done|done|].
      by intros y [->|?]%elem_of_cons; [|apply Hl].
  - intros (l1 & l2 & -> & Hx & Hl). induction l1 as [|z l1 IH]; cbn; [by rewrite Hx|].
    rewrite (Hl z) by (by left). apply IH. intros y ?. apply Hl. by right.
Qed.

(** A partial map that is defined on one element of a list at most. *)
Lemma length_omap_le_1 {A B} (f : A → option B) l :
  NoDup l → (∀ x y, x ∈ l → y ∈ l → is_Some (f x) → is_Some (f y) → x = y) →
  (length (omap f l) ≤ 1)%nat.
Proof.
  induction 1 as [|x l Hx Hl IH]; intros Hf; cbn; [lia|].
  assert (length (omap f l) ≤ 1)%nat as IH' by (apply IH; intros; apply Hf; set_solver).
  destruct (f x) as [y|] eqn:Hy; [|done]. cbn.
  destruct (omap f l) as [|z k] eqn:Hz; [cbn; lia|]. destruct Hx.
  assert (z ∈ omap f l) as (x' & Hx' & Hfx')%list_elem_of_omap by (rewrite Hz; set_solver).
  assert (x = x') as ->; [|done]. apply Hf; [set_solver|set_solver|by eexists|by eexists].
Qed.

(** ** Selection: [min_by_key] (first minimum) and [max_by_key] (last maximum) *)
Section selection.
Context {A : Type} (key : A → Z).

Fixpoint min_by_key (l : list A) : option A :=
  match l with
  | [] => None
  | x :: l =>
      match min_by_key l with
      | Some y => if key y <? key x then Some y else Some x
      | None => Some x
      end
  end.
Fixpoint max_by_key (l : list A) : option A :=
  match l with
  | [] => None
  | x :: l =>
      match max_by_key l with
      | Some y => if key y <? key x then Some x else Some y
      | None => Some x
      end
  end.

Lemma min_by_key_None l : min_by_key l = None ↔ l = [].
Proof. destruct l as [|x l]; cbn; [done|]. repeat case_match; naive_solver. Qed.
Lemma max_by_key_None l : max_by_key l = None ↔ l = [].
Proof. destruct l as [|x l]; cbn; [done|]. repeat case_match; naive_solver. Qed.

Lemma min_by_key_Some l x :
  min_by_key l = Some x → x ∈ l ∧ ∀ y, y ∈ l → key x ≤ key y.
Proof.
  revert x. induction l as [|z l IH]; intros x; cbn; [done|].
  destruct (min_by_key l) as [m|] eqn:Hm.
  - destruct (IH m eq_refl) as [Hml Hmin].
    destruct (key m <? key z) eqn:Hlt; intros [= <-].
    + split; [by right|]. apply Z.ltb_lt in Hlt.
      intros y [->|Hy]%elem_of_cons; [lia|by apply Hmin].
    + split; [by left|]. apply Z.ltb_ge in Hlt.
      intros y [->|Hy]%elem_of_cons; [lia|]. specialize (Hmin y Hy). lia.
  - intros [= <-]. apply min_by_key_None in Hm as ->.
    split; [by left|]. intros y ->%list_elem_of_singleton. lia.
Qed.
Lemma max_by_key_Some l x :
  max_by_key l = Some x → x ∈ l ∧ ∀ y, y ∈ l → key y ≤ key x.
Proof.
  revert x. induction l as [|z l IH]; intros x; cbn; [done|].
  destruct (max_by_key l) as [m|] eqn:Hm.
  - destruct (IH m eq_refl) as [Hml Hmin].
    destruct (key m <? key z) eqn:Hlt; intros [= <-].
    + split; [by left|]. apply Z.ltb_lt in Hlt.
      intros y [->|Hy]%elem_of_cons; [lia|]. specialize (Hmin y Hy). lia.
    + split; [by right|]. apply Z.ltb_ge in Hlt.
      intros y [->|Hy]%elem_of_cons; [lia|by apply Hmin].
  - intros [= <-]. apply max_by_key_None in Hm as ->.
    split; [by left|]. intros y ->%list_elem_of_singleton. lia.
Qed.
End selection.

(** A scan for the largest key that fails closed: an element of the same key
    as the best so far makes the result ambiguous when [tie] says so, until a
    larger key is met. *)
Section select_best.
Context {A : Type} (key : A → Z) (tie : A → A → bool).

Fixpoint scan_best (best : A) (ambiguous : bool) (l : list A) : option A :=
  match l with
  | [] => if ambiguous then None else Some best
  | x :: l =>
      if key best <? key x then scan_best x false l
      else if (key x =? key best) && tie x best then scan_best best true l
      else scan_best best ambiguous l
  end.
Definition select_best (l : list A) : option A :=
  match l with [] => None | x :: l => scan_best x false l end.

Lemma scan_best_Some best ambiguous l b :
  scan_best best ambiguous l = Some b →
  (b = best ∧ ambiguous = false ∨ b ∈ l ∧ key best < key b)
  ∧ (∀ x, x ∈ l → key x ≤ key b)
  ∧ key best ≤ key b
  ∧ ∃ l1 l2, best :: l = l1 ++ b :: l2 ∧ (∀ x, x ∈ l1 → key x < key b)
      ∧ ∀ x, x ∈ l2 → key x = key b → tie x b = false.
Proof.
  revert best ambiguous. induction l as [|x l IH]; intros best ambiguous; cbn.
  { destruct ambiguous; [done|]. intros [= <-]. split_and!; [by left|set_solver|lia|].
    exists [], []. split_and!; [done|set_solver|set_solver]. }
  destruct (key best <? key x) eqn:Hlt.
  - apply Z.ltb_lt in Hlt. intros (Hb & Hmax & Hle & l1 & l2 & E & Hl1 & Hl2)%IH. split_and!.
    + right. destruct Hb as [[-> _]|[? ?]]; [by split; [left|]|split; [by right|lia]].
    + intros y [->|Hy]%elem_of_cons; [lia|by apply Hmax].
    + lia.
    + exists (best :: l1), l2. split_and!; [by rewrite E| |done].
      intros y [->|Hy]%elem_of_cons; [lia|by apply Hl1].
  - apply Z.ltb_ge in Hlt. destruct ((key x =? key best) && tie x best) eqn:Ht.
    + apply andb_true_iff in Ht as [Hk _]. apply Z.eqb_eq in Hk.
      intros (Hb & Hmax & Hle & l1 & l2 & E & Hl1 & Hl2)%IH.
      destruct Hb as [[_ ?]|[Hb Hlt']]; [done|]. split_and!.
      * right. split; [by right|done].
      * intros y [->|Hy]%elem_of_cons; [lia|by apply Hmax].
      * lia.
      * destruct l1 as [|z l1]; [injection E as -> _; lia|]. injection E as -> ->.
        exists (z :: x :: l1), l2. split_and!; [done| |done].
        intros y [->|[->|Hy]%elem_of_cons]%elem_of_cons; [apply Hl1; by left|lia|].
        apply Hl1. by right.
    + intros (Hb & Hmax & Hle & l1 & l2 & E & Hl1 & Hl2)%IH. split_and!.
      * destruct Hb as [?|[? ?]]; [by left|right; split; [by right|done]].
      * intros y [->|Hy]%elem_of_cons; [lia|by apply Hmax].
      * lia.
      * destruct l1 as [|z l1]; injection E as -> ->.
        { exists [], (x :: l2). split_and!; [done|set_solver|].
          intros y [->|Hy]%elem_of_cons Hky; [|by apply Hl2].
          apply andb_false_iff in Ht as [Ht|Ht]; [apply Z.eqb_neq in Ht; lia|done]. }
        exists (z :: x :: l1), l2. split_and!; [done| |done].
        assert (key z < key b) by (apply Hl1; by left).
        intros y [->|[->|Hy]%elem_of_cons]%elem_of_cons; [lia|lia|]. apply Hl1. by right.
Qed.

(** The selected element has the largest key, and every other occurrence of
    that key is one it does not tie with. *)
Lemma select_best_Some l b :
  select_best l = Some b →
  (∀ x, x ∈ l → key x ≤ key b)
  ∧ ∃ l1 l2, l = l1 ++ b :: l2 ∧ (∀ x, x ∈ l1 → key x < key b)
      ∧ ∀ x, x ∈ l2 → key x = key b → tie x b = false.
Proof.
  destruct l as [|x l]; [done|]. cbn. intros (Hb & Hmax & Hle & Hex)%scan_best_Some.
  split; [|done]. intros y [->|Hy]%elem_of_cons; [lia|by apply Hmax].
Qed.
End select_best.

(** Lexicographic order on lists of integers (the order of byte strings). *)
Fixpoint lex_le (l k : list Z) : bool :=
  match l, k with
  | [], _ => true
  | _ :: _, [] => false
  | x :: l, y :: k => (x <? y) || ((x =? y) && lex_le l k)
  end.

Lemma lex_le_total l k : lex_le l k = true ∨ lex_le k l = true.
Proof.
  revert k. induction l as [|x l IH]; intros [|y k]; cbn; eauto.
  destruct (Z.lt_trichotomy x y) as [?|[->|?]].
  - left. by rewrite (proj2 (Z.ltb_lt x y)).
  - rewrite Z.ltb_irrefl, Z.eqb_refl. cbn. apply IH.
  - right. by rewrite (proj2 (Z.ltb_lt y x)).
Qed.
Lemma lex_le_antisym l k : lex_le l k = true → lex_le k l = true → l = k.
Proof.
  revert k. induction l as [|x l IH]; intros [|y k]; cbn; try done.
  rewrite !orb_true_iff, !andb_true_iff, !Z.ltb_lt, !Z.eqb_eq.
  intros [?|[-> ?]] [?|[? ?]]; try lia. f_equal. by apply IH.
Qed.
Lemma lex_le_trans l k m : lex_le l k = true → lex_le k m = true → lex_le l m = true.
Proof.
  revert k m. induction l as [|x l IH]; intros [|y k] [|z m]; cbn; try done.
  rewrite !orb_true_iff, !andb_true_iff, !Z.ltb_lt, !Z.eqb_eq.
  intros [?|[-> ?]] [?|[-> ?]]; try (left; lia). right. split; [done|eauto].
Qed.
