(* ===== verification/Request.v ===== *)
(** * Request handlers over shared state

    A handler of a server holds the lock on the state while it runs: it reads
    and updates the state and may return early with an error.  An early return
    keeps the updates made before it, so the state comes out in both cases.
    Two handlers never interleave, since each takes the write lock. *)
From S2P Require Import Prelude.

Definition handler (S E A : Type) : Type := S → result E A * S.

Section handler.
Context {S E : Type}.
Implicit Types s : S.

#[global] Instance handler_ret : MRet (handler S E) := λ A a s, (Ok a, s).
#[global] Instance handler_bind : MBind (handler S E) := λ A B f m s,
  match m s with (Ok a, s) => f a s | (Err e, s) => (Err e, s) end.
(** Reading and replacing the state, and the [?] of a fallible expression. *)
Definition read : handler S E S := λ s, (Ok s, s).
Definition write (s : S) : handler S E unit := λ _, (Ok tt, s).
Definition lift {A} (r : result E A) : handler S E A := λ s, (r, s).

(** A call whose error is looked at instead of returned. *)
Definition attempt {F A} (m : handler S E A) : handler S F (result E A) :=
  λ s, let '(r, s) := m s in (Ok r, s).

Lemma handler_bind_Ok {A B} (m : handler S E A) (f : A → handler S E B) s b s' :
  (m ≫= f) s = (Ok b, s') ↔ ∃ a s1, m s = (Ok a, s1) ∧ f a s1 = (Ok b, s').
Proof.
  unfold mbind, handler_bind. destruct (m s) as [[a|e] s1]; split.
  - intros ?. by exists a, s1.
  - by intros (a' & s1' & [= <- <-] & ?).
  - done.
  - by intros (a' & s1' & ? & ?).
Qed.
Lemma handler_bind_run {A B} (m : handler S E A) (f : A → handler S E B) s r s' :
  (m ≫= f) s = (r, s') →
  (∃ a s1, m s = (Ok a, s1) ∧ f a s1 = (r, s')) ∨ (∃ e, m s = (Err e, s') ∧ r = Err e).
Proof.
  unfold mbind, handler_bind. destruct (m s) as [[a|e] s1]; intros Hr.
  - left. eauto.
  - injection Hr as <- <-. right. eauto.
Qed.
Lemma handler_bind_Err {A B} (m : handler S E A) (f : A → handler S E B) s e s' :
  m s = (Err e, s') → (m ≫= f) s = (Err e, s').
Proof. unfold mbind, handler_bind. by intros ->. Qed.
Lemma lift_run {A} (x : result E A) s r s' : lift x s = (r, s') → x = r ∧ s' = s.
Proof. by intros [= <- <-]. Qed.
Lemma read_run s r s' : read s = (r, s') → r = Ok s ∧ s' = s.
Proof. by intros [= <- <-]. Qed.
Lemma write_run s1 s r s' : write s1 s = (r, s') → r = Ok tt ∧ s' = s1.
Proof. by intros [= <- <-]. Qed.
Lemma ret_run {A} (a : A) s r s' : (mret a : handler S E A) s = (r, s') → r = Ok a ∧ s' = s.
Proof. by intros [= <- <-]. Qed.
End handler.

(** Handlers that relate the state they find to the one they leave. *)
Section within.
Context {S E : Type} (R : relation S) `{!PreOrder R}.
Definition within {A} (m : handler S E A) : Prop := ∀ s r s', m s = (r, s') → R s s'.
Lemma within_bind {A B} (m : handler S E A) (f : A → handler S E B) :
  within m → (∀ a, within (f a)) → within (m ≫= f).
Proof.
  intros Hm Hf s r s' [(a & s1 & H1 & H2)|(e & H1 & _)]%handler_bind_run; [|by eapply Hm].
  transitivity s1; [by eapply Hm|by eapply Hf].
Qed.
Lemma within_lift {A} (r : result E A) : within (lift r).
Proof. by intros s r' s' [= _ <-]. Qed.
Lemma within_mret {A} (a : A) : within (mret a).
Proof. by intros s r' s' [= _ <-]. Qed.
Lemma within_update (f : S → S) : (∀ s, R s (f s)) → within (s ← read; write (f s)).
Proof. intros Hf s r s' [= _ <-]. apply Hf. Qed.
End within.

(** Runs a handler in a hypothesis: one case per way it may return. *)
Ltac run_handler H :=
  repeat lazymatch type of H with
  | (_ ≫= _) ?s = (_, _) =>
      let Hrun := fresh "Hrun" in
      apply handler_bind_run in H as [(?x & ?s1 & Hrun & H)|(?e & Hrun & H)];
      run_handler Hrun
  | lift _ _ = (_, _) => apply lift_run in H as [H ->]
  | read _ = (_, _) => apply read_run in H as [H ->]; try (injection H as ->); try discriminate H
  | write _ _ = (_, _) => apply write_run in H as [H ->]; try discriminate H
  | mret _ _ = (_, _) => apply ret_run in H as [H ->]
  end.
