(* ===== verification/Net.v ===== *)
(** * [std::net]: addresses and endpoints

    IP addresses are integers in network byte order (32 or 128 bits).  The
    classification predicates are those of the Rust standard library; the
    socket addresses keep the flow label and scope of IPv6 endpoints because
    the derived equality and order of [SocketAddr] see them. *)
From S2P Require Import Prelude.
#[local] Open Scope Z_scope.

Inductive IpAddr : Type :=
| V4 (a : Z)
| V6 (a : Z).

#[export] Instance IpAddr_eq_dec : EqDecision IpAddr.
Proof. solve_decision. Defined.
#[export] Instance IpAddr_countable : Countable IpAddr.
Proof.
  refine (inj_countable' (λ i, match i with V4 a => inl a | V6 a => inr a end)
    (λ s, match s with inl a => V4 a | inr a => V6 a end) _).
  by intros [].
Defined.

Inductive SocketAddr : Type :=
| SA4 (ip port : Z)
| SA6 (ip port flowinfo scope_id : Z).

#[export] Instance SocketAddr_eq_dec : EqDecision SocketAddr.
Proof. solve_decision. Defined.
#[export] Instance SocketAddr_countable : Countable SocketAddr.
Proof.
  refine (inj_countable'
    (λ s, match s with SA4 i p => inl (i, p) | SA6 i p f s => inr (i, p, f, s) end)
    (λ s, match s with inl (i, p) => SA4 i p | inr (i, p, f, s) => SA6 i p f s end) _).
  by intros [].
Defined.

(** Well-formed values: what the machine representation can hold. *)
Definition wf_ip (a : IpAddr) : Prop :=
  match a with V4 a => 0 ≤ a < 2 ^ 32 | V6 a => 0 ≤ a < 2 ^ 128 end.
Definition wf_port (p : Z) : Prop := 0 ≤ p < 65536.

Definition is_ipv4 (a : IpAddr) : bool := match a with V4 _ => true | V6 _ => false end.
Definition is_ipv6 (a : IpAddr) : bool := negb (is_ipv4 a).

Definition socket_ip (s : SocketAddr) : IpAddr :=
  match s with SA4 ip _ => V4 ip | SA6 ip _ _ _ => V6 ip end.
Definition socket_port (s : SocketAddr) : Z :=
  match s with SA4 _ p => p | SA6 _ p _ _ => p end.
(** [SocketAddr::new] leaves flow label and scope at zero. *)
Definition socket_new (ip : IpAddr) (port : Z) : SocketAddr :=
  match ip with V4 a => SA4 a port | V6 a => SA6 a port 0 0 end.
Definition socket_is_ipv4 (s : SocketAddr) : bool := is_ipv4 (socket_ip s).

(** [octets()] and the conversions back. *)
Definition ip_octets (a : IpAddr) : bytes :=
  match a with V4 a => be_bytes 4 a | V6 a => be_bytes 16 a end.
Definition ipv4_of_octets (o : bytes) : IpAddr := V4 (from_be o).
Definition ipv6_of_octets (o : bytes) : IpAddr := V6 (from_be o).

(** ** Classification *)
Module Ipv4.
Definition BROADCAST : Z := 4294967295.
Definition octet0 (a : Z) : Z := a / 2 ^ 24.
Definition octet1 (a : Z) : Z := (a / 2 ^ 16) mod 256.
Definition is_unspecified (a : Z) : bool := a =? 0.
Definition is_broadcast (a : Z) : bool := a =? BROADCAST.
Definition is_multicast (a : Z) : bool := (224 <=? octet0 a) && (octet0 a <=? 239).
Definition is_loopback (a : Z) : bool := octet0 a =? 127.
Definition is_private (a : Z) : bool :=
  (octet0 a =? 10)
  || ((octet0 a =? 172) && (16 <=? octet1 a) && (octet1 a <=? 31))
  || ((octet0 a =? 192) && (octet1 a =? 168)).
Definition is_link_local (a : Z) : bool := (octet0 a =? 169) && (octet1 a =? 254).
End Ipv4.

Module Ipv6.
Definition segment0 (a : Z) : Z := a / 2 ^ 112.
Definition is_unspecified (a : Z) : bool := a =? 0.
Definition is_loopback (a : Z) : bool := a =? 1.
Definition is_multicast (a : Z) : bool := a / 2 ^ 120 =? 255.
Definition is_unique_local (a : Z) : bool := Z.land (segment0 a) 65024 =? 64512.
Definition is_unicast_link_local (a : Z) : bool := Z.land (segment0 a) 65472 =? 65152.
End Ipv6.

Definition ip_is_unspecified (a : IpAddr) : bool :=
  match a with V4 a => Ipv4.is_unspecified a | V6 a => Ipv6.is_unspecified a end.
Definition ip_is_multicast (a : IpAddr) : bool :=
  match a with V4 a => Ipv4.is_multicast a | V6 a => Ipv6.is_multicast a end.
Definition ip_is_loopback (a : IpAddr) : bool :=
  match a with V4 a => Ipv4.is_loopback a | V6 a => Ipv6.is_loopback a end.

(** ** The derived orders: IPv4 before IPv6, then the fields in order *)
Definition ip_key (a : IpAddr) : list Z :=
  match a with V4 a => [0; a] | V6 a => [1; a] end.
Definition socket_key (s : SocketAddr) : list Z :=
  match s with SA4 i p => [0; i; p] | SA6 i p f s => [1; i; p; f; s] end.
Definition ip_le (a b : IpAddr) : bool := lex_le (ip_key a) (ip_key b).
Definition socket_le (a b : SocketAddr) : bool := lex_le (socket_key a) (socket_key b).

#[export] Instance ip_key_inj : Inj (=) (=) ip_key.
Proof. intros [] []; cbn; congruence. Qed.
#[export] Instance socket_key_inj : Inj (=) (=) socket_key.
Proof. intros [] []; cbn; congruence. Qed.

Lemma ip_le_total a b : ip_le a b = true ∨ ip_le b a = true.
Proof. apply lex_le_total. Qed.
Lemma ip_le_trans a b c : ip_le a b = true → ip_le b c = true → ip_le a c = true.
Proof. apply lex_le_trans. Qed.
Lemma ip_le_antisym a b : ip_le a b = true → ip_le b a = true → a = b.
Proof. intros. by apply (inj ip_key), lex_le_antisym. Qed.
Lemma socket_le_total a b : socket_le a b = true ∨ socket_le b a = true.
Proof. apply lex_le_total. Qed.
Lemma socket_le_trans a b c :
  socket_le a b = true → socket_le b c = true → socket_le a c = true.
Proof. apply lex_le_trans. Qed.
Lemma socket_le_antisym a b : socket_le a b = true → socket_le b a = true → a = b.
Proof. intros. by apply (inj socket_key), lex_le_antisym. Qed.

(** [sort_unstable] followed by [dedup]: a sorted list without duplicates,
    with the same elements. *)
Lemma ips_sort_dedup l :
  NoDup (dedup (sort_by ip_le l)) ∧ ∀ a, a ∈ dedup (sort_by ip_le l) ↔ a ∈ l.
Proof.
  split.
  - eapply dedup_sorted; [apply ip_le_antisym|].
    apply sort_by_StronglySorted; [apply ip_le_total|apply ip_le_trans].
  - intros a. by rewrite elem_of_dedup, elem_of_sort_by.
Qed.
Lemma sockets_sort_dedup l :
  NoDup (dedup (sort_by socket_le l)) ∧ ∀ a, a ∈ dedup (sort_by socket_le l) ↔ a ∈ l.
Proof.
  split.
  - eapply dedup_sorted; [apply socket_le_antisym|].
    apply sort_by_StronglySorted; [apply socket_le_total|apply socket_le_trans].
  - intros a. by rewrite elem_of_dedup, elem_of_sort_by.
Qed.

Lemma length_ip_octets a :
  length (ip_octets a) = match a with V4 _ => 4%nat | V6 _ => 16%nat end.
Proof. by destruct a; cbn [ip_octets]; rewrite length_be_bytes. Qed.
Lemma ipv4_of_octets_octets a : wf_ip (V4 a) → ipv4_of_octets (be_bytes 4 a) = V4 a.
Proof.
  intros H. unfold ipv4_of_octets. rewrite from_be_be_bytes. f_equal.
  apply Z.mod_small. exact H.
Qed.
Lemma ipv6_of_octets_octets a : wf_ip (V6 a) → ipv6_of_octets (be_bytes 16 a) = V6 a.
Proof.
  intros H. unfold ipv6_of_octets. rewrite from_be_be_bytes. f_equal.
  apply Z.mod_small. exact H.
Qed.

(** The classes are told apart the way the address plans intend. *)
Example ip_classes :
  map Ipv4.is_private [167772161; 2886729729; 3232235777; 3405803777] = [true; true; true; false]
  ∧ Ipv4.is_multicast 3758096385 = true ∧ Ipv4.is_link_local 2851995649 = true
  ∧ Ipv6.is_unicast_link_local (65152 * 2 ^ 112 + 1) = true
  ∧ Ipv6.is_unique_local (64832 * 2 ^ 112 + 1) = true.
Proof. by vm_compute. Qed.
