(* ===== verification/Text.v ===== *)
(** * [str]: the string operations the code uses

    A Rust string is valid UTF-8; here it is the [string] of its bytes.
    [trim] removes the Unicode [White_Space] characters, recognised by their
    UTF-8 encodings; UTF-8 is self-synchronising, so a suffix that spells such
    an encoding is that character. *)
From S2P Require Import Prelude.
From Stdlib Require Import Ascii.
#[local] Open Scope Z_scope.

Definition byte_of (a : ascii) : Z := Z.of_nat (nat_of_ascii a).
Definition ascii_of (b : Z) : ascii := ascii_of_nat (Z.to_nat b).
Definition str_len (s : string) : Z := Z.of_nat (String.length s).
Definition str_is_empty (s : string) : bool :=
  match s with EmptyString => true | _ => false end.

Definition is_ascii_lower (b : Z) : bool := (97 <=? b) && (b <=? 122).
Definition is_ascii_upper (b : Z) : bool := (65 <=? b) && (b <=? 90).
Definition is_ascii_digit (b : Z) : bool := (48 <=? b) && (b <=? 57).
Definition is_ascii_alphanumeric (b : Z) : bool :=
  is_ascii_lower b || is_ascii_upper b || is_ascii_digit b.
Definition is_ascii_control (b : Z) : bool := (b <? 32) || (b =? 127).
(** [u8::is_ascii_whitespace]: space, tab, line feed, form feed, return. *)
Definition is_ascii_whitespace (b : Z) : bool :=
  (b =? 32) || (b =? 9) || (b =? 10) || (b =? 12) || (b =? 13).

(** [s.bytes().all(f)] and [s.bytes().any(f)]. *)
Fixpoint all_bytes (f : Z → bool) (s : string) : bool :=
  match s with EmptyString => true | String a s => f (byte_of a) && all_bytes f s end.
Definition any_byte (f : Z → bool) (s : string) : bool := negb (all_bytes (λ b, negb (f b)) s).

Definition lower_byte (b : Z) : Z := if is_ascii_upper b then b + 32 else b.
Fixpoint to_ascii_lowercase (s : string) : string :=
  match s with
  | EmptyString => EmptyString
  | String a s => String (ascii_of (lower_byte (byte_of a))) (to_ascii_lowercase s)
  end.

Fixpoint of_bytes (bs : list Z) : string :=
  match bs with [] => EmptyString | b :: bs => String (ascii_of b) (of_bytes bs) end.

(** The UTF-8 encodings of the characters with the property [White_Space]. *)
Definition whitespace_encodings : list string :=
  map of_bytes (
    map (λ b, [b]) [9; 10; 11; 12; 13; 32]
    ++ map (λ b, [194; b]) [133; 160]
    ++ [[225; 154; 128]]
    ++ map (λ b, [226; 128; b]) [128; 129; 130; 131; 132; 133; 134; 135; 136; 137; 138; 168; 169; 175]
    ++ [[226; 129; 159]; [227; 128; 128]]).

(** The remainder of [s] after the first encoding of [ws] it starts with. *)
Fixpoint strip_one (ws : list string) (s : string) : option string :=
  match ws with
  | [] => None
  | w :: ws =>
      if String.prefix w s
      then Some (String.substring (String.length w) (String.length s - String.length w) s)
      else strip_one ws s
  end.
Fixpoint trim_start_fuel (ws : list string) (fuel : nat) (s : string) : string :=
  match fuel with
  | O => s
  | S n => match strip_one ws s with Some s' => trim_start_fuel ws n s' | None => s end
  end.
(** Every character removed has at least one byte, so the length is enough. *)
Definition trim_start_with (ws : list string) (s : string) : string :=
  trim_start_fuel ws (String.length s) s.
Fixpoint str_rev_app (s acc : string) : string :=
  match s with EmptyString => acc | String a s => str_rev_app s (String a acc) end.
Definition str_rev (s : string) : string := str_rev_app s EmptyString.
Definition trim_end_with (ws : list string) (s : string) : string :=
  str_rev (trim_start_with (map str_rev ws) (str_rev s)).
(** [str::trim]. *)
Definition trim (s : string) : string :=
  trim_end_with whitespace_encodings (trim_start_with whitespace_encodings s).

(** [str::trim_end_matches] with a character pattern. *)
Definition trim_end_matches (c : ascii) (s : string) : string :=
  trim_end_with [String c EmptyString] s.

(** [str::split] with a character pattern. *)
Fixpoint split_on (c : ascii) (s : string) : list string :=
  match s with
  | EmptyString => [EmptyString]
  | String a s =>
      if decide (a = c) then EmptyString :: split_on c s
      else match split_on c s with
           | [] => [String a EmptyString]
           | t :: ts => String a t :: ts
           end
  end.

Definition starts_with (c : ascii) (s : string) : bool :=
  match s with String a _ => bool_decide (a = c) | EmptyString => false end.
Definition ends_with (c : ascii) (s : string) : bool := starts_with c (str_rev s).

(** [str::split_once], [str::contains] with a character, [str::starts_with]. *)
Definition str_drop (n : nat) (s : string) : string := String.substring n (String.length s - n) s.
Fixpoint split_once (sep s : string) : option (string * string) :=
  if String.prefix sep s then Some (EmptyString, str_drop (String.length sep) s)
  else match s with
       | EmptyString => None
       | String a s => '(l, r) ← split_once sep s; Some (String a l, r)
       end.
Definition str_contains (c : ascii) (s : string) : bool := any_byte (λ b, b =? byte_of c) s.
Definition str_starts_with (prefix s : string) : bool := String.prefix prefix s.
(** [s.split([...]).next()]: the text before the first of some characters. *)
Fixpoint before_any (stop : list ascii) (s : string) : string :=
  match s with
  | EmptyString => EmptyString
  | String a s => if existsb (Ascii.eqb a) stop then EmptyString else String a (before_any stop s)
  end.

(** Byte-wise comparison, the [Ord] of [str]. *)
Definition str_le (s t : string) : bool := lex_le (bytes_of_string s) (bytes_of_string t).

Lemma append_cons a s t : (String a s ++ t)%string = String a (s ++ t).
Proof. done. Qed.
Lemma append_nil s : (s ++ EmptyString)%string = s.
Proof. induction s as [|a s IH]; [done|]. by rewrite append_cons, IH. Qed.
Lemma append_assoc s t u : ((s ++ t) ++ u)%string = (s ++ (t ++ u))%string.
Proof. induction s as [|a s IH]; [done|]. by rewrite !append_cons, IH. Qed.
Lemma byte_of_inj a b : byte_of a = byte_of b → a = b.
Proof.
  unfold byte_of. intros H%Nat2Z.inj.
  by rewrite <-(ascii_nat_embedding a), H, ascii_nat_embedding.
Qed.
#[export] Instance bytes_of_string_inj : Inj (=) (=) bytes_of_string.
Proof.
  intros s. induction s as [|a s IH]; intros [|b t]; cbn; try done.
  intros [= Ha ?]. f_equal; [|by apply IH]. by apply byte_of_inj.
Qed.
Lemma str_le_total s t : str_le s t = true ∨ str_le t s = true.
Proof. apply lex_le_total. Qed.
Lemma str_le_trans s t u : str_le s t = true → str_le t u = true → str_le s u = true.
Proof. apply lex_le_trans. Qed.
Lemma str_le_antisym s t : str_le s t = true → str_le t s = true → s = t.
Proof. intros. by apply (inj bytes_of_string), lex_le_antisym. Qed.

Example trim_ascii : trim "  office lan " = "office lan".
Proof. by vm_compute. Qed.
Example trim_unicode :
  trim (of_bytes [227; 128; 128; 104; 105; 194; 160; 9]) = "hi".
Proof. by vm_compute. Qed.
Example split_labels : split_on "." "corp.example" = ["corp"; "example"].
Proof. by vm_compute. Qed.
