(* ===== verification/Ext.v ===== *)
(** * The third-party code, as interfaces

    MeshLake calls crates whose source is not part of the repository: [uuid],
    [ed25519-dalek], [x25519-dalek], [hkdf], [chacha20poly1305], [sha2],
    [ipnet] and [serde_json].  Each is a class of operations; the documented
    behaviour the theorems rely on is a separate class of laws.  The iteration
    order of a [HashMap], which the standard library leaves unspecified, is
    an interface of the same shape. *)
From S2P Require Import Prelude Net.
#[local] Open Scope Z_scope.

(** ** [uuid] *)
Class UuidLib := {
  Uuid : Type;
  uuid_eq_dec :: EqDecision Uuid;
  uuid_countable :: Countable Uuid;
  as_bytes : Uuid → bytes;
  uuid_from_slice : bytes → option Uuid;
  is_nil : Uuid → bool;
  uuid_le : Uuid → Uuid → bool;
}.

Class UuidLaws `{UuidLib} : Prop := {
  as_bytes_length u : length (as_bytes u) = 16%nat;
  as_bytes_wf u : wf_bytes (as_bytes u);
  uuid_from_as_bytes u : uuid_from_slice (as_bytes u) = Some u;
  uuid_from_slice_Some bs u : uuid_from_slice bs = Some u → as_bytes u = bs;
  uuid_le_total u v : uuid_le u v = true ∨ uuid_le v u = true;
  uuid_le_trans u v w : uuid_le u v = true → uuid_le v w = true → uuid_le u w = true;
  uuid_le_antisym u v : uuid_le u v = true → uuid_le v u = true → u = v;
}.

(** The printed form of an identifier, and reading it back. *)
Class UuidText `{UuidLib} := {
  uuid_to_string : Uuid → string;
  uuid_parse : string → option Uuid;
}.
Class UuidTextLaws `{UuidText} : Prop := {
  uuid_parse_to_string u : uuid_parse (uuid_to_string u) = Some u;
}.

(** ** [serde_json]: [to_vec] and [from_slice] of a type *)
Class Serde (T : Type) := {
  to_vec : T → option bytes;
  from_slice : bytes → option T;
}.
(** Serialisation of the type succeeds and the reader reads it back. *)
Class SerdeLaws (T : Type) `{Serde T} : Prop := {
  to_vec_total (x : T) : is_Some (to_vec x);
  from_to_vec (x : T) bs : to_vec x = Some bs → from_slice bs = Some x;
}.

(** ** [ed25519-dalek] *)
Class Ed25519 := {
  SigningKey : Type;
  VerifyingKey : Type;
  sk_from_bytes : bytes → SigningKey;
  verifying_key : SigningKey → VerifyingKey;
  vk_to_bytes : VerifyingKey → bytes;
  vk_from_bytes : bytes → option VerifyingKey;
  sign : SigningKey → bytes → bytes;
  verify : VerifyingKey → bytes → bytes → bool;
}.
Definition public_bytes `{Ed25519} (sk : SigningKey) : bytes :=
  vk_to_bytes (verifying_key sk).

Class Ed25519Laws `{Ed25519} : Prop := {
  public_bytes_length sk : length (public_bytes sk) = 32%nat;
  vk_from_public sk : vk_from_bytes (public_bytes sk) = Some (verifying_key sk);
  sign_length sk m : length (sign sk m) = 64%nat;
  verify_sign sk m : verify (verifying_key sk) m (sign sk m) = true;
}.

(** The verification idiom the code repeats: a key of 32 bytes that decodes,
    a signature of 64 bytes that the key verifies.  Not a function of the
    source: the specification the theorems refer to. *)
Definition signature_valid `{Ed25519} (key message signature : bytes) : Prop :=
  length key = 32%nat ∧ length signature = 64%nat
  ∧ ∃ vk, vk_from_bytes key = Some vk ∧ verify vk message signature = true.

Lemma sign_signature_valid `{Ed25519Laws} sk m :
  signature_valid (public_bytes sk) m (sign sk m).
Proof.
  split; [apply public_bytes_length|]. split; [apply sign_length|].
  exists (verifying_key sk). split; [apply vk_from_public|apply verify_sign].
Qed.

(** ** [x25519-dalek], [hkdf] over SHA-256, [chacha20poly1305], [sha2] *)
Class SessionCrypto := {
  StaticSecret : Type;
  secret_from : bytes → StaticSecret;
  dh_public : StaticSecret → bytes;
  diffie_hellman : StaticSecret → bytes → bytes;
  (** [hkdf salt ikm info]: extract, then expand to 64 bytes. *)
  hkdf64 : bytes → bytes → bytes → option bytes;
  (** [encrypt key nonce aad message] and its inverse. *)
  aead_encrypt : bytes → bytes → bytes → bytes → option bytes;
  aead_decrypt : bytes → bytes → bytes → bytes → option bytes;
  sha256 : bytes → bytes;
}.
Class SessionCryptoLaws `{SessionCrypto} : Prop := {
  dh_agree a b : diffie_hellman a (dh_public b) = diffie_hellman b (dh_public a);
  dh_public_length a : length (dh_public a) = 32%nat;
  hkdf64_length salt ikm info o : hkdf64 salt ikm info = Some o → length o = 64%nat;
  aead_encrypt_length k n a m c :
    aead_encrypt k n a m = Some c → length c = (length m + 16)%nat;
  aead_decrypt_encrypt k n a m c :
    aead_encrypt k n a m = Some c → aead_decrypt k n a c = Some m;
}.

(** ** [ipnet] *)
Class IpNetLib := {
  Ipv4Net : Type;
  Ipv6Net : Type;
  parse_ipv4net : string → option Ipv4Net;
  parse_ipv6net : string → option Ipv6Net;
  v4_prefix_len : Ipv4Net → Z;
  v4_network : Ipv4Net → Z;
  v4_broadcast : Ipv4Net → Z;
  v4_contains : Ipv4Net → Z → bool;
  v4_to_string : Ipv4Net → string;
  v6_prefix_len : Ipv6Net → Z;
  v6_network : Ipv6Net → Z;
  v6_contains : Ipv6Net → Z → bool;
  v6_to_string : Ipv6Net → string;
}.
(** [IpNet] is the crate's sum of the two; parsing tries IPv4 first. *)
Inductive IpNet `{IpNetLib} : Type :=
| Net4 (n : Ipv4Net)
| Net6 (n : Ipv6Net).
Definition parse_ipnet `{IpNetLib} (s : string) : option IpNet :=
  match parse_ipv4net s with
  | Some n => Some (Net4 n)
  | None => Net6 <$> parse_ipv6net s
  end.
Definition net_to_string `{IpNetLib} (n : IpNet) : string :=
  match n with Net4 n => v4_to_string n | Net6 n => v6_to_string n end.
Definition net_prefix_len `{IpNetLib} (n : IpNet) : Z :=
  match n with Net4 n => v4_prefix_len n | Net6 n => v6_prefix_len n end.
Definition net_contains `{IpNetLib} (n : IpNet) (a : IpAddr) : bool :=
  match n, a with
  | Net4 n, V4 a => v4_contains n a
  | Net6 n, V6 a => v6_contains n a
  | _, _ => false
  end.

Class IpNetLaws `{IpNetLib} : Prop := {
  v4_prefix_len_bounds n : 0 ≤ v4_prefix_len n ≤ 32;
  v4_network_bounds n : 0 ≤ v4_network n;
  v4_broadcast_network n : v4_broadcast n = v4_network n + 2 ^ (32 - v4_prefix_len n) - 1;
  v4_broadcast_bound n : v4_broadcast n < 2 ^ 32;
  v4_network_aligned n : (2 ^ (32 - v4_prefix_len n) | v4_network n);
  v4_contains_spec n a : v4_contains n a = true ↔ v4_network n ≤ a ≤ v4_broadcast n;
  v6_prefix_len_bounds n : 0 ≤ v6_prefix_len n ≤ 128;
  v6_network_bounds n : 0 ≤ v6_network n;
  v6_network_fits n : v6_network n + 2 ^ (128 - v6_prefix_len n) ≤ 2 ^ 128;
  v6_network_aligned n : (2 ^ (128 - v6_prefix_len n) | v6_network n);
  v6_contains_spec n a :
    v6_contains n a = true ↔ v6_network n ≤ a < v6_network n + 2 ^ (128 - v6_prefix_len n);
  parse_v4_to_string n : parse_ipv4net (v4_to_string n) = Some n;
  parse_v6_to_string n : parse_ipv6net (v6_to_string n) = Some n;
  parse_v4_v6_disjoint s n : parse_ipv6net s = Some n → parse_ipv4net s = None;
}.

Lemma parse_net_to_string `{IpNetLaws} n : parse_ipnet (net_to_string n) = Some n.
Proof.
  destruct n as [n|n]; unfold parse_ipnet; cbn.
  - by rewrite parse_v4_to_string.
  - by rewrite (parse_v4_v6_disjoint _ n), parse_v6_to_string by apply parse_v6_to_string.
Qed.

(** ** The iteration order of [HashMap]s *)
Class HashOrder := {
  hash_iter {K} `{Countable K} {A} : gmap K A → list (K * A);
  hash_iter_perm {K} `{Countable K} {A} (m : gmap K A) : hash_iter m ≡ₚ map_to_list m;
}.
Definition hash_keys `{HashOrder} {K} `{Countable K} {A} (m : gmap K A) : list K :=
  (hash_iter m).*1.
Definition hash_values `{HashOrder} {K} `{Countable K} {A} (m : gmap K A) : list A :=
  (hash_iter m).*2.

(** [HashMap::retain] keeps the entries that satisfy a predicate. *)
Definition retain {K} `{Countable K} {A} (f : K → A → bool) (m : gmap K A) : gmap K A :=
  filter (λ kv, f kv.1 kv.2 = true) m.

Section hash_lemmas.
Context `{HashOrder} {K : Type} `{Countable K} {A : Type}.
Implicit Types m : gmap K A.

Lemma elem_of_hash_iter m k x : (k, x) ∈ hash_iter m ↔ m !! k = Some x.
Proof. by rewrite hash_iter_perm, elem_of_map_to_list. Qed.
Lemma NoDup_hash_iter m : NoDup (hash_iter m).*1.
Proof. rewrite hash_iter_perm. apply NoDup_fst_map_to_list. Qed.
Lemma elem_of_hash_values m x : x ∈ hash_values m ↔ ∃ k, m !! k = Some x.
Proof.
  unfold hash_values. rewrite list_elem_of_fmap. split.
  - intros ([k y] & -> & Hy). exists k. by apply elem_of_hash_iter.
  - intros (k & Hk). exists (k, x). by rewrite elem_of_hash_iter.
Qed.
Lemma elem_of_hash_keys m k : k ∈ hash_keys m ↔ is_Some (m !! k).
Proof.
  unfold hash_keys. rewrite list_elem_of_fmap. split.
  - intros ([k' y] & -> & Hy). exists y. by apply elem_of_hash_iter.
  - intros [x Hk]. exists (k, x). by rewrite elem_of_hash_iter.
Qed.
Lemma length_hash_iter m : length (hash_iter m) = size m.
Proof. rewrite hash_iter_perm. apply length_map_to_list. Qed.
Lemma existsb_hash_iter (f : K * A → bool) m :
  existsb f (hash_iter m) = true ↔ ∃ k x, m !! k = Some x ∧ f (k, x) = true.
Proof.
  rewrite existsb_elem. split.
  - intros ([k x] & Hin & Hf). exists k, x. by rewrite <-elem_of_hash_iter.
  - intros (k & x & Hk & Hf). exists (k, x). by rewrite elem_of_hash_iter.
Qed.

Lemma lookup_retain f m k x :
  retain f m !! k = Some x ↔ m !! k = Some x ∧ f k x = true.
Proof. unfold retain. by rewrite map_lookup_filter_Some. Qed.
Lemma retain_subseteq f m : retain f m ⊆ m.
Proof. apply map_filter_subseteq. Qed.
End hash_lemmas.

(** Collects the checks of an inverted verification into [signature_valid]. *)
Lemma signature_valid_intro `{Ed25519} key sig key' sig' message vk :
  try_into 32 key = Some key' → try_into 64 sig = Some sig' →
  vk_from_bytes key' = Some vk → verify vk message sig' = true →
  signature_valid key message sig.
Proof.
  intros [-> Hk]%try_into_Some [-> Hs]%try_into_Some Hvk Hv.
  split; [done|]. split; [done|]. by exists vk.
Qed.
Lemma signature_valid_elim `{Ed25519} key sig message :
  signature_valid key message sig →
  try_into 32 key = Some key ∧ try_into 64 sig = Some sig
  ∧ ∃ vk, vk_from_bytes key = Some vk ∧ verify vk message sig = true.
Proof. intros (Hk & Hs & Hv). by rewrite !try_into_length. Qed.
#[export] Hint Resolve signature_valid_intro : signatures.
