(* ===== verification/Concrete.v ===== *)
(** * Concrete instances of the interfaces of [Ext]

    Small executable implementations that satisfy the laws, so that witnesses
    can evaluate the definitions.  They stand for the third-party crates only
    in the witnesses; no theorem is about them. *)
From S2P Require Import Prelude Net Text Ext.
#[local] Open Scope Z_scope.

(** Byte strings of a fixed length, as values of the crates' array types. *)
Definition sized (n : nat) : Type := dsig (λ l : bytes, length l = n ∧ wf_bytes l).
Definition sized_of (n : nat) (l : bytes) : option (sized n) :=
  match decide (length l = n ∧ wf_bytes l) with
  | left p => Some (dexist l p)
  | right _ => None
  end.
Lemma sized_of_proj n (x : sized n) : sized_of n (`x) = Some x.
Proof.
  unfold sized_of. destruct (decide _) as [p|np].
  - f_equal. by apply dsig_eq.
  - destruct np. by apply (proj2_dsig x).
Qed.
Lemma sized_of_Some n l x : sized_of n l = Some x → `x = l.
Proof. unfold sized_of. destruct (decide _); [|done]. by intros [= <-]. Qed.
Lemma replicate_0_wf n : wf_bytes (replicate n 0).
Proof. induction n; constructor; [|done]. unfold is_byte. lia. Qed.
Definition sized_zero (n : nat) : sized n :=
  dexist (replicate n 0) (conj (length_replicate n 0) (replicate_0_wf n)).

#[export] Instance sized_eq_dec n : EqDecision (sized n).
Proof. unfold sized, dsig. apply _. Defined.
#[export] Instance sized_countable n : Countable (sized n).
Proof. unfold sized, dsig. apply _. Defined.

(** ** [uuid] *)
#[export] Instance uuid_concrete : UuidLib := {|
  Uuid := sized 16;
  as_bytes u := `u;
  uuid_from_slice := sized_of 16;
  is_nil u := bool_decide (`u = replicate 16 0);
  uuid_le u v := lex_le (`u) (`v);
|}.
#[export] Instance uuid_concrete_laws : UuidLaws.
Proof.
  split; cbn.
  - intros u. apply (proj2_dsig u).
  - intros u. apply (proj2_dsig u).
  - intros u. apply sized_of_proj.
  - intros bs u. apply sized_of_Some.
  - intros. apply lex_le_total.
  - intros u v w. apply lex_le_trans.
  - intros u v ??. apply dsig_eq. by apply lex_le_antisym.
Qed.
(** [Uuid::from_u128]. *)
Definition uuid_of (n : Z) : @Uuid uuid_concrete :=
  dexist (be_bytes 16 n) (conj (length_be_bytes 16 n) (be_bytes_wf 16 n)).

(** ** [ed25519-dalek]: the "signature" is a prefix of key and message *)
Definition toy_sign (sk : sized 32) (m : bytes) : bytes :=
  take 64 (`sk ++ m ++ replicate 64 0).
#[export] Instance ed25519_concrete : Ed25519 := {|
  SigningKey := sized 32;
  VerifyingKey := sized 32;
  sk_from_bytes b := default (sized_zero 32) (sized_of 32 b);
  verifying_key sk := sk;
  vk_to_bytes vk := `vk;
  vk_from_bytes := sized_of 32;
  sign := toy_sign;
  verify vk m s := bool_decide (s = toy_sign vk m);
|}.
#[export] Instance ed25519_concrete_laws : Ed25519Laws.
Proof.
  split.
  - intros sk. apply (proj2_dsig sk).
  - intros sk. apply sized_of_proj.
  - intros sk m. cbn. unfold toy_sign. rewrite length_take, !length_app, length_replicate. lia.
  - intros sk m. cbn. by apply bool_decide_eq_true_2.
Qed.
Definition key_of (n : Z) : @SigningKey ed25519_concrete :=
  dexist (be_bytes 32 n) (conj (length_be_bytes 32 n) (be_bytes_wf 32 n)).

(** ** Session cryptography: addition modulo 2^256, tagged plaintext *)
Lemma be_bytes_mod n v : be_bytes n (v mod 256 ^ Z.of_nat n) = be_bytes n v.
Proof.
  pose proof (Z.div_mod v (256 ^ Z.of_nat n)) as Hd.
  rewrite Hd at 2 by (apply Z.pow_nonzero; lia).
  rewrite Z.add_comm, Z.mul_comm. by rewrite be_bytes_add.
Qed.
Lemma be_bytes_congr n v w :
  v mod 256 ^ Z.of_nat n = w mod 256 ^ Z.of_nat n → be_bytes n v = be_bytes n w.
Proof. intros H. by rewrite <-(be_bytes_mod n v), H, be_bytes_mod. Qed.

Definition toy_tag (k n a m : bytes) : bytes :=
  be_bytes 16 (from_be k + from_be n + from_be a + from_be m).
Definition toy_decrypt (k n a c : bytes) : option bytes :=
  let m := take (length c - 16) c in
  if decide (drop (length c - 16) c = toy_tag k n a m) then Some m else None.
#[export] Instance session_concrete : SessionCrypto := {|
  StaticSecret := Z;
  secret_from := from_be;
  dh_public a := be_bytes 32 a;
  diffie_hellman a p := be_bytes 32 (a + from_be p);
  hkdf64 salt ikm info :=
    Some (be_bytes 32 (from_be salt + from_be ikm) ++ be_bytes 32 (from_be salt + from_be ikm + 1));
  aead_encrypt k n a m := Some (m ++ toy_tag k n a m);
  aead_decrypt := toy_decrypt;
  sha256 b := be_bytes 32 (from_be b);
|}.
#[export] Instance session_concrete_laws : SessionCryptoLaws.
Proof.
  split; cbn -[be_bytes from_be toy_tag toy_decrypt].
  - intros a b. rewrite !from_be_be_bytes. apply be_bytes_congr.
    rewrite Z.add_mod_idemp_r, Z.add_mod_idemp_r by (apply Z.pow_nonzero; lia).
    f_equal. lia.
  - intros a. apply (length_be_bytes 32).
  - intros salt ikm info o [= <-].
    done.
  - intros k n a m c [= <-]. by rewrite length_app.
  - intros k n a m c [= <-]. unfold toy_decrypt. rewrite length_app, Nat.add_sub.
    rewrite take_app_length, drop_app_length. by rewrite decide_True.
Qed.

Lemma hkdf64_concrete_total salt ikm info : is_Some (hkdf64 salt ikm info).
Proof. by eexists. Qed.

(** ** [ipnet]: an address with a prefix length, spelled as raw bytes *)
Definition net_ok (w : Z) (p : Z * Z) : Prop := 0 ≤ p.1 < 2 ^ w ∧ 0 ≤ p.2 ≤ w.
#[export] Instance net_ok_dec w p : Decision (net_ok w p).
Proof. unfold net_ok. apply _. Defined.
Definition toy_net (w : Z) : Type := dsig (net_ok w).
Definition toy_net_of (w a l : Z) : option (toy_net w) :=
  match decide (net_ok w (a, l)) with
  | left p => Some (dexist (a, l) p)
  | right _ => None
  end.
Definition toy_size {w} (n : toy_net w) : Z := 2 ^ (w - (`n).2).
Definition toy_network {w} (n : toy_net w) : Z := (`n).1 - (`n).1 mod toy_size n.
Definition toy_contains {w} (n : toy_net w) (a : Z) : bool :=
  (toy_network n <=? a) && (a <? toy_network n + toy_size n).
Definition toy_print {w} (tag : Z) (octets : nat) (n : toy_net w) : string :=
  of_bytes (tag :: be_bytes octets (`n).1 ++ [(`n).2]).
Definition toy_parse (w tag : Z) (octets : nat) (s : string) : option (toy_net w) :=
  match bytes_of_string s with
  | t :: bs =>
      if (t =? tag) && (len bs =? Z.of_nat octets + 1)
      then toy_net_of w (from_be (take octets bs)) (from_be (drop octets bs))
      else None
  | [] => None
  end.

Lemma bytes_of_of_bytes bs : wf_bytes bs → bytes_of_string (of_bytes bs) = bs.
Proof.
  induction 1 as [|b bs Hb _ IH]; [done|]. cbn [of_bytes bytes_of_string]. rewrite IH.
  f_equal. unfold ascii_of, is_byte in *. rewrite Ascii.nat_ascii_embedding; lia.
Qed.
Lemma toy_size_pos {w} (n : toy_net w) : 0 < toy_size n.
Proof.
  unfold toy_size. destruct (proj2_dsig n) as [_ [? ?]]. apply Z.pow_pos_nonneg; lia.
Qed.
Lemma toy_network_bounds {w} (n : toy_net w) :
  0 ≤ toy_network n ∧ toy_network n + toy_size n ≤ 2 ^ w.
Proof.
  pose proof (toy_size_pos n) as Hp. destruct (proj2_dsig n) as [[? ?] [? ?]].
  unfold toy_network. set (a := (`n).1) in *.
  pose proof (Z.mod_pos_bound a (toy_size n) Hp). pose proof (Z.div_mod a (toy_size n)).
  assert (2 ^ w = 2 ^ (`n).2 * toy_size n) as Hw.
  { unfold toy_size. rewrite <-Z.pow_add_r by lia. f_equal. lia. }
  pose proof (Z.mod_le a (toy_size n)). split; [lia|].
  assert (a / toy_size n < 2 ^ (`n).2) as Hq by (apply Z.div_lt_upper_bound; lia).
  assert (toy_size n * (a / toy_size n + 1) ≤ toy_size n * 2 ^ (`n).2)
    by (apply Z.mul_le_mono_nonneg_l; lia).
  lia.
Qed.
Lemma toy_network_aligned {w} (n : toy_net w) : (toy_size n | toy_network n).
Proof.
  exists ((`n).1 / toy_size n). unfold toy_network. pose proof (toy_size_pos n).
  pose proof (Z.div_mod (`n).1 (toy_size n)). lia.
Qed.
Lemma toy_parse_print {w} tag octets (n : toy_net w) :
  w = 8 * Z.of_nat octets → is_byte tag → w < 256 →
  toy_parse w tag octets (toy_print tag octets n) = Some n.
Proof.
  intros Hw Ht Hw'. destruct (proj2_dsig n) as [Ha Hl]. unfold toy_parse, toy_print.
  rewrite bytes_of_of_bytes.
  2: { constructor; [done|]. apply Forall_app. split; [apply be_bytes_wf|].
       constructor; [unfold is_byte; lia|constructor]. }
  rewrite Z.eqb_refl, len_app, len_cons, len_nil. unfold len. rewrite length_be_bytes.
  rewrite (proj2 (Z.eqb_eq _ _)) by lia. cbn [andb].
  rewrite take_app_length', drop_app_length' by (by rewrite length_be_bytes).
  rewrite from_be_be_bytes. replace (256 ^ Z.of_nat octets) with (2 ^ w).
  2: { rewrite Hw, Z.pow_mul_r by lia. done. }
  rewrite Z.mod_small by done. unfold toy_net_of.
  replace (from_be [(`n).2]) with (`n).2 by (unfold from_be; cbn; lia).
  destruct (decide _) as [p|np]; [f_equal; apply dsig_eq; cbn; by destruct (`n)|].
  destruct np. by destruct (`n).
Qed.

#[export] Instance uuid_text_concrete : UuidText := {|
  uuid_to_string u := of_bytes (as_bytes u);
  uuid_parse s := uuid_from_slice (bytes_of_string s);
|}.
#[export] Instance uuid_text_concrete_laws : UuidTextLaws.
Proof.
  split. intros u. cbn -[sized_of]. rewrite bytes_of_of_bytes by apply (proj2_dsig u).
  apply sized_of_proj.
Qed.

#[export] Instance ipnet_concrete : IpNetLib := {|
  Ipv4Net := toy_net 32;
  Ipv6Net := toy_net 128;
  parse_ipv4net := toy_parse 32 4 4;
  parse_ipv6net := toy_parse 128 6 16;
  v4_prefix_len n := (`n).2;
  v4_network := toy_network;
  v4_broadcast n := toy_network n + toy_size n - 1;
  v4_contains := toy_contains;
  v4_to_string := toy_print 4 4;
  v6_prefix_len n := (`n).2;
  v6_network := toy_network;
  v6_contains := toy_contains;
  v6_to_string := toy_print 6 16;
|}.
#[export] Instance ipnet_concrete_laws : IpNetLaws.
Proof.
  split; cbn -[toy_parse toy_print toy_network toy_size].
  - intros n. apply (proj2_dsig n).
  - intros n. apply toy_network_bounds.
  - done.
  - intros n. pose proof (toy_network_bounds n). lia.
  - intros n. apply toy_network_aligned.
  - intros n a. unfold toy_contains. rewrite andb_true_iff, Z.leb_le, Z.ltb_lt. lia.
  - intros n. apply (proj2_dsig n).
  - intros n. apply toy_network_bounds.
  - intros n. apply toy_network_bounds.
  - intros n. apply toy_network_aligned.
  - intros n a. unfold toy_contains. by rewrite andb_true_iff, Z.leb_le, Z.ltb_lt.
  - intros n. by apply toy_parse_print.
  - intros n. by apply toy_parse_print.
  - intros s n. unfold toy_parse. destruct (bytes_of_string s) as [|t bs]; [done|].
    destruct (t =? 6) eqn:E6; [|done]. apply Z.eqb_eq in E6 as ->. done.
Qed.
(** The spelling of [a/l] that the instance parses. *)
Definition cidr4 (a l : Z) : string := of_bytes (4 :: be_bytes 4 a ++ [l]).
Definition cidr6 (a l : Z) : string := of_bytes (6 :: be_bytes 16 a ++ [l]).
Definition ip4 (a b c d : Z) : Z := from_be [a; b; c; d].

(** ** Iteration order, serialisation *)
#[export] Instance hash_concrete : HashOrder := {|
  hash_iter K _ _ A m := map_to_list m;
  hash_iter_perm K _ _ A m := reflexivity (map_to_list m);
|}.
(** A serialiser for witnesses that never read anything back. *)
Definition const_serde (T : Type) : Serde T := {| to_vec _ := Some []; from_slice _ := None |}.

Example concrete_prefix : (λ n, v4_contains n (ip4 10 1 2 200)) <$> parse_ipv4net (cidr4 (ip4 10 1 2 7) 24) = Some true.
Proof. by vm_compute. Qed.

(** ** A serialisation that round trips, for any type with a
    retraction to a countable one: the bits of the value's code, one per byte *)
Fixpoint bits_of_pos (p : positive) : bytes :=
  match p with
  | xH => [1]
  | xO p => 0 :: bits_of_pos p
  | xI p => 1 :: bits_of_pos p
  end.
Fixpoint pos_of_bits (l : bytes) : option positive :=
  match l with
  | [] => None
  | [b] => Some xH
  | b :: l => (if b =? 0 then xO else xI) <$> pos_of_bits l
  end.
Lemma pos_of_bits_of_pos p : pos_of_bits (bits_of_pos p) = Some p.
Proof.
  induction p as [p IH|p IH|]; [| |done]; cbn; rewrite IH; by destruct p.
Qed.
Definition via_serde {T U} `{Countable U} (f : T → U) (g : U → T) : Serde T :=
  {| to_vec x := Some (bits_of_pos (encode (f x)));
     from_slice bs := g <$> (pos_of_bits bs ≫= decode) |}.
Lemma via_serde_laws {T U} `{Countable U} (f : T → U) (g : U → T) :
  (∀ x, g (f x) = x) → @SerdeLaws T (via_serde f g).
Proof.
  intros Hgf. split; cbn; [by eauto|]. intros x bs [= <-]. rewrite pos_of_bits_of_pos. cbn.
  rewrite decode_encode. cbn. by rewrite Hgf.
Qed.
