(* ===== verification/Model.v ===== *)
(** * Identifiers and virtual networks ([meshlake-core/src/model.rs]) *)
From S2P Require Import Prelude Net Text Ext.
#[local] Open Scope Z_scope.

Section model.
Context `{UuidLib}.

(** The transparent newtypes [DeviceId(Uuid)] and [NetworkId(Uuid)]. *)
Inductive DeviceId : Type := mkDeviceId (u : Uuid).
Inductive NetworkId : Type := mkNetworkId (u : Uuid).
Definition device_uuid (d : DeviceId) : Uuid := let 'mkDeviceId u := d in u.
Definition network_uuid (n : NetworkId) : Uuid := let 'mkNetworkId u := n in u.

#[global] Instance DeviceId_eq_dec : EqDecision DeviceId.
Proof. solve_decision. Defined.
#[global] Instance NetworkId_eq_dec : EqDecision NetworkId.
Proof. solve_decision. Defined.
#[global] Instance DeviceId_countable : Countable DeviceId.
Proof. refine (inj_countable' device_uuid mkDeviceId _). by intros []. Defined.
#[global] Instance NetworkId_countable : Countable NetworkId.
Proof. refine (inj_countable' network_uuid mkNetworkId _). by intros []. Defined.
#[global] Instance mkDeviceId_inj : Inj (=) (=) mkDeviceId.
Proof. by intros ?? [=]. Qed.
#[global] Instance mkNetworkId_inj : Inj (=) (=) mkNetworkId.
Proof. by intros ?? [=]. Qed.

Definition device_bytes (d : DeviceId) : bytes := as_bytes (device_uuid d).
Definition network_bytes (n : NetworkId) : bytes := as_bytes (network_uuid n).

Inductive RelayPolicy : Type := Preferred | Required | Disabled.
#[global] Instance RelayPolicy_eq_dec : EqDecision RelayPolicy.
Proof. solve_decision. Defined.

Record VirtualNetwork : Type := mkVirtualNetwork {
  vn_id : NetworkId;
  vn_name : string;
  vn_ipv4_prefix : string;
  vn_ipv6_prefix : option string;
  vn_relay_policy : RelayPolicy;
}.

Record UpsertNetworkRequest : Type := mkUpsertNetworkRequest {
  un_id : option NetworkId;
  un_name : string;
  un_ipv4_prefix : string;
  un_ipv6_prefix : option string;
  un_relay_policy : RelayPolicy;
}.

Record Membership : Type := mkMembership {
  ms_network_id : NetworkId;
  ms_device_id : DeviceId;
  ms_assigned_addresses : list IpAddr;
  ms_allowed_routes : list string;
}.

(** The locally controlled exit selection. *)
Record ExitNodeSelection : Type := mkExitNodeSelection {
  es_ipv4_gateway : option DeviceId;
  es_ipv6_gateway : option DeviceId;
  es_kill_switch : bool;
}.
Definition ExitNodeSelection_default : ExitNodeSelection :=
  mkExitNodeSelection None None false.
Definition ExitNodeSelection_is_empty (s : ExitNodeSelection) : bool :=
  is_none (es_ipv4_gateway s) && is_none (es_ipv6_gateway s) && negb (es_kill_switch s).

Inductive ModelError : Type :=
| EmptyNetworkName
| MissingAddress
| InvalidIpv4Prefix
| InvalidIpv6Prefix.

Definition VirtualNetwork_validate (n : VirtualNetwork) : result ModelError unit :=
  bail_if (str_is_empty (trim (vn_name n))) EmptyNetworkName ;; Ok tt.

Definition Membership_validate (m : Membership) : result ModelError unit :=
  bail_if (is_empty (ms_assigned_addresses m)) MissingAddress ;; Ok tt.

Definition UpsertNetworkRequest_validate `{IpNetLib} (r : UpsertNetworkRequest)
    : result ModelError unit :=
  bail_if (str_is_empty (trim (un_name r))) EmptyNetworkName ;;
  bail_if (is_none (parse_ipv4net (un_ipv4_prefix r))) InvalidIpv4Prefix ;;
  bail_if (is_some_and (un_ipv6_prefix r) (λ p, is_none (parse_ipv6net p)))
    InvalidIpv6Prefix ;;
  Ok tt.
End model.

Section model_lemmas.
Context `{UuidLaws}.

Lemma device_bytes_length d : length (device_bytes d) = 16%nat.
Proof. apply as_bytes_length. Qed.
Lemma network_bytes_length n : length (network_bytes n) = 16%nat.
Proof. apply as_bytes_length. Qed.
#[global] Instance as_bytes_inj : Inj (=) (=) as_bytes.
Proof.
  intros u v Huv. apply (inj Some).
  by rewrite <-(uuid_from_as_bytes u), Huv, uuid_from_as_bytes.
Qed.
#[global] Instance device_bytes_inj : Inj (=) (=) device_bytes.
Proof. intros [u] [v] ?. f_equal. by apply (inj as_bytes). Qed.
#[global] Instance network_bytes_inj : Inj (=) (=) network_bytes.
Proof. intros [u] [v] ?. f_equal. by apply (inj as_bytes). Qed.
End model_lemmas.

#[export] Hint Rewrite @device_bytes_length @network_bytes_length @as_bytes_length
  length_be_bytes : lengths.
