(* ===== verification/FileSystem.v ===== *)
(** * [std::path] and [std::fs]: paths, files, and what a crash leaves

    A Unix file system as the state files use it.  Names and files are apart: a
    name stands for a directory, a symbolic link or an inode, and two names may
    stand for one inode.  Every system call may fail, as the environment says;
    a process that crashes is one whose calls all fail from some call on.  What
    was written to a file survives a crash once it has been synchronised, and the
    names are those of some moment since a directory was last synchronised. *)
From S2P Require Import Prelude Request Text.
From Stdlib Require Import Ascii.
#[local] Open Scope Z_scope.

(** ** Paths *)
Inductive Component : Type := RootDir | CurDir | ParentDir | Normal (name : string).
#[export] Instance Component_eq_dec : EqDecision Component.
Proof. solve_decision. Defined.
Definition component_of (piece : string) : option Component :=
  if bool_decide (piece = ""%string) || bool_decide (piece = "."%string) then None
  else if bool_decide (piece = ".."%string) then Some ParentDir
  else Some (Normal piece).
(** [Path::components]. *)
Definition components (path : string) : list Component :=
  let pieces := split_on "/" path in
  if starts_with "/" path then RootDir :: omap component_of pieces
  else match pieces with
       | piece :: rest =>
           if bool_decide (piece = "."%string) then CurDir :: omap component_of rest
           else omap component_of pieces
       | [] => []
       end.
(** [Path::parent] and [Path::is_absolute]. *)
Definition path_parent (path : list Component) : option (list Component) :=
  match last path with
  | None | Some RootDir => None
  | Some _ => Some (removelast path)
  end.
Definition is_absolute (path : list Component) : bool :=
  match path with RootDir :: _ => true | _ => false end.

(** ** Files *)
Inductive IoErrorKind : Type :=
| NotFound | AlreadyExists | PermissionDenied | InvalidInput | InvalidData | WouldBlock
| IsADirectory | NotADirectory | FilesystemLoop | OtherIo.
#[export] Instance IoErrorKind_eq_dec : EqDecision IoErrorKind.
Proof. solve_decision. Defined.
(** The bytes, whether they are on stable storage, the mode with the earlier
    modes a crash may bring back, and the owner. *)
Record Inode : Type := mkInode {
  in_bytes : list Z;
  in_flushed : bool;
  in_mode : Z;
  in_old_modes : list Z;
  in_owner : Z;
}.
Inductive Entry : Type := Directory | Symlink (target : string) | Regular (inode : nat).
#[export] Instance Entry_eq_dec : EqDecision Entry.
Proof. solve_decision. Defined.
Abbreviation location := (list string).
Abbreviation namespace := (gmap location Entry).
Record FileSystem : Type := mkFileSystem {
  fs_names : namespace;
  fs_pending : list namespace;
  fs_inodes : gmap nat Inode;
  fs_next : nat;
  fs_locks : gset nat;
  fs_calls : nat;
}.
(** Which call fails, how much of a failing write was done, and the process. *)
Record Kernel : Type := mkKernel {
  kn_fails : nat → option IoErrorKind;
  kn_written : nat → nat;
  kn_cwd : location;
  kn_user : Z;
  kn_umask : Z;
}.
Abbreviation io := (handler FileSystem IoErrorKind).

Definition with_names (s : FileSystem) (names : namespace) : FileSystem :=
  mkFileSystem names (fs_names s :: fs_pending s) (fs_inodes s) (fs_next s) (fs_locks s)
    (fs_calls s).
Definition with_inodes (s : FileSystem) (inodes : gmap nat Inode) : FileSystem :=
  mkFileSystem (fs_names s) (fs_pending s) inodes (fs_next s) (fs_locks s) (fs_calls s).
Definition with_locks (s : FileSystem) (locks : gset nat) : FileSystem :=
  mkFileSystem (fs_names s) (fs_pending s) (fs_inodes s) (fs_next s) locks (fs_calls s).
Definition with_calls (s : FileSystem) (calls : nat) : FileSystem :=
  mkFileSystem (fs_names s) (fs_pending s) (fs_inodes s) (fs_next s) (fs_locks s) calls.
Definition names_synced (s : FileSystem) : FileSystem :=
  mkFileSystem (fs_names s) [] (fs_inodes s) (fs_next s) (fs_locks s) (fs_calls s).
Definition entry_at (names : namespace) (at_ : location) : option Entry :=
  match at_ with [] => Some Directory | _ => names !! at_ end.

(** ** Resolution of a path, through at most [links] symbolic links *)
Fixpoint walk (links : nat) (names : namespace) (follow_last : bool)
    (at_ : location) (path : list Component) : result IoErrorKind location :=
  (fix go (at_ : location) (path : list Component) : result IoErrorKind location :=
     match path with
     | [] => Ok at_
     | RootDir :: rest => go [] rest
     | CurDir :: rest => go at_ rest
     | ParentDir :: rest => go (removelast at_) rest
     | Normal name :: rest =>
         let next := at_ ++ [name] in
         match names !! next with
         | Some (Symlink target) =>
             if negb follow_last && is_empty rest then Ok next else
             match links with
             | O => Err FilesystemLoop
             | S links => walk links names follow_last at_ (components target ++ rest)
             end
         | Some Directory => go next rest
         | Some (Regular _) => if is_empty rest then Ok next else Err NotADirectory
         | None => if is_empty rest then Ok next else Err NotFound
         end
     end) at_ path.
(** The empty path names nothing. *)
Definition MAX_LINKS : nat := 40.
Definition resolve (kn : Kernel) (s : FileSystem) (follow_last : bool) (path : list Component)
    : result IoErrorKind location :=
  bail_if (is_empty path) NotFound ;;
  walk MAX_LINKS (fs_names s) follow_last (kn_cwd kn) path.

(** ** System calls *)
Definition syscall {A} (kn : Kernel) (body : io A) : io A := λ s,
  let s' := with_calls s (S (fs_calls s)) in
  match kn_fails kn (fs_calls s) with Some e => (Err e, s') | None => body s' end.
Inductive FileType : Type := IsFile | IsDir | IsSymlink.
#[export] Instance FileType_eq_dec : EqDecision FileType.
Proof. solve_decision. Defined.
Record Metadata : Type := mkMetadata {
  md_type : FileType;
  md_len : Z;
  md_mode : Z;
  md_uid : Z;
  md_inode : option nat;
}.
Inductive Handle : Type := DirectoryHandle | FileHandle (inode : nat).

Definition entry_metadata (s : FileSystem) (entry : Entry) : result IoErrorKind Metadata :=
  match entry with
  | Directory => Ok (mkMetadata IsDir 0 493 0 None)
  | Symlink target => Ok (mkMetadata IsSymlink (str_len target) 511 0 None)
  | Regular i =>
      n ← ok_or (fs_inodes s !! i) OtherIo;
      Ok (mkMetadata IsFile (Z.of_nat (length (in_bytes n))) (in_mode n) (in_owner n) (Some i))
  end.
Definition stat (kn : Kernel) (follow_last : bool) (path : list Component) : io Metadata :=
  syscall kn (s ← read;
    at_ ← lift (resolve kn s follow_last path);
    entry ← lift (ok_or (entry_at (fs_names s) at_) NotFound);
    lift (entry_metadata s entry)).
Definition symlink_metadata (kn : Kernel) : list Component → io Metadata := stat kn false.
Definition metadata (kn : Kernel) : list Component → io Metadata := stat kn true.
(** [Path::exists] and [Path::is_dir]. *)
Definition path_exists {E} (kn : Kernel) (path : list Component) : handler FileSystem E bool :=
  r ← attempt (metadata kn path); mret (is_ok (r : result IoErrorKind Metadata)).
Definition is_dir {E} (kn : Kernel) (path : list Component) : handler FileSystem E bool :=
  r ← attempt (metadata kn path);
  mret (match (r : result IoErrorKind Metadata) with
        | Ok m => bool_decide (md_type m = IsDir) | Err _ => false end).

Definition new_file (kn : Kernel) (at_ : location) (mode : Z) : io Handle :=
  s ← read;
  let i := fs_next s in
  let n := mkInode [] false (Z.land mode (Z.lnot (kn_umask kn))) [] (kn_user kn) in
  let s' := with_names s (<[at_ := Regular i]> (fs_names s)) in
  write (mkFileSystem (fs_names s') (fs_pending s') (<[i := n]> (fs_inodes s)) (S i)
           (fs_locks s) (fs_calls s)) ;;
  mret (FileHandle i).
(** [open] with [O_NOFOLLOW], for reading, or creating the file if it is absent,
    or only if it is absent; and [File::open], which follows links. *)
Definition open_nofollow (kn : Kernel) (path : list Component) : io Handle :=
  syscall kn (s ← read;
    at_ ← lift (resolve kn s false path);
    match entry_at (fs_names s) at_ with
    | None => lift (Err NotFound)
    | Some (Symlink _) => lift (Err FilesystemLoop)
    | Some Directory => mret DirectoryHandle
    | Some (Regular i) => mret (FileHandle i)
    end).
Definition open_or_create_nofollow (kn : Kernel) (path : list Component) : io Handle :=
  syscall kn (s ← read;
    at_ ← lift (resolve kn s false path);
    match entry_at (fs_names s) at_ with
    | None => new_file kn at_ 438
    | Some (Symlink _) => lift (Err FilesystemLoop)
    | Some Directory => lift (Err IsADirectory)
    | Some (Regular i) => mret (FileHandle i)
    end).
Definition create_new (kn : Kernel) (mode : Z) (path : list Component) : io Handle :=
  syscall kn (s ← read;
    at_ ← lift (resolve kn s false path);
    match entry_at (fs_names s) at_ with
    | None => new_file kn at_ mode
    | Some _ => lift (Err AlreadyExists)
    end).
Definition open_file (kn : Kernel) (path : list Component) : io Handle :=
  syscall kn (s ← read;
    at_ ← lift (resolve kn s true path);
    match entry_at (fs_names s) at_ with
    | Some Directory => mret DirectoryHandle
    | Some (Regular i) => mret (FileHandle i)
    | _ => lift (Err NotFound)
    end).

Definition handle_metadata (kn : Kernel) (h : Handle) : io Metadata :=
  syscall kn (s ← read;
    lift (entry_metadata s (match h with DirectoryHandle => Directory | FileHandle i => Regular i end))).
Definition update_inode (i : nat) (f : Inode → Inode) : io unit :=
  s ← read; write (with_inodes s (alter f i (fs_inodes s))).
Definition handle_inode (h : Handle) : io (nat * Inode) :=
  s ← read;
  match h with
  | DirectoryHandle => lift (Err IsADirectory)
  | FileHandle i => n ← lift (ok_or (fs_inodes s !! i) OtherIo); mret (i, n)
  end.
(** [file.take(limit).read_to_end]. *)
Definition read_up_to (kn : Kernel) (h : Handle) (limit : Z) : io (list Z) :=
  syscall kn ('(_, n) ← handle_inode h; mret (take (Z.to_nat limit) (in_bytes n))).
Definition append_bytes (bytes : list Z) (n : Inode) : Inode :=
  mkInode (in_bytes n ++ bytes) false (in_mode n) (in_old_modes n) (in_owner n).
(** A write that fails has written a part. *)
Definition write_all (kn : Kernel) (h : Handle) (bytes : list Z) : io unit := λ s,
  let call := fs_calls s in
  let s := with_calls s (S call) in
  match kn_fails kn call with
  | Some e =>
      ('(i, _) ← handle_inode h;
       update_inode i (append_bytes (take (kn_written kn call) bytes)) ;; lift (Err e)) s
  | None => ('(i, _) ← handle_inode h; update_inode i (append_bytes bytes)) s
  end.
Definition flushed (n : Inode) : Inode :=
  mkInode (in_bytes n) true (in_mode n) [] (in_owner n).
Definition sync_all (kn : Kernel) (h : Handle) : io unit :=
  syscall kn
    (match h with
     | DirectoryHandle => s ← read; write (names_synced s)
     | FileHandle i => update_inode i flushed
     end).
Definition truncated (n : Inode) : Inode :=
  mkInode [] false (in_mode n) (in_old_modes n) (in_owner n).
Definition set_len_zero (kn : Kernel) (h : Handle) : io unit :=
  syscall kn ('(i, _) ← handle_inode h; update_inode i truncated).
Definition with_mode (mode : Z) (n : Inode) : Inode :=
  mkInode (in_bytes n) (in_flushed n) mode (in_mode n :: in_old_modes n) (in_owner n).
Definition set_handle_mode (kn : Kernel) (h : Handle) (mode : Z) : io unit :=
  syscall kn ('(i, _) ← handle_inode h; update_inode i (with_mode mode)).
Definition set_mode (kn : Kernel) (path : list Component) (mode : Z) : io unit :=
  syscall kn (s ← read;
    at_ ← lift (resolve kn s true path);
    match entry_at (fs_names s) at_ with
    | Some (Regular i) => update_inode i (with_mode mode)
    | Some _ => mret tt
    | None => lift (Err NotFound)
    end).

(** Renaming a file to another of its names does nothing. *)
Definition same_file (entry : Entry) (target : option Entry) : bool :=
  match entry, target with Regular i, Some (Regular j) => (i =? j)%nat | _, _ => false end.
Definition rename (kn : Kernel) (from to : list Component) : io unit :=
  syscall kn (s ← read;
    from_at ← lift (resolve kn s false from);
    to_at ← lift (resolve kn s false to);
    match entry_at (fs_names s) from_at, entry_at (fs_names s) to_at with
    | None, _ => lift (Err NotFound)
    | Some Directory, _ | _, Some Directory => lift (Err IsADirectory)
    | Some entry, target =>
        if same_file entry target then mret tt
        else write (with_names s (<[to_at := entry]> (delete from_at (fs_names s))))
    end).
Definition hard_link (kn : Kernel) (original link : list Component) : io unit :=
  syscall kn (s ← read;
    original_at ← lift (resolve kn s false original);
    link_at ← lift (resolve kn s false link);
    match entry_at (fs_names s) original_at, entry_at (fs_names s) link_at with
    | None, _ => lift (Err NotFound)
    | Some Directory, _ => lift (Err PermissionDenied)
    | Some _, Some _ => lift (Err AlreadyExists)
    | Some entry, None => write (with_names s (<[link_at := entry]> (fs_names s)))
    end).
Definition remove_file (kn : Kernel) (path : list Component) : io unit :=
  syscall kn (s ← read;
    at_ ← lift (resolve kn s false path);
    match entry_at (fs_names s) at_ with
    | None => lift (Err NotFound)
    | Some Directory => lift (Err IsADirectory)
    | Some _ => write (with_names s (delete at_ (fs_names s)))
    end).
Definition create_dir (kn : Kernel) (path : list Component) : io unit :=
  syscall kn (s ← read;
    at_ ← lift (resolve kn s false path);
    match entry_at (fs_names s) at_ with
    | None => write (with_names s (<[at_ := Directory]> (fs_names s)))
    | Some _ => lift (Err AlreadyExists)
    end).
(** [fs::create_dir_all]; the fuel is the number of components. *)
Definition create_or_accept (kn : Kernel) (path : list Component) : io unit :=
  r ← attempt (create_dir kn path);
  match (r : result IoErrorKind unit) with
  | Ok _ => mret tt
  | Err e => directory ← is_dir kn path; if (directory : bool) then mret tt else lift (Err e)
  end.
Fixpoint create_dir_all_fuel (fuel : nat) (kn : Kernel) (path : list Component) : io unit :=
  match path with
  | [] => mret tt
  | _ =>
      r ← attempt (create_dir kn path);
      match (r : result IoErrorKind unit) with
      | Ok _ => mret tt
      | Err NotFound =>
          match fuel, path_parent path with
          | S fuel, Some parent =>
              create_dir_all_fuel fuel kn parent ;; create_or_accept kn path
          | _, _ => lift (Err OtherIo)
          end
      | Err e => directory ← is_dir kn path; if (directory : bool) then mret tt else lift (Err e)
      end
  end.
Definition create_dir_all (kn : Kernel) (path : list Component) : io unit :=
  create_dir_all_fuel (length path) kn path.
(** [fs::canonicalize]. *)
Definition canonicalize (kn : Kernel) (path : list Component) : io location :=
  syscall kn (s ← read;
    at_ ← lift (resolve kn s true path);
    match entry_at (fs_names s) at_ with
    | Some _ => mret at_
    | None => lift (Err NotFound)
    end).
(** [fs2]'s exclusive advisory lock. *)
Definition try_lock_exclusive (kn : Kernel) (h : Handle) : io unit :=
  syscall kn ('(i, _) ← handle_inode h;
    s ← read;
    if bool_decide (i ∈ fs_locks s) then lift (Err WouldBlock)
    else write (with_locks s ({[i]} ∪ fs_locks s))).
Definition unlock (kn : Kernel) (h : Handle) : io unit :=
  syscall kn ('(i, _) ← handle_inode h;
    s ← read; write (with_locks s (fs_locks s ∖ {[i]}))).

(** ** A crash *)
Definition survives_in (n n' : Inode) : Prop :=
  (in_flushed n = true → in_bytes n' = in_bytes n) ∧ in_flushed n' = true
  ∧ in_mode n' ∈ in_mode n :: in_old_modes n ∧ in_old_modes n' = [] ∧ in_owner n' = in_owner n.
Inductive crash (s : FileSystem) : FileSystem → Prop :=
| crash_keeps s' :
    fs_names s' ∈ fs_names s :: fs_pending s → fs_pending s' = [] →
    (∀ i, option_Forall2 survives_in (fs_inodes s !! i) (fs_inodes s' !! i)) →
    fs_next s' = fs_next s → fs_locks s' = ∅ →
    crash s s'.
