(* ===== verification/StateProtection.v ===== *)
(** * Protected state files ([meshlake-core/src/state_protection.rs])

    The Unix build: the envelope around a serialised state, the lock, reading,
    replacing and recovering a state file. *)
From S2P Require Import Prelude Request Text Ext FileSystem.
From Stdlib Require Import Ascii.
#[local] Open Scope Z_scope.

Definition ENVELOPE_VERSION : Z := 1.
Definition LINUX_MASTER_KEY_PROTECTION : string := "linux-xchacha20poly1305-master-key-v1".
Definition LINUX_MASTER_KEY_LEN : nat := 32.
Definition LINUX_NONCE_LEN : nat := 24.
Definition MAX_PROVIDER_KEY_FILE_BYTES : Z := 64 * 1024.
Definition MAX_GENERIC_RECOVERY_BYTES : Z := 64 * 1024 * 1024.
Definition AGENT_STATE_PROTECTION_PURPOSE : bytes := bytes_of_string "MeshLake agent state v1".
Definition CONTROLLER_STATE_PROTECTION_PURPOSE : bytes :=
  bytes_of_string "MeshLake controller state v1".
Definition ROOT_IDENTITY_PROTECTION_PURPOSE : bytes :=
  bytes_of_string "MeshLake root service identity v1".
Definition RELAY_IDENTITY_PROTECTION_PURPOSE : bytes :=
  bytes_of_string "MeshLake relay service identity v1".

Inductive StateKeyProvider : Type := SystemdCredential (name : string) | RestrictedFile (path : string).
Inductive StateProtectionLevel : Type :=
| LinuxSystemdCredential | LinuxRestrictedExternalKeyFile | LinuxFilePermissionsOnly.
Definition level_name (level : StateProtectionLevel) : string :=
  match level with
  | LinuxSystemdCredential => "linux-systemd-credential-envelope"
  | LinuxRestrictedExternalKeyFile => "linux-restricted-external-key-envelope"
  | LinuxFilePermissionsOnly => "linux-0600-plaintext-compatibility"
  end.
Inductive StateProtectionKind : Type := PlatformDefault | LinuxMasterKey (key : bytes).
Record StateProtection : Type := mkStateProtection {
  sp_kind : StateProtectionKind;
  sp_level : StateProtectionLevel;
  sp_allow_plaintext_migration : bool;
}.
Definition platform_default : StateProtection :=
  mkStateProtection PlatformDefault LinuxFilePermissionsOnly false.
Definition linux_master_key_with_migration (key : bytes) (level : StateProtectionLevel)
    (allow : bool) : StateProtection := mkStateProtection (LinuxMasterKey key) level allow.

Record ProtectedStateEnvelope : Type := mkProtectedStateEnvelope {
  ve_format_version : Z;
  ve_protection : string;
  ve_nonce_base64 : option string;
  ve_ciphertext_base64 : string;
}.
Record DecodedState (T : Type) : Type := mkDecodedState {
  ds_value : T;
  ds_needs_protection_upgrade : bool;
}.
Arguments mkDecodedState {T} _ _.
Arguments ds_value {T} _.
Arguments ds_needs_protection_upgrade {T} _.
Inductive StateProtectionError : Type :=
| StateJson | StateBase64 | UnsupportedEnvelopeVersion (version : Z) | UnsupportedProtection
| ProviderInvalid | MissingMasterKey | PlaintextMigrationNotAllowed | StateAuthentication
| InvalidStateNonce.
Inductive StateFileError : Type :=
| ProtectionFailed (e : StateProtectionError) | LockFailed | IoFailed (kind : IoErrorKind).

(** [chacha20poly1305]'s XChaCha20-Poly1305 and [base64]'s standard engine. *)
Class StateLib := {
  xchacha_encrypt : bytes → bytes → bytes → bytes → option bytes;
  xchacha_decrypt : bytes → bytes → bytes → bytes → option bytes;
  base64_encode : bytes → string;
  base64_decode : string → option bytes;
}.
Class StateLibLaws `{StateLib} : Prop := {
  xchacha_decrypt_encrypt k n a m c :
    xchacha_encrypt k n a m = Some c → xchacha_decrypt k n a c = Some m;
  xchacha_encrypt_bytes k n a m c : xchacha_encrypt k n a m = Some c → wf_bytes c;
  base64_decode_encode bs : wf_bytes bs → base64_decode (base64_encode bs) = Some bs;
}.

Section state_protection.
Context `{StateLib} `{!Serde ProtectedStateEnvelope}.

(** ** Envelopes *)
Definition validate_envelope_version (envelope : ProtectedStateEnvelope)
    : result StateProtectionError unit :=
  bail_if (negb (ve_format_version envelope =? ENVELOPE_VERSION))
    (UnsupportedEnvelopeVersion (ve_format_version envelope)).
Definition state_associated_data (purpose : bytes) : bytes :=
  bytes_of_string "MeshLake protected state envelope" ++ [0] ++ [ENVELOPE_VERSION]
  ++ bytes_of_string LINUX_MASTER_KEY_PROTECTION ++ [0] ++ rev (be_bytes 8 (len purpose)) ++ purpose.
(** The randomness of the operating system is an argument. *)
Definition encode_linux_master_key_state (random : option bytes) (plaintext purpose key : bytes)
    : result StateProtectionError bytes :=
  nonce ← ok_or random ProviderInvalid;
  ciphertext ← ok_or (xchacha_encrypt key nonce (state_associated_data purpose) plaintext)
                 StateAuthentication;
  ok_or (to_vec (mkProtectedStateEnvelope ENVELOPE_VERSION LINUX_MASTER_KEY_PROTECTION
                   (Some (base64_encode nonce)) (base64_encode ciphertext))) StateJson.
Definition encode_platform_state (random : option bytes) (plaintext purpose : bytes)
    (protection : StateProtection) : result StateProtectionError bytes :=
  match sp_kind protection with
  | PlatformDefault => Ok plaintext
  | LinuxMasterKey key => encode_linux_master_key_state random plaintext purpose key
  end.
Definition encode_protected_state_with {T} `{!Serde T} (random : option bytes) (value : T)
    (purpose : bytes) (protection : StateProtection) : result StateProtectionError bytes :=
  plaintext ← ok_or (to_vec value) StateJson;
  encode_platform_state random plaintext purpose protection.
Definition encode_protected_state {T} `{!Serde T} (value : T) (purpose : bytes)
    : result StateProtectionError bytes :=
  encode_protected_state_with None value purpose platform_default.
Definition decode_linux_master_key_state {T} `{!Serde T} (envelope : ProtectedStateEnvelope)
    (purpose : bytes) (protection : StateProtection)
    : result StateProtectionError (DecodedState T) :=
  match sp_kind protection with
  | PlatformDefault => Err MissingMasterKey
  | LinuxMasterKey key =>
      encoded ← ok_or (ve_nonce_base64 envelope) InvalidStateNonce;
      decoded ← ok_or (base64_decode encoded) StateBase64;
      nonce ← ok_or (try_into LINUX_NONCE_LEN decoded) InvalidStateNonce;
      ciphertext ← ok_or (base64_decode (ve_ciphertext_base64 envelope)) StateBase64;
      plaintext ← ok_or (xchacha_decrypt key nonce (state_associated_data purpose) ciphertext)
                    StateAuthentication;
      value ← ok_or (from_slice plaintext) StateJson;
      Ok (mkDecodedState value false)
  end.
Definition decode_platform_state {T} `{!Serde T} (bs purpose : bytes)
    (protection : StateProtection) : result StateProtectionError (DecodedState T) :=
  match from_slice bs with
  | Some envelope =>
      validate_envelope_version envelope ;;
      if bool_decide (ve_protection envelope = LINUX_MASTER_KEY_PROTECTION)
      then decode_linux_master_key_state envelope purpose protection
      else Err UnsupportedProtection
  | None =>
      match sp_kind protection with
      | PlatformDefault =>
          value ← ok_or (from_slice bs) StateJson; Ok (mkDecodedState value false)
      | LinuxMasterKey _ =>
          if sp_allow_plaintext_migration protection
          then value ← ok_or (from_slice bs) StateJson; Ok (mkDecodedState value true)
          else Err PlaintextMigrationNotAllowed
      end
  end.
Definition decode_protected_state_with {T} `{!Serde T} : bytes → bytes → StateProtection →
    result StateProtectionError (DecodedState T) := decode_platform_state.
Definition decode_protected_state {T} `{!Serde T} (bs purpose : bytes)
    : result StateProtectionError (DecodedState T) :=
  decode_protected_state_with bs purpose platform_default.
End state_protection.

(** ** Files of operational secrets ([meshlake-core/src/secret_file.rs]) *)
Definition MAX_SECRET_FILE_BYTES : Z := 64 * 1024.
Inductive SecretFileError : Type :=
| SecretNotRegular | PathChanged | SecretTooLarge | InsecureSecret | InvalidUtf8
| SecretAlreadyExists | SecretIo (kind : IoErrorKind).
Abbreviation secret_op := (handler FileSystem SecretFileError).
(** The error of a call, in the caller's error type. *)
Definition convert {E F A} (f : E → F) (m : handler FileSystem E A) : handler FileSystem F A :=
  r ← attempt m; lift (map_err f r).
Definition secret_io {A} (m : io A) : secret_op A := convert SecretIo m.

Definition verify_open_file_is_regular (kn : Kernel) (h : Handle) : secret_op Metadata :=
  m ← secret_io (handle_metadata kn h);
  lift (bail_if (negb (bool_decide (md_type m = IsFile))) SecretNotRegular) ;;
  mret m.
Definition verify_platform_permissions (m : Metadata) : result SecretFileError unit :=
  bail_if (negb (Z.land (md_mode m) 63 =? 0)) InsecureSecret.
Definition verify_open_secret_file (kn : Kernel) (h : Handle) (restricted : bool)
    : secret_op Metadata :=
  m ← verify_open_file_is_regular kn h;
  lift (if restricted then verify_platform_permissions m else Ok tt) ;;
  mret m.
Definition open_secret_file_for_read (kn : Kernel) (path : list Component) : secret_op Handle :=
  secret_io (open_nofollow kn path).
Definition read_secret_file_bytes (kn : Kernel) (path : list Component) (restricted : bool)
    : secret_op bytes :=
  file ← open_secret_file_for_read kn path;
  m ← verify_open_secret_file kn file restricted;
  lift (bail_if (MAX_SECRET_FILE_BYTES <? md_len m) SecretTooLarge) ;;
  bs ← secret_io (read_up_to kn file (MAX_SECRET_FILE_BYTES + 1));
  lift (bail_if (MAX_SECRET_FILE_BYTES <? len bs) SecretTooLarge) ;;
  mret bs.
Definition read_secret_file_no_follow (kn : Kernel) (path : list Component) (restricted : bool)
    : secret_op bytes := read_secret_file_bytes kn path restricted.
Definition read_restricted_secret_file (kn : Kernel) (path : list Component) : secret_op bytes :=
  read_secret_file_no_follow kn path true.
(** Whether the bytes are UTF-8 is an argument, as a string is its bytes. *)
Definition read_restricted_secret_string_file (is_utf8 : bytes → bool) (kn : Kernel)
    (path : list Component) : secret_op string :=
  bs ← read_secret_file_bytes kn path true;
  lift (if is_utf8 bs then Ok (of_bytes bs) else Err InvalidUtf8).
Definition verify_restricted_secret_file (kn : Kernel) (path : list Component) : secret_op unit :=
  file ← open_secret_file_for_read kn path;
  verify_open_secret_file kn file true ;;
  mret tt.

Definition create_error (e : IoErrorKind) : SecretFileError :=
  match e with AlreadyExists => SecretAlreadyExists | e => SecretIo e end.
Definition create_secret_file_handle (kn : Kernel) (path : list Component) : secret_op Handle :=
  convert create_error (create_new kn 384 path).
Definition restrict_open_secret_file_permissions (kn : Kernel) (h : Handle) : secret_op unit :=
  secret_io (set_handle_mode kn h 384) ;;
  m ← secret_io (handle_metadata kn h);
  lift (verify_platform_permissions m).
(** The same device and inode number. *)
Definition path_still_references_open_file (kn : Kernel) (h : Handle) (path : list Component)
    : secret_op bool :=
  opened ← attempt (handle_metadata kn h);
  match (opened : result IoErrorKind Metadata) with
  | Err _ => mret false
  | Ok opened =>
      current ← attempt (symlink_metadata kn path);
      mret (match (current : result IoErrorKind Metadata) with
            | Err _ => false
            | Ok current => bool_decide (md_type current = IsFile)
                            && bool_decide (md_inode opened = md_inode current)
            end)
  end.
Definition verify_path_still_references_open_file (kn : Kernel) (h : Handle)
    (path : list Component) : secret_op unit :=
  same ← path_still_references_open_file kn h path;
  lift (bail_if (negb same) PathChanged).
Definition secret_parent (path : list Component) : list Component :=
  match path_parent path with Some (c :: cs) => c :: cs | _ => [CurDir] end.
Definition create_restricted_secret_file (kn : Kernel) (path : list Component) (contents : bytes)
    : secret_op unit :=
  secret_io (create_dir_all kn (secret_parent path)) ;;
  file ← create_secret_file_handle kn path;
  r ← attempt (
    verify_open_file_is_regular kn file ;;
    restrict_open_secret_file_permissions kn file ;;
    secret_io (write_all kn file contents) ;;
    secret_io (sync_all kn file) ;;
    verify_open_secret_file kn file true ;;
    verify_path_still_references_open_file kn file path);
  if is_ok (r : result SecretFileError unit) then lift r else
  remove_path ← path_still_references_open_file kn file path;
  attempt (set_len_zero kn file) ;;
  attempt (sync_all kn file) ;;
  (if (remove_path : bool)
   then removed ← attempt (remove_file kn path); mret (const tt (removed : result IoErrorKind unit))
   else mret tt) ;;
  lift r.
