(* ===== verification/SystemdUnit.v ===== *)
(** * Values in generated systemd units ([meshlake-core/src/systemd_unit.rs]) and the
    units of the agent and of the root server

    The units are compared with a reading of unit files: lines, directives, and the
    words of a value with their quotes. *)
From S2P Require Import Prelude Text StateProtection.
From Stdlib Require Import Ascii.
#[local] Open Scope Z_scope.

Inductive SystemdUnitArgumentError : Type :=
| NonUtf8 (label : string) | Relative (label : string) | Unsafe (label : string).

(** ** [str::chars] *)
Definition continuation (low high b : Z) : bool := (low <=? b) && (b <=? high).
(** The characters of a UTF-8 string, if it is one; each takes a byte at least. *)
Fixpoint utf8_chars (fuel : nat) (bs : bytes) : option (list Z) :=
  match fuel, bs with
  | _, [] => Some []
  | O, _ => None
  | S fuel, b0 :: bs =>
      if b0 <? 128 then cons b0 <$> utf8_chars fuel bs else
      match bs with
      | b1 :: bs =>
          if (194 <=? b0) && (b0 <=? 223) && continuation 128 191 b1
          then cons ((b0 - 192) * 64 + (b1 - 128)) <$> utf8_chars fuel bs else
          match bs with
          | b2 :: bs =>
              let low := if b0 =? 224 then 160 else 128 in
              let high := if b0 =? 237 then 159 else 191 in
              if (224 <=? b0) && (b0 <=? 239) && continuation low high b1 && continuation 128 191 b2
              then cons ((b0 - 224) * 4096 + (b1 - 128) * 64 + (b2 - 128)) <$> utf8_chars fuel bs else
              match bs with
              | b3 :: bs =>
                  let low := if b0 =? 240 then 144 else 128 in
                  let high := if b0 =? 244 then 143 else 191 in
                  if (240 <=? b0) && (b0 <=? 244) && continuation low high b1 && continuation 128 191 b2
                     && continuation 128 191 b3
                  then cons ((b0 - 240) * 262144 + (b1 - 128) * 4096 + (b2 - 128) * 64 + (b3 - 128))
                         <$> utf8_chars fuel bs
                  else None
              | [] => None
              end
          | [] => None
          end
      | [] => None
      end
  end.
Definition chars (s : string) : option (list Z) := utf8_chars (String.length s) (bytes_of_string s).
(** [char::is_whitespace] and [char::is_control] *)
Definition char_is_whitespace (c : Z) : bool :=
  ((9 <=? c) && (c <=? 13)) || (c =? 32) || (c =? 0x85) || (c =? 0xA0) || (c =? 0x1680)
  || ((0x2000 <=? c) && (c <=? 0x200A)) || (c =? 0x2028) || (c =? 0x2029) || (c =? 0x202F)
  || (c =? 0x205F) || (c =? 0x3000).
Definition char_is_control (c : Z) : bool := (c <? 32) || ((127 <=? c) && (c <=? 159)).

(** ** Checks *)
(** A double quote, a backslash, [$], [%], [#], [;]. *)
Definition unsafe_char (c : Z) : bool :=
  char_is_whitespace c || char_is_control c || contains c [34; 92; 36; 37; 35; 59].
Definition validate_systemd_unit_value (value : string) (cs : list Z) (label : string)
    : result SystemdUnitArgumentError unit :=
  bail_if (str_is_empty value || existsb unsafe_char cs) (Unsafe label).
(** The Unix build; a path is a string of bytes. *)
Definition systemd_unit_path (path : string) (label : string) : result SystemdUnitArgumentError string :=
  bail_if (negb (starts_with "/" path)) (Relative label) ;;
  cs ← ok_or (chars path) (NonUtf8 label);
  validate_systemd_unit_value path cs label ;;
  Ok path.
Definition systemd_credential_name (value label : string) : result SystemdUnitArgumentError string :=
  bail_if (str_is_empty value
           || negb (all_bytes (λ b, is_ascii_alphanumeric b || contains b [46; 95; 45]) value)) (Unsafe label) ;;
  Ok value.

(** ** The units *)
Definition newline : ascii := ascii_of 10.
Definition quote : string := String (ascii_of 34) EmptyString.
Definition unit_text (lines : list string) : string :=
  foldr (λ line text, (line ++ String newline text)%string) EmptyString lines.
Definition agent_arguments (executable state_path provider_argument : string) : string :=
  ("ExecStart=" ++ quote ++ executable ++ quote ++ " --state-file " ++ quote ++ state_path ++ quote
   ++ provider_argument ++ " run")%string.
(** The text that [autostart install] writes for the agent. *)
Definition agent_unit (executable state_path : string) (provider : option StateKeyProvider)
    : result SystemdUnitArgumentError string :=
  executable ← systemd_unit_path executable "meshlaked executable path";
  state_path ← systemd_unit_path state_path "agent state path";
  '(credential_directive, provider_argument) ←
    match provider with
    | Some (SystemdCredential name) =>
        name ← systemd_credential_name name "systemd state credential name";
        Ok ([("LoadCredential=" ++ name)%string],
            (" --state-key-systemd-credential " ++ quote ++ name ++ quote)%string)
    | Some (RestrictedFile path) =>
        path ← systemd_unit_path path "agent state key path";
        Ok ([], (" --state-key-file " ++ quote ++ path ++ quote)%string)
    | None => Ok ([], EmptyString)
    end;
  Ok (unit_text
        (["[Unit]"; "Description=MeshLake virtual LAN agent"; "After=network-online.target";
          "Wants=network-online.target"; ""; "[Service]"; "Type=simple"]%string
         ++ credential_directive
         ++ [agent_arguments executable state_path provider_argument]
         ++ ["Restart=on-failure"; "RestartSec=3"; "StateDirectory=meshlake"; "NoNewPrivileges=false"; "";
             "[Install]"; "WantedBy=multi-user.target"]%string)).
(** The text for the root server; [config_path] is canonical and has a parent. *)
Definition root_unit (executable config_path config_directory : string)
    : result SystemdUnitArgumentError string :=
  executable ← systemd_unit_path executable "root executable path";
  config_value ← systemd_unit_path config_path "root configuration path";
  config_directory ← systemd_unit_path config_directory "root configuration directory";
  Ok (unit_text
        ["[Unit]"; "Description=MeshLake root discovery service"; "After=network-online.target";
         "Wants=network-online.target"; ""; "[Service]"; "Type=simple";
         ("ExecStart=" ++ quote ++ executable ++ quote ++ " --config " ++ quote ++ config_value ++ quote ++ " run");
         "Restart=on-failure"; "RestartSec=3"; "NoNewPrivileges=true"; "ProtectSystem=strict";
         "ProtectHome=true"; ("ReadWritePaths=" ++ config_directory); ""; "[Install]";
         "WantedBy=multi-user.target"]%string).

(** ** How systemd reads a unit *)
(** A directive per line; blank lines, comments and section headers have none.  Lines
    with a backslash, which may go on in the next line, are not read here. *)
Fixpoint key_value (line : string) : option (string * string) :=
  match line with
  | EmptyString => None
  | String a line =>
      if Ascii.eqb a "=" then Some (EmptyString, line)
      else '(key, value) ← key_value line; Some (String a key, value)
  end.
Definition comment (line : string) : bool :=
  match line with String a _ => Ascii.eqb a "#" || Ascii.eqb a ";" || Ascii.eqb a "[" | EmptyString => true end.
Fixpoint directives (lines : list string) : option (list (string * string)) :=
  match lines with
  | [] => Some []
  | line :: lines =>
      if str_contains (ascii_of 92) line then None else
      rest ← directives lines;
      if comment line then Some rest else kv ← key_value line; Some (kv :: rest)
  end.
Definition unit_directives (text : string) : option (list (string * string)) := directives (split_on newline text).
(** The words of a value, with quotes removed; [None] for a quote that stays open and
    for a specifier, a variable or a backslash, which would be replaced. *)
Definition end_word (word : option string) (words : list string) : list string :=
  match word with Some word => word :: words | None => words end.
Definition extend (word : option string) (a : ascii) : option string :=
  Some (default EmptyString word ++ String a EmptyString)%string.
Fixpoint unit_words (open : option ascii) (word : option string) (value : string) : option (list string) :=
  match value with
  | EmptyString => match open with Some _ => None | None => Some (end_word word []) end
  | String a value =>
      if contains (byte_of a) [36; 37; 92] then None else
      match open with
      | Some q => if Ascii.eqb a q then unit_words None word value else unit_words open (extend word a) value
      | None =>
          if contains (byte_of a) [32; 9] then end_word word <$> unit_words None None value
          else if contains (byte_of a) [34; 39] then unit_words (Some a) (Some (default EmptyString word)) value
          else unit_words None (extend word a) value
      end
  end.
Definition words (value : string) : option (list string) := unit_words None None value.

(** ** What an accepted value lacks *)
Lemma all_bytes_app f a b : all_bytes f (a ++ b)%string = all_bytes f a && all_bytes f b.
Proof.
  induction a as [|c a IH]; [done|]. rewrite append_cons.
  cbn [all_bytes]. by rewrite IH, andb_assoc.
Qed.
Lemma all_bytes_impl f g s : (∀ b, f b = true → g b = true) → all_bytes f s = true → all_bytes g s = true.
Proof.
  intros Hfg. induction s as [|c s IH]; cbn [all_bytes]; [done|].
  intros [Hc Hs]%andb_true_iff. rewrite (Hfg _ Hc). by apply IH.
Qed.
Definition lacks (b : Z) (s : string) : Prop := all_bytes (λ x, negb (x =? b)) s = true.
Lemma lacks_app b s t : lacks b s → lacks b t → lacks b (s ++ t).
Proof. unfold lacks. intros Hs Ht. by rewrite all_bytes_app, Hs, Ht. Qed.
Lemma ascii_chars_kept fuel : ∀ bs cs b, utf8_chars fuel bs = Some cs → b ∈ bs → b < 128 → b ∈ cs.
Proof.
  induction fuel as [|fuel IH]; intros bs cs b; destruct bs as [|b0 bs]; cbn [utf8_chars];
    try (by intros _ ?%elem_of_nil); [done|].
  intros Hr Hin Hb. destruct (Z.ltb_spec b0 128) as [H0|H0].
  { apply fmap_Some in Hr as (cs' & Hr & ->). apply elem_of_cons in Hin as [->|Hin]; [left|right; by eapply IH]. }
  assert (∀ low high x, continuation low high x = true → 128 ≤ low → x ≠ b) as Hcont
    by (unfold continuation; intros low high x [?%Z.leb_le _]%andb_true_iff ?; lia).
  destruct bs as [|b1 bs]; [done|]. destruct (_ && continuation 128 191 b1) eqn:H1.
  { apply andb_true_iff in H1 as [_ H1]. apply fmap_Some in Hr as (cs' & Hr & ->). right. eapply IH; [done| |done].
    apply elem_of_cons in Hin as [->|Hin]; [lia|]. apply elem_of_cons in Hin as [<-|Hin]; [by destruct (Hcont _ _ _ H1)|done]. }
  destruct bs as [|b2 bs]; [done|]. destruct (_ && continuation 128 191 b2) eqn:H2.
  { rewrite !andb_true_iff in H2. destruct H2 as [[_ H2] H2']. apply fmap_Some in Hr as (cs' & Hr & ->).
    right. eapply IH; [done| |done]. rewrite !elem_of_cons in Hin. destruct Hin as [->|[<-|[<-|Hin]]]; [lia| | |done].
    - destruct (Hcont _ _ _ H2); [by destruct (b0 =? 224)|done].
    - by destruct (Hcont _ _ _ H2'). }
  destruct bs as [|b3 bs]; [done|]. destruct (_ && continuation 128 191 b3) eqn:H3; [|done].
  rewrite !andb_true_iff in H3. destruct H3 as [[[_ H3] H3'] H3'']. apply fmap_Some in Hr as (cs' & Hr & ->).
  right. eapply IH; [done| |done]. rewrite !elem_of_cons in Hin. destruct Hin as [->|[<-|[<-|[<-|Hin]]]]; [lia| | | |done].
  - destruct (Hcont _ _ _ H3); [by destruct (b0 =? 240)|done].
  - by destruct (Hcont _ _ _ H3').
  - by destruct (Hcont _ _ _ H3'').
Qed.
(** White space, control characters of ASCII, double quotes, and what systemd replaces. *)
Definition plain_byte (b : Z) : bool := negb (contains b [9; 10; 32; 34; 36; 37; 92]).
Definition plain (s : string) : Prop := all_bytes plain_byte s = true ∧ s ≠ EmptyString.
Lemma all_bytes_elem f s : all_bytes f s = true ↔ ∀ b, b ∈ bytes_of_string s → f b = true.
Proof.
  induction s as [|c s IH]; cbn [all_bytes bytes_of_string].
  - split; [by intros _ b ?%elem_of_nil|done].
  - rewrite andb_true_iff, IH. setoid_rewrite elem_of_cons. unfold byte_of. naive_solver.
Qed.
Lemma path_plain path label v : systemd_unit_path path label = Ok v → v = path ∧ plain path.
Proof.
  unfold systemd_unit_path. intros (? & _ & Hr)%bind_Ok. apply bind_Ok in Hr as (cs & Hcs%ok_or_Ok & Hr).
  apply bind_Ok in Hr as (? & [He Hs]%bail_if_Ok%orb_false_iff & [= <-]). split; [done|].
  split; [|by intros ->]. apply all_bytes_elem. intros b Hb. unfold plain_byte.
  destruct (contains b _) eqn:Hc; [|done]. apply contains_true in Hc. exfalso.
  assert (b < 128) as Hlt by (repeat (apply elem_of_cons in Hc as [->|Hc]; [done|]); by apply elem_of_nil in Hc).
  pose proof (ascii_chars_kept _ _ _ b Hcs Hb Hlt) as Hin.
  assert (existsb unsafe_char cs = true); [|congruence]. apply existsb_exists. exists b.
  split; [by apply list_elem_of_In|].
  repeat (apply elem_of_cons in Hc as [->|Hc]; [done|]). by apply elem_of_nil in Hc.
Qed.
Lemma credential_plain name label v : systemd_credential_name name label = Ok v → v = name ∧ plain name.
Proof.
  unfold systemd_credential_name. intros (? & [He Hs%negb_false_iff]%bail_if_Ok%orb_false_iff & [= <-])%bind_Ok.
  split; [done|]. split; [|by intros ->]. revert Hs. apply all_bytes_impl. intros b Hb.
  destruct (plain_byte b) eqn:Hc; [done|]. apply negb_false_iff, contains_true in Hc. exfalso. revert Hb.
  repeat (apply elem_of_cons in Hc as [->|Hc]; [done|]). by apply elem_of_nil in Hc.
Qed.
Lemma plain_lacks s b : plain s → b ∈ [9; 10; 32; 34; 36; 37; 92] → lacks b s.
Proof.
  intros [Hs _] Hb. revert Hs. apply all_bytes_impl. intros x. cbv beta. unfold plain_byte.
  destruct (Z.eqb_spec x b) as [->|]; [|done]. by rewrite (proj2 (contains_true _ _) Hb).
Qed.

(** ** Reading the lines and the words back *)
Lemma split_unit_text lines : Forall (lacks 10) lines → split_on newline (unit_text lines) = lines ++ [EmptyString].
Proof.
  assert (∀ line rest, lacks 10 line → split_on newline (line ++ String newline rest) = line :: split_on newline rest) as Hline.
  { unfold lacks. induction line as [|c line IH]; intros rest; [by cbn|]. cbn [all_bytes].
    intros [Hc Hl]%andb_true_iff. apply negb_true_iff, Z.eqb_neq in Hc.
    change (split_on newline (String c (line ++ String newline rest)) = String c line :: split_on newline rest).
    cbn [split_on]. rewrite IH by done. rewrite decide_False; [done|]. by intros ->. }
  induction 1 as [|line lines Hl _ IH]; [done|]. change (unit_text (line :: lines)) with (line ++ String newline (unit_text lines))%string.
  by rewrite Hline, IH.
Qed.
Lemma directives_cons line lines :
  lacks 92 line →
  directives (line :: lines)
  = (rest ← directives lines; if comment line then Some rest else kv ← key_value line; Some (kv :: rest)).
Proof.
  intros Hl. cbn [directives].
  assert (str_contains (ascii_of 92) line = false) as ->; [|done].
  unfold str_contains, any_byte. apply negb_false_iff. exact Hl.
Qed.
Lemma plain_byte_excludes a : plain_byte (byte_of a) = true →
  contains (byte_of a) [36; 37; 92] = false ∧ contains (byte_of a) [32; 9] = false
  ∧ Ascii.eqb a (ascii_of 34) = false.
Proof.
  unfold plain_byte. intros Hp%negb_true_iff.
  assert (∀ b, b ∈ [9; 10; 32; 34; 36; 37; 92] → byte_of a ≠ b) as Hne.
  { intros b Hb <-. apply contains_true in Hb. congruence. }
  assert (∀ l, l ⊆ [9; 10; 32; 34; 36; 37; 92] → contains (byte_of a) l = false) as Hl.
  { intros l Hl. destruct (contains (byte_of a) l) eqn:Hc; [|done]. apply contains_true, Hl in Hc. by destruct (Hne _ Hc). }
  split_and!; [apply Hl; set_solver..|]. apply Ascii.eqb_neq. intros ->. by apply (Hne 34); [set_solver|].
Qed.
Lemma quoted_word s w rest :
  all_bytes plain_byte s = true →
  unit_words (Some (ascii_of 34)) (Some w) (s ++ quote ++ rest) = unit_words None (Some (w ++ s)%string) rest.
Proof.
  revert w. induction s as [|a s IH]; intros w.
  - intros _. by rewrite append_nil.
  - cbn [all_bytes]. intros [(H1 & _ & H3)%plain_byte_excludes Hs]%andb_true_iff.
    change (String a s ++ quote ++ rest)%string with (String a (s ++ quote ++ rest)).
    cbn [unit_words]. rewrite H1, H3. unfold extend. cbn [default]. rewrite IH by done. do 2 f_equal.
    by rewrite append_assoc.
Qed.
Lemma plain_word s w rest :
  all_bytes plain_byte s = true → lacks 39 s → s ≠ EmptyString →
  unit_words None w (s ++ rest) = unit_words None (Some (default EmptyString w ++ s)%string) rest.
Proof.
  unfold lacks. revert w. induction s as [|a s IH]; intros w Hp Hl Hne; [done|]. cbn [all_bytes] in Hp, Hl.
  apply andb_true_iff in Hp as [(H1 & H2 & H3)%plain_byte_excludes Hp].
  apply andb_true_iff in Hl as [H4%negb_true_iff%Z.eqb_neq Hl].
  change (String a s ++ rest)%string with (String a (s ++ rest)). cbn [unit_words]. rewrite H1, H2.
  assert (contains (byte_of a) [34; 39] = false) as ->.
  { destruct (contains (byte_of a) [34; 39]) eqn:Hc; [|done]. apply contains_true in Hc.
    apply elem_of_cons in Hc as [Hc|Hc]; [|by apply list_elem_of_singleton in Hc].
    apply Ascii.eqb_neq in H3. destruct H3. by apply byte_of_inj. }
  unfold extend. destruct s as [|b s]; [done|]. rewrite IH by done. cbn [from_option id]. by rewrite append_assoc.
Qed.
(** A quoted value is one word, as it is. *)
Lemma words_quoted s rest :
  plain s → unit_words None None (quote ++ s ++ quote ++ String " " rest)%string = cons s <$> words rest.
Proof.
  intros [Hs _]. change (quote ++ s ++ quote ++ String " " rest)%string
    with (String (ascii_of 34) (s ++ quote ++ String " " rest)).
  cbn [unit_words]. change (contains (byte_of (ascii_of 34)) [36; 37; 92]) with false.
  change (contains (byte_of (ascii_of 34)) [32; 9]) with false. change (contains (byte_of (ascii_of 34)) [34; 39]) with true.
  cbn [default]. by rewrite quoted_word.
Qed.
Lemma words_plain s rest :
  plain s → lacks 39 s → words (s ++ String " " rest) = cons s <$> words rest.
Proof. intros [Hs Hne] Hl. unfold words. by rewrite plain_word. Qed.
Lemma word_plain s : plain s → lacks 39 s → words s = Some [s].
Proof. intros [Hs Hne] Hl. unfold words. rewrite <-(append_nil s) at 1. by rewrite plain_word. Qed.
Definition provider_words (provider : option StateKeyProvider) : list string :=
  match provider with
  | Some (SystemdCredential name) => ["--state-key-systemd-credential"%string; name]
  | Some (RestrictedFile path) => ["--state-key-file"%string; path]
  | None => []
  end.
Definition provider_directives (provider : option StateKeyProvider) : list (string * string) :=
  match provider with Some (SystemdCredential name) => [("LoadCredential"%string, name)] | _ => [] end.
(** The arguments of the agent, as a value: quoted paths, an argument for the key, a verb. *)
Lemma agent_words executable state_path provider :
  plain executable → plain state_path →
  match provider with Some (SystemdCredential s) | Some (RestrictedFile s) => plain s | None => True end →
  ∀ argument, argument = match provider with
    | Some (SystemdCredential name) => (" --state-key-systemd-credential " ++ quote ++ name ++ quote)%string
    | Some (RestrictedFile path) => (" --state-key-file " ++ quote ++ path ++ quote)%string
    | None => EmptyString end →
  words (quote ++ executable ++ quote ++ " --state-file " ++ quote ++ state_path ++ quote ++ argument ++ " run")%string
  = Some ([executable; "--state-file"; state_path]%string ++ provider_words provider ++ ["run"]%string).
Proof.
  intros He Hs Hp argument ->. unfold words at 1.
  change (" --state-file " ++ ?x)%string with (String " " ("--state-file" ++ String " " x)).
  rewrite words_quoted, words_plain by done. unfold words at 1.
  destruct provider as [[name|path]|]; cbn [provider_words]; rewrite ?append_assoc.
  - change (" --state-key-systemd-credential " ++ ?x)%string with (String " " ("--state-key-systemd-credential" ++ String " " x)).
    rewrite words_quoted, words_plain by done. unfold words at 1.
    change (" run")%string with (String " " "run"). by rewrite words_quoted by done.
  - change (" --state-key-file " ++ ?x)%string with (String " " ("--state-key-file" ++ String " " x)).
    rewrite words_quoted, words_plain by done. unfold words at 1.
    change (" run")%string with (String " " "run"). by rewrite words_quoted by done.
  - change ("" ++ " run")%string with (String " " "run"). by rewrite words_quoted by done.
Qed.
Ltac one_line := first
  [ reflexivity | apply plain_lacks; [assumption|set_solver]
  | match goal with |- lacks _ (_ ++ _) => apply lacks_app; [one_line|one_line] end ].
(** The lines of a unit, read one by one. *)
Ltac read_text := unfold agent_arguments; cbn [app]; rewrite split_unit_text; [cbn [app]|repeat (apply List.Forall_cons; [one_line|]); apply List.Forall_nil].
Ltac read_lines := read_text; repeat (rewrite directives_cons by one_line); reflexivity.
(** C39: A generated unit says what was asked for.  Whatever the paths and the name of
    the credential are, when the installer of the agent or of the root server writes a
    unit, a reading of it finds the directives that its template names, in order, and no
    others; the words of the command are the executable and its arguments, each path and
    name one word and unchanged.  The directory in [ReadWritePaths], which the unit does
    not quote, is read back when it has no single quote; the check does not refuse one,
    and systemd removes it. *)
Theorem unit_says_what_was_asked executable state_path provider config directory text text' :
  agent_unit executable state_path provider = Ok text →
  root_unit executable config directory = Ok text' →
  (∃ command, unit_directives text = Some
     ([("Description", "MeshLake virtual LAN agent"); ("After", "network-online.target");
       ("Wants", "network-online.target"); ("Type", "simple")]%string
      ++ provider_directives provider ++ [("ExecStart"%string, command)]
      ++ [("Restart", "on-failure"); ("RestartSec", "3"); ("StateDirectory", "meshlake");
          ("NoNewPrivileges", "false"); ("WantedBy", "multi-user.target")]%string)
   ∧ words command = Some ([executable; "--state-file"; state_path]%string ++ provider_words provider ++ ["run"]%string))
  ∧ (∃ command, unit_directives text' = Some
     ([("Description", "MeshLake root discovery service"); ("After", "network-online.target");
       ("Wants", "network-online.target"); ("Type", "simple"); ("ExecStart", command);
       ("Restart", "on-failure"); ("RestartSec", "3"); ("NoNewPrivileges", "true"); ("ProtectSystem", "strict");
       ("ProtectHome", "true"); ("ReadWritePaths", directory); ("WantedBy", "multi-user.target")]%string)
   ∧ words command = Some [executable; "--config"; config; "run"]%string
   ∧ (lacks 39 directory → words directory = Some [directory]))
  ∧ (∃ t, root_unit "/r" "/etc/o'n'e/r.json" "/etc/o'n'e" = Ok t) ∧ words "/etc/o'n'e" = Some ["/etc/one"%string].
Proof.
  intros Ha Hr. split_and!; [| |by eexists|done].
  - revert Ha. unfold agent_unit. intros (e & [-> He]%path_plain & Ha)%bind_Ok.
    apply bind_Ok in Ha as (s & [-> Hs]%path_plain & Ha). apply bind_Ok in Ha as ([directive argument] & Hp & <-%Ok_inj).
    unfold unit_directives.
    exists (quote ++ executable ++ quote ++ " --state-file " ++ quote ++ state_path ++ quote ++ argument ++ " run")%string.
    destruct provider as [[name|path]|].
    + apply bind_Ok in Hp as (n & [-> Hn]%credential_plain & [= <- <-]).
      split; [|by eapply agent_words].
      read_lines.
    + apply bind_Ok in Hp as (n & [-> Hn]%path_plain & [= <- <-]).
      split; [|by eapply agent_words].
      read_lines.
    + injection Hp as <- <-. split; [|by eapply (agent_words _ _ None)].
      read_lines.
  - revert Hr. unfold root_unit. intros (e & [-> He]%path_plain & Hr)%bind_Ok.
    apply bind_Ok in Hr as (c & [-> Hc]%path_plain & Hr). apply bind_Ok in Hr as (d & [-> Hd]%path_plain & <-%Ok_inj).
    exists (quote ++ executable ++ quote ++ " --config " ++ quote ++ config ++ quote ++ " run")%string.
    unfold unit_directives. split_and!; [| |intros Hl; by apply word_plain].
    + read_lines.
    + unfold words at 1. change (" --config " ++ ?x)%string with (String " " ("--config" ++ String " " x)).
      rewrite words_quoted, words_plain by done. unfold words at 1.
      change (" run")%string with (String " " "run"). by rewrite words_quoted by done.
Qed.
Lemma unit_says_what_was_asked_witness :
  ∃ command, words command = Some ["/opt/a"; "--state-file"; "/var/b"; "--state-key-file"; "/etc/k"; "run"]%string.
Proof.
  destruct (agent_unit "/opt/a" "/var/b" (Some (RestrictedFile "/etc/k"))) as [text|e] eqn:Ha; [|by vm_compute in Ha].
  destruct (root_unit "/opt/a" "/etc/m/r.json" "/etc/m") as [text'|e] eqn:Hr; [|by vm_compute in Hr].
  destruct (unit_says_what_was_asked "/opt/a" "/var/b" (Some (RestrictedFile "/etc/k")) "/etc/m/r.json" "/etc/m"
    text text' Ha Hr) as ((command & _ & Hw) & _).
  exists command. exact Hw.
Defined.
