(* ===== verification/StateFile.v ===== *)
(** * Reading, replacing and recovering a state file
    ([meshlake-core/src/state_protection.rs])

    The Unix build.  A path is its text, since other names are made by appending
    to it; the system calls take its components. *)
From S2P Require Import Prelude Request Text Ext FileSystem StateProtection.
From Stdlib Require Import Ascii.
#[local] Open Scope Z_scope.

Abbreviation state_op E := (handler FileSystem E).
Definition io_failed {A} (m : io A) : state_op StateFileError A := convert IoFailed m.

(** ** Paths of a state file *)
Definition state_parent (path : list Component) : list Component :=
  match path_parent path with Some (c :: cs) => c :: cs | _ => [CurDir] end.
Definition suffixed_path (path suffix : string) : string := path ++ suffix.
Definition backup_path (path : string) : string := suffixed_path path ".bak".
Definition lock_path (path : string) : string := suffixed_path path ".lock".

(** Every prefix of the path that exists is checked. *)
Fixpoint reject_links (kn : Kernel) (current rest : list Component) : state_op StateFileError unit :=
  match rest with
  | [] => mret tt
  | component :: rest =>
      let current := current ++ [component] in
      match component with
      | Normal _ =>
          r ← attempt (symlink_metadata kn current);
          match (r : result IoErrorKind Metadata) with
          | Ok m =>
              if bool_decide (md_type m = IsSymlink) then lift (Err (IoFailed InvalidInput))
              else reject_links kn current rest
          | Err NotFound => mret tt
          | Err e => lift (Err (IoFailed e))
          end
      | _ => reject_links kn current rest
      end
  end.
Definition reject_symlink_path (kn : Kernel) (path : string) : state_op StateFileError unit :=
  if existsb (λ c, bool_decide (c = ParentDir)) (components path)
  then lift (Err (IoFailed InvalidInput))
  else reject_links kn [] (components path).
Definition restrict_state_file_permissions (kn : Kernel) (path : string)
    : state_op StateFileError unit :=
  reject_symlink_path kn path ;;
  io_failed (set_mode kn (components path) 384).

(** ** The lock *)
Definition verify_open_regular_state_file (kn : Kernel) (h : Handle)
    : state_op StateFileError Metadata :=
  m ← io_failed (handle_metadata kn h);
  lift (bail_if (negb (bool_decide (md_type m = IsFile))) (IoFailed InvalidData)) ;;
  mret m.
Definition acquire (kn : Kernel) (state_path : string) : state_op StateFileError Handle :=
  reject_symlink_path kn state_path ;;
  io_failed (create_dir_all kn (state_parent (components state_path))) ;;
  reject_symlink_path kn state_path ;;
  let lock := lock_path state_path in
  reject_symlink_path kn lock ;;
  file ← io_failed (open_or_create_nofollow kn (components lock));
  verify_open_regular_state_file kn file ;;
  restrict_state_file_permissions kn lock ;;
  convert (λ _, LockFailed) (try_lock_exclusive kn file) ;;
  mret file.
(** Dropping the lock. *)
Definition release {E} (kn : Kernel) (file : Handle) : state_op E unit :=
  attempt (unlock kn file) ;; mret tt.

(** ** Reading *)
Definition read_open_state_file (kn : Kernel) (file : Handle) (m : Metadata) (maximum : Z)
    : state_op StateFileError bytes :=
  lift (bail_if (maximum <? md_len m) (IoFailed InvalidData)) ;;
  bs ← io_failed (read_up_to kn file (maximum + 1));
  lift (bail_if (maximum <? len bs) (IoFailed InvalidData)) ;;
  mret bs.

Section state_file.
Context `{UuidLib} `{!UuidText} `{StateLib} `{!Serde ProtectedStateEnvelope}.

Definition temporary_path (path : string) (fresh : Uuid) : string :=
  suffixed_path path (".tmp-" ++ uuid_to_string fresh).
Definition read_protected_state_file_with_validation {T E} `{!Serde T} (wrap : StateFileError → E)
    (kn : Kernel) (path : string) (purpose : bytes) (maximum : Z)
    (validate_metadata : Metadata → result E unit) : state_op E (DecodedState T) :=
  convert wrap (reject_symlink_path kn path) ;;
  file ← convert wrap (io_failed (open_nofollow kn (components path)));
  m ← convert wrap (verify_open_regular_state_file kn file);
  lift (bail_if (maximum <? md_len m) (wrap (IoFailed InvalidData))) ;;
  lift (validate_metadata m) ;;
  bs ← convert wrap (read_open_state_file kn file m maximum);
  lift (map_err (λ e, wrap (ProtectionFailed e)) (decode_protected_state bs purpose)).
Definition read_protected_state_file {T} `{!Serde T} (kn : Kernel) (path : string)
    (purpose : bytes) (maximum : Z) : state_op StateFileError (DecodedState T) :=
  read_protected_state_file_with_validation (λ e, e) kn path purpose maximum (λ _, Ok tt).

(** ** Replacing *)
Definition replace_state_file (kn : Kernel) (temporary path : string)
    : state_op StateFileError unit :=
  reject_symlink_path kn temporary ;;
  reject_symlink_path kn path ;;
  io_failed (rename kn (components temporary) (components path)).
Definition sync_state_parent (kn : Kernel) (parent : list Component)
    : state_op StateFileError unit :=
  directory ← io_failed (open_file kn parent);
  io_failed (sync_all kn directory).
(** [if result.is_err() && temporary.exists()]: the temporary is removed. *)
Definition cleaning_up {A} (kn : Kernel) (temporary : string) (m : state_op StateFileError A)
    : state_op StateFileError A :=
  r ← attempt m;
  (if is_ok (r : result StateFileError A) then mret tt else
   there ← path_exists kn (components temporary);
   if (there : bool)
   then removed ← attempt (remove_file kn (components temporary)); mret (const tt (removed : result IoErrorKind unit))
   else mret tt) ;;
  lift r.
Definition write_protected_state_file_with {T} `{!Serde T} (kn : Kernel) (fresh : Uuid)
    (random : option bytes) (path : string) (value : T) (purpose : bytes)
    (protection : StateProtection) : state_op StateFileError unit :=
  reject_symlink_path kn path ;;
  let parent := state_parent (components path) in
  io_failed (create_dir_all kn parent) ;;
  let temporary := temporary_path path fresh in
  reject_symlink_path kn temporary ;;
  cleaning_up kn temporary (
    file ← io_failed (create_new kn 438 (components temporary));
    restrict_state_file_permissions kn temporary ;;
    encoded ← lift (map_err ProtectionFailed
                      (encode_protected_state_with random value purpose protection));
    io_failed (write_all kn file encoded) ;;
    io_failed (sync_all kn file) ;;
    replace_state_file kn temporary path ;;
    restrict_state_file_permissions kn path ;;
    sync_state_parent kn parent).
Definition write_protected_state_file {T} `{!Serde T} (kn : Kernel) (fresh : Uuid) (path : string)
    (value : T) (purpose : bytes) : state_op StateFileError unit :=
  write_protected_state_file_with kn fresh None path value purpose platform_default.

(** ** Recovering *)
Definition install_recovery_temporary_file (kn : Kernel) (temporary path : string)
    : state_op StateFileError unit :=
  io_failed (hard_link kn (components temporary) (components path)) ;;
  io_failed (remove_file kn (components temporary)).
Definition install_recovered_backup_bytes (kn : Kernel) (fresh : Uuid) (path backup : string)
    (bs : bytes) : state_op StateFileError unit :=
  reject_symlink_path kn path ;;
  let parent := state_parent (components path) in
  io_failed (create_dir_all kn parent) ;;
  let temporary := temporary_path path fresh in
  reject_symlink_path kn temporary ;;
  cleaning_up kn temporary (
    file ← io_failed (create_new kn 384 (components temporary));
    restrict_state_file_permissions kn temporary ;;
    io_failed (write_all kn file bs) ;;
    io_failed (sync_all kn file) ;;
    install_recovery_temporary_file kn temporary path ;;
    restrict_state_file_permissions kn path ;;
    installed ← io_failed (open_nofollow kn (components path));
    m ← verify_open_regular_state_file kn installed;
    lift (bail_if (negb (md_len m =? len bs)) (IoFailed InvalidData)) ;;
    installed_bytes ← read_open_state_file kn installed m (len bs);
    lift (bail_if (bool_decide (installed_bytes ≠ bs)) (IoFailed InvalidData)) ;;
    io_failed (remove_file kn (components backup)) ;;
    sync_state_parent kn parent).
Definition recover_protected_state_file_with_validation {E} (wrap : StateFileError → E)
    (kn : Kernel) (fresh : Uuid) (path : string) (maximum : Z)
    (validate_backup : Metadata → bytes → result E unit) : state_op E unit :=
  convert wrap (reject_symlink_path kn path) ;;
  primary ← attempt (symlink_metadata kn (components path));
  match (primary : result IoErrorKind Metadata) with
  | Ok _ => mret tt
  | Err NotFound =>
      let backup := backup_path path in
      convert wrap (reject_symlink_path kn backup) ;;
      opened ← attempt (open_nofollow kn (components backup));
      match (opened : result IoErrorKind Handle) with
      | Err NotFound => mret tt
      | Err e => lift (Err (wrap (IoFailed e)))
      | Ok file =>
          m ← convert wrap (verify_open_regular_state_file kn file);
          bs ← convert wrap (read_open_state_file kn file m maximum);
          lift (validate_backup m bs) ;;
          convert wrap (install_recovered_backup_bytes kn fresh path backup bs)
      end
  | Err e => lift (Err (wrap (IoFailed e)))
  end.
Definition recover_protected_state_file (kn : Kernel) (fresh : Uuid) (path : string)
    : state_op StateFileError unit :=
  recover_protected_state_file_with_validation (λ e, e) kn fresh path MAX_GENERIC_RECOVERY_BYTES
    (λ _ _, Ok tt).
(** On Unix nothing is left to remove. *)
Definition cleanup_stale_state_backup (kn : Kernel) (path : string) : state_op StateFileError unit :=
  reject_symlink_path kn path.
End state_file.

(** ** Key providers *)
Definition provider_failed {A} (m : io A) : state_op StateProtectionError A :=
  convert (λ _, ProviderInvalid) m.
Definition exact_master_key (bs : bytes) : result StateProtectionError bytes :=
  ok_or (try_into LINUX_MASTER_KEY_LEN bs) ProviderInvalid.
Definition read_provider_key_file (kn : Kernel) (path : list Component)
    : state_op StateProtectionError bytes :=
  bs ← convert (λ _, ProviderInvalid) (read_secret_file_no_follow kn path false);
  lift (bail_if (MAX_PROVIDER_KEY_FILE_BYTES <? len bs) ProviderInvalid) ;;
  mret bs.
Definition load_systemd_credential_from_directory (kn : Kernel) (name : string)
    (directory : list Component) : state_op StateProtectionError bytes :=
  match components name with
  | [Normal plain] =>
      bs ← read_provider_key_file kn (directory ++ [Normal plain]);
      lift (exact_master_key bs)
  | _ => lift (Err ProviderInvalid)
  end.
(** The value of [CREDENTIALS_DIRECTORY] is an argument. *)
Definition load_systemd_credential (kn : Kernel) (credentials : option string) (name : string)
    : state_op StateProtectionError bytes :=
  directory ← lift (ok_or credentials ProviderInvalid);
  lift (bail_if (negb (is_absolute (components directory))) ProviderInvalid) ;;
  load_systemd_credential_from_directory kn name (components directory).
Definition absolute_parent (kn : Kernel) (path : list Component)
    : state_op StateProtectionError location :=
  let parent := default [CurDir] (path_parent path) in
  provider_failed (create_dir_all kn parent) ;;
  provider_failed (canonicalize kn parent).
Definition reject_key_beside_state (kn : Kernel) (state_path key_path : list Component)
    : state_op StateProtectionError unit :=
  state_directory ← absolute_parent kn state_path;
  key_directory ← provider_failed (canonicalize kn (default [CurDir] (path_parent key_path)));
  lift (bail_if (bool_decide (state_directory = key_directory)) ProviderInvalid).
Definition from_provider_with_plaintext_migration (kn : Kernel) (credentials : option string)
    (state_path : string) (provider : StateKeyProvider) (allow : bool)
    : state_op StateProtectionError StateProtection :=
  match provider with
  | SystemdCredential name =>
      key ← load_systemd_credential kn credentials name;
      mret (linux_master_key_with_migration key LinuxSystemdCredential allow)
  | RestrictedFile path =>
      reject_key_beside_state kn (components state_path) (components path) ;;
      bs ← convert (λ _, ProviderInvalid) (read_restricted_secret_file kn (components path));
      key ← lift (exact_master_key bs);
      mret (linux_master_key_with_migration key LinuxRestrictedExternalKeyFile allow)
  end.
Definition from_provider (kn : Kernel) (credentials : option string) (state_path : string)
    (provider : StateKeyProvider) : state_op StateProtectionError StateProtection :=
  from_provider_with_plaintext_migration kn credentials state_path provider false.
