(* ===== verification/ServiceIdentity.v ===== *)
(** * Planet-pinned service identities ([meshlake-core/src/service_identity.rs])

    The identity policy a Planet manifest pins for a Root or Relay: one current
    key, an optional next key with a rotation window, and revoked keys; and the
    validation of the identity a service keeps on disk. *)
From S2P Require Import Prelude Request Net Text Ext Model FileSystem StateProtection StateFile.
#[local] Open Scope Z_scope.

Section service_identity.
Context `{UuidLib} `{Ed25519}.

Record ServiceIdentityPolicy : Type := mkServiceIdentityPolicy {
  service_id : Uuid;
  current_public_key : bytes;
  next_public_key : option bytes;
  transition_not_before : option Z;
  transition_not_after : option Z;
  revoked_public_keys : list bytes;
}.
#[global] Instance ServiceIdentityPolicy_eq_dec : EqDecision ServiceIdentityPolicy.
Proof. pose proof uuid_eq_dec. solve_decision. Defined.

Record ServiceSignature : Type := mkServiceSignature {
  ss_public_key : bytes;
  ss_signature : bytes;
}.

Inductive ServiceIdentityError : Type :=
| SI_InvalidKey
| SI_InvalidRotationWindow
| SI_RotationWindowExpired
| SI_RevokedKey
| SI_InvalidSignatureSet.
#[global] Instance ServiceIdentityError_eq_dec : EqDecision ServiceIdentityError.
Proof. solve_decision. Defined.

Definition stable (id : Uuid) (key : bytes) : ServiceIdentityPolicy :=
  mkServiceIdentityPolicy id key None None None [].

Definition validate_key (key : bytes) : result ServiceIdentityError unit :=
  if len key =? 32 then Ok tt else Err SI_InvalidKey.

Definition required_public_keys (p : ServiceIdentityPolicy) (now : Z)
    : result ServiceIdentityError (list bytes) :=
  validate_key (current_public_key p) ;;
  bail_if (existsb (λ key, bool_decide (key = current_public_key p)) (revoked_public_keys p))
    SI_RevokedKey ;;
  match next_public_key p with
  | None =>
      bail_if (is_some (transition_not_before p) || is_some (transition_not_after p))
        SI_InvalidRotationWindow ;;
      Ok [current_public_key p]
  | Some next =>
      validate_key next ;;
      bail_if (existsb (λ key, bool_decide (key = next)) (revoked_public_keys p))
        SI_RevokedKey ;;
      match transition_not_before p, transition_not_after p with
      | Some not_before, Some not_after =>
          bail_if ((not_after <=? not_before) || bool_decide (next = current_public_key p))
            SI_InvalidRotationWindow ;;
          if now <? not_before then Ok [current_public_key p]
          else if not_after <? now then Err SI_RotationWindowExpired
          else Ok [current_public_key p; next]
      | _, _ => Err SI_InvalidRotationWindow
      end
  end.

(** The body of the loop over required keys zipped with signatures. *)
Definition check_signature (message : bytes) (ks : bytes * ServiceSignature)
    : result ServiceIdentityError unit :=
  let '(public_key, signature) := ks in
  bail_if (bool_decide (ss_public_key signature ≠ public_key)) SI_InvalidSignatureSet ;;
  key ← ok_or (try_into 32 public_key) SI_InvalidKey;
  sig ← ok_or (try_into 64 (ss_signature signature)) SI_InvalidSignatureSet;
  vk ← ok_or (vk_from_bytes key) SI_InvalidKey;
  bail_if (negb (verify vk message sig)) SI_InvalidSignatureSet.

Definition verify_signatures (p : ServiceIdentityPolicy) (message : bytes)
    (signatures : list ServiceSignature) (now : Z) : result ServiceIdentityError unit :=
  required ← required_public_keys p now;
  bail_if (existsb (λ s, existsb (λ key, bool_decide (key = ss_public_key s))
                           (revoked_public_keys p)) signatures) SI_RevokedKey ;;
  bail_if (negb (len signatures =? len required)) SI_InvalidSignatureSet ;;
  for_each (check_signature message) (combine required signatures).

(** The signature set a service produces with its keys, as
    [SignedRelayRegistrationAck::sign] and [sign_with_identity] build it. *)
Definition service_signatures (signing_keys : list SigningKey) (message : bytes)
    : list ServiceSignature :=
  map (λ key, mkServiceSignature (public_bytes key) (sign key message)) signing_keys.

(** ** The persisted identity *)
Inductive ServiceIdentityKind : Type := KindRoot | KindRelay.
#[global] Instance ServiceIdentityKind_eq_dec : EqDecision ServiceIdentityKind.
Proof. solve_decision. Defined.

Record PersistedServiceIdentity : Type := mkPersistedServiceIdentity {
  psi_schema_version : Z;
  psi_kind : ServiceIdentityKind;
  psi_service_id : Uuid;
  psi_secret_key : bytes;
}.

Inductive ServiceIdentityFileError : Type :=
| UnsupportedSchema
| WrongKind
| InvalidSecretKey
| ServiceIdMismatch
| InvalidServiceId
| UnprotectedState
| InsecurePermissions
| WrongOwner
| IdentityRandomnessUnavailable.

Definition SERVICE_IDENTITY_SCHEMA_VERSION : Z := 2.

Definition validate_service_id (id : Uuid) (expected : option Uuid)
    : result ServiceIdentityFileError unit :=
  bail_if (is_nil id) InvalidServiceId ;;
  bail_if (is_some_and expected (λ e, bool_decide (e ≠ id))) ServiceIdMismatch ;;
  Ok tt.

Definition parse_secret_key (secret : bytes) : result ServiceIdentityFileError bytes :=
  ok_or (try_into 32 secret) InvalidSecretKey.

Definition validate_persisted_identity (persisted : PersistedServiceIdentity)
    (expected_kind : ServiceIdentityKind) (expected : option Uuid)
    : result ServiceIdentityFileError unit :=
  bail_if (negb (psi_schema_version persisted =? SERVICE_IDENTITY_SCHEMA_VERSION))
    UnsupportedSchema ;;
  bail_if (bool_decide (psi_kind persisted ≠ expected_kind)) WrongKind ;;
  validate_service_id (psi_service_id persisted) expected ;;
  parse_secret_key (psi_secret_key persisted) ;;
  Ok tt.

(** [validate_identity_file_security] on Unix: mode bits and owner. *)
Definition validate_identity_file_security (mode uid effective_user : Z)
    : result ServiceIdentityFileError unit :=
  bail_if (negb (Z.land mode 63 =? 0)) InsecurePermissions ;;
  bail_if (negb (uid =? effective_user)) WrongOwner ;;
  Ok tt.

(** [create_identity], up to the write of the file: the operating system's
    randomness and the fresh identifier are arguments. *)
Definition create_identity (random : option bytes) (fresh : Uuid)
    (expected : option Uuid) (kind : ServiceIdentityKind)
    : result ServiceIdentityFileError PersistedServiceIdentity :=
  secret ← ok_or random IdentityRandomnessUnavailable;
  let id := default fresh expected in
  validate_service_id id expected ;;
  Ok (mkPersistedServiceIdentity SERVICE_IDENTITY_SCHEMA_VERSION kind id secret).

(** *** Specification of the rotation rules *)
Definition usable_key (p : ServiceIdentityPolicy) (key : bytes) : Prop :=
  length key = 32%nat ∧ key ∉ revoked_public_keys p.

(** The keys that must sign at a time: the current key alone outside a
    rotation and before its window opens, both keys during the window,
    nothing afterwards. *)
Inductive required_spec (p : ServiceIdentityPolicy) (now : Z) : list bytes → Prop :=
| required_stable :
    next_public_key p = None →
    transition_not_before p = None → transition_not_after p = None →
    usable_key p (current_public_key p) →
    required_spec p now [current_public_key p]
| required_before next not_before not_after :
    next_public_key p = Some next →
    transition_not_before p = Some not_before → transition_not_after p = Some not_after →
    usable_key p (current_public_key p) → usable_key p next →
    next ≠ current_public_key p → not_before < not_after → now < not_before →
    required_spec p now [current_public_key p]
| required_during next not_before not_after :
    next_public_key p = Some next →
    transition_not_before p = Some not_before → transition_not_after p = Some not_after →
    usable_key p (current_public_key p) → usable_key p next →
    next ≠ current_public_key p → not_before < not_after →
    not_before ≤ now ≤ not_after →
    required_spec p now [current_public_key p; next].
End service_identity.

Section service_identity_proofs.
Context `{UuidLib} `{Ed25519}.
Implicit Types p : ServiceIdentityPolicy.

Lemma validate_key_Ok key u : validate_key key = Ok u ↔ length key = 32%nat.
Proof.
  unfold validate_key, len. destruct u. case_match eqn:E; split; try done.
  - apply Z.eqb_eq in E. lia.
  - apply Z.eqb_neq in E. lia.
Qed.

Lemma revoked_check p key :
  existsb (λ k, bool_decide (k = key)) (revoked_public_keys p) = false
  ↔ key ∉ revoked_public_keys p.
Proof.
  rewrite existsb_not_elem. setoid_rewrite bool_decide_eq_false. naive_solver.
Qed.

Lemma required_public_keys_sound p now ks :
  required_public_keys p now = Ok ks → required_spec p now ks.
Proof.
  unfold required_public_keys. intros Hr. inv_ok.
  repeat match goal with
  | H : validate_key _ = Ok _ |- _ => apply validate_key_Ok in H
  | H : existsb _ _ = false |- _ => apply revoked_check in H
  end.
  destruct (next_public_key p) as [next|] eqn:Hnext; inv_ok.
  - repeat match goal with
    | H : validate_key _ = Ok _ |- _ => apply validate_key_Ok in H
    | H : existsb _ _ = false |- _ => apply revoked_check in H
    end.
    destruct (transition_not_before p) as [nb|] eqn:Hnb; [|done].
    destruct (transition_not_after p) as [na|] eqn:Hna; [|done]. inv_ok.
    destruct (now <? nb) eqn:Hlt; inv_ok; subst.
    + by eapply required_before.
    + destruct (na <? now) eqn:Hgt; inv_ok; subst.
      by eapply required_during.
  - destruct (transition_not_before p) eqn:?, (transition_not_after p) eqn:?; try done.
    subst. by apply required_stable.
Qed.

Lemma required_public_keys_complete p now ks :
  required_spec p now ks → required_public_keys p now = Ok ks.
Proof.
  assert (Hv : ∀ key, length key = 32%nat → validate_key key = Ok tt)
    by (intros; by apply validate_key_Ok).
  unfold required_public_keys.
  destruct 1 as [Hn Hb Ha [Hl Hk]|next nb na Hn Hb Ha [Hl Hk] [Hl' Hk'] Hne Hw Ht
                |next nb na Hn Hb Ha [Hl Hk] [Hl' Hk'] Hne Hw Ht];
    rewrite Hn, Hb, Ha, (Hv _ Hl), (proj2 (revoked_check p _) Hk); cbn; [done| |];
    rewrite (Hv _ Hl'), (proj2 (revoked_check p _) Hk'); cbn;
    rewrite (proj2 (Z.leb_gt _ _)), bool_decide_eq_false_2 by (done || lia); cbn.
  - by rewrite (proj2 (Z.ltb_lt _ _)) by lia.
  - by rewrite (proj2 (Z.ltb_ge _ _)), (proj2 (Z.ltb_ge _ _)) by lia.
Qed.

Lemma check_signature_Ok message key s u :
  check_signature message (key, s) = Ok u
  ↔ ss_public_key s = key ∧ signature_valid key message (ss_signature s).
Proof.
  unfold check_signature, signature_valid. split.
  - intros Hr. inv_ok.
    match goal with Hn : ¬ (_ ≠ _) |- _ => apply dec_stable in Hn end.
    repeat match goal with H : try_into _ _ = Some _ |- _ => apply try_into_Some in H as [-> H] end.
    naive_solver.
  - destruct u. intros (-> & Hk & Hs & vk & Hvk & Hver).
    rewrite bool_decide_eq_false_2 by naive_solver. cbn.
    rewrite (try_into_length 32) by done. cbn. rewrite (try_into_length 64) by done.
    cbn. rewrite Hvk. cbn. by rewrite Hver.
Qed.

Lemma verify_signatures_Ok p message signatures now u :
  verify_signatures p message signatures now = Ok u
  ↔ ∃ ks, required_spec p now ks
      ∧ Forall (λ s, ss_public_key s ∉ revoked_public_keys p) signatures
      ∧ Forall2 (λ key s, ss_public_key s = key ∧ signature_valid key message (ss_signature s))
          ks signatures.
Proof.
  unfold verify_signatures. split.
  - intros Hr. inv_ok. rename x into ks.
    exists ks. split; [by apply required_public_keys_sound|]. split.
    + rewrite Forall_forall. intros s Hs.
      match goal with Hx : existsb _ signatures = false |- _ =>
        rewrite existsb_not_elem in Hx; specialize (Hx s Hs) end.
      rewrite existsb_not_elem in *. intros Hin.
      match goal with Hx : ∀ _, _ → bool_decide _ = false |- _ =>
        specialize (Hx _ Hin) end.
      by rewrite bool_decide_eq_true_2 in *.
    + assert (length signatures = length ks) as Hlen by (unfold len in *; lia).
      clear -Hr Hlen. revert signatures Hr Hlen.
      induction ks as [|k ks IH]; intros [|s ss] Hr Hlen; try done.
      cbn in Hr. apply Forall_cons in Hr as [Hs Hr].
      apply check_signature_Ok in Hs. constructor; eauto with lia.
  - destruct u. intros (ks & Hks & Hrev & Hsig).
    rewrite (required_public_keys_complete _ _ _ Hks). cbn.
    replace (existsb _ signatures) with false.
    2: { symmetry. apply existsb_not_elem. intros s Hs. apply revoked_check.
         rewrite Forall_forall in Hrev. by apply Hrev. }
    cbn. unfold len. rewrite (Forall2_length _ _ _ Hsig), Z.eqb_refl. cbn.
    apply for_each_Ok. clear -Hsig. induction Hsig as [|k s ks ss Hk _ IH]; cbn; [done|].
    constructor; [by apply check_signature_Ok|done].
Qed.

Lemma required_spec_usable p now ks :
  required_spec p now ks → Forall (usable_key p) ks.
Proof. by destruct 1; repeat apply Forall_cons_2; try apply Forall_nil_2. Qed.

(** A service that signs with the keys the policy requires is accepted. *)
Lemma service_signatures_accepted `{!Ed25519Laws} p message keys now :
  required_spec p now (map public_bytes keys) →
  verify_signatures p message (service_signatures keys message) now = Ok tt.
Proof.
  intros Hks. apply verify_signatures_Ok. exists (map public_bytes keys).
  split; [done|]. split.
  - unfold service_signatures. apply Forall_fmap, Forall_forall. intros k Hk. cbn.
    apply required_spec_usable in Hks. rewrite Forall_forall in Hks.
    apply Hks. by apply list_elem_of_fmap_2.
  - unfold service_signatures. clear Hks. induction keys as [|k ks IH]; cbn; constructor; [|done].
    split; [done|]. apply sign_signature_valid.
Qed.
End service_identity_proofs.

(** ** The identity file *)
Definition SERVICE_IDENTITY_MAX_BYTES : Z := 16 * 1024.

Section identity_file.
Context `{UuidLib} `{Ed25519} `{!UuidText} `{StateLib} `{!Serde ProtectedStateEnvelope}.
Context `{!Serde PersistedServiceIdentity}.

Inductive IdentityFileError : Type :=
| IdentityState (e : StateFileError) | IdentityInvalid (e : ServiceIdentityFileError).
Abbreviation identity_op := (state_op IdentityFileError).
Definition checked (r : result ServiceIdentityFileError unit) : result IdentityFileError unit :=
  map_err IdentityInvalid r.
(** [geteuid] is the user of the process. *)
Definition identity_security (kn : Kernel) (m : Metadata) : result IdentityFileError unit :=
  checked (validate_identity_file_security (md_mode m) (md_uid m) (kn_user kn)).
Definition recover_service_identity_backup (kn : Kernel) (fresh : Uuid) (path : string)
    (expected : option Uuid) (kind : ServiceIdentityKind) (purpose : bytes) : identity_op unit :=
  recover_protected_state_file_with_validation IdentityState kn fresh path
    SERVICE_IDENTITY_MAX_BYTES
    (λ m bs, identity_security kn m ;;
       decoded ← map_err (λ e, IdentityState (ProtectionFailed e)) (decode_protected_state bs purpose);
       bail_if (ds_needs_protection_upgrade decoded) (IdentityInvalid UnprotectedState) ;;
       checked (validate_persisted_identity (ds_value decoded) kind expected)).
Definition read_current_identity (kn : Kernel) (path : string) (purpose : bytes)
    : identity_op (PersistedServiceIdentity * bool) :=
  decoded ← read_protected_state_file_with_validation IdentityState kn path purpose
              SERVICE_IDENTITY_MAX_BYTES (identity_security kn);
  mret (ds_value decoded, ds_needs_protection_upgrade decoded).
(** The drawn key, the drawn service identifier and the drawn file name are
    arguments. *)
Definition create_identity_file (kn : Kernel) (random : option bytes) (id fresh : Uuid)
    (path : string) (expected : option Uuid) (kind : ServiceIdentityKind) (purpose : bytes)
    : identity_op PersistedServiceIdentity :=
  persisted ← lift (map_err IdentityInvalid (create_identity random id expected kind));
  convert IdentityState (write_protected_state_file kn fresh path persisted purpose) ;;
  mret persisted.
Record ServiceSigningIdentity : Type := mkServiceSigningIdentity {
  si_service_id : Uuid;
  si_signing_key : SigningKey;
  si_state_lock : Handle;
}.
Definition load_identity (kn : Kernel) (random : option bytes) (id recovery fresh : Uuid)
    (path : string) (expected : option Uuid) (kind : ServiceIdentityKind) (purpose : bytes)
    : identity_op (Uuid * bytes) :=
  recover_service_identity_backup kn recovery path expected kind purpose ;;
  r ← attempt (read_current_identity kn path purpose);
  loaded ←
    match (r : result IdentityFileError (PersistedServiceIdentity * bool)) with
    | Ok (persisted, outdated) =>
        lift (bail_if (outdated : bool) (IdentityInvalid UnprotectedState)) ;;
        lift (checked (validate_persisted_identity persisted kind expected)) ;;
        mret persisted
    | Err (IdentityState (IoFailed NotFound)) =>
        create_identity_file kn random id fresh path expected kind purpose
    | Err e => lift (Err e)
    end;
  convert IdentityState (cleanup_stale_state_backup kn path) ;;
  secret ← lift (map_err IdentityInvalid (parse_secret_key (psi_secret_key loaded)));
  mret (psi_service_id loaded, secret).
Definition load_or_create_service_identity (kn : Kernel) (random : option bytes)
    (id recovery fresh : Uuid) (path : string) (expected : option Uuid)
    (kind : ServiceIdentityKind) (purpose : bytes) : identity_op ServiceSigningIdentity :=
  lock ← convert IdentityState (acquire kn path);
  r ← attempt (load_identity kn random id recovery fresh path expected kind purpose);
  match (r : result IdentityFileError (Uuid * bytes)) with
  | Ok (service_id, secret) =>
      mret (mkServiceSigningIdentity service_id (sk_from_bytes secret) lock)
  | Err e => release kn lock ;; lift (Err e)
  end.
Definition load_or_create_root_identity (kn : Kernel) (random : option bytes)
    (id recovery fresh : Uuid) (path : string) (expected : option Uuid)
    : identity_op ServiceSigningIdentity :=
  load_or_create_service_identity kn random id recovery fresh path expected KindRoot
    ROOT_IDENTITY_PROTECTION_PURPOSE.
Definition load_or_create_relay_identity (kn : Kernel) (random : option bytes)
    (id recovery fresh : Uuid) (path : string) (expected : option Uuid)
    : identity_op ServiceSigningIdentity :=
  load_or_create_service_identity kn random id recovery fresh path expected KindRelay
    RELAY_IDENTITY_PROTECTION_PURPOSE.
End identity_file.
