(* ===== verification/Membership.v ===== *)
(** * Network keys and membership certificates ([meshlake-core/src/crypto.rs])

    The per-network packet key, and the controller-signed authorisation of a
    device to take part in one network. *)
From S2P Require Import Prelude Net Text Ext Model.
#[local] Open Scope Z_scope.

Inductive CryptoError : Type :=
| RandomnessUnavailable
| EncryptionFailed
| AuthenticationFailed
| InvalidNetworkKey
| InvalidOverlayPacket
| InvalidSessionPacket
| InvalidIdentityKey
| InvalidSessionSignature
| StaleSessionHandshake
| SessionIdentityMismatch
| InvalidSessionKey
| SessionReplayDetected
| AuthorizationManifestExpired
| InvalidCertificate
| CertificateExpired
| UntrustedController
| CertificateEncodingFailed
| InvalidServiceIdentity.
#[export] Instance CryptoError_eq_dec : EqDecision CryptoError.
Proof. solve_decision. Defined.

(** ** [NetworkKey] *)
Section network_key.
Context `{SessionCrypto}.

Inductive NetworkKey : Type := mkNetworkKey (key : bytes).
Record SealedPacket : Type := mkSealedPacket { sp_nonce : bytes; sp_ciphertext : bytes }.

Definition NetworkKey_to_bytes (k : NetworkKey) : bytes := let 'mkNetworkKey b := k in b.
(** [generate] and [seal] read the operating system's randomness. *)
Definition NetworkKey_generate (random : option bytes) : result CryptoError NetworkKey :=
  b ← ok_or random RandomnessUnavailable; Ok (mkNetworkKey b).
Definition NetworkKey_from_slice (b : bytes) : result CryptoError NetworkKey :=
  b ← ok_or (try_into 32 b) InvalidNetworkKey; Ok (mkNetworkKey b).
Definition NetworkKey_seal (k : NetworkKey) (random_nonce : option bytes)
    (plaintext associated_data : bytes) : result CryptoError SealedPacket :=
  nonce ← ok_or random_nonce RandomnessUnavailable;
  ciphertext ← ok_or (aead_encrypt (NetworkKey_to_bytes k) nonce associated_data plaintext)
                 EncryptionFailed;
  Ok (mkSealedPacket nonce ciphertext).
Definition NetworkKey_open (k : NetworkKey) (packet : SealedPacket) (associated_data : bytes)
    : result CryptoError bytes :=
  ok_or (aead_decrypt (NetworkKey_to_bytes k) (sp_nonce packet) associated_data
           (sp_ciphertext packet)) AuthenticationFailed.
End network_key.

(** ** [MembershipCertificate] *)
Section membership.
Context `{UuidLib} `{Ed25519}.

Record MembershipClaims : Type := mkMembershipClaims {
  mc_network_id : NetworkId;
  mc_device_id : DeviceId;
  mc_device_public_key : bytes;
  mc_assigned_addresses : list IpAddr;
  mc_allowed_routes : list string;
  mc_issued_at : Z;
  mc_expires_at : option Z;
}.

Record MembershipCertificate : Type := mkMembershipCertificate {
  cert_version : Z;
  cert_id : Uuid;
  cert_network_key_epoch : Z;
  cert_claims : MembershipClaims;
  cert_controller_public_key : bytes;
  cert_signature : bytes;
}.

Record MembershipCertificatePayload : Type := mkMembershipCertificatePayload {
  mcp_version : Z;
  mcp_certificate_id : Uuid;
  mcp_network_key_epoch : Z;
  mcp_claims : MembershipClaims;
}.

Class MembershipSerde := {
  serde_claims :: Serde MembershipClaims;
  serde_certificate_payload :: Serde MembershipCertificatePayload;
}.
Context `{MembershipSerde}.

Definition sign_authorized (claims : MembershipClaims) (certificate_id : Uuid)
    (network_key_epoch : Z) (key : SigningKey) : result CryptoError MembershipCertificate :=
  encoded ← ok_or (to_vec (mkMembershipCertificatePayload 1 certificate_id
                             network_key_epoch claims)) CertificateEncodingFailed;
  Ok (mkMembershipCertificate 1 certificate_id network_key_epoch claims
        (public_bytes key) (sign key encoded)).

(** [MembershipCertificate::sign] draws a fresh certificate identifier. *)
Definition MembershipCertificate_sign (fresh_id : Uuid) (claims : MembershipClaims)
    (key : SigningKey) : result CryptoError MembershipCertificate :=
  sign_authorized claims fresh_id 1 key.

(** The bytes a certificate's signature covers, by version. *)
Definition certificate_message (c : MembershipCertificate) : result CryptoError bytes :=
  if cert_version c =? 0 then ok_or (to_vec (cert_claims c)) CertificateEncodingFailed
  else if (cert_version c =? 1) && negb (is_nil (cert_id c)) && (0 <? cert_network_key_epoch c)
  then ok_or (to_vec (mkMembershipCertificatePayload (cert_version c) (cert_id c)
                        (cert_network_key_epoch c) (cert_claims c))) CertificateEncodingFailed
  else Err InvalidCertificate.

Definition MembershipCertificate_verify (c : MembershipCertificate) (now : Z)
    : result CryptoError unit :=
  public_key ← ok_or (try_into 32 (cert_controller_public_key c)) InvalidCertificate;
  signature ← ok_or (try_into 64 (cert_signature c)) InvalidCertificate;
  bail_if (is_some_and (mc_expires_at (cert_claims c)) (λ expiry, expiry <? now))
    CertificateExpired ;;
  key ← ok_or (vk_from_bytes public_key) InvalidCertificate;
  encoded ← certificate_message c;
  bail_if (negb (verify key encoded signature)) InvalidCertificate.

Definition cert_verify_from_controller (c : MembershipCertificate)
    (trusted_controller_public_key : bytes) (now : Z) : result CryptoError unit :=
  bail_if (bool_decide (cert_controller_public_key c ≠ trusted_controller_public_key))
    UntrustedController ;;
  MembershipCertificate_verify c now.

(** What an accepted certificate says. *)
Record certificate_valid (key : bytes) (now : Z) (c : MembershipCertificate) : Prop := {
  cv_controller : cert_controller_public_key c = key;
  cv_current : ∀ expiry, mc_expires_at (cert_claims c) = Some expiry → now ≤ expiry;
  cv_signed : ∃ message, certificate_message c = Ok message
                ∧ signature_valid key message (cert_signature c);
}.
End membership.

Section membership_proofs.
Context `{UuidLib} `{Ed25519} `{!MembershipSerde}.
Implicit Types c : MembershipCertificate.

(** The verifier accepts exactly the valid certificates of the key. *)
Lemma cert_verify_iff c key now u :
  cert_verify_from_controller c key now = Ok u ↔ certificate_valid key now c.
Proof.
  unfold cert_verify_from_controller, MembershipCertificate_verify. split.
  - intros Hv. inv_ok.
    match goal with Hn : ¬ (_ ≠ _) |- _ => apply dec_stable in Hn; subst end.
    split; [done| |eauto with signatures].
    intros expiry He. rewrite He in *. cbn in *. inv_ok. lia.
  - destruct u. intros [Hk He (m & Hm & Hs)].
    rewrite bool_decide_eq_false_2 by naive_solver. cbn. rewrite Hk.
    apply signature_valid_elim in Hs as (-> & -> & vk & Hvk & Hver). cbn.
    rewrite Hvk, Hm. cbn. rewrite Hver.
    destruct (mc_expires_at (cert_claims c)) as [e|]; [|done].
    specialize (He e eq_refl). cbn. by rewrite (proj2 (Z.ltb_ge _ _)).
Qed.

Lemma sign_authorized_Ok claims id epoch key c :
  sign_authorized claims id epoch key = Ok c →
  ∃ encoded, to_vec (mkMembershipCertificatePayload 1 id epoch claims) = Some encoded
    ∧ c = mkMembershipCertificate 1 id epoch claims (public_bytes key) (sign key encoded).
Proof. unfold sign_authorized. intros Hs. inv_ok. subst. eauto. Qed.

Lemma sign_authorized_valid `{!Ed25519Laws} claims id epoch key c now :
  sign_authorized claims id epoch key = Ok c →
  is_nil id = false → 0 < epoch →
  (∀ expiry, mc_expires_at claims = Some expiry → now ≤ expiry) →
  certificate_valid (public_bytes key) now c.
Proof.
  intros (encoded & He & ->)%sign_authorized_Ok Hid Hepoch Hexp.
  split; [done|done|]. exists encoded. split; [|apply sign_signature_valid].
  unfold certificate_message. cbn. rewrite Hid. cbn.
  rewrite (proj2 (Z.ltb_lt _ _)) by done. cbn. by rewrite He.
Qed.

(** Time only shortens the validity of a certificate. *)
Lemma certificate_valid_earlier key now now' c :
  now' ≤ now → certificate_valid key now c → certificate_valid key now' c.
Proof. intros ? [? He ?]. split; [done| |done]. intros e Hx. specialize (He e Hx). lia. Qed.
End membership_proofs.
