(* ===== verification/Authorization.v ===== *)
(** * Online authorization state ([meshlake-core/src/authorization.rs])

    Controller-signed epoch hints, authorization manifests, and the
    device-signed refresh request. *)
From S2P Require Import Prelude Net Text Ext Model Membership.
#[local] Open Scope Z_scope.

Definition AUTHORIZATION_MANIFEST_VERSION : Z := 1.
Definition AUTHORIZATION_EPOCH_HINT_VERSION : Z := 1.
Definition REFRESH_DOMAIN : bytes := bytes_of_string "MeshLake membership refresh v1" ++ [0].
Definition EPOCH_HINT_DOMAIN : bytes :=
  bytes_of_string "MeshLake authorization epoch hint v1" ++ [0].

Section authorization.
Context `{UuidLib} `{Ed25519}.

Record AuthorizationEpochHint : Type := mkAuthorizationEpochHint {
  hint_version : Z;
  hint_network_id : NetworkId;
  hint_authorization_epoch : Z;
  hint_network_key_epoch : Z;
  hint_issued_at : Z;
  hint_expires_at : Z;
  hint_controller_public_key : bytes;
  hint_signature : bytes;
}.

Record AuthorizationEpochHintPayload : Type := mkAuthorizationEpochHintPayload {
  hp_version : Z;
  hp_network_id : NetworkId;
  hp_authorization_epoch : Z;
  hp_network_key_epoch : Z;
  hp_issued_at : Z;
  hp_expires_at : Z;
  hp_controller_public_key : bytes;
}.

Record AuthorizedMembership : Type := mkAuthorizedMembership {
  am_device_id : DeviceId;
  am_certificate_id : Uuid;
  am_device_public_key : bytes;
  am_network_key_epoch : Z;
}.

Record NetworkAuthorizationManifest : Type := mkNetworkAuthorizationManifest {
  auth_version : Z;
  auth_network_id : NetworkId;
  auth_authorization_epoch : Z;
  auth_network_key_epoch : Z;
  auth_active_members : list AuthorizedMembership;
  auth_revoked_certificate_ids : list Uuid;
  auth_issued_at : Z;
  auth_expires_at : Z;
  auth_controller_public_key : bytes;
  auth_signature : bytes;
  auth_epoch_hint : option AuthorizationEpochHint;
}.

Record ManifestPayload : Type := mkManifestPayload {
  mp_version : Z;
  mp_network_id : NetworkId;
  mp_authorization_epoch : Z;
  mp_network_key_epoch : Z;
  mp_active_members : list AuthorizedMembership;
  mp_revoked_certificate_ids : list Uuid;
  mp_issued_at : Z;
  mp_expires_at : Z;
  mp_controller_public_key : bytes;
}.

Record MembershipRefreshRequestPayload : Type := mkMembershipRefreshRequestPayload {
  rp_version : Z;
  rp_network_id : NetworkId;
  rp_device_id : DeviceId;
  rp_certificate_id : Uuid;
  rp_issued_at : Z;
  rp_nonce : bytes;
}.
Record MembershipRefreshRequest : Type := mkMembershipRefreshRequest {
  rr_payload : MembershipRefreshRequestPayload;
  rr_signature : bytes;
}.

Class AuthorizationSerde := {
  serde_hint_payload :: Serde AuthorizationEpochHintPayload;
  serde_manifest_payload :: Serde ManifestPayload;
  serde_refresh_payload :: Serde MembershipRefreshRequestPayload;
}.
Context `{AuthorizationSerde}.

(** ** Epoch hints *)
Definition hint_is_expired (h : AuthorizationEpochHint) (now : Z) : bool :=
  hint_expires_at h <? now.

Definition hint_key (h : AuthorizationEpochHint) : list Z :=
  [hint_authorization_epoch h; hint_issued_at h; hint_expires_at h].
(** The tuple comparison [self > current], for hints of the same network. *)
Definition supersedes (h current : AuthorizationEpochHint) : bool :=
  bool_decide (hint_network_id h = hint_network_id current)
  && negb (lex_le (hint_key h) (hint_key current)).

Definition hint_payload (h : AuthorizationEpochHint) : AuthorizationEpochHintPayload :=
  mkAuthorizationEpochHintPayload (hint_version h) (hint_network_id h)
    (hint_authorization_epoch h) (hint_network_key_epoch h) (hint_issued_at h)
    (hint_expires_at h) (hint_controller_public_key h).
Definition hint_message (p : AuthorizationEpochHintPayload) : result CryptoError bytes :=
  encoded ← ok_or (to_vec p) CertificateEncodingFailed;
  Ok (EPOCH_HINT_DOMAIN ++ encoded).

Definition hint_sign (network_id : NetworkId) (authorization_epoch network_key_epoch
    issued_at expires_at : Z) (key : SigningKey) : result CryptoError AuthorizationEpochHint :=
  let controller := public_bytes key in
  message ← hint_message (mkAuthorizationEpochHintPayload AUTHORIZATION_EPOCH_HINT_VERSION
    network_id authorization_epoch network_key_epoch issued_at expires_at controller);
  Ok (mkAuthorizationEpochHint AUTHORIZATION_EPOCH_HINT_VERSION network_id
        authorization_epoch network_key_epoch issued_at expires_at controller
        (sign key message)).

Definition hint_verify_from_controller (h : AuthorizationEpochHint) (trusted : bytes)
    (now : Z) : result CryptoError unit :=
  bail_if (negb (hint_version h =? AUTHORIZATION_EPOCH_HINT_VERSION)
           || bool_decide (hint_controller_public_key h ≠ trusted)
           || (hint_expires_at h <? now)
           || (sat_add64 now 120 <? hint_issued_at h)) UntrustedController ;;
  public_key ← ok_or (try_into 32 (hint_controller_public_key h)) InvalidCertificate;
  signature ← ok_or (try_into 64 (hint_signature h)) InvalidCertificate;
  message ← hint_message (hint_payload h);
  key ← ok_or (vk_from_bytes public_key) InvalidCertificate;
  bail_if (negb (verify key message signature)) InvalidCertificate.

(** ** Authorization manifests *)
Definition member_key_le (a b : AuthorizedMembership) : bool :=
  if bool_decide (am_device_id a = am_device_id b)
  then uuid_le (am_certificate_id a) (am_certificate_id b)
  else uuid_le (device_uuid (am_device_id a)) (device_uuid (am_device_id b)).

Definition manifest_payload (m : NetworkAuthorizationManifest) : ManifestPayload :=
  mkManifestPayload (auth_version m) (auth_network_id m) (auth_authorization_epoch m)
    (auth_network_key_epoch m) (auth_active_members m) (auth_revoked_certificate_ids m)
    (auth_issued_at m) (auth_expires_at m) (auth_controller_public_key m).

Definition auth_sign (network_id : NetworkId) (authorization_epoch network_key_epoch : Z)
    (active_members : list AuthorizedMembership) (revoked_certificate_ids : list Uuid)
    (issued_at expires_at : Z) (key : SigningKey)
    : result CryptoError NetworkAuthorizationManifest :=
  let active_members := sort_by member_key_le active_members in
  let revoked_certificate_ids := dedup (sort_by uuid_le revoked_certificate_ids) in
  let controller := public_bytes key in
  encoded ← ok_or (to_vec (mkManifestPayload AUTHORIZATION_MANIFEST_VERSION network_id
    authorization_epoch network_key_epoch active_members revoked_certificate_ids
    issued_at expires_at controller)) CertificateEncodingFailed;
  hint ← hint_sign network_id authorization_epoch network_key_epoch issued_at expires_at key;
  Ok (mkNetworkAuthorizationManifest AUTHORIZATION_MANIFEST_VERSION network_id
        authorization_epoch network_key_epoch active_members revoked_certificate_ids
        issued_at expires_at controller (sign key encoded) (Some hint)).

Definition auth_verify_from_controller (m : NetworkAuthorizationManifest) (trusted : bytes)
    (now : Z) : result CryptoError unit :=
  bail_if (negb (auth_version m =? AUTHORIZATION_MANIFEST_VERSION)
           || bool_decide (auth_controller_public_key m ≠ trusted)) UntrustedController ;;
  bail_if ((auth_expires_at m <? now) || (sat_add64 now 120 <? auth_issued_at m))
    AuthorizationManifestExpired ;;
  public_key ← ok_or (try_into 32 (auth_controller_public_key m)) InvalidCertificate;
  signature ← ok_or (try_into 64 (auth_signature m)) InvalidCertificate;
  encoded ← ok_or (to_vec (manifest_payload m)) CertificateEncodingFailed;
  key ← ok_or (vk_from_bytes public_key) InvalidCertificate;
  bail_if (negb (verify key encoded signature)) InvalidCertificate ;;
  match auth_epoch_hint m with
  | None => Ok tt
  | Some hint =>
      hint_verify_from_controller hint trusted now ;;
      bail_if (bool_decide (hint_network_id hint ≠ auth_network_id m)
               || negb (hint_authorization_epoch hint =? auth_authorization_epoch m)
               || negb (hint_network_key_epoch hint =? auth_network_key_epoch m))
        InvalidCertificate
  end.

Definition authorizes (m : NetworkAuthorizationManifest) (c : MembershipCertificate) : bool :=
  bool_decide (mc_network_id (cert_claims c) = auth_network_id m)
  && (cert_network_key_epoch c =? auth_network_key_epoch m)
  && negb (contains (cert_id c) (auth_revoked_certificate_ids m))
  && existsb (λ member,
       bool_decide (am_device_id member = mc_device_id (cert_claims c))
       && bool_decide (am_certificate_id member = cert_id c)
       && bool_decide (am_device_public_key member = mc_device_public_key (cert_claims c))
       && (am_network_key_epoch member =? cert_network_key_epoch c))
       (auth_active_members m).

(** ** Membership refresh requests *)
Definition refresh_message (p : MembershipRefreshRequestPayload) : result CryptoError bytes :=
  encoded ← ok_or (to_vec p) InvalidSessionPacket;
  Ok (REFRESH_DOMAIN ++ encoded).

Definition refresh_sign (network_id : NetworkId) (device_id : DeviceId)
    (certificate_id : Uuid) (issued_at : Z) (nonce : bytes) (key : SigningKey)
    : result CryptoError MembershipRefreshRequest :=
  let payload := mkMembershipRefreshRequestPayload 1 network_id device_id certificate_id
                   issued_at nonce in
  encoded ← refresh_message payload;
  Ok (mkMembershipRefreshRequest payload (sign key encoded)).

Definition refresh_verify (r : MembershipRefreshRequest) (expected_device_public_key : bytes)
    (now maximum_clock_skew : Z) : result CryptoError unit :=
  bail_if (negb (rp_version (rr_payload r) =? 1)
           || (maximum_clock_skew <? abs_diff now (rp_issued_at (rr_payload r))))
    StaleSessionHandshake ;;
  public_key ← ok_or (try_into 32 expected_device_public_key) InvalidIdentityKey;
  signature ← ok_or (try_into 64 (rr_signature r)) InvalidSessionSignature;
  encoded ← refresh_message (rr_payload r);
  key ← ok_or (vk_from_bytes public_key) InvalidIdentityKey;
  bail_if (negb (verify key encoded signature)) InvalidSessionSignature.

(** *** What accepted documents say *)
Record hint_valid (key : bytes) (now : Z) (h : AuthorizationEpochHint) : Prop := {
  hv_version : hint_version h = AUTHORIZATION_EPOCH_HINT_VERSION;
  hv_controller : hint_controller_public_key h = key;
  hv_current : now ≤ hint_expires_at h ∧ hint_issued_at h ≤ sat_add64 now 120;
  hv_signed : ∃ message, hint_message (hint_payload h) = Ok message
                ∧ signature_valid key message (hint_signature h);
}.

Record manifest_valid (key : bytes) (now : Z) (m : NetworkAuthorizationManifest) : Prop := {
  mv_version : auth_version m = AUTHORIZATION_MANIFEST_VERSION;
  mv_controller : auth_controller_public_key m = key;
  mv_current : now ≤ auth_expires_at m ∧ auth_issued_at m ≤ sat_add64 now 120;
  mv_signed : ∃ encoded, to_vec (manifest_payload m) = Some encoded
                ∧ signature_valid key encoded (auth_signature m);
  mv_hint : ∀ hint, auth_epoch_hint m = Some hint →
    hint_valid key now hint
    ∧ hint_network_id hint = auth_network_id m
    ∧ hint_authorization_epoch hint = auth_authorization_epoch m
    ∧ hint_network_key_epoch hint = auth_network_key_epoch m;
}.

Record authorized (m : NetworkAuthorizationManifest) (c : MembershipCertificate) : Prop := {
  az_network : mc_network_id (cert_claims c) = auth_network_id m;
  az_epoch : cert_network_key_epoch c = auth_network_key_epoch m;
  az_not_revoked : cert_id c ∉ auth_revoked_certificate_ids m;
  az_member : mkAuthorizedMembership (mc_device_id (cert_claims c)) (cert_id c)
      (mc_device_public_key (cert_claims c)) (cert_network_key_epoch c)
    ∈ auth_active_members m;
}.
End authorization.

Section authorization_proofs.
Context `{UuidLib} `{Ed25519} `{!AuthorizationSerde}.

Lemma hint_verify_iff h key now u :
  hint_verify_from_controller h key now = Ok u ↔ hint_valid key now h.
Proof.
  unfold hint_verify_from_controller. split.
  - intros Hv. inv_ok.
    repeat match goal with Hn : ¬ (_ ≠ _) |- _ => apply dec_stable in Hn; subst end.
    split; [done|done|lia|eauto with signatures].
  - destruct u. intros [Hver Hk [He Hi] (m & Hm & Hs)].
    rewrite Hver, bool_decide_eq_false_2 by naive_solver.
    rewrite (proj2 (Z.ltb_ge _ _)), (proj2 (Z.ltb_ge _ _)) by lia. cbn. rewrite Hk.
    apply signature_valid_elim in Hs as (-> & -> & vk & Hvk & Hsig). cbn.
    rewrite Hm. cbn. rewrite Hvk. cbn. by rewrite Hsig.
Qed.

Lemma auth_verify_iff m key now u :
  auth_verify_from_controller m key now = Ok u ↔ manifest_valid key now m.
Proof.
  unfold auth_verify_from_controller. split.
  - intros Hv. inv_ok.
    repeat match goal with Hn : ¬ (_ ≠ _) |- _ => apply dec_stable in Hn; subst end.
    split; [done|done|lia|eauto with signatures|].
    intros hint Hh. rewrite Hh in Hv. inv_ok.
    repeat match goal with Hn : ¬ (_ ≠ _) |- _ => apply dec_stable in Hn end.
    match goal with Hx : hint_verify_from_controller _ _ _ = _ |- _ =>
      apply hint_verify_iff in Hx end.
    done.
  - destruct u. intros [Hver Hk [He Hi] (m' & Hm & Hs) Hh].
    rewrite Hver, bool_decide_eq_false_2 by naive_solver. cbn.
    rewrite (proj2 (Z.ltb_ge _ _)), (proj2 (Z.ltb_ge _ _)) by lia. cbn. rewrite Hk.
    apply signature_valid_elim in Hs as (-> & -> & vk & Hvk & Hsig). cbn.
    rewrite Hm. cbn. rewrite Hvk. cbn. rewrite Hsig. cbn.
    destruct (auth_epoch_hint m) as [hint|]; [|done].
    destruct (Hh hint eq_refl) as (Hv & -> & -> & ->).
    rewrite (proj2 (hint_verify_iff hint key now tt)) by done. cbn.
    rewrite bool_decide_eq_false_2 by naive_solver. by rewrite !Z.eqb_refl.
Qed.

Lemma authorizes_iff m c : authorizes m c = true ↔ authorized m c.
Proof.
  unfold authorizes. rewrite !andb_true_iff, negb_true_iff, existsb_elem.
  rewrite contains_false, bool_decide_eq_true, Z.eqb_eq. split.
  - intros [[[? ?] ?] ([] & Hin & Hm)]. cbn in Hm.
    rewrite !andb_true_iff, !bool_decide_eq_true, Z.eqb_eq in Hm.
    destruct Hm as [[[-> ->] ->] ->]. by split.
  - intros [? ? ? Hin]. split; [done|]. eexists; split; [exact Hin|]. cbn.
    by rewrite !bool_decide_eq_true_2, Z.eqb_refl.
Qed.

Lemma hint_sign_valid `{!Ed25519Laws} network epoch key_epoch issued expires key h now :
  hint_sign network epoch key_epoch issued expires key = Ok h →
  now ≤ expires → issued ≤ sat_add64 now 120 →
  hint_valid (public_bytes key) now h ∧ hint_network_id h = network
  ∧ hint_authorization_epoch h = epoch ∧ hint_network_key_epoch h = key_epoch.
Proof.
  unfold hint_sign. intros Hs He Hi. inv_ok. subst. cbn.
  split_and!; try done. split; cbn; try done.
  eexists. split; [eassumption|]. apply sign_signature_valid.
Qed.

Lemma auth_sign_fields network epoch key_epoch members revoked issued expires key m :
  auth_sign network epoch key_epoch members revoked issued expires key = Ok m →
  auth_network_id m = network ∧ auth_authorization_epoch m = epoch
  ∧ auth_network_key_epoch m = key_epoch
  ∧ auth_active_members m = sort_by member_key_le members
  ∧ auth_revoked_certificate_ids m = dedup (sort_by uuid_le revoked)
  ∧ auth_issued_at m = issued ∧ auth_expires_at m = expires
  ∧ auth_controller_public_key m = public_bytes key
  ∧ ∃ h, auth_epoch_hint m = Some h ∧ hint_network_id h = network.
Proof.
  unfold auth_sign. intros Hs. inv_ok. subst. cbn.
  match goal with Hx : hint_sign _ _ _ _ _ _ = Ok ?h |- _ => 
    unfold hint_sign in Hx; inv_ok; subst end.
  split_and!; try done. eexists; by split.
Qed.

Lemma auth_sign_valid `{!Ed25519Laws} network epoch key_epoch members revoked
    issued expires key m now :
  auth_sign network epoch key_epoch members revoked issued expires key = Ok m →
  now ≤ expires → issued ≤ sat_add64 now 120 →
  manifest_valid (public_bytes key) now m.
Proof.
  unfold auth_sign. intros Hs He Hi. inv_ok. subst.
  split; cbn; try done.
  - eexists. split; [eassumption|]. apply sign_signature_valid.
  - intros h [= <-]. by eapply hint_sign_valid.
Qed.

(** A signed manifest authorizes exactly the certificates of its members. *)
Lemma auth_sign_authorizes network epoch key_epoch members revoked issued expires key m c :
  auth_sign network epoch key_epoch members revoked issued expires key = Ok m →
  authorized m c ↔
    mc_network_id (cert_claims c) = network ∧ cert_network_key_epoch c = key_epoch
    ∧ cert_id c ∉ revoked
    ∧ mkAuthorizedMembership (mc_device_id (cert_claims c)) (cert_id c)
        (mc_device_public_key (cert_claims c)) (cert_network_key_epoch c) ∈ members.
Proof.
  intros (Hn & _ & Hk & Hm & Hr & _)%auth_sign_fields. split.
  - intros [? ? Hnr Hin]. rewrite Hm, elem_of_sort_by in Hin.
    rewrite Hr, elem_of_dedup, elem_of_sort_by in Hnr. naive_solver.
  - intros (? & ? & Hnr & Hin). split; [congruence|congruence| |].
    + by rewrite Hr, elem_of_dedup, elem_of_sort_by.
    + by rewrite Hm, elem_of_sort_by.
Qed.

(** [supersedes] is a strict order, total on one network up to the key. *)
Lemma supersedes_irrefl h : supersedes h h = false.
Proof.
  unfold supersedes. destruct (lex_le_total (hint_key h) (hint_key h)) as [E|E];
    rewrite E; apply andb_false_r.
Qed.
Lemma supersedes_trans h1 h2 h3 :
  supersedes h1 h2 = true → supersedes h2 h3 = true → supersedes h1 h3 = true.
Proof.
  unfold supersedes. rewrite !andb_true_iff, !bool_decide_eq_true, !negb_true_iff.
  intros [-> H12] [-> H23]. split; [done|]. apply not_true_iff_false. intros H13.
  destruct (lex_le_total (hint_key h2) (hint_key h1)) as [H21|H21]; [|congruence].
  pose proof (lex_le_trans _ _ _ H21 H13). congruence.
Qed.
Lemma supersedes_epoch h1 h2 :
  supersedes h1 h2 = true →
  hint_network_id h1 = hint_network_id h2
  ∧ hint_authorization_epoch h2 ≤ hint_authorization_epoch h1.
Proof.
  unfold supersedes. rewrite andb_true_iff, bool_decide_eq_true, negb_true_iff.
  intros [? Hl]. split; [done|]. cbn in Hl. apply orb_false_iff in Hl as [?%Z.ltb_ge _]. done.
Qed.

Record refresh_valid (key : bytes) (now skew : Z) (r : MembershipRefreshRequest) : Prop := {
  rv_version : rp_version (rr_payload r) = 1;
  rv_fresh : abs_diff now (rp_issued_at (rr_payload r)) ≤ skew;
  rv_signed : ∃ message, refresh_message (rr_payload r) = Ok message
                ∧ signature_valid key message (rr_signature r);
}.
Lemma refresh_verify_iff r key now skew u :
  refresh_verify r key now skew = Ok u ↔ refresh_valid key now skew r.
Proof.
  unfold refresh_verify. split.
  - intros Hv. inv_ok. split; [done|done|eauto with signatures].
  - destruct u. intros [Hver Hf (m & Hm & Hs)].
    rewrite Hver, (proj2 (Z.ltb_ge _ _)) by lia. cbn.
    apply signature_valid_elim in Hs as (-> & -> & vk & Hvk & Hsig). cbn.
    rewrite Hm. cbn. rewrite Hvk. cbn. by rewrite Hsig.
Qed.
Lemma refresh_sign_valid `{!Ed25519Laws} network device id issued nonce key r now skew :
  refresh_sign network device id issued nonce key = Ok r →
  abs_diff now issued ≤ skew → refresh_valid (public_bytes key) now skew r.
Proof.
  unfold refresh_sign. intros Hs Hi. inv_ok. subst. split; cbn; try done.
  eexists. split; [eassumption|]. apply sign_signature_valid.
Qed.
End authorization_proofs.
