(* ===== verification/Responses.v ===== *)
(** * Documents the controller returns ([meshlake-core/src/crypto.rs] and
    [meshlake-core/src/authorization.rs])

    The answers to an enrolment and to a membership refresh, and the TURN
    credential both may carry.  The controller builds them, the agent checks
    them. *)
From S2P Require Import Prelude Net Ext Model Membership Authorization.
#[local] Open Scope Z_scope.

Record TurnCredential : Type := mkTurnCredential {
  tc_version : Z;
  tc_username : string;
  tc_password : string;
  tc_expires_at : Z;
}.
#[export] Instance TurnCredential_eq_dec : EqDecision TurnCredential.
Proof. solve_decision. Defined.

Section responses.
Context `{UuidLib} `{Ed25519}.

Record EnrollmentResponse : Type := mkEnrollmentResponse {
  en_network : VirtualNetwork;
  en_certificate : MembershipCertificate;
  en_network_key : bytes;
  en_authorization : NetworkAuthorizationManifest;
  en_turn_credential : option TurnCredential;
}.
Record MembershipRefreshResponse : Type := mkMembershipRefreshResponse {
  rf_revoked : bool;
  rf_authorization : NetworkAuthorizationManifest;
  rf_certificate : option MembershipCertificate;
  rf_network_key : bytes;
  rf_turn_credential : option TurnCredential;
}.
End responses.

(** The outcome of replacing a state file.  The file is replaced atomically, but
    a failed write may still have replaced it: the error can come afterwards. *)
Inductive WriteOutcome : Type := Written | NotWritten | WrittenUnconfirmed.
