(* ===== verification/RelayProto.v ===== *)
(** * Relay envelopes ([meshlake-core/src/relay.rs] and [overlay.rs])

    The constants and the 53-byte routing header of the relay protocol, the
    signed registration acknowledgement, peer identity announcements, and the
    network-key encrypted overlay packet. *)
From S2P Require Import Prelude Net Text Ext Model ServiceIdentity Membership Authorization.
#[local] Open Scope Z_scope.

Definition RELAY_MAGIC : bytes := bytes_of_string "MLR1".
Definition RELAY_REGISTER : Z := 1.
Definition RELAY_DATA : Z := 2.
Definition RELAY_PEER : Z := 3.
Definition RELAY_PUNCH : Z := 4.
Definition RELAY_CANDIDATE : Z := 5.
Definition RELAY_REGISTER_ACK : Z := 6.
Definition RELAY_PUNCH_ACK : Z := 7.
Definition RELAY_PEER_IDENTITY : Z := 8.
Definition RELAY_REGISTER_SIGNED : Z := 9.
Definition RELAY_SESSION_INIT : Z := 10.
Definition RELAY_SESSION_RESPONSE : Z := 11.
Definition RELAY_SESSION_DATA : Z := 12.
Definition RELAY_REGISTER_ACK_SIGNED : Z := 13.
Definition RELAY_ACK_PROTOCOL_VERSION : Z := 2.
Definition RELAY_ACK_DOMAIN : bytes :=
  bytes_of_string "MeshLake relay registration acknowledgement v2" ++ [0].
Definition MAX_RELAY_ACK_LIFETIME_SECONDS : Z := 30.
Definition RELAY_DATA_HEADER_LEN : nat := 53.
Definition RELAY_MAX_ASSIGNED_ADDRESSES : Z := 16.
Definition NONCE_LENGTH : nat := 24.

(** [packet[i]] for an index the caller has checked. *)
Definition byte_at (i : nat) (packet : bytes) : Z := default 0 (packet !! i).

Inductive RelayProtocolError : Type :=
| UnsupportedVersion
| TransactionMismatch
| InvalidLifetime
| InvalidReceiverEndpoint
| EncodingFailed
| InvalidServiceIdentityError (e : ServiceIdentityError).

Section relay_proto.
Context `{UuidLib} `{Ed25519}.

(** ** Signed registration acknowledgements *)
Inductive RelayReceiverEndpoint : Type :=
| ObservedRegistrationSource (endpoint : SocketAddr).

Record RelayRegistrationAckPayload : Type := mkRelayRegistrationAckPayload {
  rap_version : Z;
  rap_network_id : NetworkId;
  rap_device_id : DeviceId;
  rap_relay_id : Uuid;
  rap_request_nonce : bytes;
  rap_receiver : RelayReceiverEndpoint;
  rap_issued_at : Z;
  rap_expires_at : Z;
  rap_authorization_hint : option AuthorizationEpochHint;
}.
Record SignedRelayRegistrationAck : Type := mkSignedRelayRegistrationAck {
  ra_payload : RelayRegistrationAckPayload;
  ra_signatures : list ServiceSignature;
}.

Class RelaySerde := {
  serde_relay_ack_payload :: Serde RelayRegistrationAckPayload;
  serde_certificate :: Serde MembershipCertificate;
}.
Context `{RelaySerde}.

Definition relay_ack_message (p : RelayRegistrationAckPayload)
    : result RelayProtocolError bytes :=
  encoded ← ok_or (to_vec p) EncodingFailed;
  Ok (RELAY_ACK_DOMAIN ++ encoded).

Definition relay_ack_sign (network_id : NetworkId) (device_id : DeviceId) (relay_id : Uuid)
    (request_nonce : bytes) (observed_registration_source : SocketAddr)
    (issued_at expires_at : Z) (authorization_hint : option AuthorizationEpochHint)
    (signing_keys : list SigningKey)
    : result RelayProtocolError SignedRelayRegistrationAck :=
  let payload := mkRelayRegistrationAckPayload RELAY_ACK_PROTOCOL_VERSION network_id
    device_id relay_id request_nonce
    (ObservedRegistrationSource observed_registration_source)
    issued_at expires_at authorization_hint in
  message ← relay_ack_message payload;
  Ok (mkSignedRelayRegistrationAck payload
        (map (λ key, mkServiceSignature (public_bytes key) (sign key message)) signing_keys)).

Definition receiver_endpoint_valid (r : RelayReceiverEndpoint) : bool :=
  match r with
  | ObservedRegistrationSource endpoint =>
      negb (socket_port endpoint =? 0)
      && negb (ip_is_unspecified (socket_ip endpoint))
      && negb (ip_is_multicast (socket_ip endpoint))
  end.

Definition relay_ack_verify (a : SignedRelayRegistrationAck) (identity : ServiceIdentityPolicy)
    (expected_network_id : NetworkId) (expected_device_id : DeviceId)
    (expected_nonce : bytes) (now maximum_future_skew : Z)
    : result RelayProtocolError unit :=
  let p := ra_payload a in
  bail_if (negb (rap_version p =? RELAY_ACK_PROTOCOL_VERSION)) UnsupportedVersion ;;
  bail_if (bool_decide (rap_network_id p ≠ expected_network_id)
           || bool_decide (rap_device_id p ≠ expected_device_id)
           || negb (bool_decide (rap_relay_id p = service_id identity))
           || bool_decide (rap_request_nonce p ≠ expected_nonce)) TransactionMismatch ;;
  bail_if ((rap_expires_at p <? rap_issued_at p)
           || (MAX_RELAY_ACK_LIFETIME_SECONDS <? sat_sub (rap_expires_at p) (rap_issued_at p))
           || (sat_add64 now maximum_future_skew <? rap_issued_at p)
           || (rap_expires_at p <? now)) InvalidLifetime ;;
  bail_if (negb (receiver_endpoint_valid (rap_receiver p))) InvalidReceiverEndpoint ;;
  message ← relay_ack_message p;
  map_err InvalidServiceIdentityError
    (verify_signatures identity message (ra_signatures a) now).

(** ** The routing header *)
Definition routing_header (kind : Z) (network_id : NetworkId) (source destination : DeviceId)
    : bytes :=
  RELAY_MAGIC ++ [kind] ++ network_bytes network_id ++ device_bytes source
    ++ device_bytes destination.
Definition relay_associated_data : NetworkId → DeviceId → DeviceId → bytes :=
  routing_header RELAY_DATA.

(** The header of a packet that starts with the relay magic and one kind. *)
Definition has_prefix (minimum : nat) (kind : Z) (packet : bytes) : bool :=
  bool_decide (minimum ≤ length packet)%nat
  && bool_decide (slice 0 4 packet = RELAY_MAGIC)
  && (byte_at 4 packet =? kind).
Definition network_at (i : nat) (packet : bytes) : option NetworkId :=
  mkNetworkId <$> uuid_from_slice (slice i (i + 16) packet).
Definition device_at (i : nat) (packet : bytes) : option DeviceId :=
  mkDeviceId <$> uuid_from_slice (slice i (i + 16) packet).

(** ** Peer identities *)
Definition peer_identity_announcement (c : MembershipCertificate) : option bytes :=
  encoded ← to_vec c;
  Some (RELAY_MAGIC ++ [RELAY_PEER_IDENTITY] ++ encoded).
Definition parse_peer_identity (packet : bytes) : option MembershipCertificate :=
  if has_prefix 6 RELAY_PEER_IDENTITY packet then from_slice (drop 5 packet) else None.

(** ** Overlay packets *)
Context `{SessionCrypto}.

Definition seal_relay_packet (key : NetworkKey) (random_nonce : option bytes)
    (network_id : NetworkId) (source destination : DeviceId) (plaintext : bytes)
    : result CryptoError bytes :=
  let header := relay_associated_data network_id source destination in
  sealed ← NetworkKey_seal key random_nonce plaintext header;
  Ok (header ++ sp_nonce sealed ++ sp_ciphertext sealed).

Definition open_relay_packet (key : NetworkKey) (packet : bytes)
    : result CryptoError (NetworkId * DeviceId * DeviceId * bytes) :=
  bail_if (negb (has_prefix (RELAY_DATA_HEADER_LEN + NONCE_LENGTH) RELAY_DATA packet))
    InvalidOverlayPacket ;;
  network_id ← ok_or (network_at 5 packet) InvalidOverlayPacket;
  source ← ok_or (device_at 21 packet) InvalidOverlayPacket;
  destination ← ok_or (device_at 37 packet) InvalidOverlayPacket;
  nonce ← ok_or (try_into NONCE_LENGTH
                   (slice RELAY_DATA_HEADER_LEN (RELAY_DATA_HEADER_LEN + NONCE_LENGTH) packet))
            InvalidOverlayPacket;
  let ciphertext := drop (RELAY_DATA_HEADER_LEN + NONCE_LENGTH) packet in
  plaintext ← NetworkKey_open key (mkSealedPacket nonce ciphertext)
                (take RELAY_DATA_HEADER_LEN packet);
  Ok (network_id, source, destination, plaintext).
End relay_proto.

(** ** Reading the header back *)
Section header_lemmas.
Context `{UuidLaws}.

Lemma routing_header_length kind n s d : length (routing_header kind n s d) = 53%nat.
Proof. unfold routing_header. by rewrite !length_app, network_bytes_length, !device_bytes_length. Qed.

Lemma network_at_here i packet l1 n l3 :
  packet = l1 ++ network_bytes n ++ l3 → length l1 = i → network_at i packet = Some n.
Proof.
  intros -> Hi. unfold network_at.
  rewrite (slice_app_here i (i + 16) l1 (network_bytes n)) by
    (rewrite ?network_bytes_length; lia).
  unfold network_bytes. rewrite uuid_from_as_bytes. by destruct n.
Qed.
Lemma device_at_here i packet l1 d l3 :
  packet = l1 ++ device_bytes d ++ l3 → length l1 = i → device_at i packet = Some d.
Proof.
  intros -> Hi. unfold device_at.
  rewrite (slice_app_here i (i + 16) l1 (device_bytes d)) by
    (rewrite ?device_bytes_length; lia).
  unfold device_bytes. rewrite uuid_from_as_bytes. by destruct d.
Qed.

Lemma has_prefix_true m kind packet :
  has_prefix m kind packet = true ↔
    (m ≤ length packet)%nat ∧ slice 0 4 packet = RELAY_MAGIC ∧ byte_at 4 packet = kind.
Proof.
  unfold has_prefix. rewrite !andb_true_iff, !bool_decide_eq_true, Z.eqb_eq. tauto.
Qed.

Lemma header_prefix m kind n s d rest :
  (m ≤ 53 + length rest)%nat → has_prefix m kind (routing_header kind n s d ++ rest) = true.
Proof.
  intros Hm. apply has_prefix_true. rewrite length_app, routing_header_length. done.
Qed.
Lemma header_fields kind n s d rest :
  network_at 5 (routing_header kind n s d ++ rest) = Some n
  ∧ device_at 21 (routing_header kind n s d ++ rest) = Some s
  ∧ device_at 37 (routing_header kind n s d ++ rest) = Some d.
Proof.
  unfold routing_header. split_and!.
  - eapply (network_at_here _ _ (RELAY_MAGIC ++ [kind])); [|done].
    by rewrite <-!app_assoc.
  - eapply (device_at_here _ _ (RELAY_MAGIC ++ [kind] ++ network_bytes n)).
    + by rewrite <-!app_assoc.
    + by rewrite !length_app, network_bytes_length, ?device_bytes_length.
  - eapply (device_at_here _ _ (RELAY_MAGIC ++ [kind] ++ network_bytes n ++ device_bytes s)).
    + by rewrite <-!app_assoc.
    + by rewrite !length_app, network_bytes_length, ?device_bytes_length.
Qed.

(** Two headers are equal exactly when they route the same frame. *)
Lemma routing_header_inj kind n s d kind' n' s' d' :
  routing_header kind n s d = routing_header kind' n' s' d' →
  kind = kind' ∧ n = n' ∧ s = s' ∧ d = d'.
Proof.
  intros E. pose proof (header_fields kind n s d []) as (H1 & H2 & H3).
  rewrite E in H1, H2, H3.
  pose proof (header_fields kind' n' s' d' []) as (H1' & H2' & H3').
  split_and!; try congruence. by injection E.
Qed.
End header_lemmas.

(** ** What an accepted acknowledgement says *)
Section ack_proofs.
Context `{UuidLib} `{Ed25519} `{!RelaySerde}.

(** The acknowledgement is for this registration, current, short-lived, names
    an endpoint a host can have, and every key the pinned identity requires
    has signed it. *)
Record relay_ack_valid (identity : ServiceIdentityPolicy) (network : NetworkId)
    (device : DeviceId) (nonce : bytes) (now skew : Z) (a : SignedRelayRegistrationAck)
    : Prop := {
  rav_version : rap_version (ra_payload a) = 2;
  rav_transaction : rap_network_id (ra_payload a) = network
    ∧ rap_device_id (ra_payload a) = device
    ∧ rap_relay_id (ra_payload a) = service_id identity
    ∧ rap_request_nonce (ra_payload a) = nonce;
  rav_lifetime : rap_issued_at (ra_payload a) ≤ rap_expires_at (ra_payload a)
    ∧ rap_expires_at (ra_payload a) ≤ rap_issued_at (ra_payload a) + 30
    ∧ rap_issued_at (ra_payload a) ≤ sat_add64 now skew
    ∧ now ≤ rap_expires_at (ra_payload a);
  rav_receiver : receiver_endpoint_valid (rap_receiver (ra_payload a)) = true;
  rav_signed : ∃ message, relay_ack_message (ra_payload a) = Ok message
    ∧ verify_signatures identity message (ra_signatures a) now = Ok tt;
}.

Lemma relay_ack_verify_iff a identity network device nonce now skew u :
  relay_ack_verify a identity network device nonce now skew = Ok u ↔
  relay_ack_valid identity network device nonce now skew a.
Proof.
  unfold relay_ack_verify, MAX_RELAY_ACK_LIFETIME_SECONDS, sat_sub. split.
  - intros Hv. inv_ok. destruct u.
    repeat match goal with Hn : ¬ (_ ≠ _) |- _ => apply dec_stable in Hn end.
    split; [done|done|lia|done|eauto].
  - destruct u. intros [Hver (Hn & Hd & Hr & Hc) (? & ? & ? & ?) Hrec (m & Hm & Hs)].
    repeat pass_guard. pass_call Hm. by rewrite Hs.
Qed.
End ack_proofs.
