(* ===== verification/Session.v ===== *)
(** * Pairwise sessions ([meshlake-core/src/session.rs])

    The authenticated ephemeral handshake, the traffic keys it derives, the
    sealing and opening of data packets, and the 64-packet replay window.
    Randomness and the clock are arguments. *)
From S2P Require Import Prelude Net Text Ext Model ServiceIdentity Membership Authorization.
From S2P Require Import RelayProto.
#[local] Open Scope Z_scope.

Definition SESSION_PROTOCOL_VERSION : Z := 1.
Definition SESSION_DATA_HEADER_LEN : nat := RELAY_DATA_HEADER_LEN + 16 + 8.
Definition INIT_SIGNATURE_DOMAIN : bytes := bytes_of_string "MeshLake session init v1" ++ [0].
Definition RESPONSE_SIGNATURE_DOMAIN : bytes :=
  bytes_of_string "MeshLake session response v1" ++ [0].
Definition KDF_DOMAIN : bytes := bytes_of_string "MeshLake pairwise traffic keys v1" ++ [0].

(** ** The replay window *)
Record ReplayWindow : Type := mkReplayWindow { highest : option Z; bitmap : Z }.
Definition ReplayWindow_default : ReplayWindow := mkReplayWindow None 0.

(** [u64 << d]: bits shifted past the top are lost. *)
Definition shl64 (x d : Z) : Z := Z.land (Z.shiftl x d) u64_max.

Definition can_accept (w : ReplayWindow) (sequence : Z) : bool :=
  match highest w with
  | None => true
  | Some highest =>
      if highest <? sequence then true
      else
        let distance := highest - sequence in
        (distance <? 64) && (Z.land (bitmap w) (shl64 1 distance) =? 0)
  end.

Definition mark (w : ReplayWindow) (sequence : Z) : ReplayWindow :=
  match highest w with
  | None => mkReplayWindow (Some sequence) 1
  | Some highest =>
      if highest <? sequence then
        let distance := sequence - highest in
        mkReplayWindow (Some sequence)
          (if 64 <=? distance then 1 else Z.lor (shl64 (bitmap w) distance) 1)
      else mkReplayWindow (Some highest) (Z.lor (bitmap w) (shl64 1 (highest - sequence)))
  end.

(** *** Refinement: the window remembers the accepted sequences near the top *)
Record represents (w : ReplayWindow) (seen : gset Z) : Prop := {
  rep_none : highest w = None → seen = ∅;
  rep_some h : highest w = Some h →
    h ∈ seen ∧ (∀ s, s ∈ seen → s ≤ h)
    ∧ 0 ≤ bitmap w ≤ u64_max
    ∧ ∀ d, 0 ≤ d < 64 → Z.testbit (bitmap w) d = bool_decide (h - d ∈ seen);
}.
(** What the window promises: a sequence it has not accepted, and that is not
    64 or more behind the highest accepted. *)
Definition acceptable (seen : gset Z) (s : Z) : Prop :=
  s ∉ seen ∧ ∀ h, h ∈ seen → h - s < 64.

Section window_lemmas.
Lemma u64_max_ones : u64_max = Z.ones 64.
Proof. done. Qed.

Lemma shl64_testbit x d i :
  0 ≤ d → 0 ≤ i →
  Z.testbit (shl64 x d) i = bool_decide (i < 64) && Z.testbit x (i - d).
Proof.
  intros. unfold shl64. rewrite u64_max_ones, Z.land_spec, Z.shiftl_spec by lia.
  rewrite Z.testbit_ones_nonneg by lia. rewrite andb_comm. f_equal.
  case_bool_decide; [by apply Z.ltb_lt|apply Z.ltb_ge; lia].
Qed.

Lemma shl64_range x d : 0 ≤ shl64 x d ≤ u64_max.
Proof.
  unfold shl64. rewrite u64_max_ones, Z.land_ones by lia.
  pose proof (Z.mod_pos_bound (Z.shiftl x d) (2 ^ 64)) as ?. rewrite Z.ones_equiv. lia.
Qed.

Lemma lor_range x y : 0 ≤ x ≤ u64_max → 0 ≤ y ≤ u64_max → 0 ≤ Z.lor x y ≤ u64_max.
Proof.
  intros Hx Hy. split; [apply Z.lor_nonneg; lia|].
  assert (Z.lor x y = Z.land (Z.lor x y) (Z.ones 64)) as ->.
  { rewrite Z.land_lor_distr_l, !Z.land_ones, !Z.mod_small; unfold u64_max in *; lia. }
  rewrite Z.land_ones by lia.
  pose proof (Z.mod_pos_bound (Z.lor x y) (2 ^ 64)) as ?. unfold u64_max. lia.
Qed.

Lemma testbit_1 i : 0 ≤ i → Z.testbit 1 i = bool_decide (i = 0).
Proof.
  intros. case_bool_decide; [by subst|]. apply (Z.bits_above_log2 1); cbn; lia.
Qed.

Lemma land_bit x d :
  0 ≤ d < 64 → (Z.land x (shl64 1 d) =? 0) = negb (Z.testbit x d).
Proof.
  intros Hd. assert (∀ i, 0 ≤ i → Z.testbit (shl64 1 d) i = bool_decide (i = d)) as Hb.
  { intros i Hi. rewrite shl64_testbit by lia. destruct (decide (d ≤ i)).
    - rewrite testbit_1 by lia. repeat case_bool_decide; try done; lia.
    - rewrite Z.testbit_neg_r by lia. rewrite andb_false_r. case_bool_decide; [lia|done]. }
  destruct (Z.testbit x d) eqn:Hx; cbn.
  - apply Z.eqb_neq. intros H0. assert (Z.testbit (Z.land x (shl64 1 d)) d = false) as Ht.
    { rewrite H0. apply Z.bits_0. }
    rewrite Z.land_spec, Hx, Hb, bool_decide_eq_true_2 in Ht by lia. done.
  - apply Z.eqb_eq, Z.bits_inj_0. intros i. destruct (decide (0 ≤ i)).
    + rewrite Z.land_spec, Hb by done. case_bool_decide; [subst; by rewrite Hx|apply andb_false_r].
    + apply Z.testbit_neg_r. lia.
Qed.

Lemma represents_default : represents ReplayWindow_default ∅.
Proof. by split. Qed.

Lemma can_accept_iff w seen s :
  represents w seen → can_accept w s = true ↔ acceptable seen s.
Proof.
  intros [Hnone Hsome]. unfold can_accept, acceptable.
  destruct (highest w) as [h|] eqn:Hw.
  2: { rewrite (Hnone eq_refl). set_solver. }
  destruct (Hsome h eq_refl) as (Hh & Hmax & Hr & Hbit).
  destruct (h <? s) eqn:Hlt.
  - apply Z.ltb_lt in Hlt. split; [|done]. intros _. split.
    + intros Hs%Hmax. lia.
    + intros h' Hh'%Hmax. lia.
  - apply Z.ltb_ge in Hlt. rewrite andb_true_iff, Z.ltb_lt. split.
    + intros [Hd Hland]. rewrite land_bit in Hland by lia.
      rewrite negb_true_iff, Hbit, bool_decide_eq_false in Hland by lia.
      replace (h - (h - s)) with s in Hland by lia. split; [done|].
      intros h' Hh'%Hmax. lia.
    + intros [Hs Hd]. specialize (Hd h Hh). split; [done|].
      rewrite land_bit by lia. rewrite Hbit by lia.
      replace (h - (h - s)) with s by lia. by rewrite bool_decide_eq_false_2.
Qed.

Lemma mark_represents w seen s :
  represents w seen → acceptable seen s → represents (mark w s) ({[s]} ∪ seen).
Proof.
  intros [Hnone Hsome] [Hs Hd]. unfold mark.
  destruct (highest w) as [h|] eqn:Hw; cycle 1.
  { rewrite (Hnone eq_refl). split; cbn; [done|]. intros ? [= <-].
    split_and!; [set_solver|set_solver by lia|lia|unfold u64_max; lia|].
    intros d Hd'. rewrite testbit_1 by lia. apply bool_decide_ext. set_solver by lia. }
  destruct (Hsome h eq_refl) as (Hh & Hmax & Hr & Hbit).
  destruct (h <? s) eqn:Hlt.
  - apply Z.ltb_lt in Hlt. split; [done|]. intros ? [= <-].
    split; [set_solver|]. split.
    { intros x [->%elem_of_singleton|Hx%Hmax]%elem_of_union; lia. }
    cbn. destruct (64 <=? s - h) eqn:Hfar.
    + apply Z.leb_le in Hfar. split; [unfold u64_max; lia|]. intros d Hd'.
      rewrite testbit_1 by lia. apply bool_decide_ext. rewrite elem_of_union, elem_of_singleton.
      split; [lia|]. intros [?|Hx%Hmax]; lia.
    + apply Z.leb_gt in Hfar. split.
      { apply lor_range; [apply shl64_range|unfold u64_max; lia]. }
      intros d Hd'. rewrite Z.lor_spec, shl64_testbit, testbit_1 by lia.
      rewrite (bool_decide_eq_true_2 (d < 64)) by lia. cbn.
      destruct (decide (s - h ≤ d)).
      * rewrite Hbit by lia. replace (h - (d - (s - h))) with (s - d) by lia.
        rewrite (bool_decide_eq_false_2 (d = 0)), orb_false_r by lia.
        apply bool_decide_ext. set_solver by lia.
      * rewrite Z.testbit_neg_r by lia. cbn. apply bool_decide_ext.
        rewrite elem_of_union, elem_of_singleton. split; [lia|].
        intros [?|Hx%Hmax]; lia.
  - apply Z.ltb_ge in Hlt. specialize (Hd h Hh).
    split; [done|]. intros ? [= <-]. split; [set_solver|]. split.
    { intros x [->%elem_of_singleton|Hx%Hmax]%elem_of_union; lia. }
    cbn. split; [apply lor_range; [done|apply shl64_range]|].
    intros d Hd'. rewrite Z.lor_spec, shl64_testbit, Hbit by lia.
    rewrite (bool_decide_eq_true_2 (d < 64)) by lia. cbn.
    destruct (decide (h - s ≤ d)).
    + rewrite testbit_1 by lia. rewrite <-bool_decide_or. apply bool_decide_ext.
      rewrite elem_of_union, elem_of_singleton. split; [|].
      * intros [?|?]; [by right|left; lia].
      * intros [?|?]; [right; lia|by left].
    + rewrite Z.testbit_neg_r, orb_false_r by lia. apply bool_decide_ext.
      rewrite elem_of_union, elem_of_singleton. split; [by right|]. intros [?|?]; [lia|done].
Qed.
End window_lemmas.

(** ** Handshake messages and traffic keys *)
Section session.
Context `{UuidLib} `{Ed25519}.

Record SessionInitPayload : Type := mkSessionInitPayload {
  si_version : Z;
  si_network_id : NetworkId;
  si_initiator : DeviceId;
  si_responder : DeviceId;
  si_session_id : bytes;
  si_initiator_ephemeral_public_key : bytes;
  si_issued_at : Z;
}.
Record SessionInit : Type := mkSessionInit {
  init_payload : SessionInitPayload;
  init_signature : bytes;
}.
Record SessionResponsePayload : Type := mkSessionResponsePayload {
  sr_version : Z;
  sr_network_id : NetworkId;
  sr_initiator : DeviceId;
  sr_responder : DeviceId;
  sr_session_id : bytes;
  sr_initiator_ephemeral_public_key : bytes;
  sr_responder_ephemeral_public_key : bytes;
  sr_issued_at : Z;
}.
Record SessionResponse : Type := mkSessionResponse {
  response_payload : SessionResponsePayload;
  response_signature : bytes;
}.

Class SessionSerde := {
  serde_init_payload :: Serde SessionInitPayload;
  serde_init :: Serde SessionInit;
  serde_response_payload :: Serde SessionResponsePayload;
  serde_response :: Serde SessionResponse;
}.
Context `{SessionSerde} `{SessionCrypto}.

Record InitiatorHandshake : Type := mkInitiatorHandshake {
  ih_init : SessionInit;
  ih_secret : StaticSecret;
}.
Record PairwiseSessionKeys : Type := mkPairwiseSessionKeys {
  psk_session_id : bytes;
  psk_send_key : bytes;
  psk_receive_key : bytes;
}.
Record SessionPacket : Type := mkSessionPacket {
  spk_network_id : NetworkId;
  spk_source : DeviceId;
  spk_destination : DeviceId;
  spk_session_id : bytes;
  spk_sequence : Z;
  spk_plaintext : bytes;
}.

(** *** Signatures and freshness *)
Definition signature_message {T} `{!Serde T} (domain : bytes) (payload : T)
    : result CryptoError bytes :=
  encoded ← ok_or (to_vec payload) InvalidSessionPacket;
  Ok (domain ++ encoded).
Definition sign_payload {T} `{!Serde T} (domain : bytes) (payload : T) (identity : SigningKey)
    : result CryptoError bytes :=
  message ← signature_message domain payload;
  Ok (sign identity message).
Definition verify_payload {T} `{!Serde T} (domain : bytes) (payload : T)
    (signature public_key : bytes) : result CryptoError unit :=
  public_key ← ok_or (try_into 32 public_key) InvalidIdentityKey;
  signature ← ok_or (try_into 64 signature) InvalidSessionSignature;
  message ← signature_message domain payload;
  key ← ok_or (vk_from_bytes public_key) InvalidIdentityKey;
  bail_if (negb (verify key message signature)) InvalidSessionSignature.

Definition verify_fresh (version issued_at now maximum_clock_skew : Z)
    : result CryptoError unit :=
  bail_if (negb (version =? SESSION_PROTOCOL_VERSION)) InvalidSessionPacket ;;
  bail_if (maximum_clock_skew <? abs_diff now issued_at) StaleSessionHandshake ;;
  Ok tt.

(** *** Routed JSON *)
Definition encode_routed_json {T} `{!Serde T} (kind : Z) (network_id : NetworkId)
    (source destination : DeviceId) (value : T) : result CryptoError bytes :=
  encoded ← ok_or (to_vec value) InvalidSessionPacket;
  Ok (routing_header kind network_id source destination ++ encoded).

Definition parse_session_routing_header (packet : bytes) (expected_kind : Z)
    : result CryptoError (NetworkId * DeviceId * DeviceId) :=
  bail_if (negb (has_prefix RELAY_DATA_HEADER_LEN expected_kind packet))
    InvalidSessionPacket ;;
  network_id ← ok_or (network_at 5 packet) InvalidSessionPacket;
  source ← ok_or (device_at 21 packet) InvalidSessionPacket;
  destination ← ok_or (device_at 37 packet) InvalidSessionPacket;
  Ok (network_id, source, destination).

Definition parse_routed_json {T} `{!Serde T} (packet : bytes) (kind : Z)
    (network_id : NetworkId) (source destination : DeviceId) : result CryptoError T :=
  header ← parse_session_routing_header packet kind;
  bail_if (bool_decide (header ≠ (network_id, source, destination)))
    SessionIdentityMismatch ;;
  ok_or (from_slice (drop RELAY_DATA_HEADER_LEN packet)) InvalidSessionPacket.

(** *** Key derivation *)
Definition derive_session_keys (network_key : NetworkKey) (response : SessionResponsePayload)
    (shared_secret : bytes) (local_is_initiator : bool)
    : result CryptoError PairwiseSessionKeys :=
  bail_if (bool_decide (shared_secret = replicate 32 0)) InvalidSessionKey ;;
  let info := KDF_DOMAIN ++ network_bytes (sr_network_id response)
    ++ device_bytes (sr_initiator response) ++ device_bytes (sr_responder response)
    ++ sr_session_id response ++ sr_initiator_ephemeral_public_key response
    ++ sr_responder_ephemeral_public_key response in
  output ← ok_or (hkdf64 (NetworkKey_to_bytes network_key) shared_secret info)
             InvalidSessionKey;
  initiator_to_responder ← ok_or (try_into 32 (take 32 output)) InvalidSessionKey;
  responder_to_initiator ← ok_or (try_into 32 (drop 32 output)) InvalidSessionKey;
  let '(send_key, receive_key) :=
    if local_is_initiator then (initiator_to_responder, responder_to_initiator)
    else (responder_to_initiator, initiator_to_responder) in
  Ok (mkPairwiseSessionKeys (sr_session_id response) send_key receive_key).

(** *** The handshake *)
Definition start (random_id random_secret : option bytes) (network_id : NetworkId)
    (initiator responder : DeviceId) (identity : SigningKey) (issued_at : Z)
    : result CryptoError (InitiatorHandshake * bytes) :=
  session_id ← ok_or random_id RandomnessUnavailable;
  secret_bytes ← ok_or random_secret RandomnessUnavailable;
  let secret := secret_from secret_bytes in
  let payload := mkSessionInitPayload SESSION_PROTOCOL_VERSION network_id initiator
    responder session_id (dh_public secret) issued_at in
  signature ← sign_payload INIT_SIGNATURE_DOMAIN payload identity;
  let init := mkSessionInit payload signature in
  packet ← encode_routed_json RELAY_SESSION_INIT network_id initiator responder init;
  Ok (mkInitiatorHandshake init secret, packet).

Definition accept_pairwise_handshake (random_secret : option bytes) (init_packet : bytes)
    (expected_initiator_public_key : bytes) (responder_identity : SigningKey)
    (network_key : NetworkKey) (now maximum_clock_skew : Z)
    : result CryptoError (PairwiseSessionKeys * bytes) :=
  '(network_id, initiator, responder) ←
    parse_session_routing_header init_packet RELAY_SESSION_INIT;
  init ← (parse_routed_json init_packet RELAY_SESSION_INIT network_id initiator responder
            : result CryptoError SessionInit);
  let p := init_payload init in
  bail_if (bool_decide (si_network_id p ≠ network_id)
           || bool_decide (si_initiator p ≠ initiator)
           || bool_decide (si_responder p ≠ responder)) SessionIdentityMismatch ;;
  verify_fresh (si_version p) (si_issued_at p) now maximum_clock_skew ;;
  verify_payload INIT_SIGNATURE_DOMAIN p (init_signature init)
    expected_initiator_public_key ;;
  secret_bytes ← ok_or random_secret RandomnessUnavailable;
  let responder_secret := secret_from secret_bytes in
  let response := mkSessionResponsePayload SESSION_PROTOCOL_VERSION network_id initiator
    responder (si_session_id p) (si_initiator_ephemeral_public_key p)
    (dh_public responder_secret) now in
  signature ← sign_payload RESPONSE_SIGNATURE_DOMAIN response responder_identity;
  let shared := diffie_hellman responder_secret (si_initiator_ephemeral_public_key p) in
  keys ← derive_session_keys network_key response shared false;
  packet ← encode_routed_json RELAY_SESSION_RESPONSE network_id responder initiator
             (mkSessionResponse response signature);
  Ok (keys, packet).

Definition complete (h : InitiatorHandshake) (response_packet : bytes)
    (expected_responder_public_key : bytes) (network_key : NetworkKey)
    (now maximum_clock_skew : Z) : result CryptoError PairwiseSessionKeys :=
  let i := init_payload (ih_init h) in
  response ← (parse_routed_json response_packet RELAY_SESSION_RESPONSE (si_network_id i)
                (si_responder i) (si_initiator i) : result CryptoError SessionResponse);
  let p := response_payload response in
  verify_fresh (sr_version p) (sr_issued_at p) now maximum_clock_skew ;;
  bail_if (bool_decide (sr_network_id p ≠ si_network_id i)
           || bool_decide (sr_initiator p ≠ si_initiator i)
           || bool_decide (sr_responder p ≠ si_responder i)
           || bool_decide (sr_session_id p ≠ si_session_id i)
           || bool_decide (sr_initiator_ephemeral_public_key p
                           ≠ si_initiator_ephemeral_public_key i))
    SessionIdentityMismatch ;;
  verify_payload RESPONSE_SIGNATURE_DOMAIN p (response_signature response)
    expected_responder_public_key ;;
  let shared := diffie_hellman (ih_secret h) (sr_responder_ephemeral_public_key p) in
  derive_session_keys network_key p shared true.

Definition session_handshake_id (packet : bytes) (expected_kind : Z)
    : result CryptoError bytes :=
  '(network_id, source, destination) ← parse_session_routing_header packet expected_kind;
  if expected_kind =? RELAY_SESSION_INIT then
    init ← (parse_routed_json packet expected_kind network_id source destination
              : result CryptoError SessionInit);
    let p := init_payload init in
    bail_if (bool_decide (si_network_id p ≠ network_id)
             || bool_decide (si_initiator p ≠ source)
             || bool_decide (si_responder p ≠ destination)) SessionIdentityMismatch ;;
    Ok (si_session_id p)
  else if expected_kind =? RELAY_SESSION_RESPONSE then
    response ← (parse_routed_json packet expected_kind network_id source destination
                  : result CryptoError SessionResponse);
    let p := response_payload response in
    bail_if (bool_decide (sr_network_id p ≠ network_id)
             || bool_decide (sr_responder p ≠ source)
             || bool_decide (sr_initiator p ≠ destination)) SessionIdentityMismatch ;;
    Ok (sr_session_id p)
  else Err InvalidSessionPacket.

(** *** Data packets *)
Definition session_data_header (network_id : NetworkId) (source destination : DeviceId)
    (session_id : bytes) (sequence : Z) : bytes :=
  routing_header RELAY_SESSION_DATA network_id source destination
    ++ session_id ++ be_bytes 8 sequence.
Definition session_nonce (session_id : bytes) (sequence : Z) : bytes :=
  session_id ++ be_bytes 8 sequence.

Definition parse_session_data_header (packet : bytes)
    : result CryptoError (NetworkId * DeviceId * DeviceId * bytes * Z) :=
  bail_if (bool_decide (length packet < SESSION_DATA_HEADER_LEN + 16)%nat)
    InvalidSessionPacket ;;
  '(network_id, source, destination) ←
    parse_session_routing_header packet RELAY_SESSION_DATA;
  session_id ← ok_or (try_into 16 (slice 53 69 packet)) InvalidSessionPacket;
  sequence ← ok_or (try_into 8 (slice 69 77 packet)) InvalidSessionPacket;
  Ok (network_id, source, destination, session_id, from_be sequence).

Definition seal (k : PairwiseSessionKeys) (network_id : NetworkId)
    (source destination : DeviceId) (sequence : Z) (plaintext : bytes)
    : result CryptoError bytes :=
  let header := session_data_header network_id source destination (psk_session_id k)
                  sequence in
  ciphertext ← ok_or (aead_encrypt (psk_send_key k)
                        (session_nonce (psk_session_id k) sequence) header plaintext)
                 EncryptionFailed;
  Ok (header ++ ciphertext).

(** [open] returns the packet and the window it leaves behind; on an error
    the window is untouched. *)
Definition session_open (k : PairwiseSessionKeys) (w : ReplayWindow) (packet : bytes)
    : result CryptoError (SessionPacket * ReplayWindow) :=
  '(network_id, source, destination, session_id, sequence) ←
    parse_session_data_header packet;
  bail_if (bool_decide (session_id ≠ psk_session_id k) || negb (can_accept w sequence))
    SessionReplayDetected ;;
  plaintext ← ok_or (aead_decrypt (psk_receive_key k) (session_nonce session_id sequence)
                       (take SESSION_DATA_HEADER_LEN packet)
                       (drop SESSION_DATA_HEADER_LEN packet)) AuthenticationFailed;
  Ok (mkSessionPacket network_id source destination session_id sequence plaintext,
      mark w sequence).

(** Opens a sequence of packets with one window, keeping what was accepted. *)
Fixpoint open_all (k : PairwiseSessionKeys) (w : ReplayWindow) (packets : list bytes)
    : list SessionPacket * ReplayWindow :=
  match packets with
  | [] => ([], w)
  | packet :: packets =>
      match session_open k w packet with
      | Ok (opened, w') =>
          let '(rest, w'') := open_all k w' packets in (opened :: rest, w'')
      | Err _ => open_all k w packets
      end
  end.
End session.
