(* ===== verification/RootProto.v ===== *)
(** * Root discovery protocol ([meshlake-core/src/root.rs])

    The device-signed registration shared by roots and relays, its
    verification with and without authorization manifests, and the signed
    response. *)
From S2P Require Import Prelude Net Text Ext Model ServiceIdentity Membership Authorization.
#[local] Open Scope Z_scope.

Definition ROOT_PROTOCOL_VERSION : Z := 1.
Definition ROOT_REGISTRATION_PROTOCOL_VERSION_LEGACY : Z := 1.
Definition ROOT_REGISTRATION_PROTOCOL_VERSION_TARGET_BOUND : Z := 2.
Definition ROOT_IDENTITY_RESPONSE_DOMAIN : bytes :=
  bytes_of_string "MeshLake root identity response v2" ++ [0].
Definition TARGET_BOUND_REGISTRATION_DOMAIN : bytes :=
  bytes_of_string "MeshLake target-bound service registration v2" ++ [0].

Inductive RootRegistrationServiceKind : Type := Root | Relay.
#[export] Instance RootRegistrationServiceKind_eq_dec :
  EqDecision RootRegistrationServiceKind.
Proof. solve_decision. Defined.

Module RootProtocolError.
Inductive t : Type :=
| UnsupportedVersion
| InvalidIdentityKey
| InvalidSignature
| StaleRegistration
| MissingMembership
| MembershipIdentityMismatch
| UntrustedMembership
| MissingAuthorization
| InvalidAuthorizationSet
| DuplicateMembership
| RevokedMembership
| TargetMismatch
| LegacyRegistrationDisabled
| EncodingFailed
| InvalidServiceIdentity (e : ServiceIdentityError).
End RootProtocolError.
#[local] Abbreviation RootProtocolError := RootProtocolError.t.

Section root_proto.
Context `{UuidLib} `{Ed25519}.

Record RootRegistrationTarget : Type := mkRootRegistrationTarget {
  target_service_kind : RootRegistrationServiceKind;
  target_service_id : Uuid;
}.
#[global] Instance RootRegistrationTarget_eq_dec : EqDecision RootRegistrationTarget.
Proof. pose proof uuid_eq_dec. solve_decision. Defined.

Record RootRegistrationPayload : Type := mkRootRegistrationPayload {
  rrp_version : Z;
  rrp_device_id : DeviceId;
  rrp_device_public_key : bytes;
  rrp_certificates : list MembershipCertificate;
  rrp_authorization_manifests : list NetworkAuthorizationManifest;
  rrp_candidates : list SocketAddr;
  rrp_issued_at : Z;
  rrp_nonce : bytes;
  rrp_target : option RootRegistrationTarget;
}.
Record RootRegistration : Type := mkRootRegistration {
  reg_payload : RootRegistrationPayload;
  reg_signature : bytes;
}.
Record RootPeer : Type := mkRootPeer {
  rpeer_network_id : NetworkId;
  rpeer_device_id : DeviceId;
  rpeer_candidates : list SocketAddr;
  rpeer_assigned_addresses : list IpAddr;
  rpeer_certificate : option MembershipCertificate;
}.
Inductive RootResponse : Type :=
| Registered (observed_endpoint : SocketAddr) (peers : list RootPeer)
    (refresh_after_seconds : Z) (authorization_hints : list AuthorizationEpochHint)
| ErrorResponse (message : string).

Record RootResponsePayload : Type := mkRootResponsePayload {
  rsp_version : Z;
  rsp_root_public_key : bytes;
  rsp_request_nonce : bytes;
  rsp_response : RootResponse;
}.
Record RootIdentityResponsePayload : Type := mkRootIdentityResponsePayload {
  rip_version : Z;
  rip_root_id : Uuid;
  rip_request_nonce : bytes;
  rip_response : RootResponse;
}.
Record SignedRootResponse : Type := mkSignedRootResponse {
  srr_version : Z;
  srr_root_public_key : bytes;
  srr_request_nonce : bytes;
  srr_response : RootResponse;
  srr_signature : bytes;
  srr_root_id : option Uuid;
  srr_identity_signatures : list ServiceSignature;
}.

Class RootSerde := {
  serde_registration_payload :: Serde RootRegistrationPayload;
  serde_root_response :: Serde RootResponsePayload;
  serde_root_identity_response :: Serde RootIdentityResponsePayload;
}.
Context `{!MembershipSerde} `{!AuthorizationSerde} `{!RootSerde}.

(** ** Signing a registration *)
Definition registration_signature_message (p : RootRegistrationPayload)
    : result RootProtocolError bytes :=
  encoded ← ok_or (to_vec p) RootProtocolError.EncodingFailed;
  if (rrp_version p =? ROOT_REGISTRATION_PROTOCOL_VERSION_LEGACY) && is_none (rrp_target p)
  then Ok encoded
  else if (rrp_version p =? ROOT_REGISTRATION_PROTOCOL_VERSION_TARGET_BOUND)
          && is_some (rrp_target p)
  then Ok (TARGET_BOUND_REGISTRATION_DOMAIN ++ encoded)
  else Err RootProtocolError.UnsupportedVersion.

Definition registration_sign_payload (p : RootRegistrationPayload) (key : SigningKey)
    : result RootProtocolError RootRegistration :=
  message ← registration_signature_message p;
  Ok (mkRootRegistration p (sign key message)).

Definition registration_sign_authorized (device_id : DeviceId)
    (certificates : list MembershipCertificate)
    (authorization_manifests : list NetworkAuthorizationManifest)
    (candidates : list SocketAddr) (issued_at : Z) (nonce : bytes) (key : SigningKey)
    : result RootProtocolError RootRegistration :=
  registration_sign_payload (mkRootRegistrationPayload
    ROOT_REGISTRATION_PROTOCOL_VERSION_LEGACY device_id (public_bytes key) certificates
    authorization_manifests candidates issued_at nonce None) key.
Definition registration_sign (device_id : DeviceId)
    (certificates : list MembershipCertificate) (candidates : list SocketAddr)
    (issued_at : Z) (nonce : bytes) (key : SigningKey)
    : result RootProtocolError RootRegistration :=
  registration_sign_authorized device_id certificates [] candidates issued_at nonce key.
Definition sign_authorized_for_service (device_id : DeviceId)
    (certificates : list MembershipCertificate)
    (authorization_manifests : list NetworkAuthorizationManifest)
    (candidates : list SocketAddr) (issued_at : Z) (nonce : bytes)
    (service_kind : RootRegistrationServiceKind) (service_id : Uuid) (key : SigningKey)
    : result RootProtocolError RootRegistration :=
  registration_sign_payload (mkRootRegistrationPayload
    ROOT_REGISTRATION_PROTOCOL_VERSION_TARGET_BOUND device_id (public_bytes key) certificates
    authorization_manifests candidates issued_at nonce
    (Some (mkRootRegistrationTarget service_kind service_id))) key.

(** ** Verifying a registration *)
Definition check_target (version : Z) (target expected : option RootRegistrationTarget)
    : result RootProtocolError unit :=
  if version =? ROOT_REGISTRATION_PROTOCOL_VERSION_LEGACY then
    match target, expected with
    | None, None => Ok tt
    | _, _ => Err RootProtocolError.TargetMismatch
    end
  else if version =? ROOT_REGISTRATION_PROTOCOL_VERSION_TARGET_BOUND then
    match target, expected with
    | Some actual, Some expected =>
        bail_if (bool_decide (actual ≠ expected)) RootProtocolError.TargetMismatch
    | _, _ => Err RootProtocolError.TargetMismatch
    end
  else Err RootProtocolError.UnsupportedVersion.

Definition check_certificate (p : RootRegistrationPayload)
    (trusted_controller_keys : list bytes) (now : Z) (c : MembershipCertificate)
    : result RootProtocolError unit :=
  bail_if (bool_decide (mc_device_id (cert_claims c) ≠ rrp_device_id p)
           || bool_decide (mc_device_public_key (cert_claims c) ≠ rrp_device_public_key p))
    RootProtocolError.MembershipIdentityMismatch ;;
  bail_if (negb (existsb (λ key, is_ok (cert_verify_from_controller c key now))
                   trusted_controller_keys))
    RootProtocolError.UntrustedMembership.

Definition verify_membership (r : RootRegistration) (trusted_controller_keys : list bytes)
    (now maximum_clock_skew : Z) (expected_target : option RootRegistrationTarget)
    : result RootProtocolError unit :=
  let p := reg_payload r in
  check_target (rrp_version p) (rrp_target p) expected_target ;;
  bail_if (maximum_clock_skew <? abs_diff now (rrp_issued_at p))
    RootProtocolError.StaleRegistration ;;
  public_key ← ok_or (try_into 32 (rrp_device_public_key p))
                 RootProtocolError.InvalidIdentityKey;
  signature ← ok_or (try_into 64 (reg_signature r)) RootProtocolError.InvalidSignature;
  message ← registration_signature_message p;
  key ← ok_or (vk_from_bytes public_key) RootProtocolError.InvalidIdentityKey;
  bail_if (negb (verify key message signature)) RootProtocolError.InvalidSignature ;;
  bail_if (is_empty (rrp_certificates p)) RootProtocolError.MissingMembership ;;
  for_each (check_certificate p trusted_controller_keys now) (rrp_certificates p).

Fixpoint collect_certificates (seen : gmap NetworkId MembershipCertificate)
    (certificates : list MembershipCertificate)
    : result RootProtocolError (gmap NetworkId MembershipCertificate) :=
  match certificates with
  | [] => Ok seen
  | c :: certificates =>
      bail_if (is_some (seen !! mc_network_id (cert_claims c)))
        RootProtocolError.DuplicateMembership ;;
      collect_certificates (<[mc_network_id (cert_claims c) := c]> seen) certificates
  end.

Fixpoint collect_manifests (certificates : gmap NetworkId MembershipCertificate)
    (trusted_controller_keys : list bytes) (now : Z)
    (seen : gmap NetworkId NetworkAuthorizationManifest)
    (manifests : list NetworkAuthorizationManifest)
    : result RootProtocolError (gmap NetworkId NetworkAuthorizationManifest) :=
  match manifests with
  | [] => Ok seen
  | m :: manifests =>
      certificate ← ok_or (certificates !! auth_network_id m)
                      RootProtocolError.InvalidAuthorizationSet;
      bail_if (is_some (seen !! auth_network_id m)
               || bool_decide (auth_controller_public_key m
                               ≠ cert_controller_public_key certificate)
               || negb (existsb (λ key, is_ok (auth_verify_from_controller m key now))
                          trusted_controller_keys))
        RootProtocolError.InvalidAuthorizationSet ;;
      bail_if (negb (authorizes m certificate)) RootProtocolError.RevokedMembership ;;
      collect_manifests certificates trusted_controller_keys now
        (<[auth_network_id m := m]> seen) manifests
  end.

Definition verify_authorization_set (r : RootRegistration)
    (trusted_controller_keys : list bytes) (now : Z) (require_every_membership : bool)
    : result RootProtocolError unit :=
  certificates ← collect_certificates ∅ (rrp_certificates (reg_payload r));
  manifests ← collect_manifests certificates trusted_controller_keys now ∅
                (rrp_authorization_manifests (reg_payload r));
  bail_if (require_every_membership && negb (size manifests =? size certificates)%nat)
    RootProtocolError.MissingAuthorization ;;
  Ok tt.

Definition registration_verify (r : RootRegistration) (trusted_controller_keys : list bytes)
    (now maximum_clock_skew : Z) : result RootProtocolError unit :=
  verify_membership r trusted_controller_keys now maximum_clock_skew None ;;
  verify_authorization_set r trusted_controller_keys now false.
Definition verify_authorized (r : RootRegistration) (trusted_controller_keys : list bytes)
    (now maximum_clock_skew : Z) : result RootProtocolError unit :=
  verify_membership r trusted_controller_keys now maximum_clock_skew None ;;
  verify_authorization_set r trusted_controller_keys now true.
Definition verify_authorized_for_service (r : RootRegistration)
    (trusted_controller_keys : list bytes) (now maximum_clock_skew : Z)
    (service_kind : RootRegistrationServiceKind) (service_id : Uuid)
    : result RootProtocolError unit :=
  verify_membership r trusted_controller_keys now maximum_clock_skew
    (Some (mkRootRegistrationTarget service_kind service_id)) ;;
  verify_authorization_set r trusted_controller_keys now true.

(** ** Responses *)
Definition root_response_sign (request_nonce : bytes) (response : RootResponse)
    (key : SigningKey) : result RootProtocolError SignedRootResponse :=
  encoded ← ok_or (to_vec (mkRootResponsePayload ROOT_PROTOCOL_VERSION (public_bytes key)
                             request_nonce response)) RootProtocolError.EncodingFailed;
  Ok (mkSignedRootResponse ROOT_PROTOCOL_VERSION (public_bytes key) request_nonce response
        (sign key encoded) None []).

Definition root_sign_with_identity (request_nonce : bytes) (response : RootResponse)
    (root_id : Uuid) (signing_keys : list SigningKey)
    : result RootProtocolError SignedRootResponse :=
  current ← ok_or (head signing_keys) RootProtocolError.InvalidIdentityKey;
  legacy ← ok_or (to_vec (mkRootResponsePayload ROOT_PROTOCOL_VERSION (public_bytes current)
                            request_nonce response)) RootProtocolError.EncodingFailed;
  encoded ← ok_or (to_vec (mkRootIdentityResponsePayload ROOT_PROTOCOL_VERSION root_id
                             request_nonce response)) RootProtocolError.EncodingFailed;
  Ok (mkSignedRootResponse ROOT_PROTOCOL_VERSION (public_bytes current) request_nonce response
        (sign current legacy) (Some root_id)
        (service_signatures signing_keys (ROOT_IDENTITY_RESPONSE_DOMAIN ++ encoded))).

Definition root_response_verify (r : SignedRootResponse) (trusted_root_public_key : bytes)
    : result RootProtocolError unit :=
  bail_if (negb (srr_version r =? ROOT_PROTOCOL_VERSION)
           || bool_decide (srr_root_public_key r ≠ trusted_root_public_key))
    RootProtocolError.InvalidIdentityKey ;;
  public_key ← ok_or (try_into 32 (srr_root_public_key r)) RootProtocolError.InvalidIdentityKey;
  signature ← ok_or (try_into 64 (srr_signature r)) RootProtocolError.InvalidSignature;
  encoded ← ok_or (to_vec (mkRootResponsePayload (srr_version r) (srr_root_public_key r)
                             (srr_request_nonce r) (srr_response r)))
              RootProtocolError.EncodingFailed;
  key ← ok_or (vk_from_bytes public_key) RootProtocolError.InvalidIdentityKey;
  bail_if (negb (verify key encoded signature)) RootProtocolError.InvalidSignature.

Definition root_verify_identity (r : SignedRootResponse) (identity : ServiceIdentityPolicy)
    (now : Z) : result RootProtocolError unit :=
  bail_if (negb (srr_version r =? ROOT_PROTOCOL_VERSION)
           || negb (bool_decide (srr_root_id r = Some (service_id identity)))
           || bool_decide (srr_root_public_key r ≠ current_public_key identity))
    RootProtocolError.InvalidIdentityKey ;;
  encoded ← ok_or (to_vec (mkRootIdentityResponsePayload (srr_version r)
                             (service_id identity) (srr_request_nonce r) (srr_response r)))
              RootProtocolError.EncodingFailed;
  map_err RootProtocolError.InvalidServiceIdentity
    (verify_signatures identity (ROOT_IDENTITY_RESPONSE_DOMAIN ++ encoded)
       (srr_identity_signatures r) now).
End root_proto.
