(* ===== verification/Planet.v ===== *)
(** * Planet manifests ([meshlake-core/src/crypto.rs])

    The controller-signed bootstrap document in its five versions: what each
    version signs, what a verifier checks, and the rules for TLS relays and
    TURN servers. *)
From S2P Require Import Prelude Net Text Ext Model ServiceIdentity Membership.
#[local] Open Scope Z_scope.

Inductive TurnTransport : Type := Udp | Tcp | Tls.
#[export] Instance TurnTransport_eq_dec : EqDecision TurnTransport.
Proof. solve_decision. Defined.
#[export] Instance TurnTransport_countable : Countable TurnTransport.
Proof.
  refine (inj_countable' (λ t, match t with Udp => 0 | Tcp => 1 | Tls => 2 end)
    (λ z, if z =? 0 then Udp else if z =? 1 then Tcp else Tls) _). by intros [].
Defined.
(** [transport as u8] *)
Definition transport_u8 (t : TurnTransport) : Z :=
  match t with Udp => 0 | Tcp => 1 | Tls => 2 end.

Definition is_public_unicast_endpoint (endpoint : SocketAddr) : bool :=
  if socket_port endpoint =? 0 then false
  else match socket_ip endpoint with
  | V4 a =>
      negb (Ipv4.is_unspecified a) && negb (Ipv4.is_loopback a) && negb (Ipv4.is_multicast a)
      && negb (Ipv4.is_broadcast a) && negb (Ipv4.is_private a) && negb (Ipv4.is_link_local a)
  | V6 a =>
      negb (Ipv6.is_unspecified a) && negb (Ipv6.is_loopback a) && negb (Ipv6.is_multicast a)
      && negb (Ipv6.is_unique_local a) && negb (Ipv6.is_unicast_link_local a)
  end.

Section planet.
Context `{UuidLib} `{Ed25519}.

Record PlanetTurnServer : Type := mkPlanetTurnServer {
  turn_endpoint : SocketAddr;
  turn_transport : TurnTransport;
  turn_server_name : option string;
  turn_certificate_sha256 : bytes;
  turn_priority : Z;
}.
Record PlanetRoot : Type := mkPlanetRoot {
  root_public_key : bytes;
  root_endpoints : list SocketAddr;
  root_priority : Z;
  root_identity : option ServiceIdentityPolicy;
}.
Record PlanetRelay : Type := mkPlanetRelay {
  relay_endpoint : SocketAddr;
  relay_priority : Z;
  relay_identity : option ServiceIdentityPolicy;
}.
Record PlanetTlsRelay : Type := mkPlanetTlsRelay {
  tls_relay_id : Uuid;
  tls_endpoint : SocketAddr;
  tls_server_name : string;
  tls_certificate_sha256 : bytes;
  tls_priority : Z;
}.
Record PlanetManifest : Type := mkPlanetManifest {
  pm_version : Z;
  pm_controller_url : string;
  pm_relay_endpoint : SocketAddr;
  pm_roots : list PlanetRoot;
  pm_relays : list PlanetRelay;
  pm_tls_relays : list PlanetTlsRelay;
  pm_turn_servers : list PlanetTurnServer;
  pm_stun_servers : list string;
  pm_issued_at : Z;
  pm_expires_at : option Z;
  pm_controller_public_key : bytes;
  pm_signature : bytes;
}.

(** The signed part of each version. *)
Record PlanetManifestPayload : Type := mkPlanetManifestPayload {
  p1_version : Z; p1_controller_url : string; p1_relay_endpoint : SocketAddr;
  p1_stun_servers : list string; p1_issued_at : Z; p1_expires_at : option Z;
  p1_controller_public_key : bytes;
}.
Record PlanetManifestV2Payload : Type := mkPlanetManifestV2Payload {
  p2_version : Z; p2_controller_url : string; p2_relay_endpoint : SocketAddr;
  p2_roots : list PlanetRoot; p2_relays : list PlanetRelay;
  p2_stun_servers : list string; p2_issued_at : Z; p2_expires_at : option Z;
  p2_controller_public_key : bytes;
}.
Record PlanetManifestV3Payload : Type := mkPlanetManifestV3Payload {
  p3_version : Z; p3_controller_url : string; p3_relay_endpoint : SocketAddr;
  p3_roots : list PlanetRoot; p3_relays : list PlanetRelay;
  p3_stun_servers : list string; p3_issued_at : Z; p3_expires_at : option Z;
  p3_controller_public_key : bytes;
}.
Record PlanetManifestV4Payload : Type := mkPlanetManifestV4Payload {
  p4_version : Z; p4_controller_url : string; p4_relay_endpoint : SocketAddr;
  p4_roots : list PlanetRoot; p4_relays : list PlanetRelay;
  p4_tls_relays : list PlanetTlsRelay; p4_stun_servers : list string;
  p4_issued_at : Z; p4_expires_at : option Z; p4_controller_public_key : bytes;
}.
Record PlanetManifestV5Payload : Type := mkPlanetManifestV5Payload {
  p5_version : Z; p5_controller_url : string; p5_relay_endpoint : SocketAddr;
  p5_roots : list PlanetRoot; p5_relays : list PlanetRelay;
  p5_tls_relays : list PlanetTlsRelay; p5_turn_servers : list PlanetTurnServer;
  p5_stun_servers : list string; p5_issued_at : Z; p5_expires_at : option Z;
  p5_controller_public_key : bytes;
}.
Record PlanetManifestSemanticPayload : Type := mkPlanetManifestSemanticPayload {
  ps_version : Z; ps_controller_url : string; ps_relay_endpoint : SocketAddr;
  ps_roots : list PlanetRoot; ps_relays : list PlanetRelay;
  ps_tls_relays : list PlanetTlsRelay; ps_turn_servers : list PlanetTurnServer;
  ps_stun_servers : list string; ps_controller_public_key : bytes;
}.
Class PlanetSerde := {
  serde_planet_v1 :: Serde PlanetManifestPayload;
  serde_planet_v2 :: Serde PlanetManifestV2Payload;
  serde_planet_v3 :: Serde PlanetManifestV3Payload;
  serde_planet_v4 :: Serde PlanetManifestV4Payload;
  serde_planet_v5 :: Serde PlanetManifestV5Payload;
  serde_planet_semantic :: Serde PlanetManifestSemanticPayload;
}.
Context `{PlanetSerde}.

Definition semantic_digest `{SessionCrypto} (m : PlanetManifest) : result CryptoError bytes :=
  encoded ← ok_or (to_vec (mkPlanetManifestSemanticPayload (pm_version m)
    (pm_controller_url m) (pm_relay_endpoint m) (pm_roots m) (pm_relays m) (pm_tls_relays m)
    (pm_turn_servers m) (pm_stun_servers m) (pm_controller_public_key m)))
    CertificateEncodingFailed;
  Ok (sha256 encoded).

(** ** Validation *)
Fixpoint validate_tls_relays_from (relay_ids : gset Uuid) (endpoints : gset SocketAddr)
    (tls_relays : list PlanetTlsRelay) (relays : list PlanetRelay)
    : result CryptoError unit :=
  match tls_relays with
  | [] => Ok tt
  | relay :: tls_relays =>
      bail_if (is_nil (tls_relay_id relay)
               || str_is_empty (tls_server_name relay)
               || (253 <? str_len (tls_server_name relay))
               || any_byte is_ascii_control (tls_server_name relay)
               || negb (len (tls_certificate_sha256 relay) =? 32)
               || bool_decide (tls_relay_id relay ∈ relay_ids)
               || bool_decide (tls_endpoint relay ∈ endpoints)
               || negb (existsb (λ udp_relay, is_some_and (relay_identity udp_relay)
                          (λ i, bool_decide (service_id i = tls_relay_id relay))) relays))
        InvalidCertificate ;;
      validate_tls_relays_from ({[tls_relay_id relay]} ∪ relay_ids)
        ({[tls_endpoint relay]} ∪ endpoints) tls_relays relays
  end.
Definition validate_tls_relays : list PlanetTlsRelay → list PlanetRelay →
    result CryptoError unit :=
  validate_tls_relays_from ∅ ∅.

Definition check_turn_tls (server : PlanetTurnServer) : result CryptoError unit :=
  match turn_transport server with
  | Udp | Tcp =>
      bail_if (is_some (turn_server_name server)
               || negb (is_empty (turn_certificate_sha256 server))) InvalidCertificate
  | Tls =>
      server_name ← ok_or (turn_server_name server) InvalidCertificate;
      bail_if (str_is_empty server_name || (253 <? str_len server_name)
               || any_byte (λ b, is_ascii_control b || is_ascii_whitespace b) server_name
               || negb (len (turn_certificate_sha256 server) =? 32)) InvalidCertificate
  end.
Definition turn_key (server : PlanetTurnServer) : SocketAddr * TurnTransport :=
  (turn_endpoint server, turn_transport server).
Fixpoint validate_turn_servers_from (endpoints : gset (SocketAddr * TurnTransport))
    (turn_servers : list PlanetTurnServer) : result CryptoError unit :=
  match turn_servers with
  | [] => Ok tt
  | server :: turn_servers =>
      bail_if (negb (is_public_unicast_endpoint (turn_endpoint server))
               || bool_decide (turn_key server ∈ endpoints)) InvalidCertificate ;;
      check_turn_tls server ;;
      validate_turn_servers_from ({[turn_key server]} ∪ endpoints) turn_servers
  end.
Definition validate_turn_servers : list PlanetTurnServer → result CryptoError unit :=
  validate_turn_servers_from ∅.

(** The identity policies of a V3 manifest, at one time. *)
Definition check_root_identity (now : Z) (root : PlanetRoot) : result CryptoError unit :=
  identity ← ok_or (root_identity root) InvalidServiceIdentity;
  map_err (λ _, InvalidServiceIdentity) (required_public_keys identity now) ;;
  bail_if (bool_decide (root_public_key root ≠ current_public_key identity))
    InvalidServiceIdentity.
Definition check_relay_identity (now : Z) (relay : PlanetRelay) : result CryptoError unit :=
  identity ← ok_or (relay_identity relay) InvalidServiceIdentity;
  map_err (λ _, InvalidServiceIdentity) (required_public_keys identity now) ;;
  Ok tt.
Definition check_identities (now : Z) (roots : list PlanetRoot) (relays : list PlanetRelay)
    : result CryptoError unit :=
  bail_if (existsb (λ root, is_none (root_identity root)) roots
           || is_empty relays
           || existsb (λ relay, is_none (relay_identity relay)) relays)
    InvalidServiceIdentity ;;
  for_each (check_root_identity now) roots ;;
  for_each (check_relay_identity now) relays.

(** ** Signing *)
Definition sort_roots : list PlanetRoot → list PlanetRoot :=
  sort_by (λ a b, root_priority a <=? root_priority b).
Definition sort_relays : list PlanetRelay → list PlanetRelay :=
  sort_by (λ a b, relay_priority a <=? relay_priority b).
Definition sort_tls_relays : list PlanetTlsRelay → list PlanetTlsRelay :=
  sort_by (λ a b, tls_priority a <=? tls_priority b).
Definition turn_order (s : PlanetTurnServer) : list Z :=
  turn_priority s :: socket_key (turn_endpoint s) ++ [transport_u8 (turn_transport s)].
Definition sort_turn_servers : list PlanetTurnServer → list PlanetTurnServer :=
  sort_by (λ a b, lex_le (turn_order a) (turn_order b)).

Definition planet_sign (controller_url : string) (relay_endpoint : SocketAddr)
    (stun_servers : list string) (issued_at : Z) (expires_at : option Z) (key : SigningKey)
    : result CryptoError PlanetManifest :=
  let controller := public_bytes key in
  encoded ← ok_or (to_vec (mkPlanetManifestPayload 1 controller_url relay_endpoint
    stun_servers issued_at expires_at controller)) CertificateEncodingFailed;
  Ok (mkPlanetManifest 1 controller_url relay_endpoint [] [] [] [] stun_servers issued_at
        expires_at controller (sign key encoded)).

Definition sign_v2 (controller_url : string) (roots : list PlanetRoot)
    (relays : list PlanetRelay) (stun_servers : list string) (issued_at : Z)
    (expires_at : option Z) (key : SigningKey) : result CryptoError PlanetManifest :=
  let roots := sort_roots roots in
  let relays := sort_relays relays in
  first ← ok_or (head relays) InvalidCertificate;
  let endpoint := relay_endpoint first in
  let controller := public_bytes key in
  encoded ← ok_or (to_vec (mkPlanetManifestV2Payload 2 controller_url endpoint roots relays
    stun_servers issued_at expires_at controller)) CertificateEncodingFailed;
  Ok (mkPlanetManifest 2 controller_url endpoint roots relays [] [] stun_servers issued_at
        expires_at controller (sign key encoded)).

(** [relays[0]] is reached only after the list was found non-empty. *)
Definition sign_v3 (controller_url : string) (roots : list PlanetRoot)
    (relays : list PlanetRelay) (stun_servers : list string) (issued_at : Z)
    (expires_at : option Z) (key : SigningKey) : result CryptoError PlanetManifest :=
  let roots := sort_roots roots in
  let relays := sort_relays relays in
  check_identities issued_at roots relays ;;
  first ← ok_or (head relays) InvalidServiceIdentity;
  let endpoint := relay_endpoint first in
  let controller := public_bytes key in
  encoded ← ok_or (to_vec (mkPlanetManifestV3Payload 3 controller_url endpoint roots relays
    stun_servers issued_at expires_at controller)) CertificateEncodingFailed;
  Ok (mkPlanetManifest 3 controller_url endpoint roots relays [] [] stun_servers issued_at
        expires_at controller (sign key encoded)).

Definition sign_v4 (controller_url : string) (roots : list PlanetRoot)
    (relays : list PlanetRelay) (tls_relays : list PlanetTlsRelay)
    (stun_servers : list string) (issued_at : Z) (expires_at : option Z) (key : SigningKey)
    : result CryptoError PlanetManifest :=
  m ← sign_v3 controller_url roots relays stun_servers issued_at expires_at key;
  let tls_relays := sort_tls_relays tls_relays in
  validate_tls_relays tls_relays (pm_relays m) ;;
  encoded ← ok_or (to_vec (mkPlanetManifestV4Payload 4 (pm_controller_url m)
    (pm_relay_endpoint m) (pm_roots m) (pm_relays m) tls_relays (pm_stun_servers m)
    (pm_issued_at m) (pm_expires_at m) (pm_controller_public_key m)))
    CertificateEncodingFailed;
  Ok (mkPlanetManifest 4 (pm_controller_url m) (pm_relay_endpoint m) (pm_roots m)
        (pm_relays m) tls_relays (pm_turn_servers m) (pm_stun_servers m) (pm_issued_at m)
        (pm_expires_at m) (pm_controller_public_key m) (sign key encoded)).

Definition sign_v5 (controller_url : string) (roots : list PlanetRoot)
    (relays : list PlanetRelay) (tls_relays : list PlanetTlsRelay)
    (turn_servers : list PlanetTurnServer) (stun_servers : list string) (issued_at : Z)
    (expires_at : option Z) (key : SigningKey) : result CryptoError PlanetManifest :=
  m ← sign_v4 controller_url roots relays tls_relays stun_servers issued_at expires_at key;
  let turn_servers := sort_turn_servers turn_servers in
  validate_turn_servers turn_servers ;;
  encoded ← ok_or (to_vec (mkPlanetManifestV5Payload 5 (pm_controller_url m)
    (pm_relay_endpoint m) (pm_roots m) (pm_relays m) (pm_tls_relays m) turn_servers
    (pm_stun_servers m) (pm_issued_at m) (pm_expires_at m) (pm_controller_public_key m)))
    CertificateEncodingFailed;
  Ok (mkPlanetManifest 5 (pm_controller_url m) (pm_relay_endpoint m) (pm_roots m)
        (pm_relays m) (pm_tls_relays m) turn_servers (pm_stun_servers m) (pm_issued_at m)
        (pm_expires_at m) (pm_controller_public_key m) (sign key encoded)).

(** ** Verification *)
Definition planet_payload (m : PlanetManifest) : option bytes :=
  if pm_version m =? 1 then
    to_vec (mkPlanetManifestPayload (pm_version m) (pm_controller_url m)
      (pm_relay_endpoint m) (pm_stun_servers m) (pm_issued_at m) (pm_expires_at m)
      (pm_controller_public_key m))
  else if pm_version m =? 2 then
    to_vec (mkPlanetManifestV2Payload (pm_version m) (pm_controller_url m)
      (pm_relay_endpoint m) (pm_roots m) (pm_relays m) (pm_stun_servers m)
      (pm_issued_at m) (pm_expires_at m) (pm_controller_public_key m))
  else if pm_version m =? 3 then
    to_vec (mkPlanetManifestV3Payload (pm_version m) (pm_controller_url m)
      (pm_relay_endpoint m) (pm_roots m) (pm_relays m) (pm_stun_servers m)
      (pm_issued_at m) (pm_expires_at m) (pm_controller_public_key m))
  else if pm_version m =? 4 then
    to_vec (mkPlanetManifestV4Payload (pm_version m) (pm_controller_url m)
      (pm_relay_endpoint m) (pm_roots m) (pm_relays m) (pm_tls_relays m)
      (pm_stun_servers m) (pm_issued_at m) (pm_expires_at m) (pm_controller_public_key m))
  else
    to_vec (mkPlanetManifestV5Payload (pm_version m) (pm_controller_url m)
      (pm_relay_endpoint m) (pm_roots m) (pm_relays m) (pm_tls_relays m)
      (pm_turn_servers m) (pm_stun_servers m) (pm_issued_at m) (pm_expires_at m)
      (pm_controller_public_key m)).

Definition check_v3_sections (m : PlanetManifest) (now : Z) : result CryptoError unit :=
  if 3 <=? pm_version m then
    check_identities now (pm_roots m) (pm_relays m) ;;
    (if 4 <=? pm_version m then validate_tls_relays (pm_tls_relays m) (pm_relays m)
     else bail_if (negb (is_empty (pm_tls_relays m))) InvalidCertificate) ;;
    (if pm_version m =? 5 then validate_turn_servers (pm_turn_servers m)
     else bail_if (negb (is_empty (pm_turn_servers m))) InvalidCertificate)
  else Ok tt.

Definition planet_verify_from_controller (m : PlanetManifest) (trusted : bytes) (now : Z)
    : result CryptoError unit :=
  bail_if (negb ((1 <=? pm_version m) && (pm_version m <=? 5))
           || bool_decide (pm_controller_public_key m ≠ trusted)) UntrustedController ;;
  bail_if (is_some_and (pm_expires_at m) (λ expiry, expiry <? now)) CertificateExpired ;;
  public_key ← ok_or (try_into 32 (pm_controller_public_key m)) InvalidCertificate;
  signature ← ok_or (try_into 64 (pm_signature m)) InvalidCertificate;
  bail_if ((pm_version m <? 3)
           && (existsb (λ root, is_some (root_identity root)) (pm_roots m)
               || existsb (λ relay, is_some (relay_identity relay)) (pm_relays m)))
    InvalidServiceIdentity ;;
  check_v3_sections m now ;;
  encoded ← ok_or (planet_payload m) CertificateEncodingFailed;
  key ← ok_or (vk_from_bytes public_key) InvalidCertificate;
  bail_if (negb (verify key encoded signature)) InvalidCertificate.
End planet.
