(* ===== verification/RelayServer.v ===== *)
(** * The relay server ([meshlake-relay/src/main.rs])

    The state of the UDP relay (registered peers, registration nonces, newest
    authorization hints), the handling of one datagram, and the TCP framing of
    the proxy.  Both clocks are read once per datagram: [now] in Unix seconds,
    [instant] in nanoseconds of the monotonic clock.  A failed encoding or send
    ends the relay process, so a handler returns the state and the datagrams of
    the run that does not fail. *)
From S2P Require Import Prelude Net Text Ext Model ServiceIdentity Membership Authorization.
From S2P Require Import RelayProto RootProto.
#[local] Open Scope Z_scope.

Definition PEER_TTL : Z := secs 90.
Definition REGISTRATION_NONCE_TTL : Z := secs 300.
Definition MAX_CANDIDATES_PER_PEER : Z := 16.
Definition MAX_TCP_FRAME_BYTES : Z := 65535.

Definition valid_candidate (candidate : SocketAddr) : bool :=
  negb (socket_port candidate =? 0)
  && negb (ip_is_unspecified (socket_ip candidate))
  && negb (ip_is_multicast (socket_ip candidate))
  && negb (ip_is_loopback (socket_ip candidate))
  && negb (bool_decide (socket_ip candidate = V4 Ipv4.BROADCAST)).

Fixpoint accept_candidates_into (observed_endpoint : SocketAddr) (candidates : list SocketAddr)
    (advertised : list SocketAddr) : list SocketAddr :=
  match advertised with
  | [] => candidates
  | candidate :: advertised =>
      if bool_decide (socket_ip candidate = socket_ip observed_endpoint)
         && valid_candidate candidate && negb (contains candidate candidates)
      then
        let candidates := candidates ++ [candidate] in
        if len candidates =? MAX_CANDIDATES_PER_PEER then candidates
        else accept_candidates_into observed_endpoint candidates advertised
      else accept_candidates_into observed_endpoint candidates advertised
  end.
Definition accepted_candidates (observed_endpoint : SocketAddr) (advertised : list SocketAddr)
    : list SocketAddr :=
  accept_candidates_into observed_endpoint [observed_endpoint] advertised.

Definition candidate_delta (previous current : list SocketAddr) : list SocketAddr :=
  List.filter (λ candidate, negb (contains candidate previous)) current.

(** ** TCP framing *)
Inductive frame_error : Type := FrameLength | FrameTruncated.
(** [read_tcp_frame] on the bytes still to come from the peer; [None] is the
    orderly end of the stream. *)
Definition read_tcp_frame (stream : bytes) : result frame_error (option (bytes * bytes)) :=
  if bool_decide (length stream < 4)%nat then Ok None
  else
    let length' := from_be (take 4 stream) in
    bail_if ((length' =? 0) || (MAX_TCP_FRAME_BYTES <? length')) FrameLength ;;
    let rest := drop 4 stream in
    bail_if (len rest <? length') FrameTruncated ;;
    Ok (Some (take (Z.to_nat length') rest, drop (Z.to_nat length') rest)).
Definition write_tcp_frame (frame : bytes) : result frame_error bytes :=
  bail_if (is_empty frame || (MAX_TCP_FRAME_BYTES <? len frame)) FrameLength ;;
  Ok (be_bytes 4 (len frame) ++ frame).

Definition local_udp_proxy_target (configured actual : SocketAddr) : SocketAddr :=
  if negb (ip_is_unspecified (socket_ip configured)) then configured
  else socket_new (if socket_is_ipv4 actual then V4 2130706433 else V6 1) (socket_port actual).

Section relay.
Context `{UuidLib} `{Ed25519} `{HashOrder}.

Definition PeerKey : Type := NetworkId * DeviceId.
Record PeerRecord : Type := mkPeerRecord {
  pr_endpoint : SocketAddr;
  pr_candidates : list SocketAddr;
  pr_assigned_addresses : list IpAddr;
  pr_certificate : MembershipCertificate;
  pr_authorization_expires_at : Z;
  pr_last_seen : Z;
}.
Record AuthenticatedRegistration : Type := mkAuthenticatedRegistration {
  ar_key : NetworkId * DeviceId;
  ar_certificate : MembershipCertificate;
  ar_nonce : bytes;
  ar_authorization_expires_at : Z;
  ar_authorization_hint : option AuthorizationEpochHint;
  ar_candidates : list SocketAddr;
}.
Record RelayIdentity : Type := mkRelayIdentity {
  rid_relay_id : Uuid;
  rid_current : SigningKey;
  rid_next : option SigningKey;
}.
Record RelayState : Type := mkRelayState {
  rs_peers : gmap (NetworkId * DeviceId) PeerRecord;
  rs_seen_nonces : gmap (NetworkId * DeviceId * bytes) Z;
  rs_authorization_hints : gmap NetworkId AuthorizationEpochHint;
}.
Definition RelayState_new : RelayState := mkRelayState ∅ ∅ ∅.
(** A datagram the relay sends: to whom, and its bytes. *)
Definition datagram : Type := SocketAddr * bytes.

Class RelayServerSerde := {
  serde_registration :: Serde RootRegistration;
  serde_signed_ack :: Serde SignedRelayRegistrationAck;
}.
Context `{!MembershipSerde} `{!AuthorizationSerde} `{!RootSerde} `{!RelaySerde}
  `{!RelayServerSerde}.

(** ** Parsing *)
Definition registration_check (r : RootRegistration) (trusted_controller_key : bytes)
    (relay_id : Uuid) (allow_legacy_registration : bool) (now : Z)
    : result RootProtocolError.t unit :=
  let version := rrp_version (reg_payload r) in
  if version =? ROOT_REGISTRATION_PROTOCOL_VERSION_LEGACY then
    if allow_legacy_registration then verify_authorized r [trusted_controller_key] now 120
    else Err RootProtocolError.LegacyRegistrationDisabled
  else if version =? ROOT_REGISTRATION_PROTOCOL_VERSION_TARGET_BOUND then
    verify_authorized_for_service r [trusted_controller_key] now 120 Relay relay_id
  else Err RootProtocolError.UnsupportedVersion.

Definition parse_signed_registration (bs : bytes) (trusted_controller_key : bytes)
    (relay_id : Uuid) (allow_legacy_registration : bool) (now : Z)
    : option AuthenticatedRegistration :=
  registration ← from_slice bs;
  ok (registration_check registration trusted_controller_key relay_id
        allow_legacy_registration now) ≫= λ _,
  let payload := reg_payload registration in
  match rrp_certificates payload with
  | [certificate] =>
      authorization ← List.find
        (λ a, bool_decide (auth_network_id a = mc_network_id (cert_claims certificate)))
        (rrp_authorization_manifests payload);
      if bool_decide (mc_device_id (cert_claims certificate) = rrp_device_id payload) then
        Some (mkAuthenticatedRegistration
          (mc_network_id (cert_claims certificate), mc_device_id (cert_claims certificate))
          certificate (rrp_nonce payload) (auth_expires_at authorization)
          (auth_epoch_hint authorization) (rrp_candidates payload))
      else None
  | _ => None
  end.

Definition parse_data_header (packet : bytes) : option (NetworkId * DeviceId * DeviceId) :=
  if bool_decide (length packet < RELAY_DATA_HEADER_LEN)%nat then None
  else
    network ← network_at 5 packet;
    source ← device_at 21 packet;
    destination ← device_at 37 packet;
    Some (network, source, destination).

(** ** Peers *)
Definition peer_announcement (peer : NetworkId * DeviceId) (address : SocketAddr) : bytes :=
  RELAY_MAGIC ++ [RELAY_PEER] ++ network_bytes peer.1 ++ device_bytes peer.2
    ++ [if socket_is_ipv4 address then 4 else 6] ++ be_bytes 2 (socket_port address)
    ++ ip_octets (socket_ip address).

Definition authorized_addresses (certificate : MembershipCertificate) : list IpAddr :=
  take (Z.to_nat RELAY_MAX_ASSIGNED_ADDRESSES)
    (dedup (sort_by ip_le
      (List.filter (λ a, negb (ip_is_unspecified a) && negb (ip_is_multicast a))
         (mc_assigned_addresses (cert_claims certificate))))).

Definition has_address_conflict (peers : gmap (NetworkId * DeviceId) PeerRecord)
    (registering : NetworkId * DeviceId) (assigned_addresses : list IpAddr) : bool :=
  existsb (λ '(key, peer),
    bool_decide (key.1 = registering.1) && bool_decide (key.2 ≠ registering.2)
    && existsb (λ address, contains address assigned_addresses) (pr_assigned_addresses peer))
    (hash_iter peers).

Definition registration_candidate_fanout (registering : NetworkId * DeviceId)
    (registering_candidates : list SocketAddr) (registering_endpoint : SocketAddr)
    (existing : list ((NetworkId * DeviceId) * PeerRecord)) : list datagram :=
  concat (map (λ '(peer_key, peer),
    if bool_decide (peer_key.1 ≠ registering.1) || bool_decide (peer_key = registering) then []
    else
      map (λ candidate, (pr_endpoint peer, peer_announcement registering candidate))
        registering_candidates
      ++ map (λ candidate, (registering_endpoint, peer_announcement peer_key candidate))
           (pr_candidates peer)) existing).

Definition relay_targets (peers : gmap (NetworkId * DeviceId) PeerRecord)
    (source : NetworkId * DeviceId) (destination : DeviceId) : list SocketAddr :=
  if is_nil (device_uuid destination) then
    omap (λ '(key, peer),
      if bool_decide (key.1 = source.1) && bool_decide (key ≠ source)
      then Some (pr_endpoint peer) else None) (hash_iter peers)
  else option_list (pr_endpoint <$> peers !! (source.1, destination)).

(** ** One signed registration *)
Definition remember_hint (hints : gmap NetworkId AuthorizationEpochHint)
    (network : NetworkId) (hint : option AuthorizationEpochHint)
    : gmap NetworkId AuthorizationEpochHint :=
  match hint with
  | Some hint =>
      if is_none_or (hints !! network) (λ current, supersedes hint current)
      then <[network := hint]> hints else hints
  | None => hints
  end.

Definition relay_signing_keys (identity : RelayIdentity) : list SigningKey :=
  match rid_next identity with
  | Some next => [rid_current identity; next]
  | None => [rid_current identity]
  end.

Definition acknowledgement_packet (identity : RelayIdentity)
    (registration : AuthenticatedRegistration) (remote : SocketAddr) (now : Z)
    (hint : option AuthorizationEpochHint) : option bytes :=
  acknowledgement ← ok (relay_ack_sign (ar_key registration).1 (ar_key registration).2
    (rid_relay_id identity) (ar_nonce registration) remote now (wrap_add64 now 15) hint
    (relay_signing_keys identity));
  encoded ← to_vec acknowledgement;
  Some (RELAY_MAGIC ++ [RELAY_REGISTER_ACK_SIGNED] ++ encoded).

Definition identity_announcements (certificate : MembershipCertificate)
    (remote : SocketAddr) (existing : list ((NetworkId * DeviceId) * PeerRecord))
    : option (list datagram) :=
  mapM (λ '(_, peer),
    mine ← peer_identity_announcement certificate;
    theirs ← peer_identity_announcement (pr_certificate peer);
    Some [(pr_endpoint peer, mine); (remote, theirs)]) existing ≫= λ ps, Some (concat ps).

Definition handle_registration (identity : RelayIdentity) (s : RelayState)
    (registration : AuthenticatedRegistration) (remote : SocketAddr) (now instant : Z)
    : option (RelayState * list datagram) :=
  let key := ar_key registration in
  let nonce_key := (key.1, key.2, ar_nonce registration) in
  let seen := retain (λ _ at_, duration_since instant at_ <=? REGISTRATION_NONCE_TTL)
                (rs_seen_nonces s) in
  let replayed := is_some (seen !! nonce_key) in
  let seen := <[nonce_key := instant]> seen in
  if replayed then
    Some (mkRelayState (rs_peers s) seen (rs_authorization_hints s), [])
  else
    let candidates := accepted_candidates remote (ar_candidates registration) in
    let previous := default [] (pr_candidates <$> rs_peers s !! key) in
    let new_candidates := candidate_delta previous candidates in
    let assigned := authorized_addresses (ar_certificate registration) in
    if has_address_conflict (rs_peers s) key assigned then
      Some (mkRelayState (rs_peers s) seen (rs_authorization_hints s), [])
    else
      let existing := List.filter
        (λ kv, bool_decide (kv.1.1 = key.1) && bool_decide (kv.1 ≠ key))
        (hash_iter (rs_peers s)) in
      let peers := <[key := mkPeerRecord remote candidates assigned
        (ar_certificate registration) (ar_authorization_expires_at registration) instant]>
        (rs_peers s) in
      let hints := remember_hint (rs_authorization_hints s) key.1
                     (ar_authorization_hint registration) in
      acknowledgement ← acknowledgement_packet identity registration remote now (hints !! key.1);
      identities ← identity_announcements (ar_certificate registration) remote existing;
      Some (mkRelayState peers seen hints,
            (remote, acknowledgement)
              :: registration_candidate_fanout key new_candidates remote existing
              ++ identities).

(** ** One datagram *)
Definition handle_packet (trusted_key : bytes) (identity : RelayIdentity)
    (allow_legacy_registration : bool) (s : RelayState) (remote : SocketAddr)
    (packet : bytes) (now instant : Z) : option (RelayState * list datagram) :=
  let kind := byte_at 4 packet in
  if kind =? RELAY_REGISTER_SIGNED then
    match parse_signed_registration (drop 5 packet) trusted_key (rid_relay_id identity)
            allow_legacy_registration now with
    | Some registration => handle_registration identity s registration remote now instant
    | None => Some (s, [])
    end
  else if (kind =? RELAY_DATA) || (kind =? RELAY_SESSION_INIT)
          || (kind =? RELAY_SESSION_RESPONSE) || (kind =? RELAY_SESSION_DATA) then
    match parse_data_header packet with
    | Some (network, source, destination) =>
        let source_key := (network, source) in
        if bool_decide (pr_endpoint <$> rs_peers s !! source_key ≠ Some remote)
        then Some (s, [])
        else Some (s, map (λ target, (target, packet))
                        (relay_targets (rs_peers s) source_key destination))
    | None => Some (s, [])
    end
  else Some (s, []).

(** The body of the receive loop: expired hints and silent or expired peers
    are dropped before the datagram is handled. *)
Definition prune (s : RelayState) (now instant : Z) : RelayState :=
  mkRelayState
    (retain (λ _ peer, (duration_since instant (pr_last_seen peer) <=? PEER_TTL)
                       && (now <=? pr_authorization_expires_at peer)) (rs_peers s))
    (rs_seen_nonces s)
    (retain (λ _ hint, negb (hint_is_expired hint now)) (rs_authorization_hints s)).
Definition receive (trusted_key : bytes) (identity : RelayIdentity)
    (allow_legacy_registration : bool) (s : RelayState) (remote : SocketAddr)
    (packet : bytes) (now instant : Z) : option (RelayState * list datagram) :=
  if bool_decide (length packet < 5)%nat || bool_decide (slice 0 4 packet ≠ RELAY_MAGIC)
  then Some (s, [])
  else handle_packet trusted_key identity allow_legacy_registration (prune s now instant)
         remote packet now instant.

(** ** The relay as a state machine: the datagrams received so far *)
Record datagram_event : Type := mkDatagramEvent {
  ev_remote : SocketAddr;
  ev_packet : bytes;
  ev_now : Z;
  ev_instant : Z;
}.
Inductive relay_step (trusted_key : bytes) (identity : RelayIdentity) (allow_legacy : bool)
    : RelayState → datagram_event → RelayState → list datagram → Prop :=
| relay_step_receive s e s' out :
    receive trusted_key identity allow_legacy s (ev_remote e) (ev_packet e) (ev_now e)
      (ev_instant e) = Some (s', out) →
    relay_step trusted_key identity allow_legacy s e s' out.
Inductive relay_reachable (trusted_key : bytes) (identity : RelayIdentity)
    (allow_legacy : bool) : RelayState → Prop :=
| reachable_new : relay_reachable trusted_key identity allow_legacy RelayState_new
| reachable_step s e s' out :
    relay_reachable trusted_key identity allow_legacy s →
    relay_step trusted_key identity allow_legacy s e s' out →
    relay_reachable trusted_key identity allow_legacy s'.
End relay.
