(* ===== verification/RootServer.v ===== *)
(** * The root discovery server ([meshlake-root/src/main.rs])

    The processing of one registration: authentication, nonces, the peer
    directory and the response.  Both clocks are read once per datagram. *)
From S2P Require Import Prelude Net Text Ext Model ServiceIdentity Membership Authorization.
From S2P Require Import RootProto.
#[local] Open Scope Z_scope.

Module RootServer.
Definition MAX_DATAGRAM_SIZE : Z := 65507.
Definition MAX_CERTIFICATES_PER_REGISTRATION : Z := 64.
Definition MAX_ADDRESSES_PER_PEER : Z := 16.
Definition MAX_CANDIDATES_PER_PEER : Z := 16.
Definition MAX_PEERS_PER_RESPONSE : Z := 64.
Definition REGISTRATION_NONCE_TTL : Z := secs 300.

Inductive RegistrationError : Type :=
| TooManyMemberships
| AuthenticationFailed (e : RootProtocolError.t)
| NonceAlreadyUsed
| TooManyAddresses
| InvalidAddress
| MissingManifest
| DuplicateNetwork
| AddressConflict.

Section root_server.
Context `{UuidLib} `{Ed25519} `{HashOrder}.

Record PeerRecord : Type := mkPeerRecord {
  candidates : list SocketAddr;
  assigned_addresses : list IpAddr;
  certificate : MembershipCertificate;
  authorization_expires_at : Z;
  last_seen : Z;
}.
Record RootState : Type := mkRootState {
  peers : gmap (NetworkId * DeviceId) PeerRecord;
  seen_nonces : gmap bytes Z;
  authorization_hints : gmap NetworkId AuthorizationEpochHint;
}.
Definition RootState_new : RootState := mkRootState ∅ ∅ ∅.

Context `{!MembershipSerde} `{!AuthorizationSerde} `{!RootSerde}.

(** The configured bounds of the service. *)
Definition effective_peer_ttl (peer_ttl_seconds : Z) : Z := secs (clamp 30 600 peer_ttl_seconds).
Definition effective_clock_skew (seconds : Z) : Z := clamp 30 600 seconds.

Definition authenticate (r : RootRegistration) (root_id : Uuid) (allow_legacy : bool)
    (trusted : list bytes) (skew now : Z) : result RootProtocolError.t unit :=
  let version := rrp_version (reg_payload r) in
  if version =? ROOT_REGISTRATION_PROTOCOL_VERSION_LEGACY then
    if allow_legacy then verify_authorized r trusted now skew
    else Err RootProtocolError.LegacyRegistrationDisabled
  else if version =? ROOT_REGISTRATION_PROTOCOL_VERSION_TARGET_BOUND then
    verify_authorized_for_service r trusted now skew Root root_id
  else Err RootProtocolError.UnsupportedVersion.

Definition registration_candidates (observed_endpoint : SocketAddr)
    (advertised : list SocketAddr) : list SocketAddr :=
  take (Z.to_nat MAX_CANDIDATES_PER_PEER)
    (dedup (sort_by socket_le
      (observed_endpoint :: List.filter
         (λ c, negb (socket_port c =? 0) && negb (ip_is_unspecified (socket_ip c)))
         advertised))).

Definition remember_hints (hints : gmap NetworkId AuthorizationEpochHint)
    (manifests : list NetworkAuthorizationManifest) : gmap NetworkId AuthorizationEpochHint :=
  foldl (λ hints authorization,
    match auth_epoch_hint authorization with
    | Some hint =>
        if is_none_or (hints !! hint_network_id hint) (λ current, supersedes hint current)
        then <[hint_network_id hint := hint]> hints else hints
    | None => hints
    end) hints manifests.

Definition usable_address (a : IpAddr) : bool :=
  negb (ip_is_unspecified a) && negb (ip_is_multicast a).
Definition membership : Type := list IpAddr * MembershipCertificate * Z.
Fixpoint collect_memberships (manifests : list NetworkAuthorizationManifest)
    (memberships : gmap NetworkId (list IpAddr * MembershipCertificate * Z))
    (certificates : list MembershipCertificate)
    : result RegistrationError (gmap NetworkId (list IpAddr * MembershipCertificate * Z)) :=
  match certificates with
  | [] => Ok memberships
  | c :: certificates =>
      let assigned := mc_assigned_addresses (cert_claims c) in
      let network := mc_network_id (cert_claims c) in
      bail_if (MAX_ADDRESSES_PER_PEER <? len assigned) TooManyAddresses ;;
      bail_if (existsb (λ a, negb (usable_address a)) assigned) InvalidAddress ;;
      let addresses := dedup (sort_by ip_le (List.filter usable_address assigned)) in
      authorization ← ok_or (List.find (λ a, bool_decide (auth_network_id a = network)) manifests)
                        MissingManifest;
      bail_if (is_some (memberships !! network)) DuplicateNetwork ;;
      collect_memberships manifests
        (<[network := (addresses, c, auth_expires_at authorization)]> memberships) certificates
  end.

Definition conflicts (s_peers : gmap (NetworkId * DeviceId) PeerRecord) (device : DeviceId)
    (network : NetworkId) (addresses : list IpAddr) : bool :=
  existsb (λ '((peer_network, peer_device), peer),
    bool_decide (peer_network = network) && bool_decide (peer_device ≠ device)
    && existsb (λ a, contains a addresses) (assigned_addresses peer)) (hash_iter s_peers).

Definition peer_le (a b : RootPeer) : bool :=
  if bool_decide (rpeer_network_id a = rpeer_network_id b)
  then uuid_le (device_uuid (rpeer_device_id a)) (device_uuid (rpeer_device_id b))
  else uuid_le (network_uuid (rpeer_network_id a)) (network_uuid (rpeer_network_id b)).
Definition discovered_peers (s_peers : gmap (NetworkId * DeviceId) PeerRecord)
    (device : DeviceId) (memberships : gmap NetworkId (list IpAddr * MembershipCertificate * Z))
    : list RootPeer :=
  sort_by peer_le (take (Z.to_nat MAX_PEERS_PER_RESPONSE)
    (omap (λ '((network_id, device_id), peer),
       if is_some (memberships !! network_id) && bool_decide (device_id ≠ device)
       then Some (mkRootPeer network_id device_id (candidates peer)
                    (mc_assigned_addresses (cert_claims (certificate peer)))
                    (Some (certificate peer)))
       else None) (hash_iter s_peers))).

Definition prune (s : RootState) (peer_ttl now instant : Z) : RootState :=
  mkRootState
    (retain (λ _ peer, (duration_since instant (last_seen peer) <=? peer_ttl)
                       && (now <=? authorization_expires_at peer)) (peers s))
    (seen_nonces s)
    (retain (λ _ hint, negb (hint_is_expired hint now)) (authorization_hints s)).

(** The part after the nonce check: the directory [s] is already pruned, and
    on an error only the hints change. *)
Definition register (s : RootState) (p : RootRegistrationPayload)
    (observed_endpoint : SocketAddr) (peer_ttl instant : Z)
    : RootState * result RegistrationError RootResponse :=
  let new_candidates := registration_candidates observed_endpoint (rrp_candidates p) in
  let hints := remember_hints (authorization_hints s) (rrp_authorization_manifests p) in
  let s := mkRootState (peers s) (seen_nonces s) hints in
  match collect_memberships (rrp_authorization_manifests p) ∅ (rrp_certificates p) with
  | Err e => (s, Err e)
  | Ok memberships =>
      if existsb (λ '(network, (addresses, _, _)),
           conflicts (peers s) (rrp_device_id p) network addresses) (hash_iter memberships)
      then (s, Err AddressConflict)
      else
        let discovered := discovered_peers (peers s) (rrp_device_id p) memberships in
        let response_hints := omap (λ network, hints !! network) (hash_keys memberships) in
        let inserted := foldl (λ m '(network, (addresses, c, expires)),
          <[(network, rrp_device_id p) := mkPeerRecord new_candidates addresses c expires instant]> m)
          (peers s) (hash_iter memberships) in
        (mkRootState inserted (seen_nonces s) hints,
         Ok (Registered observed_endpoint discovered (clamp 10 60 (as_secs peer_ttl / 3))
               response_hints))
  end.

Definition process_registration (s : RootState) (registration : RootRegistration)
    (observed_endpoint : SocketAddr) (root_id : Uuid) (allow_legacy : bool)
    (trusted : list bytes) (skew peer_ttl now instant : Z)
    : RootState * result RegistrationError RootResponse :=
  let p := reg_payload registration in
  if MAX_CERTIFICATES_PER_REGISTRATION <? len (rrp_certificates p)
  then (s, Err TooManyMemberships)
  else match authenticate registration root_id allow_legacy trusted skew now with
  | Err e => (s, Err (AuthenticationFailed e))
  | Ok _ =>
      let seen := retain (λ _ at_, duration_since instant at_ <=? REGISTRATION_NONCE_TTL)
                    (seen_nonces s) in
      let used := is_some (seen !! rrp_nonce p) in
      let s := mkRootState (peers s) (<[rrp_nonce p := instant]> seen) (authorization_hints s) in
      if used then (s, Err NonceAlreadyUsed)
      else register (prune s peer_ttl now instant) p observed_endpoint peer_ttl instant
  end.
End root_server.
End RootServer.
