(* ===== verification/Policy.v ===== *)
(** * Signed routes, exit candidates and split DNS ([meshlake-core/src/policy.rs]) *)
From S2P Require Import Prelude Net Text Ext Model Membership Authorization.
From Stdlib Require Import Ascii.
#[local] Open Scope Z_scope.

Definition NETWORK_POLICY_MANIFEST_VERSION : Z := 2.
Definition NETWORK_POLICY_MANIFEST_VERSION_V1 : Z := 1.
Definition MAX_ROUTES : Z := 256.
Definition MAX_EXIT_NODES : Z := 16.
Definition MAX_DNS_SERVERS : Z := 8.
Definition MAX_SEARCH_DOMAINS : Z := 16.

Inductive PolicyError : Type :=
| PE_UntrustedController
| PE_InvalidSignature
| PE_Expired
| PE_CrossNetwork
| PE_Rollback
| PE_InvalidRoute
| PE_DefaultRoute
| PE_UnsupportedVersion
| PE_AmbiguousRoute
| PE_UnauthorizedGateway
| PE_InvalidExitNode
| PE_InvalidDns
| PE_EncodingFailed.
#[export] Instance PolicyError_eq_dec : EqDecision PolicyError.
Proof. solve_decision. Defined.

Record DnsPolicy : Type := mkDnsPolicy {
  dns_servers : list IpAddr;
  dns_search_domains : list string;
}.
Definition DnsPolicy_default : DnsPolicy := mkDnsPolicy [] [].

(** [normalize_domain]. *)
Definition valid_label (label : string) : bool :=
  negb (str_is_empty label || (63 <? str_len label) || starts_with "-" label
        || ends_with "-" label
        || negb (all_bytes (λ b, is_ascii_alphanumeric b || (b =? 45)) label)).
Definition normalize_domain (raw : string) : result PolicyError string :=
  let domain := to_ascii_lowercase (trim_end_matches "." (trim raw)) in
  bail_if (str_is_empty domain || (253 <? str_len domain)
           || existsb (λ label, negb (valid_label label)) (split_on "." domain)) PE_InvalidDns ;;
  Ok domain.

Section policy.
Context `{UuidLib} `{Ed25519} `{IpNetLib} `{!MembershipSerde} `{!AuthorizationSerde}.

Record PolicyRoute : Type := mkPolicyRoute {
  pr_prefix : string;
  pr_gateway_certificate : MembershipCertificate;
}.
Record ExitNode : Type := mkExitNode {
  en_gateway_certificate : MembershipCertificate;
  en_supports_ipv4 : bool;
  en_supports_ipv6 : bool;
}.

Record NetworkPolicyManifest : Type := mkNetworkPolicyManifest {
  pol_version : Z;
  pol_network_id : NetworkId;
  pol_policy_epoch : Z;
  pol_routes : list PolicyRoute;
  pol_exit_nodes : list ExitNode;
  pol_dns : DnsPolicy;
  pol_issued_at : Z;
  pol_expires_at : Z;
  pol_controller_public_key : bytes;
  pol_signature : bytes;
}.

Record PolicyPayloadV1 : Type := mkPolicyPayloadV1 {
  p1_version : Z;
  p1_network_id : NetworkId;
  p1_policy_epoch : Z;
  p1_routes : list PolicyRoute;
  p1_dns : DnsPolicy;
  p1_issued_at : Z;
  p1_expires_at : Z;
  p1_controller_public_key : bytes;
}.
Record PolicyPayloadV2 : Type := mkPolicyPayloadV2 {
  p2_version : Z;
  p2_network_id : NetworkId;
  p2_policy_epoch : Z;
  p2_routes : list PolicyRoute;
  p2_exit_nodes : list ExitNode;
  p2_dns : DnsPolicy;
  p2_issued_at : Z;
  p2_expires_at : Z;
  p2_controller_public_key : bytes;
}.
Class PolicySerde := {
  serde_policy_v1 :: Serde PolicyPayloadV1;
  serde_policy_v2 :: Serde PolicyPayloadV2;
}.
Context `{PolicySerde}.

Definition parse_route (raw : string) : result PolicyError IpNet :=
  prefix ← ok_or (parse_ipnet raw) PE_InvalidRoute;
  bail_if (net_prefix_len prefix =? 0) PE_DefaultRoute ;;
  Ok prefix.

Definition prefix_covers (allowed target : string) : bool :=
  match parse_ipnet allowed, parse_ipnet target with
  | Some (Net4 allowed), Some (Net4 target) =>
      (v4_prefix_len allowed <=? v4_prefix_len target)
      && v4_contains allowed (v4_network target)
  | Some (Net6 allowed), Some (Net6 target) =>
      (v6_prefix_len allowed <=? v6_prefix_len target)
      && v6_contains allowed (v6_network target)
  | _, _ => false
  end.

(** The loop of [validate_normalized_policy] over the routes; [prefixes] is
    the set of prefixes already inserted. *)
Fixpoint validate_routes (prefixes : gset string) (routes : list PolicyRoute)
    : result PolicyError unit :=
  match routes with
  | [] => Ok tt
  | route :: routes =>
      prefix ← parse_route (pr_prefix route);
      bail_if (bool_decide (net_to_string prefix ≠ pr_prefix route)) PE_InvalidRoute ;;
      bail_if (bool_decide (pr_prefix route ∈ prefixes)) PE_AmbiguousRoute ;;
      validate_routes ({[pr_prefix route]} ∪ prefixes) routes
  end.

Definition invalid_dns_server (server : IpAddr) : bool :=
  match server with
  | V4 a => Ipv4.is_unspecified a || Ipv4.is_multicast a || Ipv4.is_broadcast a
  | V6 a => Ipv6.is_unspecified a || Ipv6.is_multicast a
  end.

(** The loop over the search domains. *)
Fixpoint validate_domains (seen : gset string) (domains : list string)
    : result PolicyError unit :=
  match domains with
  | [] => Ok tt
  | domain :: domains =>
      bail_if (bool_decide (normalize_domain domain ≠ Ok domain)
               || bool_decide (domain ∈ seen)) PE_InvalidDns ;;
      validate_domains ({[domain]} ∪ seen) domains
  end.

Definition validate_normalized_policy (routes : list PolicyRoute) (dns : DnsPolicy)
    : result PolicyError unit :=
  bail_if (MAX_ROUTES <? len routes) PE_InvalidRoute ;;
  validate_routes ∅ routes ;;
  bail_if ((MAX_DNS_SERVERS <? len (dns_servers dns))
           || (MAX_SEARCH_DOMAINS <? len (dns_search_domains dns))
           || (negb (is_empty (dns_search_domains dns)) && is_empty (dns_servers dns))
           || negb (Nat.eqb (size (list_to_set (dns_servers dns) : gset IpAddr))
                      (length (dns_servers dns)))) PE_InvalidDns ;;
  bail_if (existsb invalid_dns_server (dns_servers dns)) PE_InvalidDns ;;
  validate_domains ∅ (dns_search_domains dns).

Definition canonical_route (route : PolicyRoute) : result PolicyError PolicyRoute :=
  prefix ← parse_route (pr_prefix route);
  Ok (mkPolicyRoute (net_to_string prefix) (pr_gateway_certificate route)).

Definition normalize_policy (routes : list PolicyRoute) (dns : DnsPolicy)
    : result PolicyError (list PolicyRoute * DnsPolicy) :=
  routes ← try_map canonical_route routes;
  let routes := sort_by (λ l r, str_le (pr_prefix l) (pr_prefix r)) routes in
  let servers := dedup (sort_by ip_le (dns_servers dns)) in
  domains ← try_map normalize_domain (dns_search_domains dns);
  let dns := mkDnsPolicy servers (dedup (sort_by str_le domains)) in
  validate_normalized_policy routes dns ;;
  Ok (routes, dns).

Definition exit_node_device (e : ExitNode) : DeviceId :=
  mc_device_id (cert_claims (en_gateway_certificate e)).

(** The loop of [validate_exit_nodes]. *)
Fixpoint validate_exit_devices (devices : gset DeviceId) (exit_nodes : list ExitNode)
    : result PolicyError unit :=
  match exit_nodes with
  | [] => Ok tt
  | e :: exit_nodes =>
      bail_if ((negb (en_supports_ipv4 e) && negb (en_supports_ipv6 e))
               || bool_decide (exit_node_device e ∈ devices)) PE_InvalidExitNode ;;
      validate_exit_devices ({[exit_node_device e]} ∪ devices) exit_nodes
  end.
Definition validate_exit_nodes (exit_nodes : list ExitNode) : result PolicyError unit :=
  bail_if (MAX_EXIT_NODES <? len exit_nodes) PE_InvalidExitNode ;;
  validate_exit_devices ∅ exit_nodes.

Definition normalize_exit_nodes (exit_nodes : list ExitNode)
    : result PolicyError (list ExitNode) :=
  let exit_nodes := sort_by (λ a b,
    uuid_le (device_uuid (exit_node_device a)) (device_uuid (exit_node_device b))) exit_nodes in
  validate_exit_nodes exit_nodes ;; Ok exit_nodes.

Definition encoded_policy_payload (version : Z) (network_id : NetworkId) (policy_epoch : Z)
    (routes : list PolicyRoute) (exit_nodes : list ExitNode) (dns : DnsPolicy)
    (issued_at expires_at : Z) (controller : bytes) : result PolicyError bytes :=
  if (version =? NETWORK_POLICY_MANIFEST_VERSION_V1) && is_empty exit_nodes
  then ok_or (to_vec (mkPolicyPayloadV1 version network_id policy_epoch routes dns
                        issued_at expires_at controller)) PE_EncodingFailed
  else if version =? NETWORK_POLICY_MANIFEST_VERSION
  then ok_or (to_vec (mkPolicyPayloadV2 version network_id policy_epoch routes exit_nodes dns
                        issued_at expires_at controller)) PE_EncodingFailed
  else Err PE_UnsupportedVersion.

Definition sign_with_exit_nodes (network_id : NetworkId) (policy_epoch : Z)
    (routes : list PolicyRoute) (exit_nodes : list ExitNode) (dns : DnsPolicy)
    (issued_at expires_at : Z) (key : SigningKey) : result PolicyError NetworkPolicyManifest :=
  bail_if (policy_epoch =? 0) PE_Rollback ;;
  '(routes, dns) ← normalize_policy routes dns;
  exit_nodes ← normalize_exit_nodes exit_nodes;
  let controller := public_bytes key in
  let version := if is_empty exit_nodes then NETWORK_POLICY_MANIFEST_VERSION_V1
                 else NETWORK_POLICY_MANIFEST_VERSION in
  payload ← encoded_policy_payload version network_id policy_epoch routes exit_nodes dns
              issued_at expires_at controller;
  Ok (mkNetworkPolicyManifest version network_id policy_epoch routes exit_nodes dns
        issued_at expires_at controller (sign key payload)).

Definition policy_sign (network_id : NetworkId) (policy_epoch : Z)
    (routes : list PolicyRoute) (dns : DnsPolicy)
    (issued_at expires_at : Z) (key : SigningKey) : result PolicyError NetworkPolicyManifest :=
  sign_with_exit_nodes network_id policy_epoch routes [] dns issued_at expires_at key.

(** The checks of one route and of one exit candidate. *)
Definition check_route_gateway (expected_network_id : NetworkId) (trusted : bytes)
    (authorization : NetworkAuthorizationManifest) (now : Z) (route : PolicyRoute)
    : result PolicyError unit :=
  let certificate := pr_gateway_certificate route in
  map_err (λ _, PE_UnauthorizedGateway) (cert_verify_from_controller certificate trusted now) ;;
  bail_if (bool_decide (mc_network_id (cert_claims certificate) ≠ expected_network_id)
           || negb (authorizes authorization certificate)
           || negb (existsb (λ allowed, prefix_covers allowed (pr_prefix route))
                      (mc_allowed_routes (cert_claims certificate)))) PE_UnauthorizedGateway.
Definition check_exit_gateway (expected_network_id : NetworkId) (trusted : bytes)
    (authorization : NetworkAuthorizationManifest) (now : Z) (exit_node : ExitNode)
    : result PolicyError unit :=
  let certificate := en_gateway_certificate exit_node in
  map_err (λ _, PE_InvalidExitNode) (cert_verify_from_controller certificate trusted now) ;;
  bail_if (bool_decide (mc_network_id (cert_claims certificate) ≠ expected_network_id)
           || negb (authorizes authorization certificate)) PE_InvalidExitNode.

Definition verify_for_network (m : NetworkPolicyManifest) (expected_network_id : NetworkId)
    (trusted : bytes) (authorization : NetworkAuthorizationManifest) (now : Z)
    (previous_policy_epoch : option Z) : result PolicyError unit :=
  bail_if (negb ((pol_version m =? NETWORK_POLICY_MANIFEST_VERSION_V1)
                 || (pol_version m =? NETWORK_POLICY_MANIFEST_VERSION))) PE_UnsupportedVersion ;;
  bail_if (bool_decide (pol_controller_public_key m ≠ trusted)) PE_UntrustedController ;;
  bail_if (bool_decide (pol_network_id m ≠ expected_network_id)
           || bool_decide (auth_network_id authorization ≠ expected_network_id))
    PE_CrossNetwork ;;
  bail_if (pol_policy_epoch m =? 0) PE_Rollback ;;
  map_err (λ _, PE_UnauthorizedGateway) (auth_verify_from_controller authorization trusted now) ;;
  bail_if (is_some_and previous_policy_epoch (λ epoch, pol_policy_epoch m <=? epoch))
    PE_Rollback ;;
  bail_if ((pol_expires_at m <? now) || (sat_add64 now 120 <? pol_issued_at m)
           || (pol_expires_at m <=? pol_issued_at m)) PE_Expired ;;
  validate_normalized_policy (pol_routes m) (pol_dns m) ;;
  validate_exit_nodes (pol_exit_nodes m) ;;
  bail_if ((pol_version m =? NETWORK_POLICY_MANIFEST_VERSION_V1)
           && negb (is_empty (pol_exit_nodes m))) PE_UnsupportedVersion ;;
  public_key ← ok_or (try_into 32 (pol_controller_public_key m)) PE_InvalidSignature;
  signature ← ok_or (try_into 64 (pol_signature m)) PE_InvalidSignature;
  encoded ← encoded_policy_payload (pol_version m) (pol_network_id m) (pol_policy_epoch m)
              (pol_routes m) (pol_exit_nodes m) (pol_dns m) (pol_issued_at m)
              (pol_expires_at m) (pol_controller_public_key m);
  key ← ok_or (vk_from_bytes public_key) PE_InvalidSignature;
  bail_if (negb (verify key encoded signature)) PE_InvalidSignature ;;
  for_each (check_route_gateway expected_network_id trusted authorization now) (pol_routes m) ;;
  for_each (check_exit_gateway expected_network_id trusted authorization now) (pol_exit_nodes m).

Definition gateway_for (m : NetworkPolicyManifest) (destination : IpAddr) : option DeviceId :=
  snd <$> max_by_key fst (omap (λ route,
    prefix ← parse_ipnet (pr_prefix route);
    if net_contains prefix destination
    then Some (net_prefix_len prefix, mc_device_id (cert_claims (pr_gateway_certificate route)))
    else None) (pol_routes m)).

Definition exit_node_supports (m : NetworkPolicyManifest) (device_id : DeviceId)
    (destination : IpAddr) : bool :=
  existsb (λ e, bool_decide (exit_node_device e = device_id)
                && match destination with
                   | V4 _ => en_supports_ipv4 e
                   | V6 _ => en_supports_ipv6 e
                   end) (pol_exit_nodes m).
End policy.
