(* ===== verification/Joined.v ===== *)
(** * Networks joined by an agent ([meshlake-core/src/model.rs])

    The persisted record of one joined network and its control-plane state. *)
From S2P Require Import Prelude Net Text Ext Model ServiceIdentity Membership Authorization.
From S2P Require Import Planet Policy.
#[local] Open Scope Z_scope.

Section joined.
Context `{UuidLib} `{Ed25519}.

Record NetworkControlPlane : Type := mkNetworkControlPlane {
  cp_controller_url : option string;
  cp_pinned_controller_public_key : bytes;
  cp_controller_tls_ca_pem : option string;
  cp_planet_manifest_url : option string;
  cp_planet_manifest_version : option Z;
  cp_planet_last_issued_at : option Z;
  cp_planet_expires_at : option Z;
  cp_planet_semantic_digest : bytes;
  cp_verified_roots : list PlanetRoot;
  cp_verified_relays : list PlanetRelay;
  cp_verified_tls_relays : list PlanetTlsRelay;
  cp_verified_turn_servers : list PlanetTurnServer;
  cp_verified_stun_servers : list string;
  cp_authorization_manifest : option NetworkAuthorizationManifest;
  cp_policy_manifest : option NetworkPolicyManifest;
  cp_exit_node_selection : ExitNodeSelection;
}.
Definition NetworkControlPlane_default : NetworkControlPlane :=
  mkNetworkControlPlane None [] None None None None None [] [] [] [] [] [] None None
    ExitNodeSelection_default.
Definition NetworkControlPlane_is_empty (c : NetworkControlPlane) : bool :=
  is_none (cp_controller_url c)
  && is_empty (cp_pinned_controller_public_key c)
  && is_none (cp_controller_tls_ca_pem c)
  && is_none (cp_planet_manifest_url c)
  && is_none (cp_planet_manifest_version c)
  && is_none (cp_planet_last_issued_at c)
  && is_none (cp_planet_expires_at c)
  && is_empty (cp_planet_semantic_digest c)
  && is_empty (cp_verified_roots c)
  && is_empty (cp_verified_relays c)
  && is_empty (cp_verified_tls_relays c)
  && is_empty (cp_verified_turn_servers c)
  && is_empty (cp_verified_stun_servers c)
  && is_none (cp_authorization_manifest c)
  && is_none (cp_policy_manifest c)
  && ExitNodeSelection_is_empty (cp_exit_node_selection c).

Record JoinedNetwork : Type := mkJoinedNetwork {
  jn_network : VirtualNetwork;
  jn_assigned_addresses : list IpAddr;
  jn_certificate : option MembershipCertificate;
  jn_network_key : bytes;
  jn_control_plane : NetworkControlPlane;
}.
Definition jn_id (n : JoinedNetwork) : NetworkId := vn_id (jn_network n).
End joined.

(** The persisted record omits the control plane exactly when it is the default. *)
Lemma control_plane_is_empty_iff `{UuidLib} `{Ed25519} (c : NetworkControlPlane) :
  NetworkControlPlane_is_empty c = true ↔ c = NetworkControlPlane_default.
Proof.
  split; [|by intros ->]. intros He.
  assert (∀ A (o : option A), is_none o = true → o = None) as Hn by (by intros A []).
  destruct c. unfold NetworkControlPlane_is_empty, ExitNodeSelection_is_empty in He. cbn in He.
  rewrite !andb_true_iff in He.
  repeat match goal with H : _ ∧ _ |- _ => destruct H end.
  repeat match goal with
  | H : is_none _ = true |- _ => apply Hn in H
  | H : is_empty _ = true |- _ => apply is_empty_true in H
  | H : negb _ = true |- _ => apply negb_true_iff in H
  end.
  destruct cp_exit_node_selection0; cbn in *. by subst.
Qed.
