(* ===== verification/ExitGateway.v ===== *)
(** * Local exit gateways and the kill switch, as plans

    [meshlaked/src/exit_gateway.rs] and [meshlaked/src/adapter/kill_switch.rs]:
    the forwarding rules of the gateways the operator enabled, and the endpoints
    that stay reachable while the kill switch blocks everything else. *)
From S2P Require Import Prelude Net Text Ext Model ServiceIdentity Membership Authorization.
From S2P Require Import Planet Policy Joined.
#[local] Open Scope Z_scope.

(** ** Exit gateways *)
Inductive GatewayError : Type :=
| InvalidEgressInterface | NoAddressFamily | DuplicateGateway | UnknownGatewayNetwork
| InvalidGatewayPrefix | MissingIpv6Prefix.

Section exit_gateway.
Context `{UuidLib} `{Ed25519} `{IpNetLib}.

Record ExitGatewayConfig : Type := mkExitGatewayConfig {
  eg_network_id : NetworkId;
  eg_egress_interface : string;
  eg_enable_ipv4 : bool;
  eg_enable_ipv6 : bool;
}.
#[global] Instance ExitGatewayConfig_eq_dec : EqDecision ExitGatewayConfig.
Proof. solve_decision. Defined.
Record GatewayRoute : Type := mkGatewayRoute {
  gr_network_id : NetworkId;
  gr_prefix : string;
  gr_egress_interface : string;
  gr_ipv6 : bool;
}.
#[global] Instance GatewayRoute_eq_dec : EqDecision GatewayRoute.
Proof. solve_decision. Defined.
Record ExitGatewayPlan : Type := mkExitGatewayPlan { gp_routes : list GatewayRoute }.
#[global] Instance ExitGatewayPlan_eq_dec : EqDecision ExitGatewayPlan.
Proof. solve_decision. Defined.
Definition ExitGatewayPlan_default : ExitGatewayPlan := mkExitGatewayPlan [].

Definition validate_egress_interface (value : string) : result GatewayError unit :=
  bail_if (str_is_empty value || (128 <? str_len value) || any_byte is_ascii_control value)
    InvalidEgressInterface.
(** The routes of one configuration. *)
Definition ipv4_gateway_route (config : ExitGatewayConfig) (joined : JoinedNetwork)
    : result GatewayError (list GatewayRoute) :=
  if eg_enable_ipv4 config then
    prefix ← ok_or (parse_ipnet (vn_ipv4_prefix (jn_network joined))) InvalidGatewayPrefix;
    match prefix with
    | Net4 _ => Ok [mkGatewayRoute (eg_network_id config) (net_to_string prefix)
                      (eg_egress_interface config) false]
    | Net6 _ => Err InvalidGatewayPrefix
    end
  else Ok [].
Definition ipv6_gateway_route (config : ExitGatewayConfig) (joined : JoinedNetwork)
    : result GatewayError (list GatewayRoute) :=
  if eg_enable_ipv6 config then
    text ← ok_or (vn_ipv6_prefix (jn_network joined)) MissingIpv6Prefix;
    prefix ← ok_or (parse_ipnet text) InvalidGatewayPrefix;
    match prefix with
    | Net4 _ => Err InvalidGatewayPrefix
    | Net6 _ => Ok [mkGatewayRoute (eg_network_id config) (net_to_string prefix)
                      (eg_egress_interface config) true]
    end
  else Ok [].
(** One turn of the loop: the networks configured so far and their routes. *)
Definition plan_gateway (networks : list JoinedNetwork)
    (acc : gset Uuid * list GatewayRoute) (config : ExitGatewayConfig)
    : result GatewayError (gset Uuid * list GatewayRoute) :=
  validate_egress_interface (eg_egress_interface config) ;;
  bail_if (negb (eg_enable_ipv4 config) && negb (eg_enable_ipv6 config)) NoAddressFamily ;;
  let id := network_uuid (eg_network_id config) in
  bail_if (bool_decide (id ∈ acc.1)) DuplicateGateway ;;
  joined ← ok_or (List.find (λ n, bool_decide (jn_id n = eg_network_id config)) networks)
             UnknownGatewayNetwork;
  routes4 ← ipv4_gateway_route config joined;
  routes6 ← ipv6_gateway_route config joined;
  Ok ({[id]} ∪ acc.1, acc.2 ++ routes4 ++ routes6).
(** The order of the sort key [(network_id, ipv6, prefix)]. *)
Definition gateway_route_le (a b : GatewayRoute) : bool :=
  let ida := network_uuid (gr_network_id a) in
  let idb := network_uuid (gr_network_id b) in
  if decide (ida = idb) then
    if Bool.eqb (gr_ipv6 a) (gr_ipv6 b) then str_le (gr_prefix a) (gr_prefix b)
    else negb (gr_ipv6 a)
  else uuid_le ida idb.
Definition gateway_plan (configs : list ExitGatewayConfig) (networks : list JoinedNetwork)
    : result GatewayError ExitGatewayPlan :=
  acc ← try_foldl (plan_gateway networks) (∅, []) configs;
  Ok (mkExitGatewayPlan (sort_by gateway_route_le acc.2)).
End exit_gateway.

(** ** The kill switch *)
Inductive BootstrapTransport : Type := BootstrapTcp | BootstrapUdp.
#[export] Instance BootstrapTransport_eq_dec : EqDecision BootstrapTransport.
Proof. solve_decision. Defined.
Record BootstrapEndpoint : Type := mkBootstrapEndpoint {
  be_endpoint : SocketAddr;
  be_transport : BootstrapTransport;
}.
#[export] Instance BootstrapEndpoint_eq_dec : EqDecision BootstrapEndpoint.
Proof. solve_decision. Defined.
Record KillSwitchPlan : Type := mkKillSwitchPlan {
  kp_enabled : bool;
  kp_bootstrap_endpoints : list BootstrapEndpoint;
}.
#[export] Instance KillSwitchPlan_eq_dec : EqDecision KillSwitchPlan.
Proof. solve_decision. Defined.
Definition KillSwitchPlan_default : KillSwitchPlan := mkKillSwitchPlan false [].

Inductive KillSwitchError : Type := LocalBootstrapEndpoint | NoBootstrapEndpoint.
(** The derived order: the endpoint, then TCP before UDP. *)
Definition transport_key (t : BootstrapTransport) : Z :=
  match t with BootstrapTcp => 0 | BootstrapUdp => 1 end.
Definition bootstrap_le (a b : BootstrapEndpoint) : bool :=
  if decide (be_endpoint a = be_endpoint b)
  then transport_key (be_transport a) <=? transport_key (be_transport b)
  else socket_le (be_endpoint a) (be_endpoint b).
Definition check_bootstrap_endpoint (e : BootstrapEndpoint) : result KillSwitchError unit :=
  let address := socket_ip (be_endpoint e) in
  bail_if (ip_is_unspecified address || ip_is_multicast address || ip_is_loopback address)
    LocalBootstrapEndpoint.
Definition kill_switch_plan (enabled : bool) (endpoints : list BootstrapEndpoint)
    : result KillSwitchError KillSwitchPlan :=
  if negb enabled then Ok KillSwitchPlan_default else
  for_each check_bootstrap_endpoint endpoints ;;
  bail_if (is_empty endpoints) NoBootstrapEndpoint ;;
  Ok (mkKillSwitchPlan true (dedup (sort_by bootstrap_le endpoints))).
