(* ===== verification/PolicyPlan.v ===== *)
(** * The adapter's policy plan ([meshlaked/src/adapter/policy.rs])

    The routes, exits and DNS servers of all joined networks, projected into one
    plan for the platform adapter, and the transaction that replaces the applied
    plan by a new one. *)
From S2P Require Import Prelude Net Text Ext Model ServiceIdentity Membership Authorization.
From S2P Require Import Planet Policy Joined Request.
#[local] Open Scope Z_scope.

(** The addresses the code probes an exit with: 192.0.2.1 and 2001:db8::1. *)
Definition ipv4_probe : IpAddr := V4 3221225985.
Definition ipv6_probe : IpAddr := V6 (0x20010db8 * 2 ^ 96 + 1).

Inductive PlanError : Type :=
| StalePolicy | InvalidPlanRoute | CrossNetworkGateway | OverlapsOverlay | AmbiguousPlanRoute
| KillSwitchWithoutExit | ExitWithoutAuthorization | ExitPolicyInvalid (e : PolicyError)
| ExitNotAuthorized | MixedDns | DomainsWithoutServers | ExitWithoutDns | InvalidNetworkPrefix.

Section policy_plan.
Context `{UuidLib} `{Ed25519} `{IpNetLib}.
Context `{!MembershipSerde} `{!AuthorizationSerde} `{!PolicySerde}.

Record PlannedRoute : Type := mkPlannedRoute {
  pl_prefix : string;
  pl_network_id : NetworkId;
  pl_gateway_device_id : DeviceId;
}.
#[global] Instance PlannedRoute_eq_dec : EqDecision PlannedRoute.
Proof. solve_decision. Defined.
Record PolicyPlan : Type := mkPolicyPlan {
  pp_routes : list PlannedRoute;
  pp_exit_routes : list PlannedRoute;
  pp_exit_kill_switch : bool;
  pp_dns_servers : list IpAddr;
  pp_search_domains : list string;
}.
#[global] Instance PolicyPlan_eq_dec : EqDecision PolicyPlan.
Proof. solve_decision. Defined.
Definition PolicyPlan_default : PolicyPlan := mkPolicyPlan [] [] false [] [].

(** ** Overlaps *)
Definition nets_overlap (left right : IpNet) : bool :=
  match left, right with
  | Net4 l, Net4 r => v4_contains l (v4_network r) || v4_contains r (v4_network l)
  | Net6 l, Net6 r => v6_contains l (v6_network r) || v6_contains r (v6_network l)
  | _, _ => false
  end.
Definition overlaps_virtual_prefix (joined : JoinedNetwork) (route : IpNet)
    : result PlanError bool :=
  ipv4 ← ok_or (parse_ipnet (vn_ipv4_prefix (jn_network joined))) InvalidNetworkPrefix;
  ipv6 ← match vn_ipv6_prefix (jn_network joined) with
         | None => Ok None
         | Some text => Some <$> ok_or (parse_ipnet text) InvalidNetworkPrefix
         end;
  Ok (nets_overlap route ipv4 || is_some_and ipv6 (nets_overlap route)).

(** ** The plan *)
(** [BTreeMap<String, PlannedRoute>], and its values in key order. *)
Abbreviation route_map := (gmap string PlannedRoute).
Definition values_in_order (m : route_map) : list PlannedRoute :=
  map snd (sort_by (λ a b, str_le a.1 b.1) (map_to_list m)).
Definition insert_route (m : route_map) (planned : PlannedRoute) : result PlanError route_map :=
  bail_if (is_some_and (m !! pl_prefix planned)
             (λ previous, bool_decide (pl_network_id previous ≠ pl_network_id planned)
                || bool_decide (pl_gateway_device_id previous ≠ pl_gateway_device_id planned)))
    AmbiguousPlanRoute ;;
  Ok (<[pl_prefix planned := planned]> m).
Record PlanState : Type := mkPlanState {
  ps_routes : route_map;
  ps_exit_routes : route_map;
  ps_exit_kill_switch : bool;
  ps_dns_servers : list IpAddr;
  ps_search_domains : list string;
  ps_dns_owner : option NetworkId;
}.
Definition PlanState_new : PlanState := mkPlanState ∅ ∅ false [] [] None.
Definition with_routes (s : PlanState) (routes : route_map) : PlanState :=
  mkPlanState routes (ps_exit_routes s) (ps_exit_kill_switch s) (ps_dns_servers s)
    (ps_search_domains s) (ps_dns_owner s).

Definition plan_route (joined : JoinedNetwork) (routes : route_map) (route : PolicyRoute)
    : result PlanError route_map :=
  parsed ← ok_or (parse_ipnet (pr_prefix route)) InvalidPlanRoute;
  let claims := cert_claims (pr_gateway_certificate route) in
  bail_if (bool_decide (mc_network_id claims ≠ jn_id joined)) CrossNetworkGateway ;;
  overlaps ← overlaps_virtual_prefix joined parsed;
  bail_if overlaps OverlapsOverlay ;;
  insert_route routes (mkPlannedRoute (net_to_string parsed) (jn_id joined) (mc_device_id claims)).
(** The default route through one selected gateway. *)
Definition plan_exit (now : Z) (joined : JoinedNetwork) (policy : NetworkPolicyManifest)
    (s : PlanState) (choice : option DeviceId * string * IpAddr) : result PlanError PlanState :=
  let '(gateway, prefix, probe) := choice in
  match gateway with
  | None => Ok s
  | Some gateway =>
      authorization ← ok_or (cp_authorization_manifest (jn_control_plane joined))
                        ExitWithoutAuthorization;
      map_err ExitPolicyInvalid
        (verify_for_network policy (jn_id joined)
           (cp_pinned_controller_public_key (jn_control_plane joined)) authorization now None) ;;
      bail_if (negb (exit_node_supports policy gateway probe)) ExitNotAuthorized ;;
      exits ← insert_route (ps_exit_routes s) (mkPlannedRoute prefix (jn_id joined) gateway);
      Ok (mkPlanState (ps_routes s) exits
            (ps_exit_kill_switch s
             || es_kill_switch (cp_exit_node_selection (jn_control_plane joined)))
            (ps_dns_servers s) (ps_search_domains s) (ps_dns_owner s))
  end.
Definition plan_dns (joined : JoinedNetwork) (policy : NetworkPolicyManifest) (s : PlanState)
    : result PlanError PlanState :=
  let dns := pol_dns policy in
  if negb (is_empty (dns_servers dns)) || negb (is_empty (dns_search_domains dns)) then
    bail_if (is_some (ps_dns_owner s)) MixedDns ;;
    Ok (mkPlanState (ps_routes s) (ps_exit_routes s) (ps_exit_kill_switch s)
          (ps_dns_servers s ++ dns_servers dns) (ps_search_domains s ++ dns_search_domains dns)
          (Some (jn_id joined)))
  else Ok s.
Definition plan_network (now : Z) (s : PlanState) (joined : JoinedNetwork)
    : result PlanError PlanState :=
  match cp_policy_manifest (jn_control_plane joined) with
  | None => Ok s
  | Some policy =>
      bail_if (bool_decide (pol_network_id policy ≠ jn_id joined) || (pol_expires_at policy <? now))
        StalePolicy ;;
      routes ← try_foldl (plan_route joined) (ps_routes s) (pol_routes policy);
      let s := with_routes s routes in
      let selection := cp_exit_node_selection (jn_control_plane joined) in
      bail_if (es_kill_switch selection && is_none (es_ipv4_gateway selection)
               && is_none (es_ipv6_gateway selection)) KillSwitchWithoutExit ;;
      s ← try_foldl (plan_exit now joined policy) s
            [(es_ipv4_gateway selection, "0.0.0.0/0"%string, ipv4_probe);
             (es_ipv6_gateway selection, "::/0"%string, ipv6_probe)];
      plan_dns joined policy s
  end.
Definition policy_plan (networks : list JoinedNetwork) (now : Z) : result PlanError PolicyPlan :=
  s ← try_foldl (plan_network now) PlanState_new networks;
  let servers := dedup (sort_by ip_le (ps_dns_servers s)) in
  let domains := dedup (sort_by str_le (ps_search_domains s)) in
  bail_if (negb (is_empty domains) && is_empty servers) DomainsWithoutServers ;;
  bail_if (negb (bool_decide (ps_exit_routes s = ∅)) && is_empty servers) ExitWithoutDns ;;
  Ok (mkPolicyPlan (values_in_order (ps_routes s)) (values_in_order (ps_exit_routes s))
        (ps_exit_kill_switch s) servers domains).
End policy_plan.

(** ** Replacing the applied plan *)
Inductive PolicyTransactionError : Type := RolledBack | FailClosed.
Definition is_fail_closed (e : PolicyTransactionError) : bool :=
  match e with FailClosed => true | RolledBack => false end.

(** The transaction over some state that its four steps change. *)
Section transaction.
Context {S E : Type}.
Definition recover_policy_transaction
    (remove_desired remove_previous restore_previous : handler S E unit)
    : handler S PolicyTransactionError unit :=
  r1 ← attempt remove_desired;
  r2 ← attempt remove_previous;
  r3 ← attempt restore_previous;
  lift (Err (if is_ok r1 && is_ok r2 && is_ok r3 then RolledBack else FailClosed)).
Definition apply_policy_transaction
    (remove_previous apply_desired remove_desired restore_previous : handler S E unit)
    : handler S PolicyTransactionError unit :=
  r1 ← attempt remove_previous;
  if is_ok r1 then
    r2 ← attempt apply_desired;
    if is_ok r2 then mret tt
    else recover_policy_transaction remove_desired remove_previous restore_previous
  else recover_policy_transaction remove_desired remove_previous restore_previous.
End transaction.
Definition finalize_policy_transaction `{UuidLib} (current desired : PolicyPlan)
    (r : result PolicyTransactionError unit) : PolicyPlan :=
  match r with
  | Ok _ => desired
  | Err e => if is_fail_closed e then PolicyPlan_default else current
  end.
