(* ===== verification/DataPlane.v ===== *)
(** * Packet classification and routing ([meshlaked/src/data_plane/ip.rs])

    Which network and gateway an outbound IP packet takes, and when a device
    is a gateway for an address.  The clock is an argument. *)
From S2P Require Import Prelude Net Text Ext Model ServiceIdentity Membership Authorization.
From S2P Require Import Planet Policy Joined.
#[local] Open Scope Z_scope.

(** The source and destination address of an IP packet. *)
Definition packet_addresses (packet : bytes) : option (IpAddr * IpAddr) :=
  version ← (λ b, b / 16) <$> head packet;
  if (version =? 4) && (20 <=? len packet) then
    Some (ipv4_of_octets (slice 12 16 packet), ipv4_of_octets (slice 16 20 packet))
  else if (version =? 6) && (40 <=? len packet) then
    Some (ipv6_of_octets (slice 8 24 packet), ipv6_of_octets (slice 24 40 packet))
  else None.

Section data_plane.
Context `{UuidLib} `{Ed25519} `{IpNetLib}.

Record OutboundNetworkRoute : Type := mkOutboundNetworkRoute {
  or_network : JoinedNetwork;
  or_gateway : option DeviceId;
}.

Definition address_belongs_to_network (network : JoinedNetwork) (address : IpAddr) : bool :=
  match address with
  | V4 address =>
      is_some_and (parse_ipv4net (vn_ipv4_prefix (jn_network network)))
        (λ prefix, v4_contains prefix address)
  | V6 address =>
      is_some_and (vn_ipv6_prefix (jn_network network) ≫= parse_ipv6net)
        (λ prefix, v6_contains prefix address)
  end.

Definition is_group_destination (network : JoinedNetwork) (destination : IpAddr) : bool :=
  match destination with
  | V4 destination =>
      (destination =? Ipv4.BROADCAST)
      || Ipv4.is_multicast destination
      || is_some_and (parse_ipv4net (vn_ipv4_prefix (jn_network network)))
           (λ prefix, destination =? v4_broadcast prefix)
  | V6 destination => Ipv6.is_multicast destination
  end.

Definition destination_prefix_len (network : JoinedNetwork) (address : IpAddr) : option Z :=
  match address with
  | V4 address =>
      prefix ← parse_ipv4net (vn_ipv4_prefix (jn_network network));
      if v4_contains prefix address then Some (v4_prefix_len prefix) else None
  | V6 address =>
      text ← vn_ipv6_prefix (jn_network network);
      prefix ← parse_ipv6net text;
      if v6_contains prefix address then Some (v6_prefix_len prefix) else None
  end.

(** The module's own copy of [prefix_covers]. *)
Definition ip_prefix_covers (allowed target : string) : bool :=
  match parse_ipnet allowed, parse_ipnet target with
  | Some (Net4 allowed), Some (Net4 target) =>
      (v4_prefix_len allowed <=? v4_prefix_len target)
      && v4_contains allowed (v4_network target)
  | Some (Net6 allowed), Some (Net6 target) =>
      (v6_prefix_len allowed <=? v6_prefix_len target)
      && v6_contains allowed (v6_network target)
  | _, _ => false
  end.

(** The documents of the network are of this network, from the pinned
    controller and current. *)
Definition documents_current (network : JoinedNetwork) (policy : NetworkPolicyManifest)
    (authorization : NetworkAuthorizationManifest) (now : Z) : bool :=
  let pinned_key := cp_pinned_controller_public_key (jn_control_plane network) in
  negb (is_empty pinned_key
    || bool_decide (pol_network_id policy ≠ jn_id network)
    || bool_decide (pol_controller_public_key policy ≠ pinned_key)
    || (sat_add64 now 120 <? pol_issued_at policy)
    || (pol_expires_at policy <? now)
    || bool_decide (auth_network_id authorization ≠ jn_id network)
    || bool_decide (auth_controller_public_key authorization ≠ pinned_key)
    || (sat_add64 now 120 <? auth_issued_at authorization)
    || (auth_expires_at authorization <? now)).

Definition certificate_current (network : JoinedNetwork)
    (authorization : NetworkAuthorizationManifest) (c : MembershipCertificate) (now : Z)
    : bool :=
  bool_decide (cert_controller_public_key c
               = cp_pinned_controller_public_key (jn_control_plane network))
  && bool_decide (mc_network_id (cert_claims c) = jn_id network)
  && (mc_issued_at (cert_claims c) <=? sat_add64 now 120)
  && negb (is_some_and (mc_expires_at (cert_claims c)) (λ expiry, expiry <? now))
  && authorizes authorization c.

Definition exit_candidate_is_current (network : JoinedNetwork) (device_id : DeviceId)
    (address : IpAddr) (now : Z) : bool :=
  match cp_policy_manifest (jn_control_plane network),
        cp_authorization_manifest (jn_control_plane network) with
  | Some policy, Some authorization =>
      documents_current network policy authorization now
      && existsb (λ exit_node,
           bool_decide (mc_device_id (cert_claims (en_gateway_certificate exit_node)) = device_id)
           && certificate_current network authorization (en_gateway_certificate exit_node) now
           && (if is_ipv4 address then en_supports_ipv4 exit_node
               else en_supports_ipv6 exit_node)) (pol_exit_nodes policy)
  | _, _ => false
  end.

Definition selected_exit_gateway (network : JoinedNetwork) (address : IpAddr) (now : Z)
    : option DeviceId :=
  let selection := cp_exit_node_selection (jn_control_plane network) in
  selected ← (if is_ipv4 address then es_ipv4_gateway selection else es_ipv6_gateway selection);
  if exit_candidate_is_current network selected address now then Some selected else None.

Definition local_device_is_exit_gateway_for (network : JoinedNetwork) (device_id : DeviceId)
    (address : IpAddr) (now : Z) : bool :=
  exit_candidate_is_current network device_id address now.

(** The prefix length and gateway of one policy route, if it is usable for
    the address. *)
Definition usable_route (network : JoinedNetwork)
    (authorization : NetworkAuthorizationManifest) (address : IpAddr) (now : Z)
    (route : PolicyRoute) : option (Z * DeviceId) :=
  prefix ← parse_ipnet (pr_prefix route);
  let certificate := pr_gateway_certificate route in
  if negb (certificate_current network authorization certificate now
           && existsb (λ allowed, ip_prefix_covers allowed (pr_prefix route))
                (mc_allowed_routes (cert_claims certificate)))
  then None
  else if net_contains prefix address
  then Some (net_prefix_len prefix, mc_device_id (cert_claims certificate)) else None.

Definition policy_gateway (network : JoinedNetwork) (address : IpAddr) (now : Z)
    : option (Z * DeviceId) :=
  policy ← cp_policy_manifest (jn_control_plane network);
  authorization ← cp_authorization_manifest (jn_control_plane network);
  if documents_current network policy authorization now then
    select_best fst (λ a b, bool_decide (a.2 ≠ b.2))
      (omap (usable_route network authorization address now) (pol_routes policy))
  else None.

Definition local_device_is_gateway_for (network : JoinedNetwork) (local_device : DeviceId)
    (destination : IpAddr) (now : Z) : bool :=
  is_some_and (policy_gateway network destination now)
    (λ '(_, gateway), bool_decide (gateway = local_device))
  || (negb (address_belongs_to_network network destination)
      && negb (is_group_destination network destination)
      && local_device_is_exit_gateway_for network local_device destination now).

Definition peer_is_gateway_for_source (network : JoinedNetwork) (peer_device : DeviceId)
    (source : IpAddr) (now : Z) : bool :=
  is_some_and (policy_gateway network source now)
    (λ '(_, gateway), bool_decide (gateway = peer_device))
  || (negb (address_belongs_to_network network source)
      && local_device_is_exit_gateway_for network peer_device source now).

Definition has_key (network : JoinedNetwork) : bool := len (jn_network_key network) =? 32.

(** The route within the one network the source address belongs to. *)
Definition route_from_member (network : JoinedNetwork) (destination : IpAddr) (now : Z)
    : option OutboundNetworkRoute :=
  if is_group_destination network destination
  then Some (mkOutboundNetworkRoute network None)
  else match destination_prefix_len network destination, policy_gateway network destination now with
  | Some _, None => Some (mkOutboundNetworkRoute network None)
  | None, Some (_, gateway) => Some (mkOutboundNetworkRoute network (Some gateway))
  | Some direct, Some (custom, gateway) =>
      if direct <? custom then Some (mkOutboundNetworkRoute network (Some gateway))
      else if custom <? direct then Some (mkOutboundNetworkRoute network None)
      else None
  | None, None =>
      (λ gateway, mkOutboundNetworkRoute network (Some gateway))
        <$> selected_exit_gateway network destination now
  end.

(** A network this device returns traffic to as a gateway of the source. *)
Definition gateway_return (local_device : DeviceId) (source destination : IpAddr) (now : Z)
    (network : JoinedNetwork) : option (Z * JoinedNetwork) :=
  if negb (has_key network) || negb (address_belongs_to_network network destination) then None
  else match policy_gateway network source now with
  | Some (prefix_len, gateway) =>
      if bool_decide (gateway = local_device) then Some (prefix_len, network) else None
  | None =>
      if local_device_is_exit_gateway_for network local_device source now
      then Some (0, network) else None
  end.

Definition outbound_route_for_ip_packet (networks : list JoinedNetwork)
    (local_device : DeviceId) (packet : bytes) (now : Z) : option OutboundNetworkRoute :=
  '(source, destination) ← packet_addresses packet;
  match List.filter (λ n, has_key n && contains source (jn_assigned_addresses n)) networks with
  | [network] => route_from_member network destination now
  | _ :: _ :: _ => None
  | [] =>
      (λ '(_, network), mkOutboundNetworkRoute network None)
        <$> select_best fst (λ _ _, true)
              (omap (gateway_return local_device source destination now) networks)
  end.
End data_plane.
