(* ===== verification/PeerDirectory.v ===== *)
(** * The agent's peer directory ([meshlaked/src/main.rs])

    Candidates and addresses of the peers, their probes and round-trip times,
    and the checks on delivered packets.  Instants are nanoseconds. *)
From S2P Require Import Prelude Net Text Ext Model ServiceIdentity Membership Authorization.
From S2P Require Import RelayProto Planet Policy Joined DataPlane.
#[local] Open Scope Z_scope.

Definition PEER_DIRECTORY_TTL : Z := secs 120.
Definition HANDSHAKE_REPLAY_TTL : Z := secs 300.
Definition MAX_HANDSHAKE_REPLAY_ENTRIES : Z := 16384.
(** [self.candidates.len() < 16] *)
Definition ROUTE_CANDIDATES : Z := 16.

(** ** Candidates *)
Record PeerCandidate : Type := mkPeerCandidate {
  pc_endpoint : SocketAddr;
  pc_last_probe_sent : option Z;
  pc_last_seen : option Z;
  pc_smoothed_rtt : option Z;
  pc_consecutive_failures : Z;
}.
Definition PeerCandidate_new (endpoint : SocketAddr) : PeerCandidate :=
  mkPeerCandidate endpoint None None None 0.
Definition score (c : PeerCandidate) : Z :=
  as_micros (default (millis 500) (pc_smoothed_rtt c)) + pc_consecutive_failures c * 250000.
(** An exponentially weighted average, in whole microseconds. *)
Definition weighted_rtt (previous sample : Z) : Z :=
  let micros := (as_micros previous * 7 + as_micros sample) / 8 in
  Z.min micros u64_max * 1000.

Record PeerRoute : Type := mkPeerRoute {
  route_candidates : list PeerCandidate;
  route_assigned_addresses : list IpAddr;
  route_device_public_key : bytes;
  route_directory_last_seen : option Z;
}.
Definition PeerRoute_new (candidate : SocketAddr) : PeerRoute :=
  mkPeerRoute [PeerCandidate_new candidate] [] [] None.
Definition PeerRoute_empty : PeerRoute := mkPeerRoute [] [] [] None.

Definition with_candidates (r : PeerRoute) (l : list PeerCandidate) : PeerRoute :=
  mkPeerRoute l (route_assigned_addresses r) (route_device_public_key r)
    (route_directory_last_seen r).

Definition add_candidate (r : PeerRoute) (candidate : SocketAddr) : PeerRoute :=
  if negb (existsb (λ c, bool_decide (pc_endpoint c = candidate)) (route_candidates r))
     && (len (route_candidates r) <? ROUTE_CANDIDATES)
  then with_candidates r (route_candidates r ++ [PeerCandidate_new candidate])
  else r.

Definition set_assigned_addresses_at (r : PeerRoute) (addresses : list IpAddr) (now : Z)
    : PeerRoute :=
  mkPeerRoute (route_candidates r) addresses (route_device_public_key r) (Some now).

Definition expire_directory (r : PeerRoute) (now : Z) : PeerRoute :=
  if is_some_and (route_directory_last_seen r)
       (λ seen, PEER_DIRECTORY_TTL <? duration_since now seen)
  then mkPeerRoute (route_candidates r) [] [] None
  else r.

Definition endpoints (r : PeerRoute) : list SocketAddr := map pc_endpoint (route_candidates r).

(** Updates the first candidate of an endpoint. *)
Fixpoint update_candidate (endpoint : SocketAddr) (f : PeerCandidate → PeerCandidate)
    (l : list PeerCandidate) : list PeerCandidate :=
  match l with
  | [] => []
  | c :: l =>
      if bool_decide (pc_endpoint c = endpoint) then f c :: l
      else c :: update_candidate endpoint f l
  end.
Definition has_endpoint (endpoint : SocketAddr) (l : list PeerCandidate) : bool :=
  existsb (λ c, bool_decide (pc_endpoint c = endpoint)) l.

Definition candidate_probe_sent (now : Z) (c : PeerCandidate) : PeerCandidate :=
  mkPeerCandidate (pc_endpoint c) (Some now) (pc_last_seen c) (pc_smoothed_rtt c)
    (pc_consecutive_failures c).
Definition mark_probe_sent (r : PeerRoute) (endpoint : SocketAddr) (now : Z) : PeerRoute :=
  with_candidates r (update_candidate endpoint (candidate_probe_sent now) (route_candidates r)).

Definition candidate_success (now : Z) (c : PeerCandidate) : PeerCandidate :=
  let rtt :=
    match pc_last_probe_sent c with
    | Some sent =>
        let sample := duration_since now sent in
        Some (match pc_smoothed_rtt c with
              | Some previous => weighted_rtt previous sample
              | None => sample
              end)
    | None => pc_smoothed_rtt c
    end in
  mkPeerCandidate (pc_endpoint c) None (Some now) rtt 0.
Definition mark_success (r : PeerRoute) (endpoint : SocketAddr) (now : Z) : PeerRoute * bool :=
  if has_endpoint endpoint (route_candidates r)
  then (with_candidates r (update_candidate endpoint (candidate_success now) (route_candidates r)),
        true)
  else (r, false).

Definition probe_timed_out (now : Z) (c : PeerCandidate) : bool :=
  is_some_and (pc_last_probe_sent c) (λ sent, secs 3 <? duration_since now sent)
  && match pc_last_seen c, pc_last_probe_sent c with
     | Some seen, Some sent => seen <? sent
     | _, _ => true
     end.
Definition expire_probes (r : PeerRoute) (now : Z) : PeerRoute :=
  with_candidates r (map (λ c,
    if probe_timed_out now c
    then mkPeerCandidate (pc_endpoint c) None (pc_last_seen c) (pc_smoothed_rtt c)
           (sat_add8 (pc_consecutive_failures c) 1)
    else c) (route_candidates r)).

Definition candidate_fresh (now : Z) (c : PeerCandidate) : bool :=
  is_some_and (pc_last_seen c) (λ seen, duration_since now seen <? secs 45).
Definition best_candidate (r : PeerRoute) (now : Z) : option PeerCandidate :=
  min_by_key score (List.filter (candidate_fresh now) (route_candidates r)).
Definition best_endpoint (r : PeerRoute) (now : Z) : option SocketAddr :=
  pc_endpoint <$> best_candidate r now.

(** ** The directory *)
Section directory.
Context `{UuidLib} `{Ed25519} `{IpNetLib} `{HashOrder}.

Definition update_peer_addresses (peers : gmap (NetworkId * DeviceId) PeerRoute)
    (key : NetworkId * DeviceId) (assigned_addresses : list IpAddr) (self_id : DeviceId)
    (networks : list JoinedNetwork) (now : Z)
    : gmap (NetworkId * DeviceId) PeerRoute * bool :=
  if bool_decide (key.2 = self_id) || (RELAY_MAX_ASSIGNED_ADDRESSES <? len assigned_addresses)
  then (peers, false)
  else match List.find (λ n, bool_decide (jn_id n = key.1)) networks with
  | None => (peers, false)
  | Some network =>
      let addresses := dedup (sort_by ip_le assigned_addresses) in
      if is_empty addresses
         || existsb (λ a, negb (address_belongs_to_network network a)) addresses
         || existsb (λ a, contains a (jn_assigned_addresses network)) addresses
         || existsb (λ '(peer_key, route),
              bool_decide (peer_key ≠ key) && bool_decide (peer_key.1 = key.1)
              && existsb (λ a, contains a addresses) (route_assigned_addresses route))
              (hash_iter peers)
      then (peers, false)
      else
        let route := default PeerRoute_empty (peers !! key) in
        (<[key := set_assigned_addresses_at route addresses now]> peers, true)
  end.

Definition update_peer_membership (peers : gmap (NetworkId * DeviceId) PeerRoute)
    (certificate : MembershipCertificate) (self_id : DeviceId)
    (networks : list JoinedNetwork) (now : Z)
    : gmap (NetworkId * DeviceId) PeerRoute * option bool :=
  let claims := cert_claims certificate in
  if negb (len (mc_device_public_key claims) =? 32) then (peers, None)
  else
    let key := (mc_network_id claims, mc_device_id claims) in
    let previous_key := default [] (route_device_public_key <$> peers !! key) in
    let '(peers, updated) :=
      update_peer_addresses peers key (mc_assigned_addresses claims) self_id networks now in
    if negb updated then (peers, None)
    else match peers !! key with
    | None => (peers, None)
    | Some route =>
        let route := mkPeerRoute (route_candidates route) (route_assigned_addresses route)
          (mc_device_public_key claims) (route_directory_last_seen route) in
        (<[key := route]> peers,
         Some (negb (is_empty previous_key)
               && bool_decide (previous_key ≠ mc_device_public_key claims)))
    end.

(** ** Handshake replay cache *)
Definition record_session_handshake (seen : gmap ((NetworkId * DeviceId) * bytes) Z)
    (peer : NetworkId * DeviceId) (session_id : bytes) (current_time : Z)
    : gmap ((NetworkId * DeviceId) * bytes) Z * bool :=
  let seen := retain (λ _ recorded,
    duration_since current_time recorded <=? HANDSHAKE_REPLAY_TTL) seen in
  let cache_key := (peer, session_id) in
  if is_some (seen !! cache_key) then (seen, false)
  else
    let seen :=
      if MAX_HANDSHAKE_REPLAY_ENTRIES <=? Z.of_nat (size seen) then
        match max_by_key (λ '(_, recorded), duration_since current_time recorded)
                (hash_iter seen) with
        | Some (oldest, _) => delete oldest seen
        | None => seen
        end
      else seen in
    (<[cache_key := current_time]> seen, true).

(** ** Delivery *)
Definition device_le (a b : DeviceId) : bool := uuid_le (device_uuid a) (device_uuid b).
Definition peer_target (network : JoinedNetwork) (gateway : option DeviceId)
    (destination : IpAddr) (entry : (NetworkId * DeviceId) * PeerRoute)
    : option (DeviceId * PeerRoute) :=
  let '((network_id, device_id), route) := entry in
  if bool_decide (network_id ≠ jn_id network) || is_empty (route_assigned_addresses route)
  then None
  else if bool_decide (gateway = Some device_id)
          || (is_none gateway
              && (is_group_destination network destination
                  || contains destination (route_assigned_addresses route)))
  then Some (device_id, route) else None.
Definition peer_targets_for_packet (peers : gmap (NetworkId * DeviceId) PeerRoute)
    (network : JoinedNetwork) (gateway : option DeviceId) (packet : bytes)
    : list (DeviceId * PeerRoute) :=
  match packet_addresses packet with
  | None => []
  | Some (_, destination) =>
      sort_by (λ a b, device_le a.1 b.1)
        (omap (peer_target network gateway destination) (hash_iter peers))
  end.

Definition packet_is_authorized_for_delivery (network : JoinedNetwork)
    (source_device : DeviceId) (source_route : PeerRoute)
    (outer_destination local_device : DeviceId) (packet : bytes) (now : Z) : bool :=
  if negb (is_nil (device_uuid outer_destination))
     && bool_decide (outer_destination ≠ local_device) then false
  else match packet_addresses packet with
  | None => false
  | Some (source_address, destination_address) =>
      if negb (contains source_address (route_assigned_addresses source_route))
         && negb (peer_is_gateway_for_source network source_device source_address now)
      then false
      else
        let group_destination := is_group_destination network destination_address in
        if is_nil (device_uuid outer_destination) then group_destination
        else group_destination
             || contains destination_address (jn_assigned_addresses network)
             || local_device_is_gateway_for network local_device destination_address now
  end.
End directory.
