(* ===== verification/Observability.v ===== *)
(** * Observation of sessions
    ([meshlake-core/src/session_observation.rs] and
    [meshlaked/src/session_observability.rs])

    The coarse, bounded record of sessions that the local API reports.
    Instants are nanoseconds; [transport_revision] counts configurations. *)
From S2P Require Import Prelude Net Text Ext Model.
#[local] Open Scope Z_scope.

Definition SESSION_API_SCHEMA_VERSION : Z := 1.
Definition EXPIRED_OBSERVATION_TTL : Z := secs 300.
Definition MAX_EXPIRED_OBSERVATIONS : Z := 256.

Module SessionState.
Inductive t : Type := Pending | Established | Expired.
End SessionState.
Module SessionPath.
Inductive t : Type := Unknown | Direct | Relay | Turn | TlsRelay.
End SessionPath.
#[export] Instance SessionState_eq_dec : EqDecision SessionState.t.
Proof. solve_decision. Defined.
#[export] Instance SessionPath_eq_dec : EqDecision SessionPath.t.
Proof. solve_decision. Defined.

Record SessionQueueCounters : Type := mkSessionQueueCounters {
  qc_queued_packets : Z;
  qc_queue_capacity : Z;
  qc_dropped_packets : Z;
}.
Record SessionSecurityCounters : Type := mkSessionSecurityCounters {
  sec_handshake_attempts : Z;
  sec_handshake_retries : Z;
  sec_encrypted_packets_sent : Z;
  sec_authenticated_packets_received : Z;
  sec_rejected_packets_received : Z;
}.
Record SessionTelemetry : Type := mkSessionTelemetry {
  tel_state : SessionState.t;
  tel_path : SessionPath.t;
  tel_started_at : Z;
  tel_queue : SessionQueueCounters;
  tel_security : SessionSecurityCounters;
}.
Record StoredObservation : Type := mkStoredObservation {
  so_telemetry : SessionTelemetry;
  so_recorded_at : Z;
}.

Section observability.
Context `{UuidLib} `{HashOrder}.

Record ObservationState : Type := mkObservationState {
  obs_transport_revision : Z;
  obs_active : gmap (NetworkId * DeviceId) StoredObservation;
  obs_expired : gmap (NetworkId * DeviceId) StoredObservation;
}.
Definition ObservationState_default : ObservationState := mkObservationState 0 ∅ ∅.

Record SessionObservation : Type := mkSessionObservation {
  sob_network_id : NetworkId;
  sob_peer_device_id : DeviceId;
  sob_state : SessionState.t;
  sob_path : SessionPath.t;
  sob_age_ms : Z;
  sob_queue : SessionQueueCounters;
  sob_security : SessionSecurityCounters;
}.
Record SessionList : Type := mkSessionList {
  sl_schema_version : Z;
  sl_generated_at_unix_ms : Z;
  sl_transport_revision : Z;
  sl_sessions : list SessionObservation;
}.

Definition obs_reset (revision : Z) : ObservationState := mkObservationState revision ∅ ∅.
Definition clear_if_revision (s : ObservationState) (revision : Z) : ObservationState :=
  if obs_transport_revision s =? revision
  then mkObservationState (obs_transport_revision s) ∅ ∅ else s.

Definition publish (s : ObservationState) (revision : Z) (key : NetworkId * DeviceId)
    (telemetry : SessionTelemetry) (now : Z) : ObservationState :=
  if negb (obs_transport_revision s =? revision) then s
  else mkObservationState (obs_transport_revision s)
    (<[key := mkStoredObservation telemetry now]> (obs_active s)) (delete key (obs_expired s)).

(** The loop removes one entry per turn, so the size of the map is fuel enough. *)
Fixpoint trim_expired_loop (fuel : nat) (now : Z)
    (expired : gmap (NetworkId * DeviceId) StoredObservation)
    : gmap (NetworkId * DeviceId) StoredObservation :=
  match fuel with
  | O => expired
  | S fuel =>
      if MAX_EXPIRED_OBSERVATIONS <? Z.of_nat (size expired) then
        match max_by_key (λ '(_, o), duration_since now (so_recorded_at o))
                (hash_iter expired) with
        | Some (oldest, _) => trim_expired_loop fuel now (delete oldest expired)
        | None => expired
        end
      else expired
  end.
Definition trim_expired (now : Z) (expired : gmap (NetworkId * DeviceId) StoredObservation)
    : gmap (NetworkId * DeviceId) StoredObservation :=
  trim_expired_loop (size expired) now expired.

(** The tombstone an active observation leaves. *)
Definition tombstone (o : StoredObservation) (now : Z) : StoredObservation :=
  let t := so_telemetry o in
  mkStoredObservation
    (mkSessionTelemetry SessionState.Expired (tel_path t) (tel_started_at t)
       (mkSessionQueueCounters 0 (qc_queue_capacity (tel_queue t))
          (qc_dropped_packets (tel_queue t))) (tel_security t)) now.
Definition expire (s : ObservationState) (revision : Z) (key : NetworkId * DeviceId) (now : Z)
    : ObservationState :=
  if negb (obs_transport_revision s =? revision) then s
  else match obs_active s !! key with
  | None => s
  | Some observation =>
      mkObservationState (obs_transport_revision s) (delete key (obs_active s))
        (trim_expired now (<[key := tombstone observation now]> (obs_expired s)))
  end.

Definition obs_remove (s : ObservationState) (revision : Z) (key : NetworkId * DeviceId)
    : ObservationState :=
  if negb (obs_transport_revision s =? revision) then s
  else mkObservationState (obs_transport_revision s) (delete key (obs_active s))
    (delete key (obs_expired s)).

Definition session_observation (now : Z) (kv : (NetworkId * DeviceId) * StoredObservation)
    : SessionObservation :=
  let t := so_telemetry kv.2 in
  mkSessionObservation kv.1.1 kv.1.2 (tel_state t) (tel_path t)
    (Z.min (as_millis (duration_since now (tel_started_at t))) u64_max)
    (tel_queue t) (tel_security t).
Definition session_le (a b : SessionObservation) : bool :=
  if bool_decide (sob_network_id a = sob_network_id b)
  then uuid_le (device_uuid (sob_peer_device_id a)) (device_uuid (sob_peer_device_id b))
  else uuid_le (network_uuid (sob_network_id a)) (network_uuid (sob_network_id b)).
Definition snapshot (s : ObservationState) (now unix_ms : Z) : ObservationState * SessionList :=
  let expired := retain (λ _ o,
    duration_since now (so_recorded_at o) <=? EXPIRED_OBSERVATION_TTL) (obs_expired s) in
  (mkObservationState (obs_transport_revision s) (obs_active s) expired,
   mkSessionList SESSION_API_SCHEMA_VERSION (Z.min unix_ms u64_max) (obs_transport_revision s)
     (sort_by session_le (map (session_observation now)
        (hash_iter (obs_active s) ++ hash_iter expired)))).
End observability.
