(* ===== verification/TransportHealth.v ===== *)
(** * Registration schedule and endpoint health ([meshlaked/src/transport_health.rs])

    When the agent registers again with a root or relay, and which endpoints it
    takes to be alive.  Durations and instants are nanoseconds. *)
From S2P Require Import Prelude Net Text Ext Model.
#[local] Open Scope Z_scope.

Definition RELAY_ACKNOWLEDGEMENT_TTL : Z := secs 45.
Definition ROOT_RESPONSE_TTL : Z := secs 90.
Definition REGISTRATION_BASE_DELAY : Z := secs 20.
Definition REGISTRATION_MAX_DELAY : Z := secs 120.

(** ** [SocketAddr::to_string], as bytes *)
Definition digit (d : Z) : Z := if d <? 10 then 48 + d else 87 + d.
(** The digits of [n] in a base, most significant first, without leading zeros;
    [fuel] bounds their number. *)
Fixpoint digits (fuel : nat) (base n : Z) (acc : bytes) : bytes :=
  match fuel with
  | O => acc
  | S fuel =>
      let acc := digit (n mod base) :: acc in
      if n / base =? 0 then acc else digits fuel base (n / base) acc
  end.
Definition display_decimal (n : Z) : bytes := digits 20 10 n [].
Definition display_hex (n : Z) : bytes := digits 4 16 n [].
Fixpoint join (separator : bytes) (l : list bytes) : bytes :=
  match l with
  | [] => []
  | [x] => x
  | x :: l => x ++ separator ++ join separator l
  end.
Definition display_ipv4 (a : Z) : bytes := join [46] (map display_decimal (be_bytes 4 a)).
Definition ipv6_segments (a : Z) : list Z :=
  map (λ i, (a / 65536 ^ (7 - Z.of_nat i)) mod 65536) (seq 0 8).
(** The first longest run of zero segments: start and length. *)
Fixpoint longest_zeros (i : nat) (longest current : nat * nat) (l : list Z) : nat * nat :=
  match l with
  | [] => longest
  | s :: l =>
      if s =? 0 then
        let current := if (current.2 =? 0)%nat then (i, 1%nat) else (current.1, S current.2) in
        longest_zeros (S i) (if (longest.2 <? current.2)%nat then current else longest) current l
      else longest_zeros (S i) longest (0, 0)%nat l
  end.
Definition display_segments (l : list Z) : bytes := join [58] (map display_hex l).
Definition display_ipv6 (a : Z) : bytes :=
  if a / 2 ^ 32 =? 65535 then bytes_of_string "::ffff:" ++ display_ipv4 (a mod 2 ^ 32)
  else
    let l := ipv6_segments a in
    let '(start, n) := longest_zeros 0 (0, 0)%nat (0, 0)%nat l in
    if (1 <? n)%nat
    then display_segments (take start l) ++ [58; 58] ++ display_segments (drop (start + n) l)
    else display_segments l.
Definition display_socket (s : SocketAddr) : bytes :=
  match s with
  | SA4 ip port => display_ipv4 ip ++ [58] ++ display_decimal port
  | SA6 ip port _ scope_id =>
      [91] ++ display_ipv6 ip
        ++ (if scope_id =? 0 then [] else [37] ++ display_decimal scope_id)
        ++ [93; 58] ++ display_decimal port
  end.
Example display_socket_samples :
  display_socket (SA4 (from_be [192; 0; 2; 7]) 51820) = bytes_of_string "192.0.2.7:51820"
  ∧ display_socket (SA6 (0x20010db8 * 2 ^ 96 + 1) 80 0 0) = bytes_of_string "[2001:db8::1]:80"
  ∧ display_socket (SA6 0 65535 0 3) = bytes_of_string "[::%3]:65535"
  ∧ display_socket (SA6 (65535 * 2 ^ 32 + from_be [10; 0; 0; 1]) 1 0 0)
    = bytes_of_string "[::ffff:10.0.0.1]:1".
Proof. by vm_compute. Qed.

(** ** Retry delays *)
Definition FNV_OFFSET : Z := 0xcbf29ce484222325.
Definition FNV_PRIME : Z := 0x100000001b3.
Definition hash_byte (hash byte : Z) : Z := wrap64 (Z.lxor hash byte * FNV_PRIME).

Definition base_seconds (consecutive_failures : Z) : Z :=
  let exponent := Z.min consecutive_failures 3 in
  Z.min (Z.min (as_secs REGISTRATION_BASE_DELAY * Z.shiftl 1 exponent) u64_max)
    (as_secs REGISTRATION_MAX_DELAY).
Definition registration_retry_delay (seed : bytes) (consecutive_failures : Z) : Z :=
  let base := base_seconds consecutive_failures in
  let hash := foldl hash_byte (Z.lxor FNV_OFFSET consecutive_failures) seed in
  let jitter_limit := Z.max (base / 4) 1 in
  secs (Z.min (sat_add64 base (hash mod (jitter_limit + 1))) (as_secs REGISTRATION_MAX_DELAY)).

Inductive RegistrationServiceKind : Type := ServiceRoot | ServiceRelay.

Section transport_health.
Context `{UuidLib} `{HashOrder}.

Record RegistrationTarget : Type := mkRegistrationTarget {
  rt_network_id : NetworkId;
  rt_endpoint : SocketAddr;
  rt_kind : RegistrationServiceKind;
}.
Definition registration_seed (device_id : DeviceId) (target : RegistrationTarget) : bytes :=
  be_bytes 8 (foldl hash_byte FNV_OFFSET
    (device_bytes device_id ++ network_bytes (rt_network_id target)
       ++ display_socket (rt_endpoint target)
       ++ [match rt_kind target with ServiceRoot => 1 | ServiceRelay => 2 end])).

Record RegistrationSchedule : Type := mkRegistrationSchedule {
  rs_seed : bytes;
  rs_consecutive_failures : Z;
  rs_awaiting_since : option Z;
  rs_next_attempt : Z;
  rs_last_delay : Z;
}.
Definition schedule_new (device_id : DeviceId) (target : RegistrationTarget) (now : Z)
    : RegistrationSchedule :=
  mkRegistrationSchedule (registration_seed device_id target) 0 None now 0.
Definition is_due (s : RegistrationSchedule) (now : Z) : bool :=
  is_none (rs_awaiting_since s) && (rs_next_attempt s <=? now).
Definition mark_sent (s : RegistrationSchedule) (now : Z) : RegistrationSchedule :=
  mkRegistrationSchedule (rs_seed s) (rs_consecutive_failures s) (Some now) (rs_next_attempt s)
    (rs_last_delay s).
Definition schedule_next (s : RegistrationSchedule) (failures now : Z) : RegistrationSchedule :=
  let delay := registration_retry_delay (rs_seed s) failures in
  mkRegistrationSchedule (rs_seed s) failures None (now + delay) delay.
Definition mark_send_failure (s : RegistrationSchedule) (now : Z) : RegistrationSchedule :=
  schedule_next s (sat_add8 (rs_consecutive_failures s) 1) now.
Definition expire_if_timed_out (s : RegistrationSchedule) (now timeout : Z)
    : RegistrationSchedule * bool :=
  match rs_awaiting_since s with
  | None => (s, false)
  | Some sent =>
      if duration_since now sent <? timeout then (s, false)
      else (mark_send_failure s now, true)
  end.
Definition schedule_mark_success (s : RegistrationSchedule) (now : Z) : RegistrationSchedule :=
  schedule_next s 0 now.

(** ** Endpoint health, scoped by network *)
Record EndpointHealthTable : Type := mkEndpointHealthTable {
  eh_relay_acknowledgements : gmap (NetworkId * SocketAddr) Z;
  eh_root_responses : gmap (NetworkId * SocketAddr) Z;
}.
Definition EndpointHealthTable_default : EndpointHealthTable := mkEndpointHealthTable ∅ ∅.
Definition mark_relay_acknowledged (h : EndpointHealthTable) (network_id : NetworkId)
    (endpoint : SocketAddr) (now : Z) : EndpointHealthTable :=
  mkEndpointHealthTable (<[(network_id, endpoint) := now]> (eh_relay_acknowledgements h))
    (eh_root_responses h).
Definition mark_root_responsive (h : EndpointHealthTable) (network_id : NetworkId)
    (endpoint : SocketAddr) (now : Z) : EndpointHealthTable :=
  mkEndpointHealthTable (eh_relay_acknowledgements h)
    (<[(network_id, endpoint) := now]> (eh_root_responses h)).
Definition relay_is_healthy (h : EndpointHealthTable) (network_id : NetworkId)
    (endpoint : SocketAddr) (now : Z) : bool :=
  is_some_and (eh_relay_acknowledgements h !! (network_id, endpoint))
    (λ seen, duration_since now seen <? RELAY_ACKNOWLEDGEMENT_TTL).
Definition root_is_responsive (h : EndpointHealthTable) (network_id : NetworkId)
    (endpoint : SocketAddr) (now : Z) : bool :=
  is_some_and (eh_root_responses h !! (network_id, endpoint))
    (λ seen, duration_since now seen <? ROOT_RESPONSE_TTL).

Definition add_requirement (requirements : gmap SocketAddr (list NetworkId))
    (entry : NetworkId * SocketAddr) : gmap SocketAddr (list NetworkId) :=
  let networks := default [] (requirements !! entry.2) in
  <[entry.2 := if contains entry.1 networks then networks else networks ++ [entry.1]]>
    requirements.
Definition aggregate_configured_endpoints (configured : list (NetworkId * SocketAddr))
    (is_healthy : NetworkId → SocketAddr → bool) : list SocketAddr :=
  omap (λ '(endpoint, networks),
      if forallb (λ network_id, is_healthy network_id endpoint) networks
      then Some endpoint else None)
    (hash_iter (foldl add_requirement ∅ configured)).
Definition healthy_relay_endpoints (h : EndpointHealthTable)
    (configured : list (NetworkId * SocketAddr)) (now : Z) : list SocketAddr :=
  aggregate_configured_endpoints configured (λ n e, relay_is_healthy h n e now).
Definition responsive_root_endpoints (h : EndpointHealthTable)
    (configured : list (NetworkId * SocketAddr)) (now : Z) : list SocketAddr :=
  aggregate_configured_endpoints configured (λ n e, root_is_responsive h n e now).

(** The configured order is the priority order. *)
Definition select_relay_endpoint (network_id : NetworkId) (configured : list SocketAddr)
    (h : EndpointHealthTable) (now : Z) (require_authenticated_health : bool)
    : option SocketAddr :=
  match List.find (λ endpoint, relay_is_healthy h network_id endpoint now) configured with
  | Some endpoint => Some endpoint
  | None => if require_authenticated_health then None else head configured
  end.
End transport_health.
