(* ===== verification/SocketText.v ===== *)
(** * Reading an address from text: [str::parse] of [std::net::SocketAddr]

    The standard library's parser, on the bytes of the text: an IPv4 address of
    four decimal groups, or a bracketed IPv6 address with at most one run of
    omitted zeros and an optional scope, followed by a port. *)
From S2P Require Import Prelude Net Text TransportHealth.
#[local] Open Scope Z_scope.

(** A reader consumes a prefix of the input. *)
Definition reader (A : Type) : Type := bytes → option (A * bytes).

Definition digit_value (radix b : Z) : option Z :=
  let v := if is_ascii_digit b then b - 48
           else if is_ascii_lower b then b - 87
           else if is_ascii_upper b then b - 55 else radix in
  if v <? radix then Some v else None.
(** The digits that follow: their value and how many there are. *)
Fixpoint read_digits (radix : Z) (input : bytes) (value : Z) (count : nat) : Z * nat * bytes :=
  match input with
  | [] => (value, count, [])
  | b :: rest =>
      match digit_value radix b with
      | Some v => read_digits radix rest (value * radix + v) (S count)
      | None => (value, count, input)
      end
  end.
(** [read_number]: the limit is what the integer type holds. *)
Definition read_number (radix : Z) (max_digits : option nat) (zero_prefix : bool) (limit : Z)
    : reader Z := λ input,
  let '(value, count, rest) := read_digits radix input 0 0 in
  if (count =? 0)%nat
     || is_some_and max_digits (λ m, (m <? count)%nat)
     || (limit <=? value)
     || negb zero_prefix && (1 <? count)%nat && bool_decide (head input = Some 48)
  then None else Some (value, rest).
Definition read_char (c : Z) : reader unit := λ input,
  match input with b :: rest => if b =? c then Some (tt, rest) else None | [] => None end.
(** [read_separator]: nothing stands before the first group. *)
Definition read_separated {A} (separator : Z) (index : nat) (r : reader A) : reader A := λ input,
  match index with
  | O => r input
  | S _ => '(_, rest) ← read_char separator input; r rest
  end.

Fixpoint read_octets (n index : nat) (input : bytes) : option (bytes * bytes) :=
  match n with
  | O => Some ([], input)
  | S n =>
      '(o, rest) ← read_separated 46 index (read_number 10 (Some 3%nat) false 256) input;
      '(os, rest) ← read_octets n (S index) rest;
      Some (o :: os, rest)
  end.
Definition read_ipv4 : reader Z := λ input,
  '(octets, rest) ← read_octets 4 0 input; Some (from_be octets, rest).

(** [read_groups]: 16-bit groups, of which the last two may be written as an
    IPv4 address; [limit] groups fit. *)
Fixpoint read_groups (fuel limit index : nat) (input : bytes) : list Z * bool * bytes :=
  match fuel with
  | O => ([], false, input)
  | S fuel =>
      match (if (S index <? limit)%nat then read_separated 58 index read_ipv4 input else None) with
      | Some (a, rest) => ([a / 2 ^ 16; a mod 2 ^ 16], true, rest)
      | None =>
          match read_separated 58 index (read_number 16 (Some 4%nat) true 65536) input with
          | Some (g, rest) =>
              let '(gs, v4, rest) := read_groups fuel limit (S index) rest in (g :: gs, v4, rest)
          | None => ([], false, input)
          end
      end
  end.
Definition from_segments (l : list Z) : Z := fold_left (λ acc s, acc * 65536 + s) l 0.
Definition read_ipv6 : reader Z := λ input,
  let '(head, head_v4, rest) := read_groups 8 8 0 input in
  if (length head =? 8)%nat then Some (from_segments head, rest) else
  if head_v4 then None else
  '(_, rest) ← read_char 58 rest;
  '(_, rest) ← read_char 58 rest;
  let limit := (7 - length head)%nat in
  let '(tail, _, rest) := read_groups limit limit 0 rest in
  Some (from_segments (head ++ repeat 0 (8 - length head - length tail) ++ tail), rest).
Definition read_port : reader Z := λ input,
  '(_, rest) ← read_char 58 input; read_number 10 None true 65536 rest.
Definition read_scope : reader Z := λ input,
  '(_, rest) ← read_char 37 input; read_number 10 None true (2 ^ 32) rest.

Definition read_socket_v4 : reader SocketAddr := λ input,
  '(ip, rest) ← read_ipv4 input; '(port, rest) ← read_port rest; Some (SA4 ip port, rest).
Definition read_socket_v6 : reader SocketAddr := λ input,
  '(_, rest) ← read_char 91 input;
  '(ip, rest) ← read_ipv6 rest;
  let '(scope, rest) := default (0, rest) (read_scope rest) in
  '(_, rest) ← read_char 93 rest;
  '(port, rest) ← read_port rest;
  Some (SA6 ip port 0 scope, rest).
(** The whole text has to be read. *)
Definition parse_socket (text : string) : option SocketAddr :=
  let input := bytes_of_string text in
  match match read_socket_v4 input with Some r => Some r | None => read_socket_v6 input end with
  | Some (s, []) => Some s
  | _ => None
  end.

Example parse_socket_samples :
  parse_socket "192.0.2.7:51820" = Some (SA4 (from_be [192; 0; 2; 7]) 51820)
  ∧ parse_socket "[2001:db8::1]:80" = Some (SA6 (0x20010db8 * 2 ^ 96 + 1) 80 0 0)
  ∧ parse_socket "[::%3]:65535" = Some (SA6 0 65535 0 3)
  ∧ parse_socket "[::ffff:10.0.0.1]:1" = Some (SA6 (65535 * 2 ^ 32 + from_be [10; 0; 0; 1]) 1 0 0)
  ∧ parse_socket "[1:2:3:4:5:6:7:8]:9"
    = Some (SA6 (from_segments [1; 2; 3; 4; 5; 6; 7; 8]) 9 0 0)
  ∧ parse_socket "10.0.0.01:1" = None ∧ parse_socket "10.0.0.1:65536" = None
  ∧ parse_socket "10.0.0.1" = None ∧ parse_socket "[::1]:1 " = None.
Proof. by vm_compute. Qed.
