(* ===== verification/LinuxAdapter.v ===== *)
(** * The Linux adapter ([meshlaked/src/adapter/linux.rs])

    The TUN session, the plans applied to the system, and the commands that
    apply and remove them.  A command is run by the system: whether it succeeds
    may depend on everything run before it, so the adapter carries the commands
    it has run, and the environment says how each of them ends. *)
From S2P Require Import Prelude Net Text Ext Model ServiceIdentity Membership Authorization.
From S2P Require Import Planet Policy Joined ExitGateway PolicyPlan TransportHealth Request.
From Stdlib Require Import Ascii.
#[local] Open Scope Z_scope.

Definition INTERFACE_NAME : string := "meshlake0".
Definition display_ip (a : IpAddr) : string :=
  of_bytes (match a with V4 a => display_ipv4 a | V6 a => display_ipv6 a end).
Definition display_number (n : Z) : string := of_bytes (display_decimal n).

Record LinuxPolicyCommand : Type := mkLinuxPolicyCommand {
  lc_program : string;
  lc_arguments : list string;
}.
#[export] Instance LinuxPolicyCommand_eq_dec : EqDecision LinuxPolicyCommand.
Proof. solve_decision. Defined.

Inductive Operation : Type := Apply | Remove.

(** ** The kill switch rules *)
Definition family_name (ipv6 : bool) : string := if ipv6 then "v6" else "v4".
Definition rule_operation (op : Operation) (apply : string) : string :=
  match op with Apply => apply | Remove => "-D" end.
Definition overlay_rule (program : string) (ipv6 : bool) (op : Operation) : LinuxPolicyCommand :=
  mkLinuxPolicyCommand program
    ["-w"; rule_operation op "-I"; "OUTPUT"; "-o"; INTERFACE_NAME; "-m"; "comment"; "--comment";
     "meshlake:killswitch:" ++ family_name ipv6 ++ ":overlay"; "-j"; "ACCEPT"]%string.
Definition bootstrap_rule (program : string) (ipv6 : bool) (op : Operation) (e : BootstrapEndpoint)
    : LinuxPolicyCommand :=
  mkLinuxPolicyCommand program
    ["-w"; rule_operation op "-I"; "OUTPUT"; "-d"; display_ip (socket_ip (be_endpoint e)); "-p";
     match be_transport e with BootstrapTcp => "tcp" | BootstrapUdp => "udp" end; "--dport";
     display_number (socket_port (be_endpoint e)); "-m"; "comment"; "--comment";
     "meshlake:killswitch:" ++ family_name ipv6 ++ ":bootstrap"; "-j"; "ACCEPT"]%string.
Definition block_rule (program : string) (ipv6 : bool) (op : Operation) : LinuxPolicyCommand :=
  mkLinuxPolicyCommand program
    ["-w"; rule_operation op "-A"; "OUTPUT"; "!"; "-o"; INTERFACE_NAME; "-m"; "addrtype"; "!";
     "--dst-type"; "LOCAL"; "-m"; "comment"; "--comment";
     "meshlake:killswitch:" ++ family_name ipv6 ++ ":block"; "-j"; "REJECT"]%string.
Definition family_rules (plan : KillSwitchPlan) (op : Operation) (family : string * bool)
    : list LinuxPolicyCommand :=
  let '(program, ipv6) := family in
  [overlay_rule program ipv6 op]
  ++ map (bootstrap_rule program ipv6 op)
       (List.filter (λ e, Bool.eqb (is_ipv6 (socket_ip (be_endpoint e))) ipv6)
          (kp_bootstrap_endpoints plan))
  ++ [block_rule program ipv6 op].
Definition linux_kill_switch_commands (plan : KillSwitchPlan) (op : Operation)
    : list LinuxPolicyCommand :=
  if negb (kp_enabled plan) then []
  else concat (map (family_rules plan op) [("iptables", false); ("ip6tables", true)]%string).

Section linux_adapter.
Context `{UuidLib} `{Ed25519} `{IpNetLib} `{!UuidText}.
Context `{!MembershipSerde} `{!AuthorizationSerde} `{!PolicySerde}.

(** ** Routes and DNS *)
Definition route_command (op : Operation) (route : PlannedRoute) : LinuxPolicyCommand :=
  mkLinuxPolicyCommand "ip"
    ["route"; match op with Apply => "replace" | Remove => "del" end; pl_prefix route; "dev";
     INTERFACE_NAME]%string.
Definition dns_commands (plan : PolicyPlan) (op : Operation) : list LinuxPolicyCommand :=
  if is_empty (pp_dns_servers plan) then [] else
  match op with
  | Apply =>
      let exits := negb (is_empty (pp_exit_routes plan)) in
      let domains := pp_search_domains plan ++ (if exits then ["~."%string] else []) in
      [mkLinuxPolicyCommand "resolvectl"
         ("dns"%string :: INTERFACE_NAME :: map display_ip (pp_dns_servers plan))]
      ++ (if is_empty domains then []
          else [mkLinuxPolicyCommand "resolvectl" ("domain"%string :: INTERFACE_NAME :: domains)])
      ++ [mkLinuxPolicyCommand "resolvectl"
            ["default-route"; INTERFACE_NAME; if exits then "yes" else "no"]%string]
  | Remove => [mkLinuxPolicyCommand "resolvectl" ["revert"; INTERFACE_NAME]%string]
  end.
Definition linux_policy_commands (plan : PolicyPlan) (op : Operation) : list LinuxPolicyCommand :=
  map (route_command op) (pp_routes plan ++ pp_exit_routes plan) ++ dns_commands plan op.

(** ** Forwarding for exit gateways *)
Definition gateway_comment (route : GatewayRoute) : string :=
  ("meshlake:" ++ uuid_to_string (network_uuid (gr_network_id route)) ++ ":"
   ++ family_name (gr_ipv6 route))%string.
Definition gateway_program (route : GatewayRoute) : string :=
  if gr_ipv6 route then "ip6tables" else "iptables".
Definition gateway_rules (op : Operation) (route : GatewayRoute) : list LinuxPolicyCommand :=
  let program := gateway_program route in
  let operation := rule_operation op "-A" in
  let comment := gateway_comment route in
  let prefix := gr_prefix route in let egress := gr_egress_interface route in
  [mkLinuxPolicyCommand program
     ["-w"; "-t"; "nat"; operation; "POSTROUTING"; "-s"; prefix; "-o"; egress; "-m"; "comment";
      "--comment"; comment; "-j"; "MASQUERADE"]%string;
   mkLinuxPolicyCommand program
     ["-w"; operation; "FORWARD"; "-i"; INTERFACE_NAME; "-o"; egress; "-s"; prefix; "-m";
      "conntrack"; "--ctstate"; "NEW,ESTABLISHED,RELATED"; "-m"; "comment"; "--comment"; comment;
      "-j"; "ACCEPT"]%string;
   mkLinuxPolicyCommand program
     ["-w"; operation; "FORWARD"; "-i"; egress; "-o"; INTERFACE_NAME; "-d"; prefix; "-m";
      "conntrack"; "--ctstate"; "ESTABLISHED,RELATED"; "-m"; "comment"; "--comment"; comment;
      "-j"; "ACCEPT"]%string].
Definition forwarding_command (ipv6 : bool) : LinuxPolicyCommand :=
  mkLinuxPolicyCommand "sysctl"
    ["-w"; if ipv6 then "net.ipv6.conf.all.forwarding=1" else "net.ipv4.ip_forward=1"]%string.
(** The families whose forwarding an earlier route has switched on. *)
Fixpoint gateway_commands_from (op : Operation) (enabled : list bool) (routes : list GatewayRoute)
    : list LinuxPolicyCommand :=
  match routes with
  | [] => []
  | route :: routes =>
      match op with
      | Apply =>
          if contains (gr_ipv6 route) enabled
          then gateway_rules op route ++ gateway_commands_from op enabled routes
          else forwarding_command (gr_ipv6 route) :: gateway_rules op route
               ++ gateway_commands_from op (gr_ipv6 route :: enabled) routes
      | Remove => gateway_rules op route ++ gateway_commands_from op enabled routes
      end
  end.
Definition linux_exit_gateway_commands (plan : ExitGatewayPlan) (op : Operation)
    : list LinuxPolicyCommand := gateway_commands_from op [] (gp_routes plan).

(** ** Addresses *)
Inductive AddressError : Type :=
| InvalidPrefix | OutsidePrefix | NoIpv6Prefix | AddressReused | ConflictingPrefix.
Record PlannedAddress : Type := mkPlannedAddress { pa_address : IpAddr; pa_prefix_length : Z }.
Definition assigned_prefix_length (joined : JoinedNetwork) (address : IpAddr)
    : result AddressError Z :=
  match address with
  | V4 a =>
      prefix ← ok_or (parse_ipv4net (vn_ipv4_prefix (jn_network joined))) InvalidPrefix;
      bail_if (negb (v4_contains prefix a)) OutsidePrefix ;;
      Ok (v4_prefix_len prefix)
  | V6 a =>
      raw ← ok_or (vn_ipv6_prefix (jn_network joined)) NoIpv6Prefix;
      prefix ← ok_or (parse_ipv6net raw) InvalidPrefix;
      bail_if (negb (v6_contains prefix a)) OutsidePrefix ;;
      Ok (v6_prefix_len prefix)
  end.
Abbreviation address_map := (gmap IpAddr (NetworkId * Z)).
Definition plan_address (joined : JoinedNetwork) (addresses : address_map) (address : IpAddr)
    : result AddressError address_map :=
  prefix_length ← assigned_prefix_length joined address;
  match addresses !! address with
  | Some (existing_network, existing_prefix) =>
      bail_if (bool_decide (existing_network ≠ jn_id joined)) AddressReused ;;
      bail_if (negb (existing_prefix =? prefix_length)) ConflictingPrefix ;;
      Ok addresses
  | None => Ok (<[address := (jn_id joined, prefix_length)]> addresses)
  end.
Definition plan_network_addresses (addresses : address_map) (joined : JoinedNetwork)
    : result AddressError address_map :=
  try_foldl (plan_address joined) addresses (jn_assigned_addresses joined).
Definition planned_addresses (networks : list JoinedNetwork)
    : result AddressError (list PlannedAddress) :=
  addresses ← try_foldl plan_network_addresses ∅ networks;
  Ok (map (λ e, mkPlannedAddress e.1 e.2.2)
        (sort_by (λ a b, ip_le a.1 b.1) (map_to_list addresses))).
Definition address_argument (op : Operation) : string :=
  match op with Apply => "replace" | Remove => "del" end.
Definition address_command (op : Operation) (planned : PlannedAddress) : LinuxPolicyCommand :=
  mkLinuxPolicyCommand "ip"
    ["address"; address_argument op;
     display_ip (pa_address planned) ++ "/" ++ display_number (pa_prefix_length planned); "dev";
     INTERFACE_NAME]%string.
Definition address_commands (networks : list JoinedNetwork) (op : Operation)
    : result AddressError (list LinuxPolicyCommand) :=
  planned ← planned_addresses networks; Ok (map (address_command op) planned).
Definition interface_up_command : LinuxPolicyCommand :=
  mkLinuxPolicyCommand "ip" ["link"; "set"; "dev"; INTERFACE_NAME; "up"]%string.

(** ** The adapter *)
Inductive AdapterError : Type :=
| NotActive | DeviceUnavailable | CommandsFailed | PlanRejected (e : PlanError)
| AddressesRejected (e : AddressError) | RestoredPrevious | DisabledFailClosed.
Record Adapter : Type := mkAdapter {
  ad_active : bool;
  ad_policy : PolicyPlan;
  ad_gateways : ExitGatewayPlan;
  ad_kill_switch : KillSwitchPlan;
  ad_log : list LinuxPolicyCommand;
}.
Definition Adapter_new : Adapter :=
  mkAdapter false PolicyPlan_default ExitGatewayPlan_default KillSwitchPlan_default [].
(** The system: the outcome of a command after others, whether the device
    opens, and the clock. *)
Record AdapterEnv : Type := mkAdapterEnv {
  ae_execute : list LinuxPolicyCommand → LinuxPolicyCommand → bool;
  ae_open_device : list LinuxPolicyCommand → bool;
  ae_now : Z;
}.
Abbreviation adapter_op := (handler Adapter AdapterError).

Definition with_active (a : Adapter) (active : bool) : Adapter :=
  mkAdapter active (ad_policy a) (ad_gateways a) (ad_kill_switch a) (ad_log a).
Definition with_applied_policy (a : Adapter) (plan : PolicyPlan) : Adapter :=
  mkAdapter (ad_active a) plan (ad_gateways a) (ad_kill_switch a) (ad_log a).
Definition with_gateways (a : Adapter) (plan : ExitGatewayPlan) : Adapter :=
  mkAdapter (ad_active a) (ad_policy a) plan (ad_kill_switch a) (ad_log a).
Definition with_kill_switch (a : Adapter) (plan : KillSwitchPlan) : Adapter :=
  mkAdapter (ad_active a) (ad_policy a) (ad_gateways a) plan (ad_log a).

Definition run_command (env : AdapterEnv) (c : LinuxPolicyCommand) : adapter_op unit := λ a,
  (if ae_execute env (ad_log a) c then Ok tt else Err CommandsFailed,
   mkAdapter (ad_active a) (ad_policy a) (ad_gateways a) (ad_kill_switch a) (ad_log a ++ [c])).
(** Every command is run, and the failures are collected. *)
Fixpoint run_linux_policy_commands (env : AdapterEnv) (cs : list LinuxPolicyCommand)
    : adapter_op unit :=
  match cs with
  | [] => mret tt
  | c :: cs =>
      r1 ← attempt (run_command env c);
      r2 ← attempt (run_linux_policy_commands env cs);
      lift (if is_ok r1 && is_ok r2 then Ok tt else Err CommandsFailed)
  end.
(** Commands up to the first failure. *)
Fixpoint run_until_failure (env : AdapterEnv) (cs : list LinuxPolicyCommand) : adapter_op unit :=
  match cs with
  | [] => mret tt
  | c :: cs => run_command env c ;; run_until_failure env cs
  end.
Fixpoint run_ignoring_failures (env : AdapterEnv) (cs : list LinuxPolicyCommand)
    : adapter_op unit :=
  match cs with
  | [] => mret tt
  | c :: cs => attempt (run_command env c) ;; run_ignoring_failures env cs
  end.

Definition activate (env : AdapterEnv) : adapter_op unit :=
  a ← read;
  if ad_active a then mret tt else
  lift (bail_if (negb (ae_open_device env (ad_log a))) DeviceUnavailable) ;;
  run_command env interface_up_command ;;
  a ← read;
  write (with_active a true).
Definition rollback_policy (env : AdapterEnv) : adapter_op unit :=
  a ← read;
  r ← attempt (run_linux_policy_commands env (linux_policy_commands (ad_policy a) Remove));
  a ← read;
  write (with_applied_policy a PolicyPlan_default) ;;
  lift r.
Definition rollback_exit_gateways (env : AdapterEnv) : adapter_op unit :=
  a ← read;
  r ← attempt (run_linux_policy_commands env (linux_exit_gateway_commands (ad_gateways a) Remove));
  a ← read;
  write (with_gateways a ExitGatewayPlan_default) ;;
  lift r.
Definition rollback_kill_switch (env : AdapterEnv) : adapter_op unit :=
  a ← read;
  r ← attempt (run_linux_policy_commands env (linux_kill_switch_commands (ad_kill_switch a) Remove));
  a ← read;
  write (with_kill_switch a KillSwitchPlan_default) ;;
  lift r.
Definition deactivate (env : AdapterEnv) : adapter_op unit :=
  attempt (rollback_kill_switch env) ;;
  attempt (rollback_exit_gateways env) ;;
  attempt (rollback_policy env) ;;
  a ← read;
  write (with_active a false).

(** Replacing a set of rules, by removing the previous ones first. *)
Definition replace_rules (env : AdapterEnv) (previous desired : Operation → list LinuxPolicyCommand)
    (install : Adapter → Adapter) : adapter_op unit :=
  r ← attempt (run_linux_policy_commands env (previous Remove) ;;
               run_linux_policy_commands env (desired Apply));
  if is_ok (r : result AdapterError unit) then
    a ← read; write (install a)
  else
    cleanup ← attempt (run_linux_policy_commands env (desired Remove));
    restore ← attempt (run_linux_policy_commands env (previous Apply));
    if negb (is_ok (cleanup : result AdapterError unit)) || negb (is_ok (restore : result AdapterError unit))
    then a ← read; write (with_active a false) ;; lift (Err DisabledFailClosed)
    else lift (Err RestoredPrevious).
Definition configure_exit_gateways (env : AdapterEnv) (desired : ExitGatewayPlan)
    : adapter_op unit :=
  a ← read;
  lift (bail_if (negb (ad_active a)) NotActive) ;;
  if bool_decide (ad_gateways a = desired) then mret tt else
  replace_rules env (linux_exit_gateway_commands (ad_gateways a))
    (linux_exit_gateway_commands desired) (λ a, with_gateways a desired).
Definition configure_kill_switch (env : AdapterEnv) (desired : KillSwitchPlan) : adapter_op unit :=
  a ← read;
  lift (bail_if (negb (ad_active a)) NotActive) ;;
  if bool_decide (ad_kill_switch a = desired) then mret tt else
  replace_rules env (linux_kill_switch_commands (ad_kill_switch a))
    (linux_kill_switch_commands desired) (λ a, with_kill_switch a desired).
Definition reconcile_policy (env : AdapterEnv) (desired : PolicyPlan) : adapter_op unit :=
  a ← read;
  let previous := ad_policy a in
  if bool_decide (previous = desired) then mret tt else
  let run plan op := run_linux_policy_commands env (linux_policy_commands plan op) in
  r ← attempt (apply_policy_transaction (run previous Remove) (run desired Apply)
                 (run desired Remove) (run previous Apply));
  a ← read;
  write (with_applied_policy a (finalize_policy_transaction previous desired r)) ;;
  match r with
  | Ok _ => mret tt
  | Err FailClosed => a ← read; write (with_active a false) ;; lift (Err DisabledFailClosed)
  | Err RolledBack => lift (Err RestoredPrevious)
  end.
Definition configure_policy (env : AdapterEnv) (networks : list JoinedNetwork) : adapter_op unit :=
  plan ← lift (map_err PlanRejected (policy_plan networks (ae_now env)));
  a ← read;
  if negb (ad_active a) then mret tt else reconcile_policy env plan.
Definition configure_networks (env : AdapterEnv) (networks : list JoinedNetwork)
    : adapter_op unit :=
  a ← read;
  lift (bail_if (negb (ad_active a)) NotActive) ;;
  commands ← lift (map_err AddressesRejected (address_commands networks Apply));
  run_until_failure env commands ;;
  configure_policy env networks.
Definition remove_network (env : AdapterEnv) (joined : JoinedNetwork) : adapter_op unit :=
  a ← read;
  if negb (ad_active a) then mret tt else
  commands ← lift (map_err AddressesRejected (address_commands [joined] Remove));
  run_ignoring_failures env commands.
End linux_adapter.
