(* ===== verification/ControlUrl.v ===== *)
(** * Addresses of a controller ([meshlaked/src/main.rs])

    The checks on a URL or a pinned certificate bundle the operator gives, and
    the resolution of the endpoints the kill switch leaves reachable.  Parsing a
    URL, decoding base64 and PEM and resolving a name are third-party code or
    the system's, so they are interfaces. *)
From S2P Require Import Prelude Net Text Ext Model ExitGateway Request.
From Stdlib Require Import Ascii.
#[local] Open Scope Z_scope.

(** ** The crates [url], [base64] and [reqwest] *)
Class UrlLib := {
  Url : Type;
  url_parse : string → option Url;
  url_scheme : Url → string;
  url_host_str : Url → option string;
  url_username : Url → string;
  url_password : Url → option string;
  url_query : Url → option string;
  url_fragment : Url → option string;
  url_path : Url → string;
  url_set_path : Url → string → Url;
  url_to_string : Url → string;
  url_port_or_known_default : Url → option Z;
}.
Class ClientLib := {
  base64_decode : string → option bytes;
  (** [Certificate::from_pem_bundle]: how many certificates the bundle holds. *)
  pem_bundle : string → option nat;
  (** Whether a client with a bundle can be built. *)
  client_build : option string → bool;
}.

(** [ControlError]: the status of the agent's [ApiError], or an error of an internal task; the
    messages are not modelled. *)
Inductive ControlError : Type :=
| AgentBadRequest | AgentConflict | AgentNotFound | AgentInternal | AgentFailed.
#[export] Instance ControlError_eq_dec : EqDecision ControlError.
Proof. solve_decision. Defined.
Definition bad_request {E A} (r : result E A) : result ControlError A :=
  map_err (λ _, AgentBadRequest) r.
Definition internal {E A} (r : result E A) : result ControlError A :=
  map_err (λ _, AgentInternal) r.
Definition failed {E A} (r : result E A) : result ControlError A := map_err (λ _, AgentFailed) r.

Section control_url.
Context `{UrlLib} `{ClientLib}.

Definition is_https (url : string) : bool := str_starts_with "https://" url.
Definition is_http_scheme (scheme : string) : bool :=
  bool_decide (scheme = "https"%string) || bool_decide (scheme = "http"%string).
Definition normalized_path (url : Url) : Url :=
  let url := if ends_with "/" (url_path url) && bool_decide (url_path url ≠ "/"%string)
             then url_set_path url (trim_end_matches "/" (url_path url)) else url in
  if bool_decide (url_path url = "/"%string) then url_set_path url "" else url.
Definition normalize_http_url (value : string) : result ControlError string :=
  let value := trim value in
  '(raw_scheme, authority_and_path) ← ok_or (split_once "://" value) AgentBadRequest;
  let raw_authority := before_any ["/"; "?"; "#"]%char authority_and_path in
  bail_if (negb (is_http_scheme (to_ascii_lowercase raw_scheme))
           || str_is_empty authority_and_path
           || str_starts_with "/" authority_and_path
           || str_contains "\" value
           || str_contains "@" raw_authority) AgentBadRequest ;;
  url ← ok_or (url_parse value) AgentBadRequest;
  bail_if (negb (is_http_scheme (url_scheme url))) AgentBadRequest ;;
  bail_if (is_none (url_host_str url)) AgentBadRequest ;;
  bail_if (negb (str_is_empty (url_username url)) || is_some (url_password url)) AgentBadRequest ;;
  bail_if (is_some (url_query url) || is_some (url_fragment url)) AgentBadRequest ;;
  Ok (trim_end_matches "/" (url_to_string (normalized_path url))).

(** [value.map(str::trim).filter(|v| !v.is_empty())] *)
Definition trimmed (value : option string) : option string :=
  match value with
  | Some v => if str_is_empty (trim v) then None else Some (trim v)
  | None => None
  end.
Definition normalize_tls_ca_pem (value : option string) : result ControlError (option string) :=
  match trimmed value with
  | None => Ok None
  | Some value =>
      bail_if (65536 <? str_len value) AgentBadRequest ;;
      certificates ← ok_or (pem_bundle value) AgentBadRequest;
      bail_if (certificates =? 0)%nat AgentBadRequest ;;
      Ok (Some (trim_end_with whitespace_encodings value ++ String (ascii_of 10) EmptyString)%string)
  end.
Definition controller_http_client (tls_ca_pem : option string) : result ControlError unit :=
  match tls_ca_pem with
  | Some pem =>
      certificates ← ok_or (pem_bundle pem) AgentFailed;
      bail_if (certificates =? 0)%nat AgentFailed
  | None => Ok tt
  end ;;
  bail_if (negb (client_build tls_ca_pem)) AgentFailed.

(** [resolve]: the system's answer for a host and a port. *)
Definition resolve_kill_switch_url (resolve : string → Z → option (list SocketAddr)) (url : string)
    : result ControlError (list BootstrapEndpoint) :=
  parsed ← ok_or (url_parse url) AgentFailed;
  host ← ok_or (url_host_str parsed) AgentFailed;
  port ← ok_or (url_port_or_known_default parsed) AgentFailed;
  addresses ← ok_or (resolve host port) AgentFailed;
  bail_if (is_empty addresses) AgentFailed ;;
  Ok (map (λ endpoint, mkBootstrapEndpoint endpoint BootstrapTcp) addresses).
End control_url.
