(* ===== verification/StateBackup.v ===== *)
(** * Password-protected state backups ([meshlake-core/src/state_backup.rs])

    The Unix build. *)
From S2P Require Import Prelude Request Text Ext FileSystem StateProtection StateFile.
From Stdlib Require Import Ascii.
#[local] Open Scope Z_scope.

Definition FORMAT_NAME : string := "meshlake-state-backup".
Definition FORMAT_VERSION : Z := 1.
Definition KDF_NAME : string := "argon2id".
Definition KDF_VERSION : Z := 19.
Definition KDF_MEMORY_KIB : Z := 19456.
Definition KDF_ITERATIONS : Z := 2.
Definition KDF_PARALLELISM : Z := 1.
Definition CIPHER_NAME : string := "xchacha20poly1305".
Definition SALT_LEN : nat := 16.
Definition NONCE_LEN : nat := 24.

Inductive StateBackupKind : Type := AgentBackup | ControllerBackup.
#[export] Instance StateBackupKind_eq_dec : EqDecision StateBackupKind.
Proof. solve_decision. Defined.
Record KdfHeader : Type := mkKdfHeader {
  kh_algorithm : string;
  kh_version : Z;
  kh_memory_kib : Z;
  kh_iterations : Z;
  kh_parallelism : Z;
  kh_salt_base64 : string;
}.
Record CipherHeader : Type := mkCipherHeader { ch_algorithm : string; ch_nonce_base64 : string }.
Record BackupEnvelope : Type := mkBackupEnvelope {
  be_format : string;
  be_format_version : Z;
  be_state_kind : StateBackupKind;
  be_kdf : KdfHeader;
  be_cipher : CipherHeader;
  be_ciphertext_base64 : string;
}.
Record AssociatedData : Type := mkAssociatedData {
  ad_format : string;
  ad_format_version : Z;
  ad_state_kind : StateBackupKind;
  ad_kdf : KdfHeader;
  ad_cipher : CipherHeader;
}.
Inductive StateBackupError : Type :=
| EmptyPassword | InvalidFormat | UnsupportedBackupVersion (version : Z)
| StateKindMismatch (expected actual : StateBackupKind) | UnsupportedKdf | UnsupportedCipher
| KeyDerivation | AuthenticationFailed | InvalidState | BackupRandomness | DestinationExists
| ReservedStatePath | BackupStateFile (e : StateFileError) | BackupIo (kind : IoErrorKind).

(** [argon2]'s Argon2id with the parameters of the code: password and salt to a
    key of 32 bytes. *)
Class Argon2Lib := { argon2id : bytes → bytes → option bytes }.

Section backup.
Context `{UuidLib} `{!UuidText} `{StateLib} `{Argon2Lib}.
Context `{!Serde BackupEnvelope} `{!Serde AssociatedData}.

Definition require_password (password : bytes) : result StateBackupError unit :=
  bail_if (is_empty password) EmptyPassword.
Definition decode_fixed (n : nat) (value : string) : result StateBackupError bytes :=
  decoded ← ok_or (base64_decode value) InvalidFormat;
  ok_or (try_into n decoded) InvalidFormat.
Definition derive_key (password salt : bytes) : result StateBackupError bytes :=
  ok_or (argon2id password salt) KeyDerivation.
Definition serialize_associated_data (kind : StateBackupKind) (kdf : KdfHeader)
    (cipher : CipherHeader) : result StateBackupError bytes :=
  ok_or (to_vec (mkAssociatedData FORMAT_NAME FORMAT_VERSION kind kdf cipher)) InvalidFormat.
Definition kdf_supported (kdf : KdfHeader) : bool :=
  bool_decide (kh_algorithm kdf = KDF_NAME) && (kh_version kdf =? KDF_VERSION)
  && (kh_memory_kib kdf =? KDF_MEMORY_KIB) && (kh_iterations kdf =? KDF_ITERATIONS)
  && (kh_parallelism kdf =? KDF_PARALLELISM).
Definition validate_envelope (envelope : BackupEnvelope) (expected : StateBackupKind)
    : result StateBackupError unit :=
  bail_if (bool_decide (be_format envelope ≠ FORMAT_NAME)) InvalidFormat ;;
  bail_if (negb (be_format_version envelope =? FORMAT_VERSION))
    (UnsupportedBackupVersion (be_format_version envelope)) ;;
  bail_if (bool_decide (be_state_kind envelope ≠ expected))
    (StateKindMismatch expected (be_state_kind envelope)) ;;
  bail_if (negb (kdf_supported (be_kdf envelope))) UnsupportedKdf ;;
  bail_if (bool_decide (ch_algorithm (be_cipher envelope) ≠ CIPHER_NAME)) UnsupportedCipher.
(** The salt and the nonce drawn from the system are arguments. *)
Definition encode_state_backup {T} `{!Serde T} (salt nonce : option bytes) (state : T)
    (password : bytes) (kind : StateBackupKind) : result StateBackupError bytes :=
  require_password password ;;
  plaintext ← ok_or (to_vec state) InvalidState;
  salt ← ok_or salt BackupRandomness;
  nonce ← ok_or nonce BackupRandomness;
  let kdf := mkKdfHeader KDF_NAME KDF_VERSION KDF_MEMORY_KIB KDF_ITERATIONS KDF_PARALLELISM
               (base64_encode salt) in
  let cipher := mkCipherHeader CIPHER_NAME (base64_encode nonce) in
  associated_data ← serialize_associated_data kind kdf cipher;
  key ← derive_key password salt;
  ciphertext ← ok_or (xchacha_encrypt key nonce associated_data plaintext) AuthenticationFailed;
  ok_or (to_vec (mkBackupEnvelope FORMAT_NAME FORMAT_VERSION kind kdf cipher
                   (base64_encode ciphertext))) InvalidFormat.
Definition decode_state_backup {T} `{!Serde T} (bs password : bytes) (expected : StateBackupKind)
    : result StateBackupError T :=
  require_password password ;;
  envelope ← ok_or (from_slice bs) InvalidFormat;
  validate_envelope envelope expected ;;
  salt ← decode_fixed SALT_LEN (kh_salt_base64 (be_kdf envelope));
  nonce ← decode_fixed NONCE_LEN (ch_nonce_base64 (be_cipher envelope));
  ciphertext ← ok_or (base64_decode (be_ciphertext_base64 envelope)) InvalidFormat;
  associated_data ← serialize_associated_data (be_state_kind envelope) (be_kdf envelope)
                      (be_cipher envelope);
  key ← derive_key password salt;
  plaintext ← ok_or (xchacha_decrypt key nonce associated_data ciphertext) AuthenticationFailed;
  ok_or (from_slice plaintext) InvalidState.

(** ** Where a backup may be *)
Definition absolute_path (at_ : location) : list Component := RootDir :: map Normal at_.
Definition path_text (at_ : location) : string := ("/" ++ String.concat "/" at_)%string.
Definition backup_io {A} (m : io A) : state_op StateBackupError A := convert BackupIo m.
Fixpoint resolve_components (kn : Kernel) (resolved : location) (path : list Component)
    : state_op StateBackupError location :=
  match path with
  | [] => mret resolved
  | RootDir :: rest => resolve_components kn [] rest
  | CurDir :: rest => resolve_components kn resolved rest
  | ParentDir :: rest => resolve_components kn (removelast resolved) rest
  | Normal name :: rest =>
      let candidate := resolved ++ [name] in
      r ← attempt (symlink_metadata kn (absolute_path candidate));
      match (r : result IoErrorKind Metadata) with
      | Ok _ =>
          resolved ← backup_io (canonicalize kn (absolute_path candidate));
          resolve_components kn resolved rest
      | Err NotFound => resolve_components kn candidate rest
      | Err e => lift (Err (BackupIo e))
      end
  end.
Definition resolve_path_with_missing_components (kn : Kernel) (path : string)
    : state_op StateBackupError location :=
  resolve_components kn (if is_absolute (components path) then [] else kn_cwd kn) (components path).
Fixpoint check_reserved (kn : Kernel) (backup : location) (reserved : list string)
    : state_op StateBackupError unit :=
  match reserved with
  | [] => mret tt
  | path :: reserved =>
      r ← resolve_path_with_missing_components kn path;
      lift (bail_if (bool_decide (backup = r)) ReservedStatePath) ;;
      check_reserved kn backup reserved
  end.
Definition resolve_state_backup_path (kn : Kernel) (state_path backup_file : string)
    : state_op StateBackupError location :=
  backup ← resolve_path_with_missing_components kn backup_file;
  check_reserved kn backup [state_path; lock_path state_path; backup_path state_path] ;;
  mret backup.

(** ** Writing a backup *)
Definition install_backup (kn : Kernel) (temporary path : list Component) (overwrite : bool)
    : state_op StateBackupError unit :=
  if overwrite then backup_io (rename kn temporary path) else
  r ← attempt (hard_link kn temporary path);
  match (r : result IoErrorKind unit) with
  | Ok _ => backup_io (remove_file kn temporary)
  | Err AlreadyExists => lift (Err DestinationExists)
  | Err e => lift (Err (BackupIo e))
  end.
Definition sync_backup_parent (kn : Kernel) (parent : list Component)
    : state_op StateBackupError unit :=
  directory ← backup_io (open_file kn parent);
  backup_io (sync_all kn directory).
Definition write_state_backup_file (kn : Kernel) (fresh : Uuid) (path : string) (bs : bytes)
    (overwrite : bool) : state_op StateBackupError unit :=
  let parent := state_parent (components path) in
  backup_io (create_dir_all kn parent) ;;
  there ← path_exists kn (components path);
  lift (bail_if ((there : bool) && negb overwrite) DestinationExists) ;;
  let temporary := temporary_path path fresh in
  r ← attempt (
    file ← backup_io (create_new kn 438 (components temporary));
    convert BackupStateFile (restrict_state_file_permissions kn temporary) ;;
    backup_io (write_all kn file bs) ;;
    backup_io (sync_all kn file) ;;
    install_backup kn (components temporary) (components path) overwrite ;;
    convert BackupStateFile (restrict_state_file_permissions kn path) ;;
    sync_backup_parent kn parent);
  (if is_ok (r : result StateBackupError unit) then mret tt
   else removed ← attempt (remove_file kn (components temporary));
        mret (const tt (removed : result IoErrorKind unit))) ;;
  lift r.
End backup.
