(* ===== verification/Frames.v ===== *)
(** * Frames of the agent ([meshlaked/src/main.rs])

    STUN binding requests and responses, candidate and peer announcements,
    registration acknowledgements and hole-punching packets.  The STUN parser
    indexes into a datagram anybody can send, so its model makes the index
    checks of the language explicit: an access out of range is [Err OutOfRange],
    which the program would answer with a panic. *)
From S2P Require Import Prelude Net Text Ext Model ServiceIdentity Membership Authorization.
From S2P Require Import RelayProto.
#[local] Open Scope Z_scope.

(** ** Checked access *)
Inductive access_error : Type := OutOfRange | OutOfFuel.
#[export] Instance access_error_eq_dec : EqDecision access_error.
Proof. solve_decision. Defined.
(** [&packet[a..b]] *)
Definition range (a b : nat) (packet : bytes) : result access_error bytes :=
  if bool_decide (a ≤ b ∧ b ≤ length packet)%nat then Ok (slice a b packet) else Err OutOfRange.
(** [packet[i]] *)
Definition index (i : nat) (packet : bytes) : result access_error Z :=
  ok_or (packet !! i) OutOfRange.

(** ** STUN (RFC 5389) *)
Definition STUN_COOKIE : bytes := be_bytes 4 0x2112A442.
Definition stun_binding_request (transaction_id : bytes) : bytes :=
  be_bytes 2 0x0001 ++ [0; 0] ++ STUN_COOKIE ++ transaction_id.

Definition xor_bytes (l mask : bytes) : bytes := zip_with Z.lxor l mask.
Definition parse_stun_address (value : bytes) (xor : bool) (transaction_id : bytes)
    : result access_error (option SocketAddr) :=
  if (length value <? 8)%nat then Ok None else
  first ← index 0 value;
  if negb (first =? 0) then Ok None else
  port_bytes ← range 2 4 value;
  let port := from_be port_bytes in
  let port := if xor then Z.lxor port (from_be (take 2 STUN_COOKIE)) else port in
  family ← index 1 value;
  if (family =? 1) && (length value =? 8)%nat then
    octets ← range 4 8 value;
    let octets := if xor then xor_bytes octets STUN_COOKIE else octets in
    Ok (Some (socket_new (ipv4_of_octets octets) port))
  else if (family =? 2) && (length value =? 20)%nat then
    octets ← range 4 20 value;
    let octets := if xor then xor_bytes octets (STUN_COOKIE ++ transaction_id) else octets in
    Ok (Some (socket_new (ipv6_of_octets octets) port))
  else Ok None.

(** The attribute loop.  Every turn moves the offset by four at least, so the
    length of the packet is fuel enough. *)
Fixpoint parse_stun_attributes (fuel : nat) (packet : bytes) (body_end : nat)
    (transaction_id : bytes) (offset : nat)
    : result access_error (option (bytes * SocketAddr)) :=
  match fuel with
  | O => Err OutOfFuel
  | S fuel =>
      if negb (offset + 4 <=? body_end)%nat then Ok None else
      kind ← from_be <$> range offset (offset + 2) packet;
      attribute_length ← from_be <$> range (offset + 2) (offset + 4) packet;
      let value_start := (offset + 4)%nat in
      let value_end := (value_start + Z.to_nat attribute_length)%nat in
      if (body_end <? value_end)%nat then Ok None else
      let next := (value_end + (4 - Z.to_nat attribute_length mod 4) mod 4)%nat in
      if (kind =? 0x0020) || (kind =? 0x0001) then
        value ← range value_start value_end packet;
        address ← parse_stun_address value (kind =? 0x0020) transaction_id;
        match address with
        | Some address => Ok (Some (transaction_id, address))
        | None => parse_stun_attributes fuel packet body_end transaction_id next
        end
      else parse_stun_attributes fuel packet body_end transaction_id next
  end.
Definition parse_stun_binding_success (packet : bytes)
    : result access_error (option (bytes * SocketAddr)) :=
  if (length packet <? 20)%nat then Ok None else
  kind ← range 0 2 packet;
  cookie ← range 4 8 packet;
  if bool_decide (kind ≠ be_bytes 2 0x0101) || bool_decide (cookie ≠ STUN_COOKIE) then Ok None else
  body_length ← from_be <$> range 2 4 packet;
  let body_end := (20 + Z.to_nat body_length)%nat in
  if (length packet <? body_end)%nat then Ok None else
  transaction_id ← range 8 20 packet;
  parse_stun_attributes (length packet) packet body_end transaction_id 20.

Section frames.
Context `{UuidLib} `{Ed25519}.

(** ** Announcements *)
Definition endpoint_bytes (endpoint : SocketAddr) : bytes :=
  [if socket_is_ipv4 endpoint then 4 else 6] ++ be_bytes 2 (socket_port endpoint)
    ++ ip_octets (socket_ip endpoint).
Definition candidate_announcement (network : NetworkId) (device : DeviceId)
    (endpoint : SocketAddr) : bytes :=
  RELAY_MAGIC ++ [RELAY_CANDIDATE] ++ network_bytes network ++ device_bytes device
    ++ endpoint_bytes endpoint.

Definition parse_peer_announcement (packet : bytes)
    : option (NetworkId * DeviceId * SocketAddr) :=
  if negb (has_prefix 40 RELAY_PEER packet) then None else
  network ← network_at 5 packet;
  device ← device_at 21 packet;
  let port := from_be (slice 38 40 packet) in
  let family := byte_at 37 packet in
  address ←
    (if (family =? 4) && (length packet =? 44)%nat
     then Some (socket_new (ipv4_of_octets (slice 40 44 packet)) port)
     else if (family =? 6) && (length packet =? 56)%nat
     then Some (socket_new (ipv6_of_octets (slice 40 56 packet)) port)
     else None);
  Some (network, device, address).

Definition parse_registration_ack (packet : bytes) : option (NetworkId * DeviceId * bytes) :=
  if negb (has_prefix 53 RELAY_REGISTER_ACK packet && (length packet =? 53)%nat) then None else
  network ← network_at 5 packet;
  device ← device_at 21 packet;
  Some (network, device, slice 37 53 packet).

(** ** Hole punching *)
Definition punch_packet (network : NetworkId) (source : DeviceId) (kind : Z) : bytes :=
  RELAY_MAGIC ++ [kind] ++ network_bytes network ++ device_bytes source.
Definition punch_response_kind (kind : Z) : option Z :=
  if kind =? RELAY_PUNCH then Some RELAY_PUNCH_ACK else None.
Definition parse_punch (packet : bytes) (kind : Z) : option (NetworkId * DeviceId) :=
  if negb ((length packet =? 37)%nat && has_prefix 37 kind packet
           && ((kind =? RELAY_PUNCH) || (kind =? RELAY_PUNCH_ACK))) then None else
  network ← network_at 5 packet;
  device ← device_at 21 packet;
  Some (network, device).
End frames.
