(* ===== verification/AgentSession.v ===== *)
(** * Sessions of the agent ([meshlaked/src/main.rs])

    The table of pairwise sessions with the peers, the packets that wait for a
    handshake, the choice of a transport, and the handlers of the three session
    frames.  An [Instant] is read once per call; the outcome of a send is a
    function of the transport, the endpoint and the packet, given for the call.
    The effect [SessionEstablished] marks where a session enters the table;
    the trace lines are left out. *)
From S2P Require Import Prelude Net Text Ext Model ServiceIdentity Membership Authorization.
From S2P Require Import RelayProto Session Planet Policy Joined DataPlane PeerDirectory.
From S2P Require Import Observability TransportHealth Frames.
#[local] Open Scope Z_scope.

Definition PAIRWISE_SESSION_TTL : Z := secs 3600.
Definition HANDSHAKE_TTL : Z := secs 10.
Definition HANDSHAKE_RETRY : Z := secs 1.
Definition HANDSHAKE_CLOCK_SKEW_SECONDS : Z := 120.
Definition SESSION_QUEUE_CAPACITY : Z := 8.

(** ** Transports *)
Inductive Transport : Type := Sockets | TurnUdp | TurnTls | TlsRelay.
#[export] Instance Transport_eq_dec : EqDecision Transport.
Proof. solve_decision. Defined.

Inductive AgentError : Type :=
| SessionCryptoError (e : CryptoError)
| RegistrationFailed
| AdapterFailed.

Abbreviation PeerKey := (NetworkId * DeviceId)%type.

Section agent_session.
Context `{UuidLib} `{Ed25519} `{IpNetLib} `{HashOrder}.
Context `{!MembershipSerde} `{!AuthorizationSerde} `{!SessionSerde} `{SessionCrypto}.

(** ** Session states *)
Record PendingSession : Type := mkPendingSession {
  pd_handshake : InitiatorHandshake;
  pd_init_packet : bytes;
  pd_peer_public_key : bytes;
  pd_created_at : Z;
  pd_last_sent : Z;
  pd_queued_packets : list bytes;
  pd_path : SessionPath.t;
  pd_dropped_packets : Z;
  pd_handshake_attempts : Z;
  pd_handshake_retries : Z;
  pd_rejected_packets_received : Z;
}.
Record EstablishedSession : Type := mkEstablishedSession {
  es_keys : PairwiseSessionKeys;
  es_peer_public_key : bytes;
  es_next_sequence : Z;
  es_replay_window : ReplayWindow;
  es_established_at : Z;
  es_cached_response : option bytes;
  es_path : SessionPath.t;
  es_dropped_packets : Z;
  es_handshake_attempts : Z;
  es_handshake_retries : Z;
  es_encrypted_packets_sent : Z;
  es_authenticated_packets_received : Z;
  es_rejected_packets_received : Z;
}.
Inductive PeerSessionState : Type :=
| Pending (p : PendingSession)
| Established (e : EstablishedSession).

Definition peer_public_key (s : PeerSessionState) : bytes :=
  match s with Pending p => pd_peer_public_key p | Established e => es_peer_public_key e end.
Definition is_expired (s : PeerSessionState) (now : Z) : bool :=
  match s with
  | Pending p => HANDSHAKE_TTL <? duration_since now (pd_created_at p)
  | Established e => PAIRWISE_SESSION_TTL <? duration_since now (es_established_at e)
  end.

(** Field updates. *)
Definition pending_with (p : PendingSession) (last_sent : Z) (queued : list bytes)
    (path : SessionPath.t) (dropped attempts retries rejected : Z) : PendingSession :=
  mkPendingSession (pd_handshake p) (pd_init_packet p) (pd_peer_public_key p) (pd_created_at p)
    last_sent queued path dropped attempts retries rejected.
Definition established_with (e : EstablishedSession) (next : Z) (window : ReplayWindow)
    (path : SessionPath.t) (sent authenticated rejected : Z) : EstablishedSession :=
  mkEstablishedSession (es_keys e) (es_peer_public_key e) next window (es_established_at e)
    (es_cached_response e) path (es_dropped_packets e) (es_handshake_attempts e)
    (es_handshake_retries e) sent authenticated rejected.
Definition with_next_sequence (e : EstablishedSession) (next : Z) : EstablishedSession :=
  established_with e next (es_replay_window e) (es_path e) (es_encrypted_packets_sent e)
    (es_authenticated_packets_received e) (es_rejected_packets_received e).
Definition with_replay_window (e : EstablishedSession) (window : ReplayWindow)
    : EstablishedSession :=
  established_with e (es_next_sequence e) window (es_path e) (es_encrypted_packets_sent e)
    (es_authenticated_packets_received e) (es_rejected_packets_received e).

Definition set_path (s : PeerSessionState) (path : SessionPath.t) : PeerSessionState :=
  match s with
  | Pending p =>
      Pending (pending_with p (pd_last_sent p) (pd_queued_packets p) path (pd_dropped_packets p)
        (pd_handshake_attempts p) (pd_handshake_retries p) (pd_rejected_packets_received p))
  | Established e =>
      Established (established_with e (es_next_sequence e) (es_replay_window e) path
        (es_encrypted_packets_sent e) (es_authenticated_packets_received e)
        (es_rejected_packets_received e))
  end.
Definition record_rejected_packet (s : PeerSessionState) : PeerSessionState :=
  match s with
  | Pending p =>
      Pending (pending_with p (pd_last_sent p) (pd_queued_packets p) (pd_path p)
        (pd_dropped_packets p) (pd_handshake_attempts p) (pd_handshake_retries p)
        (sat_add64 (pd_rejected_packets_received p) 1))
  | Established e =>
      Established (established_with e (es_next_sequence e) (es_replay_window e) (es_path e)
        (es_encrypted_packets_sent e) (es_authenticated_packets_received e)
        (sat_add64 (es_rejected_packets_received e) 1))
  end.
Definition record_authenticated_packet (s : PeerSessionState) : PeerSessionState :=
  match s with
  | Pending p => Pending p
  | Established e =>
      Established (established_with e (es_next_sequence e) (es_replay_window e) (es_path e)
        (es_encrypted_packets_sent e) (sat_add64 (es_authenticated_packets_received e) 1)
        (es_rejected_packets_received e))
  end.
Definition record_encrypted_send_results (s : PeerSessionState) (results : list bool)
    : PeerSessionState :=
  match s with
  | Pending p => Pending p
  | Established e =>
      Established (established_with e (es_next_sequence e) (es_replay_window e) (es_path e)
        (foldl (λ sent (r : bool), if r then sat_add64 sent 1 else sent)
           (es_encrypted_packets_sent e) results)
        (es_authenticated_packets_received e) (es_rejected_packets_received e))
  end.

Definition telemetry (s : PeerSessionState) : SessionTelemetry :=
  match s with
  | Pending p =>
      mkSessionTelemetry SessionState.Pending (pd_path p) (pd_created_at p)
        (mkSessionQueueCounters (len (pd_queued_packets p)) SESSION_QUEUE_CAPACITY
           (pd_dropped_packets p))
        (mkSessionSecurityCounters (pd_handshake_attempts p) (pd_handshake_retries p) 0 0
           (pd_rejected_packets_received p))
  | Established e =>
      mkSessionTelemetry SessionState.Established (es_path e) (es_established_at e)
        (mkSessionQueueCounters 0 SESSION_QUEUE_CAPACITY (es_dropped_packets e))
        (mkSessionSecurityCounters (es_handshake_attempts e) (es_handshake_retries e)
           (es_encrypted_packets_sent e) (es_authenticated_packets_received e)
           (es_rejected_packets_received e))
  end.

(** ** Authorisation of the local network *)
Definition pinned_controller_key (network : JoinedNetwork) : bytes :=
  let pinned := cp_pinned_controller_public_key (jn_control_plane network) in
  if negb (is_empty pinned) then pinned
  else default [] (cert_controller_public_key <$> jn_certificate network).
Definition verified_authorization_manifest (network : JoinedNetwork) (now : Z)
    : option NetworkAuthorizationManifest :=
  authorization ← cp_authorization_manifest (jn_control_plane network);
  _ ← ok (auth_verify_from_controller authorization (pinned_controller_key network) now);
  Some authorization.
Definition peer_certificate_is_authorized (network : JoinedNetwork)
    (certificate : MembershipCertificate) (now : Z) : bool :=
  is_some_and (verified_authorization_manifest network now)
    (λ authorization, authorizes authorization certificate).
Definition local_network_is_authorized (network : JoinedNetwork) (now : Z) : bool :=
  match jn_certificate network with
  | None => false
  | Some certificate =>
      is_some_and (verified_authorization_manifest network now)
        (λ authorization, authorizes authorization certificate)
  end.
Definition find_network (networks : list JoinedNetwork) (network_id : NetworkId)
    : option JoinedNetwork :=
  List.find (λ n, bool_decide (jn_id n = network_id)) networks.

(** ** What a call sees and what it does *)
Record SessionEnv : Type := mkSessionEnv {
  se_device_id : DeviceId;
  se_networks : list JoinedNetwork;
  se_identity : SigningKey;
  se_revision : Z;
  se_instant : Z;
  se_unix : Z;
  se_random_id : option bytes;
  se_random_secret : option bytes;
  se_send : Transport → SocketAddr → bytes → bool;
  (** The active adapter, with the outcome of writing a packet to it. *)
  se_adapter : option (bytes → bool);
}.
Inductive Effect : Type :=
| Transmit (via : Transport) (endpoint : SocketAddr) (packet : bytes)
| Inject (packet : bytes)
| SessionEstablished (key : PeerKey) (session_id : bytes).
#[global] Instance Effect_eq_dec : EqDecision Effect.
Proof. solve_decision. Defined.

Record SessionTables : Type := mkSessionTables {
  st_peers : gmap PeerKey PeerRoute;
  st_sessions : gmap PeerKey PeerSessionState;
  st_seen : gmap (PeerKey * bytes) Z;
  st_observed : ObservationState;
}.
Definition SessionTables_new (observed : ObservationState) : SessionTables :=
  mkSessionTables ∅ ∅ ∅ observed.
Definition with_peers (w : SessionTables) (peers : gmap PeerKey PeerRoute) : SessionTables :=
  mkSessionTables peers (st_sessions w) (st_seen w) (st_observed w).
Definition with_session (w : SessionTables) (key : PeerKey) (s : PeerSessionState)
    : SessionTables :=
  mkSessionTables (st_peers w) (<[key := s]> (st_sessions w)) (st_seen w) (st_observed w).
Definition with_seen (w : SessionTables) (seen : gmap (PeerKey * bytes) Z) : SessionTables :=
  mkSessionTables (st_peers w) (st_sessions w) seen (st_observed w).
Definition with_observed (w : SessionTables) (observed : ObservationState) : SessionTables :=
  mkSessionTables (st_peers w) (st_sessions w) (st_seen w) observed.

Definition publish_session (env : SessionEnv) (w : SessionTables) (key : PeerKey)
    (s : PeerSessionState) : SessionTables :=
  with_observed w (publish (st_observed w) (se_revision env) key (telemetry s) (se_instant env)).
(** [if let Some(session) = sessions.get_mut(&key)] with an update and a publication. *)
Definition update_session (env : SessionEnv) (w : SessionTables) (key : PeerKey)
    (f : PeerSessionState → PeerSessionState) : SessionTables :=
  match st_sessions w !! key with
  | None => w
  | Some s => let s := f s in publish_session env (with_session w key s) key s
  end.

(** Removes a session and its record: the peer changed its identity. *)
Definition forget_session (env : SessionEnv) (w : SessionTables) (key : PeerKey)
    : SessionTables :=
  mkSessionTables (st_peers w) (delete key (st_sessions w)) (st_seen w)
    (obs_remove (st_observed w) (se_revision env) key).

(** ** Outbound packets *)
Inductive PreparedPeerPacket : Type :=
| Handshake (packet : bytes)
| Data (packet : bytes).

Fixpoint seal_queued_from (keys : PairwiseSessionKeys) (network_id : NetworkId)
    (local_device peer_device : DeviceId) (next_sequence : Z) (queued_packets : list bytes)
    : result CryptoError (Z * list bytes) :=
  match queued_packets with
  | [] => Ok (next_sequence, [])
  | queued :: queued_packets =>
      packet ← seal keys network_id local_device peer_device next_sequence queued;
      '(next, encrypted) ← seal_queued_from keys network_id local_device peer_device
                             (next_sequence + 1) queued_packets;
      Ok (next, packet :: encrypted)
  end.
Definition seal_queued_packets (keys : PairwiseSessionKeys) (network_id : NetworkId)
    (local_device peer_device : DeviceId) (queued_packets : list bytes)
    : result CryptoError (Z * list bytes) :=
  seal_queued_from keys network_id local_device peer_device 0 queued_packets.

Definition must_discard (s : PeerSessionState) (peer_key : bytes) (now : Z) : bool :=
  is_expired s now || bool_decide (peer_public_key s ≠ peer_key)
  || match s with Established e => es_next_sequence e =? u64_max | Pending _ => false end.

Definition queue_packet (p : PendingSession) (plaintext : bytes) (now : Z)
    : PendingSession * option PreparedPeerPacket :=
  let '(queued, dropped) :=
    if len (pd_queued_packets p) <? SESSION_QUEUE_CAPACITY
    then (pd_queued_packets p ++ [plaintext], pd_dropped_packets p)
    else (pd_queued_packets p, sat_add64 (pd_dropped_packets p) 1) in
  if HANDSHAKE_RETRY <=? duration_since now (pd_last_sent p)
  then (pending_with p now queued (pd_path p) dropped (sat_add64 (pd_handshake_attempts p) 1)
          (sat_add64 (pd_handshake_retries p) 1) (pd_rejected_packets_received p),
        Some (Handshake (pd_init_packet p)))
  else (pending_with p (pd_last_sent p) queued (pd_path p) dropped (pd_handshake_attempts p)
          (pd_handshake_retries p) (pd_rejected_packets_received p), None).

Definition prepare_outbound_peer_packet (env : SessionEnv)
    (sessions : gmap PeerKey PeerSessionState) (network : JoinedNetwork)
    (peer_device : DeviceId) (peer_key plaintext : bytes)
    : result CryptoError (gmap PeerKey PeerSessionState * option PreparedPeerPacket) :=
  if negb (len peer_key =? 32) then Ok (sessions, None) else
  let key := (jn_id network, peer_device) in
  let current_time := se_instant env in
  let sessions :=
    if is_some_and (sessions !! key) (λ s, must_discard s peer_key current_time)
    then delete key sessions else sessions in
  match sessions !! key with
  | Some (Pending p) =>
      let '(p, prepared) := queue_packet p plaintext current_time in
      Ok (<[key := Pending p]> sessions, prepared)
  | Some (Established e) =>
      let sequence := es_next_sequence e in
      let e := with_next_sequence e (sat_add64 sequence 1) in
      packet ← seal (es_keys e) (jn_id network) (se_device_id env) peer_device sequence plaintext;
      Ok (<[key := Established e]> sessions, Some (Data packet))
  | None =>
      '(handshake, init_packet) ← start (se_random_id env) (se_random_secret env) (jn_id network)
                                    (se_device_id env) peer_device (se_identity env) (se_unix env);
      Ok (<[key := Pending (mkPendingSession handshake init_packet peer_key current_time
                              current_time [plaintext] SessionPath.Unknown 0 1 0 0)]> sessions,
          Some (Handshake init_packet))
  end.

Record TlsRelayRoute : Type := mkTlsRelayRoute {
  tr_relay : PlanetTlsRelay;
  tr_relay_endpoint : SocketAddr;
}.

(** The transports in the order in which a packet is offered to them. *)
Definition routed_attempts (now : Z) (relay_endpoints : list SocketAddr)
    (tls_relays : list TlsRelayRoute) (endpoint_health : EndpointHealthTable)
    (network : JoinedNetwork) (route : PeerRoute)
    : list (Transport * SocketAddr * SessionPath.t) :=
  let policy := vn_relay_policy (jn_network network) in
  (if bool_decide (policy = Required) then []
   else match best_endpoint route now with
   | Some direct_endpoint => [(Sockets, direct_endpoint, SessionPath.Direct)]
   | None => []
   end)
  ++ if bool_decide (policy = Disabled) then [] else
     match head relay_endpoints with
     | Some relay_endpoint => [(TurnUdp, relay_endpoint, SessionPath.Turn);
                               (TurnTls, relay_endpoint, SessionPath.Turn)]
     | None => []
     end
     ++ match select_relay_endpoint (jn_id network) relay_endpoints endpoint_health now
                (is_some_and (cp_planet_manifest_version (jn_control_plane network))
                   (λ version, 3 <=? version)) with
        | Some relay_endpoint => [(Sockets, relay_endpoint, SessionPath.Relay)]
        | None => []
        end
     ++ map (λ route, (TlsRelay, tr_relay_endpoint route, SessionPath.TlsRelay)) tls_relays.
(** Offers the packet until a transport takes it. *)
Fixpoint first_sent (env : SessionEnv) (packet : bytes)
    (attempts : list (Transport * SocketAddr * SessionPath.t))
    : list Effect * option SessionPath.t :=
  match attempts with
  | [] => ([], None)
  | (via, endpoint, path) :: attempts =>
      if se_send env via endpoint packet then ([Transmit via endpoint packet], Some path)
      else let '(effects, sent) := first_sent env packet attempts in
           (Transmit via endpoint packet :: effects, sent)
  end.
Definition send_peer_routed_packet (env : SessionEnv) (relay_endpoints : list SocketAddr)
    (tls_relays : list TlsRelayRoute) (endpoint_health : EndpointHealthTable)
    (network : JoinedNetwork) (route : PeerRoute) (packet : bytes)
    : list Effect * option SessionPath.t :=
  first_sent env packet
    (routed_attempts (se_instant env) relay_endpoints tls_relays endpoint_health network route).

(** The transport configuration of a network, as the outbound loop asks for it. *)
Record NetworkRelays : Type := mkNetworkRelays {
  nr_relay_endpoints : list SocketAddr;
  nr_tls_relays : list TlsRelayRoute;
}.
Definition sent_state (s : PeerSessionState) (path : SessionPath.t) (is_data : bool)
    : PeerSessionState :=
  let s := set_path s path in
  if is_data then record_encrypted_send_results s [true] else s.
(** One target of an outbound packet. *)
Definition send_to_target (env : SessionEnv) (relays : NetworkRelays)
    (endpoint_health : EndpointHealthTable) (network : JoinedNetwork) (packet : bytes)
    (w : SessionTables) (target : DeviceId * PeerRoute)
    : result AgentError (SessionTables * list Effect) :=
  let '(target_device, route) := target in
  '(sessions, prepared) ← map_err SessionCryptoError
    (prepare_outbound_peer_packet env (st_sessions w) network target_device
       (route_device_public_key route) packet);
  let w := mkSessionTables (st_peers w) sessions (st_seen w) (st_observed w) in
  match prepared with
  | None => Ok (w, [])
  | Some prepared =>
      let '(outbound, is_data) :=
        match prepared with Handshake p => (p, false) | Data p => (p, true) end in
      let '(effects, selected_path) :=
        send_peer_routed_packet env (nr_relay_endpoints relays) (nr_tls_relays relays)
          endpoint_health network route outbound in
      let key := (jn_id network, target_device) in
      Ok (update_session env w key (λ s,
            match selected_path with Some path => sent_state s path is_data | None => s end),
          effects)
  end.
Fixpoint send_to_targets (env : SessionEnv) (relays : NetworkRelays)
    (endpoint_health : EndpointHealthTable) (network : JoinedNetwork) (packet : bytes)
    (w : SessionTables) (targets : list (DeviceId * PeerRoute))
    : result AgentError (SessionTables * list Effect) :=
  match targets with
  | [] => Ok (w, [])
  | target :: targets =>
      '(w, effects) ← send_to_target env relays endpoint_health network packet w target;
      '(w, more) ← send_to_targets env relays endpoint_health network packet w targets;
      Ok (w, effects ++ more)
  end.
(** One packet read from the adapter. *)
Definition outbound_packet (env : SessionEnv) (relays_for : NetworkId → NetworkRelays)
    (endpoint_health : EndpointHealthTable) (w : SessionTables) (packet : bytes)
    : result AgentError (SessionTables * list Effect) :=
  match outbound_route_for_ip_packet (se_networks env) (se_device_id env) packet (se_unix env) with
  | None => Ok (w, [])
  | Some route =>
      let network := or_network route in
      if negb (local_network_is_authorized network (se_unix env)) then Ok (w, []) else
      send_to_targets env (relays_for (jn_id network)) endpoint_health network packet w
        (peer_targets_for_packet (st_peers w) network (or_gateway route) packet)
  end.

(** ** Inbound session frames *)
Record Inbound : Type := mkInbound {
  in_remote : SocketAddr;
  in_relay_endpoints : list SocketAddr;
  in_via_tls_relay : bool;
  in_via_turn : bool;
  in_via_tls_turn : bool;
}.
Definition session_path_for (remote : SocketAddr) (relay_endpoints : list SocketAddr)
    (via_tls_relay via_turn : bool) : SessionPath.t :=
  if via_tls_relay && contains remote relay_endpoints then SessionPath.TlsRelay
  else if via_turn && contains remote relay_endpoints then SessionPath.Turn
  else if contains remote relay_endpoints then SessionPath.Relay
  else SessionPath.Direct.
Definition inbound_path (i : Inbound) : SessionPath.t :=
  session_path_for (in_remote i) (in_relay_endpoints i) (in_via_tls_relay i)
    (in_via_turn i || in_via_tls_turn i).
Definition inbound_transport (i : Inbound) : Transport :=
  if in_via_tls_relay i then TlsRelay
  else if in_via_tls_turn i then TurnTls
  else if in_via_turn i then TurnUdp else Sockets.
(** [send_to_inbound_path]: the effect and its outcome. *)
Definition send_to_inbound_path (env : SessionEnv) (i : Inbound) (packet : bytes)
    : Effect * bool :=
  (Transmit (inbound_transport i) (in_remote i) packet,
   se_send env (inbound_transport i) (in_remote i) packet).

(** The counters a new session takes over from the handshake it replaces. *)
Definition inherited (s : option PeerSessionState) : list bytes * Z * Z * Z * Z :=
  match s with
  | Some (Pending p) =>
      (pd_queued_packets p, pd_dropped_packets p, pd_handshake_attempts p,
       pd_handshake_retries p, pd_rejected_packets_received p)
  | _ => ([], 0, 1, 0, 0)
  end.
(** Installs the session, then sends the response and the queued packets. *)
Definition establish (env : SessionEnv) (i : Inbound) (w : SessionTables) (key : PeerKey)
    (keys : PairwiseSessionKeys) (peer_key : bytes) (response : option bytes)
    (carried : list bytes * Z * Z * Z * Z) : result AgentError (SessionTables * list Effect) :=
  let '(queued, dropped, attempts, retries, rejected) := carried in
  '(next_sequence, encrypted) ← map_err SessionCryptoError
    (seal_queued_packets keys key.1 (se_device_id env) key.2 queued);
  let w := with_session w key (Established (mkEstablishedSession keys peer_key next_sequence
    ReplayWindow_default (se_instant env) response (inbound_path i) dropped attempts retries
    0 0 rejected)) in
  let sent := map (send_to_inbound_path env i) encrypted in
  let w := update_session env w key (λ s, record_encrypted_send_results s sent.*2) in
  let answer := match response with
                | Some r => [(send_to_inbound_path env i r).1] | None => [] end in
  Ok (w, SessionEstablished key (psk_session_id keys) :: answer ++ sent.*1).

Definition cached_response_for (s : option PeerSessionState) (session_id : bytes) : option bytes :=
  match s with
  | Some (Established e) =>
      if bool_decide (psk_session_id (es_keys e) = session_id) then es_cached_response e else None
  | _ => None
  end.
Definition is_pending (s : option PeerSessionState) : bool :=
  match s with Some (Pending _) => true | _ => false end.
Definition device_lt (a b : DeviceId) : bool :=
  uuid_le (device_uuid a) (device_uuid b) && bool_decide (a ≠ b).

(** The part of the handler that accepts: the handshake itself and its record. *)
Definition accept_session_init (env : SessionEnv) (i : Inbound) (w : SessionTables)
    (network : JoinedNetwork) (key : PeerKey) (peer_key session_id packet : bytes)
    : result AgentError (SessionTables * list Effect) :=
  let carried := inherited (st_sessions w !! key) in
  match NetworkKey_from_slice (jn_network_key network) with
  | Err _ => Ok (w, [])
  | Ok network_key =>
      match accept_pairwise_handshake (se_random_secret env) packet peer_key (se_identity env)
              network_key (se_unix env) HANDSHAKE_CLOCK_SKEW_SECONDS with
      | Err _ => Ok (update_session env w key record_rejected_packet, [])
      | Ok (keys, response) =>
          let '(seen, fresh) :=
            record_session_handshake (st_seen w) key session_id (se_instant env) in
          let w := with_seen w seen in
          if negb fresh then Ok (update_session env w key record_rejected_packet, []) else
          establish env i w key keys peer_key (Some response) carried
      end
  end.
Definition receive_session_init (env : SessionEnv) (i : Inbound) (w : SessionTables)
    (packet : bytes) : result AgentError (SessionTables * list Effect) :=
  match parse_session_routing_header packet RELAY_SESSION_INIT with
  | Err _ => Ok (w, [])
  | Ok (network_id, source, destination) =>
      let device_id := se_device_id env in
      if bool_decide (destination ≠ device_id) || bool_decide (source = device_id)
      then Ok (w, []) else
      match find_network (se_networks env) network_id with
      | None => Ok (w, [])
      | Some network =>
          if negb (local_network_is_authorized network (se_unix env)) then Ok (w, []) else
          let key := (network_id, source) in
          match route_device_public_key <$> st_peers w !! key with
          | None => Ok (w, [])
          | Some peer_key =>
              if negb (len peer_key =? 32) then Ok (w, []) else
              match session_handshake_id packet RELAY_SESSION_INIT with
              | Err _ => Ok (w, [])
              | Ok session_id =>
                  match cached_response_for (st_sessions w !! key) session_id with
                  | Some response =>
                      Ok (update_session env w key (λ s, set_path s (inbound_path i)),
                          [(send_to_inbound_path env i response).1])
                  | None =>
                      if is_pending (st_sessions w !! key) && device_lt device_id source
                      then Ok (w, [])
                      else accept_session_init env i w network key peer_key session_id packet
                  end
              end
          end
      end
  end.

Definition receive_session_response (env : SessionEnv) (i : Inbound) (w : SessionTables)
    (packet : bytes) : result AgentError (SessionTables * list Effect) :=
  match parse_session_routing_header packet RELAY_SESSION_RESPONSE with
  | Err _ => Ok (w, [])
  | Ok (network_id, source, destination) =>
      let device_id := se_device_id env in
      if bool_decide (destination ≠ device_id) || bool_decide (source = device_id)
      then Ok (w, []) else
      let key := (network_id, source) in
      match st_peers w !! key, find_network (se_networks env) network_id with
      | Some route, Some network =>
          if negb (local_network_is_authorized network (se_unix env)) then Ok (w, []) else
          match NetworkKey_from_slice (jn_network_key network), st_sessions w !! key with
          | Ok network_key, Some (Pending p) =>
              if bool_decide (pd_peer_public_key p ≠ route_device_public_key route)
              then Ok (w, []) else
              match complete (pd_handshake p) packet (route_device_public_key route) network_key
                      (se_unix env) HANDSHAKE_CLOCK_SKEW_SECONDS with
              | Err _ => Ok (update_session env w key record_rejected_packet, [])
              | Ok keys =>
                  establish env i w key keys (route_device_public_key route) None
                    (inherited (Some (Pending p)))
              end
          | _, _ => Ok (w, [])
          end
      | _, _ => Ok (w, [])
      end
  end.

(** Counts an opened packet and stores the window it left behind. *)
Definition record_opened (window : ReplayWindow) (path : SessionPath.t) (s : PeerSessionState)
    : PeerSessionState :=
  match s with
  | Established e =>
      set_path (record_authenticated_packet (Established (with_replay_window e window))) path
  | Pending p => Pending p
  end.
(** What happens to an opened packet: the checks and the delivery. *)
Definition deliver_opened (env : SessionEnv) (i : Inbound) (w : SessionTables)
    (network_id : NetworkId) (source destination : DeviceId) (opened : SessionPacket)
    : result AgentError (SessionTables * list Effect) :=
  if bool_decide (spk_network_id opened ≠ network_id) || bool_decide (spk_source opened ≠ source)
     || bool_decide (spk_destination opened ≠ destination) then Ok (w, []) else
  match find_network (se_networks env) network_id with
  | None => Ok (w, [])
  | Some network =>
      if negb (local_network_is_authorized network (se_unix env)) then Ok (w, []) else
      match st_peers w !! (network_id, source) with
      | None => Ok (w, [])
      | Some route =>
          if negb (packet_is_authorized_for_delivery network source route destination
                     (se_device_id env) (spk_plaintext opened) (se_unix env))
          then Ok (w, []) else
          let w :=
            if contains (in_remote i) (in_relay_endpoints i) then w
            else with_peers w (<[(network_id, source) :=
                   (mark_success (add_candidate route (in_remote i)) (in_remote i)
                      (se_instant env)).1]> (st_peers w)) in
          match se_adapter env with
          | None => Ok (w, [])
          | Some write_packet =>
              if write_packet (spk_plaintext opened) then Ok (w, [Inject (spk_plaintext opened)])
              else Err AdapterFailed
          end
      end
  end.
Definition receive_session_data (env : SessionEnv) (i : Inbound) (w : SessionTables)
    (packet : bytes) : result AgentError (SessionTables * list Effect) :=
  match parse_session_routing_header packet RELAY_SESSION_DATA with
  | Err _ => Ok (w, [])
  | Ok (network_id, source, destination) =>
      let device_id := se_device_id env in
      if bool_decide (destination ≠ device_id) || bool_decide (source = device_id)
      then Ok (w, []) else
      let key := (network_id, source) in
      match st_sessions w !! key with
      | Some (Established e) =>
          match session_open (es_keys e) (es_replay_window e) packet with
          | Err _ => Ok (update_session env w key record_rejected_packet, [])
          | Ok (opened, window) =>
              let w := update_session env w key (record_opened window (inbound_path i)) in
              deliver_opened env i w network_id source destination opened
          end
      | _ => Ok (w, [])
      end
  end.

(** ** Maintenance of the table *)
Definition network_authorized (env : SessionEnv) (network_id : NetworkId) : bool :=
  existsb (λ n, bool_decide (jn_id n = network_id)
                && local_network_is_authorized n (se_unix env)) (se_networks env).
(** Peers and sessions of networks this device is no longer authorised for. *)
Definition drop_unauthorized (env : SessionEnv) (w : SessionTables) : SessionTables :=
  let unauthorized := List.filter (λ key, negb (network_authorized env key.1))
                        (hash_keys (st_sessions w)) in
  mkSessionTables (retain (λ key _, network_authorized env key.1) (st_peers w))
    (foldl (λ m key, delete key m) (st_sessions w) unauthorized)
    (st_seen w)
    (foldl (λ o key, obs_remove o (se_revision env) key) (st_observed w) unauthorized).

(** The handshakes due for another attempt. *)
Definition retry_due (now : Z) (s : PeerSessionState) : bool :=
  match s with
  | Pending p => HANDSHAKE_RETRY <=? duration_since now (pd_last_sent p)
  | Established _ => false
  end.
Definition mark_retried (now : Z) (s : PeerSessionState) : PeerSessionState :=
  match s with
  | Pending p =>
      if retry_due now s
      then Pending (pending_with p now (pd_queued_packets p) (pd_path p) (pd_dropped_packets p)
             (sat_add64 (pd_handshake_attempts p) 1) (sat_add64 (pd_handshake_retries p) 1)
             (pd_rejected_packets_received p))
      else s
  | Established _ => s
  end.
Definition due_handshakes (now : Z) (sessions : gmap PeerKey PeerSessionState)
    : list (PeerKey * bytes) :=
  omap (λ '(key, s),
    match s with
    | Pending p => if retry_due now s then Some (key, pd_init_packet p) else None
    | Established _ => None
    end) (hash_iter sessions).
Definition retry_handshake (env : SessionEnv) (relays_for : NetworkId → NetworkRelays)
    (endpoint_health : EndpointHealthTable) (acc : SessionTables * list Effect)
    (retry : PeerKey * bytes) : SessionTables * list Effect :=
  let '(w, done) := acc in
  let '(key, handshake) := retry in
  match List.find (λ n, bool_decide (jn_id n = key.1)
                        && local_network_is_authorized n (se_unix env)) (se_networks env),
        st_peers w !! key with
  | Some network, Some route =>
      let relays := relays_for key.1 in
      let '(effects, path) :=
        send_peer_routed_packet env (nr_relay_endpoints relays) (nr_tls_relays relays)
          endpoint_health network route handshake in
      (update_session env w key (λ s,
         match path with Some path => set_path s path | None => s end), done ++ effects)
  | _, _ => (w, done)
  end.
Definition retry_handshakes (env : SessionEnv) (relays_for : NetworkId → NetworkRelays)
    (endpoint_health : EndpointHealthTable) (w : SessionTables)
    : SessionTables * list Effect :=
  let retries := due_handshakes (se_instant env) (st_sessions w) in
  let w := mkSessionTables (st_peers w) (mark_retried (se_instant env) <$> st_sessions w)
             (st_seen w) (st_observed w) in
  foldl (retry_handshake env relays_for endpoint_health) (w, []) retries.

(** Sessions whose peer changed its identity or that are too old. *)
Definition stale_session (w : SessionTables) (now : Z) (entry : PeerKey * PeerSessionState)
    : option (PeerKey * bool) :=
  let '(key, s) := entry in
  let identity_valid :=
    is_some_and (st_peers w !! key) (λ route,
      negb (is_empty (route_device_public_key route))
      && bool_decide (route_device_public_key route = peer_public_key s)) in
  if negb identity_valid || is_expired s now then Some (key, is_expired s now) else None.
Definition drop_stale (env : SessionEnv) (w : SessionTables) (stale : PeerKey * bool)
    : SessionTables :=
  let '(key, naturally_expired) := stale in
  mkSessionTables (st_peers w) (delete key (st_sessions w)) (st_seen w)
    (if naturally_expired then expire (st_observed w) (se_revision env) key (se_instant env)
     else obs_remove (st_observed w) (se_revision env) key).
(** The probe turn: the directory ages, each endpoint is probed, stale sessions
    are dropped. *)
Definition probe_route (now : Z) (route : PeerRoute) : PeerRoute :=
  let route := expire_probes (expire_directory route now) now in
  foldl (λ r endpoint, mark_probe_sent r endpoint now) route (endpoints route).
Definition probe_punch (network_id : NetworkId) (device_id : DeviceId) : bytes :=
  punch_packet network_id device_id RELAY_PUNCH.
Definition probe_peers (env : SessionEnv) (w : SessionTables) : SessionTables * list Effect :=
  let now := se_instant env in
  let peers := probe_route now <$> st_peers w in
  let probes := concat (map (λ '(key, route),
      map (λ endpoint, Transmit Sockets endpoint (probe_punch key.1 (se_device_id env)))
        (endpoints route)) (hash_iter peers)) in
  let w := with_peers w peers in
  let stale := omap (stale_session w now) (hash_iter (st_sessions w)) in
  (foldl (drop_stale env) w stale, probes).

(** ** One turn of the worker, as far as sessions are concerned *)
Inductive SessionInput : Type :=
| OutboundPacket (relays_for : NetworkId → NetworkRelays) (health : EndpointHealthTable)
    (packet : bytes)
| InitFrame (i : Inbound) (packet : bytes)
| ResponseFrame (i : Inbound) (packet : bytes)
| DataFrame (i : Inbound) (packet : bytes)
| RetryHandshakes (relays_for : NetworkId → NetworkRelays) (health : EndpointHealthTable)
| ProbePeers
| DropUnauthorized
| ChangeDirectory (peers : gmap PeerKey PeerRoute)
| ForgetSession (key : PeerKey).
Definition session_step (env : SessionEnv) (input : SessionInput) (w : SessionTables)
    : result AgentError (SessionTables * list Effect) :=
  match input with
  | OutboundPacket relays_for health packet => outbound_packet env relays_for health w packet
  | InitFrame i packet => receive_session_init env i w packet
  | ResponseFrame i packet => receive_session_response env i w packet
  | DataFrame i packet => receive_session_data env i w packet
  | RetryHandshakes relays_for health => Ok (retry_handshakes env relays_for health w)
  | ProbePeers => Ok (probe_peers env w)
  | DropUnauthorized => Ok (drop_unauthorized env w, [])
  | ChangeDirectory peers => Ok (with_peers w peers, [])
  | ForgetSession key => Ok (forget_session env w key, [])
  end.
End agent_session.
