(* ===== verification/AgentWorker.v ===== *)
(** * The agent's transport worker ([meshlaked/src/main.rs])

    One datagram at a time: STUN responses, signed root responses, registration
    acknowledgements, peer identities, candidates and hole punching, and the
    session frames handed to [AgentSession]; the registration scan that runs on
    the timer; and the worker's turn that chooses between them.  The clocks are
    read once per call. *)
From S2P Require Import Prelude Net Text Ext Model ServiceIdentity Membership Authorization.
From S2P Require Import RelayProto Session RootProto Planet Policy Joined DataPlane.
From S2P Require Import PeerDirectory.
From S2P Require Import Observability TransportHealth Responses Frames AgentSession.
#[local] Open Scope Z_scope.

Definition TRANSPORT_TRANSACTION_TTL : Z := secs 30.
Definition STUN_TRANSACTION_TTL : Z := secs 30.
Definition MAX_ADVERTISED_CANDIDATES : Z := 16.

#[export] Instance RegistrationServiceKind_eq_dec : EqDecision RegistrationServiceKind.
Proof. solve_decision. Defined.
#[export] Instance RegistrationServiceKind_countable : Countable RegistrationServiceKind.
Proof.
  refine (inj_countable' (λ k, match k with ServiceRoot => true | ServiceRelay => false end)
    (λ b, if b : bool then ServiceRoot else ServiceRelay) _). by intros [].
Defined.

Section agent_worker.
Context `{UuidLib} `{Ed25519} `{IpNetLib} `{HashOrder}.
Context `{!MembershipSerde} `{!AuthorizationSerde} `{!SessionSerde} `{!RootSerde} `{!RelaySerde}.
Context `{SessionCrypto}.

#[global] Instance RegistrationTarget_eq_dec : EqDecision RegistrationTarget.
Proof. solve_decision. Defined.
#[global] Instance RegistrationTarget_countable : Countable RegistrationTarget.
Proof.
  refine (inj_countable' (λ t, (rt_network_id t, rt_endpoint t, rt_kind t))
    (λ '(n, e, k), mkRegistrationTarget n e k) _). by intros [].
Defined.

(** The JSON documents a datagram may hold. *)
Class WorkerSerde := {
  serde_worker_response :: Serde SignedRootResponse;
  serde_worker_ack :: Serde SignedRelayRegistrationAck;
  serde_worker_registration :: Serde RootRegistration;
}.
Context `{!WorkerSerde}.

(** ** Configuration *)
Record TurnUdpRoute : Type := mkTurnUdpRoute {
  tu_network_id : NetworkId;
  tu_server : PlanetTurnServer;
  tu_credential : TurnCredential;
}.
Record NetworkTransportConfiguration : Type := mkNetworkTransportConfiguration {
  nt_relay_endpoints : list SocketAddr;
  nt_relay_identities : gmap SocketAddr ServiceIdentityPolicy;
  nt_tls_relays : list TlsRelayRoute;
  nt_turn_servers : list PlanetTurnServer;
  nt_planet_manifest_version : option Z;
  nt_planet_expires_at : option Z;
  nt_root_servers : list PlanetRoot;
}.
Record TransportConfiguration : Type := mkTransportConfiguration {
  tc_networks : gmap NetworkId NetworkTransportConfiguration;
  tc_relay_endpoints : list SocketAddr;
  tc_root_servers : list PlanetRoot;
  tc_stun_servers : list string;
  tc_upnp_enabled : bool;
  tc_turn_routes : list TurnUdpRoute;
}.
Definition configuration_is_empty (c : TransportConfiguration) : bool :=
  is_empty (tc_relay_endpoints c) && is_empty (tc_root_servers c).
Definition relay_endpoints_for (c : TransportConfiguration) (network_id : NetworkId)
    : list SocketAddr := default [] (nt_relay_endpoints <$> tc_networks c !! network_id).
Definition root_servers_for (c : TransportConfiguration) (network_id : NetworkId)
    : list PlanetRoot := default [] (nt_root_servers <$> tc_networks c !! network_id).
Definition relay_identity_for (c : TransportConfiguration) (network_id : NetworkId)
    (endpoint : SocketAddr) : option ServiceIdentityPolicy :=
  network ← tc_networks c !! network_id; nt_relay_identities network !! endpoint.
Definition tls_relays_for (c : TransportConfiguration) (network_id : NetworkId)
    : list TlsRelayRoute := default [] (nt_tls_relays <$> tc_networks c !! network_id).
Definition planet_manifest_version_for (c : TransportConfiguration) (network_id : NetworkId)
    : option Z := network ← tc_networks c !! network_id; nt_planet_manifest_version network.
Definition has_expired_planet (c : TransportConfiguration) (now : Z) : bool :=
  existsb (λ network, is_some_and (nt_planet_expires_at network) (λ expiry, expiry <? now))
    (hash_values (tc_networks c)).
Definition relays_of (c : TransportConfiguration) (network_id : NetworkId) : NetworkRelays :=
  mkNetworkRelays (relay_endpoints_for c network_id) (tls_relays_for c network_id).

(** ** Transactions *)
Record StunTransaction : Type := mkStunTransaction {
  stx_server : SocketAddr;
  stx_issued_at : Z;
}.
Record RootTransaction : Type := mkRootTransaction {
  rtx_network_id : NetworkId;
  rtx_endpoint : SocketAddr;
  rtx_public_key : bytes;
  rtx_identity : option ServiceIdentityPolicy;
  rtx_issued_at : Z;
}.
Record RelayRegistrationTransaction : Type := mkRelayRegistrationTransaction {
  ltx_network_id : NetworkId;
  ltx_device_id : DeviceId;
  ltx_endpoint : SocketAddr;
  ltx_planet_manifest_version : option Z;
  ltx_identity : option ServiceIdentityPolicy;
  ltx_issued_at : Z;
}.

(** A legacy acknowledgement, and one signed by the pinned relay: the
    transactions and the health table they leave. *)
Definition acknowledge_relay_registration (transactions : gmap bytes RelayRegistrationTransaction)
    (endpoint_health : EndpointHealthTable) (network_id : NetworkId) (device_id : DeviceId)
    (nonce : bytes) (endpoint : SocketAddr) (now : Z)
    : option (gmap bytes RelayRegistrationTransaction * EndpointHealthTable) :=
  transaction ← transactions !! nonce;
  if bool_decide (ltx_network_id transaction ≠ network_id)
     || bool_decide (ltx_device_id transaction ≠ device_id)
     || bool_decide (ltx_endpoint transaction ≠ endpoint)
     || negb (match ltx_planet_manifest_version transaction with
              | Some v => (v =? 1) || (v =? 2) | None => false end)
     || is_some (ltx_identity transaction)
     || (TRANSPORT_TRANSACTION_TTL <=? duration_since now (ltx_issued_at transaction))
  then None
  else Some (delete nonce transactions,
             mark_relay_acknowledged endpoint_health network_id endpoint now).
Definition acknowledge_signed_relay_registration
    (transactions : gmap bytes RelayRegistrationTransaction)
    (endpoint_health : EndpointHealthTable) (acknowledgement : SignedRelayRegistrationAck)
    (endpoint : SocketAddr) (now_instant now_unix : Z)
    : option (gmap bytes RelayRegistrationTransaction * EndpointHealthTable
              * NetworkId * option AuthorizationEpochHint) :=
  let nonce := rap_request_nonce (ra_payload acknowledgement) in
  transaction ← transactions !! nonce;
  identity ← ltx_identity transaction;
  if negb (match ltx_planet_manifest_version transaction with
           | Some v => (v =? 3) || (v =? 4) || (v =? 5) | None => false end)
     || bool_decide (ltx_endpoint transaction ≠ endpoint)
     || (TRANSPORT_TRANSACTION_TTL <=? duration_since now_instant (ltx_issued_at transaction))
     || negb (is_ok (relay_ack_verify acknowledgement identity (ltx_network_id transaction)
                       (ltx_device_id transaction) nonce now_unix 5))
  then None
  else Some (delete nonce transactions,
             mark_relay_acknowledged endpoint_health (ltx_network_id transaction) endpoint now_instant,
             ltx_network_id transaction,
             rap_authorization_hint (ra_payload acknowledgement)).

(** What the agent reports about the best path to a peer. *)
Record PeerPathStatus : Type := mkPeerPathStatus {
  pps_network_id : NetworkId;
  pps_device_id : DeviceId;
  pps_endpoint : SocketAddr;
  pps_smoothed_rtt_ms : option Z;
  pps_consecutive_failures : Z;
}.
Definition path_status (now : Z) (entry : PeerKey * PeerRoute) : option PeerPathStatus :=
  candidate ← best_candidate entry.2 now;
  Some (mkPeerPathStatus entry.1.1 entry.1.2 (pc_endpoint candidate)
    ((λ rtt, Z.min (as_millis rtt) u64_max) <$> pc_smoothed_rtt candidate)
    (pc_consecutive_failures candidate)).
Definition path_le (a b : PeerPathStatus) : bool :=
  if bool_decide (pps_network_id a = pps_network_id b)
  then uuid_le (device_uuid (pps_device_id a)) (device_uuid (pps_device_id b))
  else uuid_le (network_uuid (pps_network_id a)) (network_uuid (pps_network_id b)).
Definition peer_paths (peers : gmap PeerKey PeerRoute) (now : Z) : list PeerPathStatus :=
  sort_by path_le (omap (path_status now) (hash_iter peers)).

(** ** The worker's state *)
Record Worker : Type := mkWorker {
  wk_tables : SessionTables;
  wk_stun : gmap bytes StunTransaction;
  wk_root : gmap bytes RootTransaction;
  wk_relay : gmap bytes RelayRegistrationTransaction;
  wk_candidates : list SocketAddr;
  wk_health : EndpointHealthTable;
  wk_schedules : gmap RegistrationTarget RegistrationSchedule;
  (** The part of the agent the worker reports to. *)
  wk_reported : EndpointHealthTable;
  wk_confirmations_accepted : Z;
  wk_confirmations_rejected : Z;
  wk_hint_refreshes : Z;
  wk_refresh_requested : bool;
  (** The candidate of the automatic port mapping, and the reported paths. *)
  wk_mapping : option SocketAddr;
  wk_paths : list PeerPathStatus;
}.
Definition Worker_new (observed : ObservationState) (reported : EndpointHealthTable)
    (mapping : option SocketAddr) : Worker :=
  mkWorker (SessionTables_new observed) ∅ ∅ ∅ (option_list mapping) EndpointHealthTable_default ∅
    reported 0 0 0 false mapping [].

Record WorkerEnv : Type := mkWorkerEnv {
  we_session : SessionEnv;
  we_configuration : TransportConfiguration;
  (** Whether the IPv6 socket exists. *)
  we_has_ipv6 : bool;
  (** The random nonce of the next registration with a target. *)
  we_nonce : RegistrationTarget → bytes;
}.
Definition supports (env : WorkerEnv) (endpoint : SocketAddr) : bool :=
  socket_is_ipv4 endpoint || we_has_ipv6 env.

(** Field updates. *)
Definition with_tables (k : Worker) (w : SessionTables) : Worker :=
  mkWorker w (wk_stun k) (wk_root k) (wk_relay k) (wk_candidates k) (wk_health k) (wk_schedules k)
    (wk_reported k) (wk_confirmations_accepted k) (wk_confirmations_rejected k)
    (wk_hint_refreshes k) (wk_refresh_requested k) (wk_mapping k) (wk_paths k).
Definition with_stun (k : Worker) (stun : gmap bytes StunTransaction) (candidates : list SocketAddr)
    : Worker :=
  mkWorker (wk_tables k) stun (wk_root k) (wk_relay k) candidates (wk_health k) (wk_schedules k)
    (wk_reported k) (wk_confirmations_accepted k) (wk_confirmations_rejected k)
    (wk_hint_refreshes k) (wk_refresh_requested k) (wk_mapping k) (wk_paths k).
Definition with_root (k : Worker) (root : gmap bytes RootTransaction) : Worker :=
  mkWorker (wk_tables k) (wk_stun k) root (wk_relay k) (wk_candidates k) (wk_health k)
    (wk_schedules k) (wk_reported k) (wk_confirmations_accepted k) (wk_confirmations_rejected k)
    (wk_hint_refreshes k) (wk_refresh_requested k) (wk_mapping k) (wk_paths k).
Definition with_relay (k : Worker) (relay : gmap bytes RelayRegistrationTransaction)
    (health : EndpointHealthTable) : Worker :=
  mkWorker (wk_tables k) (wk_stun k) (wk_root k) relay (wk_candidates k) health (wk_schedules k)
    (wk_reported k) (wk_confirmations_accepted k) (wk_confirmations_rejected k)
    (wk_hint_refreshes k) (wk_refresh_requested k) (wk_mapping k) (wk_paths k).
Definition with_schedules (k : Worker) (schedules : gmap RegistrationTarget RegistrationSchedule)
    : Worker :=
  mkWorker (wk_tables k) (wk_stun k) (wk_root k) (wk_relay k) (wk_candidates k) (wk_health k)
    schedules (wk_reported k) (wk_confirmations_accepted k) (wk_confirmations_rejected k)
    (wk_hint_refreshes k) (wk_refresh_requested k) (wk_mapping k) (wk_paths k).
Definition with_reported (k : Worker) (reported : EndpointHealthTable) : Worker :=
  mkWorker (wk_tables k) (wk_stun k) (wk_root k) (wk_relay k) (wk_candidates k) (wk_health k)
    (wk_schedules k) reported (wk_confirmations_accepted k) (wk_confirmations_rejected k)
    (wk_hint_refreshes k) (wk_refresh_requested k) (wk_mapping k) (wk_paths k).
Definition count_confirmation (k : Worker) (accepted : bool) : Worker :=
  mkWorker (wk_tables k) (wk_stun k) (wk_root k) (wk_relay k) (wk_candidates k) (wk_health k)
    (wk_schedules k) (wk_reported k)
    (if accepted then wrap_add64 (wk_confirmations_accepted k) 1 else wk_confirmations_accepted k)
    (if accepted then wk_confirmations_rejected k else wrap_add64 (wk_confirmations_rejected k) 1)
    (wk_hint_refreshes k) (wk_refresh_requested k) (wk_mapping k) (wk_paths k).
Definition request_refresh (k : Worker) (counted : bool) : Worker :=
  mkWorker (wk_tables k) (wk_stun k) (wk_root k) (wk_relay k) (wk_candidates k) (wk_health k)
    (wk_schedules k) (wk_reported k) (wk_confirmations_accepted k) (wk_confirmations_rejected k)
    (if counted then wrap_add64 (wk_hint_refreshes k) 1 else wk_hint_refreshes k) true
    (wk_mapping k) (wk_paths k).
(** [if let Some(schedule) = registration_schedules.get_mut(..) { schedule.mark_success(..) }] *)
Definition schedule_succeeded (k : Worker) (target : RegistrationTarget) (now : Z) : Worker :=
  match wk_schedules k !! target with
  | Some s => with_schedules k (<[target := schedule_mark_success s now]> (wk_schedules k))
  | None => k
  end.

(** ** Authorization hints *)
Definition consider_authorization_hint (env : SessionEnv) (hint : AuthorizationEpochHint) : bool :=
  match find_network (se_networks env) (hint_network_id hint) with
  | None => false
  | Some network =>
      is_ok (hint_verify_from_controller hint (pinned_controller_key network) (se_unix env))
      && (default 0 (auth_authorization_epoch <$> cp_authorization_manifest (jn_control_plane network))
          <? hint_authorization_epoch hint)
  end.

(** ** STUN *)
Definition stun_announcements (env : WorkerEnv) (candidate : SocketAddr) : list Effect :=
  concat (map (λ network,
      if is_some (jn_certificate network) then
        map (λ relay_endpoint, Transmit Sockets relay_endpoint
               (candidate_announcement (jn_id network) (se_device_id (we_session env)) candidate))
          (relay_endpoints_for (we_configuration env) (jn_id network))
      else []) (se_networks (we_session env))).
Definition receive_stun (env : WorkerEnv) (remote : SocketAddr) (k : Worker)
    (transaction_id : bytes) (candidate : SocketAddr) : Worker * list Effect :=
  match wk_stun k !! transaction_id with
  | None => (k, [])
  | Some transaction =>
      let k := with_stun k (delete transaction_id (wk_stun k)) (wk_candidates k) in
      if bool_decide (stx_server transaction = remote)
         && (duration_since (se_instant (we_session env)) (stx_issued_at transaction)
             <? STUN_TRANSACTION_TTL)
      then
        (if negb (contains candidate (wk_candidates k))
            && (len (wk_candidates k) <? MAX_ADVERTISED_CANDIDATES)
         then with_stun k (wk_stun k) (wk_candidates k ++ [candidate]) else k,
         stun_announcements env candidate)
      else (k, [])
  end.

(** ** Peers learned from relays and roots *)
(** The authenticated part of the directory: a certificate of the pinned
    controller that the current authorization manifest covers. *)
Definition accept_certificate (env : SessionEnv) (network : JoinedNetwork)
    (certificate : MembershipCertificate) : bool :=
  is_ok (cert_verify_from_controller certificate (pinned_controller_key network) (se_unix env))
  && local_network_is_authorized network (se_unix env)
  && peer_certificate_is_authorized network certificate (se_unix env).
(** [update_peer_membership] with what the callers do about a changed identity;
    the boolean says whether the directory took the certificate. *)
Definition learn_membership (env : SessionEnv) (w : SessionTables)
    (certificate : MembershipCertificate) : SessionTables * bool :=
  let key := (mc_network_id (cert_claims certificate), mc_device_id (cert_claims certificate)) in
  let '(peers, outcome) := update_peer_membership (st_peers w) certificate (se_device_id env)
                             (se_networks env) (se_instant env) in
  let w := with_peers w peers in
  match outcome with
  | Some true => (forget_session env w key, true)
  | Some false => (w, true)
  | None => (w, false)
  end.
(** A candidate becomes known and is probed three times. *)
Definition learn_candidate (env : SessionEnv) (w : SessionTables) (key : PeerKey)
    (candidate : SocketAddr) : SessionTables * list Effect :=
  let route := match st_peers w !! key with
               | Some route => add_candidate route candidate
               | None => PeerRoute_new candidate end in
  (with_peers w (<[key := mark_probe_sent route candidate (se_instant env)]> (st_peers w)),
   replicate 3 (Transmit Sockets candidate (punch_packet key.1 (se_device_id env) RELAY_PUNCH))).

Definition receive_peer_identity (env : SessionEnv) (w : SessionTables) (packet : bytes)
    : SessionTables :=
  match parse_peer_identity packet with
  | None => w
  | Some certificate =>
      match find_network (se_networks env) (mc_network_id (cert_claims certificate)) with
      | None => w
      | Some network =>
          if accept_certificate env network certificate
             && (len (mc_device_public_key (cert_claims certificate)) =? 32)
          then (learn_membership env w certificate).1 else w
      end
  end.
Definition receive_peer (env : WorkerEnv) (w : SessionTables) (packet : bytes)
    : SessionTables * list Effect :=
  match parse_peer_announcement packet with
  | None => (w, [])
  | Some (network, device, peer_endpoint) =>
      match find_network (se_networks (we_session env)) network with
      | None => (w, [])
      | Some local_network =>
          if bool_decide (device = se_device_id (we_session env))
             || negb (local_network_is_authorized local_network (se_unix (we_session env)))
             || negb (supports env peer_endpoint) then (w, [])
          else learn_candidate (we_session env) w (network, device) peer_endpoint
      end
  end.
Definition receive_punch (env : SessionEnv) (remote : SocketAddr) (w : SessionTables)
    (packet : bytes) : SessionTables * list Effect :=
  let kind := byte_at 4 packet in
  match parse_punch packet kind with
  | None => (w, [])
  | Some (network, device) =>
      match find_network (se_networks env) network, st_peers w !! (network, device) with
      | Some local_network, Some route =>
          if bool_decide (device = se_device_id env)
             || negb (local_network_is_authorized local_network (se_unix env))
             || negb (has_endpoint remote (route_candidates route)) then (w, [])
          else
            (with_peers w (<[(network, device) := (mark_success route remote (se_instant env)).1]>
                             (st_peers w)),
             match punch_response_kind kind with
             | Some response_kind =>
                 [Transmit Sockets remote (punch_packet network (se_device_id env) response_kind)]
             | None => []
             end)
      | _, _ => (w, [])
      end
  end.

(** ** Root responses *)
Definition discovered_acceptable (env : SessionEnv) (network_id : NetworkId) (peer : RootPeer)
    : option MembershipCertificate :=
  if bool_decide (rpeer_network_id peer ≠ network_id)
     || bool_decide (rpeer_device_id peer = se_device_id env) then None else
  network ← find_network (se_networks env) (rpeer_network_id peer);
  certificate ← rpeer_certificate peer;
  if bool_decide (mc_network_id (cert_claims certificate) ≠ rpeer_network_id peer)
     || bool_decide (mc_device_id (cert_claims certificate) ≠ rpeer_device_id peer)
     || bool_decide (mc_assigned_addresses (cert_claims certificate) ≠ rpeer_assigned_addresses peer)
     || negb (accept_certificate env network certificate)
  then None else Some certificate.
Definition usable_candidate (env : WorkerEnv) (candidate : SocketAddr) : bool :=
  supports env candidate && negb (socket_port candidate =? 0)
  && negb (ip_is_unspecified (socket_ip candidate)).
Definition learn_candidates (env : SessionEnv) (key : PeerKey)
    (acc : SessionTables * list Effect) (candidate : SocketAddr) : SessionTables * list Effect :=
  let '(w, more) := learn_candidate env acc.1 key candidate in (w, acc.2 ++ more).
Definition learn_discovered (env : WorkerEnv) (network_id : NetworkId)
    (acc : SessionTables * list Effect) (peer : RootPeer) : SessionTables * list Effect :=
  match discovered_acceptable (we_session env) network_id peer with
  | None => acc
  | Some certificate =>
      let '(w, taken) := learn_membership (we_session env) acc.1 certificate in
      if negb taken then (w, acc.2) else
      foldl (learn_candidates (we_session env) (rpeer_network_id peer, rpeer_device_id peer))
        (w, acc.2) (List.filter (usable_candidate env) (rpeer_candidates peer))
  end.
(** The root that signed the response, if the configuration still has it. *)
Definition current_root (env : WorkerEnv) (transaction : RootTransaction) (remote : SocketAddr)
    : option PlanetRoot :=
  List.find (λ root,
      bool_decide (root_public_key root = rtx_public_key transaction)
      && contains remote (root_endpoints root)
      && bool_decide (root_identity root = rtx_identity transaction))
    (root_servers_for (we_configuration env) (rtx_network_id transaction)).
Definition root_verified (root : PlanetRoot) (response : SignedRootResponse) (now : Z) : bool :=
  match root_identity root with
  | Some identity => is_ok (root_verify_identity response identity now)
  | None => is_ok (root_response_verify response (root_public_key root))
  end.
(** The transaction an authentic response belongs to. *)
Definition root_transaction_for (env : WorkerEnv) (k : Worker) (remote : SocketAddr)
    (response : SignedRootResponse) : option RootTransaction :=
  transaction ← wk_root k !! srr_request_nonce response;
  if bool_decide (rtx_endpoint transaction ≠ remote)
     || (TRANSPORT_TRANSACTION_TTL
         <=? duration_since (se_instant (we_session env)) (rtx_issued_at transaction)) then None else
  root ← current_root env transaction remote;
  if root_verified root response (se_unix (we_session env)) then Some transaction else None.
Definition apply_root_response (env : WorkerEnv) (remote : SocketAddr) (network_id : NetworkId)
    (response : RootResponse) (k : Worker) : Worker * list Effect :=
  match response with
  | ErrorResponse _ => (k, [])
  | Registered _ discovered _ hints =>
      let now := se_instant (we_session env) in
      let k := schedule_succeeded k (mkRegistrationTarget network_id remote ServiceRoot) now in
      let k := with_reported k (mark_root_responsive (wk_reported k) network_id remote now) in
      let k := foldl (λ k hint,
          if bool_decide (hint_network_id hint = network_id)
             && consider_authorization_hint (we_session env) hint
          then request_refresh k false else k) k hints in
      let '(w, effects) := foldl (learn_discovered env network_id) (wk_tables k, []) discovered in
      (with_tables k w, effects)
  end.
(** The first component says whether the datagram was a root response. *)
Definition handle_root_response (env : WorkerEnv) (remote : SocketAddr) (k : Worker)
    (packet : bytes) : bool * Worker * list Effect :=
  match (from_slice packet : option SignedRootResponse) with
  | None => (false, k, [])
  | Some response =>
      match root_transaction_for env k remote response with
      | None => (true, k, [])
      | Some transaction =>
          let k := with_root k (delete (srr_request_nonce response) (wk_root k)) in
          let '(k, effects) := apply_root_response env remote (rtx_network_id transaction)
                                 (srr_response response) k in
          (true, k, effects)
      end
  end.

(** ** Registration acknowledgements *)
Definition relay_acknowledged (env : WorkerEnv) (network : NetworkId) (remote : SocketAddr)
    (k : Worker) : Worker :=
  let now := se_instant (we_session env) in
  let k := count_confirmation k true in
  let k := schedule_succeeded k (mkRegistrationTarget network remote ServiceRelay) now in
  with_reported k (mark_relay_acknowledged (wk_reported k) network remote now).
Definition receive_signed_ack (env : WorkerEnv) (remote : SocketAddr) (k : Worker)
    (packet : bytes) : Worker :=
  match (from_slice (drop 5 packet) : option SignedRelayRegistrationAck) with
  | None => count_confirmation k false
  | Some acknowledgement =>
      match acknowledge_signed_relay_registration (wk_relay k) (wk_health k) acknowledgement remote
              (se_instant (we_session env)) (se_unix (we_session env)) with
      | None => count_confirmation k false
      | Some (transactions, health, network, hint) =>
          let k := relay_acknowledged env network remote (with_relay k transactions health) in
          if is_some_and hint (consider_authorization_hint (we_session env))
          then request_refresh k true else k
      end
  end.
Definition receive_legacy_ack (env : WorkerEnv) (remote : SocketAddr) (k : Worker)
    (packet : bytes) : Worker :=
  match parse_registration_ack packet with
  | None => k
  | Some (network, device, nonce) =>
      if negb (contains remote (relay_endpoints_for (we_configuration env) network))
         || bool_decide (device ≠ se_device_id (we_session env))
         || is_none (find_network (se_networks (we_session env)) network) then k else
      match acknowledge_relay_registration (wk_relay k) (wk_health k) network device nonce remote
              (se_instant (we_session env)) with
      | None => count_confirmation k false
      | Some (transactions, health) =>
          relay_acknowledged env network remote (with_relay k transactions health)
      end
  end.

(** ** One datagram *)
Record Arrival : Type := mkArrival {
  ar_remote : SocketAddr;
  ar_via_tls_relay : bool;
  ar_via_turn : bool;
  ar_via_tls_turn : bool;
}.
Definition inbound_of (env : WorkerEnv) (a : Arrival) : Inbound :=
  mkInbound (ar_remote a) (tc_relay_endpoints (we_configuration env)) (ar_via_tls_relay a)
    (ar_via_turn a) (ar_via_tls_turn a).
Definition in_tables (k : Worker) (r : SessionTables * list Effect) : Worker * list Effect :=
  (with_tables k r.1, r.2).

Definition receive_frame (env : WorkerEnv) (a : Arrival) (k : Worker) (packet : bytes)
    : result AgentError (Worker * list Effect) :=
  let s := we_session env in
  let w := wk_tables k in
  let kind := byte_at 4 packet in
  let from_relay := contains (ar_remote a) (tc_relay_endpoints (we_configuration env)) in
  if (kind =? RELAY_REGISTER_ACK_SIGNED) && from_relay
  then Ok (receive_signed_ack env (ar_remote a) k packet, [])
  else if (kind =? RELAY_REGISTER_ACK) && from_relay
  then Ok (receive_legacy_ack env (ar_remote a) k packet, [])
  else if (kind =? RELAY_PEER_IDENTITY) && from_relay
  then Ok (with_tables k (receive_peer_identity s w packet), [])
  else if (kind =? RELAY_PEER) && from_relay
  then Ok (in_tables k (receive_peer env w packet))
  else if (kind =? RELAY_PUNCH) || (kind =? RELAY_PUNCH_ACK)
  then Ok (in_tables k (receive_punch s (ar_remote a) w packet))
  else if kind =? RELAY_SESSION_INIT
  then in_tables k <$> receive_session_init s (inbound_of env a) w packet
  else if kind =? RELAY_SESSION_RESPONSE
  then in_tables k <$> receive_session_response s (inbound_of env a) w packet
  else if kind =? RELAY_SESSION_DATA
  then in_tables k <$> receive_session_data s (inbound_of env a) w packet
  else Ok (k, []).
Definition receive_udp_packet (env : WorkerEnv) (a : Arrival) (k : Worker) (packet : bytes)
    : result AgentError (Worker * list Effect) :=
  match parse_stun_binding_success packet with
  | Ok (Some (transaction_id, candidate)) =>
      Ok (receive_stun env (ar_remote a) k transaction_id candidate)
  | _ =>
      match handle_root_response env (ar_remote a) k packet with
      | (true, k, effects) => Ok (k, effects)
      | (false, k, _) =>
          if (len packet <? 5) || bool_decide (take 4 packet ≠ RELAY_MAGIC) then Ok (k, [])
          else receive_frame env a k packet
      end
  end.

(** ** The registration scan *)
Record RegistrationMembership : Type := mkRegistrationMembership {
  rm_certificate : MembershipCertificate;
  rm_authorization : NetworkAuthorizationManifest;
}.
(** The networks this device can register for now. *)
Definition registration_membership (now : Z) (network : JoinedNetwork)
    : option RegistrationMembership :=
  certificate ← jn_certificate network;
  authorization ← verified_authorization_manifest network now;
  if authorizes authorization certificate
  then Some (mkRegistrationMembership certificate authorization) else None.
Definition registration_memberships (env : SessionEnv) : list RegistrationMembership :=
  omap (registration_membership (se_unix env)) (se_networks env).

Definition sign_registration_for_planet_service (planet_manifest_version : option Z)
    (service_kind : RootRegistrationServiceKind) (service_identity : option ServiceIdentityPolicy)
    (device_id : DeviceId) (membership : RegistrationMembership)
    (advertised_candidates : list SocketAddr) (issued_at : Z) (nonce : bytes)
    (signing_key : SigningKey) : result RootProtocolError.t (option RootRegistration) :=
  let certificates := [rm_certificate membership] in
  let manifests := [rm_authorization membership] in
  let signed_planet := is_some_and planet_manifest_version (λ v, (v =? 3) || (v =? 4) || (v =? 5)) in
  let unsigned_planet := is_none_or planet_manifest_version (λ v, (v =? 1) || (v =? 2)) in
  if signed_planet then
    match service_identity with
    | None => Ok None
    | Some identity =>
        Some <$> sign_authorized_for_service device_id certificates manifests advertised_candidates
                   issued_at nonce service_kind (service_id identity) signing_key
    end
  else if unsigned_planet then
    Some <$> registration_sign_authorized device_id certificates manifests advertised_candidates
               issued_at nonce signing_key
  else Ok None.

(** The schedule of a target, brought up to date. *)
Definition current_schedule (env : SessionEnv) (k : Worker) (target : RegistrationTarget)
    : RegistrationSchedule :=
  (expire_if_timed_out
     (default (schedule_new (se_device_id env) target (se_instant env)) (wk_schedules k !! target))
     (se_instant env) TRANSPORT_TRANSACTION_TTL).1.
Definition store_schedule (k : Worker) (target : RegistrationTarget) (s : RegistrationSchedule)
    : Worker := with_schedules k (<[target := s]> (wk_schedules k)).
Definition record_attempt (s : RegistrationSchedule) (sent : bool) (now : Z)
    : RegistrationSchedule := if sent then mark_sent s now else mark_send_failure s now.

Definition relay_registration_packet (signed : RootRegistration) : option bytes :=
  (λ encoded, RELAY_MAGIC ++ [RELAY_REGISTER_SIGNED] ++ encoded) <$> to_vec signed.
(** Every transport is tried; one that takes the packet is enough. *)
Definition send_registration (env : WorkerEnv) (network_id : NetworkId) (endpoint : SocketAddr)
    (packet : bytes) : list Effect * bool :=
  let s := we_session env in
  let routes := List.filter (λ route, bool_decide (tr_relay_endpoint route = endpoint))
                  (tls_relays_for (we_configuration env) network_id) in
  let '(tls_effects, tls_sent) :=
    first_sent s packet (map (λ route, (TlsRelay, tr_relay_endpoint route, SessionPath.TlsRelay)) routes) in
  ([Transmit Sockets endpoint packet; Transmit TurnUdp endpoint packet] ++ tls_effects,
   se_send s Sockets endpoint packet || se_send s TurnUdp endpoint packet || is_some tls_sent).

Definition register_with_relay (env : WorkerEnv) (membership : RegistrationMembership)
    (acc : Worker * list Effect) (endpoint : SocketAddr) : result AgentError (Worker * list Effect) :=
  let '(k, done) := acc in
  let s := we_session env in
  let network_id := mc_network_id (cert_claims (rm_certificate membership)) in
  let target := mkRegistrationTarget network_id endpoint ServiceRelay in
  let schedule := current_schedule s k target in
  let k := store_schedule k target schedule in
  if negb (is_due schedule (se_instant s)) then Ok (k, done) else
  let k := with_relay k (retain (λ _ t, bool_decide ((ltx_network_id t, ltx_endpoint t)
                                                     ≠ (network_id, endpoint))) (wk_relay k))
             (wk_health k) in
  let nonce := we_nonce env target in
  let version := planet_manifest_version_for (we_configuration env) network_id in
  let identity := relay_identity_for (we_configuration env) network_id endpoint in
  signed ← map_err (λ _, RegistrationFailed)
    (sign_registration_for_planet_service version Relay identity (se_device_id s) membership
       (wk_candidates k) (se_unix s) nonce (se_identity s));
  match signed with
  | None => Ok (k, done)
  | Some signed =>
      packet ← ok_or (relay_registration_packet signed) RegistrationFailed;
      let '(effects, sent) := send_registration env network_id endpoint packet in
      let k := store_schedule k target (record_attempt schedule sent (se_instant s)) in
      Ok (if sent
          then with_relay k (<[nonce := mkRelayRegistrationTransaction network_id (se_device_id s)
                                 endpoint version identity (se_instant s)]> (wk_relay k)) (wk_health k)
          else k, done ++ effects)
  end.
Definition register_with_root (env : WorkerEnv) (membership : RegistrationMembership)
    (root : PlanetRoot) (acc : Worker * list Effect) (endpoint : SocketAddr)
    : result AgentError (Worker * list Effect) :=
  let '(k, done) := acc in
  let s := we_session env in
  let network_id := mc_network_id (cert_claims (rm_certificate membership)) in
  let target := mkRegistrationTarget network_id endpoint ServiceRoot in
  let schedule := current_schedule s k target in
  let k := store_schedule k target schedule in
  if negb (is_due schedule (se_instant s)) then Ok (k, done) else
  let k := with_root k (retain (λ _ t, bool_decide (rtx_network_id t ≠ network_id)
                                       || bool_decide (rtx_endpoint t ≠ endpoint)) (wk_root k)) in
  let nonce := we_nonce env target in
  signed ← map_err (λ _, RegistrationFailed)
    (sign_registration_for_planet_service
       (planet_manifest_version_for (we_configuration env) network_id) Root (root_identity root)
       (se_device_id s) membership (wk_candidates k) (se_unix s) nonce (se_identity s));
  match signed with
  | None => Ok (k, done)
  | Some signed =>
      packet ← ok_or (to_vec signed) RegistrationFailed;
      let sent := se_send s Sockets endpoint packet in
      let k := store_schedule k target (record_attempt schedule sent (se_instant s)) in
      Ok (if sent
          then with_root k (<[nonce := mkRootTransaction network_id endpoint (root_public_key root)
                                (root_identity root) (se_instant s)]> (wk_root k))
          else k, done ++ [Transmit Sockets endpoint packet])
  end.
Definition register_membership (env : WorkerEnv) (acc : Worker * list Effect)
    (membership : RegistrationMembership) : result AgentError (Worker * list Effect) :=
  let network_id := mc_network_id (cert_claims (rm_certificate membership)) in
  acc ← try_foldl (register_with_relay env membership) acc
          (relay_endpoints_for (we_configuration env) network_id);
  try_foldl (λ acc root, try_foldl (register_with_root env membership root) acc
                           (root_endpoints root))
    acc (root_servers_for (we_configuration env) network_id).
Definition membership_targets (c : TransportConfiguration) (membership : RegistrationMembership)
    : list RegistrationTarget :=
  let network_id := mc_network_id (cert_claims (rm_certificate membership)) in
  map (λ e, mkRegistrationTarget network_id e ServiceRelay) (relay_endpoints_for c network_id)
  ++ map (λ e, mkRegistrationTarget network_id e ServiceRoot)
       (concat (map root_endpoints (root_servers_for c network_id))).

(** STUN servers with the transaction identifiers drawn for them. *)
Definition request_stun (env : WorkerEnv) (acc : Worker * list Effect)
    (request : SocketAddr * bytes) : Worker * list Effect :=
  let '(k, done) := acc in
  let '(server, transaction_id) := request in
  let packet := stun_binding_request transaction_id in
  (if se_send (we_session env) Sockets server packet
   then with_stun k (<[transaction_id := mkStunTransaction server (se_instant (we_session env))]>
                       (wk_stun k)) (wk_candidates k)
   else k, done ++ [Transmit Sockets server packet]).
Definition expire_transactions (now : Z) (k : Worker) : Worker :=
  let fresh issued ttl := duration_since now issued <? ttl in
  let k := with_stun k (retain (λ _ t, fresh (stx_issued_at t) STUN_TRANSACTION_TTL) (wk_stun k))
             (wk_candidates k) in
  let k := with_root k (retain (λ _ t, fresh (rtx_issued_at t) TRANSPORT_TRANSACTION_TTL) (wk_root k)) in
  with_relay k (retain (λ _ t, fresh (ltx_issued_at t) TRANSPORT_TRANSACTION_TTL) (wk_relay k))
    (wk_health k).
Definition registration_scan (env : WorkerEnv) (stun : list (SocketAddr * bytes)) (k : Worker)
    : result AgentError (Worker * list Effect) :=
  let memberships := registration_memberships (we_session env) in
  '(k, effects) ← try_foldl (register_membership env) (k, []) memberships;
  let active := concat (map (membership_targets (we_configuration env)) memberships) in
  let k := with_schedules k (retain (λ target _, contains target active) (wk_schedules k)) in
  let '(k, effects) := foldl (request_stun env) (k, effects) stun in
  Ok (expire_transactions (se_instant (we_session env)) k, effects).
Definition registration_backoff_seconds (k : Worker) : Z :=
  as_secs (foldl Z.max 0 (map rs_last_delay (hash_values (wk_schedules k)))).

(** ** One turn of the timer *)
Definition renew_mapping (external : SocketAddr) (k : Worker) : Worker :=
  let candidates := match wk_mapping k with
    | Some previous => List.filter (λ c, bool_decide (c ≠ previous)) (wk_candidates k)
    | None => wk_candidates k end in
  let candidates :=
    if negb (contains external candidates) && (len candidates <? MAX_ADVERTISED_CANDIDATES)
    then candidates ++ [external] else candidates in
  mkWorker (wk_tables k) (wk_stun k) (wk_root k) (wk_relay k) candidates (wk_health k)
    (wk_schedules k) (wk_reported k) (wk_confirmations_accepted k) (wk_confirmations_rejected k)
    (wk_hint_refreshes k) (wk_refresh_requested k) (Some external) (wk_paths k).
Definition with_paths (k : Worker) (paths : list PeerPathStatus) : Worker :=
  mkWorker (wk_tables k) (wk_stun k) (wk_root k) (wk_relay k) (wk_candidates k) (wk_health k)
    (wk_schedules k) (wk_reported k) (wk_confirmations_accepted k) (wk_confirmations_rejected k)
    (wk_hint_refreshes k) (wk_refresh_requested k) (wk_mapping k) paths.

(** What a tick finds: the agent's revision, the timers that are due, the
    renewed port mapping, and the packets the active adapter holds. *)
Record TickPlan : Type := mkTickPlan {
  tp_revision : Z;
  tp_mapping : option SocketAddr;
  tp_retry : bool;
  tp_probe : bool;
  tp_scan : bool;
  tp_stun : list (SocketAddr * bytes);
  tp_packets : list bytes;
}.
Definition MAX_PACKETS_PER_TICK : nat := 32.
Definition outbound_step (env : WorkerEnv) (acc : Worker * list Effect) (packet : bytes)
    : result AgentError (Worker * list Effect) :=
  let '(k, done) := acc in
  '(w, effects) ← outbound_packet (we_session env) (relays_of (we_configuration env)) (wk_health k)
                    (wk_tables k) packet;
  Ok (with_tables k w, done ++ effects).
Definition tick_maintenance (env : WorkerEnv) (plan : TickPlan) (k : Worker)
    : Worker * list Effect :=
  let s := we_session env in
  let k := match tp_mapping plan with Some external => renew_mapping external k | None => k end in
  let k := with_tables k (drop_unauthorized s (wk_tables k)) in
  let '(k, effects) :=
    if tp_retry plan
    then in_tables k (retry_handshakes s (relays_of (we_configuration env)) (wk_health k) (wk_tables k))
    else (k, []) in
  if tp_probe plan then
    let '(w, probes) := probe_peers s (wk_tables k) in
    (with_paths (with_tables k w) (peer_paths (st_peers w) (se_instant s)), effects ++ probes)
  else (k, effects).
(** [None]: the worker leaves its loop, to be rebuilt. *)
Definition tick (env : WorkerEnv) (plan : TickPlan) (k : Worker)
    : result AgentError (option (Worker * list Effect)) :=
  let s := we_session env in
  if negb (tp_revision plan =? se_revision s) || has_expired_planet (we_configuration env) (se_unix s)
  then Ok None else
  let '(k, effects) := tick_maintenance env plan k in
  '(k, effects) ←
    (if tp_scan plan
     then '(k, more) ← registration_scan env (tp_stun plan) k; Ok (k, effects ++ more)
     else Ok (k, effects));
  Some <$> try_foldl (outbound_step env) (k, effects) (take MAX_PACKETS_PER_TICK (tp_packets plan)).

Inductive WorkerInput : Type :=
| Datagram (arrival : Arrival) (packet : bytes)
| Tick (plan : TickPlan).
Definition worker_step (env : WorkerEnv) (input : WorkerInput) (k : Worker)
    : result AgentError (option (Worker * list Effect)) :=
  match input with
  | Datagram arrival packet => Some <$> receive_udp_packet env arrival k packet
  | Tick plan => tick env plan k
  end.
End agent_worker.
