(* ===== verification/Turn.v ===== *)
(** * The TURN client: messages and allocations ([meshlaked/src/turn.rs]) *)
From S2P Require Import Prelude Request Net Text Ext Model Planet Responses TransportHealth.
From S2P Require Import Frames.
From S2P Require Import AgentWorker.
#[local] Open Scope Z_scope.

(** ** Constants; times are nanoseconds *)
Definition MAGIC_COOKIE : Z := 0x2112A442.
Definition HEADER_LEN : nat := 20.
Definition MAX_MESSAGE_LEN : Z := 65535.
Definition OUTBOUND_QUEUE_CAPACITY : nat := 128.
Definition DEFAULT_LIFETIME : Z := 300.
Definition ALLOCATE_REQUEST : Z := 0x0003.
Definition ALLOCATE_SUCCESS : Z := 0x0103.
Definition ALLOCATE_ERROR : Z := 0x0113.
Definition CREATE_PERMISSION_REQUEST : Z := 0x0008.
Definition CREATE_PERMISSION_SUCCESS : Z := 0x0108.
Definition SEND_INDICATION : Z := 0x0016.
Definition DATA_INDICATION : Z := 0x0017.
Definition REFRESH_REQUEST : Z := 0x0004.
Definition REFRESH_SUCCESS : Z := 0x0104.
Definition ATTR_USERNAME : Z := 0x0006.
Definition ATTR_MESSAGE_INTEGRITY : Z := 0x0008.
Definition ATTR_ERROR_CODE : Z := 0x0009.
Definition ATTR_LIFETIME : Z := 0x000d.
Definition ATTR_XOR_PEER_ADDRESS : Z := 0x0012.
Definition ATTR_DATA : Z := 0x0013.
Definition ATTR_REALM : Z := 0x0014.
Definition ATTR_NONCE : Z := 0x0015.
Definition ATTR_REQUESTED_TRANSPORT : Z := 0x0019.

(** [TurnFault]: an index out of range or the attribute loop without an end,
    which the code would not survive. *)
Inductive TurnError : Type :=
| TurnFault (e : access_error) | TurnMalformed | TurnTooLong | TurnKeyInvalid | TurnRandomness
| TurnRejected | TurnUnexpected | TurnNoChallenge | TurnTimedOut | TurnIo | TurnRoute.

(** [md-5] and [hmac] over [sha1]. *)
Class TurnLib := {
  md5_compute : bytes → bytes;
  turn_hmac_sha1 : bytes → bytes → option bytes;
}.
Class TurnLibLaws `{TurnLib} : Prop := {
  turn_hmac_length key m tag : turn_hmac_sha1 key m = Some tag → length tag = 20%nat;
}.

(** ** Writing messages *)
Abbreviation attribute := (Z * bytes)%type.
(** [(n + 3) & !3] *)
Definition padded (n : nat) : nat := Z.to_nat (Z.land (Z.of_nat n + 3) (Z.lnot 3)).
Definition zero_resized (n : nat) (target : bytes) : bytes :=
  take n target ++ replicate (n - length target) 0.
Definition append_attribute (target : bytes) (kind : Z) (value : bytes) : result TurnError bytes :=
  bail_if (65535 <? len value) TurnTooLong ;;
  let target := target ++ be_bytes 2 kind ++ be_bytes 2 (len value) ++ value in
  Ok (zero_resized (padded (length target)) target).
Fixpoint append_attributes (body : bytes) (attributes : list attribute) : result TurnError bytes :=
  match attributes with
  | [] => Ok body
  | (kind, value) :: attributes =>
      body ← append_attribute body kind value; append_attributes body attributes
  end.
Section encoding.
Context `{TurnLib}.
Definition encode_message (message_type : Z) (transaction : bytes) (attributes : list attribute)
    (integrity_key : option bytes) : result TurnError bytes :=
  body ← append_attributes [] attributes;
  let integrity_len := match integrity_key with Some _ => 24 | None => 0 end in
  let total_body_len := len body + integrity_len in
  bail_if (65535 <? total_body_len) TurnTooLong ;;
  let message := be_bytes 2 message_type ++ be_bytes 2 total_body_len
                 ++ be_bytes 4 MAGIC_COOKIE ++ transaction ++ body in
  match integrity_key with
  | None => Ok message
  | Some key =>
      tag ← ok_or (turn_hmac_sha1 key message) TurnKeyInvalid;
      append_attribute message ATTR_MESSAGE_INTEGRITY tag
  end.
Record Authentication : Type := mkAuthentication {
  au_realm : bytes;
  au_nonce : bytes;
  au_lifetime : Z;
}.
Definition encode_authenticated (message_type : Z) (transaction : bytes)
    (attributes : list attribute) (credential : TurnCredential) (authentication : Authentication)
    : result TurnError bytes :=
  let attributes := attributes ++ [(ATTR_USERNAME, bytes_of_string (tc_username credential));
                                   (ATTR_REALM, au_realm authentication);
                                   (ATTR_NONCE, au_nonce authentication)] in
  let key_material := bytes_of_string (tc_username credential) ++ [58] ++ au_realm authentication
                      ++ [58] ++ bytes_of_string (tc_password credential) in
  encode_message message_type transaction attributes (Some (md5_compute key_material)).
End encoding.
(** The port is masked with the head of the cookie, an IPv4 address with the
    cookie, the first four bytes of an IPv6 address with the cookie. *)
Definition cookie_mask (index : nat) : Z := default 0 (be_bytes 4 MAGIC_COOKIE !! index).
Definition mask_ipv6 (octets : bytes) : bytes :=
  imap (λ index byte, Z.lxor byte (if (index <? 4)%nat then cookie_mask index else 0)) octets.
Definition encode_xor_address (address : SocketAddr) : bytes :=
  [0; if socket_is_ipv4 address then 1 else 2]
  ++ be_bytes 2 (Z.lxor (socket_port address) (Z.shiftr MAGIC_COOKIE 16))
  ++ match socket_ip address with
     | V4 a => be_bytes 4 (Z.lxor a MAGIC_COOKIE)
     | V6 a => mask_ipv6 (be_bytes 16 a)
     end.

(** ** Reading messages *)
Record Message : Type := mkMessage {
  ms_type : Z;
  ms_transaction : bytes;
  ms_attributes : list attribute;
}.
Definition attribute_of (message : Message) (kind : Z) : option bytes :=
  snd <$> List.find (λ a, a.1 =? kind) (ms_attributes message).
Definition turn_range (a b : nat) (bs : bytes) : result TurnError bytes :=
  map_err TurnFault (range a b bs).
Definition turn_index (i : nat) (bs : bytes) : result TurnError Z := map_err TurnFault (index i bs).
(** Only called on values of four bytes and more. *)
Definition error_code (message : Message) : option Z :=
  value ← attribute_of message ATTR_ERROR_CODE;
  if (4 <=? length value)%nat
  then Some (Z.land (nth 2 value 0) 7 * 100 + nth 3 value 0) else None.
Definition lifetime (message : Message) : option Z :=
  value ← attribute_of message ATTR_LIFETIME;
  from_be <$> try_into 4 value.
Definition xor_peer_address (message : Message) : result TurnError (option SocketAddr) :=
  match attribute_of message ATTR_XOR_PEER_ADDRESS with
  | None => Ok None
  | Some value =>
      bail_if (length value <? 8)%nat TurnMalformed ;;
      reserved ← turn_index 0 value;
      bail_if (negb (reserved =? 0)) TurnMalformed ;;
      port_bytes ← turn_range 2 4 value;
      let port := Z.lxor (from_be port_bytes) (Z.shiftr MAGIC_COOKIE 16) in
      family ← turn_index 1 value;
      if (family =? 1) && (length value =? 8)%nat then
        encoded ← turn_range 4 8 value;
        Ok (Some (socket_new (V4 (Z.lxor (from_be encoded) MAGIC_COOKIE)) port))
      else if (family =? 2) && (length value =? 20)%nat then
        encoded ← turn_range 4 20 value;
        Ok (Some (socket_new (ipv6_of_octets (mask_ipv6 encoded)) port))
      else Err TurnMalformed
  end.
(** The attribute loop moves by four bytes at least, so the length is fuel enough. *)
Fixpoint parse_attributes (fuel : nat) (bs : bytes) (cursor : nat)
    : result TurnError (list attribute) :=
  if (length bs <=? cursor)%nat then Ok [] else
  match fuel with
  | O => Err (TurnFault OutOfFuel)
  | S fuel =>
      bail_if (length bs <? cursor + 4)%nat TurnMalformed ;;
      kind ← from_be <$> turn_range cursor (cursor + 2) bs;
      size ← from_be <$> turn_range (cursor + 2) (cursor + 4) bs;
      let start := (cursor + 4)%nat in
      let end_ := (start + Z.to_nat size)%nat in
      bail_if (length bs <? end_)%nat TurnMalformed ;;
      value ← turn_range start end_ bs;
      let next := padded end_ in
      bail_if (length bs <? next)%nat TurnMalformed ;;
      rest ← parse_attributes fuel bs next;
      Ok ((kind, value) :: rest)
  end.
Definition parse_message (bs : bytes) : result TurnError Message :=
  bail_if ((length bs <? HEADER_LEN)%nat || (MAX_MESSAGE_LEN <? len bs)) TurnMalformed ;;
  message_type ← from_be <$> turn_range 0 2 bs;
  bail_if (negb (Z.land message_type 0xc000 =? 0)) TurnMalformed ;;
  body_len ← from_be <$> turn_range 2 4 bs;
  bail_if (negb (body_len + Z.of_nat HEADER_LEN =? len bs) || negb (body_len mod 4 =? 0))
    TurnMalformed ;;
  cookie ← from_be <$> turn_range 4 8 bs;
  bail_if (negb (cookie =? MAGIC_COOKIE)) TurnMalformed ;;
  transaction ← turn_range 8 20 bs;
  attributes ← parse_attributes (length bs) bs HEADER_LEN;
  Ok (mkMessage message_type transaction attributes).

(** ** The connection to a server *)
Definition authentication_from_challenge (message : Message) : result TurnError Authentication :=
  bail_if (bool_decide (error_code message ≠ Some 401) && bool_decide (error_code message ≠ Some 438))
    TurnNoChallenge ;;
  let non_empty kind := match attribute_of message kind with
                        | Some (b :: bs) => Some (b :: bs) | _ => None end in
  realm ← ok_or (non_empty ATTR_REALM) TurnNoChallenge;
  nonce ← ok_or (non_empty ATTR_NONCE) TurnNoChallenge;
  Ok (mkAuthentication realm nonce DEFAULT_LIFETIME).

(** What the client needs of a connection: a drawn transaction identifier, the
    sending of a message, and the response to a transaction. *)
Record Transport (S : Type) : Type := mkTransport {
  tr_new_transaction_id : handler S TurnError bytes;
  tr_send : bytes → handler S TurnError unit;
  tr_receive_response : bytes → handler S TurnError Message;
}.
Arguments mkTransport {S} _ _ _.
Arguments tr_new_transaction_id {S} _.
Arguments tr_send {S} _ _.
Arguments tr_receive_response {S} _ _.
Definition draw (draws : list (option bytes)) : result TurnError bytes * list (option bytes) :=
  match draws with
  | Some id :: draws => (Ok id, draws)
  | None :: draws => (Err TurnRandomness, draws)
  | [] => (Err TurnRandomness, [])
  end.

(** A socket: what arrives, in order, what was sent, and which sends fail.
    [Quiet]: the time allowed for a response runs out. *)
Inductive Arrival : Type := Datagram (source : SocketAddr) (bs : bytes) | ReceiveFailed | Quiet.
Record Socket : Type := mkSocket {
  so_arriving : list Arrival;
  so_sent : list (SocketAddr * bytes);
  so_draws : list (option bytes);
  so_refuses : nat → bool;
}.
Definition with_arriving (s : Socket) (arriving : list Arrival) : Socket :=
  mkSocket arriving (so_sent s) (so_draws s) (so_refuses s).
Definition with_sent (s : Socket) (sent : list (SocketAddr * bytes)) : Socket :=
  mkSocket (so_arriving s) sent (so_draws s) (so_refuses s).
Definition socket_new_transaction_id : handler Socket TurnError bytes := λ s,
  let '(r, draws) := draw (so_draws s) in
  (r, mkSocket (so_arriving s) (so_sent s) draws (so_refuses s)).
Definition send_to (server : SocketAddr) (bs : bytes) : handler Socket TurnError unit :=
  s ← read;
  lift (bail_if (so_refuses s (length (so_sent s))) TurnIo) ;;
  write (with_sent s (so_sent s ++ [(server, bs)])).
Fixpoint await_response (server : SocketAddr) (transaction : bytes) (arriving : list Arrival)
    : result TurnError Message * list Arrival :=
  match arriving with
  | [] => (Err TurnTimedOut, [])
  | Quiet :: arriving => (Err TurnTimedOut, arriving)
  | ReceiveFailed :: arriving => (Err TurnIo, arriving)
  | Datagram source bs :: arriving =>
      if bool_decide (source ≠ server) then await_response server transaction arriving else
      match parse_message bs with
      | Err e => (Err e, arriving)
      | Ok message =>
          if bool_decide (ms_transaction message = transaction) then (Ok message, arriving)
          else await_response server transaction arriving
      end
  end.
Definition receive_response (server : SocketAddr) (transaction : bytes)
    : handler Socket TurnError Message := λ s,
  let '(r, arriving) := await_response server transaction (so_arriving s) in
  (r, with_arriving s arriving).
Definition udp (server : SocketAddr) : Transport Socket :=
  mkTransport socket_new_transaction_id (send_to server) (receive_response server).

(** A TLS stream: the bytes that arrive and whether the peer then closes it, the
    messages written, and which writes fail. *)
Record Stream : Type := mkStream {
  sm_arriving : bytes;
  sm_closed : bool;
  sm_written : list bytes;
  sm_draws : list (option bytes);
  sm_refuses : nat → bool;
}.
Definition with_bytes (s : Stream) (arriving : bytes) : Stream :=
  mkStream arriving (sm_closed s) (sm_written s) (sm_draws s) (sm_refuses s).
Definition stream_new_transaction_id : handler Stream TurnError bytes := λ s,
  let '(r, draws) := draw (sm_draws s) in
  (r, mkStream (sm_arriving s) (sm_closed s) (sm_written s) draws (sm_refuses s)).
(** [read_exact]; a stream that stays silent runs into the time limit. *)
Definition read_exact (n : nat) : handler Stream TurnError bytes :=
  s ← read;
  if (n <=? length (sm_arriving s))%nat
  then write (with_bytes s (drop n (sm_arriving s))) ;; mret (take n (sm_arriving s))
  else write (with_bytes s []) ;; lift (Err (if sm_closed s then TurnIo else TurnTimedOut)).
Definition read_turn_stream_message : handler Stream TurnError bytes :=
  header ← read_exact HEADER_LEN;
  body_len ← lift (from_be <$> turn_range 2 4 header);
  lift (bail_if (negb (body_len mod 4 =? 0)
                 || (MAX_MESSAGE_LEN <? body_len + Z.of_nat HEADER_LEN)) TurnMalformed) ;;
  body ← read_exact (Z.to_nat body_len);
  mret (header ++ body).
Definition write_turn_stream_message (message : bytes) : handler Stream TurnError unit :=
  lift (parse_message message) ;;
  s ← read;
  lift (bail_if (sm_refuses s (length (sm_written s))) TurnIo) ;;
  write (mkStream (sm_arriving s) (sm_closed s) (sm_written s ++ [message]) (sm_draws s)
           (sm_refuses s)).
(** Every message takes a header from the stream, so its length is fuel enough. *)
Fixpoint await_stream_response (fuel : nat) (transaction : bytes)
    : handler Stream TurnError Message :=
  match fuel with
  | O => lift (Err (TurnFault OutOfFuel))
  | S fuel =>
      bs ← read_turn_stream_message;
      message ← lift (parse_message bs);
      if bool_decide (ms_transaction message = transaction) then mret message
      else await_stream_response fuel transaction
  end.
Definition receive_stream_response (transaction : bytes) : handler Stream TurnError Message :=
  s ← read; await_stream_response (S (length (sm_arriving s))) transaction.
Definition tls : Transport Stream :=
  mkTransport stream_new_transaction_id write_turn_stream_message receive_stream_response.

(** ** Allocations, over either connection *)
Section protocol.
Context `{UuidLib} `{TurnLib}.
Definition requested_transport : list attribute := [(ATTR_REQUESTED_TRANSPORT, [17; 0; 0; 0])].
(** [clamp], in seconds *)
Definition granted_lifetime (response : Message) : Z :=
  Z.min DEFAULT_LIFETIME (Z.max 60 (default DEFAULT_LIFETIME (lifetime response))).
Definition with_lifetime (a : Authentication) (seconds : Z) : Authentication :=
  mkAuthentication (au_realm a) (au_nonce a) seconds.

Section over.
Context {S : Type} (tr : Transport S) (credential : TurnCredential).
Definition authenticated_request (message_type : Z) (attributes : list attribute)
    (authentication : Authentication) : handler S TurnError Message :=
  transaction ← tr_new_transaction_id tr;
  bs ← lift (encode_authenticated message_type transaction attributes credential authentication);
  tr_send tr bs ;;
  tr_receive_response tr transaction.
Fixpoint allocate_authenticated_over (attempts : nat) (authentication : Authentication)
    : handler S TurnError Authentication :=
  match attempts with
  | O => lift (Err TurnRejected)
  | Datatypes.S attempts =>
      response ← authenticated_request ALLOCATE_REQUEST requested_transport authentication;
      if ms_type response =? ALLOCATE_SUCCESS then
        mret (with_lifetime authentication (granted_lifetime response))
      else if (ms_type response =? ALLOCATE_ERROR) && bool_decide (error_code response = Some 438) then
        authentication ← lift (authentication_from_challenge response);
        allocate_authenticated_over attempts authentication
      else if ms_type response =? ALLOCATE_ERROR then lift (Err TurnRejected)
      else lift (Err TurnUnexpected)
  end.
Definition allocate_over : handler S TurnError Authentication :=
  transaction ← tr_new_transaction_id tr;
  initial ← lift (encode_message ALLOCATE_REQUEST transaction requested_transport None);
  tr_send tr initial ;;
  response ← tr_receive_response tr transaction;
  authentication ← lift (if ms_type response =? ALLOCATE_ERROR
                         then authentication_from_challenge response else Err TurnUnexpected);
  allocate_authenticated_over 2 authentication.
Definition create_permission_over (authentication : Authentication) (peer : SocketAddr)
    : handler S TurnError unit :=
  response ← authenticated_request CREATE_PERMISSION_REQUEST
               [(ATTR_XOR_PEER_ADDRESS, encode_xor_address peer)] authentication;
  lift (bail_if (negb (ms_type response =? CREATE_PERMISSION_SUCCESS)) TurnRejected).
Definition refresh_over (authentication : Authentication) : handler S TurnError Authentication :=
  response ← authenticated_request REFRESH_REQUEST [(ATTR_LIFETIME, be_bytes 4 DEFAULT_LIFETIME)]
               authentication;
  lift (bail_if (negb (ms_type response =? REFRESH_SUCCESS)) TurnRejected) ;;
  mret (with_lifetime authentication (granted_lifetime response)).
End over.

Definition allocate_authenticated (server : SocketAddr) (credential : TurnCredential)
    : Authentication → handler Socket TurnError Authentication :=
  allocate_authenticated_over (udp server) credential 2.
Definition allocate (server : SocketAddr) (credential : TurnCredential)
    : handler Socket TurnError Authentication := allocate_over (udp server) credential.
Definition create_permission (server : SocketAddr) (credential : TurnCredential)
    : Authentication → SocketAddr → handler Socket TurnError unit :=
  create_permission_over (udp server) credential.
Definition refresh (server : SocketAddr) (credential : TurnCredential)
    : Authentication → handler Socket TurnError Authentication := refresh_over (udp server) credential.
Definition allocate_authenticated_stream (credential : TurnCredential)
    : Authentication → handler Stream TurnError Authentication :=
  allocate_authenticated_over tls credential 2.
Definition allocate_stream (credential : TurnCredential) : handler Stream TurnError Authentication :=
  allocate_over tls credential.
Definition create_permission_stream (credential : TurnCredential)
    : Authentication → SocketAddr → handler Stream TurnError unit :=
  create_permission_over tls credential.
Definition refresh_stream (credential : TurnCredential)
    : Authentication → handler Stream TurnError Authentication := refresh_over tls credential.

(** ** Forwarding *)
Record TurnInbound : Type := mkTurnInbound { ti_relay_endpoint : SocketAddr; ti_packet : bytes }.
Record TurnOutbound : Type := mkTurnOutbound { to_peer : SocketAddr; to_packet : bytes }.
Record TurnTelemetry : Type := mkTurnTelemetry {
  tm_configured : Z;
  tm_allocated : Z;
  tm_allocation_failures : Z;
  tm_frames_sent : Z;
  tm_frames_received : Z;
  tm_queue_drops : Z;
}.
Definition telemetry_reset (configured : Z) : TurnTelemetry := mkTurnTelemetry configured 0 0 0 0 0.
(** [fetch_add] and [fetch_sub] wrap around. *)
Definition add_allocated (d : Z) (t : TurnTelemetry) : TurnTelemetry :=
  mkTurnTelemetry (tm_configured t) (wrap64 (tm_allocated t + d)) (tm_allocation_failures t)
    (tm_frames_sent t) (tm_frames_received t) (tm_queue_drops t).
Definition add_failure (t : TurnTelemetry) : TurnTelemetry :=
  mkTurnTelemetry (tm_configured t) (tm_allocated t) (wrap64 (tm_allocation_failures t + 1))
    (tm_frames_sent t) (tm_frames_received t) (tm_queue_drops t).
Definition add_sent (t : TurnTelemetry) : TurnTelemetry :=
  mkTurnTelemetry (tm_configured t) (tm_allocated t) (tm_allocation_failures t)
    (wrap64 (tm_frames_sent t + 1)) (tm_frames_received t) (tm_queue_drops t).
Definition add_received (t : TurnTelemetry) : TurnTelemetry :=
  mkTurnTelemetry (tm_configured t) (tm_allocated t) (tm_allocation_failures t) (tm_frames_sent t)
    (wrap64 (tm_frames_received t + 1)) (tm_queue_drops t).
Definition add_drop (t : TurnTelemetry) : TurnTelemetry :=
  mkTurnTelemetry (tm_configured t) (tm_allocated t) (tm_allocation_failures t) (tm_frames_sent t)
    (tm_frames_received t) (wrap64 (tm_queue_drops t + 1)).

(** One route: its connection, whether it is allocated, and what it handed on. *)
Record RouteRun (S : Type) : Type := mkRouteRun {
  rr_connection : S;
  rr_allocated : bool;
  rr_telemetry : TurnTelemetry;
  rr_delivered : list TurnInbound;
}.
Arguments mkRouteRun {S} _ _ _ _.
Arguments rr_connection {S} _.
Arguments rr_allocated {S} _.
Arguments rr_telemetry {S} _.
Arguments rr_delivered {S} _.
Record Forwarding : Type := mkForwarding {
  fo_authentication : Authentication;
  fo_permissions : gmap SocketAddr Z;
  fo_refresh_deadline : Z;
}.
(** What the loop may find ready, with the readings of the clock. *)
Inductive TurnEvent : Type :=
| ShutdownChanged (stop : bool)
| OutboundReady (packet : option TurnOutbound) (now later : Z)
| ReceiveReady (taken : bool)
| RefreshDue (later : Z).
Definition half_lifetime (a : Authentication) : Z := secs (au_lifetime a) / 2.
Definition set_forwarding_permission (f : Forwarding) (peer : SocketAddr) (expiry : Z) : Forwarding :=
  mkForwarding (fo_authentication f) (<[peer := expiry]> (fo_permissions f)) (fo_refresh_deadline f).
Definition permission_due (f : Forwarding) (peer : SocketAddr) (now : Z) : bool :=
  match fo_permissions f !! peer with None => true | Some expiry => expiry <=? now + secs 30 end.

Section forwarding.
Context {S : Type} (tr : Transport S) (credential : TurnCredential).
(** The next message for the loop, and what is lost when the loop abandons the
    read for another event. *)
Context (receive_next : handler S TurnError (option bytes)) (abandon : nat → S → S).
Abbreviation turn := (handler (RouteRun S) TurnError).
Definition on_connection {A} (m : handler S TurnError A) : turn A := λ r,
  let '(a, s) := m (rr_connection r) in
  (a, mkRouteRun s (rr_allocated r) (rr_telemetry r) (rr_delivered r)).
Definition count (f : TurnTelemetry → TurnTelemetry) : turn unit :=
  r ← read; write (mkRouteRun (rr_connection r) (rr_allocated r) (f (rr_telemetry r)) (rr_delivered r)).
Definition deliver (packet : TurnInbound) : turn unit :=
  r ← read;
  write (mkRouteRun (rr_connection r) (rr_allocated r) (rr_telemetry r) (rr_delivered r ++ [packet])).

Definition forward_outbound (f : Forwarding) (o : TurnOutbound) (now later : Z) : turn Forwarding :=
  f ← (if permission_due f (to_peer o) now then
         on_connection (create_permission_over tr credential (fo_authentication f) (to_peer o)) ;;
         mret (set_forwarding_permission f (to_peer o) (later + secs 240))
       else mret f);
  transaction ← on_connection (tr_new_transaction_id tr);
  bs ← lift (encode_authenticated SEND_INDICATION transaction
               [(ATTR_XOR_PEER_ADDRESS, encode_xor_address (to_peer o)); (ATTR_DATA, to_packet o)]
               credential (fo_authentication f));
  on_connection (tr_send tr bs) ;;
  count add_sent ;;
  mret f.
(** Whether the loop goes on. *)
Definition forward_received (taken : bool) : turn bool :=
  received ← on_connection receive_next;
  match (received : option bytes) with
  | None => mret true
  | Some bs =>
      message ← lift (parse_message bs);
      if negb (ms_type message =? DATA_INDICATION) then mret true else
      peer ← lift (xor_peer_address message);
      match (peer : option SocketAddr), attribute_of message ATTR_DATA with
      | None, _ | _, None | _, Some [] => mret true
      | Some peer, Some packet =>
          if negb taken then mret false else
          deliver (mkTurnInbound peer packet) ;; count add_received ;; mret true
      end
  end.
Definition abandon_read (lost : nat) : turn unit :=
  r ← read;
  write (mkRouteRun (abandon lost (rr_connection r)) (rr_allocated r) (rr_telemetry r)
           (rr_delivered r)).
(** One turn of the loop: the state it goes on with, if it goes on.  Every event but
    a complete message abandons the read, which had taken [lost] bytes. *)
Definition forward_event (f : Forwarding) (lost : nat) (event : TurnEvent) : turn (option Forwarding) :=
  match event with
  | ShutdownChanged stop => abandon_read lost ;; mret (if stop then None else Some f)
  | OutboundReady None _ _ => abandon_read lost ;; mret None
  | OutboundReady (Some o) now later =>
      abandon_read lost ;; f ← forward_outbound f o now later; mret (Some f)
  | ReceiveReady taken =>
      more ← forward_received taken; mret (if (more : bool) then Some f else None)
  | RefreshDue later =>
      abandon_read lost ;;
      a ← on_connection (refresh_over tr credential (fo_authentication f));
      mret (Some (mkForwarding a (fo_permissions f) (later + half_lifetime a)))
  end.
(** [true] when the loop returned, [false] when the events end before it does. *)
Fixpoint forward (f : Forwarding) (events : list (nat * TurnEvent)) : turn bool :=
  match events with
  | [] => mret false
  | (lost, event) :: events =>
      next ← forward_event f lost event;
      match (next : option Forwarding) with
      | None => mret true
      | Some f => forward f events
      end
  end.
Definition set_allocated : turn unit :=
  r ← read;
  write (mkRouteRun (rr_connection r) true
           (if rr_allocated r then rr_telemetry r else add_allocated 1 (rr_telemetry r))
           (rr_delivered r)).
Definition allocate_and_forward (now : Z) (events : list (nat * TurnEvent)) : turn bool :=
  a ← on_connection (allocate_over tr credential);
  set_allocated ;;
  forward (mkForwarding a ∅ (now + half_lifetime a)) events.
End forwarding.

(** ** The loop over a socket *)
Definition receive_datagram (server : SocketAddr) : handler Socket TurnError (option bytes) :=
  s ← read;
  match so_arriving s with
  | [] => mret None
  | Quiet :: arriving => write (with_arriving s arriving) ;; mret None
  | ReceiveFailed :: arriving => write (with_arriving s arriving) ;; lift (Err TurnIo)
  | Datagram source bs :: arriving =>
      write (with_arriving s arriving) ;;
      mret (if bool_decide (source ≠ server) then None else Some bs)
  end.
Definition connect_and_forward (route : TurnUdpRoute) (bound : bool) (now : Z)
    (events : list (nat * TurnEvent)) : handler (RouteRun Socket) TurnError bool :=
  let server := turn_endpoint (tu_server route) in
  lift (bail_if (bool_decide (turn_transport (tu_server route) ≠ Udp)) TurnRoute) ;;
  lift (bail_if (negb bound) TurnIo) ;;
  allocate_and_forward (udp server) (tu_credential route) (receive_datagram server) (λ _ s, s)
    now events.

(** ** The loop over a stream *)
(** A message that has not arrived in full is waited for: nothing is ready. *)
Definition receive_stream_message : handler Stream TurnError (option bytes) := λ s,
  match read_turn_stream_message s with
  | (Err TurnTimedOut, _) => (Ok None, s)
  | (r, s) => (Some <$> r, s)
  end.
(** How many bytes an abandoned read can have taken: less than the message. *)
Definition abandonable (arriving : bytes) : nat :=
  if (length arriving <? HEADER_LEN)%nat then length arriving else
  let size := (HEADER_LEN + Z.to_nat (from_be (slice 2 4 arriving)))%nat in
  if (length arriving <? size)%nat then length arriving else (size - 1)%nat.
Definition abandon_stream_read (lost : nat) (s : Stream) : Stream :=
  with_bytes s (drop (Nat.min lost (abandonable (sm_arriving s))) (sm_arriving s)).
Definition connect_and_forward_tls (route : TurnUdpRoute) (connected : bool) (now : Z)
    (events : list (nat * TurnEvent)) : handler (RouteRun Stream) TurnError bool :=
  lift (bail_if (bool_decide (turn_transport (tu_server route) ≠ Tls)) TurnRoute) ;;
  lift (bail_if (is_none (turn_server_name (tu_server route))) TurnRoute) ;;
  lift (bail_if (negb connected) TurnIo) ;;
  allocate_and_forward tls (tu_credential route)
    receive_stream_message abandon_stream_read now events.

(** ** Reconnecting *)
(** One round of [run_route]: the readings of the shutdown flag, and the
    connection the round makes. *)
Record Attempt (S : Type) : Type := mkAttempt {
  at_stopped : bool;
  at_connection : S;
  at_made : bool;
  at_now : Z;
  at_events : list (nat * TurnEvent);
  at_closing : bool;
  at_stopped_asleep : bool;
}.
Arguments mkAttempt {S} _ _ _ _ _ _ _.
Arguments at_stopped {S} _.
Arguments at_connection {S} _.
Arguments at_made {S} _.
Arguments at_now {S} _.
Arguments at_events {S} _.
Arguments at_closing {S} _.
Arguments at_stopped_asleep {S} _.
Section rounds.
Context {S : Type}.
Context (connect : bool → Z → list (nat * TurnEvent) → handler (RouteRun S) TurnError bool).
Definition allocation_ended (r : RouteRun S) : RouteRun S :=
  mkRouteRun (rr_connection r) false
    (if rr_allocated r then add_allocated (-1) (rr_telemetry r) else rr_telemetry r) (rr_delivered r).
Definition allocation_failed (r : RouteRun S) : RouteRun S :=
  mkRouteRun (rr_connection r) (rr_allocated r) (add_failure (rr_telemetry r)) (rr_delivered r).
Definition reconnected (a : Attempt S) (r : RouteRun S) : RouteRun S :=
  mkRouteRun (at_connection a) (rr_allocated r) (rr_telemetry r) (rr_delivered r).
Fixpoint run_rounds (attempts : list (Attempt S)) (r : RouteRun S) : RouteRun S :=
  match attempts with
  | [] => r
  | a :: attempts =>
      if at_stopped a then r else
      let '(_, r) := connect (at_made a) (at_now a) (at_events a) (reconnected a r) in
      let r := allocation_ended r in
      if at_closing a then r else
      let r := allocation_failed r in
      if at_stopped_asleep a then r else run_rounds attempts r
  end.
End rounds.
Definition run_route (route : TurnUdpRoute) : list (Attempt Socket) → RouteRun Socket → RouteRun Socket :=
  run_rounds (connect_and_forward route).
Definition run_tls_route (route : TurnUdpRoute)
    : list (Attempt Stream) → RouteRun Stream → RouteRun Stream :=
  run_rounds (connect_and_forward_tls route).

(** ** The transports of the agent *)
Record OutboundRoute : Type := mkOutboundRoute {
  or_queue : list TurnOutbound;
  or_closed : bool;
  or_allocated : bool;
}.
Abbreviation RouteKey := (NetworkId * SocketAddr)%type.
Definition route_key (route : TurnUdpRoute) : RouteKey :=
  (tu_network_id route, turn_endpoint (tu_server route)).
Definition add_route (routes : gmap RouteKey OutboundRoute) (route : TurnUdpRoute)
    : gmap RouteKey OutboundRoute :=
  match routes !! route_key route with
  | Some _ => routes
  | None => <[route_key route := mkOutboundRoute [] false false]> routes
  end.
Definition start_routes (wanted : TurnTransport) (routes : list TurnUdpRoute)
    : gmap RouteKey OutboundRoute :=
  foldl add_route ∅
    (List.filter (λ route, bool_decide (turn_transport (tu_server route) = wanted)) routes).
Definition TurnUdpTransport_start : list TurnUdpRoute → gmap RouteKey OutboundRoute :=
  start_routes Udp.
Definition TurnTlsTransport_start : list TurnUdpRoute → gmap RouteKey OutboundRoute :=
  start_routes Tls.
(** [try_send] of a bounded channel. *)
Definition try_send (o : TurnOutbound) (r : OutboundRoute) : option OutboundRoute :=
  if or_closed r || (OUTBOUND_QUEUE_CAPACITY <=? length (or_queue r))%nat then None
  else Some (mkOutboundRoute (or_queue r ++ [o]) (or_closed r) (or_allocated r)).
Fixpoint send_first (o : TurnOutbound) (entries : list (RouteKey * OutboundRoute))
    : option (RouteKey * OutboundRoute) :=
  match entries with
  | [] => None
  | (key, r) :: entries =>
      if negb (or_allocated r) then send_first o entries else
      match try_send o r with
      | Some r => Some (key, r)
      | None => send_first o entries
      end
  end.
Definition try_send_any `{HashOrder} (relay_endpoint : SocketAddr) (packet : bytes)
    (routes : gmap RouteKey OutboundRoute) (t : TurnTelemetry)
    : bool * gmap RouteKey OutboundRoute * TurnTelemetry :=
  if is_empty packet || (MAX_MESSAGE_LEN <? len packet) then (false, routes, t) else
  match send_first (mkTurnOutbound relay_endpoint packet) (hash_iter routes) with
  | Some (key, r) => (true, <[key := r]> routes, t)
  | None => (false, routes, add_drop t)
  end.
(** The transport over TLS has a method of its own with the same text. *)
Definition TurnTlsTransport_try_send_any `{HashOrder}
    : SocketAddr → bytes → gmap RouteKey OutboundRoute → TurnTelemetry
      → bool * gmap RouteKey OutboundRoute * TurnTelemetry := try_send_any.
End protocol.
Arguments mkRouteRun {S} _ _ _ _.
Arguments rr_connection {S} _.
Arguments rr_allocated {S} _.
Arguments rr_telemetry {S} _.
Arguments rr_delivered {S} _.
Arguments mkAttempt {S} _ _ _ _ _ _ _.
