(* ===== verification/TlsRelay.v ===== *)
(** * Relays over TLS: the pinned connection, its frames, both ends
    ([meshlaked/src/tls_relay.rs], and the proxy of [meshlake-relay/src/main.rs]) *)
From S2P Require Import Prelude Request Net Text Ext Model Planet RelayServer AgentSession.
#[local] Open Scope Z_scope.

Definition MAX_TCP_FRAME_BYTES : Z := 65535.
Definition OUTBOUND_QUEUE_CAPACITY : nat := 256.

Inductive TlsRelayError : Type :=
| TlsServerName | TlsConnect | TlsHandshake | TlsPin | TlsScheme | TlsSignature | TlsEncoding
| TlsFrameRange | TlsUnexpectedEof | TlsIo | TlsWaiting.

(** ** The pinned certificate *)
Definition verify_leaf_certificate_pin_bytes `{SessionCrypto} (certificate_sha256 certificate_der : bytes)
    : result TlsRelayError unit :=
  bail_if (is_empty certificate_der || negb (length certificate_sha256 =? 32)%nat) TlsPin ;;
  bail_if (bool_decide (sha256 certificate_der ≠ certificate_sha256)) TlsPin.

Inductive SignatureScheme : Type :=
| ECDSA_NISTP384_SHA384 | ECDSA_NISTP256_SHA256 | ED25519
| RSA_PSS_SHA512 | RSA_PSS_SHA384 | RSA_PSS_SHA256
| RSA_PKCS1_SHA512 | RSA_PKCS1_SHA384 | RSA_PKCS1_SHA256
| OtherScheme (code : Z).
#[export] Instance SignatureScheme_eq_dec : EqDecision SignatureScheme.
Proof. solve_decision. Defined.
(** The algorithms of [webpki::ring] that the module names. *)
Inductive Algorithm : Type :=
| ECDSA_P384_SHA384 | ECDSA_P384_SHA256 | ECDSA_P256_SHA384 | ECDSA_P256_SHA256 | ED25519_KEY
| RSA_PSS_2048_8192_SHA512 | RSA_PSS_2048_8192_SHA384 | RSA_PSS_2048_8192_SHA256
| RSA_PKCS1_2048_8192_SHA512 | RSA_PKCS1_2048_8192_SHA384 | RSA_PKCS1_2048_8192_SHA256.
Definition signature_algorithms (scheme : SignatureScheme) : option (list Algorithm) :=
  match scheme with
  | ECDSA_NISTP384_SHA384 => Some [ECDSA_P384_SHA384; ECDSA_P256_SHA384]
  | ECDSA_NISTP256_SHA256 => Some [ECDSA_P256_SHA256; ECDSA_P384_SHA256]
  | ED25519 => Some [ED25519_KEY]
  | RSA_PSS_SHA512 => Some [RSA_PSS_2048_8192_SHA512]
  | RSA_PSS_SHA384 => Some [RSA_PSS_2048_8192_SHA384]
  | RSA_PSS_SHA256 => Some [RSA_PSS_2048_8192_SHA256]
  | RSA_PKCS1_SHA512 => Some [RSA_PKCS1_2048_8192_SHA512]
  | RSA_PKCS1_SHA384 => Some [RSA_PKCS1_2048_8192_SHA384]
  | RSA_PKCS1_SHA256 => Some [RSA_PKCS1_2048_8192_SHA256]
  | OtherScheme _ => None
  end.
Definition supported_verify_schemes : list SignatureScheme :=
  [ECDSA_NISTP384_SHA384; ECDSA_NISTP256_SHA256; ED25519; RSA_PSS_SHA512; RSA_PSS_SHA384;
   RSA_PSS_SHA256; RSA_PKCS1_SHA512; RSA_PKCS1_SHA384; RSA_PKCS1_SHA256].
Definition tls13_scheme (scheme : SignatureScheme) : bool :=
  match scheme with
  | ECDSA_NISTP384_SHA384 | ECDSA_NISTP256_SHA256 | ED25519
  | RSA_PSS_SHA512 | RSA_PSS_SHA384 | RSA_PSS_SHA256 => true
  | _ => false
  end.
(** [webpki]: the parsing of a certificate, and signatures by its key. *)
Class Webpki := {
  EndEntityCert : Type;
  end_entity_cert : bytes → option EndEntityCert;
  verify_signature : EndEntityCert → Algorithm → bytes → bytes → bool;
}.
(** [DigitallySignedStruct] *)
Record DigitallySigned : Type := mkDigitallySigned { dss_scheme : SignatureScheme; dss_signature : bytes }.
Definition verify_handshake_signature `{Webpki} (message cert : bytes) (dss : DigitallySigned)
    (tls13 : bool) : result TlsRelayError unit :=
  bail_if (tls13 && negb (tls13_scheme (dss_scheme dss))) TlsScheme ;;
  certificate ← ok_or (end_entity_cert cert) TlsEncoding;
  algorithms ← ok_or (signature_algorithms (dss_scheme dss)) TlsScheme;
  if existsb (λ algorithm, verify_signature certificate algorithm message (dss_signature dss)) algorithms
  then Ok tt else Err TlsSignature.

(** [ServerCertVerifier]: what [rustls] asks about the certificate a server shows. *)
Record ServerCertVerifier : Type := mkServerCertVerifier {
  verify_server_cert : bytes → result TlsRelayError unit;
  verify_tls12_signature : bytes → bytes → DigitallySigned → result TlsRelayError unit;
  verify_tls13_signature : bytes → bytes → DigitallySigned → result TlsRelayError unit;
  supported_schemes : list SignatureScheme;
}.
Definition PinnedCertificateVerifier `{SessionCrypto} `{Webpki} (certificate_sha256 : bytes)
    : ServerCertVerifier :=
  mkServerCertVerifier (verify_leaf_certificate_pin_bytes certificate_sha256)
    (λ message cert dss, verify_handshake_signature message cert dss false)
    (λ message cert dss, verify_handshake_signature message cert dss true)
    supported_verify_schemes.

(** ** A stream, and its frames *)
Inductive StreamEnd : Type := StillOpen | PeerClosed | PeerFailed.
(** The bytes that arrive and what follows them, the bytes written, and the outcomes of
    the next calls that write: one may fail after some of its bytes. *)
Record TlsStream : Type := mkTlsStream {
  ts_arriving : bytes;
  ts_end : StreamEnd;
  ts_written : bytes;
  ts_outcomes : list (option nat);
}.

(** [rustls] and [tokio-rustls].  [TcpPeer] is the other end of one connection;
    [shown] is its part of the handshake on this connection, and the stream of the
    session that this handshake sets up. *)
Record PeerHandshake : Type := mkPeerHandshake {
  hs_certificate : bytes;
  hs_transcript : bytes;
  hs_signature : DigitallySigned;
  hs_stream : TlsStream;
}.
Class Rustls := {
  ServerName : Type;
  server_name_try_from : string → option ServerName;
  TcpPeer : Type;
  shown : ServerName → TcpPeer → PeerHandshake;
  tls_connect : ServerCertVerifier → ServerName → TcpPeer → option TlsStream;
}.
(** The verifier accepts the certificate that was shown, and the signature over the
    transcript under this certificate. *)
Definition verified_by (v : ServerCertVerifier) (h : PeerHandshake) : Prop :=
  verify_server_cert v (hs_certificate h) = Ok tt
  ∧ dss_scheme (hs_signature h) ∈ supported_schemes v
  ∧ (verify_tls12_signature v (hs_transcript h) (hs_certificate h) (hs_signature h) = Ok tt
     ∨ verify_tls13_signature v (hs_transcript h) (hs_certificate h) (hs_signature h) = Ok tt).
(** A handshake that ends well has asked the verifier about what this peer showed, and
    its stream is that of the session with this peer. *)
Class RustlsLaws `{Rustls} : Prop := {
  tls_connect_verified v name peer stream :
    tls_connect v name peer = Some stream →
    stream = hs_stream (shown name peer) ∧ verified_by v (shown name peer);
}.

Definition with_arriving_bytes (s : TlsStream) (arriving : bytes) : TlsStream :=
  mkTlsStream arriving (ts_end s) (ts_written s) (ts_outcomes s).
Definition read_exact (n : nat) : handler TlsStream TlsRelayError bytes :=
  s ← read;
  if (n <=? length (ts_arriving s))%nat
  then write (with_arriving_bytes s (drop n (ts_arriving s))) ;; mret (take n (ts_arriving s))
  else write (with_arriving_bytes s []) ;;
       lift (Err match ts_end s with StillOpen => TlsWaiting | PeerClosed => TlsUnexpectedEof | PeerFailed => TlsIo end).
Definition write_all (bs : bytes) : handler TlsStream TlsRelayError unit :=
  s ← read;
  match ts_outcomes s with
  | Some n :: outcomes =>
      write (mkTlsStream (ts_arriving s) (ts_end s) (ts_written s ++ take n bs) outcomes) ;;
      lift (Err TlsIo)
  | outcomes => write (mkTlsStream (ts_arriving s) (ts_end s) (ts_written s ++ bs) (tail outcomes))
  end.
Definition read_tcp_frame : handler TlsStream TlsRelayError (option bytes) := λ s,
  match read_exact 4 s with
  | (Err TlsUnexpectedEof, s) => (Ok None, s)
  | (Err e, s) => (Err e, s)
  | (Ok header, s) =>
      let size := from_be header in
      (lift (bail_if ((size =? 0) || (MAX_TCP_FRAME_BYTES <? size)) TlsFrameRange) ;;
       frame ← read_exact (Z.to_nat size);
       mret (Some frame)) s
  end.
(** The last call flushes. *)
Definition write_tcp_frame (frame : bytes) : handler TlsStream TlsRelayError unit :=
  lift (bail_if (is_empty frame || (MAX_TCP_FRAME_BYTES <? len frame)) TlsFrameRange) ;;
  write_all (be_bytes 4 (len frame)) ;;
  write_all frame ;;
  write_all [].
(** What the branch of [select!] finds: nothing, when a frame has not arrived in full. *)
Definition next_frame : handler TlsStream TlsRelayError (option (option bytes)) := λ s,
  match read_tcp_frame s with
  | (Err TlsWaiting, _) => (Ok None, s)
  | (r, s) => (Some <$> r, s)
  end.
(** A branch that is taken instead of a frame abandons the read of the frame, with the
    bytes it has taken: less than the frame. *)
Definition abandonable (arriving : bytes) : nat :=
  if (length arriving <? 4)%nat then length arriving else
  let size := from_be (take 4 arriving) in
  if (size =? 0) || (MAX_TCP_FRAME_BYTES <? size) then 3%nat else
  Nat.min (length arriving) (3 + Z.to_nat size).
Definition abandon_frame (lost : nat) (s : TlsStream) : TlsStream :=
  with_arriving_bytes s (drop (Nat.min lost (abandonable (ts_arriving s))) (ts_arriving s)).

(** ** The connection of one route *)
Record TlsRelayTelemetry : Type := mkTlsRelayTelemetry {
  tt_configured : Z;
  tt_connected : Z;
  tt_connection_failures : Z;
  tt_frames_sent : Z;
  tt_frames_received : Z;
  tt_queue_drops : Z;
}.
Definition tls_telemetry_reset (configured : Z) : TlsRelayTelemetry :=
  mkTlsRelayTelemetry configured 0 0 0 0 0.
(** [fetch_add] and [fetch_sub] wrap around. *)
Definition add_connected (d : Z) (t : TlsRelayTelemetry) : TlsRelayTelemetry :=
  mkTlsRelayTelemetry (tt_configured t) (wrap64 (tt_connected t + d)) (tt_connection_failures t)
    (tt_frames_sent t) (tt_frames_received t) (tt_queue_drops t).
Definition add_connection_failure (t : TlsRelayTelemetry) : TlsRelayTelemetry :=
  mkTlsRelayTelemetry (tt_configured t) (tt_connected t) (wrap64 (tt_connection_failures t + 1))
    (tt_frames_sent t) (tt_frames_received t) (tt_queue_drops t).
Definition add_frame_sent (t : TlsRelayTelemetry) : TlsRelayTelemetry :=
  mkTlsRelayTelemetry (tt_configured t) (tt_connected t) (tt_connection_failures t)
    (wrap64 (tt_frames_sent t + 1)) (tt_frames_received t) (tt_queue_drops t).
Definition add_frame_received (t : TlsRelayTelemetry) : TlsRelayTelemetry :=
  mkTlsRelayTelemetry (tt_configured t) (tt_connected t) (tt_connection_failures t) (tt_frames_sent t)
    (wrap64 (tt_frames_received t + 1)) (tt_queue_drops t).
Definition add_queue_drop (t : TlsRelayTelemetry) : TlsRelayTelemetry :=
  mkTlsRelayTelemetry (tt_configured t) (tt_connected t) (tt_connection_failures t) (tt_frames_sent t)
    (tt_frames_received t) (wrap64 (tt_queue_drops t + 1)).
Record TlsRelayInbound : Type := mkTlsRelayInbound { tri_relay_endpoint : SocketAddr; tri_packet : bytes }.
(** The stream is that of the latest connection. *)
Record TlsRun : Type := mkTlsRun {
  tn_stream : TlsStream;
  tn_connected : bool;
  tn_telemetry : TlsRelayTelemetry;
  tn_delivered : list TlsRelayInbound;
}.
Inductive TlsEvent : Type :=
| ShutdownChanged (stop : bool)
| OutboundReady (packet : option bytes)
| FrameReady (taken : bool).

Section connection.
Context `{UuidLib} `{SessionCrypto} `{Webpki} `{Rustls}.
Abbreviation run := (handler TlsRun TlsRelayError).
Definition on_stream {A} (m : handler TlsStream TlsRelayError A) : run A := λ r,
  let '(a, s) := m (tn_stream r) in
  (a, mkTlsRun s (tn_connected r) (tn_telemetry r) (tn_delivered r)).
Definition count_frame (f : TlsRelayTelemetry → TlsRelayTelemetry) : run unit :=
  r ← read; write (mkTlsRun (tn_stream r) (tn_connected r) (f (tn_telemetry r)) (tn_delivered r)).
Definition deliver_inbound (packet : TlsRelayInbound) : run unit :=
  r ← read;
  write (mkTlsRun (tn_stream r) (tn_connected r) (tn_telemetry r) (tn_delivered r ++ [packet])).
(** One turn of the loop: whether it goes on. *)
Definition relay_event (relay_endpoint : SocketAddr) (lost : nat) (event : TlsEvent) : run bool :=
  match event with
  | ShutdownChanged stop =>
      on_stream (s ← read; write (abandon_frame lost s)) ;; mret (negb stop)
  | OutboundReady None => mret false
  | OutboundReady (Some packet) =>
      on_stream (s ← read; write (abandon_frame lost s)) ;;
      on_stream (write_tcp_frame packet) ;;
      count_frame add_frame_sent ;;
      mret true
  | FrameReady taken =>
      found ← on_stream next_frame;
      match (found : option (option bytes)) with
      | None => mret true
      | Some None => mret false
      | Some (Some packet) =>
          if negb taken then mret false else
          deliver_inbound (mkTlsRelayInbound relay_endpoint packet) ;;
          count_frame add_frame_received ;;
          mret true
      end
  end.
Fixpoint relay_loop (relay_endpoint : SocketAddr) (events : list (nat * TlsEvent)) : run bool :=
  match events with
  | [] => mret false
  | (lost, event) :: events =>
      more ← relay_event relay_endpoint lost event;
      if (more : bool) then relay_loop relay_endpoint events else mret true
  end.
Definition connect_pinned_tls (server_name : string) (certificate_sha256 : bytes)
    (peer : option TcpPeer) : result TlsRelayError TlsStream :=
  server_name ← ok_or (server_name_try_from server_name) TlsServerName;
  peer ← ok_or peer TlsConnect;
  ok_or (tls_connect (PinnedCertificateVerifier certificate_sha256) server_name peer) TlsHandshake.
(** The route is connected over a stream. *)
Definition set_connected (stream : TlsStream) : run unit :=
  r ← read;
  write (mkTlsRun stream true
           (if tn_connected r then tn_telemetry r else add_connected 1 (tn_telemetry r))
           (tn_delivered r)).
Definition connect_and_forward (route : TlsRelayRoute) (peer : option TcpPeer)
    (events : list (nat * TlsEvent)) : run bool :=
  stream ← lift (connect_pinned_tls (tls_server_name (tr_relay route))
                   (tls_certificate_sha256 (tr_relay route)) peer);
  set_connected stream ;;
  relay_loop (tr_relay_endpoint route) events.

(** One round of [run_relay_connection], with the connection it makes and what it reads
    of the shutdown flag. *)
Record TlsAttempt : Type := mkTlsAttempt {
  ta_stopped : bool;
  ta_peer : option TcpPeer;
  ta_events : list (nat * TlsEvent);
  ta_closing : bool;
  ta_stopped_asleep : bool;
}.
Definition connection_ended (r : TlsRun) : TlsRun :=
  mkTlsRun (tn_stream r) false
    (if tn_connected r then add_connected (-1) (tn_telemetry r) else tn_telemetry r) (tn_delivered r).
Fixpoint run_relay_connection (route : TlsRelayRoute) (attempts : list TlsAttempt) (r : TlsRun) : TlsRun :=
  match attempts with
  | [] => r
  | a :: attempts =>
      if ta_stopped a then r else
      let '(result, r) := connect_and_forward route (ta_peer a) (ta_events a) r in
      let r := connection_ended r in
      if ta_closing a then r else
      let r := if is_ok result then r
               else mkTlsRun (tn_stream r) (tn_connected r) (add_connection_failure (tn_telemetry r))
                      (tn_delivered r) in
      if ta_stopped_asleep a then r else run_relay_connection route attempts r
  end.
End connection.

(** ** The transport of the agent *)
Record OutboundRelay : Type := mkOutboundRelay {
  ob_queue : list bytes;
  ob_closed : bool;
  ob_connected : bool;
}.
(** The routes with their queues, and the packets that wait for the agent. *)
Record TlsRelayTransport : Type := mkTlsRelayTransport {
  tp_relays : gmap SocketAddr OutboundRelay;
  tp_incoming : list TlsRelayInbound;
}.
Abbreviation tls_world := (TlsRelayTransport * TlsRelayTelemetry)%type.
Section transport.
Context `{UuidLib}.
Definition start_route (relays : gmap SocketAddr OutboundRelay) (route : TlsRelayRoute)
    : gmap SocketAddr OutboundRelay :=
  match relays !! tr_relay_endpoint route with
  | Some _ => relays
  | None => <[tr_relay_endpoint route := mkOutboundRelay [] false false]> relays
  end.
Definition TlsRelayTransport_start (routes : list TlsRelayRoute) (t : TlsRelayTelemetry) : tls_world :=
  (mkTlsRelayTransport (foldl start_route ∅ routes) [], tls_telemetry_reset (len routes)).
End transport.
(** [try_send] of the bounded channel of a route. *)
Definition queue_frame (packet : bytes) (relay : OutboundRelay) : option OutboundRelay :=
  if ob_closed relay || (OUTBOUND_QUEUE_CAPACITY <=? length (ob_queue relay))%nat then None
  else Some (mkOutboundRelay (ob_queue relay ++ [packet]) (ob_closed relay) (ob_connected relay)).
Definition set_relay (endpoint : SocketAddr) (relay : OutboundRelay) (tp : TlsRelayTransport)
    : TlsRelayTransport :=
  mkTlsRelayTransport (<[endpoint := relay]> (tp_relays tp)) (tp_incoming tp).
Definition try_send (relay_endpoint : SocketAddr) (packet : bytes) (w : tls_world) : bool * tls_world :=
  let '(tp, t) := w in
  if is_empty packet || (MAX_TCP_FRAME_BYTES <? len packet) then (false, w) else
  match tp_relays tp !! relay_endpoint with
  | None => (false, w)
  | Some relay =>
      if negb (ob_connected relay) then (false, (tp, add_queue_drop t)) else
      match queue_frame packet relay with
      | None => (false, (tp, add_queue_drop t))
      | Some relay => (true, (set_relay relay_endpoint relay tp, t))
      end
  end.
(** [receive] of the channel: [None] waits; the inner [None] is a channel without senders. *)
Definition receive_inbound (w : tls_world) : option (option TlsRelayInbound * tls_world) :=
  let '(tp, t) := w in
  match tp_incoming tp with
  | packet :: incoming => Some (Some packet, (mkTlsRelayTransport (tp_relays tp) incoming, t))
  | [] => if forallb (λ r, ob_closed r.2) (map_to_list (tp_relays tp)) then Some (None, w) else None
  end.

(** What the task of one route does to the state that all share: it connects, takes a
    packet from its queue, hands one on while there is room, loses its connection, and
    ends. *)
Definition route_connected (endpoint : SocketAddr) (w : tls_world) : tls_world :=
  let '(tp, t) := w in
  match tp_relays tp !! endpoint with
  | Some relay =>
      (set_relay endpoint (mkOutboundRelay (ob_queue relay) (ob_closed relay) true) tp,
       if ob_connected relay then t else add_connected 1 t)
  | None => w
  end.
Definition route_takes (endpoint : SocketAddr) (w : tls_world) : option bytes * tls_world :=
  let '(tp, t) := w in
  match tp_relays tp !! endpoint with
  | Some (mkOutboundRelay (packet :: queue) closed connected) =>
      (Some packet, (set_relay endpoint (mkOutboundRelay queue closed connected) tp, t))
  | _ => (None, w)
  end.
Definition route_delivers (endpoint : SocketAddr) (packet : bytes) (w : tls_world) : option tls_world :=
  let '(tp, t) := w in
  if (length (tp_incoming tp) <? OUTBOUND_QUEUE_CAPACITY)%nat
  then Some (mkTlsRelayTransport (tp_relays tp) (tp_incoming tp ++ [mkTlsRelayInbound endpoint packet]),
             add_frame_received t)
  else None.
Definition route_disconnected (endpoint : SocketAddr) (failed closing : bool) (w : tls_world) : tls_world :=
  let '(tp, t) := w in
  match tp_relays tp !! endpoint with
  | Some relay =>
      let t := if ob_connected relay then add_connected (-1) t else t in
      (set_relay endpoint (mkOutboundRelay (ob_queue relay) (closing || ob_closed relay) false) tp,
       if failed && negb closing then add_connection_failure t else t)
  | None => w
  end.

(** ** The other end: the proxy of the relay server *)
Module TcpProxy.
Inductive ProxyError : Type := Framing (e : frame_error) | ReaderFailed | WriterFailed | SocketFailed.
Record Proxy : Type := mkProxy {
  px_stream : TlsStream;
  px_sent : list (SocketAddr * bytes);
  px_refuses : nat → bool;
}.
Inductive ProxyEvent : Type := FrameArrives | DatagramArrives (source : SocketAddr) (datagram : bytes) | UdpFails.
Abbreviation proxy := (handler Proxy ProxyError).
Definition with_stream (p : Proxy) (s : TlsStream) : Proxy := mkProxy s (px_sent p) (px_refuses p).
Definition sent_datagram (target : SocketAddr) (datagram : bytes) : proxy unit :=
  p ← read;
  lift (bail_if (px_refuses p (length (px_sent p))) SocketFailed) ;;
  write (mkProxy (px_stream p) (px_sent p ++ [(target, datagram)]) (px_refuses p)).
(** The frame at the front of the stream; the outer [None] waits, the inner is the end. *)
Definition frame_ready : proxy (option (option bytes)) :=
  p ← read;
  let s := px_stream p in
  match RelayServer.read_tcp_frame (ts_arriving s), ts_end s with
  | Ok (Some (frame, rest)), _ => write (with_stream p (with_arriving_bytes s rest)) ;; mret (Some (Some frame))
  | Ok None, PeerClosed => mret (Some None)
  | Ok None, StillOpen | Err FrameTruncated, StillOpen => mret None
  | Ok None, PeerFailed | Err FrameTruncated, PeerFailed => lift (Err ReaderFailed)
  | Err e, _ => lift (Err (Framing e))
  end.
Definition written_frame (datagram : bytes) : proxy unit :=
  encoded ← lift (map_err Framing (RelayServer.write_tcp_frame datagram));
  p ← read;
  let '(r, s) := write_all encoded (px_stream p) in
  write (with_stream p s) ;;
  lift (map_err (λ _, WriterFailed) r).
Definition proxy_event (udp_target : SocketAddr) (lost : nat) (event : ProxyEvent) : proxy bool :=
  match event with
  | FrameArrives =>
      found ← frame_ready;
      match (found : option (option bytes)) with
      | None => mret true
      | Some None => mret false
      | Some (Some frame) => sent_datagram udp_target frame ;; mret true
      end
  | DatagramArrives source datagram =>
      p ← read;
      write (with_stream p (abandon_frame lost (px_stream p))) ;;
      if bool_decide (source ≠ udp_target) then mret true else written_frame datagram ;; mret true
  | UdpFails => lift (Err SocketFailed)
  end.
(** [proxy_tcp_connection]: [true] when it returned, [false] when the events end before. *)
Fixpoint proxy_tcp_connection (udp_target : SocketAddr) (events : list (nat * ProxyEvent)) : proxy bool :=
  match events with
  | [] => mret false
  | (lost, event) :: events =>
      more ← proxy_event udp_target lost event;
      if (more : bool) then proxy_tcp_connection udp_target events else mret true
  end.
End TcpProxy.
