(* ===== verification/PortMapping.v ===== *)
(** * Automatic port mapping: PCP, NAT-PMP and UPnP
    ([meshlaked/src/port_mapping.rs], [upnp.rs], and the renewal in [main.rs])

    The gateway's answers come from the network, so access to them is checked. *)
From S2P Require Import Prelude Request Net Text Ext SocketText Frames.
#[local] Open Scope Z_scope.

Definition MAPPING_LIFETIME_SECONDS : Z := 7200.
(** The lease that UPnP requests, and the period of the renewal, in seconds. *)
Definition UPNP_LEASE_SECONDS : Z := 1800.
Definition MAPPING_REFRESH : Z := secs 1800.

(** [MappingFault]: an index out of range. *)
Inductive MappingError : Type :=
| MappingFault (e : access_error) | Ipv4Only | NoRandomness | SocketFailed | SendFailed | ReceiveFailed
| MalformedAnswer | GatewayRefused (code : Z) | DifferentRequest | DifferentPort | NoLocalAddress | NoGateway
| Upnp.
Definition answer_byte (i : nat) (response : bytes) : result MappingError Z :=
  map_err MappingFault (index i response).
Definition answer_range (a b : nat) (response : bytes) : result MappingError bytes :=
  map_err MappingFault (range a b response).
Definition answer_u16 (i : nat) (response : bytes) : result MappingError Z :=
  high ← answer_byte i response; low ← answer_byte (i + 1) response; Ok (from_be [high; low]).

(** ** Messages *)
Definition nat_pmp_map_request (internal_port external_port lifetime : Z) : bytes :=
  [0; 1; 0; 0] ++ be_bytes 2 internal_port ++ be_bytes 2 external_port ++ be_bytes 4 lifetime.
(** [response.len() < n || response[0] != a || response[1] != b] *)
Definition check_answer (n : nat) (version opcode : Z) (response : bytes) : result MappingError unit :=
  bail_if (length response <? n)%nat MalformedAnswer ;;
  b0 ← answer_byte 0 response;
  bail_if (negb (b0 =? version)) MalformedAnswer ;;
  b1 ← answer_byte 1 response;
  bail_if (negb (b1 =? opcode)) MalformedAnswer.
Definition parse_nat_pmp_public_address (response : bytes) : result MappingError Z :=
  check_answer 12 0 128 response ;;
  code ← answer_u16 2 response;
  bail_if (negb (code =? 0)) (GatewayRefused code) ;;
  octets ← answer_range 8 12 response;
  Ok (from_be octets).
Definition parse_nat_pmp_map_response (response : bytes) (internal_port : Z) : result MappingError Z :=
  check_answer 16 0 129 response ;;
  code ← answer_u16 2 response;
  bail_if (negb (code =? 0)) (GatewayRefused code) ;;
  port ← answer_u16 8 response;
  bail_if (negb (port =? internal_port)) DifferentPort ;;
  answer_u16 10 response.
Definition zeros (n : nat) : bytes := replicate n 0.
Definition pcp_map_request (local_ip internal_port external_port lifetime : Z) (nonce : bytes) : bytes :=
  [2; 1; 0; 0] ++ be_bytes 4 lifetime ++ zeros 10 ++ [255; 255] ++ be_bytes 4 local_ip ++ nonce
  ++ [17; 0; 0; 0] ++ be_bytes 2 internal_port ++ be_bytes 2 external_port ++ zeros 16.
Definition parse_pcp_map_response (response : bytes) (internal_port : Z) (nonce : bytes)
    : result MappingError (IpAddr * Z) :=
  check_answer 60 2 129 response ;;
  code ← answer_byte 3 response;
  bail_if (negb (code =? 0)) (GatewayRefused code) ;;
  echoed ← answer_range 24 36 response;
  protocol ← answer_byte 36 response;
  bail_if (bool_decide (echoed ≠ nonce) || negb (protocol =? 17)) DifferentRequest ;;
  port ← answer_u16 40 response;
  bail_if (negb (port =? internal_port)) DifferentPort ;;
  external_port ← answer_u16 42 response;
  prefix ← answer_range 44 56 response;
  address ← (if bool_decide (prefix = zeros 10 ++ [255; 255])
             then octets ← answer_range 56 60 response; Ok (ipv4_of_octets octets)
             else octets ← answer_range 44 60 response; Ok (ipv6_of_octets octets));
  Ok (address, external_port).

(** ** The gateway *)
(** A socket connected to the gateway's port, and the UPnP library: the outcomes of
    the next calls (no outcome left: the call succeeds, an answer or a lookup fails),
    and what was sent, with the address it was sent from. *)
Record Gateway : Type := mkGateway {
  gw_opens : list bool;
  gw_sends : list bool;
  gw_answers : list (option bytes);
  gw_nonces : list (option bytes);
  gw_search : list bool;
  gw_add_port : list bool;
  gw_external_ip : list (option IpAddr);
  gw_sent : list (Z * bytes);
  gw_removed : list Z;
  (** What UPnP was asked to map: the external port, the local address, the lease. *)
  gw_mapped : list (Z * SocketAddr * Z);
}.
Abbreviation gateway_call := (handler Gateway MappingError).
Definition next_outcome (l : list bool) : bool := default true (head l).
(** [bind], the timeouts and [connect]. *)
Definition gateway_socket (local_ip : Z) : gateway_call unit :=
  g ← read;
  write (mkGateway (tail (gw_opens g)) (gw_sends g) (gw_answers g) (gw_nonces g) (gw_search g)
           (gw_add_port g) (gw_external_ip g) (gw_sent g) (gw_removed g) (gw_mapped g)) ;;
  lift (bail_if (negb (next_outcome (gw_opens g))) SocketFailed).
Definition gateway_send (local_ip : Z) (request : bytes) : gateway_call unit :=
  g ← read;
  write (mkGateway (gw_opens g) (tail (gw_sends g)) (gw_answers g) (gw_nonces g) (gw_search g)
           (gw_add_port g) (gw_external_ip g)
           (if next_outcome (gw_sends g) then gw_sent g ++ [(local_ip, request)] else gw_sent g)
           (gw_removed g) (gw_mapped g)) ;;
  lift (bail_if (negb (next_outcome (gw_sends g))) SendFailed).
(** A datagram that is longer than the buffer is cut. *)
Definition gateway_receive (buffer : nat) : gateway_call bytes :=
  g ← read;
  write (mkGateway (gw_opens g) (gw_sends g) (tail (gw_answers g)) (gw_nonces g) (gw_search g)
           (gw_add_port g) (gw_external_ip g) (gw_sent g) (gw_removed g) (gw_mapped g)) ;;
  answer ← lift (ok_or (mjoin (head (gw_answers g))) ReceiveFailed);
  mret (take buffer answer).
Definition draw_nonce : gateway_call bytes :=
  g ← read;
  write (mkGateway (gw_opens g) (gw_sends g) (gw_answers g) (tail (gw_nonces g)) (gw_search g)
           (gw_add_port g) (gw_external_ip g) (gw_sent g) (gw_removed g) (gw_mapped g)) ;;
  lift (ok_or (mjoin (head (gw_nonces g))) NoRandomness).
Definition search_gateway : gateway_call unit :=
  g ← read;
  write (mkGateway (gw_opens g) (gw_sends g) (gw_answers g) (gw_nonces g) (tail (gw_search g))
           (gw_add_port g) (gw_external_ip g) (gw_sent g) (gw_removed g) (gw_mapped g)) ;;
  lift (bail_if (negb (next_outcome (gw_search g))) Upnp).
Definition add_port (external_port : Z) (local : SocketAddr) (lease : Z) : gateway_call unit :=
  g ← read;
  write (mkGateway (gw_opens g) (gw_sends g) (gw_answers g) (gw_nonces g) (gw_search g)
           (tail (gw_add_port g)) (gw_external_ip g) (gw_sent g) (gw_removed g)
           (gw_mapped g ++ [(external_port, local, lease)])) ;;
  lift (bail_if (negb (next_outcome (gw_add_port g))) Upnp).
Definition get_external_ip : gateway_call IpAddr :=
  g ← read;
  write (mkGateway (gw_opens g) (gw_sends g) (gw_answers g) (gw_nonces g) (gw_search g)
           (gw_add_port g) (tail (gw_external_ip g)) (gw_sent g) (gw_removed g) (gw_mapped g)) ;;
  lift (ok_or (mjoin (head (gw_external_ip g))) Upnp).
Definition remove_port (external_port : Z) : gateway_call unit :=
  g ← read;
  write (mkGateway (gw_opens g) (gw_sends g) (gw_answers g) (gw_nonces g) (gw_search g)
           (gw_add_port g) (gw_external_ip g) (gw_sent g) (gw_removed g ++ [external_port]) (gw_mapped g)).

(** ** NAT-PMP *)
Record NatPmpMapping : Type := mkNatPmpMapping {
  np_local_ip : Z;
  np_external_ip : Z;
  np_internal_port : Z;
  np_external_port : Z;
}.
Definition local_ipv4 (local : SocketAddr) : result MappingError Z :=
  match socket_ip local with V4 ip => Ok ip | V6 _ => Err Ipv4Only end.
Definition NatPmpMapping_establish (local : SocketAddr) : gateway_call (NatPmpMapping * SocketAddr) :=
  local_ip ← lift (local_ipv4 local);
  gateway_socket local_ip ;;
  gateway_send local_ip [0; 0] ;;
  response ← gateway_receive 32;
  external_ip ← lift (parse_nat_pmp_public_address response);
  gateway_send local_ip
    (nat_pmp_map_request (socket_port local) (socket_port local) MAPPING_LIFETIME_SECONDS) ;;
  response ← gateway_receive 32;
  external_port ← lift (parse_nat_pmp_map_response response (socket_port local));
  mret (mkNatPmpMapping local_ip external_ip (socket_port local) external_port,
        socket_new (V4 external_ip) external_port).
(** The mapping keeps its port when a renewal fails. *)
Definition NatPmpMapping_renew (m : NatPmpMapping) : gateway_call (NatPmpMapping * SocketAddr) :=
  gateway_socket (np_local_ip m) ;;
  gateway_send (np_local_ip m)
    (nat_pmp_map_request (np_internal_port m) (np_external_port m) MAPPING_LIFETIME_SECONDS) ;;
  response ← gateway_receive 32;
  external_port ← lift (parse_nat_pmp_map_response response (np_internal_port m));
  mret (mkNatPmpMapping (np_local_ip m) (np_external_ip m) (np_internal_port m) external_port,
        socket_new (V4 (np_external_ip m)) external_port).
Definition NatPmpMapping_drop (m : NatPmpMapping) : gateway_call unit :=
  opened ← attempt (gateway_socket 0 : gateway_call unit);
  match (opened : result MappingError unit) with
  | Err _ => mret tt
  | Ok _ =>
      attempt (F := MappingError) (gateway_send 0 (nat_pmp_map_request (np_internal_port m) (np_external_port m) 0)) ;;
      mret tt
  end.

(** ** PCP *)
Record PcpMapping : Type := mkPcpMapping {
  pc_local_ip : Z;
  pc_internal_port : Z;
  pc_external_port : Z;
  pc_nonce : bytes;
}.
Definition PcpMapping_establish (local : SocketAddr) : gateway_call (PcpMapping * SocketAddr) :=
  local_ip ← lift (local_ipv4 local);
  nonce ← draw_nonce;
  gateway_socket local_ip ;;
  gateway_send local_ip
    (pcp_map_request local_ip (socket_port local) (socket_port local) MAPPING_LIFETIME_SECONDS nonce) ;;
  response ← gateway_receive 128;
  '(external_ip, external_port) ← lift (parse_pcp_map_response response (socket_port local) nonce);
  mret (mkPcpMapping local_ip (socket_port local) external_port nonce, socket_new external_ip external_port).
Definition PcpMapping_renew (m : PcpMapping) : gateway_call (PcpMapping * SocketAddr) :=
  gateway_socket (pc_local_ip m) ;;
  gateway_send (pc_local_ip m)
    (pcp_map_request (pc_local_ip m) (pc_internal_port m) (pc_external_port m) MAPPING_LIFETIME_SECONDS (pc_nonce m)) ;;
  response ← gateway_receive 128;
  '(external_ip, external_port) ← lift (parse_pcp_map_response response (pc_internal_port m) (pc_nonce m));
  mret (mkPcpMapping (pc_local_ip m) (pc_internal_port m) external_port (pc_nonce m),
        socket_new external_ip external_port).
Definition PcpMapping_drop (m : PcpMapping) : gateway_call unit :=
  opened ← attempt (gateway_socket (pc_local_ip m) : gateway_call unit);
  match (opened : result MappingError unit) with
  | Err _ => mret tt
  | Ok _ =>
      attempt (F := MappingError) (gateway_send (pc_local_ip m)
        (pcp_map_request (pc_local_ip m) (pc_internal_port m) (pc_external_port m) 0 (pc_nonce m))) ;;
      mret tt
  end.

(** ** UPnP, through [igd-next] *)
Record UpnpMapping : Type := mkUpnpMapping { um_local : SocketAddr; um_external_port : Z }.
Definition UpnpMapping_establish (local : SocketAddr) : gateway_call (UpnpMapping * SocketAddr) :=
  lift (bail_if (negb (socket_is_ipv4 local)) Ipv4Only) ;;
  search_gateway ;;
  add_port (socket_port local) local UPNP_LEASE_SECONDS ;;
  external_ip ← get_external_ip;
  mret (mkUpnpMapping local (socket_port local), socket_new external_ip (socket_port local)).
Definition UpnpMapping_renew (m : UpnpMapping) : gateway_call (UpnpMapping * SocketAddr) :=
  add_port (um_external_port m) (um_local m) UPNP_LEASE_SECONDS ;;
  external_ip ← get_external_ip;
  mret (m, socket_new external_ip (um_external_port m)).
Definition UpnpMapping_drop (m : UpnpMapping) : gateway_call unit := remove_port (um_external_port m).
(** [local_address]: what the system chose for a socket connected to the remote. *)
Definition route_local_address (local_address : option SocketAddr) (port : Z) : result MappingError SocketAddr :=
  address ← ok_or local_address NoLocalAddress;
  Ok (socket_new (socket_ip address) port).

(** ** One of the three *)
Inductive Mapping : Type := Pcp (m : PcpMapping) | NatPmp (m : NatPmpMapping) | UpnpIgd (m : UpnpMapping).
Definition protocol_name (m : Mapping) : string :=
  match m with Pcp _ => "PCP" | NatPmp _ => "NAT-PMP" | UpnpIgd _ => "UPnP" end.
Definition or_else {A} (first second : gateway_call A) : gateway_call A := λ g,
  match first g with (Ok a, g) => (Ok a, g) | (Err _, g) => second g end.
Definition mapped {A} (f : A → Mapping) (m : gateway_call (A * SocketAddr)) : gateway_call (Mapping * SocketAddr) :=
  '(a, external) ← m; mret (f a, external).
(** A mapping that was not made leaves nothing to drop. *)
Definition Mapping_establish (local_address : option SocketAddr) (gateway : option Z) (internal_port : Z)
    : gateway_call (Mapping * SocketAddr) :=
  local ← lift (route_local_address local_address internal_port);
  or_else
    match gateway with
    | Some _ => or_else (mapped Pcp (PcpMapping_establish local)) (mapped NatPmp (NatPmpMapping_establish local))
    | None => lift (Err NoGateway)
    end
    (mapped UpnpIgd (UpnpMapping_establish local)).
Definition Mapping_renew (m : Mapping) : gateway_call (Mapping * SocketAddr) :=
  match m with
  | Pcp m => mapped Pcp (PcpMapping_renew m)
  | NatPmp m => mapped NatPmp (NatPmpMapping_renew m)
  | UpnpIgd m => mapped UpnpIgd (UpnpMapping_renew m)
  end.
Definition Mapping_drop (m : Mapping) : gateway_call unit :=
  match m with
  | Pcp m => PcpMapping_drop m
  | NatPmp m => NatPmpMapping_drop m
  | UpnpIgd m => UpnpMapping_drop m
  end.

(** ** The default gateway *)
(** [str::split_whitespace]; every word or white space takes a byte at least. *)
Fixpoint split_words (fuel : nat) (word : string) (text : string) : list string :=
  let flush := if str_is_empty word then [] else [word] in
  match fuel with
  | O => flush
  | S fuel =>
      match strip_one whitespace_encodings text with
      | Some text => flush ++ split_words fuel EmptyString text
      | None => match text with
                | EmptyString => flush
                | String a text => split_words fuel (word ++ String a EmptyString)%string text
                end
      end
  end.
Definition split_whitespace (text : string) : list string :=
  split_words (S (String.length text)) EmptyString text.
(** [Ipv4Addr::from_str] *)
Definition parse_ipv4 (text : string) : option Z :=
  match read_ipv4 (bytes_of_string text) with Some (ip, []) => Some ip | _ => None end.
Fixpoint gateway_word (words : list string) : option Z :=
  match words with
  | [] => None
  | word :: words =>
      if bool_decide (word = "via") then w ← head words; parse_ipv4 w else gateway_word words
  end.
(** The Unix build: the output of [ip -4 route show default], when it succeeds. *)
Definition default_ipv4_gateway (output : option string) : option Z :=
  text ← output; gateway_word (split_whitespace text).

(** ** The renewal by the worker; times are nanoseconds *)
Record Renewal : Type := mkRenewal { rn_mapping : option Mapping; rn_next : Z }.
(** The worker makes the mapping and then, at [now], sets the first deadline. *)
Definition first_renewal (mapping : option Mapping) (now : Z) : Renewal :=
  mkRenewal mapping (now + MAPPING_REFRESH).
(** One tick: the external address of a renewed mapping, and when it was renewed. *)
Definition renewal_tick (now later : Z) (r : Renewal) (g : Gateway) : option SocketAddr * Renewal * Gateway :=
  if now <? rn_next r then (None, r, g) else
  match rn_mapping r with
  | None => (None, mkRenewal None (later + MAPPING_REFRESH), g)
  | Some m =>
      match Mapping_renew m g with
      | (Ok (m, external), g) => (Some external, mkRenewal (Some m) (later + MAPPING_REFRESH), g)
      | (Err _, g) => (None, mkRenewal (Some m) (later + MAPPING_REFRESH), g)
      end
  end.
