(* ===== verification/AgentState.v ===== *)
(** * The persisted state of an agent ([meshlaked/src/main.rs])

    What the agent keeps on disk, the checks on the documents and requests that
    change it, the plans derived from it, and the migration and validation of a
    state file. *)
From S2P Require Import Prelude Net Text Ext Model ServiceIdentity Membership Authorization.
From S2P Require Import Responses Planet Policy Joined ExitGateway PolicyPlan TransportHealth.
From S2P Require Import SocketText Observability PeerDirectory AgentSession AgentWorker Request.
From S2P Require Import ControlUrl.
From Stdlib Require Import Ascii.
#[local] Open Scope Z_scope.

Definition AGENT_STATE_SCHEMA_VERSION : Z := 4.
Definition CERTIFICATE_REFRESH_MARGIN_SECONDS : Z := 300.

Section agent_state.
Context `{UuidLib} `{Ed25519} `{IpNetLib} `{HashOrder} `{SessionCrypto} `{UrlLib} `{ClientLib}.
Context `{!MembershipSerde} `{!AuthorizationSerde} `{!PolicySerde} `{!PlanetSerde}.

#[global] Instance PlanetTurnServer_eq_dec : EqDecision PlanetTurnServer.
Proof. solve_decision. Defined.
#[global] Instance PlanetTlsRelay_eq_dec : EqDecision PlanetTlsRelay.
Proof. solve_decision. Defined.
#[global] Instance ExitNodeSelection_eq_dec : EqDecision ExitNodeSelection.
Proof. solve_decision. Defined.
#[global] Instance PlanetRoot_eq_dec : EqDecision PlanetRoot.
Proof. solve_decision. Defined.
#[global] Instance PlanetRelay_eq_dec : EqDecision PlanetRelay.
Proof. solve_decision. Defined.
#[global] Instance MembershipClaims_eq_dec : EqDecision MembershipClaims.
Proof. solve_decision. Defined.
#[global] Instance MembershipCertificate_eq_dec : EqDecision MembershipCertificate.
Proof. solve_decision. Defined.
#[global] Instance DnsPolicy_eq_dec : EqDecision DnsPolicy.
Proof. solve_decision. Defined.
#[global] Instance PolicyRoute_eq_dec : EqDecision PolicyRoute.
Proof. solve_decision. Defined.
#[global] Instance ExitNode_eq_dec : EqDecision ExitNode.
Proof. solve_decision. Defined.
#[global] Instance NetworkPolicyManifest_eq_dec : EqDecision NetworkPolicyManifest.
Proof. solve_decision. Defined.

(** ** The state *)
Record PersistedPlanet : Type := mkPersistedPlanet {
  pp_manifest_url : string;
  pp_controller_url : string;
  pp_controller_public_key_base64 : string;
  pp_controller_tls_ca_pem : option string;
}.
Record PersistedState : Type := mkPersistedState {
  ag_schema_version : Z;
  ag_device_id : DeviceId;
  ag_identity_secret_key : bytes;
  ag_networks : list JoinedNetwork;
  ag_relay_endpoint : option SocketAddr;
  ag_relay_endpoints : list SocketAddr;
  ag_upnp_enabled : bool;
  ag_stun_servers : list string;
  ag_root_servers : list PlanetRoot;
  ag_authorizations : gmap NetworkId NetworkAuthorizationManifest;
  ag_planet : option PersistedPlanet;
  ag_exit_gateways : list ExitGatewayConfig;
}.
(** [PersistedState::new], given the random key and the fresh identifier. *)
Definition PersistedState_new (identity_secret_key : bytes) (fresh : Uuid) : PersistedState :=
  mkPersistedState AGENT_STATE_SCHEMA_VERSION (mkDeviceId fresh) identity_secret_key [] None [] true
    [] [] ∅ None [].
Definition identity_signing_key (s : PersistedState) : result ControlError SigningKey :=
  sk_from_bytes <$> ok_or (try_into 32 (ag_identity_secret_key s)) AgentFailed.

(** Updates of parts of the state. *)
Definition with_networks (s : PersistedState) (networks : list JoinedNetwork) : PersistedState :=
  mkPersistedState (ag_schema_version s) (ag_device_id s) (ag_identity_secret_key s) networks
    (ag_relay_endpoint s) (ag_relay_endpoints s) (ag_upnp_enabled s) (ag_stun_servers s)
    (ag_root_servers s) (ag_authorizations s) (ag_planet s) (ag_exit_gateways s).
Definition with_exit_gateways (s : PersistedState) (gateways : list ExitGatewayConfig)
    : PersistedState :=
  mkPersistedState (ag_schema_version s) (ag_device_id s) (ag_identity_secret_key s)
    (ag_networks s) (ag_relay_endpoint s) (ag_relay_endpoints s) (ag_upnp_enabled s)
    (ag_stun_servers s) (ag_root_servers s) (ag_authorizations s) (ag_planet s) gateways.
Definition with_authorizations (s : PersistedState)
    (authorizations : gmap NetworkId NetworkAuthorizationManifest) : PersistedState :=
  mkPersistedState (ag_schema_version s) (ag_device_id s) (ag_identity_secret_key s)
    (ag_networks s) (ag_relay_endpoint s) (ag_relay_endpoints s) (ag_upnp_enabled s)
    (ag_stun_servers s) (ag_root_servers s) authorizations (ag_planet s) (ag_exit_gateways s).
Definition with_relays (s : PersistedState) (endpoint : option SocketAddr)
    (endpoints : list SocketAddr) (upnp : bool) (stun_servers : list string)
    (root_servers : list PlanetRoot) (planet : option PersistedPlanet) : PersistedState :=
  mkPersistedState (ag_schema_version s) (ag_device_id s) (ag_identity_secret_key s)
    (ag_networks s) endpoint endpoints upnp stun_servers root_servers (ag_authorizations s) planet
    (ag_exit_gateways s).
Definition with_identity (s : PersistedState) (key : bytes) : PersistedState :=
  mkPersistedState (ag_schema_version s) (ag_device_id s) key (ag_networks s)
    (ag_relay_endpoint s) (ag_relay_endpoints s) (ag_upnp_enabled s) (ag_stun_servers s)
    (ag_root_servers s) (ag_authorizations s) (ag_planet s) (ag_exit_gateways s).
Definition with_schema (s : PersistedState) (version : Z) : PersistedState :=
  mkPersistedState version (ag_device_id s) (ag_identity_secret_key s) (ag_networks s)
    (ag_relay_endpoint s) (ag_relay_endpoints s) (ag_upnp_enabled s) (ag_stun_servers s)
    (ag_root_servers s) (ag_authorizations s) (ag_planet s) (ag_exit_gateways s).

Definition with_control_plane (n : JoinedNetwork) (c : NetworkControlPlane) : JoinedNetwork :=
  mkJoinedNetwork (jn_network n) (jn_assigned_addresses n) (jn_certificate n) (jn_network_key n) c.
Definition set_authorization (c : NetworkControlPlane)
    (authorization : option NetworkAuthorizationManifest) : NetworkControlPlane :=
  mkNetworkControlPlane (cp_controller_url c) (cp_pinned_controller_public_key c)
    (cp_controller_tls_ca_pem c) (cp_planet_manifest_url c) (cp_planet_manifest_version c)
    (cp_planet_last_issued_at c) (cp_planet_expires_at c) (cp_planet_semantic_digest c)
    (cp_verified_roots c) (cp_verified_relays c) (cp_verified_tls_relays c)
    (cp_verified_turn_servers c) (cp_verified_stun_servers c) authorization
    (cp_policy_manifest c) (cp_exit_node_selection c).
Definition set_policy (c : NetworkControlPlane) (policy : option NetworkPolicyManifest)
    (selection : ExitNodeSelection) : NetworkControlPlane :=
  mkNetworkControlPlane (cp_controller_url c) (cp_pinned_controller_public_key c)
    (cp_controller_tls_ca_pem c) (cp_planet_manifest_url c) (cp_planet_manifest_version c)
    (cp_planet_last_issued_at c) (cp_planet_expires_at c) (cp_planet_semantic_digest c)
    (cp_verified_roots c) (cp_verified_relays c) (cp_verified_tls_relays c)
    (cp_verified_turn_servers c) (cp_verified_stun_servers c) (cp_authorization_manifest c)
    policy selection.
Definition network_with_policy (n : JoinedNetwork) (policy : option NetworkPolicyManifest)
    (selection : ExitNodeSelection) : JoinedNetwork :=
  with_control_plane n (set_policy (jn_control_plane n) policy selection).
(** The URL, the pinned key and the pinned bundle of a controller. *)
Definition set_controller (c : NetworkControlPlane) (url : option string) (pinned : bytes)
    (tls_ca_pem manifest_url : option string) : NetworkControlPlane :=
  mkNetworkControlPlane url pinned tls_ca_pem manifest_url (cp_planet_manifest_version c)
    (cp_planet_last_issued_at c) (cp_planet_expires_at c) (cp_planet_semantic_digest c)
    (cp_verified_roots c) (cp_verified_relays c) (cp_verified_tls_relays c)
    (cp_verified_turn_servers c) (cp_verified_stun_servers c) (cp_authorization_manifest c)
    (cp_policy_manifest c) (cp_exit_node_selection c).
Definition network_position (s : PersistedState) (id : NetworkId) : option nat :=
  fst <$> list_find (λ n, jn_id n = id) (ag_networks s).

(** ** Policies and exits *)
Definition same_route (l r : PolicyRoute) : bool :=
  bool_decide (pr_prefix l = pr_prefix r)
  && bool_decide (mc_device_id (cert_claims (pr_gateway_certificate l))
                  = mc_device_id (cert_claims (pr_gateway_certificate r))).
Definition same_exit (l r : ExitNode) : bool :=
  bool_decide (exit_node_device l = exit_node_device r)
  && Bool.eqb (en_supports_ipv4 l) (en_supports_ipv4 r)
  && Bool.eqb (en_supports_ipv6 l) (en_supports_ipv6 r).
Definition same_policy_semantics (l r : NetworkPolicyManifest) : bool :=
  bool_decide (pol_network_id l = pol_network_id r)
  && (pol_policy_epoch l =? pol_policy_epoch r)
  && bool_decide (pol_dns l = pol_dns r)
  && (length (pol_routes l) =? length (pol_routes r))%nat
  && forallb (λ p, same_route p.1 p.2) (zip (pol_routes l) (pol_routes r))
  && (length (pol_exit_nodes l) =? length (pol_exit_nodes r))%nat
  && forallb (λ p, same_exit p.1 p.2) (zip (pol_exit_nodes l) (pol_exit_nodes r)).

(** The stored policy and authorization, both verified against the pinned key. *)
Definition current_policy (joined : JoinedNetwork) (now : Z)
    : result ControlError NetworkPolicyManifest :=
  policy ← ok_or (cp_policy_manifest (jn_control_plane joined)) AgentBadRequest;
  authorization ← ok_or (cp_authorization_manifest (jn_control_plane joined)) AgentBadRequest;
  bad_request (verify_for_network policy (jn_id joined)
    (cp_pinned_controller_public_key (jn_control_plane joined)) authorization now None) ;;
  Ok policy.
(** A choice that the policy does not authorise. *)
Definition unsupported (policy : NetworkPolicyManifest) (gateway : option DeviceId)
    (probe : IpAddr) : bool :=
  is_some_and gateway (λ g, negb (exit_node_supports policy g probe)).
Definition validate_exit_selection (joined : JoinedNetwork) (selection : ExitNodeSelection)
    (now : Z) : result ControlError unit :=
  bail_if (es_kill_switch selection && is_none (es_ipv4_gateway selection)
           && is_none (es_ipv6_gateway selection)) AgentBadRequest ;;
  if ExitNodeSelection_is_empty selection then Ok tt else
  policy ← current_policy joined now;
  bail_if (unsupported policy (es_ipv4_gateway selection) ipv4_probe) AgentBadRequest ;;
  bail_if (unsupported policy (es_ipv6_gateway selection) ipv6_probe) AgentBadRequest.
Definition validate_local_exit_gateway (joined : JoinedNetwork) (local_device : DeviceId)
    (config : ExitGatewayConfig) (now : Z) : result ControlError unit :=
  bail_if (bool_decide (eg_network_id config ≠ jn_id joined)) AgentBadRequest ;;
  plan ← bad_request (gateway_plan [config] [joined]);
  bail_if (is_empty (gp_routes plan)) AgentBadRequest ;;
  policy ← current_policy joined now;
  bail_if (eg_enable_ipv4 config && negb (exit_node_supports policy local_device ipv4_probe))
    AgentBadRequest ;;
  bail_if (eg_enable_ipv6 config && negb (exit_node_supports policy local_device ipv6_probe))
    AgentBadRequest.

(** The exit choices a policy no longer authorises are withdrawn. *)
Definition usable_selection (policy : NetworkPolicyManifest) (selection : ExitNodeSelection)
    : ExitNodeSelection * bool :=
  let drop4 := unsupported policy (es_ipv4_gateway selection) ipv4_probe in
  let drop6 := unsupported policy (es_ipv6_gateway selection) ipv6_probe in
  let gateway4 := if drop4 then None else es_ipv4_gateway selection in
  let gateway6 := if drop6 then None else es_ipv6_gateway selection in
  let drop_switch := is_none gateway4 && is_none gateway6 && es_kill_switch selection in
  (mkExitNodeSelection gateway4 gateway6 (if drop_switch then false else es_kill_switch selection),
   drop4 || drop6 || drop_switch).
Definition clear_unusable_exit_selection (joined : JoinedNetwork) : JoinedNetwork * bool :=
  let c := jn_control_plane joined in
  let '(selection, changed) :=
    match cp_policy_manifest c with
    | None => (ExitNodeSelection_default,
               negb (ExitNodeSelection_is_empty (cp_exit_node_selection c)))
    | Some policy => usable_selection policy (cp_exit_node_selection c)
    end in
  (network_with_policy joined (cp_policy_manifest c) selection, changed).
Definition usable_gateway (networks : list JoinedNetwork) (local_device : DeviceId)
    (gateway : ExitGatewayConfig) : bool :=
  match find_network networks (eg_network_id gateway) with
  | None => false
  | Some joined =>
      match cp_policy_manifest (jn_control_plane joined) with
      | None => false
      | Some policy =>
          (negb (eg_enable_ipv4 gateway) || exit_node_supports policy local_device ipv4_probe)
          && (negb (eg_enable_ipv6 gateway) || exit_node_supports policy local_device ipv6_probe)
      end
  end.
Definition clear_unusable_exit_gateways (gateways : list ExitGatewayConfig)
    (networks : list JoinedNetwork) (local_device : DeviceId) : list ExitGatewayConfig * bool :=
  let kept := List.filter (usable_gateway networks local_device) gateways in
  (kept, negb (length kept =? length gateways)%nat).

(** ** Planet updates *)
Record VerifiedPlanetUpdate : Type := mkVerifiedPlanetUpdate {
  up_version : Z;
  up_issued_at : Z;
  up_expires_at : option Z;
  up_semantic_digest : bytes;
  up_controller_url : string;
  up_roots : list PlanetRoot;
  up_relays : list PlanetRelay;
  up_tls_relays : list PlanetTlsRelay;
  up_turn_servers : list PlanetTurnServer;
  up_stun_servers : list string;
}.
Definition validate_planet_acceptance_metadata (current : NetworkControlPlane)
    (candidate_version candidate_issued_at : option Z) (candidate_digest : bytes)
    : result ControlError unit :=
  let digest := cp_planet_semantic_digest current in
  bail_if (negb (is_empty digest) && negb (len digest =? 32)) AgentBadRequest ;;
  match cp_planet_manifest_version current with
  | None => Ok tt
  | Some previous_version =>
      version ← ok_or candidate_version AgentBadRequest;
      bail_if (negb (len candidate_digest =? 32)) AgentBadRequest ;;
      bail_if (version <? previous_version) AgentBadRequest ;;
      match cp_planet_last_issued_at current with
      | None => Ok tt
      | Some previous_issued_at =>
          issued_at ← ok_or candidate_issued_at AgentBadRequest;
          bail_if (issued_at <? previous_issued_at) AgentBadRequest ;;
          bail_if ((version =? previous_version) && (issued_at =? previous_issued_at)
                   && negb (is_empty digest) && bool_decide (digest ≠ candidate_digest))
            AgentBadRequest
      end
  end.
(** [take(8)] keeps the servers in the order of the document; then they are
    sorted. *)
Definition nonempty_trimmed (servers : list string) : list string :=
  List.filter (λ server, negb (str_is_empty server)) (map trim servers).
Definition verified_relays (manifest : PlanetManifest) : list PlanetRelay :=
  let relays := sort_relays (pm_relays manifest) in
  if is_empty relays then [mkPlanetRelay (pm_relay_endpoint manifest) 0 None] else relays.
Definition validate_planet_update (current : NetworkControlPlane) (manifest : PlanetManifest)
    (pinned : bytes) (expected_controller_url : option string) (now : Z)
    : result ControlError VerifiedPlanetUpdate :=
  bad_request (planet_verify_from_controller manifest pinned now) ;;
  controller_url ← normalize_http_url (pm_controller_url manifest);
  match expected_controller_url with
  | Some expected =>
      expected ← normalize_http_url expected;
      bail_if (bool_decide (controller_url ≠ expected)) AgentBadRequest
  | None => Ok tt
  end ;;
  digest ← bad_request (semantic_digest manifest);
  validate_planet_acceptance_metadata current (Some (pm_version manifest))
    (Some (pm_issued_at manifest)) digest ;;
  Ok (mkVerifiedPlanetUpdate (pm_version manifest) (pm_issued_at manifest) (pm_expires_at manifest)
        digest controller_url (sort_roots (pm_roots manifest)) (verified_relays manifest)
        (sort_tls_relays (pm_tls_relays manifest)) (sort_turn_servers (pm_turn_servers manifest))
        (dedup (sort_by str_le (take 8 (nonempty_trimmed (pm_stun_servers manifest)))))).
Definition planet_unchanged (c : NetworkControlPlane) (manifest_url : option string)
    (update : VerifiedPlanetUpdate) : bool :=
  bool_decide (cp_planet_manifest_url c = manifest_url)
  && bool_decide (cp_planet_manifest_version c = Some (up_version update))
  && bool_decide (cp_planet_last_issued_at c = Some (up_issued_at update))
  && bool_decide (cp_planet_expires_at c = up_expires_at update)
  && bool_decide (cp_planet_semantic_digest c = up_semantic_digest update)
  && bool_decide (cp_controller_url c = Some (up_controller_url update))
  && bool_decide (cp_verified_roots c = up_roots update)
  && bool_decide (cp_verified_relays c = up_relays update)
  && bool_decide (cp_verified_tls_relays c = up_tls_relays update)
  && bool_decide (cp_verified_turn_servers c = up_turn_servers update)
  && bool_decide (cp_verified_stun_servers c = up_stun_servers update).
Definition apply_planet_update (c : NetworkControlPlane) (manifest_url : option string)
    (update : VerifiedPlanetUpdate) : NetworkControlPlane * bool :=
  (mkNetworkControlPlane (Some (up_controller_url update)) (cp_pinned_controller_public_key c)
     (cp_controller_tls_ca_pem c) manifest_url (Some (up_version update))
     (Some (up_issued_at update)) (up_expires_at update) (up_semantic_digest update)
     (up_roots update) (up_relays update) (up_tls_relays update) (up_turn_servers update)
     (up_stun_servers update) (cp_authorization_manifest c) (cp_policy_manifest c)
     (cp_exit_node_selection c),
   negb (planet_unchanged c manifest_url update)).
(** The result of the flag is not used by the caller. *)
Definition apply_configured_planet_update (c : NetworkControlPlane) (manifest_url : string)
    (tls_ca_pem : option string) (update : VerifiedPlanetUpdate) : NetworkControlPlane :=
  (apply_planet_update
     (set_controller c (cp_controller_url c) (cp_pinned_controller_public_key c) tls_ca_pem
        (cp_planet_manifest_url c)) (Some manifest_url) update).1.
Definition validate_turn_credential (credential : TurnCredential) (now : Z)
    : result ControlError unit :=
  bail_if (negb (tc_version credential =? 1)
           || str_is_empty (tc_username credential) || (512 <? str_len (tc_username credential))
           || str_is_empty (tc_password credential) || (1024 <? str_len (tc_password credential))
           || any_byte is_ascii_control (tc_username credential)
           || any_byte is_ascii_control (tc_password credential)) AgentBadRequest ;;
  bail_if (tc_expires_at credential <=? sat_add64 now 30) AgentBadRequest.
End agent_state.
