(* ===== verification/AgentMigration.v ===== *)
(** * The agent's transport configuration, and opening a state file
    ([meshlaked/src/main.rs])

    What the transport worker and the kill switch are configured with is derived
    from the persisted state.  A state file of an older version is migrated, and
    one the agent cannot use is refused. *)
From S2P Require Import Prelude Net Text Ext Model ServiceIdentity Membership Authorization.
From S2P Require Import Responses Planet Policy Joined ExitGateway PolicyPlan TransportHealth.
From S2P Require Import SocketText Observability PeerDirectory AgentSession AgentWorker Request.
From S2P Require Import ControlUrl AgentState.
#[local] Open Scope Z_scope.

Section agent_migration.
Context `{UuidLib} `{Ed25519} `{IpNetLib} `{HashOrder} `{SessionCrypto} `{UrlLib} `{ClientLib}.
Context `{!MembershipSerde} `{!AuthorizationSerde} `{!PolicySerde} `{!PlanetSerde}.

(** ** The transport configuration *)
Definition push_new {A} `{EqDecision A} (l : list A) (x : A) : list A :=
  if contains x l then l else l ++ [x].
Definition legacy_relay_endpoints (s : PersistedState) : list SocketAddr :=
  dedup (if is_empty (ag_relay_endpoints s) then option_list (ag_relay_endpoint s)
         else ag_relay_endpoints s).
Definition collect_identities (relays : list PlanetRelay) : gmap SocketAddr ServiceIdentityPolicy :=
  fold_left (λ m relay, match relay_identity relay with
                        | Some identity => <[relay_endpoint relay := identity]> m
                        | None => m end) relays ∅.
(** The relay a TLS front end belongs to. *)
Definition tls_relay_route (relays : list PlanetRelay) (relay : PlanetTlsRelay)
    : option TlsRelayRoute :=
  candidate ← List.find (λ candidate, is_some_and (relay_identity candidate)
                (λ identity, bool_decide (service_id identity = tls_relay_id relay))) relays;
  Some (mkTlsRelayRoute relay (relay_endpoint candidate)).
Definition planet_expired (c : NetworkControlPlane) (now : Z) : bool :=
  is_some_and (cp_planet_expires_at c) (λ expiry, expiry <? now).
Definition unless {A} (expired : bool) (l : list A) : list A := if expired then [] else l.
Definition network_transport (s : PersistedState) (now : Z) (joined : JoinedNetwork)
    : NetworkTransportConfiguration :=
  let c := jn_control_plane joined in
  let expired := planet_expired c now in
  let accepted := is_some (cp_planet_manifest_version c) in
  let relays := sort_relays (unless expired (cp_verified_relays c)) in
  let endpoints := map relay_endpoint relays in
  let roots := sort_roots (unless expired (cp_verified_roots c)) in
  mkNetworkTransportConfiguration
    (dedup (if is_empty endpoints && negb accepted then legacy_relay_endpoints s else endpoints))
    (collect_identities relays)
    (omap (tls_relay_route relays) (sort_tls_relays (unless expired (cp_verified_tls_relays c))))
    (sort_turn_servers (unless expired (cp_verified_turn_servers c)))
    (cp_planet_manifest_version c)
    (if expired then None else cp_planet_expires_at c)
    (if is_empty roots && negb accepted then sort_roots (ag_root_servers s) else roots).
Definition add_transport (s : PersistedState) (now : Z) (t : TransportConfiguration)
    (joined : JoinedNetwork) : TransportConfiguration :=
  let c := jn_control_plane joined in
  let network := network_transport s now joined in
  mkTransportConfiguration
    (<[jn_id joined := network]> (tc_networks t))
    (fold_left push_new (nt_relay_endpoints network) (tc_relay_endpoints t))
    (fold_left push_new (nt_root_servers network) (tc_root_servers t))
    (fold_left push_new (nonempty_trimmed (unless (planet_expired c now) (cp_verified_stun_servers c)))
       (tc_stun_servers t))
    (tc_upnp_enabled t) (tc_turn_routes t).
Definition transport_configuration_from_state (s : PersistedState) (now : Z)
    : TransportConfiguration :=
  let t := fold_left (add_transport s now) (ag_networks s)
             (mkTransportConfiguration ∅ [] [] (nonempty_trimmed (ag_stun_servers s))
                (ag_upnp_enabled s) []) in
  let none := is_empty (ag_networks s) in
  mkTransportConfiguration (tc_networks t)
    (if none then legacy_relay_endpoints s else tc_relay_endpoints t)
    (if none then sort_roots (ag_root_servers s) else tc_root_servers t)
    (dedup (sort_by str_le (tc_stun_servers t))) (tc_upnp_enabled t) [].

(** ** The exceptions of the kill switch *)
(** [dedup_by_key]: the first of neighbours with the same endpoint. *)
Fixpoint dedup_routes (last : option SocketAddr) (routes : list TlsRelayRoute)
    : list TlsRelayRoute :=
  match routes with
  | [] => []
  | route :: routes =>
      let rest := dedup_routes (Some (tr_relay_endpoint route)) routes in
      if bool_decide (last = Some (tr_relay_endpoint route)) then rest else route :: rest
  end.
Definition tls_route_le (a b : TlsRelayRoute) : bool :=
  lex_le (tls_priority (tr_relay a) :: socket_key (tr_relay_endpoint a))
    (tls_priority (tr_relay b) :: socket_key (tr_relay_endpoint b)).
Definition all_tls_relays (t : TransportConfiguration) : list TlsRelayRoute :=
  dedup_routes None
    (sort_by tls_route_le (concat (map nt_tls_relays (hash_values (tc_networks t))))).
Definition service_urls (joined : JoinedNetwork) : list string :=
  option_list (cp_controller_url (jn_control_plane joined))
  ++ option_list (cp_planet_manifest_url (jn_control_plane joined)).
Definition kill_switch_enabled (s : PersistedState) : bool :=
  existsb (λ joined, es_kill_switch (cp_exit_node_selection (jn_control_plane joined)))
    (ag_networks s).
Definition kill_switch_plan_from_state (resolve : string → Z → option (list SocketAddr))
    (s : PersistedState) (now : Z) : result ControlError KillSwitchPlan :=
  if negb (kill_switch_enabled s) then Ok KillSwitchPlan_default else
  let t := transport_configuration_from_state s now in
  let udp endpoints := map (λ e, mkBootstrapEndpoint e BootstrapUdp) endpoints in
  services ← try_map (resolve_kill_switch_url resolve) (concat (map service_urls (ag_networks s)));
  failed (kill_switch_plan true
    (udp (tc_relay_endpoints t)
     ++ map (λ route, mkBootstrapEndpoint (tls_endpoint (tr_relay route)) BootstrapTcp)
          (all_tls_relays t)
     ++ udp (concat (map root_endpoints (tc_root_servers t)))
     ++ udp (omap parse_socket (tc_stun_servers t))
     ++ concat services)).

(** ** Migration *)
(** The single controller of a legacy state. *)
Record LegacyPlanet : Type := mkLegacyPlanet {
  lg_controller_url : option string;
  lg_manifest_url : option string;
  lg_controller_key : option bytes;
  lg_tls_ca_pem : option string;
  lg_relays : list PlanetRelay;
}.
Definition legacy_key (planet : PersistedPlanet) : option bytes :=
  key ← base64_decode (trim (pp_controller_public_key_base64 planet));
  if len key =? 32 then Some key else None.
Definition legacy_planet (s : PersistedState) : LegacyPlanet :=
  let planet := ag_planet s in
  mkLegacyPlanet
    (p ← planet; ok (normalize_http_url (pp_controller_url p)))
    (p ← planet; ok (normalize_http_url (pp_manifest_url p)))
    (p ← planet; legacy_key p)
    (pem ← (planet ≫= pp_controller_tls_ca_pem);
     if str_is_empty (trim pem) then None else Some pem)
    (imap (λ priority endpoint, mkPlanetRelay endpoint (Z.min (Z.of_nat priority) 65535) None)
       (ag_relay_endpoints s)).
Definition lg_urls_are_https (l : LegacyPlanet) : bool :=
  is_some_and (lg_controller_url l) is_https && is_some_and (lg_manifest_url l) is_https.
Definition network_url (c : NetworkControlPlane) : option string :=
  cp_controller_url c ≫= (λ url, ok (normalize_http_url url)).
(** The keys the network already trusts agree with the legacy controller. *)
Definition legacy_binding_is_safe (l : LegacyPlanet) (joined : JoinedNetwork) : bool :=
  let c := jn_control_plane joined in
  let configured := if is_empty (cp_pinned_controller_public_key c) then []
                    else [cp_pinned_controller_public_key c] in
  let certified := option_list (cert_controller_public_key <$> jn_certificate joined) in
  match cp_controller_url c with
  | None => true
  | Some _ => bool_decide (network_url c = lg_controller_url l)
  end
  && is_some (lg_controller_url l)
  && is_some_and (lg_controller_key l)
       (λ legacy, forallb (λ key, (len key =? 32) && bool_decide (key = legacy))
                    (configured ++ certified)).
(** The identity of the controller, where the network has none. *)
Definition migrate_controller (l : LegacyPlanet) (joined : JoinedNetwork) : NetworkControlPlane :=
  let c := jn_control_plane joined in
  if negb (legacy_binding_is_safe l joined) then c else
  let url := if is_none (cp_controller_url c) then lg_controller_url l else cp_controller_url c in
  let certified := cert_controller_public_key <$> jn_certificate joined in
  let key :=
    match certified with
    | Some key => if len key =? 32 then Some key else lg_controller_key l
    | None => lg_controller_key l
    end in
  let pinned := if is_empty (cp_pinned_controller_public_key c) then default [] key
                else cp_pinned_controller_public_key c in
  set_controller c url pinned (cp_controller_tls_ca_pem c) (cp_planet_manifest_url c).
Definition uses_legacy_controller (l : LegacyPlanet) (joined : JoinedNetwork)
    (c : NetworkControlPlane) : bool :=
  legacy_binding_is_safe l joined
  && match network_url c, lg_controller_url l with
     | Some network, Some legacy => bool_decide (network = legacy)
     | _, _ => false
     end
  && is_some_and (lg_controller_key l)
       (λ key, bool_decide (cp_pinned_controller_public_key c = key)).
Definition or_empty {A} (l legacy : list A) : list A := if is_empty l then legacy else l.
Definition migrate_services (s : PersistedState) (l : LegacyPlanet) (c : NetworkControlPlane)
    : NetworkControlPlane :=
  mkNetworkControlPlane (cp_controller_url c) (cp_pinned_controller_public_key c)
    (if is_none (cp_controller_tls_ca_pem c)
        && (is_none (lg_tls_ca_pem l) || lg_urls_are_https l)
     then lg_tls_ca_pem l else cp_controller_tls_ca_pem c)
    (if is_none (cp_planet_manifest_url c) then lg_manifest_url l else cp_planet_manifest_url c)
    (cp_planet_manifest_version c) (cp_planet_last_issued_at c) (cp_planet_expires_at c)
    (cp_planet_semantic_digest c)
    (or_empty (cp_verified_roots c) (ag_root_servers s))
    (or_empty (cp_verified_relays c) (lg_relays l))
    (cp_verified_tls_relays c) (cp_verified_turn_servers c)
    (or_empty (cp_verified_stun_servers c) (ag_stun_servers s))
    (cp_authorization_manifest c) (cp_policy_manifest c) (cp_exit_node_selection c).

(** The manifest the stored services are taken to come from. *)
Definition inferred_version (c : NetworkControlPlane) : Z :=
  if forallb (λ relay, is_some (relay_identity relay)) (cp_verified_relays c)
     && forallb (λ root, is_some (root_identity root)) (cp_verified_roots c) then 3 else 2.
Definition inferred_manifest (c : NetworkControlPlane) : PlanetManifest :=
  let relays := sort_relays (cp_verified_relays c) in
  mkPlanetManifest (default (inferred_version c) (cp_planet_manifest_version c))
    (default EmptyString (cp_controller_url c))
    (default (SA4 0 0) (relay_endpoint <$> head relays))
    (sort_roots (cp_verified_roots c)) relays [] []
    (dedup (sort_by str_le (cp_verified_stun_servers c))) 0 None
    (cp_pinned_controller_public_key c) [].
Definition migrate_planet_acceptance_metadata (c : NetworkControlPlane)
    : NetworkControlPlane * bool :=
  if is_empty (cp_verified_relays c) || is_none (cp_controller_url c)
     || negb (len (cp_pinned_controller_public_key c) =? 32) then (c, false) else
  let version := default (inferred_version c) (cp_planet_manifest_version c) in
  let issued_at := default 0 (cp_planet_last_issued_at c) in
  let digest := if is_empty (cp_planet_semantic_digest c)
                then ok (semantic_digest (inferred_manifest c)) else None in
  (mkNetworkControlPlane (cp_controller_url c) (cp_pinned_controller_public_key c)
     (cp_controller_tls_ca_pem c) (cp_planet_manifest_url c) (Some version) (Some issued_at)
     (cp_planet_expires_at c) (default (cp_planet_semantic_digest c) digest) (cp_verified_roots c)
     (cp_verified_relays c) (cp_verified_tls_relays c) (cp_verified_turn_servers c)
     (cp_verified_stun_servers c) (cp_authorization_manifest c) (cp_policy_manifest c)
     (cp_exit_node_selection c),
   is_none (cp_planet_manifest_version c) || is_none (cp_planet_last_issued_at c) || is_some digest).
#[global] Instance AuthorizationEpochHint_eq_dec : EqDecision AuthorizationEpochHint.
Proof. solve_decision. Defined.
#[global] Instance AuthorizedMembership_eq_dec : EqDecision AuthorizedMembership.
Proof. solve_decision. Defined.
#[global] Instance NetworkAuthorizationManifest_eq_dec : EqDecision NetworkAuthorizationManifest.
Proof. solve_decision. Defined.
#[global] Instance NetworkControlPlane_eq_dec : EqDecision NetworkControlPlane.
Proof. solve_decision. Defined.
(** One network; each assignment of the code fills a field that was empty, so
    the flag says whether the record differs. *)
Definition migrate_control_plane (s : PersistedState) (l : LegacyPlanet) (joined : JoinedNetwork)
    : JoinedNetwork * bool :=
  let c0 := migrate_controller l joined in
  let c1 := if uses_legacy_controller l joined c0 then migrate_services s l c0 else c0 in
  let c2 := if is_none (cp_authorization_manifest c1)
            then set_authorization c1 (ag_authorizations s !! jn_id joined) else c1 in
  let '(c3, accepted) := migrate_planet_acceptance_metadata c2 in
  (with_control_plane joined c3, bool_decide (c2 ≠ jn_control_plane joined) || accepted).
Definition migrate_legacy_network_control_planes (s : PersistedState) : PersistedState * bool :=
  let migrated := map (migrate_control_plane s (legacy_planet s)) (ag_networks s) in
  let s' := with_networks s (map fst migrated) in
  let moved := negb (bool_decide (ag_authorizations s = ∅))
    && forallb (λ joined, is_none (ag_authorizations s !! jn_id joined)
                          || is_some (cp_authorization_manifest (jn_control_plane joined)))
         (ag_networks s') in
  (if moved then with_authorizations s' ∅ else s', existsb snd migrated || moved).

(** A policy whose documents no longer verify is dropped. *)
Definition policy_is_valid (joined : JoinedNetwork) (policy : NetworkPolicyManifest) (now : Z)
    : bool :=
  let c := jn_control_plane joined in
  is_some_and (cp_authorization_manifest c) (λ authorization,
    is_ok (auth_verify_from_controller authorization (cp_pinned_controller_public_key c) now)
    && is_ok (verify_for_network policy (jn_id joined) (cp_pinned_controller_public_key c)
                authorization now None)).
Definition discard_invalid_policy (now : Z) (joined : JoinedNetwork) : JoinedNetwork * bool :=
  let c := jn_control_plane joined in
  match cp_policy_manifest c with
  | None => (joined, false)
  | Some policy =>
      if policy_is_valid joined policy now then (joined, false)
      else (network_with_policy joined None (cp_exit_node_selection c), true)
  end.
(** A loop over the networks that may change each of them. *)
Definition update_networks (f : JoinedNetwork → JoinedNetwork * bool) (s : PersistedState)
    : PersistedState * bool :=
  let updated := map f (ag_networks s) in
  (with_networks s (map fst updated), existsb snd updated).
Definition discard_invalid_persisted_policies (s : PersistedState) (now : Z)
    : PersistedState * bool := update_networks (discard_invalid_policy now) s.

(** [random]: 32 bytes of the system's randomness, for a state without an identity. *)
Definition restore_identity (random : option bytes) (s : PersistedState)
    : result ControlError (PersistedState * bool) :=
  if len (ag_identity_secret_key s) =? 32 then Ok (s, false) else
  bail_if (AGENT_STATE_SCHEMA_VERSION <=? ag_schema_version s) AgentFailed ;;
  key ← ok_or random AgentFailed;
  Ok (with_identity s key, true).
Definition restore_relay_endpoint (s : PersistedState) : PersistedState * bool :=
  match ag_relay_endpoints s, ag_relay_endpoint s with
  | [], Some endpoint =>
      (with_relays s (ag_relay_endpoint s) [endpoint] (ag_upnp_enabled s) (ag_stun_servers s)
         (ag_root_servers s) (ag_planet s), true)
  | _, _ => (s, false)
  end.
Definition migrate_and_validate_agent_state (random : option bytes) (now : Z) (s : PersistedState)
    : result ControlError (PersistedState * bool) :=
  bail_if (AGENT_STATE_SCHEMA_VERSION <? ag_schema_version s) AgentFailed ;;
  '(s, c0) ← restore_identity random s;
  for_each (λ n, bail_if (negb (len (jn_network_key n) =? 32)) AgentFailed) (ag_networks s) ;;
  let '(s, c1) := restore_relay_endpoint s in
  let '(s, c2) := migrate_legacy_network_control_planes s in
  let '(s, c3) := discard_invalid_persisted_policies s now in
  let '(s, c4) := update_networks clear_unusable_exit_selection s in
  let '(gateways, c5) :=
    clear_unusable_exit_gateways (ag_exit_gateways s) (ag_networks s) (ag_device_id s) in
  let s := with_exit_gateways s gateways in
  failed (gateway_plan (ag_exit_gateways s) (ag_networks s)) ;;
  let old := ag_schema_version s <? AGENT_STATE_SCHEMA_VERSION in
  Ok (if old then with_schema s AGENT_STATE_SCHEMA_VERSION else s,
      c0 || c1 || c2 || c3 || c4 || c5 || old).
End agent_migration.
