(* ===== verification/StateCommand.v ===== *)
(** * Opening, backing up and restoring a state
    ([meshlaked/src/state_backup_command.rs],
    [meshlake-controller/src/state_backup_command.rs], and the opening of a
    state file in both [main.rs])

    The commands of the two programs are the same but for the state, its purpose
    and its checks, which are a parameter here. *)
From S2P Require Import Prelude Request Net Text Ext Model FileSystem StateProtection StateFile.
From S2P Require Import ServiceIdentity Membership Authorization Planet Policy Joined.
From S2P Require Import ExitGateway ControlUrl StateBackup AgentState AgentMigration.
#[local] Open Scope Z_scope.

Inductive CommandError : Type :=
| CommandFile (e : StateFileError) | CommandBackup (e : StateBackupError)
| CommandRead (kind : IoErrorKind) | CommandProtection (e : StateProtectionError)
| CommandState | CommandMissing | CommandExists.
Abbreviation command := (state_op CommandError).
Definition command_file {A} (m : state_op StateFileError A) : command A := convert CommandFile m.
Definition command_backup {A} (m : state_op StateBackupError A) : command A :=
  convert CommandBackup m.
(** [fs::read]. *)
Definition read_file (kn : Kernel) (path : list Component) : io bytes :=
  file ← open_file kn path;
  m ← handle_metadata kn file;
  read_up_to kn file (md_len m).
(** The lock is held while the command runs. *)
Definition holding_lock {A} (kn : Kernel) (state_path : string) (m : command A) : command A :=
  lock ← command_file (acquire kn state_path);
  r ← attempt m;
  release kn lock ;;
  lift r.

(** What a command knows of the state it works on. *)
Record StateOwner (T : Type) : Type := mkStateOwner {
  so_purpose : bytes;
  so_kind : StateBackupKind;
  so_migrate : T → option (T * bool);
}.
Arguments mkStateOwner {T} _ _ _.
Arguments so_purpose {T} _.
Arguments so_kind {T} _.
Arguments so_migrate {T} _ _.
(** The values drawn by a command: file names, nonces, salt.  Opening a state may
    write it twice. *)
Record CommandDraws `{UuidLib} : Type := mkCommandDraws {
  cd_recovery_name : Uuid;
  cd_state_name : Uuid;
  cd_state_nonce : option bytes;
  cd_settled_name : Uuid;
  cd_settled_nonce : option bytes;
  cd_backup_name : Uuid;
  cd_salt : option bytes;
  cd_nonce : option bytes;
}.

Section command.
Context `{UuidLib} `{!UuidText} `{StateLib} `{Argon2Lib}.
Context `{!Serde ProtectedStateEnvelope} `{!Serde BackupEnvelope} `{!Serde AssociatedData}.
Context {T : Type} `{!Serde T} (owner : StateOwner T).

Definition write_state_with_protection (kn : Kernel) (name : Uuid) (nonce : option bytes)
    (path : string) (state : T) (protection : StateProtection) : command unit :=
  command_file (write_protected_state_file_with kn name nonce path state (so_purpose owner) protection).
Definition read_state (kn : Kernel) (path : string) (protection : StateProtection)
    : command (DecodedState T) :=
  bs ← convert CommandRead (read_file kn (components path));
  lift (map_err CommandProtection (decode_protected_state_with bs (so_purpose owner) protection)).
Definition backup_with_password_with_protection (kn : Kernel) (d : CommandDraws)
    (state_path output : string) (password : bytes) (force : bool) (protection : StateProtection)
    : command unit :=
  holding_lock kn state_path (
    output ← command_backup (resolve_state_backup_path kn state_path output);
    command_file (recover_protected_state_file kn (cd_recovery_name d) state_path) ;;
    there ← path_exists kn (components state_path);
    lift (bail_if (negb (there : bool)) CommandMissing) ;;
    command_file (restrict_state_file_permissions kn state_path) ;;
    decoded ← read_state kn state_path protection;
    '(state, migrated) ← lift (ok_or (so_migrate owner (ds_value decoded)) CommandState);
    (if ds_needs_protection_upgrade decoded || migrated
     then write_state_with_protection kn (cd_state_name d) (cd_state_nonce d) state_path state protection
     else mret tt) ;;
    command_file (cleanup_stale_state_backup kn state_path) ;;
    encrypted ← lift (map_err CommandBackup
                        (encode_state_backup (cd_salt d) (cd_nonce d) state password (so_kind owner)));
    command_backup (write_state_backup_file kn (cd_backup_name d) (path_text output) encrypted force)).
Definition restore_with_password_with_protection (kn : Kernel) (d : CommandDraws)
    (state_path input : string) (password : bytes) (force : bool) (protection : StateProtection)
    : command unit :=
  holding_lock kn state_path (
    input ← command_backup (resolve_state_backup_path kn state_path input);
    command_file (recover_protected_state_file kn (cd_recovery_name d) state_path) ;;
    bs ← convert CommandRead (read_file kn (absolute_path input));
    decoded ← lift (map_err CommandBackup (decode_state_backup bs password (so_kind owner)));
    '(state, _) ← lift (ok_or (so_migrate owner decoded) CommandState);
    there ← path_exists kn (components state_path);
    lift (bail_if ((there : bool) && negb force) CommandExists) ;;
    write_state_with_protection kn (cd_state_name d) (cd_state_nonce d) state_path state protection).
(** The end of opening a state file: the checks, and a rewrite when they changed
    something. *)
Definition settle_state (kn : Kernel) (d : CommandDraws) (path : string) (state : T)
    (outdated : bool) (protection : StateProtection) : command T :=
  '(state, migrated) ← lift (ok_or (so_migrate owner state) CommandState);
  (if outdated || migrated
   then write_state_with_protection kn (cd_settled_name d) (cd_settled_nonce d) path state protection
   else mret tt) ;;
  command_file (cleanup_stale_state_backup kn path) ;;
  mret state.
End command.
(** A lock that stays held when the state opens. *)
Definition keeping_lock {A} (kn : Kernel) (state_path : string) (m : command A)
    : command (Handle * A) :=
  lock ← command_file (acquire kn state_path);
  r ← attempt m;
  match (r : result CommandError A) with
  | Ok a => mret (lock, a)
  | Err e => release kn lock ;; lift (Err e)
  end.

(** ** The state file of an agent *)
Section agent_file.
Context `{UuidLib} `{Ed25519} `{IpNetLib} `{HashOrder} `{SessionCrypto} `{UrlLib} `{ClientLib}.
Context `{!UuidText} `{!MembershipSerde} `{!AuthorizationSerde} `{!PolicySerde} `{!PlanetSerde}.
Context `{StateLib} `{Argon2Lib} `{!Serde ProtectedStateEnvelope} `{!Serde BackupEnvelope}.
Context `{!Serde AssociatedData} `{!Serde PersistedState}.
(** The randomness for a replaced identity key, and the clock. *)
Context (random : option bytes) (now : Z).

Definition agent_owner : StateOwner PersistedState :=
  mkStateOwner AGENT_STATE_PROTECTION_PURPOSE AgentBackup
    (λ s, ok (migrate_and_validate_agent_state random now s)).
(** The state and its lock; [fresh] is the identifier of a new device. *)
Definition open_with_protection (kn : Kernel) (d : CommandDraws) (fresh : Uuid) (path : string)
    (protection : StateProtection) : command (Handle * PersistedState) :=
  keeping_lock kn path (
    command_file (recover_protected_state_file kn (cd_recovery_name d) path) ;;
    there ← path_exists kn (components path);
    (if (there : bool) then command_file (restrict_state_file_permissions kn path) else mret tt) ;;
    there ← path_exists kn (components path);
    '(state, outdated) ← (if (there : bool) then
       decoded ← read_state agent_owner kn path protection;
       mret (ds_value decoded, ds_needs_protection_upgrade decoded)
     else
       key ← lift (ok_or random CommandState);
       let state := PersistedState_new key fresh in
       write_state_with_protection agent_owner kn (cd_state_name d) (cd_state_nonce d) path state protection ;;
       mret (state, false));
    settle_state agent_owner kn d path state (outdated : bool) protection).

Definition has_invalid_key (n : JoinedNetwork) : bool :=
  negb (is_ok (NetworkKey_from_slice (jn_network_key n))).
Definition without_networks (invalid : list NetworkId) (s : PersistedState) : PersistedState :=
  let kept id := negb (existsb (λ i, bool_decide (i = id)) invalid) in
  with_exit_gateways
    (with_authorizations
       (with_networks s (List.filter (λ n, kept (jn_id n)) (ag_networks s)))
       (retain (λ id _, kept id) (ag_authorizations s)))
    (List.filter (λ g, kept (eg_network_id g)) (ag_exit_gateways s)).
Definition repair_invalid_networks_with_protection (kn : Kernel) (d : CommandDraws) (path : string)
    (protection : StateProtection) : command Z :=
  holding_lock kn path (
    command_file (recover_protected_state_file kn (cd_recovery_name d) path) ;;
    there ← path_exists kn (components path);
    lift (bail_if (negb (there : bool)) CommandMissing) ;;
    command_file (restrict_state_file_permissions kn path) ;;
    decoded ← read_state agent_owner kn path protection;
    let state := ds_value decoded in
    let invalid := remove_dups (map jn_id (List.filter has_invalid_key (ag_networks state))) in
    if is_empty invalid then mret 0 else
    '(state, _) ← lift (ok_or (so_migrate agent_owner (without_networks invalid state)) CommandState);
    write_state_with_protection agent_owner kn (cd_state_name d) (cd_state_nonce d) path state protection ;;
    command_file (cleanup_stale_state_backup kn path) ;;
    mret (len invalid)).
End agent_file.
