(* ===== verification/AgentControl.v ===== *)
(** * The agent's control plane ([meshlaked/src/main.rs])

    The requests of the local API and the refreshes of the background task, over
    the persisted state, its file, the adapter, the TURN credentials kept in
    memory and the revision of the transport.  What a call sees of the outside
    (the clocks, the random draws, the answers of the controller, the outcome of
    writing the file and of the commands) is its environment; the clocks are read
    once per call.  A call runs alone: the lock on the adapter is held from its
    first read of the state to its end. *)
From S2P Require Import Prelude Net Text Ext Model ServiceIdentity Membership Authorization.
From S2P Require Import Responses RelayProto Session RootProto Planet Policy Joined DataPlane.
From S2P Require Import ExitGateway PolicyPlan TransportHealth SocketText Observability.
From S2P Require Import PeerDirectory Frames AgentSession AgentWorker Request LinuxAdapter.
From S2P Require Import ControlUrl AgentState AgentMigration.
From Stdlib Require Import Ascii.
#[local] Open Scope Z_scope.

Section agent_control.
Context `{UuidLib} `{Ed25519} `{IpNetLib} `{HashOrder} `{SessionCrypto} `{UrlLib} `{ClientLib}.
Context `{!UuidText}.
Context `{!MembershipSerde} `{!AuthorizationSerde} `{!PolicySerde} `{!PlanetSerde}.

(** ** The agent and what a call sees *)
Record Agent : Type := mkAgent {
  an_state : PersistedState;
  an_disk : PersistedState;
  an_adapter : Adapter;
  an_turn_credentials : gmap NetworkId TurnCredential;
  an_revision : Z;
  an_sessions : ObservationState;
  an_transport_reload : bool;
  an_authorization_refresh : bool;
  an_shutting_down : bool;
}.
(** A request to a controller is made with a pinned bundle or without. *)
Record AgentEnv : Type := mkAgentEnv {
  ne_now : Z;
  ne_uuid : Uuid;
  ne_random : option bytes;
  ne_nonce : bytes;
  ne_write : PersistedState → PersistedState → WriteOutcome;
  ne_execute : list LinuxPolicyCommand → LinuxPolicyCommand → bool;
  ne_open_device : list LinuxPolicyCommand → bool;
  ne_resolve : string → Z → option (list SocketAddr);
  ne_planet : option string → string → option PlanetManifest;
  ne_authorization : option string → string → option NetworkAuthorizationManifest;
  ne_refresh : option string → string → MembershipRefreshRequest → option MembershipRefreshResponse;
  ne_policy : option string → string → option NetworkPolicyManifest;
}.
Definition adapter_env (env : AgentEnv) : AdapterEnv :=
  mkAdapterEnv (ne_execute env) (ne_open_device env) (ne_now env).
Abbreviation agent_op := (handler Agent ControlError).
Abbreviation adapter_op := (handler Adapter AdapterError).

Definition with_state (a : Agent) (s : PersistedState) : Agent :=
  mkAgent s (an_disk a) (an_adapter a) (an_turn_credentials a) (an_revision a) (an_sessions a)
    (an_transport_reload a) (an_authorization_refresh a) (an_shutting_down a).
Definition with_disk (a : Agent) (s : PersistedState) : Agent :=
  mkAgent (an_state a) s (an_adapter a) (an_turn_credentials a) (an_revision a) (an_sessions a)
    (an_transport_reload a) (an_authorization_refresh a) (an_shutting_down a).
Definition with_adapter (a : Agent) (ad : Adapter) : Agent :=
  mkAgent (an_state a) (an_disk a) ad (an_turn_credentials a) (an_revision a) (an_sessions a)
    (an_transport_reload a) (an_authorization_refresh a) (an_shutting_down a).
Definition with_credentials (a : Agent) (credentials : gmap NetworkId TurnCredential) : Agent :=
  mkAgent (an_state a) (an_disk a) (an_adapter a) credentials (an_revision a) (an_sessions a)
    (an_transport_reload a) (an_authorization_refresh a) (an_shutting_down a).

Definition get_state : agent_op PersistedState := a ← read; mret (an_state a).
Definition set_state (s : PersistedState) : agent_op unit := a ← read; write (with_state a s).
(** Replacing the file by a state; the live state is a separate matter. *)
Definition write_file (env : AgentEnv) (e : ControlError) (s : PersistedState) : agent_op unit :=
  a ← read;
  match ne_write env (an_disk a) s with
  | Written => write (with_disk a s)
  | NotWritten => lift (Err e)
  | WrittenUnconfirmed => write (with_disk a s) ;; lift (Err e)
  end.
Definition persist_state_candidate (env : AgentEnv) (e : ControlError) (candidate : PersistedState)
    : agent_op unit := write_file env e candidate ;; set_state candidate.
(** An operation of the adapter, with its outcome looked at or returned. *)
Definition adapt (m : adapter_op unit) : agent_op (result AdapterError unit) := λ a,
  let '(r, ad) := m (an_adapter a) in (Ok r, with_adapter a ad).
Definition adapt_or (e : ControlError) (m : adapter_op unit) : agent_op unit :=
  r ← adapt m; lift (map_err (λ _, e) r).
Definition is_active : agent_op bool := a ← read; mret (ad_active (an_adapter a)).
Definition fail_closed {A} (env : AgentEnv) (e : ControlError) : agent_op A :=
  adapt (deactivate (adapter_env env)) ;; lift (Err e).
(** [fetch_add] wraps around. *)
Definition request_transport_reload : agent_op unit :=
  a ← read;
  let revision := wrap_add64 (an_revision a) 1 in
  write (mkAgent (an_state a) (an_disk a) (an_adapter a) (an_turn_credentials a) revision
           (obs_reset revision) true (an_authorization_refresh a) (an_shutting_down a)).
Definition set_turn_credential (id : NetworkId) (credential : option TurnCredential)
    : agent_op unit :=
  a ← read;
  write (with_credentials a (match credential with
                             | Some c => <[id := c]> (an_turn_credentials a)
                             | None => delete id (an_turn_credentials a)
                             end)).
Definition update_network (id : NetworkId) (f : JoinedNetwork → JoinedNetwork)
    (s : PersistedState) : PersistedState :=
  match network_position s id with
  | Some index => with_networks s (alter f index (ag_networks s))
  | None => s
  end.
Definition kill_switch_of (env : AgentEnv) (s : PersistedState) : result ControlError KillSwitchPlan :=
  kill_switch_plan_from_state (ne_resolve env) s (ne_now env).
Definition gateways_of (s : PersistedState) : result GatewayError ExitGatewayPlan :=
  gateway_plan (ag_exit_gateways s) (ag_networks s).

(** ** Requests of the local API *)
Record RelayConfig : Type := mkRelayConfig {
  rc_endpoint : SocketAddr;
  rc_enable_upnp : bool;
  rc_stun_servers : list string;
}.
Definition configure_relay (env : AgentEnv) (config : RelayConfig) : agent_op unit :=
  previous ← get_state;
  let s := with_relays previous (Some (rc_endpoint config)) [rc_endpoint config]
             (rc_enable_upnp config) (take 8 (nonempty_trimmed (rc_stun_servers config)))
             (ag_root_servers previous) (ag_planet previous) in
  set_state s ;;
  plan ← lift (bad_request (kill_switch_of env s));
  write_file env AgentInternal s ;;
  active ← is_active;
  (if active : bool then
     r ← adapt (configure_kill_switch (adapter_env env) plan);
     if is_ok r then mret tt
     else set_state previous ;; write_file env AgentInternal previous ;;
          fail_closed env AgentInternal
   else mret tt) ;;
  request_transport_reload.

Definition restore_selection (id : NetworkId) (previous : ExitNodeSelection) (s : PersistedState)
    : PersistedState :=
  update_network id (λ n,
    network_with_policy n (cp_policy_manifest (jn_control_plane n)) previous) s.
Definition configure_exit_selection (env : AgentEnv) (network_id : NetworkId)
    (selection : ExitNodeSelection) : agent_op unit :=
  s ← get_state;
  joined ← lift (ok_or (find_network (ag_networks s) network_id) AgentNotFound);
  lift (validate_exit_selection joined selection (ne_now env)) ;;
  let previous := cp_exit_node_selection (jn_control_plane joined) in
  if bool_decide (previous = selection) then mret tt else
  let s := restore_selection network_id selection s in
  let rolled_back := restore_selection network_id previous s in
  set_state s ;;
  plan ← lift (bad_request (kill_switch_of env s));
  write_file env AgentInternal s ;;
  r ← adapt (configure_policy (adapter_env env) (ag_networks s));
  if negb (is_ok r) then
    set_state rolled_back ;;
    write_file env AgentInternal rolled_back ;;
    r ← adapt (configure_policy (adapter_env env) (ag_networks rolled_back));
    if negb (is_ok r) then fail_closed env AgentInternal else lift (Err AgentBadRequest)
  else
  r ← adapt (configure_kill_switch (adapter_env env) plan);
  if is_ok r then mret tt else
  set_state rolled_back ;;
  rollback_plan ← lift (internal (kill_switch_of env rolled_back));
  write_file env AgentInternal rolled_back ;;
  policy ← adapt (configure_policy (adapter_env env) (ag_networks rolled_back));
  switch ← adapt (configure_kill_switch (adapter_env env) rollback_plan);
  if negb (is_ok policy) || negb (is_ok switch) then fail_closed env AgentInternal
  else lift (Err AgentBadRequest).

Record ExitGatewayRequest : Type := mkExitGatewayRequest {
  gq_egress_interface : string;
  gq_enable_ipv4 : bool;
  gq_enable_ipv6 : bool;
}.
Definition without_gateway (id : NetworkId) (gateways : list ExitGatewayConfig)
    : list ExitGatewayConfig :=
  List.filter (λ g, bool_decide (eg_network_id g ≠ id)) gateways.
(** Applying a gateway plan after the state was written; [e] is the error of a
    request whose previous rules could be restored. *)
Definition apply_gateways (env : AgentEnv) (e : ControlError) (s : PersistedState)
    (previous : list ExitGatewayConfig) (plan : ExitGatewayPlan) : agent_op unit :=
  r ← adapt (configure_exit_gateways (adapter_env env) plan);
  if is_ok r then mret tt else
  let rolled_back := with_exit_gateways s previous in
  set_state rolled_back ;;
  rollback_plan ← lift (internal (gateways_of rolled_back));
  write_file env AgentInternal rolled_back ;;
  r ← adapt (configure_exit_gateways (adapter_env env) rollback_plan);
  if negb (is_ok r) then fail_closed env AgentInternal else lift (Err e).
Definition configure_exit_gateway (env : AgentEnv) (network_id : NetworkId)
    (request : ExitGatewayRequest) : agent_op unit :=
  s ← get_state;
  joined ← lift (ok_or (find_network (ag_networks s) network_id) AgentNotFound);
  let config := mkExitGatewayConfig network_id (gq_egress_interface request)
                  (gq_enable_ipv4 request) (gq_enable_ipv6 request) in
  lift (validate_local_exit_gateway joined (ag_device_id s) config (ne_now env)) ;;
  let previous := ag_exit_gateways s in
  let s := with_exit_gateways s (without_gateway network_id previous ++ [config]) in
  set_state s ;;
  plan ← lift (bad_request (gateways_of s));
  write_file env AgentInternal s ;;
  apply_gateways env AgentBadRequest s previous plan.
Definition remove_exit_gateway (env : AgentEnv) (network_id : NetworkId) : agent_op unit :=
  s ← get_state;
  let previous := ag_exit_gateways s in
  let s := with_exit_gateways s (without_gateway network_id previous) in
  set_state s ;;
  if bool_decide (ag_exit_gateways s = previous) then mret tt else
  plan ← lift (internal (gateways_of s));
  write_file env AgentInternal s ;;
  apply_gateways env AgentInternal s previous plan.
End agent_control.
