(* ===== verification/AgentRefresh.v ===== *)
(** * Planets, authorizations and policies of an agent ([meshlaked/src/main.rs])

    The documents the agent fetches from a controller: how a Planet manifest, an
    authorization and a policy are accepted into the state, and what happens to
    the adapter when they withdraw a privilege.  Fetching a document and applying
    it are separate steps, as in the code, so that other calls may run between
    them. *)
From S2P Require Import Prelude Net Text Ext Model ServiceIdentity Membership Authorization.
From S2P Require Import Responses RelayProto Session RootProto Planet Policy Joined DataPlane.
From S2P Require Import ExitGateway PolicyPlan TransportHealth SocketText Observability.
From S2P Require Import PeerDirectory Frames AgentSession AgentWorker Request LinuxAdapter.
From S2P Require Import ControlUrl AgentState AgentMigration AgentControl.
From Stdlib Require Import Ascii.
#[local] Open Scope Z_scope.

Section agent_refresh.
Context `{UuidLib} `{Ed25519} `{IpNetLib} `{HashOrder} `{SessionCrypto} `{UrlLib} `{ClientLib}.
Context `{!UuidText}.
Context `{!MembershipSerde} `{!AuthorizationSerde} `{!PolicySerde} `{!PlanetSerde}.
Abbreviation agent_op := (handler Agent ControlError).

(** ** Planets *)
Record PlanetConfig : Type := mkPlanetConfig {
  pc_manifest_url : string;
  pc_controller_public_key_base64 : string;
  pc_tls_ca_certificate_pem : option string;
}.
(** A manifest from a URL, over a client with the pinned bundle. *)
Definition fetch_planet_manifest (env : AgentEnv) (tls_ca_pem : option string) (url : string)
    : result ControlError PlanetManifest := ok_or (ne_planet env tls_ca_pem url) AgentFailed.
(** The networks pinned to the same controller are updated with it. *)
Definition configure_network_planet (manifest : PlanetManifest) (pinned : bytes)
    (manifest_url : string) (tls_ca_pem : option string) (now : Z) (joined : JoinedNetwork)
    : result ControlError JoinedNetwork :=
  let c := jn_control_plane joined in
  if bool_decide (cp_pinned_controller_public_key c ≠ pinned) then Ok joined else
  update ← validate_planet_update c manifest pinned (cp_controller_url c) now;
  Ok (with_control_plane joined
        (apply_configured_planet_update c manifest_url tls_ca_pem update)).
Definition configure_planet (env : AgentEnv) (config : PlanetConfig) : agent_op unit :=
  manifest_url ← lift (normalize_http_url (pc_manifest_url config));
  let tls_requested := is_some (trimmed (pc_tls_ca_certificate_pem config)) in
  lift (bail_if (tls_requested && negb (is_https manifest_url)) AgentBadRequest) ;;
  tls_ca_pem ← lift (normalize_tls_ca_pem (pc_tls_ca_certificate_pem config));
  pinned ← lift (ok_or (base64_decode (trim (pc_controller_public_key_base64 config)))
                   AgentBadRequest);
  lift (bail_if (negb (len pinned =? 32)) AgentBadRequest) ;;
  lift (internal (controller_http_client tls_ca_pem)) ;;
  manifest ← lift (bad_request (fetch_planet_manifest env tls_ca_pem manifest_url));
  update ← lift (validate_planet_update NetworkControlPlane_default manifest pinned None (ne_now env));
  lift (bail_if (is_some tls_ca_pem && negb (is_https (up_controller_url update)))
          AgentBadRequest) ;;
  s ← get_state;
  networks ← lift (try_map (configure_network_planet manifest pinned manifest_url tls_ca_pem
                              (ne_now env)) (ag_networks s));
  let relays := map relay_endpoint (up_relays update) in
  let relays := if is_empty relays then [pm_relay_endpoint manifest] else relays in
  let planet := mkPersistedPlanet manifest_url (up_controller_url update)
                  (trim (pc_controller_public_key_base64 config)) tls_ca_pem in
  persist_state_candidate env AgentInternal
    (with_networks (with_relays s (head relays) relays (ag_upnp_enabled s)
                      (up_stun_servers update) (up_roots update) (Some planet)) networks) ;;
  request_transport_reload.

Record PlanetRefreshTarget : Type := mkPlanetRefreshTarget {
  pt_network_id : NetworkId;
  pt_manifest_url : string;
  pt_controller_url : string;
  pt_controller_tls_ca_pem : option string;
  pt_pinned : bytes;
}.
Definition planet_refresh_target (n : JoinedNetwork) : option PlanetRefreshTarget :=
  let c := jn_control_plane n in
  manifest_url ← cp_planet_manifest_url c;
  controller_url ← cp_controller_url c;
  if is_empty (cp_pinned_controller_public_key c) then None else
  Some (mkPlanetRefreshTarget (jn_id n) manifest_url controller_url (cp_controller_tls_ca_pem c)
          (cp_pinned_controller_public_key c)).
Definition planet_refresh_targets (s : PersistedState) : list PlanetRefreshTarget :=
  omap planet_refresh_target (ag_networks s).
(** The network still uses the controller the manifest was fetched from. *)
Definition target_is_current (target : PlanetRefreshTarget) (c : NetworkControlPlane) : bool :=
  bool_decide (cp_planet_manifest_url c = Some (pt_manifest_url target))
  && bool_decide (cp_controller_url c = Some (pt_controller_url target))
  && bool_decide (cp_controller_tls_ca_pem c = pt_controller_tls_ca_pem target)
  && bool_decide (cp_pinned_controller_public_key c = pt_pinned target).
(** The part under the lock, once the manifest has arrived. *)
Definition apply_refreshed_planet (env : AgentEnv) (target : PlanetRefreshTarget)
    (manifest : PlanetManifest) : agent_op unit :=
  s ← get_state;
  match find_network (ag_networks s) (pt_network_id target) with
  | None => mret tt
  | Some joined =>
      let c := jn_control_plane joined in
      if negb (target_is_current target c) then mret tt else
      update ← lift (failed (validate_planet_update c manifest (pt_pinned target)
                               (Some (pt_controller_url target)) (ne_now env)));
      let '(updated, changed) := apply_planet_update c (Some (pt_manifest_url target)) update in
      if changed then
        persist_state_candidate env AgentFailed
          (update_network (pt_network_id target) (λ n, with_control_plane n updated) s) ;;
        request_transport_reload
      else mret tt
  end.
Definition pinned_client (tls_ca_pem : option string) : result ControlError unit :=
  match tls_ca_pem with Some pem => controller_http_client (Some pem) | None => Ok tt end.
Definition refresh_one_planet (env : AgentEnv) (target : PlanetRefreshTarget) : agent_op unit :=
  lift (pinned_client (pt_controller_tls_ca_pem target)) ;;
  manifest ← lift (fetch_planet_manifest env (pt_controller_tls_ca_pem target)
                     (pt_manifest_url target));
  apply_refreshed_planet env target manifest.
(** A failure is reported and the next network is refreshed. *)
Fixpoint refresh_each {A} (f : A → agent_op unit) (targets : list A) : agent_op unit :=
  match targets with
  | [] => mret tt
  | target :: targets =>
      r ← attempt (f target);
      let _ : result ControlError unit := r in refresh_each f targets
  end.
Definition refresh_planets_once (env : AgentEnv) : agent_op unit :=
  s ← get_state; refresh_each (refresh_one_planet env) (planet_refresh_targets s).

(** ** Authorization hints *)
Definition hint_is_newer (s : PersistedState) (hint : AuthorizationEpochHint) (now : Z) : bool :=
  is_some_and (find_network (ag_networks s) (hint_network_id hint)) (λ network,
    is_ok (hint_verify_from_controller hint (pinned_controller_key network) now)
    && (default 0 (auth_authorization_epoch
                     <$> cp_authorization_manifest (jn_control_plane network))
        <? hint_authorization_epoch hint)).
Definition consider_authorization_hint (env : AgentEnv) (hint : AuthorizationEpochHint)
    : agent_op bool :=
  a ← read;
  if hint_is_newer (an_state a) hint (ne_now env) then
    write (mkAgent (an_state a) (an_disk a) (an_adapter a) (an_turn_credentials a) (an_revision a)
             (an_sessions a) (an_transport_reload a) true (an_shutting_down a)) ;; mret true
  else mret false.

(** ** Refreshing an authorization *)
Record AuthorizationRefreshTarget : Type := mkAuthorizationRefreshTarget {
  ft_network_id : NetworkId;
  ft_controller_url : string;
  ft_controller_tls_ca_pem : option string;
  ft_pinned : bytes;
  ft_certificate : MembershipCertificate;
  ft_authorization_epoch : option Z;
  ft_turn_credential_required : bool;
}.
Inductive AuthorizationRefreshAction : Type :=
| Update (certificate : MembershipCertificate) (network_key : bytes)
    (authorization : NetworkAuthorizationManifest) (turn_credential : option TurnCredential)
| UpdateManifest (authorization : NetworkAuthorizationManifest)
| Revoke.
Definition credential_is_stale (credentials : gmap NetworkId TurnCredential) (id : NetworkId)
    (now : Z) : bool :=
  is_none_or (credentials !! id) (λ credential,
    tc_expires_at credential <=? sat_add64 now CERTIFICATE_REFRESH_MARGIN_SECONDS).
Definition authorization_refresh_target (credentials : gmap NetworkId TurnCredential) (now : Z)
    (n : JoinedNetwork) : option AuthorizationRefreshTarget :=
  let c := jn_control_plane n in
  controller_url ← cp_controller_url c;
  certificate ← jn_certificate n;
  if is_empty (cp_pinned_controller_public_key c) then None else
  Some (mkAuthorizationRefreshTarget (jn_id n) controller_url (cp_controller_tls_ca_pem c)
          (cp_pinned_controller_public_key c) certificate
          (auth_authorization_epoch <$> cp_authorization_manifest c)
          (negb (is_empty (cp_verified_turn_servers c))
           && credential_is_stale credentials (jn_id n) now)).
Definition authorization_refresh_material (env : AgentEnv)
    : agent_op (DeviceId * SigningKey * list AuthorizationRefreshTarget) :=
  a ← read;
  identity ← lift (identity_signing_key (an_state a));
  mret (ag_device_id (an_state a), identity,
        omap (authorization_refresh_target (an_turn_credentials a) (ne_now env))
          (ag_networks (an_state a))).

Definition controller_path (url path : string) : string := (trim_end_matches "/" url ++ path)%string.
Definition network_path (url : string) (id : NetworkId) (document : string) : string :=
  controller_path url ("/v1/networks/" ++ uuid_to_string (network_uuid id) ++ "/" ++ document).
(** The membership the signed document gives this device. *)
Definition is_this_member (device_id : DeviceId) (identity : SigningKey) (certificate_id : Uuid)
    (member : AuthorizedMembership) : bool :=
  bool_decide (am_device_id member = device_id)
  && bool_decide (am_certificate_id member = certificate_id)
  && bool_decide (am_device_public_key member = public_bytes identity).
Definition check_authorization (target : AuthorizationRefreshTarget) (oldest : option Z) (now : Z)
    (authorization : NetworkAuthorizationManifest) : result ControlError unit :=
  failed (auth_verify_from_controller authorization (ft_pinned target) now) ;;
  bail_if (bool_decide (auth_network_id authorization ≠ ft_network_id target)) AgentFailed ;;
  bail_if (is_some_and oldest (λ epoch, auth_authorization_epoch authorization <? epoch)) AgentFailed.
(** The answer to a membership refresh. *)
Definition accept_refresh (device_id : DeviceId) (identity : SigningKey)
    (target : AuthorizationRefreshTarget) (oldest now : Z) (response : MembershipRefreshResponse)
    : result ControlError AuthorizationRefreshAction :=
  let authorization := rf_authorization response in
  let certificate_id := cert_id (ft_certificate target) in
  check_authorization target (Some oldest) now authorization ;;
  if rf_revoked response then
    if existsb (is_this_member device_id identity certificate_id) (auth_active_members authorization)
    then Err AgentFailed else Ok Revoke
  else
  certificate ← ok_or (rf_certificate response) AgentFailed;
  failed (cert_verify_from_controller certificate (ft_pinned target) now) ;;
  let claims := cert_claims certificate in
  bail_if (bool_decide (mc_network_id claims ≠ ft_network_id target)
           || bool_decide (mc_device_id claims ≠ device_id)
           || bool_decide (mc_device_public_key claims ≠ public_bytes identity)
           || bool_decide (cert_id certificate ≠ certificate_id)
           || negb (authorizes authorization certificate)) AgentFailed ;;
  failed (NetworkKey_from_slice (rf_network_key response)) ;;
  bail_if (ft_turn_credential_required target && is_none (rf_turn_credential response))
    AgentFailed ;;
  Ok (Update certificate (rf_network_key response) authorization (rf_turn_credential response)).
Definition fetch_authorization_action (env : AgentEnv) (device_id : DeviceId)
    (identity : SigningKey) (target : AuthorizationRefreshTarget)
    : result ControlError AuthorizationRefreshAction :=
  let now := ne_now env in
  let ca := ft_controller_tls_ca_pem target in
  let certificate := ft_certificate target in
  authorization ← ok_or (ne_authorization env ca
                    (network_path (ft_controller_url target) (ft_network_id target) "authorization"))
                    AgentFailed;
  check_authorization target (ft_authorization_epoch target) now authorization ;;
  match List.find (λ member, bool_decide (am_device_id member = device_id))
          (auth_active_members authorization) with
  | None => Ok Revoke
  | Some member =>
      if bool_decide (am_device_public_key member ≠ public_bytes identity)
         || bool_decide (am_certificate_id member ≠ cert_id certificate) then Ok Revoke else
      let expires_soon := is_some_and (mc_expires_at (cert_claims certificate))
        (λ expiry, expiry <=? sat_add64 now CERTIFICATE_REFRESH_MARGIN_SECONDS) in
      if authorizes authorization certificate && negb expires_soon
         && negb (ft_turn_credential_required target)
      then Ok (UpdateManifest authorization) else
      request ← failed (refresh_sign (ft_network_id target) device_id (cert_id certificate) now
                          (ne_nonce env) identity);
      response ← ok_or (ne_refresh env ca
                   (controller_path (ft_controller_url target) "/v1/membership/refresh") request)
                   AgentFailed;
      accept_refresh device_id identity target (auth_authorization_epoch authorization) now response
  end.
End agent_refresh.
