(* ===== verification/AgentPolicy.v ===== *)
(** * Applying authorizations and policies of an agent ([meshlaked/src/main.rs])

    An accepted authorization or policy may withdraw an exit the operator
    selected or a gateway the operator enabled.  The state is cleaned and written
    first; when the adapter cannot follow, it is disabled instead of left on the
    withdrawn route. *)
From S2P Require Import Prelude Net Text Ext Model ServiceIdentity Membership Authorization.
From S2P Require Import Responses RelayProto Session RootProto Planet Policy Joined DataPlane.
From S2P Require Import ExitGateway PolicyPlan TransportHealth SocketText Observability.
From S2P Require Import PeerDirectory Frames AgentSession AgentWorker Request LinuxAdapter.
From S2P Require Import ControlUrl AgentState AgentMigration AgentControl AgentRefresh.
#[local] Open Scope Z_scope.

Section agent_policy.
Context `{UuidLib} `{Ed25519} `{IpNetLib} `{HashOrder} `{SessionCrypto} `{UrlLib} `{ClientLib}.
Context `{!UuidText}.
Context `{!MembershipSerde} `{!AuthorizationSerde} `{!PolicySerde} `{!PlanetSerde}.
Abbreviation agent_op := (handler Agent ControlError).

(** The state with the gateways withdrawn that are no longer authorised. *)
Definition withdraw_gateways (s : PersistedState) : PersistedState * bool :=
  let '(gateways, cleared) :=
    clear_unusable_exit_gateways (ag_exit_gateways s) (ag_networks s) (ag_device_id s) in
  (with_exit_gateways s gateways, cleared).

(** ** Authorizations *)
(** The network an action leaves, whether the transport is reloaded, and the
    TURN credential to store or forget; a revocation leaves no network. *)
Definition action_outcome (joined : JoinedNetwork) (action : AuthorizationRefreshAction) (now : Z)
    : result ControlError (option JoinedNetwork * bool * option (option TurnCredential)) :=
  let c := jn_control_plane joined in
  match action with
  | UpdateManifest authorization =>
      Ok (Some (with_control_plane joined (set_authorization c (Some authorization))),
          is_none_or (cp_authorization_manifest c) (λ previous,
            negb (auth_authorization_epoch previous =? auth_authorization_epoch authorization)
            || negb (auth_network_key_epoch previous =? auth_network_key_epoch authorization)),
          None)
  | Update certificate network_key authorization turn_credential =>
      match turn_credential with
      | Some credential => failed (validate_turn_credential credential now)
      | None => Ok tt
      end ;;
      Ok (Some (mkJoinedNetwork (jn_network joined) (mc_assigned_addresses (cert_claims certificate))
                  (Some certificate) network_key (set_authorization c (Some authorization))),
          true, Some turn_credential)
  | Revoke => Ok (None, true, Some None)
  end.
(** The stored policy is dropped when the new authorization refutes it. *)
Definition drop_refuted_policy (now : Z) (joined : JoinedNetwork) : JoinedNetwork :=
  let c := jn_control_plane joined in
  match cp_policy_manifest c, cp_authorization_manifest c with
  | Some policy, Some authorization =>
      if is_ok (verify_for_network policy (jn_id joined) (cp_pinned_controller_public_key c)
                  authorization now None)
      then joined else network_with_policy joined None (cp_exit_node_selection c)
  | _, _ => joined
  end.
(** The networks after an action on the one at an index. *)
Definition networks_after (networks : list JoinedNetwork) (index : nat)
    (updated : option JoinedNetwork) (now : Z) : list JoinedNetwork * bool :=
  match updated with
  | None => (delete index networks, false)
  | Some joined =>
      let '(joined, cleared) := clear_unusable_exit_selection (drop_refuted_policy now joined) in
      (<[index := joined]> networks, cleared)
  end.
(** The adapter after the state was written. *)
Definition apply_networks (env : AgentEnv) (s : PersistedState) (removed : option JoinedNetwork)
    (reload privileges_withdrawn : bool) : agent_op unit :=
  match removed with
  | Some removed =>
      r ← adapt (remove_network (adapter_env env) removed);
      if negb (is_ok r) then fail_closed env AgentFailed else
      r ← adapt (configure_policy (adapter_env env) (ag_networks s));
      if negb (is_ok r) then fail_closed env AgentFailed else mret tt
  | None =>
      active ← is_active;
      if reload && active then
        r ← adapt (configure_networks (adapter_env env) (ag_networks s));
        if is_ok r then mret tt
        else if privileges_withdrawn then fail_closed env AgentFailed
        else lift (Err AgentFailed)
      else mret tt
  end.
Definition apply_kill_switch (env : AgentEnv) (plan : KillSwitchPlan) : agent_op unit :=
  r ← adapt (configure_kill_switch (adapter_env env) plan);
  if is_ok r then mret tt else fail_closed env AgentFailed.
Definition apply_authorization_action (env : AgentEnv) (target : AuthorizationRefreshTarget)
    (action : AuthorizationRefreshAction) : agent_op unit :=
  s ← get_state;
  match network_position s (ft_network_id target), find_network (ag_networks s) (ft_network_id target) with
  | Some index, Some joined =>
      if bool_decide ((cert_id <$> jn_certificate joined) ≠ Some (cert_id (ft_certificate target)))
      then mret tt else
      let previous_gateways := ag_exit_gateways s in
      '(updated, reload, credential) ← lift (action_outcome joined action (ne_now env));
      let '(networks, selection_cleared) :=
        networks_after (ag_networks s) index updated (ne_now env) in
      let '(s, gateways_cleared) := withdraw_gateways (with_networks s networks) in
      set_state s ;;
      gateway_plan ← lift (failed (gateways_of s));
      switch_plan ← lift (failed (kill_switch_of env s));
      write_file env AgentFailed s ;;
      (match credential with
       | Some credential => set_turn_credential (ft_network_id target) credential
       | None => mret tt
       end) ;;
      (if reload : bool then request_transport_reload else mret tt) ;;
      apply_networks env s (if updated then None else Some joined) reload
        (selection_cleared || gateways_cleared) ;;
      active ← is_active;
      if negb active then mret tt else
      r ← adapt (configure_exit_gateways (adapter_env env) gateway_plan);
      if is_ok r then apply_kill_switch env switch_plan else
      if gateways_cleared : bool then fail_closed env AgentFailed else
      let rolled_back := with_exit_gateways s previous_gateways in
      set_state rolled_back ;;
      write_file env AgentFailed rolled_back ;;
      lift (Err AgentFailed)
  | _, _ => mret tt
  end.

(** ** Policies *)
Definition is_policy_rollback (policy previous : NetworkPolicyManifest) : bool :=
  (pol_policy_epoch policy <? pol_policy_epoch previous)
  || ((pol_policy_epoch policy =? pol_policy_epoch previous)
      && (negb (same_policy_semantics policy previous)
          || (pol_issued_at policy <? pol_issued_at previous))).
Definition check_policy (joined : JoinedNetwork) (policy : NetworkPolicyManifest) (now : Z)
    : result ControlError unit :=
  let c := jn_control_plane joined in
  authorization ← ok_or (cp_authorization_manifest c) AgentFailed;
  failed (auth_verify_from_controller authorization (cp_pinned_controller_public_key c) now) ;;
  let previous := cp_policy_manifest c in
  bail_if (is_some_and previous (is_policy_rollback policy)) AgentFailed ;;
  let previous_epoch := previous ← previous;
    if pol_policy_epoch previous =? pol_policy_epoch policy then None
    else Some (pol_policy_epoch previous) in
  failed (verify_for_network policy (jn_id joined) (cp_pinned_controller_public_key c)
            authorization now previous_epoch).
Definition apply_policy_manifest (env : AgentEnv) (network_id : NetworkId)
    (policy : NetworkPolicyManifest) : agent_op unit :=
  s ← get_state;
  joined ← lift (ok_or (find_network (ag_networks s) network_id) AgentFailed);
  lift (check_policy joined policy (ne_now env)) ;;
  let c := jn_control_plane joined in
  if bool_decide (cp_policy_manifest c = Some policy) then mret tt else
  let '(updated, selection_cleared) :=
    clear_unusable_exit_selection
      (network_with_policy joined (Some policy) (cp_exit_node_selection c)) in
  let '(s', gateways_cleared) := withdraw_gateways (update_network network_id (λ _, updated) s) in
  set_state s' ;;
  gateway_plan ← lift (failed (gateways_of s'));
  switch_plan ← lift (failed (kill_switch_of env s'));
  write_file env AgentFailed s' ;;
  r ← adapt (configure_policy (adapter_env env) (ag_networks s'));
  if negb (is_ok r) then
    if selection_cleared || gateways_cleared then fail_closed env AgentFailed else
    let rolled_back := with_exit_gateways
      (update_network network_id (λ n,
         network_with_policy n (cp_policy_manifest c) (cp_exit_node_selection c)) s')
      (ag_exit_gateways s) in
    set_state rolled_back ;;
    write_file env AgentFailed rolled_back ;;
    r ← adapt (configure_policy (adapter_env env) (ag_networks rolled_back));
    if negb (is_ok r) then fail_closed env AgentFailed else lift (Err AgentFailed)
  else
  active ← is_active;
  (if active : bool then
     r ← adapt (configure_exit_gateways (adapter_env env) gateway_plan);
     if is_ok r then apply_kill_switch env switch_plan
     else if gateways_cleared : bool then fail_closed env AgentFailed else lift (Err AgentFailed)
   else mret tt) ;;
  request_transport_reload.

Definition expire_policy (now : Z) (joined : JoinedNetwork) : JoinedNetwork * bool :=
  let c := jn_control_plane joined in
  if is_some_and (cp_policy_manifest c) (λ policy, pol_expires_at policy <? now)
  then ((clear_unusable_exit_selection
           (network_with_policy joined None (cp_exit_node_selection c))).1, true)
  else (joined, false).
Definition expire_stale_policies (env : AgentEnv) : agent_op unit :=
  s ← get_state;
  let '(s, expired) := update_networks (expire_policy (ne_now env)) s in
  let '(s, gateways_cleared) := withdraw_gateways s in
  set_state s ;;
  if negb (expired || gateways_cleared) then mret tt else
  write_file env AgentFailed s ;;
  gateway_plan ← lift (failed (gateways_of s));
  switch_plan ← lift (failed (kill_switch_of env s));
  adapt_or AgentFailed (configure_policy (adapter_env env) (ag_networks s)) ;;
  active ← is_active;
  (if active : bool then
     r ← adapt (configure_exit_gateways (adapter_env env) gateway_plan);
     if is_ok r then apply_kill_switch env switch_plan
     else if gateways_cleared : bool then fail_closed env AgentFailed else lift (Err AgentFailed)
   else mret tt) ;;
  request_transport_reload.

(** ** One round of the background task *)
Definition refresh_policy (env : AgentEnv) (target : AuthorizationRefreshTarget) : agent_op unit :=
  let ca := ft_controller_tls_ca_pem target in
  lift (pinned_client ca) ;;
  policy ← lift (ok_or (ne_policy env ca
             (network_path (ft_controller_url target) (ft_network_id target) "policy")) AgentFailed);
  apply_policy_manifest env (ft_network_id target) policy.
Definition refresh_one_authorization (env : AgentEnv) (device_id : DeviceId) (identity : SigningKey)
    (target : AuthorizationRefreshTarget) : agent_op unit :=
  lift (pinned_client (ft_controller_tls_ca_pem target)) ;;
  action ← lift (fetch_authorization_action env device_id identity target);
  apply_authorization_action env target action ;;
  refresh_policy env target.
Definition refresh_authorizations_once (env : AgentEnv) : agent_op unit :=
  expire_stale_policies env ;;
  '(device_id, identity, targets) ← authorization_refresh_material env;
  refresh_each (refresh_one_authorization env device_id identity) targets.
End agent_policy.
