(* ===== verification/AgentNetworks.v ===== *)
(** * Joining and leaving networks, the adapter's lifecycle, and the agent as a
    machine ([meshlaked/src/main.rs])

    Enrolment with a controller checks its answer against the key the operator
    trusts and against what the network is already pinned to.  The last section
    collects every call that changes the agent into one step function. *)
From S2P Require Import Prelude Net Text Ext Model ServiceIdentity Membership Authorization.
From S2P Require Import Responses RelayProto Session RootProto Planet Policy Joined DataPlane.
From S2P Require Import ExitGateway PolicyPlan TransportHealth SocketText Observability.
From S2P Require Import PeerDirectory Frames AgentSession AgentWorker Request LinuxAdapter.
From S2P Require Import ControlUrl AgentState AgentMigration AgentControl AgentRefresh.
From S2P Require Import AgentPolicy.
#[local] Open Scope Z_scope.

Section agent_networks.
Context `{UuidLib} `{Ed25519} `{IpNetLib} `{HashOrder} `{SessionCrypto} `{UrlLib} `{ClientLib}.
Context `{!UuidText}.
Context `{!MembershipSerde} `{!AuthorizationSerde} `{!PolicySerde} `{!PlanetSerde}.
Abbreviation agent_op := (handler Agent ControlError).

(** ** Local networks *)
Definition add_network (env : AgentEnv) (request : UpsertNetworkRequest)
    : agent_op JoinedNetwork :=
  lift (bad_request (UpsertNetworkRequest_validate request)) ;;
  s ← get_state;
  let id := default (mkNetworkId (ne_uuid env)) (un_id request) in
  lift (bail_if (existsb (λ n, bool_decide (jn_id n = id)) (ag_networks s)) AgentConflict) ;;
  key ← lift (internal (NetworkKey_generate (ne_random env)));
  let joined := mkJoinedNetwork
    (mkVirtualNetwork id (un_name request) (un_ipv4_prefix request) (un_ipv6_prefix request)
       (un_relay_policy request)) [] None (NetworkKey_to_bytes key) NetworkControlPlane_default in
  let s := with_networks s (ag_networks s ++ [joined]) in
  set_state s ;;
  write_file env AgentInternal s ;;
  mret joined.
Definition forget_network (s : PersistedState) (id : NetworkId) : PersistedState :=
  with_exit_gateways
    (with_authorizations
       (with_networks s (List.filter (λ n, bool_decide (jn_id n ≠ id)) (ag_networks s)))
       (delete id (ag_authorizations s)))
    (without_gateway id (ag_exit_gateways s)).
Definition leave_network (env : AgentEnv) (id : NetworkId) : agent_op unit :=
  s ← get_state;
  joined ← lift (ok_or (find_network (ag_networks s) id) AgentNotFound);
  adapt_or AgentInternal (remove_network (adapter_env env) joined) ;;
  let s := forget_network s id in
  set_state s ;;
  write_file env AgentInternal s ;;
  gateway_plan ← lift (internal (gateways_of s));
  switch_plan ← lift (internal (kill_switch_of env s));
  adapt_or AgentInternal (configure_policy (adapter_env env) (ag_networks s)) ;;
  active ← is_active;
  (if active : bool then
     adapt_or AgentInternal (configure_exit_gateways (adapter_env env) gateway_plan) ;;
     adapt_or AgentInternal (configure_kill_switch (adapter_env env) switch_plan)
   else mret tt) ;;
  request_transport_reload.

(** ** Enrolment *)
Record EnrollmentControlPlane : Type := mkEnrollmentControlPlane {
  ec_controller_url : string;
  ec_planet_manifest_url : option string;
  ec_controller_tls_ca_pem : option string;
}.
Record TrustedEnrollment : Type := mkTrustedEnrollment {
  te_enrollment : EnrollmentResponse;
  te_controller_public_key : bytes;
  te_control_plane : option EnrollmentControlPlane;
}.
(** The control plane of an enrolment, from the one the network already has. *)
Definition enrolled_control_plane (pinned : bytes) (authorization : NetworkAuthorizationManifest)
    (current : option NetworkControlPlane) : NetworkControlPlane :=
  let c := default NetworkControlPlane_default current in
  set_authorization
    (set_controller c (cp_controller_url c) pinned (cp_controller_tls_ca_pem c)
       (cp_planet_manifest_url c)) (Some authorization).
Definition resolve_enrollment_control_plane (env : AgentEnv)
    (configured : option EnrollmentControlPlane) (pinned : bytes)
    (authorization : NetworkAuthorizationManifest) (current : option NetworkControlPlane)
    : result ControlError NetworkControlPlane :=
  let c := enrolled_control_plane pinned authorization current in
  match configured with
  | None => Ok c
  | Some configured =>
      controller_url ← normalize_http_url (ec_controller_url configured);
      let tls_requested := is_some (trimmed (ec_controller_tls_ca_pem configured)) in
      bail_if (tls_requested && negb (is_https controller_url)) AgentBadRequest ;;
      manifest_url ← match trimmed (ec_planet_manifest_url configured) with
                     | Some url => Some <$> normalize_http_url url
                     | None => Ok None
                     end;
      bail_if (tls_requested && is_some_and manifest_url (λ url, negb (is_https url)))
        AgentBadRequest ;;
      tls_ca_pem ← normalize_tls_ca_pem (ec_controller_tls_ca_pem configured);
      let c := set_controller c (Some controller_url) pinned tls_ca_pem (cp_planet_manifest_url c) in
      match manifest_url with
      | None => Ok c
      | Some manifest_url =>
          internal (controller_http_client tls_ca_pem) ;;
          manifest ← bad_request (fetch_planet_manifest env tls_ca_pem manifest_url);
          update ← validate_planet_update (default c current) manifest pinned (Some controller_url)
                     (ne_now env);
          bail_if (is_some tls_ca_pem && negb (is_https (up_controller_url update)))
            AgentBadRequest ;;
          Ok (apply_planet_update c (Some manifest_url) update).1
      end
  end.
(** The checks on the answer itself, before the state is looked at. *)
Definition check_enrollment (enrollment : EnrollmentResponse) (controller : bytes) (now : Z)
    : result ControlError unit :=
  let certificate := en_certificate enrollment in
  bad_request (cert_verify_from_controller certificate controller now) ;;
  bad_request (auth_verify_from_controller (en_authorization enrollment) controller now) ;;
  bail_if (negb (authorizes (en_authorization enrollment) certificate)) AgentBadRequest ;;
  match en_turn_credential enrollment with
  | Some credential => validate_turn_credential credential now
  | None => Ok tt
  end ;;
  bad_request (NetworkKey_from_slice (en_network_key enrollment)) ;;
  bail_if (bool_decide (mc_network_id (cert_claims certificate) ≠ vn_id (en_network enrollment)))
    AgentBadRequest.
(** The certificate is for this device and its identity. *)
Definition check_enrolled_device (enrollment : EnrollmentResponse) (s : PersistedState)
    : result ControlError unit :=
  let claims := cert_claims (en_certificate enrollment) in
  bail_if (bool_decide (mc_device_id claims ≠ ag_device_id s)) AgentBadRequest ;;
  identity ← internal (identity_signing_key s);
  bail_if (bool_decide (mc_device_public_key claims ≠ public_bytes identity)) AgentBadRequest.
(** A network that is already pinned stays with its controller. *)
Definition check_pinned (pinned controller : bytes) : result ControlError unit :=
  bail_if (negb (is_empty pinned) && bool_decide (pinned ≠ controller)) AgentConflict.
(** The first part reads the state and fetches the Planet manifest; the second
    takes the locks and installs the network. *)
Definition prepare_enrollment (env : AgentEnv) (t : TrustedEnrollment)
    : agent_op NetworkControlPlane :=
  let enrollment := te_enrollment t in
  let controller := te_controller_public_key t in
  lift (check_enrollment enrollment controller (ne_now env)) ;;
  s ← get_state;
  lift (check_enrolled_device enrollment s) ;;
  let existing := jn_control_plane <$> find_network (ag_networks s) (vn_id (en_network enrollment)) in
  lift (match existing with
        | Some c => check_pinned (cp_pinned_controller_public_key c) controller
        | None => Ok tt
        end) ;;
  lift (resolve_enrollment_control_plane env (te_control_plane t) controller
          (en_authorization enrollment) existing).
Definition enrolled_network (enrollment : EnrollmentResponse) (c : NetworkControlPlane)
    : JoinedNetwork :=
  mkJoinedNetwork (en_network enrollment)
    (mc_assigned_addresses (cert_claims (en_certificate enrollment)))
    (Some (en_certificate enrollment)) (en_network_key enrollment) c.
Definition install_enrollment (env : AgentEnv) (t : TrustedEnrollment) (c : NetworkControlPlane)
    : agent_op JoinedNetwork :=
  let enrollment := te_enrollment t in
  let joined := enrolled_network enrollment c in
  s ← get_state;
  let previous := find_network (ag_networks s) (jn_id joined) in
  lift (match previous with
        | Some existing =>
            check_pinned (pinned_controller_key existing) (te_controller_public_key t) ;;
            validate_planet_acceptance_metadata (jn_control_plane existing)
              (cp_planet_manifest_version c) (cp_planet_last_issued_at c) (cp_planet_semantic_digest c)
        | None => Ok tt
        end) ;;
  let s := if previous then update_network (jn_id joined) (λ _, joined) s
           else with_networks s (ag_networks s ++ [joined]) in
  set_state s ;;
  write_file env AgentInternal s ;;
  set_turn_credential (jn_id joined) (en_turn_credential enrollment) ;;
  active ← is_active;
  (if active : bool then
     (match previous with
      | Some previous => adapt_or AgentInternal (remove_network (adapter_env env) previous)
      | None => mret tt
      end) ;;
     adapt_or AgentInternal (configure_networks (adapter_env env) [joined])
   else mret tt) ;;
  request_transport_reload ;;
  mret joined.
Definition enroll_network (env : AgentEnv) (t : TrustedEnrollment) : agent_op JoinedNetwork :=
  c ← prepare_enrollment env t; install_enrollment env t c.

(** ** The adapter's lifecycle *)
(** A failed configuration is rolled back only when this call activated the
    adapter. *)
Definition activate_adapter_transaction (was_active : bool)
    (activate configure rollback : agent_op unit) : agent_op unit :=
  activate ;;
  r ← attempt configure;
  match (r : result ControlError unit) with
  | Ok _ => mret tt
  | Err e => (if was_active then mret tt else rollback) ;; lift (Err e)
  end.
Definition activate_adapter (env : AgentEnv) : agent_op unit :=
  a ← read;
  lift (bail_if (an_shutting_down a) AgentConflict) ;;
  let s := an_state a in
  gateway_plan ← lift (bad_request (gateways_of s));
  switch_plan ← lift (bad_request (kill_switch_of env s));
  activate_adapter_transaction (ad_active (an_adapter a))
    (adapt_or AgentInternal (activate (adapter_env env)))
    (adapt_or AgentInternal (configure_networks (adapter_env env) (ag_networks s)) ;;
     adapt_or AgentInternal (configure_exit_gateways (adapter_env env) gateway_plan) ;;
     adapt_or AgentInternal (configure_kill_switch (adapter_env env) switch_plan))
    (adapt (deactivate (adapter_env env)) ;; mret tt).
Definition deactivate_adapter (env : AgentEnv) : agent_op unit :=
  adapt (deactivate (adapter_env env)) ;; mret tt.

(** ** What the transport worker runs with *)
Definition turn_routes (now : Z) (credentials : gmap NetworkId TurnCredential)
    (entry : NetworkId * NetworkTransportConfiguration) : list TurnUdpRoute :=
  match credentials !! entry.1 with
  | None => []
  | Some credential =>
      if tc_expires_at credential <=? sat_add64 now 30 then [] else
      map (λ server, mkTurnUdpRoute entry.1 server credential)
        (List.filter (λ server, bool_decide (turn_transport server ≠ Tcp))
           (nt_turn_servers entry.2))
  end.
Definition transport_configuration (env : AgentEnv) (a : Agent) : TransportConfiguration :=
  let t := transport_configuration_from_state (an_state a) (ne_now env) in
  mkTransportConfiguration (tc_networks t) (tc_relay_endpoints t) (tc_root_servers t)
    (tc_stun_servers t) (tc_upnp_enabled t)
    (tc_turn_routes t
     ++ concat (map (turn_routes (ne_now env) (an_turn_credentials a)) (hash_iter (tc_networks t)))).

(** ** Opening the state file *)
(** [file]: the state the file holds and whether its protection is outdated, or
    [None] when there is no file. *)
Definition open_agent (env : AgentEnv) (file : option (PersistedState * bool))
    : result ControlError Agent :=
  let fresh := PersistedState_new (default [] (ne_random env)) (ne_uuid env) in
  '(s, outdated) ← match file with
                   | Some f => Ok f
                   | None => bail_if (is_none (ne_random env)) AgentFailed ;;
                       match ne_write env fresh fresh with
                       | Written => Ok (fresh, false)
                       | _ => Err AgentFailed
                       end
                   end;
  '(s', migrated) ← migrate_and_validate_agent_state (ne_random env) (ne_now env) s;
  let changed := outdated || migrated in
  match (if changed then ne_write env s s' else Written) with
  | Written => Ok (mkAgent s' (if changed then s' else s) Adapter_new ∅ 1 (obs_reset 1) false false false)
  | _ => Err AgentFailed
  end.

(** ** The agent as a machine *)
Inductive AgentCall : Type :=
| ConfigureRelay (config : RelayConfig)
| ConfigurePlanet (config : PlanetConfig)
| ConfigureExitSelection (id : NetworkId) (selection : ExitNodeSelection)
| ConfigureExitGateway (id : NetworkId) (request : ExitGatewayRequest)
| RemoveExitGateway (id : NetworkId)
| AddNetwork (request : UpsertNetworkRequest)
| LeaveNetwork (id : NetworkId)
| EnrollNetwork (enrollment : TrustedEnrollment)
| ActivateAdapter
| DeactivateAdapter
| ConsiderHint (hint : AuthorizationEpochHint)
| RefreshPlanets
| RefreshAuthorizations.
Definition answer {A} (m : agent_op A) : agent_op unit := m ;; mret tt.
Definition agent_step (env : AgentEnv) (call : AgentCall) : agent_op unit :=
  match call with
  | ConfigureRelay config => configure_relay env config
  | ConfigurePlanet config => configure_planet env config
  | ConfigureExitSelection id selection => configure_exit_selection env id selection
  | ConfigureExitGateway id request => configure_exit_gateway env id request
  | RemoveExitGateway id => remove_exit_gateway env id
  | AddNetwork request => answer (add_network env request)
  | LeaveNetwork id => leave_network env id
  | EnrollNetwork enrollment => answer (enroll_network env enrollment)
  | ActivateAdapter => activate_adapter env
  | DeactivateAdapter => deactivate_adapter env
  | ConsiderHint hint => answer (consider_authorization_hint env hint)
  | RefreshPlanets => refresh_planets_once env
  | RefreshAuthorizations => refresh_authorizations_once env
  end.
(** What may happen to an agent: a call, or the second half of one whose first
    half fetched its document earlier, when the agent was another. *)
Inductive agent_moves : Agent → Agent → Prop :=
| move_call env call a : agent_moves a (agent_step env call a).2
| move_install env0 before env t c a :
    (prepare_enrollment env0 t before).1 = Ok c →
    agent_moves a (install_enrollment env t c a).2
| move_planet env target manifest a : agent_moves a (apply_refreshed_planet env target manifest a).2
| move_authorization env0 env device_id identity target action a :
    fetch_authorization_action env0 device_id identity target = Ok action →
    agent_moves a (apply_authorization_action env target action a).2
| move_policy env id policy a : agent_moves a (apply_policy_manifest env id policy a).2.
Inductive agent_reachable (a : Agent) : Agent → Prop :=
| agent_here : agent_reachable a a
| agent_after b c : agent_reachable a b → agent_moves b c → agent_reachable a c.
End agent_networks.
