(* ===== verification/Controller.v ===== *)
(** * The membership controller ([meshlake-controller/src/main.rs])

    Networks, enrolment tokens, members and the documents the controller signs.
    A request runs alone under the lock; what it sees of the outside world (the
    clocks, the random draws, the administrator header, the outcome of writing
    the state file) is its environment.  The state file is part of the server:
    a request that fails after an update leaves memory ahead of the file. *)
From S2P Require Import Prelude Net Text Ext Model ServiceIdentity Membership Authorization.
From S2P Require Import Planet Policy TransportHealth Request Responses.
From Stdlib Require Import Ascii.
#[local] Open Scope Z_scope.

(** ** The crates only the controller calls *)
Class ControllerLib `{UuidLib} := {
  controller_uuid_text :: UuidText;
  base64_encode : bytes → string;
  (** [Hmac::<Sha1>::new_from_slice(key)] and the tag of a message. *)
  hmac_sha1 : bytes → bytes → option bytes;
  (** A parsed URL with query pairs appended, printed. *)
  url_with_pairs : string → list (string * string) → string;
}.

Module Controller.
Definition CONTROLLER_STATE_SCHEMA_VERSION : Z := 2.
Definition MAX_ALLOWED_ROUTES : Z := 258.
Definition CERTIFICATE_LIFETIME : Z := 86400.
Definition MANIFEST_LIFETIME : Z := 90.
Definition REFRESH_NONCE_TTL : Z := secs 300.

(** The status codes of [ApiError]; the messages are not modelled. *)
Inductive ApiError : Type :=
| BadRequest | Conflict | NotFound | Unauthorized | Internal.
#[export] Instance ApiError_eq_dec : EqDecision ApiError.
Proof. solve_decision. Defined.

(** The errors of signing a policy. *)
Inductive SignError : Type :=
| GatewayNotMember
| GatewayCertificateMissing
| GatewayNotAuthorized
| CertificateFailed (e : CryptoError)
| PolicyFailed (e : PolicyError).

Section controller.
Context `{UuidLib} `{Ed25519} `{IpNetLib} `{HashOrder} `{SessionCrypto} `{!ControllerLib}.

(** ** The persisted state *)
Record EnrollmentToken : Type := mkEnrollmentToken {
  et_network_id : NetworkId;
  et_expires_at : Z;
  et_used_by : option DeviceId;
}.
Record ManagedPolicyRoute : Type := mkManagedPolicyRoute {
  mr_prefix : string;
  mr_gateway : DeviceId;
}.
Record ManagedExitNode : Type := mkManagedExitNode {
  me_gateway : DeviceId;
  me_supports_ipv4 : bool;
  me_supports_ipv6 : bool;
}.
Record ManagedPolicy : Type := mkManagedPolicy {
  mpo_routes : list ManagedPolicyRoute;
  mpo_exit_nodes : list ManagedExitNode;
  mpo_dns : DnsPolicy;
}.
Definition ManagedPolicy_default : ManagedPolicy := mkManagedPolicy [] [] DnsPolicy_default.
Record ManagedNetwork : Type := mkManagedNetwork {
  mn_network : VirtualNetwork;
  mn_members : gmap DeviceId MembershipClaims;
  mn_network_key : bytes;
  mn_network_key_epoch : Z;
  mn_authorization_epoch : Z;
  mn_member_certificate_ids : gmap DeviceId Uuid;
  mn_revoked_certificate_ids : gmap Uuid Z;
  mn_policy_epoch : Z;
  mn_policy : ManagedPolicy;
}.
Record ControllerState : Type := mkControllerState {
  cs_schema_version : Z;
  cs_signing_key : bytes;
  cs_admin_token : string;
  cs_networks : gmap NetworkId ManagedNetwork;
  cs_enrollment_tokens : gmap Uuid EnrollmentToken;
}.

Record TurnRestAuth : Type := mkTurnRestAuth {
  ta_secret : bytes;
  ta_credential_ttl : Z;
}.
Record PlanetSettings : Type := mkPlanetSettings {
  pset_version : Z;
  pset_controller_url : string;
  pset_tls_client_ca_pem : option string;
  pset_roots : list PlanetRoot;
  pset_relays : list PlanetRelay;
  pset_tls_relays : list PlanetTlsRelay;
  pset_turn_servers : list PlanetTurnServer;
  pset_turn_auth : option TurnRestAuth;
  pset_stun_servers : list string;
}.

(** ** Requests and responses *)
Record TokenRequest : Type := mkTokenRequest { tq_expires_in : option Z }.
Record TokenResponse : Type := mkTokenResponse {
  tk_token : string;
  tk_expires_at : Z;
  tk_invite_link : option string;
}.
Record EnrollmentRequest : Type := mkEnrollmentRequest {
  er_network_id : NetworkId;
  er_device_id : DeviceId;
  er_device_public_key : bytes;
  er_token : string;
}.
Record PolicyUpdateRequest : Type := mkPolicyUpdateRequest {
  pu_routes : list ManagedPolicyRoute;
  pu_exit_nodes : list ManagedExitNode;
  pu_dns : DnsPolicy;
}.
Record MemberRouteAuthorizationRequest : Type := mkMemberRouteAuthorizationRequest {
  mq_allowed_routes : list string;
}.

(** ** The server and what a request sees *)
Record Server : Type := mkServer {
  sv_memory : ControllerState;
  sv_disk : ControllerState;
  sv_refresh_nonces : gmap bytes Z;
}.
Record Env : Type := mkEnv {
  ce_now : Z;
  ce_instant : Z;
  ce_uuid : Uuid;
  ce_random : option bytes;
  ce_admin_header : option string;
  ce_write : WriteOutcome;
  ce_planet : option PlanetSettings;
}.
Abbreviation request := (handler Server ApiError).

Definition state : request ControllerState := s ← read; mret (sv_memory s).
Definition set_state (m : ControllerState) : request unit :=
  s ← read; write (mkServer m (sv_disk s) (sv_refresh_nonces s)).
Definition set_nonces (nonces : gmap bytes Z) : request unit :=
  s ← read; write (mkServer (sv_memory s) (sv_disk s) nonces).
Definition write_state (env : Env) : request unit :=
  s ← read;
  match ce_write env with
  | Written => write (mkServer (sv_memory s) (sv_memory s) (sv_refresh_nonces s))
  | NotWritten => lift (Err Internal)
  | WrittenUnconfirmed =>
      write (mkServer (sv_memory s) (sv_memory s) (sv_refresh_nonces s)) ;;
      lift (Err Internal)
  end.

(** Updates of parts of the state. *)
Definition with_network (m : ControllerState) (id : NetworkId) (n : ManagedNetwork)
    : ControllerState :=
  mkControllerState (cs_schema_version m) (cs_signing_key m) (cs_admin_token m)
    (<[id := n]> (cs_networks m)) (cs_enrollment_tokens m).
Definition with_token (m : ControllerState) (id : Uuid) (t : EnrollmentToken) : ControllerState :=
  mkControllerState (cs_schema_version m) (cs_signing_key m) (cs_admin_token m)
    (cs_networks m) (<[id := t]> (cs_enrollment_tokens m)).
Definition with_members (n : ManagedNetwork) (members : gmap DeviceId MembershipClaims)
    : ManagedNetwork :=
  mkManagedNetwork (mn_network n) members (mn_network_key n) (mn_network_key_epoch n)
    (mn_authorization_epoch n) (mn_member_certificate_ids n) (mn_revoked_certificate_ids n)
    (mn_policy_epoch n) (mn_policy n).
Definition with_policy (n : ManagedNetwork) (policy_epoch : Z) (policy : ManagedPolicy)
    : ManagedNetwork :=
  mkManagedNetwork (mn_network n) (mn_members n) (mn_network_key n) (mn_network_key_epoch n)
    (mn_authorization_epoch n) (mn_member_certificate_ids n) (mn_revoked_certificate_ids n)
    policy_epoch policy.

(** ** Addresses *)
Definition v4_addresses (addresses : list IpAddr) : list Z :=
  omap (λ a, match a with V4 ip => Some ip | V6 _ => None end) addresses.
Definition v6_addresses (addresses : list IpAddr) : list Z :=
  omap (λ a, match a with V6 ip => Some ip | V4 _ => None end) addresses.
Definition member_addresses (members : gmap DeviceId MembershipClaims) : list IpAddr :=
  concat (map mc_assigned_addresses (hash_values members)).
(** [for candidate in first..=last]: at most one candidate more than there are
    addresses in use is ever looked at, which is the fuel. *)
Fixpoint first_free_v4 (fuel : nat) (used : gset Z) (candidate last : Z) : option Z :=
  match fuel with
  | O => None
  | S fuel =>
      if last <? candidate then None
      else if bool_decide (candidate ∈ used) then first_free_v4 fuel used (candidate + 1) last
      else Some candidate
  end.
Definition allocate_ipv4_address (network : VirtualNetwork)
    (members : gmap DeviceId MembershipClaims) : option Z :=
  prefix ← parse_ipv4net (vn_ipv4_prefix network);
  if 31 <=? v4_prefix_len prefix then None else
  let used : gset Z := list_to_set (v4_addresses (member_addresses members)) in
  first_free_v4 (S (size used)) used (v4_network prefix + 1) (v4_broadcast prefix - 1).
(** [for offset in 1..=used.len() + 1]: the fuel is the loop's own bound. *)
Fixpoint first_free_v6 (fuel : nat) (prefix : Ipv6Net) (used : gset Z) (network_address offset : Z)
    : option Z :=
  match fuel with
  | O => None
  | S fuel =>
      let raw := network_address + offset in
      if 2 ^ 128 <=? raw then None
      else if negb (v6_contains prefix raw) then None
      else if bool_decide (raw ∈ used)
           then first_free_v6 fuel prefix used network_address (offset + 1)
      else Some raw
  end.
Definition allocate_ipv6_address (network : VirtualNetwork)
    (members : gmap DeviceId MembershipClaims) : option Z :=
  text ← vn_ipv6_prefix network;
  prefix ← parse_ipv6net text;
  if v6_prefix_len prefix =? 128 then None else
  let used : gset Z := list_to_set (v6_addresses (member_addresses members)) in
  first_free_v6 (S (size used)) prefix used (v6_network prefix) 1.
Definition ip_is_v4 (a : IpAddr) : bool := match a with V4 _ => true | V6 _ => false end.
Definition assigned_addresses_for_device (network : VirtualNetwork)
    (members : gmap DeviceId MembershipClaims) (device_id : DeviceId) : option (list IpAddr) :=
  let addresses := default [] (mc_assigned_addresses <$> members !! device_id) in
  addresses ←
    (if existsb ip_is_v4 addresses then Some addresses
     else ip ← allocate_ipv4_address network members; Some (addresses ++ [V4 ip]));
  if is_some (vn_ipv6_prefix network) && negb (existsb (λ a, negb (ip_is_v4 a)) addresses)
  then ip ← allocate_ipv6_address network members; Some (addresses ++ [V6 ip])
  else Some addresses.

(** ** Signing *)
Context `{!MembershipSerde} `{!AuthorizationSerde} `{!PolicySerde}.
Context `{!PlanetSerde}.

Definition signing_key (m : ControllerState) : option SigningKey :=
  sk_from_bytes <$> try_into 32 (cs_signing_key m).
(** The claims with a fresh lifetime. *)
Definition renewed (claims : MembershipClaims) (now : Z) : MembershipClaims :=
  mkMembershipClaims (mc_network_id claims) (mc_device_id claims) (mc_device_public_key claims)
    (mc_assigned_addresses claims) (mc_allowed_routes claims) now
    (Some (wrap_add64 now CERTIFICATE_LIFETIME)).

Definition active_member (n : ManagedNetwork) (entry : DeviceId * MembershipClaims)
    : option AuthorizedMembership :=
  certificate_id ← mn_member_certificate_ids n !! entry.1;
  Some (mkAuthorizedMembership entry.1 certificate_id (mc_device_public_key entry.2)
          (mn_network_key_epoch n)).
Definition sign_authorization (n : ManagedNetwork) (key : SigningKey) (now : Z)
    : result CryptoError NetworkAuthorizationManifest :=
  auth_sign (vn_id (mn_network n)) (mn_authorization_epoch n) (mn_network_key_epoch n)
    (omap (active_member n) (hash_iter (mn_members n)))
    (hash_keys (mn_revoked_certificate_ids n))
    now (wrap_add64 now MANIFEST_LIFETIME) key.

Definition route_prefix_covers (allowed target : string) : bool :=
  match parse_ipnet allowed, parse_ipnet target with
  | Some (Net4 allowed), Some (Net4 target) =>
      (v4_prefix_len allowed <=? v4_prefix_len target)
      && v4_contains allowed (v4_network target)
  | Some (Net6 allowed), Some (Net6 target) =>
      (v6_prefix_len allowed <=? v6_prefix_len target)
      && v6_contains allowed (v6_network target)
  | _, _ => false
  end.
(** The certificate a policy document carries for one of its gateways. *)
Definition gateway_claims (n : ManagedNetwork) (gateway : DeviceId)
    : result SignError (MembershipClaims * Uuid) :=
  claims ← ok_or (mn_members n !! gateway) GatewayNotMember;
  certificate_id ← ok_or (mn_member_certificate_ids n !! gateway) GatewayCertificateMissing;
  Ok (claims, certificate_id).
Definition sign_gateway (n : ManagedNetwork) (claims : MembershipClaims) (certificate_id : Uuid)
    (key : SigningKey) (now : Z) : result SignError MembershipCertificate :=
  map_err CertificateFailed
    (sign_authorized (renewed claims now) certificate_id (mn_network_key_epoch n) key).
Definition sign_policy_route (n : ManagedNetwork) (key : SigningKey) (now : Z)
    (route : ManagedPolicyRoute) : result SignError PolicyRoute :=
  '(claims, certificate_id) ← gateway_claims n (mr_gateway route);
  bail_if (negb (existsb (λ allowed, route_prefix_covers allowed (mr_prefix route))
                   (mc_allowed_routes claims))) GatewayNotAuthorized ;;
  certificate ← sign_gateway n claims certificate_id key now;
  Ok (mkPolicyRoute (mr_prefix route) certificate).
Definition sign_exit_node (n : ManagedNetwork) (key : SigningKey) (now : Z)
    (exit_node : ManagedExitNode) : result SignError ExitNode :=
  '(claims, certificate_id) ← gateway_claims n (me_gateway exit_node);
  certificate ← sign_gateway n claims certificate_id key now;
  Ok (mkExitNode certificate (me_supports_ipv4 exit_node) (me_supports_ipv6 exit_node)).
Definition sign_policy (n : ManagedNetwork) (key : SigningKey) (now : Z)
    : result SignError NetworkPolicyManifest :=
  routes ← try_map (sign_policy_route n key now) (mpo_routes (mn_policy n));
  exit_nodes ← try_map (sign_exit_node n key now) (mpo_exit_nodes (mn_policy n));
  map_err PolicyFailed
    (sign_with_exit_nodes (vn_id (mn_network n)) (mn_policy_epoch n) routes exit_nodes
       (mpo_dns (mn_policy n)) now (wrap_add64 now MANIFEST_LIFETIME) key).

(** ** TURN credentials and invitations *)
Definition mint_turn_credential (auth : TurnRestAuth) (device_id : DeviceId) (now : Z)
    : option TurnCredential :=
  let expires_at := sat_add64 now (ta_credential_ttl auth) in
  let username := (of_bytes (display_decimal expires_at) ++ ":"
                   ++ uuid_to_string (device_uuid device_id))%string in
  tag ← hmac_sha1 (ta_secret auth) (bytes_of_string username);
  Some (mkTurnCredential 1 username (base64_encode tag) expires_at).
(** No credential is configured, or it is minted or fails. *)
Definition turn_credential (env : Env) (device_id : DeviceId)
    : result ApiError (option TurnCredential) :=
  match ce_planet env ≫= pset_turn_auth with
  | None => Ok None
  | Some auth => Some <$> ok_or (mint_turn_credential auth device_id (ce_now env)) Internal
  end.
Definition make_invite_link (controller_url : string) (network_id : Uuid)
    (token controller_public_key_base64 : string) (tls_client_ca_pem : option string) : string :=
  let url := trim_end_matches "/" controller_url in
  url_with_pairs "meshlake://join"
    ([("controller", url); ("network_id", uuid_to_string network_id); ("token", token);
      ("public_key", controller_public_key_base64); ("planet", (url ++ "/v1/planet")%string)]
     ++ match tls_client_ca_pem with
        | Some pem => [("tls_ca", base64_encode (bytes_of_string pem))]
        | None => []
        end).

(** ** Requests *)
Definition require_admin (m : ControllerState) (env : Env) : result ApiError unit :=
  bail_if (bool_decide (default ""%string (ce_admin_header env) ≠ cs_admin_token m)) Unauthorized.
Definition find_managed (m : ControllerState) (id : NetworkId) : result ApiError ManagedNetwork :=
  ok_or (cs_networks m !! id) NotFound.
Definition key_of_state (m : ControllerState) : result ApiError SigningKey :=
  ok_or (signing_key m) Internal.

Definition create_network (env : Env) (r : UpsertNetworkRequest) : request VirtualNetwork :=
  lift (map_err (λ _, BadRequest) (UpsertNetworkRequest_validate r)) ;;
  m ← state;
  lift (require_admin m env) ;;
  let id := default (mkNetworkId (ce_uuid env)) (un_id r) in
  lift (bail_if (is_some (cs_networks m !! id)) Conflict) ;;
  let network := mkVirtualNetwork id (un_name r) (un_ipv4_prefix r) (un_ipv6_prefix r)
                   (un_relay_policy r) in
  key ← lift (map_err (λ _, Internal) (NetworkKey_generate (ce_random env)));
  set_state (with_network m id
    (mkManagedNetwork network ∅ (NetworkKey_to_bytes key) 1 1 ∅ ∅ 1 ManagedPolicy_default)) ;;
  write_state env ;;
  mret network.

Definition token_expiry (now : Z) (r : TokenRequest) : Z :=
  wrap_add64 now (clamp 60 86400 (default 900 (tq_expires_in r))).
Definition issue_token (env : Env) (network_id : NetworkId) (r : TokenRequest)
    : request TokenResponse :=
  m ← state;
  lift (require_admin m env) ;;
  lift (find_managed m network_id) ;;
  let expires_at := token_expiry (ce_now env) r in
  let token := ce_uuid env in
  set_state (with_token m token (mkEnrollmentToken network_id expires_at None)) ;;
  write_state env ;;
  m ← state;
  key ← lift (key_of_state m);
  mret (mkTokenResponse (uuid_to_string token) expires_at
    ((λ planet, make_invite_link (pset_controller_url planet) (network_uuid network_id)
                  (uuid_to_string token) (base64_encode (public_bytes key))
                  (pset_tls_client_ca_pem planet)) <$> ce_planet env)).

(** The token with its check; it is bound to the device at once. *)
Definition redeem_token (env : Env) (r : EnrollmentRequest) : request unit :=
  token_id ← lift (ok_or (uuid_parse (er_token r)) BadRequest);
  m ← state;
  token ← lift (ok_or (cs_enrollment_tokens m !! token_id) Unauthorized);
  lift (bail_if (bool_decide (et_network_id token ≠ er_network_id r)
                 || (et_expires_at token <? ce_now env)) Unauthorized) ;;
  lift (bail_if (is_some_and (et_used_by token) (λ d, bool_decide (d ≠ er_device_id r)))
          Unauthorized) ;;
  set_state (with_token m token_id
    (mkEnrollmentToken (et_network_id token) (et_expires_at token) (Some (er_device_id r)))).
Definition default_routes (network : VirtualNetwork) : list string :=
  vn_ipv4_prefix network :: option_list (vn_ipv6_prefix network).
(** [entry(device).or_insert_with(Uuid::new_v4)]. *)
Definition with_certificate_id (n : ManagedNetwork) (device : DeviceId) (id : Uuid)
    : ManagedNetwork :=
  mkManagedNetwork (mn_network n) (mn_members n) (mn_network_key n) (mn_network_key_epoch n)
    (mn_authorization_epoch n) (<[device := id]> (mn_member_certificate_ids n))
    (mn_revoked_certificate_ids n) (mn_policy_epoch n) (mn_policy n).
Definition with_member (n : ManagedNetwork) (device : DeviceId) (claims : MembershipClaims)
    : ManagedNetwork :=
  mkManagedNetwork (mn_network n) (<[device := claims]> (mn_members n)) (mn_network_key n)
    (mn_network_key_epoch n) (sat_add64 (mn_authorization_epoch n) 1)
    (mn_member_certificate_ids n) (mn_revoked_certificate_ids n) (mn_policy_epoch n) (mn_policy n).
Definition enroll (env : Env) (r : EnrollmentRequest) : request EnrollmentResponse :=
  lift (bail_if (negb (len (er_device_public_key r) =? 32)) BadRequest) ;;
  redeem_token env r ;;
  m ← state;
  key ← lift (key_of_state m);
  n ← lift (find_managed m (er_network_id r));
  let device := er_device_id r in
  addresses ← lift (ok_or (assigned_addresses_for_device (mn_network n) (mn_members n) device)
                      BadRequest);
  let certificate_id := default (ce_uuid env) (mn_member_certificate_ids n !! device) in
  let n := with_certificate_id n device certificate_id in
  set_state (with_network m (er_network_id r) n) ;;
  let claims := mkMembershipClaims (er_network_id r) device (er_device_public_key r) addresses
    (default_routes (mn_network n)) (ce_now env)
    (Some (wrap_add64 (ce_now env) CERTIFICATE_LIFETIME)) in
  certificate ← lift (map_err (λ _, Internal)
    (sign_authorized claims certificate_id (mn_network_key_epoch n) key));
  let n := with_member n device claims in
  set_state (with_network m (er_network_id r) n) ;;
  authorization ← lift (map_err (λ _, Internal) (sign_authorization n key (ce_now env)));
  write_state env ;;
  credential ← lift (turn_credential env device);
  mret (mkEnrollmentResponse (mn_network n) certificate (mn_network_key n) authorization credential).

Definition networks (m : ControllerState) : list VirtualNetwork :=
  map mn_network (hash_values (cs_networks m)).
Definition delete_network (env : Env) (network_id : NetworkId) : request unit :=
  m ← state;
  lift (require_admin m env) ;;
  lift (find_managed m network_id) ;;
  set_state (mkControllerState (cs_schema_version m) (cs_signing_key m) (cs_admin_token m)
    (delete network_id (cs_networks m))
    (retain (λ _ t, bool_decide (et_network_id t ≠ network_id)) (cs_enrollment_tokens m))) ;;
  write_state env.
Definition members (env : Env) (network_id : NetworkId) : request (list MembershipClaims) :=
  m ← state;
  lift (require_admin m env) ;;
  n ← lift (find_managed m network_id);
  mret (hash_values (mn_members n)).

(** The routes of a member: those of the network and the ones authorised. *)
Definition parse_allowed_route (raw : string) : result ApiError string :=
  prefix ← ok_or (parse_ipnet raw) BadRequest;
  bail_if (net_prefix_len prefix =? 0) BadRequest ;;
  Ok (net_to_string prefix).
Definition authorized_routes (network : VirtualNetwork) (requested : list string)
    : result ApiError (list string) :=
  extra ← try_map parse_allowed_route requested;
  let routes := dedup (sort_by str_le (default_routes network ++ extra)) in
  bail_if (MAX_ALLOWED_ROUTES <? len routes) BadRequest ;;
  Ok routes.
Definition authorize_member_routes (env : Env) (network_id : NetworkId) (device_id : DeviceId)
    (r : MemberRouteAuthorizationRequest) : request MembershipClaims :=
  m ← state;
  lift (require_admin m env) ;;
  key ← lift (key_of_state m);
  n ← lift (find_managed m network_id);
  routes ← lift (authorized_routes (mn_network n) (mq_allowed_routes r));
  claims ← lift (ok_or (mn_members n !! device_id) NotFound);
  let updated := mkMembershipClaims (mc_network_id claims) (mc_device_id claims)
    (mc_device_public_key claims) (mc_assigned_addresses claims) routes (ce_now env)
    (Some (wrap_add64 (ce_now env) CERTIFICATE_LIFETIME)) in
  let candidate := with_members n (<[device_id := updated]> (mn_members n)) in
  lift (map_err (λ _, BadRequest) (sign_policy candidate key (ce_now env))) ;;
  set_state (with_network m network_id candidate) ;;
  write_state env ;;
  mret updated.

(** Removal, up to the draw of a new network key. *)
Definition without_gateway (device_id : DeviceId) (policy : ManagedPolicy) : ManagedPolicy :=
  mkManagedPolicy
    (List.filter (λ route, bool_decide (mr_gateway route ≠ device_id)) (mpo_routes policy))
    (List.filter (λ e, bool_decide (me_gateway e ≠ device_id)) (mpo_exit_nodes policy))
    (mpo_dns policy).
Definition next_epoch (epoch : Z) : Z := Z.max (sat_add64 epoch 1) 1.
Definition without_member (n : ManagedNetwork) (device_id : DeviceId) (now : Z) : ManagedNetwork :=
  let policy := without_gateway device_id (mn_policy n) in
  let changed := negb (len (mpo_routes policy) =? len (mpo_routes (mn_policy n)))
                 || negb (len (mpo_exit_nodes policy) =? len (mpo_exit_nodes (mn_policy n))) in
  mkManagedNetwork (mn_network n) (delete device_id (mn_members n)) (mn_network_key n)
    (mn_network_key_epoch n) (mn_authorization_epoch n)
    (delete device_id (mn_member_certificate_ids n))
    (match mn_member_certificate_ids n !! device_id with
     | Some id => <[id := now]> (mn_revoked_certificate_ids n)
     | None => mn_revoked_certificate_ids n
     end)
    (if changed then next_epoch (mn_policy_epoch n) else mn_policy_epoch n) policy.
Definition rekeyed (n : ManagedNetwork) (key : NetworkKey) : ManagedNetwork :=
  mkManagedNetwork (mn_network n) (mn_members n) (NetworkKey_to_bytes key)
    (next_epoch (mn_network_key_epoch n)) (next_epoch (mn_authorization_epoch n))
    (mn_member_certificate_ids n) (mn_revoked_certificate_ids n) (mn_policy_epoch n) (mn_policy n).
Definition remove_member (env : Env) (network_id : NetworkId) (device_id : DeviceId)
    : request unit :=
  m ← state;
  lift (require_admin m env) ;;
  n ← lift (find_managed m network_id);
  lift (bail_if (is_none (mn_members n !! device_id)) NotFound) ;;
  let n := without_member n device_id (ce_now env) in
  set_state (with_network m network_id n) ;;
  key ← lift (map_err (λ _, Internal) (NetworkKey_generate (ce_random env)));
  set_state (with_network m network_id (rekeyed n key)) ;;
  write_state env.

Definition authorization (env : Env) (network_id : NetworkId)
    : request NetworkAuthorizationManifest :=
  m ← state;
  key ← lift (key_of_state m);
  n ← lift (find_managed m network_id);
  lift (map_err (λ _, Internal) (sign_authorization n key (ce_now env))).
Definition policy (env : Env) (network_id : NetworkId) : request NetworkPolicyManifest :=
  m ← state;
  key ← lift (key_of_state m);
  n ← lift (find_managed m network_id);
  lift (map_err (λ _, Internal) (sign_policy n key (ce_now env))).
(** The stored policy is the normalised one of the signed document. *)
Definition stored_policy (manifest : NetworkPolicyManifest) : ManagedPolicy :=
  mkManagedPolicy
    (map (λ route, mkManagedPolicyRoute (pr_prefix route)
            (mc_device_id (cert_claims (pr_gateway_certificate route)))) (pol_routes manifest))
    (map (λ e, mkManagedExitNode (exit_node_device e) (en_supports_ipv4 e) (en_supports_ipv6 e))
       (pol_exit_nodes manifest))
    (pol_dns manifest).
Definition update_policy (env : Env) (network_id : NetworkId) (r : PolicyUpdateRequest)
    : request NetworkPolicyManifest :=
  m ← state;
  lift (require_admin m env) ;;
  key ← lift (key_of_state m);
  n ← lift (find_managed m network_id);
  let epoch := next_epoch (mn_policy_epoch n) in
  let candidate := with_policy n epoch
    (mkManagedPolicy (pu_routes r) (pu_exit_nodes r) (pu_dns r)) in
  manifest ← lift (map_err (λ _, BadRequest) (sign_policy candidate key (ce_now env)));
  set_state (with_network m network_id (with_policy n epoch (stored_policy manifest))) ;;
  write_state env ;;
  mret manifest.

Definition refresh_membership (env : Env) (r : MembershipRefreshRequest)
    : request MembershipRefreshResponse :=
  let p := rr_payload r in
  m ← state;
  n ← lift (find_managed m (rp_network_id p));
  claims ← lift (ok_or (mn_members n !! rp_device_id p) Unauthorized);
  certificate_id ← lift (ok_or (mn_member_certificate_ids n !! rp_device_id p) Unauthorized);
  lift (bail_if (bool_decide (rp_certificate_id p ≠ certificate_id)) Unauthorized) ;;
  lift (map_err (λ _, Unauthorized)
    (refresh_verify r (mc_device_public_key claims) (ce_now env) 120)) ;;
  s ← read;
  let nonces := retain (λ _ seen, duration_since (ce_instant env) seen <=? REFRESH_NONCE_TTL)
                  (sv_refresh_nonces s) in
  set_nonces (<[rp_nonce p := ce_instant env]> nonces) ;;
  lift (bail_if (is_some (nonces !! rp_nonce p)) Unauthorized) ;;
  key ← lift (key_of_state m);
  certificate ← lift (map_err (λ _, Internal)
    (sign_authorized (renewed claims (ce_now env)) certificate_id (mn_network_key_epoch n) key));
  authorization ← lift (map_err (λ _, Internal) (sign_authorization n key (ce_now env)));
  credential ← lift (turn_credential env (rp_device_id p));
  mret (mkMembershipRefreshResponse false authorization (Some certificate) (mn_network_key n)
          credential).

(** [None]: the controller publishes no Planet manifest. *)
Definition planet_manifest (env : Env) (m : ControllerState)
    : option (result ApiError PlanetManifest) :=
  planet ← ce_planet env;
  Some (key ← key_of_state m;
    let url := pset_controller_url planet in
    let roots := pset_roots planet in let relays := pset_relays planet in
    let stun := pset_stun_servers planet in let now := ce_now env in
    map_err (λ _, Internal)
      (if pset_version planet =? 5 then
         sign_v5 url roots relays (pset_tls_relays planet) (pset_turn_servers planet) stun now None key
       else if pset_version planet =? 4 then
         sign_v4 url roots relays (pset_tls_relays planet) stun now None key
       else if pset_version planet =? 3 then sign_v3 url roots relays stun now None key
       else sign_v2 url roots relays stun now None key)).

(** ** Opening a state file *)
Inductive OpenError : Type :=
| SchemaTooNew | InvalidNetworkKeyLength | RandomnessFailed | SigningKeyInvalid | AdminTokenEmpty
| PolicyInvalid (e : SignError).
Definition validate_network (key : SigningKey) (now : Z) (n : ManagedNetwork)
    : result OpenError unit :=
  map_err (λ _, InvalidNetworkKeyLength) (NetworkKey_from_slice (mn_network_key n)) ;;
  map_err PolicyInvalid (sign_policy n key now) ;;
  Ok tt.
Definition validate_controller_state (m : ControllerState) (now : Z) : result OpenError unit :=
  key ← ok_or (signing_key m) SigningKeyInvalid;
  bail_if (str_is_empty (trim (cs_admin_token m))) AdminTokenEmpty ;;
  for_each (validate_network key now) (hash_values (cs_networks m)).

(** The draws of a migration: a key per network, a certificate per member. *)
Record Draws : Type := mkDraws {
  dr_key : NetworkId → option bytes;
  dr_certificate : NetworkId → DeviceId → Uuid;
}.
Definition at_least_one (epoch : Z) : Z := if epoch =? 0 then 1 else epoch.
Definition missing_certificates (n : ManagedNetwork) : list DeviceId :=
  List.filter (λ d, is_none (mn_member_certificate_ids n !! d)) (hash_keys (mn_members n)).
Definition migrate_network (draws : Draws) (schema_version : Z) (id : NetworkId)
    (n : ManagedNetwork) : result OpenError (ManagedNetwork * bool) :=
  '(key, fresh) ←
    (if negb (len (mn_network_key n) =? 32) then
       bail_if (CONTROLLER_STATE_SCHEMA_VERSION <=? schema_version) InvalidNetworkKeyLength ;;
       key ← map_err (λ _, RandomnessFailed) (NetworkKey_generate (dr_key draws id));
       Ok (NetworkKey_to_bytes key, true)
     else Ok (mn_network_key n, false));
  let missing := missing_certificates n in
  Ok (mkManagedNetwork (mn_network n) (mn_members n) key (at_least_one (mn_network_key_epoch n))
        (at_least_one (mn_authorization_epoch n))
        (foldl (λ ids d, <[d := dr_certificate draws id d]> ids) (mn_member_certificate_ids n) missing)
        (mn_revoked_certificate_ids n) (at_least_one (mn_policy_epoch n)) (mn_policy n),
      fresh || (mn_network_key_epoch n =? 0) || (mn_authorization_epoch n =? 0)
      || (mn_policy_epoch n =? 0) || negb (is_empty missing)).
Definition migrate_entry (draws : Draws) (schema_version : Z)
    (acc : gmap NetworkId ManagedNetwork * bool) (entry : NetworkId * ManagedNetwork)
    : result OpenError (gmap NetworkId ManagedNetwork * bool) :=
  '(n, migrated) ← migrate_network draws schema_version entry.1 entry.2;
  Ok (<[entry.1 := n]> acc.1, acc.2 || migrated).
Definition migrate_and_validate_controller_state (draws : Draws) (now : Z) (m : ControllerState)
    : result OpenError (ControllerState * bool) :=
  bail_if (CONTROLLER_STATE_SCHEMA_VERSION <? cs_schema_version m) SchemaTooNew ;;
  '(managed, migrated) ← try_foldl (migrate_entry draws (cs_schema_version m))
                           (cs_networks m, false) (hash_iter (cs_networks m));
  let m' := mkControllerState (Z.max (cs_schema_version m) CONTROLLER_STATE_SCHEMA_VERSION)
              (cs_signing_key m) (cs_admin_token m) managed (cs_enrollment_tokens m) in
  validate_controller_state m' now ;;
  Ok (m', migrated || (cs_schema_version m <? CONTROLLER_STATE_SCHEMA_VERSION)).

(** A new controller, with the drawn signing key and administrator token. *)
Definition initialize_new_controller_state (signing_key : bytes) (admin_token : Uuid)
    : ControllerState :=
  mkControllerState CONTROLLER_STATE_SCHEMA_VERSION signing_key (uuid_to_string admin_token) ∅ ∅.
(** Opening the decoded state file of a server: what it serves from then on. *)
Definition open_state (draws : Draws) (now : Z) (disk : ControllerState)
    : result OpenError Server :=
  opened ← migrate_and_validate_controller_state draws now disk;
  let '(m, migrated) := opened in
  Ok (mkServer m (if migrated : bool then m else disk) ∅).

(** ** The requests that change the server *)
Inductive Call : Type :=
| CreateNetwork (r : UpsertNetworkRequest)
| IssueToken (network_id : NetworkId) (r : TokenRequest)
| Enroll (r : EnrollmentRequest)
| DeleteNetwork (network_id : NetworkId)
| AuthorizeMemberRoutes (network_id : NetworkId) (device_id : DeviceId)
    (r : MemberRouteAuthorizationRequest)
| RemoveMember (network_id : NetworkId) (device_id : DeviceId)
| UpdatePolicy (network_id : NetworkId) (r : PolicyUpdateRequest)
| RefreshMembership (r : MembershipRefreshRequest).
Definition serve (env : Env) (call : Call) (s : Server) : result ApiError unit * Server :=
  match call with
  | CreateNetwork r => (create_network env r ;; mret tt) s
  | IssueToken id r => (issue_token env id r ;; mret tt) s
  | Enroll r => (enroll env r ;; mret tt) s
  | DeleteNetwork id => delete_network env id s
  | AuthorizeMemberRoutes id d r => (authorize_member_routes env id d r ;; mret tt) s
  | RemoveMember id d => remove_member env id d s
  | UpdatePolicy id r => (update_policy env id r ;; mret tt) s
  | RefreshMembership r => (refresh_membership env r ;; mret tt) s
  end.
End controller.
End Controller.
