(* ===== verification/Samples.v ===== *)
(** * Sample documents for the witnesses

    One controller, one network, two members and the documents the controller
    signs for them, built with the definitions of the development over the
    concrete instances. *)
From S2P Require Import Prelude Net Text Ext Concrete Model ServiceIdentity Membership.
From S2P Require Import Authorization RelayProto Session RootProto RelayServer Planet Policy.
From S2P Require Import Joined DataPlane PeerDirectory Observability TransportHealth Frames.
From S2P Require Import AgentSession.
From S2P Require Import AgentWorker.
#[local] Open Scope Z_scope.

#[export] Instance membership_serde_sample : MembershipSerde :=
  {| serde_claims := const_serde _; serde_certificate_payload := const_serde _ |}.
#[export] Instance authorization_serde_sample : AuthorizationSerde :=
  {| serde_hint_payload := const_serde _; serde_manifest_payload := const_serde _;
     serde_refresh_payload := const_serde _ |}.
#[export] Instance policy_serde_sample : PolicySerde :=
  {| serde_policy_v1 := const_serde _; serde_policy_v2 := const_serde _ |}.

Definition controller_key : SigningKey := key_of 1.
Definition controller_public : bytes := public_bytes controller_key.
Definition alice_key : SigningKey := key_of 2.
Definition bob_key : SigningKey := key_of 3.
Definition net_a : NetworkId := mkNetworkId (uuid_of 11).
Definition net_b : NetworkId := mkNetworkId (uuid_of 12).
Definition alice : DeviceId := mkDeviceId (uuid_of 21).
Definition bob : DeviceId := mkDeviceId (uuid_of 22).
Definition addr (d : Z) : IpAddr := V4 (ip4 100 64 0 d).

Definition claims_for (device : DeviceId) (key : SigningKey) (a : Z) : MembershipClaims :=
  mkMembershipClaims net_a device (public_bytes key) [addr a]
    [cidr4 (ip4 100 64 0 0) 24; cidr4 (ip4 10 0 0 0) 8] 100 (Some 1000).

(** The value of a computation that succeeds on the samples. *)
Definition unwrap {E A} (r : result E A) (otherwise : A) : A :=
  match r with Ok a => a | Err _ => otherwise end.

Lemma unwrap_Ok {E A} (r : result E A) d : is_ok r = true → r = Ok (unwrap r d).
Proof. by destruct r. Qed.
Lemma default_Some {A} (o : option A) d : is_some o = true → o = Some (default d o).
Proof. by destruct o. Qed.
Lemma unwrap_pair {E A B} (r : result E (A * B)) d :
  is_ok r = true → r = Ok ((unwrap r d).1, (unwrap r d).2).
Proof. by destruct r as [[]|]. Qed.

Definition certificate_of (device : DeviceId) (key : SigningKey) (a id : Z)
    : MembershipCertificate :=
  let c := claims_for device key a in
  unwrap (sign_authorized c (uuid_of id) 1 controller_key)
    (mkMembershipCertificate 0 (uuid_of 0) 0 c [] []).
Definition alice_certificate : MembershipCertificate := certificate_of alice alice_key 2 31.
Definition bob_certificate : MembershipCertificate := certificate_of bob bob_key 3 32.

Definition member_of (c : MembershipCertificate) : AuthorizedMembership :=
  mkAuthorizedMembership (mc_device_id (cert_claims c)) (cert_id c)
    (mc_device_public_key (cert_claims c)) (cert_network_key_epoch c).
Definition sample_authorization : NetworkAuthorizationManifest :=
  unwrap (auth_sign net_a 5 1 [member_of bob_certificate; member_of alice_certificate]
            [uuid_of 40; uuid_of 40] 100 500 controller_key)
    (mkNetworkAuthorizationManifest 0 net_a 0 0 [] [] 0 0 [] [] None).

Definition sample_routes : list PolicyRoute :=
  [mkPolicyRoute (cidr4 (ip4 10 2 0 0) 16) alice_certificate;
   mkPolicyRoute (cidr4 (ip4 10 1 0 0) 16) bob_certificate].
Definition sample_exits : list ExitNode := [mkExitNode bob_certificate true false].
Definition sample_dns : DnsPolicy := mkDnsPolicy [V4 (ip4 10 2 0 53)] ["Corp.Example."].
Definition sample_policy : NetworkPolicyManifest :=
  unwrap (sign_with_exit_nodes net_a 3 sample_routes sample_exits sample_dns 100 200 controller_key)
    (mkNetworkPolicyManifest 0 net_a 0 [] [] DnsPolicy_default 0 0 [] []).

Example sample_policy_normalised :
  map pr_prefix (pol_routes sample_policy) = [cidr4 (ip4 10 1 0 0) 16; cidr4 (ip4 10 2 0 0) 16]
  ∧ dns_search_domains (pol_dns sample_policy) = ["corp.example"]
  ∧ pol_version sample_policy = 2.
Proof. by vm_compute. Qed.

(** ** Session messages, whose serialisation round trips *)
Definition init_tuple (p : SessionInitPayload) :=
  (si_version p, si_network_id p, si_initiator p, si_responder p, si_session_id p,
   si_initiator_ephemeral_public_key p, si_issued_at p).
Definition init_untuple t : SessionInitPayload :=
  let '(a, b, c, d, e, f, g) := t in mkSessionInitPayload a b c d e f g.
Definition response_tuple (p : SessionResponsePayload) :=
  (sr_version p, sr_network_id p, sr_initiator p, sr_responder p, sr_session_id p,
   sr_initiator_ephemeral_public_key p, sr_responder_ephemeral_public_key p, sr_issued_at p).
Definition response_untuple t : SessionResponsePayload :=
  let '(a, b, c, d, e, f, g, h) := t in mkSessionResponsePayload a b c d e f g h.
#[export] Instance session_serde_sample : SessionSerde := {|
  serde_init_payload := via_serde init_tuple init_untuple;
  serde_init := via_serde (λ i, (init_tuple (init_payload i), init_signature i))
    (λ '(t, s), mkSessionInit (init_untuple t) s);
  serde_response_payload := via_serde response_tuple response_untuple;
  serde_response := via_serde (λ r, (response_tuple (response_payload r), response_signature r))
    (λ '(t, s), mkSessionResponse (response_untuple t) s);
|}.
Lemma session_serde_sample_roundtrip :
  SerdeLaws SessionInitPayload ∧ SerdeLaws SessionInit
  ∧ SerdeLaws SessionResponsePayload ∧ SerdeLaws SessionResponse.
Proof. split_and!; apply via_serde_laws; [by intros []|by intros [[] ?]|by intros []|by intros [[] ?]]. Qed.
Definition net_key : NetworkKey := mkNetworkKey (replicate 32 7).

(** A parser that knows one document. *)
Definition only_serde {T} (bs : bytes) (x : T) : Serde T :=
  {| to_vec _ := Some bs; from_slice b := if decide (b = bs) then Some x else None |}.

(** ** A registration with a service and the service's identity *)
#[export] Instance root_serde_sample : RootSerde :=
  {| serde_registration_payload := const_serde _; serde_root_response := const_serde _;
     serde_root_identity_response := const_serde _ |}.
#[export] Instance relay_serde_sample : RelaySerde :=
  {| serde_relay_ack_payload := const_serde _;
     serde_certificate := only_serde [55] bob_certificate |}.
Definition sample_nonce : bytes := replicate 16 9.
Definition service_uuid : Uuid := uuid_of 50.
Definition service_key : SigningKey := key_of 51.
Definition next_service_key : SigningKey := key_of 52.
Definition sample_registration_result
    : result RootProtocolError.t RootRegistration :=
  sign_authorized_for_service alice [alice_certificate] [sample_authorization]
    [SA4 (ip4 203 0 113 7) 4000] 150 sample_nonce Relay service_uuid alice_key.
Definition sample_registration : RootRegistration :=
  unwrap sample_registration_result
    (mkRootRegistration (mkRootRegistrationPayload 0 alice [] [] [] [] 0 [] None) []).
Definition sample_identity : ServiceIdentityPolicy :=
  mkServiceIdentityPolicy service_uuid (public_bytes service_key)
    (Some (public_bytes next_service_key)) (Some 100) (Some 200) [].
Example sample_identity_keys :
  required_public_keys sample_identity 150
  = Ok [public_bytes service_key; public_bytes next_service_key].
Proof. vm_decide. Qed.

#[export] Instance relay_server_serde_sample : RelayServerSerde :=
  {| serde_registration := only_serde [77] sample_registration;
     serde_signed_ack := const_serde _ |}.
Definition sample_relay_identity : RelayIdentity :=
  mkRelayIdentity service_uuid service_key (Some next_service_key).
Definition sample_registration_packet : bytes := RELAY_MAGIC ++ [RELAY_REGISTER_SIGNED] ++ [77].
Definition sample_remote : SocketAddr := SA4 (ip4 203 0 113 7) 4000.

(** ** The sample network as two of its members have it *)
Definition alice_network : JoinedNetwork :=
  mkJoinedNetwork (mkVirtualNetwork net_a "a" (cidr4 (ip4 100 64 0 0) 24) None Preferred)
    [addr 2] (Some alice_certificate) (replicate 32 7)
    (mkNetworkControlPlane None controller_public None None None None None [] [] [] [] [] []
       (Some sample_authorization) (Some sample_policy) ExitNodeSelection_default).
(** The header of an IPv4 packet. *)
Definition ipv4_packet (source destination : Z) : bytes :=
  69 :: replicate 11 0 ++ be_bytes 4 source ++ be_bytes 4 destination.
Definition bob_route : PeerRoute := mkPeerRoute [] [addr 3] (public_bytes bob_key) (Some 7).
Definition packet_from_bob : bytes := ipv4_packet (ip4 100 64 0 3) (ip4 100 64 0 2).
Definition bob_network : JoinedNetwork :=
  mkJoinedNetwork (jn_network alice_network) [addr 3] (Some bob_certificate) (replicate 32 7)
    (jn_control_plane alice_network).
Definition alice_peer_route : PeerRoute :=
  mkPeerRoute [] [addr 2] (public_bytes alice_key) (Some 7).

(** The two agents: every send succeeds, every write to the adapter succeeds. *)
Definition sample_env (device : DeviceId) (network : JoinedNetwork) (identity : SigningKey)
    (now : Z) : SessionEnv :=
  mkSessionEnv device [network] identity 1 (secs now) now (Some (replicate 16 5))
    (Some (replicate 32 (6 + now mod 7))) (λ _ _ _, true) (Some (λ _, true)).
Definition bob_env (now : Z) : SessionEnv := sample_env bob bob_network bob_key now.
Definition alice_env (now : Z) : SessionEnv := sample_env alice alice_network alice_key now.
Definition sample_inbound : Inbound := mkInbound sample_remote [sample_remote] false false false.
Definition bob_tables : SessionTables :=
  with_peers (SessionTables_new (obs_reset 1)) {[ (net_a, alice) := alice_peer_route ]}.
Definition alice_tables : SessionTables :=
  with_peers (SessionTables_new (obs_reset 1)) {[ (net_a, bob) := bob_route ]}.
Definition sample_relays (n : NetworkId) : NetworkRelays := mkNetworkRelays [sample_remote] [].

(** The last packet a step hands to a transport. *)
Definition last_transmitted (effects : list Effect) : bytes :=
  foldl (λ x effect, match effect with Transmit _ _ packet => packet | _ => x end) [] effects.
Definition run_sample (env : SessionEnv) (input : SessionInput) (w : SessionTables)
    : SessionTables * list Effect := unwrap (session_step env input w) (w, []).

(** Bob sends Alice a packet, she answers, he sends what waited, she delivers. *)
Definition bob_sending : SessionTables * list Effect :=
  run_sample (bob_env 150) (OutboundPacket sample_relays EndpointHealthTable_default packet_from_bob)
    bob_tables.
Definition alice_accepting : SessionTables * list Effect :=
  run_sample (alice_env 151) (InitFrame sample_inbound (last_transmitted bob_sending.2))
    alice_tables.
Definition bob_completing : SessionTables * list Effect :=
  run_sample (bob_env 152) (ResponseFrame sample_inbound (last_transmitted alice_accepting.2))
    bob_sending.1.
Definition alice_delivering : SessionTables * list Effect :=
  run_sample (alice_env 153) (DataFrame sample_inbound (last_transmitted bob_completing.2))
    alice_accepting.1.
Example sample_conversation :
  alice_delivering.2 = [Inject packet_from_bob]
  ∧ length bob_completing.2 = 2%nat ∧ length alice_accepting.2 = 2%nat.
Proof. vm_decide. Qed.

(** ** Alice's worker: it registers with the relay, the relay acknowledges and
    announces Bob's certificate *)
Definition sample_ack_result : result RelayProtocolError SignedRelayRegistrationAck :=
  relay_ack_sign net_a alice service_uuid sample_nonce sample_remote 140 160 None
    [service_key; next_service_key].
Definition sample_ack : SignedRelayRegistrationAck :=
  unwrap sample_ack_result
    (mkSignedRelayRegistrationAck (mkRelayRegistrationAckPayload 0 net_a alice service_uuid []
       (ObservedRegistrationSource sample_remote) 0 0 None) []).
#[export] Instance worker_serde_sample : WorkerSerde :=
  {| serde_worker_response := const_serde _; serde_worker_ack := only_serde [66] sample_ack;
     serde_worker_registration := only_serde [77] sample_registration |}.
Definition sample_transport : NetworkTransportConfiguration :=
  mkNetworkTransportConfiguration [sample_remote] {[sample_remote := sample_identity]} [] []
    (Some 3) (Some 900) [].
Definition alice_worker_env (now : Z) : WorkerEnv :=
  mkWorkerEnv (alice_env now) (mkTransportConfiguration {[net_a := sample_transport]} [sample_remote] [] [] false [])
    false (λ _, sample_nonce).
Definition alice_worker : Worker :=
  Worker_new (obs_reset 1) EndpointHealthTable_default (Some (SA4 (ip4 198 51 100 4) 5000)).
Definition scan_plan : TickPlan := mkTickPlan 1 None false true true [] [].
Definition from_relay : Arrival := mkArrival sample_remote false false false.
Definition ack_packet : bytes := RELAY_MAGIC ++ [RELAY_REGISTER_ACK_SIGNED; 66].
Definition identity_packet : bytes := RELAY_MAGIC ++ [RELAY_PEER_IDENTITY; 55].
Definition run_worker (env : WorkerEnv) (input : WorkerInput) (k : Worker) : Worker * list Effect :=
  default (k, []) (unwrap (worker_step env input k) None).
Definition alice_registering : Worker * list Effect :=
  run_worker (alice_worker_env 150) (Tick scan_plan) alice_worker.
Definition alice_acknowledged : Worker * list Effect :=
  run_worker (alice_worker_env 151) (Datagram from_relay ack_packet) alice_registering.1.
Definition alice_introduced : Worker * list Effect :=
  run_worker (alice_worker_env 152) (Datagram from_relay identity_packet) alice_acknowledged.1.
Example sample_worker_run :
  (ltx_issued_at <$> wk_relay alice_registering.1 !! sample_nonce) = Some (secs 150)
  ∧ relay_is_healthy (wk_health alice_acknowledged.1) net_a sample_remote (secs 152) = true
  ∧ (route_assigned_addresses <$> st_peers (wk_tables alice_introduced.1) !! (net_a, bob))
    = Some [addr 3].
Proof. vm_decide. Qed.
Lemma run_worker_step env input k :
  (match worker_step env input k with Ok (Some _) => true | _ => false end) = true →
  worker_step env input k = Ok (Some ((run_worker env input k).1, (run_worker env input k).2)).
Proof. unfold run_worker. by destruct (worker_step env input k) as [[[]|]|]. Qed.
Lemma alice_registering_step :
  worker_step (alice_worker_env 150) (Tick scan_plan) alice_worker
  = Ok (Some (alice_registering.1, alice_registering.2)).
Proof. apply run_worker_step. vm_decide. Qed.
Lemma alice_acknowledged_step :
  worker_step (alice_worker_env 151) (Datagram from_relay ack_packet) alice_registering.1
  = Ok (Some (alice_acknowledged.1, alice_acknowledged.2)).
Proof. apply run_worker_step. vm_decide. Qed.
Lemma alice_introduced_step :
  worker_step (alice_worker_env 152) (Datagram from_relay identity_packet) alice_acknowledged.1
  = Ok (Some (alice_introduced.1, alice_introduced.2)).
Proof. apply run_worker_step. vm_decide. Qed.
