(* ===== verification/FileFacts.v ===== *)
(** * Running file operations: what holds after each, whatever calls fail *)
From S2P Require Import Prelude Request Text Ext FileSystem StateProtection StateFile.
From Stdlib Require Import Ascii.
#[local] Open Scope Z_scope.

(** ** Outcomes *)
(** From [P], the operation ends well in [Q] or with an error in [X]. *)
Definition ensures {E A} (P : FileSystem → Prop) (m : handler FileSystem E A)
    (Q : A → FileSystem → Prop) (X : FileSystem → Prop) : Prop :=
  ∀ s r s', P s → m s = (r, s') → match r with Ok a => Q a s' | Err _ => X s' end.
Section outcomes.
Context {E : Type}.
Implicit Types (P X : FileSystem → Prop).
Lemma ensures_bind {A B} (m : handler FileSystem E A) (f : A → handler FileSystem E B) P Q R X :
  ensures P m Q X → (∀ a, ensures (Q a) (f a) R X) → ensures P (m ≫= f) R X.
Proof.
  intros Hm Hf s r s' HP Hr. unfold mbind, handler_bind in Hr.
  destruct (m s) as [[a|e] s1] eqn:E1; pose proof (Hm _ _ _ HP E1) as H1.
  - exact (Hf a _ _ _ H1 Hr).
  - by injection Hr as <- <-.
Qed.
Lemma ensures_mret {A} (a : A) P X : ensures P (mret a : handler FileSystem E A) (λ b s, b = a ∧ P s) X.
Proof. by intros s r s' HP [= <- <-]. Qed.
Lemma ensures_read P X : ensures P (read : handler FileSystem E FileSystem) (λ s0 s, s0 = s ∧ P s) X.
Proof. by intros s r s' HP [= <- <-]. Qed.
Lemma ensures_lift {A} (x : result E A) P X :
  (∀ s, P s → X s) → ensures P (lift x) (λ a s, x = Ok a ∧ P s) X.
Proof. intros HX s r s' HP [= <- <-]. destruct x; auto. Qed.
Lemma ensures_attempt {F A} (m : handler FileSystem F A) P Q X X' :
  ensures P m Q X →
  ensures P (attempt m : handler FileSystem E (result F A))
    (λ r s, match r with Ok a => Q a s | Err _ => X s end) X'.
Proof.
  intros Hm s r s' HP Hr. unfold attempt in Hr. destruct (m s) as [r1 s1] eqn:E1.
  injection Hr as <- <-. exact (Hm _ _ _ HP E1).
Qed.
Lemma ensures_weaken {A} (m : handler FileSystem E A) P P' Q Q' X X' :
  ensures P m Q X → (∀ s, P' s → P s) → (∀ a s, Q a s → Q' a s) → (∀ s, X s → X' s) →
  ensures P' m Q' X'.
Proof. intros Hm HP HQ HX s r s' H' Hr. specialize (Hm s r s' (HP _ H') Hr). destruct r; auto. Qed.
Lemma ensures_convert {F A} (f : F → E) (m : handler FileSystem F A) P Q X :
  ensures P m Q X → ensures P (convert f m) Q X.
Proof.
  intros Hm s r s' HP Hr. unfold convert, mbind, handler_bind, attempt, lift in Hr.
  destruct (m s) as [r1 s1] eqn:E1. specialize (Hm _ _ _ HP E1). destruct r1; by injection Hr as <- <-.
Qed.
End outcomes.

(** ** Operations that only look *)
Definition only_calls {E A} (m : handler FileSystem E A) : Prop :=
  ∀ s r s', m s = (r, s') → ∃ n, s' = with_calls s n.
(** A property of the names and the files. *)
Definition blind (P : FileSystem → Prop) : Prop := ∀ s n, P s → P (with_calls s n).
Lemma only_calls_bind {E A B} (m : handler FileSystem E A) (f : A → handler FileSystem E B) :
  only_calls m → (∀ a, only_calls (f a)) → only_calls (m ≫= f).
Proof.
  intros Hm Hf s r s' Hr. unfold mbind, handler_bind in Hr.
  destruct (m s) as [[a|e] s1] eqn:E1; apply Hm in E1 as [n ->].
  - apply Hf in Hr as [k ->]. by exists k.
  - injection Hr as <- <-. by exists n.
Qed.
Lemma only_calls_refl s : s = with_calls s (fs_calls s).
Proof. by destruct s. Qed.
Lemma only_calls_pure {E A} (f : FileSystem → result E A) : only_calls (λ s, (f s, s)).
Proof. intros s r s' [= <- <-]. exists (fs_calls s). apply only_calls_refl. Qed.
Lemma only_calls_attempt {E F A} (m : handler FileSystem F A) :
  only_calls m → only_calls (attempt m : handler FileSystem E _).
Proof.
  intros Hm s r s' Hr. unfold attempt in Hr. destruct (m s) as [r1 s1] eqn:E1.
  injection Hr as <- <-. by eapply Hm.
Qed.
Lemma only_calls_syscall {A} kn (body : io A) : only_calls body → only_calls (syscall kn body).
Proof.
  intros Hb s r s' Hr. unfold syscall in Hr. destruct (kn_fails kn (fs_calls s)).
  - injection Hr as <- <-. by exists (S (fs_calls s)).
  - apply Hb in Hr as [n ->]. by exists n.
Qed.
Lemma only_calls_convert {E F A} (f : F → E) (m : handler FileSystem F A) :
  only_calls m → only_calls (convert f m).
Proof.
  intros Hm. unfold convert. apply only_calls_bind; [by apply only_calls_attempt|].
  intros a. apply (only_calls_pure (λ _, map_err f a)).
Qed.
Create HintDb looks.
#[export] Hint Resolve only_calls_bind only_calls_attempt only_calls_syscall only_calls_convert : looks.
Lemma only_calls_lift {E A} (x : result E A) : only_calls (lift x).
Proof. apply (only_calls_pure (λ _, x)). Qed.
Lemma only_calls_mret {E A} (x : A) : only_calls (mret x : handler FileSystem E A).
Proof. apply (only_calls_pure (λ _, Ok x)). Qed.
Lemma only_calls_read {E} : only_calls (read : handler FileSystem E FileSystem).
Proof. apply (only_calls_pure (λ s, Ok s)). Qed.
#[export] Hint Resolve only_calls_lift only_calls_mret only_calls_read : looks.
(** Peeling an operation, and the cases of its matches. *)
Ltac looks :=
  repeat first
    [ progress intros
    | apply only_calls_bind | apply only_calls_attempt | apply only_calls_syscall
    | apply only_calls_convert | apply only_calls_lift | apply only_calls_mret
    | apply only_calls_read | solve [eauto with looks]
    | match goal with |- only_calls (match ?x with _ => _ end) => destruct x end ].

Section looking.
Context (kn : Kernel).
Lemma stat_looks follow path : only_calls (stat kn follow path).
Proof. unfold stat. looks. Qed.
Lemma symlink_metadata_looks path : only_calls (symlink_metadata kn path).
Proof. apply stat_looks. Qed.
Lemma path_exists_looks {E} path : only_calls (path_exists kn path : handler FileSystem E bool).
Proof. unfold path_exists, metadata. pose proof (stat_looks true path). looks. Qed.
Lemma is_dir_looks {E} path : only_calls (is_dir kn path : handler FileSystem E bool).
Proof. unfold is_dir, metadata. pose proof (stat_looks true path). looks. Qed.
Lemma open_nofollow_looks path : only_calls (open_nofollow kn path).
Proof. unfold open_nofollow. looks. Qed.
Lemma open_file_looks path : only_calls (open_file kn path).
Proof. unfold open_file. looks. Qed.
Lemma handle_metadata_looks h : only_calls (handle_metadata kn h).
Proof. unfold handle_metadata. looks. Qed.
Lemma handle_inode_looks h : only_calls (handle_inode h).
Proof. unfold handle_inode. looks. Qed.
Lemma read_up_to_looks h n : only_calls (read_up_to kn h n).
Proof. unfold read_up_to. pose proof (handle_inode_looks h). looks. Qed.
Lemma reject_links_looks current rest : only_calls (reject_links kn current rest).
Proof.
  revert current. induction rest as [|c rest IH]; intros current; cbn; [looks|].
  pose proof (symlink_metadata_looks (current ++ [c])). destruct c; looks; apply IH.
Qed.
Lemma reject_symlink_path_looks path : only_calls (reject_symlink_path kn path).
Proof. unfold reject_symlink_path. pose proof (reject_links_looks [] (components path)). looks. Qed.
Lemma verify_open_looks h : only_calls (verify_open_regular_state_file kn h).
Proof. unfold verify_open_regular_state_file, io_failed. pose proof (handle_metadata_looks h). looks. Qed.
Lemma read_open_looks h m n : only_calls (read_open_state_file kn h m n).
Proof. unfold read_open_state_file, io_failed. pose proof (read_up_to_looks h (n + 1)). looks. Qed.
End looking.
Lemma ensures_looks {E A} (m : handler FileSystem E A) P (X : FileSystem → Prop) :
  only_calls m → blind P → (∀ s, P s → X s) → ensures P m (λ _, P) X.
Proof. intros Hm Hb HX s r s' HP Hr. apply Hm in Hr as [n ->]. destruct r; auto. Qed.

(** ** Absolute paths without links *)
Definition is_link (e : option Entry) : bool := match e with Some (Symlink _) => true | _ => false end.
Lemma walk_cons links names follow at_ c rest :
  walk links names follow at_ (c :: rest)
  = match c with
    | RootDir => walk links names follow [] rest
    | CurDir => walk links names follow at_ rest
    | ParentDir => walk links names follow (removelast at_) rest
    | Normal name =>
        let next := at_ ++ [name] in
        match names !! next with
        | Some (Symlink target) =>
            if negb follow && is_empty rest then Ok next else
            match links with
            | O => Err FilesystemLoop
            | S links => walk links names follow at_ (components target ++ rest)
            end
        | Some Directory => walk links names follow next rest
        | Some (Regular _) => if is_empty rest then Ok next else Err NotADirectory
        | None => if is_empty rest then Ok next else Err NotFound
        end
    end.
Proof. by destruct links, c. Qed.
Lemma walk_nil links names follow at_ : walk links names follow at_ [] = Ok at_.
Proof. by destruct links. Qed.
(** Where a walk over plain names ends, and what it went through. *)
Lemma walk_names links names follow pre at_ l :
  (∀ k, (0 < k < length at_)%nat → is_link (names !! (pre ++ take k at_)) = false) →
  (follow = true → at_ ≠ [] → is_link (names !! (pre ++ at_)) = false) →
  walk links names follow pre (map Normal at_) = Ok l →
  l = pre ++ at_
  ∧ ∀ k, (0 < k < length at_)%nat → names !! (pre ++ take k at_) = Some Directory.
Proof.
  revert pre. induction at_ as [|x rest IH]; intros pre Hlinks Hlast Hw.
  { rewrite walk_nil in Hw. injection Hw as <-. rewrite app_nil_r. split; [done|]. cbn. lia. }
  cbn [map] in Hw. rewrite walk_cons in Hw. cbv zeta in Hw.
  assert (rest = [] ∧ l = pre ++ [x] ∨ names !! (pre ++ [x]) = Some Directory
    ∧ walk links names follow (pre ++ [x]) (map Normal rest) = Ok l) as [[-> ->]|[Hd Hrest]].
  { destruct (names !! (pre ++ [x])) as [[|target|i]|] eqn:He.
    - by right.
    - destruct rest as [|y rest].
      + destruct follow; [|left; by injection Hw as <-].
        specialize (Hlast eq_refl ltac:(done)). by rewrite He in Hlast.
      + specialize (Hlinks 1%nat ltac:(cbn; lia)). cbn in Hlinks. by rewrite He in Hlinks.
    - left. destruct rest; [by injection Hw as <-|done].
    - left. destruct rest; [by injection Hw as <-|done]. }
  { split; [done|]. cbn. lia. }
  apply IH in Hrest as [-> Hdirs].
  - rewrite <-(assoc_L (++)). split; [done|]. intros [|[|k]] Hk; [lia|done|].
    specialize (Hdirs (S k)). rewrite <-(assoc_L (++)) in Hdirs. apply Hdirs. cbn in Hk. lia.
  - intros k Hk. specialize (Hlinks (S k)). rewrite <-(assoc_L (++)). apply Hlinks. cbn. lia.
  - intros Hf Hne. rewrite <-(assoc_L (++)). by apply Hlast.
Qed.
Definition absolute (at_ : location) : list Component := RootDir :: map Normal at_.
Lemma resolve_absolute kn s follow at_ l :
  (∀ k, (0 < k < length at_)%nat → is_link (fs_names s !! take k at_) = false) →
  (follow = true → at_ ≠ [] → is_link (fs_names s !! at_) = false) →
  resolve kn s follow (absolute at_) = Ok l →
  l = at_ ∧ ∀ k, (0 < k < length at_)%nat → fs_names s !! take k at_ = Some Directory.
Proof.
  intros Hl Hf Hr.
  change (walk MAX_LINKS (fs_names s) follow (kn_cwd kn) (RootDir :: map Normal at_) = Ok l) in Hr.
  rewrite walk_cons in Hr. by apply (walk_names _ _ _ []) in Hr.
Qed.

(** ** The text of a path *)
Definition plain_name (name : string) : Prop :=
  component_of name = Some (Normal name) ∧ str_contains "/" name = false.
Definition text_of (at_ : location) : string := ("/" ++ String.concat "/" at_)%string.
Lemma str_contains_cons c a s :
  str_contains c (String a s) = false ↔ a ≠ c ∧ str_contains c s = false.
Proof.
  unfold str_contains, any_byte. cbn. rewrite negb_andb, negb_involutive, orb_false_iff, Z.eqb_neq.
  split; intros [Ha Hs]; (split; [|done]).
  - by intros ->.
  - intros Hb. by apply byte_of_inj in Hb.
Qed.
Lemma str_contains_app c s t :
  str_contains c (s ++ t)%string = false ↔ str_contains c s = false ∧ str_contains c t = false.
Proof.
  induction s as [|a s IH].
  - split; [by split|by intros [_ ?]].
  - change (String a s ++ t)%string with (String a (s ++ t)). rewrite !str_contains_cons, IH. tauto.
Qed.
Lemma split_on_plain c s : str_contains c s = false → split_on c s = [s].
Proof.
  induction s as [|a s IH]; [done|]. intros [Ha Hs]%str_contains_cons. cbn [split_on].
  rewrite decide_False by done. by rewrite IH.
Qed.
Lemma split_on_app c s t : str_contains c s = false → split_on c (s ++ String c t)%string = s :: split_on c t.
Proof.
  induction s as [|a s IH].
  - intros _. change (split_on c ("" ++ String c t)) with (split_on c (String c t)).
    cbn [split_on]. by rewrite decide_True.
  - change (String a s ++ String c t)%string with (String a (s ++ String c t)). cbn [split_on].
    intros [Ha Hs]%str_contains_cons. rewrite decide_False by done. by rewrite IH.
Qed.
Lemma split_on_concat at_ : at_ ≠ [] → Forall plain_name at_ → split_on "/" (String.concat "/" at_) = at_.
Proof.
  intros Hne Hp. induction Hp as [|x at_ [_ Hx] Hp IH]; [done|]. destruct at_ as [|y at_].
  - by apply split_on_plain.
  - change (String.concat "/" (x :: y :: at_)) with (x ++ String "/" (String.concat "/" (y :: at_)))%string.
    rewrite split_on_app by done. by rewrite IH.
Qed.
Lemma components_text at_ : at_ ≠ [] → Forall plain_name at_ → components (text_of at_) = absolute at_.
Proof.
  intros Hne Hp. unfold components, text_of, absolute.
  change (starts_with "/" ("/" ++ String.concat "/" at_)) with true. cbn iota.
  change (split_on "/" ("/" ++ String.concat "/" at_)) with (split_on "/" (String "/" (String.concat "/" at_))). f_equal. cbn [split_on]. rewrite decide_True by done.
  rewrite split_on_concat by done. change (omap component_of at_ = map Normal at_). clear Hne.
  induction Hp as [|x at_ [Hx _] Hp IH]; [done|].
  change (omap component_of (x :: at_)) with
    (match component_of x with Some y => y :: omap component_of at_ | None => omap component_of at_ end).
  by rewrite Hx, IH.
Qed.
Lemma concat_suffix dirs name suffix :
  (String.concat "/" (dirs ++ [name]) ++ suffix)%string
  = String.concat "/" (dirs ++ [(name ++ suffix)%string]).
Proof.
  induction dirs as [|x [|y dirs] IH]; [done| |].
  - change (String.concat "/" ([x] ++ [name])) with (x ++ ("/" ++ name))%string.
    by rewrite append_assoc.
  - change (String.concat "/" ((x :: y :: dirs) ++ [name]))
      with (x ++ ("/" ++ String.concat "/" ((y :: dirs) ++ [name])))%string.
    rewrite !append_assoc, IH. done.
Qed.
Lemma text_suffix dirs name suffix :
  suffixed_path (text_of (dirs ++ [name])) suffix = text_of (dirs ++ [(name ++ suffix)%string]).
Proof. unfold suffixed_path, text_of. rewrite append_assoc. by rewrite concat_suffix. Qed.
Lemma append_length (s t : string) :
  String.length (s ++ t)%string = (String.length s + String.length t)%nat.
Proof. induction s as [|a s IH]; [done|]. change (S (String.length (s ++ t)) = S (String.length s + String.length t))%string. by rewrite IH. Qed.
Lemma plain_suffix name suffix :
  plain_name name → (3 ≤ String.length suffix)%nat → str_contains "/" suffix = false →
  plain_name (name ++ suffix)%string.
Proof.
  intros [_ Hn] Hl Hs. split; [|by apply str_contains_app].
  pose proof (append_length name suffix) as Hlen. unfold component_of.
  rewrite !bool_decide_false; [done|..]; intros Heq; rewrite Heq in Hlen; cbn in Hlen; lia.
Qed.
Lemma suffix_other name suffix : (0 < String.length suffix)%nat → (name ++ suffix)%string ≠ name.
Proof. intros Hl Heq. pose proof (append_length name suffix) as Hlen. rewrite Heq in Hlen. lia. Qed.
Lemma parent_absolute dirs name : state_parent (absolute (dirs ++ [name])) = absolute dirs.
Proof.
  unfold state_parent, path_parent, absolute. rewrite map_app. cbn [map].
  change (RootDir :: map Normal dirs ++ [Normal name]) with ((RootDir :: map Normal dirs) ++ [Normal name]).
  by rewrite last_snoc, removelast_last.
Qed.

(** ** What holds after each call, whatever calls fail *)
Lemma ensures_syscall {A} kn (body : io A) P Q X :
  blind P → (∀ s, P s → X s) → ensures P body Q X → ensures P (syscall kn body) Q X.
Proof.
  intros Hb HX Hbody s r s' HP Hr. unfold syscall in Hr. destruct (kn_fails kn (fs_calls s)).
  - injection Hr as <- <-. by apply HX, Hb.
  - eapply Hbody; [|exact Hr]. by apply Hb.
Qed.
(** Insensitive to modes. *)
Definition mode_blind (P : FileSystem → Prop) : Prop :=
  ∀ s i m, P s → P (with_inodes s (alter (with_mode m) i (fs_inodes s))).

Section specs.
Context (kn : Kernel) (dirs : location) (W : list location).
(** The names of interest are those of files in the directory. *)
Context (HW : ∀ at_, at_ ∈ W → length at_ = S (length dirs)).

Definition steady (watched : namespace → Prop) : Prop :=
  ∀ names at_, at_ ∉ W → watched names →
  (∀ e, watched (<[at_ := e]> names)) ∧ watched (delete at_ names).
Definition unlinked (names : namespace) : Prop :=
  ∀ k, take k dirs ≠ [] → is_link (names !! take k dirs) = false.
Definition keeps (keep : gmap nat (list Z)) (s : FileSystem) : Prop :=
  ∀ i bs, keep !! i = Some bs →
  (i < fs_next s)%nat
  ∧ ∃ n, fs_inodes s !! i = Some n ∧ in_flushed n = true ∧ in_bytes n = bs.
Record invariant (watched : namespace → Prop) (keep : gmap nat (list Z)) (s : FileSystem) : Prop := {
  inv_watched names : names ∈ fs_names s :: fs_pending s → watched names;
  inv_unlinked : unlinked (fs_names s);
  inv_keeps : keeps keep s;
}.
(** A new file, under a name that is not of interest. *)
Record staged (watched : namespace → Prop) (keep : gmap nat (list Z)) (temporary : location)
    (it : nat) (bs : list Z) (on_disk : bool) (s : FileSystem) : Prop := {
  st_invariant : invariant watched keep s;
  st_name : fs_names s !! temporary = Some (Regular it);
  st_new : (it < fs_next s)%nat ∧ keep !! it = None;
  st_file : ∃ n, fs_inodes s !! it = Some n ∧ in_bytes n = bs ∧ in_flushed n = on_disk;
  st_directory : entry_at (fs_names s) dirs = Some Directory;
}.

Lemma invariant_blind watched keep : blind (invariant watched keep).
Proof. by intros s n []. Qed.
Lemma staged_blind watched keep t it bs b : blind (staged watched keep t it bs b).
Proof. intros s n [Hi]. split; try done. by apply invariant_blind. Qed.
Lemma keeps_alter keep s i f :
  (∀ n, in_flushed (f n) = in_flushed n ∧ in_bytes (f n) = in_bytes n) →
  keeps keep s → keeps keep (with_inodes s (alter f i (fs_inodes s))).
Proof.
  intros Hf Hk j bs Hj. destruct (Hk j bs Hj) as (Hlt & n & Hn & Hfl & Hb). split; [done|]. cbn.
  destruct (decide (i = j)) as [->|Hne].
  - exists (f n). rewrite lookup_alter_eq, Hn. destruct (Hf n) as [-> ->]. done.
  - exists n. by rewrite lookup_alter_ne.
Qed.
Lemma keeps_alter_other keep s i f :
  keep !! i = None → keeps keep s → keeps keep (with_inodes s (alter f i (fs_inodes s))).
Proof.
  intros Hi Hk j bs Hj. destruct (Hk j bs Hj) as (Hlt & n & Hn & Hfl & Hb). split; [done|]. cbn.
  exists n. rewrite lookup_alter_ne; [done|]. intros ->. by rewrite Hi in Hj.
Qed.
Lemma invariant_mode_blind watched keep : mode_blind (invariant watched keep).
Proof. intros s i m [Hw Hu Hk]. split; [done..|]. by apply keeps_alter. Qed.
Lemma staged_mode_blind watched keep t it bs b : mode_blind (staged watched keep t it bs b).
Proof.
  intros s i m [Hi Hn Hnew (n & Hf & Hb & Hfl) Hd]. split; [by apply invariant_mode_blind|done|done| |done].
  cbn. destruct (decide (i = it)) as [->|Hne].
  - exists (with_mode m n). by rewrite lookup_alter_eq, Hf.
  - exists n. by rewrite lookup_alter_ne.
Qed.

(** ** Names in the directory and above *)
Lemma take_nonempty {A} k (l : list A) : (0 < k)%nat → l ≠ [] → take k l ≠ [].
Proof. by destruct k, l; [lia|lia|..]. Qed.
Lemma resolve_directory s follow j at_ :
  unlinked (fs_names s) → resolve kn s follow (absolute (take j dirs)) = Ok at_ → at_ = take j dirs.
Proof.
  intros Hu Hr. apply resolve_absolute in Hr as [-> _]; [done|..].
  - intros k Hk. rewrite take_take. apply Hu. rewrite <-take_take.
    apply take_nonempty; [lia|]. intros Hnil. rewrite Hnil in Hk. cbn in Hk. lia.
  - intros _ Hne. by apply Hu.
Qed.
Lemma take_file k x : (k < length (dirs ++ [x : string]))%nat → take k (dirs ++ [x]) = take k dirs.
Proof. rewrite length_app. cbn. intros Hk. rewrite take_app_le by lia. done. Qed.
Lemma resolve_file s x at_ :
  unlinked (fs_names s) → resolve kn s false (absolute (dirs ++ [x])) = Ok at_ →
  at_ = dirs ++ [x] ∧ entry_at (fs_names s) dirs = Some Directory.
Proof.
  clear HW. intros Hu Hr. apply resolve_absolute in Hr as [-> Hd]; [|intros k Hk|done].
  2: { rewrite take_file by lia. apply Hu. apply take_nonempty; [lia|]. intros ->. cbn in Hk. lia. }
  split; [done|]. destruct dirs as [|d ds] eqn:E; [done|]. rewrite <-E in *.
  specialize (Hd (length dirs)). rewrite length_app, take_app_length in Hd. cbn in Hd.
  rewrite E in *. cbn. apply Hd. cbn. lia.
Qed.
Lemma file_at_nonempty x names : entry_at names (dirs ++ [x]) = names !! (dirs ++ [x]).
Proof. clear HW. by destruct dirs. Qed.
Lemma unlinked_insert names at_ e :
  is_link (Some e) = false → unlinked names → unlinked (<[at_ := e]> names).
Proof.
  intros He Hu k Hk. destruct (decide (at_ = take k dirs)) as [->|Hne].
  - by rewrite lookup_insert_eq.
  - rewrite lookup_insert_ne by done. by apply Hu.
Qed.
Lemma unlinked_delete names at_ : unlinked names → unlinked (delete at_ names).
Proof.
  intros Hu k Hk. destruct (decide (at_ = take k dirs)) as [->|Hne].
  - by rewrite lookup_delete_eq.
  - rewrite lookup_delete_ne by done. by apply Hu.
Qed.
Lemma directory_not_watched k : take k dirs ∉ W.
Proof. intros Hin%HW. rewrite length_take in Hin. lia. Qed.
Lemma invariant_insert watched keep s at_ e :
  steady watched → at_ ∉ W → is_link (Some e) = false → invariant watched keep s →
  invariant watched keep (with_names s (<[at_ := e]> (fs_names s))).
Proof.
  intros Hst Hat He [Hw Hu Hk]. split; [|by apply unlinked_insert|done].
  intros names [->|Hin]%elem_of_cons; [|by apply Hw]. apply Hst; [done|]. apply Hw, list_elem_of_here.
Qed.
Lemma invariant_delete watched keep s at_ :
  steady watched → at_ ∉ W → invariant watched keep s →
  invariant watched keep (with_names s (delete at_ (fs_names s))).
Proof.
  intros Hst Hat [Hw Hu Hk]. split; [|by apply unlinked_delete|done].
  intros names [->|Hin]%elem_of_cons; [|by apply Hw]. apply Hst; [done|]. apply Hw, list_elem_of_here.
Qed.

(** ** Creating directories *)
Lemma create_dir_ensures watched keep j :
  steady watched →
  ensures (invariant watched keep) (create_dir kn (absolute (take j dirs)))
    (λ _, invariant watched keep) (invariant watched keep).
Proof.
  intros Hst. apply ensures_syscall; [apply invariant_blind|done|].
  intros s r s' Hi Hr. cbv [mbind handler_bind read lift] in Hr.
  destruct (resolve _ _ _ _) as [at_|e] eqn:Hres; [|by injection Hr as <- <-].
  apply resolve_directory in Hres; [|apply Hi]. subst at_.
  destruct (entry_at _ _); injection Hr as <- <-; [done|].
  apply invariant_insert; [done|apply directory_not_watched|done|done].
Qed.
Lemma path_parent_absolute j p :
  path_parent (absolute (take j dirs)) = Some p → ∃ k, p = absolute (take k dirs).
Proof.
  unfold path_parent, absolute. destruct (decide (take j dirs = [])) as [->|Hne]; [done|].
  destruct (exists_last Hne) as (init & x & Heq). rewrite Heq, map_app. cbn [map].
  change (RootDir :: map Normal init ++ [Normal x]) with ((RootDir :: map Normal init) ++ [Normal x]).
  rewrite last_snoc, removelast_last. intros [= <-]. exists (length init).
  unfold absolute. do 2 f_equal.
  assert (init = take (length init) (take j dirs)) as Hinit
    by (rewrite Heq, take_app_length; done).
  rewrite Hinit at 1. rewrite take_take. f_equal.
  apply (f_equal length) in Heq. rewrite length_app, length_take in Heq. cbn in Heq. lia.
Qed.
Lemma is_dir_ensures {E} P (X : FileSystem → Prop) path :
  blind P → (∀ s, P s → X s) →
  ensures P (is_dir kn path : handler FileSystem E bool) (λ _, P) X.
Proof. intros. by apply ensures_looks; [apply is_dir_looks|..]. Qed.
Lemma accept_directory watched keep path e :
  ensures (invariant watched keep)
    (directory ← is_dir kn path; if (directory : bool) then mret tt else lift (Err e) : io unit)
    (λ _, invariant watched keep) (invariant watched keep).
Proof.
  eapply ensures_bind; [by apply is_dir_ensures; [apply invariant_blind|]|].
  intros [|] s r s' Hi [= <- <-]; done.
Qed.
Lemma create_dir_all_ensures watched keep j :
  steady watched →
  ensures (invariant watched keep) (create_dir_all kn (absolute (take j dirs)))
    (λ _, invariant watched keep) (invariant watched keep).
Proof.
  intros Hst. unfold create_dir_all. generalize (length (absolute (take j dirs))). intros fuel.
  revert j. induction fuel as [|fuel IH]; intros j; cbn [create_dir_all_fuel absolute];
    fold (absolute (take j dirs));
    (eapply ensures_bind; [eapply ensures_attempt, create_dir_ensures; exact Hst|]);
    intros [u|e]; try (intros s r s' Hi [= <- <-]; exact Hi);
    destruct e; try apply accept_directory.
  - intros s r s' Hi [= <- <-]. done.
  - destruct (path_parent _) as [p|] eqn:Hp; [|intros s r s' Hi [= <- <-]; done].
    apply path_parent_absolute in Hp as [k ->].
    eapply ensures_bind; [apply IH|]. intros ?. unfold create_or_accept.
    eapply ensures_bind; [eapply ensures_attempt, create_dir_ensures; exact Hst|].
    intros [u|e]; [intros s r s' Hi [= <- <-]; exact Hi|apply accept_directory].
Qed.

(** ** A new file *)
Lemma create_new_ensures watched keep mode x :
  steady watched → dirs ++ [x] ∉ W →
  ensures (invariant watched keep) (create_new kn mode (absolute (dirs ++ [x])))
    (λ h s, ∃ it, h = FileHandle it ∧ staged watched keep (dirs ++ [x]) it [] false s)
    (invariant watched keep).
Proof.
  intros Hst Hx. apply ensures_syscall; [apply invariant_blind|done|].
  intros s r s' Hi Hr. cbv [mbind handler_bind read lift] in Hr.
  destruct (resolve _ _ _ _) as [at_|e] eqn:Hres; [|by injection Hr as <- <-].
  apply resolve_file in Hres as [-> Hd]; [|apply Hi]. rewrite file_at_nonempty in Hr.
  destruct (fs_names s !! (dirs ++ [x])) eqn:Hold; injection Hr as <- <-; [done|].
  exists (fs_next s). split; [done|].
  assert (keep !! fs_next s = None) as Hnew.
  { destruct (keep !! fs_next s) as [bs|] eqn:Hk; [|done].
    apply (inv_keeps _ _ _ Hi) in Hk as [Hlt _]. lia. }
  split; cbn.
  - destruct (invariant_insert watched keep s (dirs ++ [x]) (Regular (fs_next s)) Hst Hx eq_refl Hi)
      as [Hw Hu _].
    split; [done|done|]. intros i bs Hk. destruct (inv_keeps _ _ _ Hi i bs Hk) as (Hlt & n & Hn & Hf).
    split; [cbn; lia|]. exists n. cbn. by rewrite lookup_insert_ne by lia.
  - by rewrite lookup_insert_eq.
  - split; [lia|done].
  - eexists. by rewrite lookup_insert_eq.
  - destruct dirs as [|d ds]; [done|]. cbn [entry_at]. rewrite lookup_insert_ne; [done|].
    intros Heq. apply (f_equal length) in Heq. rewrite length_app in Heq. cbn in Heq. lia.
Qed.
Lemma set_mode_ensures P path mode :
  blind P → mode_blind P → ensures P (set_mode kn path mode) (λ _, P) P.
Proof.
  intros Hb Hm. apply ensures_syscall; [done|done|].
  intros s r s' HP Hr. cbv [mbind handler_bind read lift] in Hr.
  destruct (resolve _ _ _ _) as [at_|e]; [|by injection Hr as <- <-].
  destruct (entry_at _ _) as [[|t|i]|]; injection Hr as <- <-; auto.
Qed.
Lemma restrict_ensures P path :
  blind P → mode_blind P → ensures P (restrict_state_file_permissions kn path) (λ _, P) P.
Proof.
  intros Hb Hm. eapply ensures_bind; [by apply ensures_looks; [apply reject_symlink_path_looks|..]|].
  intros ?. by apply ensures_convert, set_mode_ensures.
Qed.
Lemma staged_file watched keep t it bs b s n :
  staged watched keep t it bs b s → fs_inodes s !! it = Some n →
  in_bytes n = bs ∧ in_flushed n = b.
Proof. intros [_ _ _ (n' & Hn & ?) _] Hn'. by simplify_eq. Qed.
Lemma staged_alter watched keep t it bs b bs' b' f s :
  (∀ n, in_bytes n = bs → in_flushed n = b → in_bytes (f n) = bs' ∧ in_flushed (f n) = b') →
  staged watched keep t it bs b s →
  staged watched keep t it bs' b' (with_inodes s (alter f it (fs_inodes s))).
Proof.
  intros Hf [[Hw Hu Hk] Hn [Hlt Hnew] (n & Hfile & Hb & Hfl) Hd]. split; [|done|done| |done].
  - split; [done|done|]. by apply keeps_alter_other.
  - exists (f n). cbn. rewrite lookup_alter_eq, Hfile. by destruct (Hf n Hb Hfl) as [-> ->].
Qed.
Lemma write_all_ensures watched keep t it bs :
  ensures (staged watched keep t it [] false) (write_all kn (FileHandle it) bs)
    (λ _, staged watched keep t it bs false) (invariant watched keep).
Proof.
  intros s r s' Hs Hr. unfold write_all in Hr. set (s1 := with_calls s (S (fs_calls s))) in Hr.
  assert (staged watched keep t it [] false s1) as Hs1 by by apply staged_blind.
  destruct (st_file _ _ _ _ _ _ _ Hs1) as (n & Hn & _ & _).
  assert (∀ c, staged watched keep t it c false
    (with_inodes s1 (alter (append_bytes c) it (fs_inodes s1)))) as Hwritten.
  { intros c. eapply staged_alter; [|exact Hs1]. intros m Hm Hfl. cbn. by rewrite Hm. }
  cbv [mbind handler_bind read lift handle_inode update_inode write] in Hr. rewrite Hn in Hr.
  destruct (kn_fails kn (fs_calls s)); injection Hr as <- <-.
  - by destruct (Hwritten (take (kn_written kn (fs_calls s)) bs)).
  - apply Hwritten.
Qed.
Lemma sync_file_ensures watched keep t it bs :
  ensures (staged watched keep t it bs false) (sync_all kn (FileHandle it))
    (λ _, staged watched keep t it bs true) (invariant watched keep).
Proof.
  apply ensures_syscall; [apply staged_blind|by intros s []|].
  intros s r s' Hs [= <- <-]. eapply staged_alter; [|exact Hs]. by intros n Hn _.
Qed.
Lemma remove_file_ensures watched keep x :
  steady watched → dirs ++ [x] ∉ W →
  ensures (invariant watched keep) (remove_file kn (absolute (dirs ++ [x])))
    (λ _, invariant watched keep) (invariant watched keep).
Proof.
  intros Hst Hx. apply ensures_syscall; [apply invariant_blind|done|].
  intros s r s' Hi Hr. cbv [mbind handler_bind read lift] in Hr.
  destruct (resolve _ _ _ _) as [at_|e] eqn:Hres; [|by injection Hr as <- <-].
  apply resolve_file in Hres as [-> _]; [|apply Hi].
  destruct (entry_at _ _) as [[]|]; injection Hr as <- <-; try done; by apply invariant_delete.
Qed.
End specs.
