(* ===== verification/StateFileFacts.v ===== *)
(** * State files survive failures and crashes *)
From S2P Require Import Prelude Request Text Ext FileSystem StateProtection StateFile FileFacts.
From Stdlib Require Import Ascii.
#[local] Open Scope Z_scope.

(** What a name stands for: the bytes of its file. *)
Definition content (s : FileSystem) (at_ : location) : option (list Z) :=
  match fs_names s !! at_ with
  | Some (Regular i) => in_bytes <$> fs_inodes s !! i
  | _ => None
  end.
(** Everything about the name is on stable storage. *)
Definition settled (s : FileSystem) (at_ : location) : Prop :=
  fs_pending s = []
  ∧ ∀ i, fs_names s !! at_ = Some (Regular i) →
    (i < fs_next s)%nat ∧ ∃ n, fs_inodes s !! i = Some n ∧ in_flushed n = true.

Section replacing.
Context `{UuidLib} `{!UuidText} `{StateLib} `{!Serde ProtectedStateEnvelope}.
Context (kn : Kernel) (dirs : location) (name tname : string) (Hnames : tname ≠ name).
Definition file : location := dirs ++ [name].
Definition temporary : location := dirs ++ [tname].
(** The names of interest, and what they stand for before the file is replaced. *)
Context (W : list location) (HW : ∀ at_, at_ ∈ W → length at_ = S (length dirs)).
Context (Hfile : file ∈ W) (Htemporary : temporary ∉ W).
Context (before : namespace → Prop) (Hbefore : steady W before).
Context (bs : list Z) (keep : gmap nat (list Z)).
Definition after (it : nat) (names : namespace) : Prop :=
  before names ∨ names !! file = Some (Regular it).
Lemma after_steady it : steady W (after it).
Proof.
  intros names at_ Hat [Hb|Hf].
  - destruct (Hbefore names at_ Hat Hb) as [? ?]. split; [intros e|]; by left.
  - assert (at_ ≠ file) as Hne by by intros ->.
    split; [intros e|]; right; by rewrite ?lookup_insert_ne, ?lookup_delete_ne.
Qed.

Abbreviation invariant := (invariant dirs).
Abbreviation staged := (staged dirs before keep temporary).
(** Where an error or a crash may leave the files. *)
Definition midway (s : FileSystem) : Prop :=
  invariant before keep s ∨ ∃ it, invariant (after it) (<[it := bs]> keep) s.
Record replaced_by (it : nat) (s : FileSystem) : Prop := {
  rb_invariant : invariant (after it) (<[it := bs]> keep) s;
  rb_name : fs_names s !! file = Some (Regular it);
  rb_directory : entry_at (fs_names s) dirs = Some Directory;
}.
Lemma replaced_midway it s : replaced_by it s → midway s.
Proof. intros [Hi _ _]. right. by exists it. Qed.
Lemma staged_midway it c b s : staged it c b s → midway s.
Proof. intros []. by left. Qed.
Lemma midway_blind : blind midway.
Proof. intros s n [Hi|(it & Hi)]; [left|right; exists it]; by apply invariant_blind. Qed.
Lemma replaced_blind it : blind (replaced_by it).
Proof. intros s n []. split; [by apply invariant_blind|done..]. Qed.
Lemma replaced_mode_blind it : mode_blind (replaced_by it).
Proof. intros s i m []. split; [by apply invariant_mode_blind|done..]. Qed.
Lemma invariant_widen it s : staged it bs true s → invariant (after it) (<[it := bs]> keep) s.
Proof.
  intros [[Hw Hu Hk] _ [Hlt _] (n & Hn & Hb & Hf) _]. split; [|done|].
  - intros names Hin. left. by apply Hw.
  - intros i c Hi. destruct (decide (i = it)) as [->|Hne].
    + rewrite lookup_insert_eq in Hi. injection Hi as <-. split; [done|by exists n].
    + rewrite lookup_insert_ne in Hi by done. by apply Hk.
Qed.
Lemma file_is_not_dirs x : dirs ++ [x] ≠ dirs.
Proof. intros Heq. apply (f_equal length) in Heq. rewrite length_app in Heq. cbn in Heq. lia. Qed.
Lemma dirs_insert names x e :
  entry_at names dirs = Some Directory → entry_at (<[dirs ++ [x] := e]> names) dirs = Some Directory.
Proof.
  clear HW Hfile Htemporary. intros Hd. pose proof (file_is_not_dirs x) as Hne. destruct dirs as [|d ds]; [done|].
  cbn [entry_at] in *. by rewrite lookup_insert_ne.
Qed.
Lemma dirs_delete names x :
  entry_at names dirs = Some Directory → entry_at (delete (dirs ++ [x]) names) dirs = Some Directory.
Proof.
  clear HW Hfile Htemporary. intros Hd. pose proof (file_is_not_dirs x) as Hne. destruct dirs as [|d ds]; [done|].
  cbn [entry_at] in *. by rewrite lookup_delete_ne.
Qed.
Lemma rename_ensures it :
  ensures (staged it bs true) (rename kn (absolute temporary) (absolute file))
    (λ _, replaced_by it) midway.
Proof.
  apply ensures_syscall; [apply staged_blind|apply staged_midway|].
  intros s r s' Hs Hr. pose proof (st_invariant _ _ _ _ _ _ _ _ Hs) as Hi.
  pose proof (invariant_widen it s Hs) as Hwide.
  pose proof (inv_unlinked _ _ _ _ Hi) as Hu. pose proof (staged_midway _ _ _ _ Hs) as Hmid.
  cbv [mbind handler_bind read lift] in Hr.
  destruct (resolve kn s false (absolute temporary)) as [from|e] eqn:Hf; [|by injection Hr as <- <-].
  destruct (resolve kn s false (absolute file)) as [to|e] eqn:Ht; [|by injection Hr as <- <-].
  apply resolve_file in Hf as [-> Hd]; [|done]. apply resolve_file in Ht as [-> _]; [|done].
  rewrite !file_at_nonempty in Hr. fold temporary file in Hr.
  rewrite (st_name _ _ _ _ _ _ _ _ Hs) in Hr.
  assert (after it (<[file := Regular it]> (delete temporary (fs_names s)))) as Hafter
    by (right; by rewrite lookup_insert_eq).
  assert (∀ u : unit, (Ok u : result IoErrorKind unit,
      with_names s (<[file := Regular it]> (delete temporary (fs_names s)))) = (r, s') →
    match r with Ok _ => replaced_by it s' | Err _ => midway s' end) as Hmoved.
  { intros u [= <- <-]. destruct Hwide as [Hw _ Hk]. split.
    - split; [|by apply unlinked_insert, unlinked_delete|done].
      intros names [->|Hin]%elem_of_cons; [done|by apply Hw].
    - cbn. by rewrite lookup_insert_eq.
    - cbn. by apply dirs_insert, dirs_delete. }
  destruct (fs_names s !! file) as [[|target|j]|] eqn:Hto; cbn [same_file] in Hr.
  - by injection Hr as <- <-.
  - by apply Hmoved in Hr.
  - destruct (Nat.eqb_spec it j) as [->|Hne]; [|by apply Hmoved in Hr].
    injection Hr as <- <-. by split.
  - by apply Hmoved in Hr.
Qed.
Lemma link_ensures it :
  ensures (staged it bs true) (hard_link kn (absolute temporary) (absolute file))
    (λ _, replaced_by it) midway.
Proof.
  apply ensures_syscall; [apply staged_blind|apply staged_midway|].
  intros s r s' Hs Hr. pose proof (st_invariant _ _ _ _ _ _ _ _ Hs) as Hi.
  pose proof (invariant_widen it s Hs) as [Hw _ Hk].
  pose proof (inv_unlinked _ _ _ _ Hi) as Hu. pose proof (staged_midway _ _ _ _ Hs) as Hmid.
  cbv [mbind handler_bind read lift] in Hr.
  destruct (resolve kn s false (absolute temporary)) as [from|e] eqn:Hf; [|by injection Hr as <- <-].
  destruct (resolve kn s false (absolute file)) as [to|e] eqn:Ht; [|by injection Hr as <- <-].
  apply resolve_file in Hf as [-> Hd]; [|done]. apply resolve_file in Ht as [-> _]; [|done].
  rewrite !file_at_nonempty in Hr. fold temporary file in Hr.
  rewrite (st_name _ _ _ _ _ _ _ _ Hs) in Hr.
  destruct (fs_names s !! file); injection Hr as <- <-; [done|].
  assert (after it (<[file := Regular it]> (fs_names s))) as Hafter
    by (right; by rewrite lookup_insert_eq).
  split; cbn; [|by rewrite lookup_insert_eq|by apply dirs_insert].
  split; [|by apply unlinked_insert|done]. intros names [->|Hin]%elem_of_cons; [done|by apply Hw].
Qed.
Lemma replaced_remove it x :
  x ≠ name →
  ensures (replaced_by it) (remove_file kn (absolute (dirs ++ [x]))) (λ _, replaced_by it) midway.
Proof.
  intros Hx. apply ensures_syscall; [apply replaced_blind|apply replaced_midway|].
  intros s r s' Hs Hr. pose proof Hs as [[Hw Hu Hk] Hn Hd]. pose proof (replaced_midway it s Hs) as Hmid.
  cbv [mbind handler_bind read lift] in Hr.
  destruct (resolve _ _ _ _) as [at_|e] eqn:Hres; [|by injection Hr as <- <-].
  apply resolve_file in Hres as [-> _]; [|done].
  assert (dirs ++ [x] ≠ file) as Hne by (unfold file; by intros [_ [= Heq]]%app_inj_2).
  assert (delete (dirs ++ [x]) (fs_names s) !! file = Some (Regular it)) as Hstill
    by by rewrite lookup_delete_ne.
  destruct (entry_at _ _) as [[]|]; injection Hr as <- <-; try done;
    (split; cbn; [|done|by apply dirs_delete]; split; [|by apply unlinked_delete|done];
     intros names [->|Hin]%elem_of_cons; [by right|by apply Hw]).
Qed.
Lemma sync_parent_ensures it :
  ensures (replaced_by it) (sync_state_parent kn (absolute dirs))
    (λ _ s, replaced_by it s ∧ fs_pending s = []) midway.
Proof.
  clear HW Hfile Htemporary. unfold sync_state_parent, io_failed.
  apply (ensures_bind _ _ _ (λ h s, h = DirectoryHandle ∧ replaced_by it s)).
  - apply ensures_convert, ensures_syscall; [apply replaced_blind|apply replaced_midway|].
    intros s r s' Hs Hr. cbv [mbind handler_bind read lift] in Hr.
    pose proof (replaced_midway it s Hs) as Hmid.
    destruct (resolve _ _ _ _) as [at_|e] eqn:Hres; [|by injection Hr as <- <-].
    assert (at_ = dirs) as ->.
    { apply resolve_absolute in Hres as [-> _]; [done|..].
      - intros k Hk. apply (inv_unlinked _ _ _ _ (rb_invariant _ _ Hs)).
        apply take_nonempty; [lia|]. intros ->. cbn in Hk. lia.
      - intros _ Hne. pose proof (inv_unlinked _ _ _ _ (rb_invariant _ _ Hs) (length dirs)) as Hl.
        rewrite firstn_all in Hl. by apply Hl. }
    rewrite (rb_directory _ _ Hs) in Hr. by injection Hr as <- <-.
  - intros h s r s' [-> Hs] Hr. revert s r s' Hs Hr. change (ensures (replaced_by it)
      (convert IoFailed (sync_all kn DirectoryHandle))
      (λ _ s, replaced_by it s ∧ fs_pending s = []) midway).
    apply ensures_convert, ensures_syscall; [apply replaced_blind|apply replaced_midway|].
    intros s r s' Hs [= <- <-]. split; [|done]. destruct Hs as [[Hw Hu Hk] Hn Hd].
    split; [|done|done]. split; [|done|done].
    intros names ->%list_elem_of_singleton. apply Hw, list_elem_of_here.
Qed.

Lemma remove_midway : ensures midway (remove_file kn (absolute temporary)) (λ _, midway) midway.
Proof.
  intros s r s' [Hi|(it & Hi)] Hr.
  - apply (remove_file_ensures kn dirs W before keep tname Hbefore Htemporary _ _ _ Hi) in Hr.
    destruct r; by left.
  - apply (remove_file_ensures kn dirs W (after it) (<[it := bs]> keep) tname
      (after_steady it) Htemporary _ _ _ Hi) in Hr. destruct r; right; by exists it.
Qed.
Lemma cleaning_up_ensures {A} path (m : state_op StateFileError A) P Q :
  components path = absolute temporary → ensures P m Q midway →
  ensures P (cleaning_up kn path m) Q midway.
Proof.
  intros Hpath Hm s r s' HP Hr. unfold cleaning_up in Hr. rewrite Hpath in Hr.
  cbv [mbind handler_bind attempt lift] in Hr. destruct (m s) as [r1 s1] eqn:E1.
  pose proof (Hm _ _ _ HP E1) as Hf1. destruct r1 as [a|e]; cbn in Hr; [by injection Hr as <- <-|].
  destruct (path_exists kn (absolute temporary) s1) as [there s2] eqn:E2.
  pose proof (ensures_looks _ midway midway (path_exists_looks kn _) midway_blind (λ _ h, h)
    _ _ _ Hf1 E2) as Hf2.
  destruct there as [[]|e2]; [|by injection Hr as <- <-|by injection Hr as <- <-].
  destruct (remove_file kn (absolute temporary) s2) as [r3 s3] eqn:E3.
  pose proof (remove_midway _ _ _ Hf2 E3) as Hf3. injection Hr as <- <-. by destruct r3.
Qed.
(** The two paths, and the steps once the names are known to be plain. *)
Context (path tpath : string) (Hpath : components path = absolute file).
Context (Htpath : components tpath = absolute temporary).
Lemma reject_ensures P p :
  blind P → (∀ s, P s → midway s) → ensures P (reject_symlink_path kn p) (λ _, P) midway.
Proof. intros. by apply ensures_looks; [apply reject_symlink_path_looks|..]. Qed.
Lemma restrict_midway P p :
  blind P → mode_blind P → (∀ s, P s → midway s) →
  ensures P (restrict_state_file_permissions kn p) (λ _, P) midway.
Proof. intros. eapply ensures_weaken; [by apply restrict_ensures|done..]. Qed.
Lemma install_ensures (it : nat) :
  ensures (staged it bs true)
    (replace_state_file kn tpath path ;; restrict_state_file_permissions kn path ;;
     sync_state_parent kn (absolute dirs))
    (λ _ s, ∃ it, replaced_by it s ∧ fs_pending s = []) midway.
Proof.
  apply (ensures_bind _ _ _ (λ _, replaced_by it)).
  - unfold replace_state_file. do 2 (eapply ensures_bind;
      [apply reject_ensures; [apply staged_blind|apply staged_midway]|intros ?]).
    unfold io_failed. rewrite Hpath, Htpath. apply ensures_convert, rename_ensures.
  - intros ?. eapply ensures_bind;
      [apply restrict_midway; [apply replaced_blind|apply replaced_mode_blind|apply replaced_midway]|].
    intros ?. eapply ensures_weaken; [apply sync_parent_ensures|done| |done].
    intros ? s Hs. by exists it.
Qed.
Lemma stage_ensures mode (encoded : result StateFileError bytes) Q (rest : state_op StateFileError unit) :
  (∀ c, encoded = Ok c → c = bs) → (∀ it, ensures (staged it bs true) rest Q midway) →
  ensures (invariant before keep)
    (file ← io_failed (create_new kn mode (components tpath));
     restrict_state_file_permissions kn tpath ;;
     encoded ← lift encoded;
     io_failed (write_all kn file encoded) ;;
     io_failed (sync_all kn file) ;;
     rest)
    Q midway.
Proof.
  intros Henc Hrest. rewrite Htpath. unfold io_failed.
  assert (∀ s, invariant before keep s → midway s) as Hmid by by left.
  eapply ensures_bind.
  { apply ensures_convert. eapply ensures_weaken;
      [apply (create_new_ensures kn dirs W HW before keep mode tname Hbefore Htemporary)|done|intros ? ? Hh; exact Hh|exact Hmid]. }
  intros h s r s' (it & -> & Hs) Hr. revert s r s' Hs Hr.
  eapply ensures_bind; [apply restrict_midway;
    [apply staged_blind|apply staged_mode_blind|apply staged_midway]|].
  intros ?. eapply ensures_bind; [apply ensures_lift, staged_midway|].
  intros c s r s' [Hc Hs] Hr. apply Henc in Hc as ->. revert s r s' Hs Hr.
  eapply ensures_bind; [apply ensures_convert; eapply ensures_weaken;
    [apply write_all_ensures|done|intros ? ? Hh; exact Hh|exact Hmid]|].
  intros ?. eapply ensures_bind; [apply ensures_convert; eapply ensures_weaken;
    [apply sync_file_ensures|done|intros ? ? Hh; exact Hh|exact Hmid]|].
  intros ?. apply Hrest.
Qed.
End replacing.

(** ** What a crash leaves *)
Lemma content_settled s at_ i :
  settled s at_ → fs_names s !! at_ = Some (Regular i) →
  ∃ n, content s at_ = Some (in_bytes n) ∧ fs_inodes s !! i = Some n ∧ in_flushed n = true
    ∧ (i < fs_next s)%nat.
Proof.
  intros [_ Hs] Hi. destruct (Hs i Hi) as (Hlt & n & Hn & Hf). exists n. unfold content.
  by rewrite Hi, Hn.
Qed.
(** The files of a settled name, to be kept. *)
Definition kept_files (s : FileSystem) (at_ : location) : gmap nat (list Z) :=
  match fs_names s !! at_ with
  | Some (Regular i) => match fs_inodes s !! i with Some n => {[i := in_bytes n]} | None => ∅ end
  | _ => ∅
  end.
Lemma settled_invariant (s : FileSystem) (dirs at_ : location) (watched : namespace → Prop) :
  settled s at_ → unlinked dirs (fs_names s) → watched (fs_names s) →
  invariant dirs watched (kept_files s at_) s.
Proof.
  intros [Hp Hs] Hu Hw. split; [|done|].
  - rewrite Hp. by intros names ->%list_elem_of_singleton.
  - intros i bs. unfold kept_files. destruct (fs_names s !! at_) as [[]|] eqn:He; [done..| |done].
    destruct (Hs _ eq_refl) as (Hlt & n & Hn & Hf). rewrite Hn.
    intros [<- <-]%lookup_singleton_Some. split; [done|by exists n].
Qed.
Lemma crash_keeps_file (dirs : location) watched keep (s s' : FileSystem) (i : nat) (bs : list Z) :
  invariant dirs watched keep s → crash s s' → keep !! i = Some bs →
  (i < fs_next s')%nat ∧ ∃ n, fs_inodes s' !! i = Some n ∧ in_flushed n = true ∧ in_bytes n = bs.
Proof.
  intros Hi [s'' Hin Hp Hn Hnext Hl] Hk. destruct (inv_keeps _ _ _ _ Hi i bs Hk) as (Hlt & n & Hf & Hfl & Hb).
  split; [by rewrite Hnext|]. specialize (Hn i). rewrite Hf in Hn.
  inversion Hn as [? n' (Hbs & Hfl' & _)|]; subst. exists n'. by rewrite Hbs.
Qed.
Lemma crash_content (dirs : location) watched keep (s s' : FileSystem) (at_ : location) (i : nat) (bs : list Z) :
  invariant dirs watched keep s → crash s s' → keep !! i = Some bs →
  fs_names s' !! at_ = Some (Regular i) → content s' at_ = Some bs ∧ settled s' at_.
Proof.
  intros Hi Hc Hk Hn. destruct (crash_keeps_file _ _ _ _ _ _ _ Hi Hc Hk) as (Hlt & n & Hf & Hfl & <-).
  unfold content, settled. rewrite Hn, Hf. split; [done|]. split; [by destruct Hc|].
  intros j [= <-]. split; [done|by exists n].
Qed.

Section atomic.
Context `{UuidLib} `{!UuidText} `{StateLib} `{!Serde ProtectedStateEnvelope}.
Lemma app_nonempty {A} (l : list A) x : l ++ [x] ≠ [].
Proof. by destruct l. Qed.
Lemma temporary_name (dirs : location) name fresh :
  temporary_path (text_of (dirs ++ [name])) fresh
  = text_of (dirs ++ [(name ++ ".tmp-" ++ uuid_to_string fresh)%string]).
Proof. apply text_suffix. Qed.
Definition standing (dirs : location) (name : string) (entry : option Entry) (names : namespace)
    : Prop := names !! file dirs name = entry.
Lemma file_length (dirs : location) name at_ :
  at_ ∈ [file dirs name] → length at_ = S (length dirs).
Proof. intros ->%list_elem_of_singleton. unfold file. rewrite length_app. cbn. lia. Qed.
Lemma standing_steady dirs name entry : steady [file dirs name] (standing dirs name entry).
Proof.
  intros names at_ Hat Hs.
  assert (at_ ≠ file dirs name) as Hne by by intros ->; apply Hat, list_elem_of_singleton.
  unfold standing in *. split; [intros e|]; by rewrite ?lookup_insert_ne, ?lookup_delete_ne.
Qed.
Lemma other_file (dirs : location) name x : x ≠ name → temporary dirs x ∉ [file dirs name].
Proof.
  intros Hne. rewrite list_elem_of_singleton. unfold temporary, file. by intros [_ [= Heq]]%app_inj_2.
Qed.
Lemma write_ensures {T} `{!Serde T} kn fresh random (dirs : location) name (value : T) purpose protection bs entry keep :
  Forall plain_name (dirs ++ [name]) → str_contains "/"%char (uuid_to_string fresh) = false →
  (∀ c, encode_protected_state_with random value purpose protection = Ok c → c = bs) →
  ensures (invariant dirs (standing dirs name entry) keep)
    (write_protected_state_file_with kn fresh random (text_of (dirs ++ [name])) value purpose protection)
    (λ _ s, ∃ it, replaced_by dirs name (standing dirs name entry) bs keep it s ∧ fs_pending s = [])
    (midway dirs name (standing dirs name entry) bs keep).
Proof.
  intros Hplain Hfresh Henc. unfold write_protected_state_file_with.
  set (tname := (name ++ ".tmp-" ++ uuid_to_string fresh)%string).
  assert (plain_name tname) as Ht.
  { apply Forall_app in Hplain as [_ Hn]. apply Forall_inv in Hn.
    apply (plain_suffix name (".tmp-" ++ uuid_to_string fresh)); [done|rewrite append_length; cbn; lia|].
    apply str_contains_app. split; [done|exact Hfresh]. }
  assert (tname ≠ name) as Hne by (apply suffix_other; rewrite append_length; cbn; lia).
  assert (components (text_of (dirs ++ [name])) = absolute (dirs ++ [name])) as Hpath
    by (apply components_text; [apply app_nonempty|exact Hplain]).
  assert (components (text_of (dirs ++ [tname])) = absolute (dirs ++ [tname])) as Htpath.
  { apply components_text; [apply app_nonempty|].
    apply Forall_app in Hplain as [Hd _]. apply Forall_app. split; [done|by apply Forall_singleton]. }
  rewrite temporary_name. fold tname. cbv zeta. rewrite Hpath, parent_absolute.
  assert (∀ s, invariant dirs (standing dirs name entry) keep s → midway dirs name (standing dirs name entry) bs keep s)
    as Hmid by by left.
  eapply ensures_bind; [by apply reject_ensures; [apply invariant_blind|]|]. intros ?.
  eapply ensures_bind.
  { pose proof (create_dir_all_ensures kn dirs [file dirs name] (file_length dirs name) _ keep
      (length dirs) (standing_steady dirs name entry)) as Hdirs. rewrite firstn_all in Hdirs.
    apply ensures_convert. eapply ensures_weaken; [exact Hdirs|done|intros ? ? Hh; exact Hh|exact Hmid]. }
  intros ?. eapply ensures_bind; [by apply reject_ensures; [apply invariant_blind|]|]. intros ?.
  pose proof (other_file dirs name tname Hne) as Hother.
  pose proof (file_length dirs name) as Hlen. pose proof (standing_steady dirs name entry) as Hst.
  apply (cleaning_up_ensures kn dirs name tname [file dirs name]); [|done|done|exact Htpath|].
  { by apply list_elem_of_singleton. }
  eapply (stage_ensures kn dirs name tname [file dirs name] Hlen Hother _ Hst bs keep _ Htpath 438
    (map_err ProtectionFailed (encode_protected_state_with random value purpose protection))).
  - intros c Hc. apply Henc.
    destruct (encode_protected_state_with random value purpose protection); [by injection Hc as ->|done].
  - intros it. by apply (install_ensures kn dirs name tname).
Qed.
Lemma crash_names s s' : crash s s' → fs_names s' ∈ fs_names s :: fs_pending s.
Proof. by intros []. Qed.
Lemma kept_files_Some s at_ i bs :
  kept_files s at_ !! i = Some bs → fs_names s !! at_ = Some (Regular i).
Proof.
  unfold kept_files. destruct (fs_names s !! at_) as [[]|]; try done.
  destruct (fs_inodes s !! _); [|done]. by intros [<- _]%lookup_singleton_Some.
Qed.
Lemma unchanged_crash (dirs at_ : location) watched keep (s s' s'' : FileSystem) :
  settled s at_ → invariant dirs watched keep s' → crash s' s'' →
  fs_names s'' !! at_ = fs_names s !! at_ →
  (∀ i bs, kept_files s at_ !! i = Some bs → keep !! i = Some bs) →
  settled s'' at_ ∧ content s'' at_ = content s at_.
Proof.
  intros Hs Hi Hc Heq Hkeep.
  destruct (fs_names s !! at_) as [[|target|i]|] eqn:Hn.
  3: { destruct (content_settled s at_ i Hs Hn) as (n & -> & Hf & _).
       destruct (crash_content dirs watched keep s' s'' at_ i (in_bytes n) Hi Hc) as [? ?]; [|done..].
       apply Hkeep. unfold kept_files. rewrite Hn, Hf. apply lookup_singleton_eq. }
  all: unfold content, settled; rewrite Heq, Hn; split; [split; [by destruct Hc|done]|done].
Qed.
Lemma midway_crash (dirs : location) name bs (s s' s'' : FileSystem) :
  settled s (dirs ++ [name]) →
  midway dirs name (standing dirs name (fs_names s !! (dirs ++ [name]))) bs
    (kept_files s (dirs ++ [name])) s' →
  crash s' s'' →
  settled s'' (dirs ++ [name])
  ∧ (content s'' (dirs ++ [name]) = content s (dirs ++ [name])
     ∨ content s'' (dirs ++ [name]) = Some bs).
Proof.
  intros Hs [Hi|(it & Hi)] Hc; pose proof (inv_watched _ _ _ _ Hi _ (crash_names _ _ Hc)) as Hn.
  { destruct (unchanged_crash dirs _ _ _ _ _ _ Hs Hi Hc Hn) as [? ?]; auto. }
  pose proof (crash_content dirs _ _ _ _ (dirs ++ [name]) it bs Hi Hc (lookup_insert_eq _ _ _)) as Hit.
  destruct Hn as [Hn|Hn]; [|destruct (Hit Hn); auto].
  destruct (decide (fs_names s'' !! (dirs ++ [name]) = Some (Regular it))) as [Heq|Hne];
    [destruct (Hit Heq); auto|].
  destruct (unchanged_crash dirs (dirs ++ [name]) _ _ _ _ _ Hs Hi Hc Hn) as [? ?]; [|auto].
  intros i c Hk. rewrite lookup_insert_ne; [done|]. intros ->. apply kept_files_Some in Hk.
  apply Hne. by rewrite <-Hk.
Qed.
Lemma write_crash {T} `{!Serde T} kn (fresh : Uuid) random (dirs : location) name
    (value : T) purpose protection bs s r s' s'' :
  Forall plain_name (dirs ++ [name]) → str_contains "/"%char (uuid_to_string fresh) = false →
  settled s (dirs ++ [name]) → unlinked dirs (fs_names s) →
  (∀ c, encode_protected_state_with random value purpose protection = Ok c → c = bs) →
  write_protected_state_file_with kn fresh random (text_of (dirs ++ [name])) value purpose protection s
    = (r, s') →
  crash s' s'' →
  settled s'' (dirs ++ [name])
  ∧ (content s'' (dirs ++ [name]) = content s (dirs ++ [name])
     ∨ content s'' (dirs ++ [name]) = Some bs)
  ∧ (r = Ok tt → content s'' (dirs ++ [name]) = Some bs).
Proof.
  intros Hplain Hfresh Hset Hlinks Hbs Hr Hc.
  pose proof (settled_invariant s dirs (dirs ++ [name])
    (standing dirs name (fs_names s !! (dirs ++ [name]))) Hset Hlinks eq_refl) as Hi.
  pose proof (write_ensures kn fresh random dirs name value purpose protection bs _ _ Hplain Hfresh
    Hbs _ _ _ Hi Hr) as Hend.
  destruct r as [u|e]; [|destruct (midway_crash _ _ _ _ _ _ Hset Hend Hc) as [? ?]; by split_and!].
  destruct Hend as (it & Hby & Hp).
  destruct (crash_content dirs _ _ _ _ (dirs ++ [name]) it bs (rb_invariant _ _ _ _ _ _ _ Hby) Hc
    (lookup_insert_eq _ _ _)) as [Hcont Hset'].
  - pose proof (crash_names _ _ Hc) as Hin. rewrite Hp in Hin.
    apply list_elem_of_singleton in Hin as ->. apply (rb_name _ _ _ _ _ _ _ Hby).
  - split_and!; auto.
Qed.

(** C17: Replacing a state file is atomic whatever happens to it.  Suppose the
    file's name and contents are on stable storage and no part of its directory is
    a link.  [write_protected_state_file_with] may have any of its system calls
    fail, or be cut short by a crash at any of them: once the machine is up again
    the file holds what it held before, or the encoding of the new state, whole,
    and is on stable storage again.  When the call reported success, it holds the
    new state. *)
Theorem state_write_atomic {T} `{!Serde T} kn (fresh : Uuid) random (dirs : location) name
    (value : T) purpose protection s r s' s'' :
  Forall plain_name (dirs ++ [name]) → str_contains "/"%char (uuid_to_string fresh) = false →
  settled s (dirs ++ [name]) → unlinked dirs (fs_names s) →
  write_protected_state_file_with kn fresh random (text_of (dirs ++ [name])) value purpose protection s
    = (r, s') →
  crash s' s'' →
  let written := ∃ bs, encode_protected_state_with random value purpose protection = Ok bs
    ∧ content s'' (dirs ++ [name]) = Some bs in
  settled s'' (dirs ++ [name])
  ∧ (content s'' (dirs ++ [name]) = content s (dirs ++ [name]) ∨ written)
  ∧ (r = Ok tt → written).
Proof.
  intros Hplain Hfresh Hset Hlinks Hr Hc written.
  pose proof (λ bs Hbs, write_crash kn fresh random dirs name value purpose protection bs s r s' s''
    Hplain Hfresh Hset Hlinks Hbs Hr Hc) as Hwrite.
  destruct (encode_protected_state_with random value purpose protection) as [bs|e] eqn:Henc.
  - destruct (Hwrite bs) as (Hs & Hcont & Hok); [by intros c [= ->]|].
    split_and!; [done|destruct Hcont; [by left|right; by exists bs]|]. intros Hr'. exists bs. auto.
  - destruct (Hwrite [0]) as (Hs & Ha & Hok); [done|]. destruct (Hwrite [1]) as (_ & Hb & Hok'); [done|].
    split_and!; [done|left; destruct Ha as [|Ha], Hb as [|Hb]; congruence|].
    intros Hr'. specialize (Hok Hr'). specialize (Hok' Hr'). congruence.
Qed.
End atomic.

(** ** Recovering a state file *)
Lemma append_inj (s t u : string) : (s ++ t)%string = (s ++ u)%string → t = u.
Proof. induction s as [|a s IH]; [done|]. intros Heq. apply IH. by injection Heq. Qed.

Section recovering.
Context `{UuidLib} `{!UuidText} `{StateLib} `{!Serde ProtectedStateEnvelope}.
Context (kn : Kernel) (dirs : location) (name : string) (fresh : Uuid) (ib : nat) (bs : list Z).
Context (Hplain : Forall plain_name (dirs ++ [name])).
Context (Hfresh : str_contains "/"%char (uuid_to_string fresh) = false).
Definition bname : string := (name ++ ".bak")%string.
Definition tname : string := (name ++ ".tmp-" ++ uuid_to_string fresh)%string.
Definition backup : location := dirs ++ [bname].
Definition path : string := text_of (dirs ++ [name]).
Definition waiting (names : namespace) : Prop :=
  names !! file dirs name = None ∧ names !! backup = Some (Regular ib).
Abbreviation W := [file dirs name; backup].
Abbreviation keep := ({[ib := bs]} : gmap nat (list Z)).
Abbreviation midway := (midway dirs name waiting bs keep).
Abbreviation replaced_by := (replaced_by dirs name waiting bs keep).

Lemma bname_other : bname ≠ name.
Proof. apply suffix_other. cbn. lia. Qed.
Lemma tname_other : tname ≠ name.
Proof. apply suffix_other. rewrite append_length. cbn. lia. Qed.
Lemma tname_not_backup : tname ≠ bname.
Proof. unfold tname, bname. by intros Heq%append_inj. Qed.
Lemma recovery_names_length at_ : at_ ∈ W → length at_ = S (length dirs).
Proof.
  unfold file, backup. intros [->| ->%list_elem_of_singleton]%elem_of_cons; rewrite length_app; cbn; lia.
Qed.
Lemma temporary_apart : temporary dirs tname ∉ W.
Proof.
  unfold temporary, file, backup. rewrite elem_of_cons, list_elem_of_singleton.
  intros [Heq|Heq]; apply app_inj_2 in Heq as [_ Heq]; try done; injection Heq.
  - apply tname_other.
  - apply tname_not_backup.
Qed.
Lemma waiting_steady : steady W waiting.
Proof.
  intros names at_ Hat [Hf Hb]. rewrite elem_of_cons, list_elem_of_singleton in Hat.
  unfold waiting. split; [intros e|]; rewrite ?lookup_insert_ne, ?lookup_delete_ne by naive_solver; done.
Qed.
Lemma plain_sibling suffix :
  (3 ≤ String.length suffix)%nat → str_contains "/"%char suffix = false →
  components (text_of (dirs ++ [(name ++ suffix)%string])) = absolute (dirs ++ [(name ++ suffix)%string]).
Proof.
  intros Hl Hs. apply components_text; [apply app_nonempty|]. pose proof Hplain as Hp.
  apply Forall_app in Hp as [Hd Hn]. apply Forall_inv in Hn. apply Forall_app. split; [done|].
  apply Forall_singleton. by apply plain_suffix.
Qed.
Lemma path_components : components path = absolute (file dirs name).
Proof. apply components_text; [apply app_nonempty|exact Hplain]. Qed.
Lemma backup_components : components (backup_path path) = absolute backup.
Proof. unfold backup_path, path. rewrite text_suffix. apply plain_sibling; [cbn; lia|done]. Qed.
Lemma temporary_components : components (temporary_path path fresh) = absolute (temporary dirs tname).
Proof.
  unfold path. rewrite temporary_name. apply plain_sibling; [rewrite append_length; cbn; lia|].
  apply str_contains_app. split; [done|exact Hfresh].
Qed.
Lemma looks_replaced {E A} it (m : handler FileSystem E A) :
  only_calls m → ensures (replaced_by it) m (λ _, replaced_by it) midway.
Proof. intros Hm. apply ensures_looks; [done|apply replaced_blind|apply replaced_midway]. Qed.
Lemma install_recovered_rest it :
  ensures (staged dirs waiting keep (temporary dirs tname) it bs true)
    (install_recovery_temporary_file kn (temporary_path path fresh) path ;;
     restrict_state_file_permissions kn path ;;
     installed ← io_failed (open_nofollow kn (components path));
     m ← verify_open_regular_state_file kn installed;
     lift (bail_if (negb (md_len m =? len bs)) (IoFailed InvalidData)) ;;
     installed_bytes ← read_open_state_file kn installed m (len bs);
     lift (bail_if (bool_decide (installed_bytes ≠ bs)) (IoFailed InvalidData)) ;;
     io_failed (remove_file kn (components (backup_path path))) ;;
     sync_state_parent kn (absolute dirs))
    (λ _ s, ∃ it, replaced_by it s ∧ fs_pending s = []) midway.
Proof.
  rewrite backup_components. unfold install_recovery_temporary_file, io_failed.
  rewrite temporary_components, path_components.
  apply (ensures_bind _ _ _ (λ _, replaced_by it)).
  { apply (ensures_bind _ _ _ (λ _, replaced_by it)).
    - apply ensures_convert. apply (link_ensures kn dirs name tname).
    - intros ?. apply ensures_convert. apply replaced_remove, tname_other. }
  intros ?. eapply ensures_bind;
    [apply restrict_midway; [apply replaced_blind|apply replaced_mode_blind|apply replaced_midway]|].
  intros ?. eapply ensures_bind; [apply looks_replaced, only_calls_convert, open_nofollow_looks|].
  intros h. eapply ensures_bind; [apply looks_replaced, verify_open_looks|].
  intros m. eapply ensures_bind; [apply looks_replaced, only_calls_lift|].
  intros ?. eapply ensures_bind; [apply looks_replaced, read_open_looks|].
  intros ?. eapply ensures_bind; [apply looks_replaced, only_calls_lift|].
  intros ?. eapply ensures_bind; [apply ensures_convert; apply replaced_remove, bname_other|].
  intros ?. eapply ensures_weaken; [apply (sync_parent_ensures kn dirs name waiting bs keep it)|done| |done].
  intros ? s Hs. by exists it.
Qed.
Lemma install_recovered_ensures :
  ensures (invariant dirs waiting keep)
    (install_recovered_backup_bytes kn fresh path (backup_path path) bs)
    (λ _ s, ∃ it, replaced_by it s ∧ fs_pending s = []) midway.
Proof.
  unfold install_recovered_backup_bytes.
  assert (∀ s, invariant dirs waiting keep s → midway s) as Hmid by by left.
  eapply ensures_bind; [by apply reject_ensures; [apply invariant_blind|]|]. intros ?.
  assert (state_parent (components path) = absolute dirs) as Hparent
    by (rewrite path_components; apply parent_absolute).
  cbv zeta. rewrite Hparent.
  eapply ensures_bind.
  { pose proof (create_dir_all_ensures kn dirs W recovery_names_length _ keep
      (length dirs) waiting_steady) as Hdirs. rewrite firstn_all in Hdirs.
    apply ensures_convert. eapply ensures_weaken; [exact Hdirs|done|intros ? ? Hh; exact Hh|exact Hmid]. }
  intros ?. eapply ensures_bind; [by apply reject_ensures; [apply invariant_blind|]|]. intros ?.
  apply (cleaning_up_ensures kn dirs name tname W); [apply list_elem_of_here|apply temporary_apart
    |apply waiting_steady|apply temporary_components|].
  assert (∀ c, (Ok bs : result StateFileError bytes) = Ok c → c = bs) as Hc by by intros c [= ->].
  exact (stage_ensures kn dirs name tname W recovery_names_length temporary_apart _ waiting_steady bs
    keep _ temporary_components 384 (Ok bs) _ _ Hc install_recovered_rest).
Qed.

(** ** Recovery *)
(** The kernel never says that something is missing which is not. *)
Definition honest : Prop := ∀ n, kn_fails kn n ≠ Some NotFound.
Definition directories (names : namespace) : Prop :=
  ∀ k, (0 < k ≤ length dirs)%nat → names !! take k dirs = Some Directory.
Lemma walk_final links names pre ds x :
  (∀ k, (0 < k ≤ length ds)%nat → names !! (pre ++ take k ds) = Some Directory) →
  walk links names false pre (map Normal (ds ++ [x])) = Ok (pre ++ ds ++ [x]).
Proof.
  revert pre. induction ds as [|d ds IH]; intros pre Hd; cbn [map app]; rewrite walk_cons; cbv zeta.
  - rewrite walk_nil. by destruct (names !! (pre ++ [x])) as [[]|].
  - assert (names !! (pre ++ [d]) = Some Directory) as -> by (apply (Hd 1%nat); cbn; lia).
    specialize (IH (pre ++ [d])). rewrite <-!(assoc_L (++)) in IH. apply IH.
    intros k Hk. specialize (Hd (S k) ltac:(cbn; lia)). by rewrite <-(assoc_L (++)).
Qed.
Lemma resolve_sibling s x :
  directories (fs_names s) →
  resolve kn s false (absolute (dirs ++ [x])) = Ok (dirs ++ [x]).
Proof.
  intros Hd. change (walk MAX_LINKS (fs_names s) false (kn_cwd kn)
    (RootDir :: map Normal (dirs ++ [x])) = Ok (dirs ++ [x])). rewrite walk_cons.
  by apply (walk_final _ _ []).
Qed.

Definition ready (s : FileSystem) : Prop :=
  invariant dirs waiting keep s ∧ directories (fs_names s).
Lemma ready_blind : blind ready.
Proof. intros s n [Hi Hd]. split; [by apply invariant_blind|done]. Qed.
Lemma ready_midway s : ready s → midway s.
Proof. intros [Hi _]. by left. Qed.
Lemma ready_names s :
  ready s → fs_names s !! file dirs name = None ∧ fs_names s !! backup = Some (Regular ib).
Proof. intros [Hi _]. apply (inv_watched _ _ _ _ Hi), list_elem_of_here. Qed.
Lemma primary_missing : 
  ensures ready (symlink_metadata kn (components path)) (λ _ _, False) ready.
Proof.
  rewrite path_components. apply ensures_syscall; [apply ready_blind|done|].
  intros s r s' Hs Hr. destruct (ready_names s Hs) as [Hn _]. cbv [mbind handler_bind read lift] in Hr.
  unfold file in Hr, Hn. rewrite resolve_sibling in Hr by apply Hs.
  rewrite file_at_nonempty, Hn in Hr. cbn in Hr. by injection Hr as <- <-.
Qed.
Definition opened_backup (r : result IoErrorKind Handle) (s : FileSystem) : Prop :=
  ready s ∧ match r with Ok h => h = FileHandle ib | Err e => e ≠ NotFound end.
Lemma open_backup {E} (X : FileSystem → Prop) :
  honest →
  ensures ready (attempt (open_nofollow kn (components (backup_path path)))
                 : handler FileSystem E (result IoErrorKind Handle)) opened_backup X.
Proof.
  rewrite backup_components. intros Hh s r s' Hs Hr. unfold attempt, open_nofollow, syscall in Hr.
  destruct (kn_fails kn (fs_calls s)) as [e|] eqn:Hf.
  { injection Hr as <- <-. split; [by apply ready_blind|]. intros ->. by destruct (Hh _ Hf). }
  pose proof (ready_blind s (S (fs_calls s)) Hs) as Hs1. set (s1 := with_calls s (S (fs_calls s))) in *.
  destruct (ready_names s1 Hs1) as [_ Hn]. cbv [mbind handler_bind read lift] in Hr.
  unfold backup in Hr, Hn. rewrite resolve_sibling in Hr by apply Hs1.
  rewrite file_at_nonempty, Hn in Hr. injection Hr as <- <-. by split.
Qed.
Lemma read_backup m maximum :
  ensures ready (read_open_state_file kn (FileHandle ib) m maximum) (λ c s, c = bs ∧ ready s) ready.
Proof.
  unfold read_open_state_file. eapply ensures_bind; [by apply ensures_lift|].
  intros ? s r s' [_ Hs] Hr. revert s r s' Hs Hr.
  apply (ensures_bind _ _ _ (λ c s, c = take (Z.to_nat (maximum + 1)) bs ∧ ready s)).
  - apply ensures_convert, ensures_syscall; [apply ready_blind|done|].
    intros s r s' Hs Hr. cbv [mbind handler_bind read lift handle_inode] in Hr.
    destruct (inv_keeps _ _ _ _ (proj1 Hs) ib bs (lookup_singleton_eq _ _)) as (_ & n & Hn & _ & Hb).
    rewrite Hn in Hr. cbn in Hr. injection Hr as <- <-. by rewrite Hb.
  - intros c s r s' [-> Hs] Hr. cbv [mbind handler_bind lift bail_if] in Hr.
    destruct (maximum <? len (take _ bs)) eqn:Hlt; injection Hr as <- <-; [done|]. split; [|done].
    apply Z.ltb_ge in Hlt. unfold len in Hlt. rewrite length_take in Hlt. apply take_ge.
    assert (Z.of_nat (length bs) < maximum + 1 ∨ maximum + 1 ≤ Z.of_nat (length bs))
      as [Hshort|Hlong] by lia; lia.
Qed.
Lemma recover_ensures {E} (wrap : StateFileError → E) maximum validate :
  honest →
  ensures ready (recover_protected_state_file_with_validation wrap kn fresh path maximum validate)
    (λ _ s, ∃ it, replaced_by it s ∧ fs_pending s = []) midway.
Proof.
  intros Hh. unfold recover_protected_state_file_with_validation.
  assert (∀ {F A} (m : handler FileSystem F A), only_calls m → ensures ready m (λ _, ready) midway)
    as Hlooks by (intros; apply ensures_looks; [done|apply ready_blind|apply ready_midway]).
  eapply ensures_bind; [apply Hlooks, only_calls_convert, reject_symlink_path_looks|]. intros ?.
  eapply ensures_bind; [eapply ensures_attempt, primary_missing|].
  intros [?|e]; [by intros s r s' []|].
  destruct e; try (intros s r s' Hs [= <- <-]; exact (ready_midway _ Hs)).
  eapply ensures_bind; [apply Hlooks, only_calls_convert, reject_symlink_path_looks|]. intros ?.
  eapply ensures_bind; [by apply open_backup|].
  intros [h|e] s r s' [Hs He] Hr.
  2: { destruct e; try done; injection Hr as <- <-; exact (ready_midway _ Hs). }
  subst h. revert s r s' Hs Hr.
  eapply ensures_bind; [apply Hlooks, only_calls_convert, verify_open_looks|]. intros m.
  eapply ensures_bind; [apply ensures_convert; eapply ensures_weaken;
    [apply (read_backup m maximum)|done|intros ? ? Hq; exact Hq|apply ready_midway]|].
  intros c. eapply ensures_bind; [apply ensures_lift; intros s [_ Hs]; exact (ready_midway _ Hs)|].
  intros ? s r s' (_ & -> & Hs) Hr. revert s r s' Hs Hr.
  apply ensures_convert. eapply ensures_weaken; [apply install_recovered_ensures|by intros s [] |done|done].
Qed.
End recovering.

Definition recovered (dirs : location) (name : string) (bs : list Z) (s : FileSystem) : Prop :=
  content s (dirs ++ [name]) = Some bs ∧ settled s (dirs ++ [name]).
Definition backed_up (dirs : location) (name : string) (bs : list Z) (s : FileSystem) : Prop :=
  fs_names s !! (dirs ++ [name]) = None ∧ content s (backup dirs name) = Some bs
  ∧ settled s (backup dirs name).
(** C18: Recovery is atomic too.  When the state file is missing and a backup of
    it is on stable storage, a recovery that fails or is cut short anywhere leaves,
    once the machine is up again, the state file with the backup's contents, or
    still no state file and the backup: nothing is lost, and the recovery can be
    repeated.  A recovery that reports success has installed the contents.  The kernel
    may fail any call, but not by saying that a file that exists does not. *)
Theorem recovery_atomic `{UuidLib} `{!UuidText} `{StateLib} `{!Serde ProtectedStateEnvelope} {E}
    (wrap : StateFileError → E) (kn : Kernel) (fresh : Uuid) (dirs : location) (name : string)
    (maximum : Z) validate (bs : list Z) (s s' s'' : FileSystem) r :
  honest kn → Forall plain_name (dirs ++ [name]) →
  str_contains "/"%char (uuid_to_string fresh) = false → directories dirs (fs_names s) →
  backed_up dirs name bs s →
  recover_protected_state_file_with_validation wrap kn fresh (path dirs name) maximum validate s
    = (r, s') →
  crash s' s'' →
  (recovered dirs name bs s'' ∨ backed_up dirs name bs s'')
  ∧ (r = Ok tt → recovered dirs name bs s'').
Proof.
  intros Hh Hplain Hfresh Hdirs (Hnone & Hcont & Hset) Hr Hc.
  unfold content in Hcont. destruct (fs_names s !! backup dirs name) as [[| |ib]|] eqn:Hb; try done.
  assert (ready dirs name ib bs s) as Hready.
  { split; [|done]. pose proof (settled_invariant s dirs (backup dirs name) (waiting dirs name ib) Hset) as Hi.
    unfold kept_files in Hi. rewrite Hb in Hi. destruct (fs_inodes s !! ib) as [n|]; [|done].
    injection Hcont as <-. apply Hi; [|done]. intros k Hne.
    destruct (decide (k ≤ length dirs)%nat) as [Hle|Hgt].
    - rewrite Hdirs; [done|]. split; [|done]. by destruct k; [|lia].
    - rewrite take_ge in * by lia. specialize (Hdirs (length dirs)). rewrite firstn_all in Hdirs.
      rewrite Hdirs; [done|]. by destruct dirs; [|cbn; lia]. }
  pose proof (recover_ensures kn dirs name fresh ib bs Hplain Hfresh wrap maximum validate Hh _ _ _ Hready Hr)
    as Hend.
  assert (∀ it, invariant dirs (after dirs name (waiting dirs name ib) it) (<[it := bs]> {[ib := bs]}) s' →
    fs_names s'' !! file dirs name = Some (Regular it) →
    recovered dirs name bs s'') as Hdone.
  { intros it Hi Hn. eapply crash_content; [exact Hi|exact Hc|apply lookup_insert_eq|exact Hn]. }
  assert (∀ watched keep, invariant dirs watched keep s' → keep !! ib = Some bs →
    waiting dirs name ib (fs_names s'') →
    backed_up dirs name bs s'') as Hwait.
  { intros watched keep Hi Hk [Hn Hn']. split; [done|]. by eapply crash_content. }
  assert (midway dirs name (waiting dirs name ib) bs {[ib := bs]} s' →
    recovered dirs name bs s'' ∨ backed_up dirs name bs s'') as Hmid.
  { intros [Hi|(it & Hi)]; pose proof (inv_watched _ _ _ _ Hi _ (crash_names _ _ Hc)) as Hn.
    - right. apply (Hwait _ _ Hi); [apply lookup_singleton_eq|done].
    - destruct Hn as [Hn|Hn]; [right|left; by eapply Hdone]. apply (Hwait _ _ Hi); [|done].
      destruct (decide (it = ib)) as [->|Hne]; [apply lookup_insert_eq|].
      rewrite lookup_insert_ne by done. apply lookup_singleton_eq. }
  destruct r as [u|e]; [|split; [by apply Hmid|done]].
  destruct Hend as (it & Hby & Hp). pose proof (crash_names _ _ Hc) as Hn. rewrite Hp in Hn.
  apply list_elem_of_singleton in Hn. pose proof (rb_name _ _ _ _ _ _ _ Hby) as Hf.
  rewrite <-Hn in Hf. pose proof (Hdone it (rb_invariant _ _ _ _ _ _ _ Hby) Hf). auto.
Qed.
