(* ===== verification/ProtectionFacts.v ===== *)
(** * What the envelopes of states and backups guarantee *)
From S2P Require Import Prelude Request Net Text Ext Concrete FileSystem StateProtection.
From S2P Require Import StateFile ServiceIdentity StateBackup FileFacts StateFileFacts.
From Stdlib Require Import Ascii.
#[local] Open Scope Z_scope.

(** A nonce or salt as the code draws it. *)
Definition drawn (n : nat) (random : option bytes) : Prop :=
  ∀ bs, random = Some bs → length bs = n ∧ wf_bytes bs.

Section states.
Context `{StateLib, !StateLibLaws} `{!Serde ProtectedStateEnvelope, !SerdeLaws ProtectedStateEnvelope}.

(** ** Envelopes of states *)
Lemma associated_data_inj p q : state_associated_data p = state_associated_data q → p = q.
Proof.
  unfold state_associated_data. intros Heq. do 5 apply app_inv_head in Heq.
  apply app_inj_1 in Heq as [_ Heq]; [done|]. by rewrite !length_rev, !length_be_bytes.
Qed.
Lemma decode_envelope {T} `{!Serde T} random plain purpose key level allow bs (value : T) :
  drawn LINUX_NONCE_LEN random →
  encode_linux_master_key_state random plain purpose key = Ok bs → from_slice plain = Some value →
  decode_protected_state_with bs purpose (mkStateProtection (LinuxMasterKey key) level allow)
    = Ok (mkDecodedState value false)
  ∧ (decode_protected_state bs purpose : result _ (DecodedState T)) = Err MissingMasterKey.
Proof.
  intros Hdrawn Henc Hvalue. unfold encode_linux_master_key_state in Henc.
  destruct random as [nonce|]; [|done]. destruct (Hdrawn _ eq_refl) as [Hlen Hwf].
  cbn -[state_associated_data] in Henc.
  destruct (xchacha_encrypt _ _ _ _) as [c|] eqn:Hc; [|done]. cbn -[state_associated_data] in Henc.
  apply ok_or_Ok, from_to_vec in Henc. unfold decode_protected_state, decode_protected_state_with.
  unfold decode_platform_state. rewrite Henc. cbn [validate_envelope_version ve_format_version ve_protection].
  rewrite bool_decide_true by done. unfold decode_linux_master_key_state. cbn -[state_associated_data].
  split; [|done]. rewrite (base64_decode_encode nonce Hwf).
  cbn -[state_associated_data try_into].
  rewrite (try_into_length _ _ Hlen). cbn -[state_associated_data].
  rewrite (base64_decode_encode c (xchacha_encrypt_bytes _ _ _ _ _ Hc)). cbn -[state_associated_data].
  rewrite (xchacha_decrypt_encrypt _ _ _ _ _ Hc). cbn. by rewrite Hvalue.
Qed.

(** C20: A state file written under a protection is read back under the same
    protection and purpose, as the same state and with nothing left to upgrade.
    Without the key it is refused, and a plaintext file is refused with the key,
    unless the migration of plaintext was asked for: then it is read and marked for
    rewriting.  The plain document of the state must not itself read as an envelope. *)
Theorem protected_state_roundtrip {T} `{!Serde T, !SerdeLaws T} (value : T) random purpose
    protection bs :
  drawn LINUX_NONCE_LEN random →
  (∀ plain, to_vec value = Some plain → from_slice (T := ProtectedStateEnvelope) plain = None) →
  encode_protected_state_with random value purpose protection = Ok bs →
  decode_protected_state_with bs purpose protection = Ok (mkDecodedState value false)
  ∧ match sp_kind protection with
    | LinuxMasterKey _ => (decode_protected_state bs purpose : result _ (DecodedState T)) = Err MissingMasterKey
    | PlatformDefault => ∀ key level allow,
        decode_protected_state_with bs purpose (mkStateProtection (LinuxMasterKey key) level allow)
        = if allow then Ok (mkDecodedState value true) else Err PlaintextMigrationNotAllowed
    end.
Proof.
  intros Hdrawn Hplain Henc. unfold encode_protected_state_with in Henc.
  destruct (to_vec value) as [plain|] eqn:Hv; [|done]. pose proof (from_to_vec _ _ Hv) as Hvalue.
  cbn in Henc. destruct protection as [[|key] level allow]; cbn [encode_platform_state sp_kind] in *.
  - injection Henc as <-. specialize (Hplain _ eq_refl).
    unfold decode_protected_state_with, decode_platform_state. rewrite Hplain. cbn [sp_kind].
    rewrite Hvalue. split; [done|]. by intros key level' [].
  - by eapply decode_envelope.
Qed.

(** The decoded state was sealed with the key, for the purpose. *)
Definition sealed_state {T} `{!Serde T} (bs purpose key : bytes) (value : T) : Prop :=
  ∃ envelope encoded nonce ciphertext plain,
    from_slice bs = Some envelope ∧ ve_format_version envelope = ENVELOPE_VERSION
    ∧ ve_protection envelope = LINUX_MASTER_KEY_PROTECTION
    ∧ ve_nonce_base64 envelope = Some encoded ∧ base64_decode encoded = Some nonce
    ∧ length nonce = LINUX_NONCE_LEN
    ∧ base64_decode (ve_ciphertext_base64 envelope) = Some ciphertext
    ∧ xchacha_decrypt key nonce (state_associated_data purpose) ciphertext = Some plain
    ∧ from_slice plain = Some value.
(** C19: With a master key no state is taken on trust.  Whatever bytes the file
    holds, decoding them under the key succeeds only if they are an envelope of the
    current version whose ciphertext the key authenticates for this very purpose,
    and no other purpose has the same associated data; or if the migration of
    plaintext was asked for and the bytes are no envelope, and then the state is
    marked for rewriting. *)
Theorem protected_state_authenticated {T} `{!Serde T} (bs purpose key : bytes) level allow
    (decoded : DecodedState T) :
  decode_protected_state_with bs purpose (mkStateProtection (LinuxMasterKey key) level allow)
    = Ok decoded →
  (ds_needs_protection_upgrade decoded = false ∧ sealed_state bs purpose key (ds_value decoded)
   ∧ ∀ other, state_associated_data other = state_associated_data purpose → other = purpose)
  ∨ (allow = true ∧ ds_needs_protection_upgrade decoded = true
     ∧ from_slice (T := ProtectedStateEnvelope) bs = None
     ∧ from_slice bs = Some (ds_value decoded)).
Proof.
  unfold decode_protected_state_with, decode_platform_state, validate_envelope_version, bail_if.
  destruct (from_slice bs) as [envelope|] eqn:He.
  - intros Hd. left. destruct (ve_format_version envelope =? ENVELOPE_VERSION) eqn:Hv; [|done].
    cbn [negb mbind result_mbind] in Hd. case_bool_decide as Hp; [|done]. cbn in Hd.
    destruct (ve_nonce_base64 envelope) as [encoded|] eqn:Hn; [|done]. cbn in Hd.
    destruct (base64_decode encoded) as [nonce|] eqn:Hb; [|done]. cbn in Hd.
    destruct (try_into _ nonce) as [nonce'|] eqn:Hl; [|done]. apply try_into_Some in Hl as [-> Hl].
    cbn in Hd. destruct (base64_decode (ve_ciphertext_base64 envelope)) as [c|] eqn:Hc; [|done].
    cbn in Hd. destruct (xchacha_decrypt _ _ _ _) as [plain|] eqn:Hx; [|done]. cbn in Hd.
    destruct (from_slice plain) as [value|] eqn:Hs; [|done]. cbn in Hd. injection Hd as <-. cbn.
    split_and!; [done|exists envelope, encoded, nonce, c, plain; split_and!; try done; by apply Z.eqb_eq|].
    intros other Hother. by apply associated_data_inj.
  - cbn. intros Hd. right. destruct allow; [|done].
    destruct (from_slice (T := T) bs) as [value|] eqn:Hs; cbn in Hd; [|done]. by injection Hd as <-.
Qed.
End states.

(** ** Backups *)
Section backups.
Context `{StateLib, !StateLibLaws} `{Argon2Lib}.
Context `{!Serde BackupEnvelope, !SerdeLaws BackupEnvelope} `{!Serde AssociatedData}.

Lemma decode_fixed_encode n bs :
  length bs = n → wf_bytes bs → decode_fixed n (base64_encode bs) = Ok bs.
Proof.
  intros Hl Hw. unfold decode_fixed. rewrite base64_decode_encode by done. cbn.
  by rewrite try_into_length.
Qed.
(** A backup opens with its password as the state it was made of, when the
    program restores the kind of state it backs up.  A backup of the other kind is
    refused before its password is tried, whatever the password, and an empty
    password neither makes nor opens one. *)
Theorem backup_roundtrip {T} `{!Serde T, !SerdeLaws T} (state : T) salt nonce password kind bs :
  drawn SALT_LEN salt → drawn NONCE_LEN nonce →
  encode_state_backup salt nonce state password kind = Ok bs →
  decode_state_backup bs password kind = Ok state
  ∧ password ≠ []
  ∧ (decode_state_backup bs [] kind : result _ T) = Err EmptyPassword
  ∧ ∀ other guess, kind ≠ other → guess ≠ [] →
      (decode_state_backup bs guess other : result _ T) = Err (StateKindMismatch other kind).
Proof.
  intros Hsalt Hnonce. unfold encode_state_backup, require_password. destruct password as [|p ps]; [done|].
  cbn [is_empty bail_if mbind result_mbind]. destruct (to_vec state) as [plain|] eqn:Hs; [|done].
  cbn. destruct salt as [salt|], nonce as [nonce|]; [|done..]. cbn.
  destruct (Hsalt _ eq_refl) as [Hsl Hsw], (Hnonce _ eq_refl) as [Hnl Hnw].
  destruct (serialize_associated_data _ _ _) as [ad|] eqn:Had; [|done]. cbn.
  destruct (derive_key _ _) as [key|] eqn:Hk; [|done]. cbn.
  destruct (xchacha_encrypt _ _ _ _) as [c|] eqn:Hc; [|done]. cbn.
  intros Hbs%ok_or_Ok%from_to_vec.
  split_and!; [|done|done|].
  - unfold decode_state_backup, require_password. cbn [is_empty bail_if mbind result_mbind].
    rewrite Hbs. cbn. unfold validate_envelope, bail_if. cbn.
    rewrite (bool_decide_false (kind ≠ kind)) by (intros Hf; by apply Hf). cbn.
    rewrite (decode_fixed_encode SALT_LEN salt Hsl Hsw), (decode_fixed_encode NONCE_LEN nonce Hnl Hnw). cbn.
    rewrite (base64_decode_encode c (xchacha_encrypt_bytes _ _ _ _ _ Hc)). cbn.
    rewrite Had. cbn. rewrite Hk. cbn. rewrite (xchacha_decrypt_encrypt _ _ _ _ _ Hc). cbn.
    by rewrite (from_to_vec _ _ Hs).
  - intros other guess Hne Hg. unfold decode_state_backup, require_password.
    destruct guess; [done|]. cbn [is_empty bail_if mbind result_mbind].
    rewrite Hbs. cbn. unfold validate_envelope, bail_if. cbn [be_format be_format_version be_state_kind].
    rewrite (bool_decide_false (FORMAT_NAME ≠ FORMAT_NAME)) by (intros Hf; by apply Hf).
    by rewrite (bool_decide_true (kind ≠ other) Hne).
Qed.
End backups.

(** ** Links *)
(** ** Links *)
(** The operation fails and changes nothing. *)
Definition refused {E A} (m : handler FileSystem E A) (s : FileSystem) : Prop :=
  ∃ e n, m s = (Err e, with_calls s n).
Lemma refused_bind {E A B} (m : handler FileSystem E A) (f : A → handler FileSystem E B) s :
  refused m s → refused (m ≫= f) s.
Proof. intros (e & n & Hm). exists e, n. by apply handler_bind_Err. Qed.
Lemma refused_convert {E F A} (g : E → F) (m : handler FileSystem E A) s :
  refused m s → refused (convert g m) s.
Proof. intros (e & n & Hm). exists (g e), n. unfold convert, mbind, handler_bind, attempt. by rewrite Hm. Qed.

Section links.
Context (kn : Kernel) (Hhonest : honest kn).
(** The first link on the way to a location, below directories. *)
Definition through_link (names : namespace) (at_ : location) (k : nat) : Prop :=
  (0 < k ≤ length at_)%nat ∧ is_link (names !! take k at_) = true
  ∧ ∀ j, (0 < j < k)%nat → names !! take j at_ = Some Directory.
Lemma stat_prefix s at_ k :
  through_link (fs_names s) at_ k → ∀ j, (0 < j ≤ k)%nat →
  resolve kn s false (absolute (take j at_)) = Ok (take j at_).
Proof.
  intros (Hk & Hlink & Hdirs) j Hj. destruct (exists_last (l := take j at_)) as (ds & x & Heq).
  { intros Hnil. apply (f_equal length) in Hnil. rewrite length_take in Hnil. cbn in Hnil. lia. }
  assert (length ds = (j - 1)%nat) as Hlen.
  { apply (f_equal length) in Heq. rewrite length_take, length_app in Heq. cbn in Heq. lia. }
  assert (∀ i, (i ≤ length ds)%nat → take i ds = take i at_) as Htake.
  { intros i Hi. transitivity (take i (take j at_)).
    - rewrite Heq. by rewrite take_app_le.
    - rewrite take_take. f_equal. lia. }
  change (walk MAX_LINKS (fs_names s) false (kn_cwd kn) (RootDir :: map Normal (take j at_))
    = Ok (take j at_)). rewrite walk_cons, Heq.
  apply (walk_final MAX_LINKS (fs_names s) [] ds x).
  intros i Hi. cbn. rewrite Htake by lia. apply Hdirs. lia.
Qed.

Lemma metadata_prefix s at_ k j :
  through_link (fs_names s) at_ k → (0 < j ≤ k)%nat →
  ∃ r, symlink_metadata kn (absolute (take j at_)) s = (r, with_calls s (S (fs_calls s)))
    ∧ match r with
      | Ok m => (md_type m = IsSymlink ↔ j = k)
      | Err e => e ≠ NotFound
      end.
Proof.
  intros Hl Hj. unfold symlink_metadata, stat, syscall.
  destruct (kn_fails kn (fs_calls s)) as [e|] eqn:Hf.
  { eexists. split; [done|]. intros ->. by destruct (Hhonest _ Hf). }
  cbv [mbind handler_bind read lift].
  rewrite (stat_prefix (with_calls s (S (fs_calls s))) at_ k Hl j Hj).
  destruct Hl as (Hk & Hlink & Hdirs).
  assert (entry_at (fs_names (with_calls s (S (fs_calls s)))) (take j at_)
    = fs_names s !! take j at_) as Hentry.
  { assert (take j at_ ≠ []) by (apply take_nonempty; [lia|by intros ->; cbn in Hk; lia]).
    by destruct (take j at_). }
  rewrite Hentry. destruct (decide (j = k)) as [->|Hne].
  - destruct (fs_names s !! take k at_) as [[|target|i]|] eqn:He; try done.
    eexists. split; [reflexivity|done].
  - rewrite (Hdirs j) by lia. eexists. split; [reflexivity|]. cbn. split; [done|lia].
Qed.
Lemma reject_links_refused at_ k n : ∀ j s,
  through_link (fs_names s) at_ k → (k = j + S n)%nat →
  refused (reject_links kn (absolute (take j at_)) (map Normal (drop j at_))) s.
Proof.
  induction n as [|n IH]; intros j s Hl ->; pose proof Hl as ((_ & Hle) & _);
    (destruct (lookup_lt_is_Some_2 at_ j) as [x Hx]; [lia|]);
    rewrite (drop_S _ _ _ Hx); cbn [map reject_links];
    (replace (absolute (take j at_) ++ [Normal x]) with (absolute (take (S j) at_))
      by (rewrite (take_S_r _ _ _ Hx); unfold absolute; by rewrite map_app));
    destruct (metadata_prefix s at_ _ (S j) Hl) as (r & Hr & Hm); try lia;
    unfold refused, mbind, handler_bind, attempt; rewrite Hr.
  - destruct r as [m|[]]; try done; try (eexists _, _; reflexivity).
    rewrite bool_decide_true; [|apply Hm; lia]. eexists _, _. reflexivity.
  - destruct r as [m|[]]; try done; try (eexists _, _; reflexivity).
    rewrite bool_decide_false; [|intros Hs; apply Hm in Hs; lia].
    destruct (IH (S j) (with_calls s (S (fs_calls s)))) as (e & c & Hc); [exact Hl|lia|].
    exists e, c. exact Hc.
Qed.
Lemma no_parent_absolute at_ :
  existsb (λ c, bool_decide (c = ParentDir)) (absolute at_) = false.
Proof.
  change (existsb (λ c, bool_decide (c = ParentDir)) (map Normal at_) = false).
  induction at_ as [|x at_ IH]; [done|]. cbn [map existsb]. by rewrite IH.
Qed.
Lemma reject_refused s at_ k :
  at_ ≠ [] → Forall plain_name at_ → through_link (fs_names s) at_ k →
  refused (reject_symlink_path kn (text_of at_)) s.
Proof.
  intros Hne Hp Hl. unfold reject_symlink_path. rewrite components_text by done.
  rewrite no_parent_absolute.
  pose proof Hl as ((Hk & _) & _).
  change (refused (reject_links kn (absolute []) (map Normal (drop 0 at_))) s).
  apply (reject_links_refused at_ k (k - 1) 0 s Hl). lia.
Qed.
End links.

(** No state file is touched through a symbolic link.  When any component of
    its path, the file's own name included, is a link, taking the lock, reading,
    replacing and recovering the file each fail before they have changed anything,
    whichever system calls fail. *)
Theorem links_refused `{UuidLib} `{!UuidText} `{StateLib} `{!Serde ProtectedStateEnvelope} {T}
    `{!Serde T} (kn : Kernel) (fresh : Uuid) random (at_ : location) (k : nat) (value : T)
    purpose protection maximum (s : FileSystem) :
  honest kn → at_ ≠ [] → Forall plain_name at_ → through_link (fs_names s) at_ k →
  let path := text_of at_ in
  refused (acquire kn path) s
  ∧ refused (read_protected_state_file kn path purpose maximum : state_op _ (DecodedState T)) s
  ∧ refused (write_protected_state_file_with kn fresh random path value purpose protection) s
  ∧ refused (recover_protected_state_file kn fresh path) s
  ∧ refused (restrict_state_file_permissions kn path) s.
Proof.
  intros Hh Hne Hp Hl path. pose proof (reject_refused kn Hh s at_ k Hne Hp Hl) as Hr.
  split_and!; apply refused_bind; try exact Hr; by apply refused_convert.
Qed.

(** ** State files, envelopes and backups for the witnesses *)
(** ** The libraries *)
#[export] Instance state_concrete : StateLib := {|
  xchacha_encrypt k n a m := if decide (wf_bytes m) then Some (m ++ toy_tag k n a m) else None;
  xchacha_decrypt := toy_decrypt;
  base64_encode := of_bytes;
  base64_decode s := Some (bytes_of_string s);
|}.
#[export] Instance state_concrete_laws : StateLibLaws.
Proof.
  split; cbn -[toy_tag toy_decrypt].
  - intros k n a m c. case_decide; [|done]. intros [= <-]. unfold toy_decrypt.
    rewrite length_app, Nat.add_sub.
    rewrite take_app_length, drop_app_length. by rewrite decide_True.
  - intros k n a m c. case_decide as Hw; [|done]. intros [= <-]. apply Forall_app. split; [done|].
    apply be_bytes_wf.
  - intros bs Hw. by rewrite bytes_of_of_bytes.
Qed.
#[export] Instance argon2_concrete : Argon2Lib := {| argon2id password salt := Some (password ++ salt) |}.

(** A document is a mark and a list of numbers and texts; no document of one mark
    is one of another. *)
Lemma of_bytes_of_string s : of_bytes (bytes_of_string s) = s.
Proof.
  induction s as [|a s IH]; [done|]. cbn. rewrite IH. f_equal. unfold ascii_of.
  rewrite Nat2Z.id. apply ascii_nat_embedding.
Qed.
Abbreviation field := (Z + string)%type.
Definition put_field (x : field) : bytes :=
  match x with
  | inl z => [0; z]
  | inr s => 1 :: len (bytes_of_string s) :: bytes_of_string s
  end.
Fixpoint get_fields (fuel : nat) (bs : bytes) : list field :=
  match fuel, bs with
  | S fuel, 0 :: z :: rest => inl z :: get_fields fuel rest
  | S fuel, 1 :: n :: rest =>
      inr (of_bytes (take (Z.to_nat n) rest)) :: get_fields fuel (drop (Z.to_nat n) rest)
  | _, _ => []
  end.
Lemma get_put_fields l fuel :
  (length l ≤ fuel)%nat → get_fields fuel (concat (map put_field l)) = l.
Proof.
  revert fuel. induction l as [|[z|s] l IH]; intros [|fuel] Hf; cbn in Hf; try lia; cbn [map concat put_field app].
  - done.
  - done.
  - cbn. by rewrite IH by lia.
  - cbn [get_fields app]. unfold len. rewrite Nat2Z.id, take_app_length, drop_app_length.
    by rewrite of_bytes_of_string, IH by lia.
Qed.
Definition document {T} (mark : Z) (count : nat) (f : T → list field) (g : list field → option T)
    : Serde T :=
  {| to_vec x := Some (mark :: concat (map put_field (f x)));
     from_slice bs := match bs with
                      | m :: bs => if m =? mark then g (get_fields count bs) else None
                      | [] => None
                      end |}.
Lemma document_laws {T} mark count (f : T → list field) g :
  (∀ x, g (f x) = Some x ∧ (length (f x) ≤ count)%nat) → @SerdeLaws T (document mark count f g).
Proof.
  intros Hg. split; cbn; [by eauto|]. intros x bs [= <-]. destruct (Hg x) as [Hx Hl].
  by rewrite Z.eqb_refl, get_put_fields.
Qed.
#[export] Instance envelope_serde : Serde ProtectedStateEnvelope :=
  document 2 4
    (λ e, [inl (ve_format_version e); inr (ve_protection e); inr (ve_ciphertext_base64 e)]
          ++ match ve_nonce_base64 e with Some n => [inr n] | None => [] end)
    (λ l, match l with
          | [inl v; inr p; inr c; inr n] => Some (mkProtectedStateEnvelope v p (Some n) c)
          | [inl v; inr p; inr c] => Some (mkProtectedStateEnvelope v p None c)
          | _ => None
          end).
#[export] Instance envelope_serde_laws : SerdeLaws ProtectedStateEnvelope.
Proof. apply document_laws. intros [? ? [] ?]; cbn; split; (done || lia). Qed.
Definition kind_number (kind : StateBackupKind) : Z := if bool_decide (kind = AgentBackup) then 0 else 1.
Definition kind_of (n : Z) : StateBackupKind := if n =? 0 then AgentBackup else ControllerBackup.
Definition header_fields format version kind kdf cipher : list field :=
  [inr format; inl version; inl (kind_number kind); inr (kh_algorithm kdf); inl (kh_version kdf);
   inl (kh_memory_kib kdf); inl (kh_iterations kdf); inl (kh_parallelism kdf);
   inr (kh_salt_base64 kdf); inr (ch_algorithm cipher); inr (ch_nonce_base64 cipher)].
#[export] Instance backup_serde : Serde BackupEnvelope :=
  document 3 12
    (λ e, header_fields (be_format e) (be_format_version e) (be_state_kind e) (be_kdf e) (be_cipher e)
          ++ [inr (be_ciphertext_base64 e)])
    (λ l, match l with
          | [inr f; inl v; inl k; inr a; inl kv; inl m; inl i; inl p; inr s; inr ca; inr n; inr c] =>
              Some (mkBackupEnvelope f v (kind_of k) (mkKdfHeader a kv m i p s) (mkCipherHeader ca n) c)
          | _ => None
          end).
#[export] Instance backup_serde_laws : SerdeLaws BackupEnvelope.
Proof. apply document_laws. intros [? ? [] [] [] ?]; cbn; split; (done || lia). Qed.
#[export] Instance associated_serde : Serde AssociatedData :=
  document 4 11
    (λ e, header_fields (ad_format e) (ad_format_version e) (ad_state_kind e) (ad_kdf e) (ad_cipher e))
    (λ l, match l with
          | [inr f; inl v; inl k; inr a; inl kv; inl m; inl i; inl p; inr s; inr ca; inr n] =>
              Some (mkAssociatedData f v (kind_of k) (mkKdfHeader a kv m i p s) (mkCipherHeader ca n))
          | _ => None
          end).
(** The state of the witnesses: a version and a name. *)
Definition Sample : Type := Z * string.
#[export] Instance sample_serde : Serde Sample :=
  document 1 2 (λ x, [inl x.1; inr x.2])
    (λ l, match l with [inl v; inr n] => Some (v, n) | _ => None end).
#[export] Instance sample_serde_laws : SerdeLaws Sample.
Proof. apply document_laws. intros []; cbn; split; (done || lia). Qed.
Definition old_state : Sample := (1, "old"%string).
Definition new_state : Sample := (2, "new"%string).
Definition encoded (x : Sample) : bytes := default [] (to_vec x).

(** ** The files *)
Definition meshlake_dirs : location := ["var"; "lib"; "meshlake"]%string.
Definition state_location : location := meshlake_dirs ++ ["state.json"]%string.
Definition stored (x : Sample) : Inode := mkInode (encoded x) true 384 [] 0.
Definition files (names : list (location * Entry)) (inodes : list (nat * Inode)) : FileSystem :=
  mkFileSystem (list_to_map names) [] (list_to_map inodes) (length inodes) ∅ 0.
Definition meshlake_names : list (location * Entry) :=
  [(["var"], Directory); (["var"; "lib"], Directory); (meshlake_dirs, Directory)]%string.
Definition installed : FileSystem :=
  files ((state_location, Regular 0) :: meshlake_names) [(0%nat, stored old_state)].
Definition only_backup : FileSystem :=
  files ((meshlake_dirs ++ ["state.json.bak"]%string, Regular 0) :: meshlake_names)
    [(0%nat, stored old_state)].
Definition linked : FileSystem :=
  files ((meshlake_dirs, Symlink "/tmp/elsewhere")
         :: [(["var"], Directory); (["var"; "lib"], Directory); (["tmp"], Directory);
             (["tmp"; "elsewhere"], Directory);
             (["tmp"; "elsewhere"; "state.json"], Regular 0)]%string)
    [(0%nat, stored old_state)].
(** A kernel whose calls fail from the given one on, and one that fails once. *)
Definition kernel (fails : nat → option IoErrorKind) : Kernel :=
  mkKernel fails (λ _, 3%nat) [] 0 18.
Definition fails_from (n : nat) (call : nat) : option IoErrorKind :=
  if (n <=? call)%nat then Some OtherIo else None.
Definition fails_at (n : nat) (call : nat) : option IoErrorKind :=
  if (n =? call)%nat then Some OtherIo else None.
(** The crash that loses nothing. *)
Definition rebooted (s : FileSystem) : FileSystem :=
  mkFileSystem (fs_names s) [] (flushed <$> fs_inodes s) (fs_next s) ∅ (fs_calls s).
Lemma crash_rebooted s : crash s (rebooted s).
Proof.
  split; try done; [apply list_elem_of_here|]. intros i. cbn. rewrite lookup_fmap.
  destruct (fs_inodes s !! i) as [n|]; constructor. split_and!; [done|done| |done|done].
  apply list_elem_of_here.
Qed.
Definition sample_key : bytes := replicate 32 9.
Definition sample_protection : StateProtection :=
  mkStateProtection (LinuxMasterKey sample_key) LinuxSystemdCredential false.
Definition sample_random : option bytes := Some (replicate 24 3).
Lemma sample_drawn : drawn LINUX_NONCE_LEN sample_random.
Proof. intros bs [= <-]. by vm_decide. Qed.

(** ** Witnesses *)
Lemma meshlake_plain name : plain_name name → Forall plain_name (meshlake_dirs ++ [name]).
Proof. intros. apply Forall_app. split; [|by apply Forall_singleton]. by vm_decide. Qed.
Lemma state_name_plain : Forall plain_name state_location.
Proof. apply meshlake_plain. by vm_decide. Qed.
Lemma meshlake_below (P : location → Prop) :
  P (take 1 meshlake_dirs) → P (take 2 meshlake_dirs) → P meshlake_dirs →
  ∀ k, take k meshlake_dirs ≠ [] → P (take k meshlake_dirs).
Proof. intros H1 H2 H3 [|[|[|k]]]; cbn; rewrite ?take_nil; done. Qed.
Lemma meshlake_unlinked s :
  fs_names s !! take 1 meshlake_dirs = Some Directory →
  fs_names s !! take 2 meshlake_dirs = Some Directory →
  fs_names s !! meshlake_dirs = Some Directory →
  unlinked meshlake_dirs (fs_names s) ∧ directories meshlake_dirs (fs_names s).
Proof.
  intros Ha Hb Hc. split.
  - refine (meshlake_below (λ at_, is_link (fs_names s !! at_) = false) _ _ _); by rewrite ?Ha, ?Hb, ?Hc.
  - intros k Hk. refine (meshlake_below (λ at_, fs_names s !! at_ = Some Directory) Ha Hb Hc k _).
    apply take_nonempty; [lia|done].
Qed.
Lemma settled_regular s at_ i n :
  fs_pending s = [] → fs_names s !! at_ = Some (Regular i) → (i < fs_next s)%nat →
  fs_inodes s !! i = Some n → in_flushed n = true → settled s at_.
Proof. intros Hp Hi Hlt Hn Hf. split; [done|]. rewrite Hi. intros j [= <-]. split; [done|by exists n]. Qed.

Definition write_sample (fails : nat → option IoErrorKind)
    : result StateFileError unit * FileSystem :=
  write_protected_state_file_with (kernel fails) (uuid_of 7) sample_random (text_of state_location)
    new_state AGENT_STATE_PROTECTION_PURPOSE sample_protection installed.
Lemma write_sample_run fails :
  write_protected_state_file_with (kernel fails) (uuid_of 7) sample_random (text_of state_location)
    new_state AGENT_STATE_PROTECTION_PURPOSE sample_protection installed
  = ((write_sample fails).1, (write_sample fails).2).
Proof. unfold write_sample. by destruct (write_protected_state_file_with _ _ _ _ _ _ _ _). Qed.
(** The system goes down while the temporary is written, just after the rename,
    and not at all. *)
Example write_sample_outcomes :
  map (λ n, content (rebooted (write_sample (fails_from n)).2) state_location) [19%nat]
    = [Some (encoded old_state)]
  ∧ map (λ n, is_ok (write_sample (fails_from n)).1) [19; 28; 34]%nat = [false; false; true].
Proof. by vm_compute. Qed.
Lemma state_write_atomic_witness :
  let file := state_location in
  let s := rebooted (write_sample (fails_from 28)).2 in
  let written := ∃ bs, encode_protected_state_with sample_random new_state
      AGENT_STATE_PROTECTION_PURPOSE sample_protection = Ok bs ∧ content s file = Some bs in
  settled s file ∧ (content s file = content installed file ∨ written)
  ∧ ((write_sample (fails_from 28)).1 = Ok tt → written).
Proof.
  apply (state_write_atomic (kernel (fails_from 28)) (uuid_of 7) sample_random meshlake_dirs
    "state.json" new_state AGENT_STATE_PROTECTION_PURPOSE sample_protection installed
    (write_sample (fails_from 28)).1 (write_sample (fails_from 28)).2).
  - apply state_name_plain.
  - by vm_compute.
  - by apply (settled_regular _ _ 0 (stored old_state)); vm_compute.
  - by apply meshlake_unlinked; vm_compute.
  - apply write_sample_run.
  - apply crash_rebooted.
Defined.

Definition recover_sample (fails : nat → option IoErrorKind)
    : result StateFileError unit * FileSystem :=
  recover_protected_state_file (kernel fails) (uuid_of 8) (path meshlake_dirs "state.json") only_backup.
Lemma recover_sample_run fails :
  recover_protected_state_file_with_validation (λ e, e) (kernel fails) (uuid_of 8)
    (path meshlake_dirs "state.json") MAX_GENERIC_RECOVERY_BYTES (λ _ _, Ok tt) only_backup
  = ((recover_sample fails).1, (recover_sample fails).2).
Proof.
  unfold recover_sample, recover_protected_state_file.
  by destruct (recover_protected_state_file_with_validation _ _ _ _ _ _ _).
Qed.
Lemma recovery_atomic_witness :
  let s := rebooted (recover_sample (fails_from 28)).2 in
  (recovered meshlake_dirs "state.json" (encoded old_state) s
   ∨ backed_up meshlake_dirs "state.json" (encoded old_state) s)
  ∧ ((recover_sample (fails_from 28)).1 = Ok tt →
     recovered meshlake_dirs "state.json" (encoded old_state) s).
Proof.
  apply (recovery_atomic (λ e, e) (kernel (fails_from 28)) (uuid_of 8) meshlake_dirs "state.json"
    MAX_GENERIC_RECOVERY_BYTES (λ _ _, Ok tt) (encoded old_state) only_backup
    (recover_sample (fails_from 28)).2 _ (recover_sample (fails_from 28)).1).
  - intros n. cbn. unfold fails_from. by case_match.
  - apply state_name_plain.
  - by vm_compute.
  - by apply meshlake_unlinked; vm_compute.
  - split_and!; [by vm_compute|by vm_compute|].
    by apply (settled_regular _ _ 0 (stored old_state)); vm_compute.
  - apply recover_sample_run.
  - apply crash_rebooted.
Defined.

Lemma links_refused_witness :
  let path := text_of state_location in
  let kn := kernel (fails_from 1000) in
  refused (acquire kn path) linked
  ∧ refused (read_protected_state_file kn path AGENT_STATE_PROTECTION_PURPOSE 100
             : state_op _ (DecodedState Sample)) linked
  ∧ refused (write_protected_state_file_with kn (uuid_of 7) None path new_state
             AGENT_STATE_PROTECTION_PURPOSE platform_default) linked
  ∧ refused (recover_protected_state_file kn (uuid_of 7) path) linked
  ∧ refused (restrict_state_file_permissions kn path) linked.
Proof.
  apply (links_refused (kernel (fails_from 1000)) (uuid_of 7) None state_location 3 new_state
    AGENT_STATE_PROTECTION_PURPOSE platform_default 100 linked).
  - intros n. cbn. unfold fails_from. by case_match.
  - done.
  - apply state_name_plain.
  - split_and!; [cbn; lia|cbn; lia|by vm_compute|].
    intros [|[|[|j]]] Hj; try lia; by vm_compute.
Defined.

Lemma protected_state_roundtrip_witness :
  let bs := default [] (ok (encode_protected_state_with sample_random new_state
              AGENT_STATE_PROTECTION_PURPOSE sample_protection)) in
  decode_protected_state_with bs AGENT_STATE_PROTECTION_PURPOSE sample_protection
    = Ok (mkDecodedState new_state false)
  ∧ (decode_protected_state bs AGENT_STATE_PROTECTION_PURPOSE : result _ (DecodedState Sample))
    = Err MissingMasterKey.
Proof.
  apply (protected_state_roundtrip new_state sample_random AGENT_STATE_PROTECTION_PURPOSE
    sample_protection _ sample_drawn).
  - intros plain. vm_compute. by intros [= <-].
  - by vm_compute.
Defined.
Definition sealed_sample : bytes :=
  default [] (ok (encode_protected_state_with sample_random new_state
    AGENT_STATE_PROTECTION_PURPOSE sample_protection)).
Lemma protected_state_authenticated_witness :
  sealed_state sealed_sample AGENT_STATE_PROTECTION_PURPOSE sample_key new_state.
Proof.
  destruct (protected_state_authenticated sealed_sample AGENT_STATE_PROTECTION_PURPOSE sample_key
    LinuxSystemdCredential false (mkDecodedState new_state false)) as [(_ & Hs & _)|(Hf & _)].
  - by vm_compute.
  - exact Hs.
  - done.
Defined.
Definition backup_sample : bytes :=
  default [] (ok (encode_state_backup (Some (replicate 16 4)) (Some (replicate 24 5)) new_state
    (bytes_of_string "hunter2") AgentBackup)).
Lemma backup_roundtrip_witness :
  decode_state_backup backup_sample (bytes_of_string "hunter2") AgentBackup = Ok new_state
  ∧ bytes_of_string "hunter2" ≠ []
  ∧ (decode_state_backup backup_sample [] AgentBackup : result _ Sample) = Err EmptyPassword
  ∧ ∀ other guess, AgentBackup ≠ other → guess ≠ [] →
      (decode_state_backup backup_sample guess other : result _ Sample)
      = Err (StateKindMismatch other AgentBackup).
Proof.
  apply (backup_roundtrip new_state (Some (replicate 16 4)) (Some (replicate 24 5))).
  - intros bs [= <-]. by vm_decide.
  - intros bs [= <-]. by vm_decide.
  - by vm_compute.
Defined.
