(* ===== verification/CoreFacts.v ===== *)
(** * Properties of the signed documents of [meshlake-core]

    Service identities, membership certificates and authorization manifests,
    relay acknowledgements, and overlay packets. *)
From S2P Require Import Prelude Net Text Ext Concrete Model ServiceIdentity Membership.
From S2P Require Import Authorization RelayProto Session RootProto Policy Samples.
#[local] Open Scope Z_scope.

Section identity_properties.
Context `{UuidLib} `{Ed25519}.

(** key rotation of a service identity.  A message is accepted exactly
    when it carries one valid signature of each required key, in order, and
    none of a revoked key; the required keys are the current key before a
    rotation opens, both keys while it is open and, with a rotation declared,
    none afterwards, so nothing is accepted then. *)
Theorem service_signatures_rotation (p : ServiceIdentityPolicy) message signatures now :
  (verify_signatures p message signatures now = Ok tt
   ↔ ∃ ks, required_spec p now ks
       ∧ Forall (λ s, ss_public_key s ∉ revoked_public_keys p) signatures
       ∧ Forall2 (λ key s, ss_public_key s = key ∧ signature_valid key message (ss_signature s))
           ks signatures)
  ∧ (∀ not_after, transition_not_after p = Some not_after → not_after < now →
     verify_signatures p message signatures now ≠ Ok tt).
Proof.
  split; [apply verify_signatures_Ok|]. intros na Hna Hlt (ks & Hks & _)%verify_signatures_Ok.
  destruct Hks; simplify_eq; lia.
Qed.

(** a service that holds the required keys is always accepted. *)
Theorem service_signatures_complete `{!Ed25519Laws} (p : ServiceIdentityPolicy) message keys now :
  required_public_keys p now = Ok (map public_bytes keys) →
  verify_signatures p message (service_signatures keys message) now = Ok tt.
Proof. intros Hk%required_public_keys_sound. by apply service_signatures_accepted. Qed.
End identity_properties.

Lemma service_signatures_complete_witness :
  verify_signatures sample_identity [1; 2] (service_signatures [service_key; next_service_key] [1; 2])
    150 = Ok tt.
Proof.
  apply (service_signatures_complete sample_identity [1; 2] [service_key; next_service_key] 150).
  exact sample_identity_keys.
Defined.

Section authorization_properties.
Context `{UuidLib} `{Ed25519Laws} `{!MembershipSerde} `{!AuthorizationSerde}.

(** a manifest the controller signs is accepted by those who pin the
    controller, until it expires, and admits a certificate exactly when the
    certificate is of the manifest's network and key epoch, is a listed
    member with that identifier and device key, and is not revoked. *)
Theorem authorization_sign_verify network epoch key_epoch members revoked issued expires key m
    now :
  auth_sign network epoch key_epoch members revoked issued expires key = Ok m →
  now ≤ expires → issued ≤ sat_add64 now 120 →
  auth_verify_from_controller m (public_bytes key) now = Ok tt
  ∧ ∀ c, authorizes m c = true ↔
      mc_network_id (cert_claims c) = network ∧ cert_network_key_epoch c = key_epoch
      ∧ cert_id c ∉ revoked
      ∧ mkAuthorizedMembership (mc_device_id (cert_claims c)) (cert_id c)
          (mc_device_public_key (cert_claims c)) (cert_network_key_epoch c) ∈ members.
Proof.
  intros Hs He Hi. split; [by eapply auth_verify_iff, auth_sign_valid|].
  intros c. rewrite authorizes_iff. by eapply auth_sign_authorizes.
Qed.

(** a certificate is accepted exactly when the pinned controller signed
    its claims in a known version, with a real identifier and key epoch, and
    it has not expired; and one the controller signs is accepted. *)
Theorem certificate_sign_verify claims id epoch key c now :
  sign_authorized claims id epoch key = Ok c →
  is_nil id = false → 0 < epoch →
  (∀ expiry, mc_expires_at claims = Some expiry → now ≤ expiry) →
  cert_verify_from_controller c (public_bytes key) now = Ok tt
  ∧ ∀ c' key', cert_verify_from_controller c' key' now = Ok tt ↔ certificate_valid key' now c'.
Proof.
  intros Hs Hid Hep Hexp. split; [|intros; apply cert_verify_iff].
  by eapply cert_verify_iff, sign_authorized_valid.
Qed.

(** authorization hints are ordered.  [supersedes] is a strict partial
    order on hints, only relates hints of one network, and never goes back to
    an earlier authorization epoch. *)
Theorem hint_order (h1 h2 h3 : AuthorizationEpochHint) :
  supersedes h1 h1 = false
  ∧ (supersedes h1 h2 = true → supersedes h2 h1 = false)
  ∧ (supersedes h1 h2 = true → supersedes h2 h3 = true → supersedes h1 h3 = true)
  ∧ (supersedes h1 h2 = true → hint_network_id h1 = hint_network_id h2
       ∧ hint_authorization_epoch h2 ≤ hint_authorization_epoch h1).
Proof.
  split_and!; [apply supersedes_irrefl| |apply supersedes_trans|apply supersedes_epoch].
  intros H12. apply not_true_is_false. intros H21.
  pose proof (supersedes_trans _ _ _ H12 H21). by rewrite supersedes_irrefl in *.
Qed.
End authorization_properties.

Lemma authorization_sign_verify_witness :
  auth_verify_from_controller sample_authorization controller_public 150 = Ok tt
  ∧ ∀ c, authorizes sample_authorization c = true ↔
      mc_network_id (cert_claims c) = net_a ∧ cert_network_key_epoch c = 1
      ∧ cert_id c ∉ [uuid_of 40; uuid_of 40]
      ∧ mkAuthorizedMembership (mc_device_id (cert_claims c)) (cert_id c)
          (mc_device_public_key (cert_claims c)) (cert_network_key_epoch c)
        ∈ [member_of bob_certificate; member_of alice_certificate].
Proof.
  apply (authorization_sign_verify net_a 5 1 [member_of bob_certificate; member_of alice_certificate]
    [uuid_of 40; uuid_of 40] 100 500 controller_key).
  - unfold sample_authorization. apply unwrap_Ok. by vm_compute.
  - lia.
  - by vm_compute.
Defined.
Lemma certificate_sign_verify_witness :
  cert_verify_from_controller alice_certificate controller_public 150 = Ok tt
  ∧ ∀ c' key', cert_verify_from_controller c' key' 150 = Ok tt ↔ certificate_valid key' 150 c'.
Proof.
  apply (certificate_sign_verify (claims_for alice alice_key 2) (uuid_of 31) 1 controller_key).
  - unfold alice_certificate, certificate_of. apply unwrap_Ok. by vm_compute.
  - by vm_compute.
  - lia.
  - intros e [= <-]. lia.
Defined.
Lemma hint_order_witness :
  let h e := mkAuthorizationEpochHint 1 net_a e 1 100 200 [] [] in
  supersedes (h 3) (h 3) = false
  ∧ (supersedes (h 3) (h 2) = true → supersedes (h 2) (h 3) = false)
  ∧ (supersedes (h 3) (h 2) = true → supersedes (h 2) (h 1) = true → supersedes (h 3) (h 1) = true)
  ∧ (supersedes (h 3) (h 2) = true → hint_network_id (h 3) = hint_network_id (h 2)
       ∧ hint_authorization_epoch (h 2) ≤ hint_authorization_epoch (h 3)).
Proof. intros h. apply (hint_order (h 3) (h 2) (h 1)). Defined.

Section relay_properties.
Context `{UuidLib} `{Ed25519} `{!RelaySerde}.

(** registration acknowledgements.  An acknowledgement is accepted
    exactly when it is of the protocol version, answers this registration
    (network, device, relay and nonce), lives at most 30 seconds and now,
    names an endpoint a host can have, and carries the signatures the pinned
    identity requires; and what a relay with those keys signs for a real
    endpoint is accepted. *)
Theorem relay_ack_accepted_iff `{!Ed25519Laws} a identity network device nonce now skew :
  (relay_ack_verify a identity network device nonce now skew = Ok tt
   ↔ relay_ack_valid identity network device nonce now skew a)
  ∧ ∀ source issued expires hint keys,
      relay_ack_sign network device (service_id identity) nonce source issued expires hint keys
        = Ok a →
      required_spec identity now (map public_bytes keys) →
      issued ≤ expires ≤ issued + 30 → issued ≤ sat_add64 now skew → now ≤ expires →
      receiver_endpoint_valid (ObservedRegistrationSource source) = true →
      relay_ack_verify a identity network device nonce now skew = Ok tt.
Proof.
  split; [apply relay_ack_verify_iff|]. unfold relay_ack_sign. intros s i e h keys Hs Hr ? ? ? ?.
  inv_ok. subst. apply relay_ack_verify_iff. split; cbn; try done; try lia.
  eexists. split; [eassumption|]. by apply service_signatures_accepted.
Qed.

Lemma seal_relay_packet_Ok `{SessionCrypto} key nonce n s d plaintext packet :
  seal_relay_packet key (Some nonce) n s d plaintext = Ok packet ↔
  ∃ c, aead_encrypt (NetworkKey_to_bytes key) nonce (routing_header RELAY_DATA n s d) plaintext
      = Some c
    ∧ packet = routing_header RELAY_DATA n s d ++ nonce ++ c.
Proof.
  unfold seal_relay_packet, relay_associated_data, NetworkKey_seal. cbn [ok_or]. rewrite bind_ret. split.
  - intros Hs. apply bind_Ok in Hs as (sealed & Hs & Hp). apply bind_Ok in Hs as (c & Hc & Hs).
    inv_ok. subst. eauto.
  - intros (c & Hc & ->). by pass_call Hc.
Qed.

(** overlay packets round trip.  Opening
    what [seal_relay_packet] built returns the route and the plaintext, and
    the associated data pins the route: headers of different routes differ. *)
Theorem relay_packet_roundtrip `{!UuidLaws} `{SessionCryptoLaws} key nonce n s d plaintext packet :
  seal_relay_packet key (Some nonce) n s d plaintext = Ok packet → length nonce = 24%nat →
  open_relay_packet key packet = Ok (n, s, d, plaintext)
  ∧ ∀ n' s' d', relay_associated_data n s d = relay_associated_data n' s' d' →
      n = n' ∧ s = s' ∧ d = d'.
Proof.
  intros (c & Hc & ->)%seal_relay_packet_Ok Hn.
  split; [|by intros n' s' d' (_ & ? & ? & ?)%routing_header_inj].
  unfold open_relay_packet.
  rewrite header_prefix by
    (rewrite length_app, Hn; unfold RELAY_DATA_HEADER_LEN, NONCE_LENGTH; lia).
  pass_guard. destruct (header_fields RELAY_DATA n s d (nonce ++ c)) as (-> & -> & ->).
  cbn [ok_or]. rewrite !bind_ret.
  rewrite (slice_app_here RELAY_DATA_HEADER_LEN _ (routing_header RELAY_DATA n s d)) by
    (rewrite ?routing_header_length, ?Hn; done).
  rewrite (try_into_length NONCE_LENGTH nonce) by done. cbn [ok_or]. rewrite bind_ret.
  rewrite take_app_length' by (by rewrite routing_header_length).
  rewrite app_assoc, drop_app_length' by (rewrite length_app, routing_header_length, Hn; done).
  unfold NetworkKey_open. cbn [sp_nonce sp_ciphertext].
  by rewrite (aead_decrypt_encrypt _ _ _ _ _ Hc).
Qed.
End relay_properties.

Lemma relay_ack_accepted_iff_witness :
  let source := SA4 (ip4 203 0 113 7) 4000 in
  let signed := relay_ack_sign net_a alice service_uuid sample_nonce source 140 160 None
    [service_key; next_service_key] in
  let a := unwrap signed (mkSignedRelayRegistrationAck
    (mkRelayRegistrationAckPayload 0 net_a alice service_uuid [] (ObservedRegistrationSource source)
       0 0 None) []) in
  relay_ack_verify a sample_identity net_a alice sample_nonce 150 5 = Ok tt.
Proof.
  cbn zeta. eapply (proj2 (relay_ack_accepted_iff _ sample_identity net_a alice sample_nonce 150 5)).
  - apply (unwrap_Ok (relay_ack_sign net_a alice service_uuid sample_nonce
      (SA4 (ip4 203 0 113 7) 4000) 140 160 None [service_key; next_service_key])). by vm_compute.
  - apply required_public_keys_sound. exact sample_identity_keys.
  - lia.
  - by vm_compute.
  - lia.
  - by vm_compute.
Defined.
Lemma relay_packet_roundtrip_witness :
  let sealed := seal_relay_packet net_key (Some (replicate 24 4)) net_a alice bob [1; 2; 3] in
  is_ok sealed = true
  ∧ open_relay_packet net_key (unwrap sealed []) = Ok (net_a, alice, bob, [1; 2; 3])
  ∧ ∀ n' s' d', relay_associated_data net_a alice bob = relay_associated_data n' s' d' →
      net_a = n' ∧ alice = s' ∧ bob = d'.
Proof.
  cbn zeta. split; [by vm_compute|].
  apply (relay_packet_roundtrip net_key (replicate 24 4)); [|done]. apply unwrap_Ok. by vm_compute.
Defined.
