(* ===== verification/PolicyFacts.v ===== *)
(** * Properties of signed policies *)
From S2P Require Import Prelude Net Text Ext Concrete Model Membership Authorization Policy.
From S2P Require Import Samples.
#[local] Open Scope Z_scope.

(** ** Address prefixes *)
Section prefixes.
Context `{IpNetLaws}.

(** Blocks of the address space are nested or disjoint. *)
Lemma aligned_block_subset (w la lt a t : Z) :
  0 ≤ la ≤ lt → lt ≤ w → (2 ^ (w - la) | a) → (2 ^ (w - lt) | t) →
  a ≤ t < a + 2 ^ (w - la) → t + 2 ^ (w - lt) ≤ a + 2 ^ (w - la).
Proof.
  intros Hla Hlt [x ->] [y ->] Hin.
  replace (w - la) with ((w - lt) + (lt - la)) in * by lia.
  rewrite Z.pow_add_r in * by lia.
  set (s := 2 ^ (w - lt)) in *. set (k := 2 ^ (lt - la)) in *.
  assert (0 < s) by (apply Z.pow_pos_nonneg; lia).
  assert (y < (x + 1) * k) by nia. nia.
Qed.

(** [prefix_covers] is inclusion of the address sets. *)
Lemma prefix_covers_subset allowed target a :
  prefix_covers allowed target = true →
  (∃ t, parse_ipnet target = Some t ∧ net_contains t a = true) →
  ∃ p, parse_ipnet allowed = Some p ∧ net_contains p a = true.
Proof.
  unfold prefix_covers. intros Hc (t & Ht & Hin). rewrite Ht in Hc.
  destruct (parse_ipnet allowed) as [p|] eqn:Hp; [|done]. exists p. split; [done|].
  destruct p as [p|p], t as [t|t]; try done; destruct a as [a|a]; try done; cbn in *;
    apply andb_true_iff in Hc as [Hle Hnet]; apply Z.leb_le in Hle.
  - rewrite v4_contains_spec, v4_broadcast_network in *.
    pose proof (v4_prefix_len_bounds p). pose proof (v4_prefix_len_bounds t).
    pose proof (aligned_block_subset 32 (v4_prefix_len p) (v4_prefix_len t) (v4_network p)
      (v4_network t) ltac:(lia) ltac:(lia) (v4_network_aligned p) (v4_network_aligned t)
      ltac:(lia)). lia.
  - rewrite v6_contains_spec in *.
    pose proof (v6_prefix_len_bounds p). pose proof (v6_prefix_len_bounds t).
    pose proof (aligned_block_subset 128 (v6_prefix_len p) (v6_prefix_len t) (v6_network p)
      (v6_network t) ltac:(lia) ltac:(lia) (v6_network_aligned p) (v6_network_aligned t)
      ltac:(lia)). lia.
Qed.

(** Printing a parsed prefix does not change what it covers. *)
Lemma prefix_covers_canonical allowed target t :
  parse_ipnet target = Some t →
  prefix_covers allowed (net_to_string t) = prefix_covers allowed target.
Proof. intros Ht. unfold prefix_covers. by rewrite parse_net_to_string, Ht. Qed.

Lemma parse_route_Ok raw p :
  parse_route raw = Ok p ↔ parse_ipnet raw = Some p ∧ net_prefix_len p ≠ 0.
Proof.
  unfold parse_route. split.
  - intros Hr. inv_ok. by subst.
  - intros [-> Hp]. cbn. by rewrite (proj2 (Z.eqb_neq _ _)).
Qed.
End prefixes.

(** ** Validation of normalised policies *)
Section validation.
Context `{UuidLib} `{Ed25519} `{IpNetLib}.

(** The prefix is not the default route and is written as the printer writes it.  Host bits
    stay: 10.0.0.1/24 and 10.0.0.2/24 are both in this form. *)
Definition as_printed (route : PolicyRoute) : Prop :=
  ∃ p, parse_ipnet (pr_prefix route) = Some p ∧ net_prefix_len p ≠ 0
       ∧ net_to_string p = pr_prefix route.

Lemma validate_routes_Ok seen routes u :
  validate_routes seen routes = Ok u
  ↔ Forall as_printed routes ∧ NoDup (map pr_prefix routes)
    ∧ Forall (λ r, pr_prefix r ∉ seen) routes.
Proof.
  destruct u. revert seen. induction routes as [|r rs IH]; intros seen; cbn.
  { split; [|done]. intros _. split_and!; constructor. }
  rewrite !Forall_cons, NoDup_cons. split.
  - intros Hv. inv_ok. apply IH in Hv as (Hc & Hn & [Hni Hs]%Forall_not_in_insert).
    match goal with Hp : parse_route _ = Ok ?p |- _ =>
      unfold parse_route in Hp; inv_ok; subst end.
    match goal with Hn : ¬ (_ ≠ _) |- _ => apply dec_stable in Hn end.
    split_and!; try done. by eexists.
  - intros ((Hc & Hcs) & (Hni & Hn) & Hs & Hss). destruct Hc as (p & Hp & Hl & Heq).
    unfold parse_route. rewrite Hp. cbn. rewrite (proj2 (Z.eqb_neq _ _)) by done. cbn.
    rewrite !bool_decide_eq_false_2 by naive_solver. cbn.
    apply IH. split_and!; try done. by apply Forall_not_in_insert.
Qed.

Lemma validate_exit_devices_Ok seen exits u :
  validate_exit_devices seen exits = Ok u
  ↔ Forall (λ e, en_supports_ipv4 e = true ∨ en_supports_ipv6 e = true) exits
    ∧ NoDup (map exit_node_device exits)
    ∧ Forall (λ e, exit_node_device e ∉ seen) exits.
Proof.
  destruct u. revert seen. induction exits as [|e es IH]; intros seen; cbn.
  { split; [|done]. intros _. split_and!; constructor. }
  rewrite !Forall_cons, NoDup_cons. split.
  - intros Hv. inv_ok. apply IH in Hv as (Hc & Hn & [Hni Hs]%Forall_not_in_insert).
    split_and!; try done.
    destruct (en_supports_ipv4 e), (en_supports_ipv6 e); naive_solver.
  - intros ((Hc & Hcs) & (Hni & Hn) & Hs & Hss).
    rewrite bool_decide_eq_false_2 by done.
    replace (negb (en_supports_ipv4 e) && negb (en_supports_ipv6 e)) with false
      by (destruct (en_supports_ipv4 e), (en_supports_ipv6 e); naive_solver).
    cbn. apply IH. split_and!; try done. by apply Forall_not_in_insert.
Qed.

Lemma validate_domains_Ok seen domains u :
  validate_domains seen domains = Ok u
  ↔ Forall (λ d, normalize_domain d = Ok d) domains ∧ NoDup domains
    ∧ Forall (λ d, d ∉ seen) domains.
Proof.
  destruct u. revert seen. induction domains as [|d ds IH]; intros seen; cbn.
  { split; [|done]. intros _. split_and!; constructor. }
  rewrite !Forall_cons, NoDup_cons. split.
  - intros Hv. inv_ok. apply IH in Hv as (Hc & Hn & Hs).
    apply (Forall_not_in_insert id) in Hs as [Hni Hs]. rewrite list_fmap_id in Hni.
    match goal with Hn : ¬ (_ ≠ _) |- _ => apply dec_stable in Hn end. done.
  - intros ((Hc & Hcs) & (Hni & Hn) & Hs & Hss).
    rewrite !bool_decide_eq_false_2 by naive_solver. cbn. apply IH. split_and!; try done.
    apply (Forall_not_in_insert id). by rewrite list_fmap_id.
Qed.

(** What a validated policy guarantees. *)
Record policy_well_formed (routes : list PolicyRoute) (dns : DnsPolicy) : Prop := {
  pw_route_count : len routes ≤ MAX_ROUTES;
  pw_as_printed : Forall as_printed routes;
  pw_texts_distinct : NoDup (map pr_prefix routes);
  pw_server_count : len (dns_servers dns) ≤ MAX_DNS_SERVERS;
  pw_domain_count : len (dns_search_domains dns) ≤ MAX_SEARCH_DOMAINS;
  pw_servers_for_domains : dns_search_domains dns ≠ [] → dns_servers dns ≠ [];
  pw_servers : Forall (λ s, invalid_dns_server s = false) (dns_servers dns);
  pw_servers_distinct : NoDup (dns_servers dns);
  pw_domains : Forall (λ d, normalize_domain d = Ok d) (dns_search_domains dns);
  pw_domains_distinct : NoDup (dns_search_domains dns);
}.

Lemma size_list_to_set_length (l : list IpAddr) :
  NoDup l → size (list_to_set l : gset IpAddr) = length l.
Proof.
  induction 1 as [|x l Hx _ IH]; cbn; [apply size_empty|].
  rewrite size_union, size_singleton, IH by set_solver. done.
Qed.
Lemma size_list_to_set_NoDup (l : list IpAddr) :
  size (list_to_set l : gset IpAddr) = length l → NoDup l.
Proof.
  induction l as [|x l IH]; [constructor|]. cbn. intros Hs.
  assert (size (list_to_set l : gset IpAddr) ≤ length l)%nat as Hle.
  { clear. induction l as [|y l IH]; cbn; [by rewrite size_empty|].
    rewrite size_union_alt, size_singleton.
    pose proof (subseteq_size (list_to_set l ∖ {[y]}) (list_to_set l : gset IpAddr)).
    set_solver by lia. }
  destruct (decide (x ∈ l)) as [Hin|Hni].
  - replace ({[x]} ∪ list_to_set l : gset IpAddr) with (list_to_set l : gset IpAddr) in Hs
      by set_solver. lia.
  - rewrite size_union, size_singleton in Hs by set_solver. constructor; [done|]. apply IH. lia.
Qed.

Lemma validate_normalized_policy_sound routes dns u :
  validate_normalized_policy routes dns = Ok u → policy_well_formed routes dns.
Proof.
  unfold validate_normalized_policy. intros Hv. inv_ok.
  apply validate_domains_Ok in Hv as (? & ? & _).
  match goal with Hr : validate_routes _ _ = _ |- _ =>
    apply validate_routes_Ok in Hr as (? & ? & _) end.
  match goal with Hs : existsb _ _ = false |- _ => rewrite existsb_not_elem in Hs end.
  match goal with Hs : Nat.eqb _ _ = true |- _ =>
    apply Nat.eqb_eq, size_list_to_set_NoDup in Hs end.
  split; try done.
  - intros Hne Hnil.
    match goal with Ha : _ && _ = false |- _ => rewrite Hnil in Ha; cbn in Ha;
      rewrite andb_true_r in Ha; apply negb_false_iff, is_empty_true in Ha end. done.
  - by apply Forall_forall.
Qed.
Lemma validate_normalized_policy_complete routes dns :
  policy_well_formed routes dns → validate_normalized_policy routes dns = Ok tt.
Proof.
  intros [Hr Hp Ht Hs Hd Hsd Hv Hn Hdom Hdd]. unfold validate_normalized_policy. pass_guard.
  assert (∀ r, r ∈ routes → pr_prefix r ∉ (∅ : gset string)) as He by (intros ? _; apply not_elem_of_empty).
  pass_call (proj2 (validate_routes_Ok ∅ routes tt) (conj Hp (conj Ht (proj2 (Forall_forall _ _) He)))).
  rewrite (size_list_to_set_length _ Hn), Nat.eqb_refl.
  rewrite !(proj2 (Z.ltb_ge _ _)) by done.
  replace (negb (is_empty (dns_search_domains dns)) && is_empty (dns_servers dns)) with false
    by (destruct (dns_search_domains dns), (dns_servers dns); cbn in *; try done; by destruct Hsd).
  cbn. rewrite (proj2 (existsb_not_elem _ _)) by (by apply Forall_forall). cbn.
  apply validate_domains_Ok. split_and!; [done..|].
  apply Forall_forall. intros d _. apply not_elem_of_empty.
Qed.
End validation.

(** ** Accepted manifests *)
Section acceptance.
Context `{UuidLib} `{Ed25519} `{IpNetLib} `{!MembershipSerde} `{!AuthorizationSerde}
  `{!PolicySerde}.
Implicit Types m : NetworkPolicyManifest.

(** The certificate belongs to a current, authorised member of the network. *)
Record gateway_ok (network : NetworkId) (key : bytes)
    (authorization : NetworkAuthorizationManifest) (now : Z) (c : MembershipCertificate)
    : Prop := {
  go_certificate : certificate_valid key now c;
  go_network : mc_network_id (cert_claims c) = network;
  go_authorized : authorized authorization c;
}.
Definition route_ok network key authorization now (r : PolicyRoute) : Prop :=
  gateway_ok network key authorization now (pr_gateway_certificate r)
  ∧ ∃ allowed, allowed ∈ mc_allowed_routes (cert_claims (pr_gateway_certificate r))
      ∧ prefix_covers allowed (pr_prefix r) = true.

Lemma check_route_gateway_Ok network key authorization now r u :
  check_route_gateway network key authorization now r = Ok u
  ↔ route_ok network key authorization now r.
Proof.
  unfold check_route_gateway, route_ok. split.
  - intros Hc. inv_ok.
    repeat match goal with
    | Hn : ¬ (_ ≠ _) |- _ => apply dec_stable in Hn
    | Hn : cert_verify_from_controller _ _ _ = _ |- _ => apply cert_verify_iff in Hn
    | Hn : authorizes _ _ = true |- _ => apply authorizes_iff in Hn
    | Hn : existsb _ _ = true |- _ => apply existsb_elem in Hn
    end. by split; [split|].
  - destruct u. intros [[Hv Hn Ha] Hex].
    rewrite (proj2 (cert_verify_iff _ _ _ tt)) by done. cbn.
    rewrite bool_decide_eq_false_2 by naive_solver.
    rewrite (proj2 (authorizes_iff _ _)) by done.
    by rewrite (proj2 (existsb_elem _ _)).
Qed.

Lemma check_exit_gateway_Ok network key authorization now e u :
  check_exit_gateway network key authorization now e = Ok u
  ↔ gateway_ok network key authorization now (en_gateway_certificate e).
Proof.
  unfold check_exit_gateway. split.
  - intros Hc. inv_ok.
    repeat match goal with
    | Hn : ¬ (_ ≠ _) |- _ => apply dec_stable in Hn
    | Hn : cert_verify_from_controller _ _ _ = _ |- _ => apply cert_verify_iff in Hn
    | Hn : authorizes _ _ = true |- _ => apply authorizes_iff in Hn
    end. by split.
  - destruct u. intros [Hv Hn Ha].
    rewrite (proj2 (cert_verify_iff _ _ _ tt)) by done. cbn.
    rewrite bool_decide_eq_false_2 by naive_solver.
    by rewrite (proj2 (authorizes_iff _ _)).
Qed.

(** What [verify_for_network] establishes. *)
Record policy_valid (network : NetworkId) (key : bytes)
    (authorization : NetworkAuthorizationManifest) (now : Z) (previous : option Z) m : Prop := {
  pv_controller : pol_controller_public_key m = key;
  pv_network : pol_network_id m = network ∧ auth_network_id authorization = network;
  pv_epoch : pol_policy_epoch m ≠ 0
    ∧ ∀ epoch, previous = Some epoch → epoch < pol_policy_epoch m;
  pv_authorization : manifest_valid key now authorization;
  pv_current : now ≤ pol_expires_at m ∧ pol_issued_at m ≤ sat_add64 now 120
    ∧ pol_issued_at m < pol_expires_at m;
  pv_well_formed : policy_well_formed (pol_routes m) (pol_dns m);
  pv_exits : len (pol_exit_nodes m) ≤ MAX_EXIT_NODES
    ∧ NoDup (map exit_node_device (pol_exit_nodes m))
    ∧ Forall (λ e, en_supports_ipv4 e = true ∨ en_supports_ipv6 e = true) (pol_exit_nodes m);
  pv_version : pol_version m = 1 ∧ pol_exit_nodes m = [] ∨ pol_version m = 2;
  pv_signed : ∃ encoded,
    encoded_policy_payload (pol_version m) (pol_network_id m) (pol_policy_epoch m)
      (pol_routes m) (pol_exit_nodes m) (pol_dns m) (pol_issued_at m) (pol_expires_at m)
      (pol_controller_public_key m) = Ok encoded
    ∧ signature_valid key encoded (pol_signature m);
  pv_routes : Forall (route_ok network key authorization now) (pol_routes m);
  pv_exit_gateways : Forall (λ e, gateway_ok network key authorization now
                               (en_gateway_certificate e)) (pol_exit_nodes m);
}.

Lemma validate_exit_nodes_Ok exits u :
  validate_exit_nodes exits = Ok u
  ↔ len exits ≤ MAX_EXIT_NODES ∧ NoDup (map exit_node_device exits)
    ∧ Forall (λ e, en_supports_ipv4 e = true ∨ en_supports_ipv6 e = true) exits.
Proof.
  unfold validate_exit_nodes. split.
  - intros Hv. inv_ok. apply validate_exit_devices_Ok in Hv. naive_solver.
  - intros (Hl & Hn & Hs). rewrite (proj2 (Z.ltb_ge _ _)) by done. cbn.
    apply validate_exit_devices_Ok. split_and!; try done.
    apply Forall_forall. intros e He. apply not_elem_of_empty.
Qed.

Lemma verify_for_network_valid m network key authorization now previous u :
  verify_for_network m network key authorization now previous = Ok u →
  policy_valid network key authorization now previous m.
Proof.
  unfold verify_for_network. intros Hv. inv_ok.
  repeat match goal with
  | Hn : ¬ (_ ≠ _) |- _ => apply dec_stable in Hn
  | Hn : auth_verify_from_controller _ _ _ = _ |- _ => apply auth_verify_iff in Hn
  | Hn : validate_normalized_policy _ _ = _ |- _ => apply validate_normalized_policy_sound in Hn
  | Hn : validate_exit_nodes _ = _ |- _ => apply validate_exit_nodes_Ok in Hn
  end.
  split; try done.
  - split; [done|]. intros e ->. cbn in *. inv_ok. lia.
  - rewrite andb_false_iff, negb_false_iff, is_empty_true in *. inv_ok.
    unfold NETWORK_POLICY_MANIFEST_VERSION, NETWORK_POLICY_MANIFEST_VERSION_V1 in *.
    rewrite orb_true_iff, !Z.eqb_eq in *. rewrite Z.eqb_neq in *. naive_solver.
  - subst key. eauto with signatures.
  - match goal with Hr : Forall _ (pol_routes m) |- _ =>
      eapply Forall_impl; [exact Hr|]; intros r; apply check_route_gateway_Ok end.
  - match goal with Hr : Forall _ (pol_exit_nodes m) |- _ =>
      eapply Forall_impl; [exact Hr|]; intros r; apply check_exit_gateway_Ok end.
Qed.

Lemma verify_for_network_intro m network key authorization now previous :
  policy_valid network key authorization now previous m →
  validate_normalized_policy (pol_routes m) (pol_dns m) = Ok tt →
  verify_for_network m network key authorization now previous = Ok tt.
Proof.
  intros [Hk [Hn Han] [He Hp] Ha [Hc1 [Hc2 Hc3]] _ Hx Hver (enc & Henc & Hsig) Hr Hg] Hwf.
  assert ((pol_version m =? NETWORK_POLICY_MANIFEST_VERSION_V1)
          || (pol_version m =? NETWORK_POLICY_MANIFEST_VERSION) = true) as Hv1
    by (destruct Hver as [[-> _]| ->]; done).
  assert ((pol_version m =? NETWORK_POLICY_MANIFEST_VERSION_V1)
          && negb (is_empty (pol_exit_nodes m)) = false) as Hv2
    by (destruct Hver as [[-> ->]| ->]; done).
  assert (is_some_and previous (λ epoch, pol_policy_epoch m <=? epoch) = false) as Hv3.
  { destruct previous as [e|]; [|done]. cbn. apply Z.leb_gt. by apply Hp. }
  unfold verify_for_network. rewrite Hv1. do 4 pass_guard.
  pass_call (proj2 (auth_verify_iff authorization key now tt) Ha).
  rewrite Hv3. do 2 pass_guard. pass_call Hwf.
  pass_call (proj2 (validate_exit_nodes_Ok _ tt) Hx). rewrite Hv2. pass_guard.
  rewrite Hk in *. apply signature_valid_elim in Hsig as (Hk32 & Hs64 & vk & Hvk & Hsig).
  pass_call Hk32. pass_call Hs64. pass_call Henc. pass_call Hvk. pass_guard.
  rewrite (proj2 (for_each_Ok (check_route_gateway network key authorization now) (pol_routes m) tt)).
  2: { eapply Forall_impl; [exact Hr|]. intros r. apply check_route_gateway_Ok. }
  apply for_each_Ok.
  eapply Forall_impl; [exact Hg|]. intros r. apply check_exit_gateway_Ok.
Qed.
End acceptance.

(** ** The controller's side: normalisation and signing *)
Section signing.
Context `{UuidLib} `{Ed25519Laws} `{IpNetLaws} `{!MembershipSerde} `{!AuthorizationSerde}
  `{!PolicySerde}.

Lemma normalize_policy_Ok routes dns routes' dns' :
  normalize_policy routes dns = Ok (routes', dns') →
  validate_normalized_policy routes' dns' = Ok tt
  ∧ ∀ r', r' ∈ routes' → ∃ r p, r ∈ routes ∧ parse_ipnet (pr_prefix r) = Some p
      ∧ r' = mkPolicyRoute (net_to_string p) (pr_gateway_certificate r).
Proof.
  unfold normalize_policy. intros Hn. inv_ok. simplify_eq.
  match goal with Hv : validate_normalized_policy _ _ = Ok ?u |- _ => destruct u end.
  split; [done|]. intros r'. rewrite elem_of_sort_by.
  match goal with Ht : try_map canonical_route _ = _ |- _ => apply try_map_Ok in Ht; rename Ht into Hm end.
  intros Hr'. apply list_elem_of_lookup in Hr' as [i Hi].
  destruct (Forall2_lookup_r _ _ _ _ _ Hm Hi) as (r & Hri & Hc).
  unfold canonical_route in Hc. inv_ok. subst.
  match goal with Hp : parse_route _ = Ok _ |- _ => apply parse_route_Ok in Hp as [Hp _] end.
  apply list_elem_of_lookup_2 in Hri. eauto.
Qed.

Lemma normalize_exit_nodes_Ok exits exits' :
  normalize_exit_nodes exits = Ok exits' →
  validate_exit_nodes exits' = Ok tt ∧ exits' ≡ₚ exits.
Proof.
  unfold normalize_exit_nodes. intros Hn. inv_ok. subst.
  match goal with Hv : validate_exit_nodes _ = Ok ?u |- _ => destruct u end.
  split; [done|]. apply sort_by_perm.
Qed.

Lemma canonical_route_ok network key authorization now r p :
  parse_ipnet (pr_prefix r) = Some p →
  route_ok network key authorization now r →
  route_ok network key authorization now
    (mkPolicyRoute (net_to_string p) (pr_gateway_certificate r)).
Proof.
  intros Hp [Hg (a & Ha & Hc)]. split; [done|]. exists a. split; [done|]. cbn.
  by rewrite (prefix_covers_canonical a (pr_prefix r)).
Qed.

(** Everything [sign_with_exit_nodes] puts into the manifest it returns. *)
Lemma sign_with_exit_nodes_valid network epoch routes exits dns issued expires key m
    authorization now previous :
  sign_with_exit_nodes network epoch routes exits dns issued expires key = Ok m →
  auth_network_id authorization = network →
  manifest_valid (public_bytes key) now authorization →
  now ≤ expires → issued ≤ sat_add64 now 120 → issued < expires →
  (∀ e, previous = Some e → e < epoch) →
  Forall (route_ok network (public_bytes key) authorization now) routes →
  Forall (λ e, gateway_ok network (public_bytes key) authorization now
                 (en_gateway_certificate e)) exits →
  policy_valid network (public_bytes key) authorization now previous m
  ∧ validate_normalized_policy (pol_routes m) (pol_dns m) = Ok tt.
Proof.
  unfold sign_with_exit_nodes. intros Hs Han Ha Hexp Hiss Hie Hprev Hr Hg. inv_ok.
  destruct x0 as [routes' dns']. inv_ok. subst m. cbn.
  match goal with Hn : normalize_policy _ _ = _ |- _ =>
    apply normalize_policy_Ok in Hn as [Hwf Hroutes] end.
  match goal with Hn : normalize_exit_nodes _ = Ok ?e |- _ =>
    rename e into exits'; apply normalize_exit_nodes_Ok in Hn as [Hx Hperm] end.
  split; [|done]. split; cbn; try done.
  - by apply validate_normalized_policy_sound in Hwf.
  - by apply validate_exit_nodes_Ok in Hx.
  - destruct exits'; [by left|by right].
  - eexists. split; [eassumption|]. apply sign_signature_valid.
  - rewrite Forall_forall in Hr |- *. intros r' (r & p & Hin & Hp & ->)%Hroutes.
    apply canonical_route_ok; auto.
  - by rewrite Hperm.
Qed.
End signing.

Section policy_properties.
Context `{UuidLib} `{Ed25519Laws} `{IpNetLaws} `{!MembershipSerde} `{!AuthorizationSerde}
  `{!PolicySerde}.

(** a policy the controller signs is accepted by every agent that pins the
    controller: for a current authorization manifest of the network, a
    gateway certificate per route that is valid, authorised and covers the
    route, and a policy epoch newer than the applied one, the manifest
    returned by [sign_with_exit_nodes] passes [verify_for_network]. *)
Theorem policy_sign_verify network epoch routes exits dns issued expires key m
    authorization now previous :
  sign_with_exit_nodes network epoch routes exits dns issued expires key = Ok m →
  auth_network_id authorization = network →
  auth_verify_from_controller authorization (public_bytes key) now = Ok tt →
  now ≤ expires → issued ≤ sat_add64 now 120 → issued < expires →
  (∀ e, previous = Some e → e < epoch) →
  Forall (route_ok network (public_bytes key) authorization now) routes →
  Forall (λ e, gateway_ok network (public_bytes key) authorization now
                 (en_gateway_certificate e)) exits →
  verify_for_network m network (public_bytes key) authorization now previous = Ok tt.
Proof.
  intros Hs Han Ha%auth_verify_iff He Hi Hie Hp Hr Hg.
  edestruct sign_with_exit_nodes_valid as [Hv Hwf]; [exact Hs|done..|].
  by apply verify_for_network_intro.
Qed.

(** C24: a policy is accepted exactly when it keeps the promises of the format: issued
    and signed by the pinned key for this network, current, strictly newer than the
    applied epoch, with an authorization manifest that is valid; at most 256 routes whose
    prefixes are not default routes, are written as the printer writes them and are
    pairwise different as written; well-formed and distinct DNS settings; at most 16
    exit candidates of distinct devices, none in version 1; and for every route and exit
    a current, authorised gateway of the network, whose signed claims cover the prefix
    of the route.  The printer keeps host bits, so 10.0.0.1/24 and 10.0.0.2/24 are two
    prefixes to the format although they are the same network. *)
Theorem policy_verify_sound m network key authorization now previous :
  verify_for_network m network key authorization now previous = Ok tt
  ↔ policy_valid network key authorization now previous m.
Proof.
  split; [apply verify_for_network_valid|]. intros Hv. apply verify_for_network_intro; [done|].
  eapply validate_normalized_policy_complete, pv_well_formed, Hv.
Qed.

(** The routes of a manifest whose prefix contains a destination. *)
Definition matching (m : NetworkPolicyManifest) (d : IpAddr) (r : PolicyRoute) (p : IpNet)
    : Prop :=
  r ∈ pol_routes m ∧ parse_ipnet (pr_prefix r) = Some p ∧ net_contains p d = true.

Lemma gateway_for_Some m d g :
  gateway_for m d = Some g →
  ∃ r p, matching m d r p ∧ mc_device_id (cert_claims (pr_gateway_certificate r)) = g
    ∧ ∀ r' p', matching m d r' p' → net_prefix_len p' ≤ net_prefix_len p.
Proof.
  unfold gateway_for. rewrite fmap_Some. intros ([l g'] & Hmax & ->).
  apply max_by_key_Some in Hmax as [Hin Hmax].
  rewrite list_elem_of_omap in Hin. destruct Hin as (r & Hr & Hx).
  apply bind_Some in Hx as (p & Hp & Hx). case_match eqn:Hc; [|done]. simplify_eq.
  exists r, p. split_and!; [done|done|]. intros r' p' (Hr' & Hp' & Hc').
  apply (Hmax (net_prefix_len p', mc_device_id (cert_claims (pr_gateway_certificate r')))).
  rewrite list_elem_of_omap. exists r'. split; [done|]. by rewrite Hp'; cbn; rewrite Hc'.
Qed.

(** in an accepted policy the gateway chosen for a destination is the
    gateway of a longest matching prefix, an authorised member of the network,
    and its signed claims allow a prefix that contains the destination. *)
Theorem gateway_for_authorised m network key authorization now previous d g :
  verify_for_network m network key authorization now previous = Ok tt →
  gateway_for m d = Some g →
  ∃ r p allowed q, matching m d r p
    ∧ (∀ r' p', matching m d r' p' → net_prefix_len p' ≤ net_prefix_len p)
    ∧ mc_device_id (cert_claims (pr_gateway_certificate r)) = g
    ∧ authorized authorization (pr_gateway_certificate r)
    ∧ allowed ∈ mc_allowed_routes (cert_claims (pr_gateway_certificate r))
    ∧ parse_ipnet allowed = Some q ∧ net_contains q d = true.
Proof.
  intros Hv%verify_for_network_valid (r & p & Hm & Hg & Hmax)%gateway_for_Some.
  destruct Hm as (Hr & Hp & Hc).
  pose proof (pv_routes _ _ _ _ _ _ Hv) as Hroutes. rewrite Forall_forall in Hroutes.
  destruct (Hroutes r Hr) as [[_ _ Ha] (allowed & Hal & Hcov)].
  destruct (prefix_covers_subset allowed (pr_prefix r) d Hcov) as (q & Hq & Hqd); [by eauto|].
  exists r, p, allowed, q. by split_and!.
Qed.
End policy_properties.

(** ** Witnesses: the sample policy at time 150 *)
Lemma sample_gateway_ok c :
  cert_verify_from_controller c controller_public 150 = Ok tt →
  mc_network_id (cert_claims c) = net_a → authorizes sample_authorization c = true →
  gateway_ok net_a controller_public sample_authorization 150 c.
Proof.
  intros Hv Hn Ha. split; [|done|by apply authorizes_iff]. by eapply cert_verify_iff.
Qed.
Lemma sample_route_ok r :
  cert_verify_from_controller (pr_gateway_certificate r) controller_public 150 = Ok tt →
  mc_network_id (cert_claims (pr_gateway_certificate r)) = net_a →
  authorizes sample_authorization (pr_gateway_certificate r) = true →
  existsb (λ a, prefix_covers a (pr_prefix r))
    (mc_allowed_routes (cert_claims (pr_gateway_certificate r))) = true →
  route_ok net_a controller_public sample_authorization 150 r.
Proof.
  intros ? ? ? Hc%existsb_elem. split; [by apply sample_gateway_ok|done].
Qed.
Definition sample_policy_result : result PolicyError NetworkPolicyManifest :=
  sign_with_exit_nodes net_a 3 sample_routes sample_exits sample_dns 100 200 controller_key.

Lemma policy_sign_verify_witness :
  is_ok sample_policy_result = true
  ∧ verify_for_network sample_policy net_a controller_public sample_authorization 150 (Some 2)
    = Ok tt.
Proof.
  split; [by vm_compute|].
  apply (policy_sign_verify net_a 3 sample_routes sample_exits sample_dns 100 200 controller_key).
  - unfold sample_policy. apply unwrap_Ok. by vm_compute.
  - vm_decide.
  - by vm_compute.
  - lia.
  - by vm_compute.
  - lia.
  - intros e [= <-]. lia.
  - repeat constructor; apply sample_route_ok; vm_decide.
  - repeat constructor; apply sample_gateway_ok; vm_decide.
Defined.
Lemma policy_verify_sound_witness :
  policy_valid net_a controller_public sample_authorization 150 (Some 2) sample_policy.
Proof. apply policy_verify_sound. by vm_compute. Defined.
(** Two routes for one network pass the check for ambiguous routes. *)
Example host_bits_kept :
  let route host := mkPolicyRoute (cidr4 (ip4 10 0 0 host) 24) alice_certificate in
  validate_routes ∅ [route 1; route 2] = Ok tt
  ∧ v4_network <$> parse_ipv4net (pr_prefix (route 1)) = v4_network <$> parse_ipv4net (pr_prefix (route 2)).
Proof. split; by vm_compute. Qed.
Lemma gateway_for_authorised_witness :
  gateway_for sample_policy (V4 (ip4 10 2 3 4)) = Some alice
  ∧ ∃ r p allowed q, matching sample_policy (V4 (ip4 10 2 3 4)) r p
      ∧ (∀ r' p', matching sample_policy (V4 (ip4 10 2 3 4)) r' p' →
           net_prefix_len p' ≤ net_prefix_len p)
      ∧ mc_device_id (cert_claims (pr_gateway_certificate r)) = alice
      ∧ authorized sample_authorization (pr_gateway_certificate r)
      ∧ allowed ∈ mc_allowed_routes (cert_claims (pr_gateway_certificate r))
      ∧ parse_ipnet allowed = Some q ∧ net_contains q (V4 (ip4 10 2 3 4)) = true.
Proof.
  split; [vm_decide|].
  apply (gateway_for_authorised sample_policy net_a controller_public sample_authorization 150
    (Some 2)); vm_decide.
Defined.
