(* ===== verification/RootFacts.v ===== *)
(** * Correctness of registrations and root responses *)
From S2P Require Import Prelude Net Text Ext Concrete Model ServiceIdentity Membership.
From S2P Require Import Authorization RelayProto Session RootProto Policy Samples.
#[local] Open Scope Z_scope.

Section registration.
Context `{UuidLib} `{Ed25519} `{!MembershipSerde} `{!AuthorizationSerde} `{!RootSerde}.
Implicit Types (r : RootRegistration) (c : MembershipCertificate).

(** The version and target a service expects: its own, or none. *)
Definition target_matches (version : Z) (target expected : option RootRegistrationTarget)
    : Prop :=
  target = expected ∧ version = if expected then 2 else 1.

Lemma check_target_Ok version target expected u :
  check_target version target expected = Ok u ↔ target_matches version target expected.
Proof.
  unfold check_target, target_matches, ROOT_REGISTRATION_PROTOCOL_VERSION_LEGACY,
    ROOT_REGISTRATION_PROTOCOL_VERSION_TARGET_BOUND. destruct u.
  destruct (version =? 1) eqn:Hv1.
  - apply Z.eqb_eq in Hv1 as ->. destruct target, expected; split; naive_solver lia.
  - apply Z.eqb_neq in Hv1. destruct (version =? 2) eqn:Hv2.
    + apply Z.eqb_eq in Hv2 as ->.
      destruct target, expected; rewrite ?bail_if_Ok, ?bool_decide_eq_false; split; try naive_solver.
      * intros Hn%dec_stable. by subst.
    + apply Z.eqb_neq in Hv2. split; [done|]. by intros [_ Hv]; destruct expected.
Qed.

(** The certificate names the registering device and its key, and a trusted
    controller issued it. *)
Record certificate_matches (p : RootRegistrationPayload) (keys : list bytes) (now : Z) c
    : Prop := {
  cm_device : mc_device_id (cert_claims c) = rrp_device_id p;
  cm_key : mc_device_public_key (cert_claims c) = rrp_device_public_key p;
  cm_trusted : ∃ key, key ∈ keys ∧ certificate_valid key now c;
}.
Lemma trusted_iff {A} (check : A → bytes → result CryptoError unit) (valid : bytes → A → Prop)
    keys a :
  (∀ key, check a key = Ok tt ↔ valid key a) →
  existsb (λ key, is_ok (check a key)) keys = true ↔ ∃ key, key ∈ keys ∧ valid key a.
Proof.
  intros Hv. rewrite existsb_elem. setoid_rewrite is_ok_true. setoid_rewrite <-Hv. split.
  - intros (k & ? & [[] ?]). eauto.
  - intros (k & ? & ?). eauto.
Qed.
Lemma check_certificate_Ok p keys now c u :
  check_certificate p keys now c = Ok u ↔ certificate_matches p keys now c.
Proof.
  unfold check_certificate. destruct u.
  assert (existsb (λ key, is_ok (cert_verify_from_controller c key now)) keys = true
    ↔ ∃ key, key ∈ keys ∧ certificate_valid key now c) as Ht.
  { apply (trusted_iff (λ c key, cert_verify_from_controller c key now)
      (λ key c, certificate_valid key now c)). intros key. apply cert_verify_iff. }
  split.
  - intros Hc. inv_ok. apply Ht in Hc.
    repeat match goal with Hn : ¬ (_ ≠ _) |- _ => apply dec_stable in Hn end. done.
  - intros [Hd Hk Hx%Ht]. repeat pass_guard.
Qed.

Record membership_valid (keys : list bytes) (now skew : Z)
    (target : option RootRegistrationTarget) r : Prop := {
  rm_target : target_matches (rrp_version (reg_payload r)) (rrp_target (reg_payload r)) target;
  rm_fresh : abs_diff now (rrp_issued_at (reg_payload r)) ≤ skew;
  rm_signed : ∃ message, registration_signature_message (reg_payload r) = Ok message
    ∧ signature_valid (rrp_device_public_key (reg_payload r)) message (reg_signature r);
  rm_some : rrp_certificates (reg_payload r) ≠ [];
  rm_certificates :
    Forall (certificate_matches (reg_payload r) keys now) (rrp_certificates (reg_payload r));
}.
Lemma verify_membership_Ok r keys now skew target u :
  verify_membership r keys now skew target = Ok u ↔ membership_valid keys now skew target r.
Proof.
  unfold verify_membership. split.
  - intros Hv. apply bind_Ok in Hv as (? & Ht%check_target_Ok & Hv). inv_ok.
    split; [done|done|eauto with signatures|by apply is_empty_false|].
    eapply Forall_impl; [exact Hv|]. intros c. apply check_certificate_Ok.
  - intros [Ht Hf (m & Hm & Hs) Hne Hc].
    rewrite (proj2 (check_target_Ok _ _ _ tt)) by done. rewrite bind_ret. pass_guard.
    apply signature_valid_elim in Hs as (Hk & Hsig & vk & Hvk & Hver).
    pass_call Hk. pass_call Hsig. pass_call Hm. pass_call Hvk. rewrite Hver. cbn [negb].
    pass_guard. rewrite (proj2 (is_empty_false _)) by done. pass_guard. apply for_each_Ok.
    eapply Forall_impl; [exact Hc|]. intros c. apply check_certificate_Ok.
Qed.

(** ** The authorization set *)
Definition cert_network (c : MembershipCertificate) : NetworkId := mc_network_id (cert_claims c).

Lemma collect_certificates_Ok seen cs m :
  collect_certificates seen cs = Ok m →
  NoDup (map cert_network cs) ∧ (∀ c, c ∈ cs → seen !! cert_network c = None)
  ∧ ∀ n c, m !! n = Some c ↔ seen !! n = Some c ∨ c ∈ cs ∧ cert_network c = n.
Proof.
  revert seen. induction cs as [|c cs IH]; intros seen; cbn [collect_certificates collect_manifests map].
  { intros [= <-]. split_and!; [constructor|set_solver|set_solver]. }
  intros Hc. inv_ok. fold (cert_network c) in *.
  assert (seen !! cert_network c = None) as Hn by (by apply is_some_false).
  apply IH in Hc as (Hnd & Hfresh & Hm). split_and!.
  - constructor; [|done]. rewrite list_elem_of_fmap. intros (c' & Hc' & Hin).
    specialize (Hfresh c' Hin). by rewrite <-Hc', lookup_insert_eq in Hfresh.
  - intros c' [->|Hin]%elem_of_cons; [done|]. specialize (Hfresh c' Hin).
    by apply lookup_insert_None in Hfresh as [? _].
  - intros n c'. rewrite Hm, elem_of_cons. destruct (decide (n = cert_network c)) as [->|Hne].
    + rewrite lookup_insert_eq. split.
      * intros [[= ->]|[Hin Hx]]; [by right; split; [left|]|right; split; [by right|done]].
      * intros [Hx|[[->|Hin] Hx]]; [congruence|by left|by right].
    + rewrite lookup_insert_ne by done. split; [naive_solver|].
      intros [?|[[->|?] ?]]; [by left|done|by right].
Qed.
Lemma collect_certificates_total seen cs :
  NoDup (map cert_network cs) → (∀ c, c ∈ cs → seen !! cert_network c = None) →
  ∃ m, collect_certificates seen cs = Ok m.
Proof.
  revert seen. induction cs as [|c cs IH]; intros seen Hnd Hs; cbn; [by eauto|].
  apply NoDup_cons in Hnd as [Hc Hnd]. fold (cert_network c).
  rewrite (Hs c) by left. cbn. apply IH; [done|]. intros c' Hin.
  rewrite lookup_insert_ne; [apply Hs; by right|]. intros E. apply Hc. rewrite E.
  by apply list_elem_of_fmap_2.
Qed.

(** A manifest of the registration: current, issued by the controller of the
    certificate of its network, and authorising that certificate. *)
Record manifest_matches (cs : gmap NetworkId MembershipCertificate) (keys : list bytes)
    (now : Z) (m : NetworkAuthorizationManifest) : Prop := {
  mm_trusted : ∃ key, key ∈ keys ∧ manifest_valid key now m;
  mm_certificate : ∃ c, cs !! auth_network_id m = Some c ∧ authorized m c
    ∧ auth_controller_public_key m = cert_controller_public_key c;
}.
Lemma collect_manifests_Ok cs keys now seen ms out :
  collect_manifests cs keys now seen ms = Ok out ↔
  Forall (manifest_matches cs keys now) ms ∧ NoDup (map auth_network_id ms)
  ∧ (∀ m, m ∈ ms → seen !! auth_network_id m = None)
  ∧ out = foldl (λ acc m, <[auth_network_id m := m]> acc) seen ms.
Proof.
  revert seen. induction ms as [|m ms IH]; intros seen; cbn [collect_certificates collect_manifests map].
  { split; [intros [= ->]|by intros (_ & _ & _ & ->)].
    split_and!; [constructor|constructor|set_solver|done]. }
  assert (existsb (λ key, is_ok (auth_verify_from_controller m key now)) keys = true
    ↔ ∃ key, key ∈ keys ∧ manifest_valid key now m) as Ht.
  { apply (trusted_iff (λ m key, auth_verify_from_controller m key now)
      (λ key m, manifest_valid key now m)). intros key. apply auth_verify_iff. }
  rewrite Forall_cons, NoDup_cons. split.
  - intros Hc. inv_ok.
    repeat match goal with Hn : ¬ (_ ≠ _) |- _ => apply dec_stable in Hn end.
    apply IH in Hc as (Hall & Hnd & Hfresh & ->).
    match goal with Ha : authorizes _ _ = true |- _ => apply authorizes_iff in Ha end.
    assert (seen !! auth_network_id m = None) as Hn.
    { by apply is_some_false. }
    split_and!; try done.
    + split; [by apply Ht|]. eauto.
    + rewrite list_elem_of_fmap. intros (m' & Hm' & Hin).
      specialize (Hfresh m' Hin). by rewrite <-Hm', lookup_insert_eq in Hfresh.
    + intros m' [->|Hin]%elem_of_cons; [done|]. specialize (Hfresh m' Hin).
      by apply lookup_insert_None in Hfresh as [? _].
  - intros ([[Hk (c & Hc & Ha & Hkey)] Hall] & [Hm Hnd] & Hs & ->).
    apply Ht in Hk. apply authorizes_iff in Ha. pass_call Hc.
    rewrite (Hs m) by left. cbn [is_some]. rewrite Hk. pass_guard. rewrite Ha. pass_guard.
    apply IH. split_and!; try done. intros m' Hin.
    rewrite lookup_insert_ne; [apply Hs; by right|]. intros E. apply Hm. rewrite E.
    by apply list_elem_of_fmap_2.
Qed.

Lemma size_collected_certificates seen cs m :
  collect_certificates seen cs = Ok m → size m = (size seen + length cs)%nat.
Proof.
  revert seen. induction cs as [|c cs IH]; intros seen; cbn [collect_certificates].
  { intros [= <-]. cbn. lia. }
  intros Hc. inv_ok. apply IH in Hc as ->.
  rewrite map_size_insert_None by (by apply is_some_false). cbn. lia.
Qed.
Lemma size_collected_manifests (seen : gmap NetworkId NetworkAuthorizationManifest) ms :
  NoDup (map auth_network_id ms) → (∀ m, m ∈ ms → seen !! auth_network_id m = None) →
  size (foldl (λ acc m, <[auth_network_id m := m]> acc) seen ms) = (size seen + length ms)%nat.
Proof.
  revert seen. induction ms as [|m ms IH]; intros seen Hnd Hs; cbn [foldl length].
  { lia. }
  apply NoDup_cons in Hnd as [Hm Hnd]. rewrite IH; [|done|].
  - rewrite map_size_insert_None by (apply Hs; left). lia.
  - intros m' Hin. rewrite lookup_insert_ne; [apply Hs; by right|]. intros E. apply Hm.
    rewrite E. by apply list_elem_of_fmap_2.
Qed.

Record authorization_set_valid (keys : list bytes) (now : Z) (every : bool) r : Prop := {
  as_certificates : NoDup (map cert_network (rrp_certificates (reg_payload r)));
  as_manifests : NoDup (map auth_network_id (rrp_authorization_manifests (reg_payload r)));
  as_matches : ∀ m, m ∈ rrp_authorization_manifests (reg_payload r) →
    (∃ key, key ∈ keys ∧ manifest_valid key now m)
    ∧ ∃ c, c ∈ rrp_certificates (reg_payload r) ∧ authorized m c
      ∧ auth_controller_public_key m = cert_controller_public_key c;
  as_every : every = true → ∀ c, c ∈ rrp_certificates (reg_payload r) →
    ∃ m, m ∈ rrp_authorization_manifests (reg_payload r) ∧ auth_network_id m = cert_network c;
}.

(** Distinct members of a set of distinct values are all of them exactly when
    there are as many. *)
Lemma NoDup_covers {A} (l k : list A) :
  NoDup l → NoDup k → l ⊆ k → length l = length k ↔ k ⊆ l.
Proof.
  intros Hl Hk Hlk. split.
  - intros Hlen x Hx. assert (l ≡ₚ k) as ->; [|done].
    apply submseteq_length_Permutation; [by apply NoDup_submseteq|lia].
  - intros Hkl. apply Permutation_length, NoDup_Permutation; [done..|]. split; auto.
Qed.

Lemma verify_authorization_set_Ok r keys now every u :
  verify_authorization_set r keys now every = Ok u ↔ authorization_set_valid keys now every r.
Proof.
  unfold verify_authorization_set. destruct u.
  set (cs := rrp_certificates _). set (ms := rrp_authorization_manifests _).
  assert (∀ m, collect_certificates ∅ cs = Ok m →
    (Forall (manifest_matches m keys now) ms ↔
     ∀ a, a ∈ ms → (∃ key, key ∈ keys ∧ manifest_valid key now a)
       ∧ ∃ c, c ∈ cs ∧ authorized a c ∧ auth_controller_public_key a = cert_controller_public_key c))
    as Hmatch.
  { intros m (_ & _ & Hm)%collect_certificates_Ok. rewrite Forall_forall.
    apply forall_proper; intros a. split.
    - intros Ha Hin. destruct (Ha Hin) as [Hk (c & Hc & ?)]. split; [done|].
      apply Hm in Hc as [Hc|[Hc _]]; [done|]. by exists c.
    - intros Ha Hin. destruct (Ha Hin) as [Hk (c & Hc & Haz & ?)]. split; [done|].
      exists c. split_and!; try done. apply Hm. right. split; [done|]. apply (az_network _ _ Haz). }
  assert ((∀ a, a ∈ ms → ∃ c, c ∈ cs ∧ authorized a c) →
    map auth_network_id ms ⊆ map cert_network cs) as Hsub.
  { intros Hm n (a & -> & Ha)%list_elem_of_fmap.
    destruct (Hm a Ha) as (c & Hc & Haz). rewrite <-(az_network _ _ Haz).
    by apply (list_elem_of_fmap_2 cert_network). }
  split.
  - intros Hv. inv_ok.
    match goal with Hx : collect_certificates _ _ = Ok ?m |- _ =>
      pose proof (Hmatch _ Hx) as Hm; pose proof (size_collected_certificates _ _ _ Hx) as Hsize;
      apply collect_certificates_Ok in Hx as (Hcs & _ & _) end.
    match goal with Hx : collect_manifests _ _ _ _ _ = Ok _ |- _ =>
      apply collect_manifests_Ok in Hx as (Hall & Hms & Hfresh & ->) end.
    rewrite size_collected_manifests, Hsize, !map_size_empty in * by done.
    split; [done|done|by apply Hm|]. intros -> c Hc. cbn in *. inv_ok.
    match goal with Hx : (_ =? _)%nat = true |- _ => apply Nat.eqb_eq in Hx end.
    assert (map auth_network_id ms ⊆ map cert_network cs) as Hincl.
    { apply Hsub. intros a Ha. destruct (proj1 Hm Hall a Ha) as (_ & c' & ? & ? & _). eauto. }
    apply NoDup_covers in Hincl; [|done..]. rewrite !length_map in Hincl.
    assert (cert_network c ∈ map auth_network_id ms) as (m & -> & Hin)%list_elem_of_fmap; [|by eauto].
    apply Hincl; [done|]. by apply list_elem_of_fmap_2.
  - intros [Hcs Hms Hm Hevery].
    assert (map auth_network_id ms ⊆ map cert_network cs) as Hincl.
    { apply Hsub. intros a Ha. destruct (Hm a Ha) as (_ & c' & ? & ? & _). eauto. }
    destruct (collect_certificates_total ∅ cs) as [m Hc]; [done|done|]. pass_call Hc.
    apply (Hmatch _ Hc) in Hm. rewrite (proj2 (collect_manifests_Ok m keys now ∅ ms _)) by done.
    rewrite bind_ret, size_collected_manifests, (size_collected_certificates _ _ _ Hc),
      !map_size_empty by done.
    destruct every; [|done]. cbn. rewrite (proj2 (Nat.eqb_eq _ _)); [done|].
    rewrite <-(length_map auth_network_id ms), <-(length_map cert_network cs).
    apply NoDup_covers; [done..|]. intros n (c & -> & Hin)%list_elem_of_fmap.
    destruct (Hevery eq_refl c Hin) as (a & Ha & <-). by apply list_elem_of_fmap_2.
Qed.

Lemma verify_authorized_for_service_Ok r keys now skew kind id u :
  verify_authorized_for_service r keys now skew kind id = Ok u ↔
  membership_valid keys now skew (Some (mkRootRegistrationTarget kind id)) r
  ∧ authorization_set_valid keys now true r.
Proof.
  unfold verify_authorized_for_service. rewrite bind_Ok.
  setoid_rewrite verify_membership_Ok. setoid_rewrite verify_authorization_set_Ok.
  split; [by intros ([] & ? & ?)|by exists tt].
Qed.
End registration.

Section root_properties.
Context `{UuidLib} `{Ed25519} `{!MembershipSerde} `{!AuthorizationSerde} `{!RootSerde}.

(** C22: what a service knows about a registration it accepts.  The
    registration is target-bound to this very service, fresh, and signed by
    the device key it carries; it has at least one certificate; and every
    certificate names that device and key, was issued by a trusted
    controller, and is authorised by a current manifest of the registration
    for the certificate's network and controller. *)
Theorem registration_authorized (r : RootRegistration) keys now skew kind id :
  verify_authorized_for_service r keys now skew kind id = Ok tt →
  let p := reg_payload r in
  rrp_version p = 2 ∧ rrp_target p = Some (mkRootRegistrationTarget kind id)
  ∧ abs_diff now (rrp_issued_at p) ≤ skew
  ∧ (∃ message, registration_signature_message p = Ok message
      ∧ signature_valid (rrp_device_public_key p) message (reg_signature r))
  ∧ rrp_certificates p ≠ []
  ∧ ∀ c, c ∈ rrp_certificates p →
      mc_device_id (cert_claims c) = rrp_device_id p
      ∧ mc_device_public_key (cert_claims c) = rrp_device_public_key p
      ∧ (∃ key, key ∈ keys ∧ certificate_valid key now c)
      ∧ ∃ m key, m ∈ rrp_authorization_manifests p ∧ key ∈ keys ∧ manifest_valid key now m
          ∧ authorized m c ∧ auth_controller_public_key m = cert_controller_public_key c.
Proof.
  intros [[[Ht Hv] Hf Hs Hne Hc] [Hcs Hms Hm Hevery]]%verify_authorized_for_service_Ok.
  cbn zeta. split_and!; try done. intros c Hin. rewrite Forall_forall in Hc.
  destruct (Hc c Hin) as [Hd Hk Htr]. split_and!; try done.
  destruct (Hevery eq_refl c Hin) as (m & Hmin & Hn).
  destruct (Hm m Hmin) as ((key & Hkey & Hval) & c' & Hc' & Haz & Hctl).
  assert (c' = c) as ->; [|by exists m, key].
  assert (cert_network c' = cert_network c) as E.
  { rewrite <-Hn. apply (az_network _ _ Haz). }
  clear -Hcs Hin Hc' E. induction (rrp_certificates (reg_payload r)) as [|x l IH]; [by apply not_elem_of_nil in Hin|].
  cbn in Hcs. apply NoDup_cons in Hcs as [Hx Hl].
  apply elem_of_cons in Hin as [->|Hin], Hc' as [->|Hc']; [done| | |by apply IH].
  - destruct Hx. rewrite <-E. by apply (list_elem_of_fmap_2 cert_network).
  - destruct Hx. rewrite E. by apply (list_elem_of_fmap_2 cert_network).
Qed.

(** a registration a device signs for a service is accepted by it, when
    the service trusts the controllers of the certificates and manifests, the
    certificates name the device and its key, and the manifests authorise
    each of them. *)
Theorem registration_sign_verify `{!Ed25519Laws} device certificates manifests candidates
    issued nonce kind id key r keys now skew :
  sign_authorized_for_service device certificates manifests candidates issued nonce kind id key
    = Ok r →
  abs_diff now issued ≤ skew → certificates ≠ [] →
  Forall (λ c, mc_device_id (cert_claims c) = device
               ∧ mc_device_public_key (cert_claims c) = public_bytes key
               ∧ ∃ k, k ∈ keys ∧ certificate_valid k now c) certificates →
  authorization_set_valid keys now true r →
  verify_authorized_for_service r keys now skew kind id = Ok tt.
Proof.
  unfold sign_authorized_for_service, registration_sign_payload.
  intros Hs Hf Hne Hc Ha. inv_ok. subst. apply verify_authorized_for_service_Ok.
  split; [|done]. split; [done|done| |done|].
  - eexists. split; [eassumption|]. apply sign_signature_valid.
  - eapply Forall_impl; [exact Hc|]. by intros c (? & ? & ?).
Qed.

(** a registration is good for one service only.  A registration signed
    for one service is refused as misdirected by every other service, and by
    the verifier of untargeted registrations. *)
Theorem registration_bound_to_target device certificates manifests candidates issued nonce
    kind id key r keys now skew kind' id' :
  sign_authorized_for_service device certificates manifests candidates issued nonce kind id key
    = Ok r →
  (kind, id) ≠ (kind', id') →
  verify_authorized_for_service r keys now skew kind' id' = Err RootProtocolError.TargetMismatch
  ∧ verify_authorized r keys now skew = Err RootProtocolError.TargetMismatch.
Proof.
  unfold sign_authorized_for_service, registration_sign_payload. intros Hs Hne. inv_ok. subst.
  unfold verify_authorized_for_service, verify_authorized, verify_membership. cbn.
  rewrite bool_decide_eq_true_2 by naive_solver. done.
Qed.

(** a root's response signed with the keys its identity policy requires
    verifies both against the pinned identity and, for older clients, against
    the current key. *)
Theorem root_response_roundtrip `{!Ed25519Laws} nonce response identity keys now r :
  root_sign_with_identity nonce response (service_id identity) keys = Ok r →
  required_spec identity now (map public_bytes keys) →
  root_verify_identity r identity now = Ok tt
  ∧ root_response_verify r (current_public_key identity) = Ok tt.
Proof.
  unfold root_sign_with_identity. intros Hs Hr. inv_ok. subst.
  assert (∃ current rest, keys = current :: rest
    ∧ public_bytes current = current_public_key identity) as (current & rest & -> & Hcur).
  { clear -Hr. inversion Hr; destruct keys as [|k ks]; simplify_eq/=; by exists k, ks. }
  match goal with Hx : head _ = Some _ |- _ => injection Hx as <- end. split.
  - unfold root_verify_identity. cbn [srr_version srr_root_id srr_root_public_key
      srr_request_nonce srr_response srr_identity_signatures].
    unfold ROOT_PROTOCOL_VERSION in *. pass_guard.
    match goal with Hx : to_vec (mkRootIdentityResponsePayload _ _ _ _) = _ |- _ => pass_call Hx end.
    by rewrite service_signatures_accepted.
  - unfold root_response_verify. cbn [srr_version srr_root_public_key srr_signature
      srr_request_nonce srr_response]. pass_guard.
    rewrite !try_into_length by (apply public_bytes_length || apply sign_length).
    cbn [ok_or]. rewrite !bind_ret. unfold ROOT_PROTOCOL_VERSION in *.
    match goal with Hx : to_vec (mkRootResponsePayload _ _ _ _) = _ |- _ => pass_call Hx end.
    rewrite vk_from_public. cbn [ok_or]. rewrite bind_ret. by rewrite verify_sign.
Qed.
End root_properties.

(** ** Witnesses: the sample registration of a member with a relay *)
Lemma sample_registration_Ok : sample_registration_result = Ok sample_registration.
Proof. apply unwrap_Ok. by vm_compute. Qed.

Lemma registration_authorized_witness :
  let p := reg_payload sample_registration in
  rrp_version p = 2 ∧ rrp_target p = Some (mkRootRegistrationTarget Relay service_uuid)
  ∧ abs_diff 160 (rrp_issued_at p) ≤ 30
  ∧ (∃ message, registration_signature_message p = Ok message
      ∧ signature_valid (rrp_device_public_key p) message (reg_signature sample_registration))
  ∧ rrp_certificates p ≠ []
  ∧ ∀ c, c ∈ rrp_certificates p →
      mc_device_id (cert_claims c) = rrp_device_id p
      ∧ mc_device_public_key (cert_claims c) = rrp_device_public_key p
      ∧ (∃ key, key ∈ [controller_public] ∧ certificate_valid key 160 c)
      ∧ ∃ m key, m ∈ rrp_authorization_manifests p ∧ key ∈ [controller_public]
          ∧ manifest_valid key 160 m ∧ authorized m c
          ∧ auth_controller_public_key m = cert_controller_public_key c.
Proof.
  apply (registration_authorized sample_registration [controller_public] 160 30 Relay service_uuid).
  by vm_compute.
Defined.
Lemma registration_sign_verify_witness :
  verify_authorized_for_service sample_registration [controller_public] 160 30 Relay service_uuid
  = Ok tt.
Proof.
  apply (registration_sign_verify alice [alice_certificate] [sample_authorization]
    [SA4 (ip4 203 0 113 7) 4000] 150 sample_nonce Relay service_uuid alice_key).
  - exact sample_registration_Ok.
  - by vm_compute.
  - done.
  - apply Forall_singleton. split_and!; [vm_decide|vm_decide|].
    exists controller_public. split; [left|]. apply cert_verify_iff with (u := tt). by vm_compute.
  - apply verify_authorization_set_Ok with (u := tt). by vm_compute.
Defined.
Lemma registration_bound_to_target_witness :
  verify_authorized_for_service sample_registration [controller_public] 160 30 Root service_uuid
    = Err RootProtocolError.TargetMismatch
  ∧ verify_authorized sample_registration [controller_public] 160 30
    = Err RootProtocolError.TargetMismatch.
Proof.
  apply (registration_bound_to_target alice [alice_certificate] [sample_authorization]
    [SA4 (ip4 203 0 113 7) 4000] 150 sample_nonce Relay service_uuid alice_key).
  - exact sample_registration_Ok.
  - by intros [=].
Defined.
Lemma root_response_roundtrip_witness :
  let response := Registered (SA4 (ip4 203 0 113 7) 4000) [] 20 [] in
  let signed := root_sign_with_identity sample_nonce response service_uuid
    [service_key; next_service_key] in
  let r := unwrap signed (mkSignedRootResponse 0 [] [] response [] None []) in
  is_ok signed = true
  ∧ root_verify_identity r sample_identity 150 = Ok tt
  ∧ root_response_verify r (current_public_key sample_identity) = Ok tt.
Proof.
  cbn zeta. split; [by vm_compute|].
  apply (root_response_roundtrip sample_nonce (Registered (SA4 (ip4 203 0 113 7) 4000) [] 20 [])
    sample_identity [service_key; next_service_key]).
  - apply unwrap_Ok. by vm_compute.
  - apply required_public_keys_sound. apply sample_identity_keys.
Defined.
