(* ===== verification/PlanetFacts.v ===== *)
(** * Properties of Planet manifests *)
From S2P Require Import Prelude Net Text Ext Concrete Model ServiceIdentity Membership.
From S2P Require Import Authorization RelayProto Session RootProto Planet Policy Samples.
#[local] Open Scope Z_scope.

Section validation.
Context `{UuidLib} `{Ed25519}.

(** A TLS relay entry: named, pinned, and attached to a relay identity. *)
Record tls_relay_ok (relays : list PlanetRelay) (t : PlanetTlsRelay) : Prop := {
  tr_id : is_nil (tls_relay_id t) = false;
  tr_name : tls_server_name t ≠ EmptyString ∧ str_len (tls_server_name t) ≤ 253
    ∧ any_byte is_ascii_control (tls_server_name t) = false;
  tr_pin : length (tls_certificate_sha256 t) = 32%nat;
  tr_relay : ∃ relay identity, relay ∈ relays ∧ relay_identity relay = Some identity
    ∧ service_id identity = tls_relay_id t;
}.
Record tls_relays_ok (relays : list PlanetRelay) (ts : list PlanetTlsRelay) : Prop := {
  trs_each : Forall (tls_relay_ok relays) ts;
  trs_ids : NoDup (map tls_relay_id ts);
  trs_endpoints : NoDup (map tls_endpoint ts);
}.

Lemma str_is_empty_false s : str_is_empty s = false ↔ s ≠ EmptyString.
Proof. by destruct s. Qed.

Lemma tls_relay_named relays (t : PlanetTlsRelay) :
  existsb (λ udp_relay, is_some_and (relay_identity udp_relay)
    (λ i, bool_decide (service_id i = tls_relay_id t))) relays = true ↔
  ∃ relay identity, relay ∈ relays ∧ relay_identity relay = Some identity
    ∧ service_id identity = tls_relay_id t.
Proof.
  rewrite existsb_elem. split.
  - intros (relay & Hin & Hi). destruct (relay_identity relay) as [i|] eqn:E; [|done].
    cbn in Hi. apply bool_decide_eq_true in Hi. eauto.
  - intros (relay & i & Hin & Hi & Hid). exists relay. split; [done|]. rewrite Hi. cbn.
    by apply bool_decide_eq_true.
Qed.

Lemma validate_tls_relays_from_Ok ids endpoints ts relays u :
  validate_tls_relays_from ids endpoints ts relays = Ok u ↔
  Forall (tls_relay_ok relays) ts
  ∧ (NoDup (map tls_relay_id ts) ∧ Forall (λ t, tls_relay_id t ∉ ids) ts)
  ∧ (NoDup (map tls_endpoint ts) ∧ Forall (λ t, tls_endpoint t ∉ endpoints) ts).
Proof.
  destruct u. revert ids endpoints.
  induction ts as [|t ts IH]; intros ids endpoints; cbn [validate_tls_relays_from map].
  { split; [|done]. by repeat constructor. }
  rewrite !Forall_cons, !NoDup_cons. split.
  - intros Hv. inv_ok. apply IH in Hv as (Hall & [Hi Hids] & [He Hends]).
    apply Forall_not_in_insert in Hids as [? ?]. apply Forall_not_in_insert in Hends as [? ?].
    split_and!; try done. split; [done| | |by apply tls_relay_named].
    + split_and!; [by apply str_is_empty_false|lia|done].
    + unfold len in *. lia.
  - intros ([Ht Hall] & ([? ?] & ? & ?) & ([? ?] & ? & ?)).
    destruct Ht as [Hid (Hn%str_is_empty_false & Hl & Hb) Hp Hr%tls_relay_named].
    rewrite Hid, Hn, Hb, Hr. unfold len. rewrite Hp. repeat pass_guard.
    apply IH. rewrite !Forall_not_in_insert. done.
Qed.
Lemma validate_tls_relays_Ok ts relays u :
  validate_tls_relays ts relays = Ok u ↔ tls_relays_ok relays ts.
Proof.
  unfold validate_tls_relays. rewrite validate_tls_relays_from_Ok. split.
  - by intros (? & [? _] & [? _]).
  - intros [? ? ?]. split_and!; try done; by apply Forall_forall; intros ? _; apply not_elem_of_empty.
Qed.

(** A TURN entry: a public endpoint, pinned exactly when it uses TLS. *)
Definition turn_tls_ok (s : PlanetTurnServer) : Prop :=
  match turn_transport s with
  | Udp | Tcp => turn_server_name s = None ∧ turn_certificate_sha256 s = []
  | Tls => ∃ name, turn_server_name s = Some name ∧ name ≠ EmptyString ∧ str_len name ≤ 253
      ∧ any_byte (λ b, is_ascii_control b || is_ascii_whitespace b) name = false
      ∧ length (turn_certificate_sha256 s) = 32%nat
  end.
Record turn_servers_ok (ss : list PlanetTurnServer) : Prop := {
  ts_public : Forall (λ s, is_public_unicast_endpoint (turn_endpoint s) = true) ss;
  ts_tls : Forall turn_tls_ok ss;
  ts_distinct : NoDup (map turn_key ss);
}.

Lemma check_turn_tls_Ok s u : check_turn_tls s = Ok u ↔ turn_tls_ok s.
Proof.
  destruct u. unfold check_turn_tls, turn_tls_ok.
  assert (bail_if (is_some (turn_server_name s)
      || negb (is_empty (turn_certificate_sha256 s))) InvalidCertificate = Ok tt
    ↔ turn_server_name s = None ∧ turn_certificate_sha256 s = []) as Hplain.
  { rewrite bail_if_Ok, orb_false_iff, is_some_false, negb_false_iff. by rewrite is_empty_true. }
  destruct (turn_transport s); [done|done|]. split.
  - intros Hc. inv_ok. eexists. split_and!; [eassumption|by apply str_is_empty_false|lia|done|].
    unfold len in *. lia.
  - intros (name & Hn & He%str_is_empty_false & Hl & Hb & Hp). pass_call Hn.
    rewrite He, Hb. unfold len. rewrite Hp. pass_guard.
Qed.

Lemma validate_turn_servers_from_Ok seen ss u :
  validate_turn_servers_from seen ss = Ok u ↔
  Forall (λ s, is_public_unicast_endpoint (turn_endpoint s) = true) ss ∧ Forall turn_tls_ok ss
  ∧ NoDup (map turn_key ss) ∧ Forall (λ s, turn_key s ∉ seen) ss.
Proof.
  destruct u. revert seen. induction ss as [|s ss IH]; intros seen;
    cbn [validate_turn_servers_from map].
  { split; [|done]. by repeat constructor. }
  rewrite !Forall_cons, NoDup_cons. split.
  - intros Hv. inv_ok. apply IH in Hv as (? & ? & ? & Hs).
    apply Forall_not_in_insert in Hs as [? ?].
    match goal with Hc : check_turn_tls _ = Ok _ |- _ => apply check_turn_tls_Ok in Hc end.
    done.
  - intros ([Hp ?] & [Ht ?] & [? ?] & ? & ?). rewrite Hp. pass_guard.
    rewrite (proj2 (check_turn_tls_Ok s tt)), bind_ret by done.
    apply IH. rewrite Forall_not_in_insert. done.
Qed.
Lemma validate_turn_servers_Ok ss u : validate_turn_servers ss = Ok u ↔ turn_servers_ok ss.
Proof.
  unfold validate_turn_servers. rewrite validate_turn_servers_from_Ok. split.
  - by intros (? & ? & ? & _).
  - intros [? ? ?]. split_and!; try done. apply Forall_forall; intros ? _; apply not_elem_of_empty.
Qed.

(** Every root and relay has an identity whose key rotation is usable now. *)
Definition identity_current (now : Z) (i : ServiceIdentityPolicy) : Prop :=
  ∃ ks, required_spec i now ks.
Definition root_ok (now : Z) (r : PlanetRoot) : Prop :=
  ∃ i, root_identity r = Some i ∧ identity_current now i
    ∧ root_public_key r = current_public_key i.
Definition relay_ok (now : Z) (r : PlanetRelay) : Prop :=
  ∃ i, relay_identity r = Some i ∧ identity_current now i.

Lemma identity_current_Ok i now :
  (∃ ks, required_public_keys i now = Ok ks) ↔ identity_current now i.
Proof.
  split; intros [ks ?]; exists ks;
    [by apply required_public_keys_sound|by apply required_public_keys_complete].
Qed.
Lemma check_root_identity_Ok now r u : check_root_identity now r = Ok u ↔ root_ok now r.
Proof.
  destruct u. unfold check_root_identity, root_ok. split.
  - intros Hc. inv_ok. repeat match goal with Hn : ¬ (_ ≠ _) |- _ => apply dec_stable in Hn end.
    eexists. split_and!; [eassumption|apply identity_current_Ok; by eexists|done].
  - intros (i & Hi & [ks Hks]%identity_current_Ok & Hk). pass_call Hi. pass_call Hks. pass_guard.
Qed.
Lemma check_relay_identity_Ok now r u : check_relay_identity now r = Ok u ↔ relay_ok now r.
Proof.
  destruct u. unfold check_relay_identity, relay_ok. split.
  - intros Hc. inv_ok. eexists. split; [eassumption|]. apply identity_current_Ok. by eexists.
  - intros (i & Hi & [ks Hks]%identity_current_Ok). pass_call Hi. by pass_call Hks.
Qed.

Lemma check_identities_Ok now roots relays u :
  check_identities now roots relays = Ok u ↔
  Forall (root_ok now) roots ∧ relays ≠ [] ∧ Forall (relay_ok now) relays.
Proof.
  destruct u. unfold check_identities. split.
  - intros Hc. inv_ok. split_and!.
    + eapply Forall_impl; [eassumption|]. intros r. apply check_root_identity_Ok.
    + by apply is_empty_false.
    + eapply Forall_impl; [exact Hc|]. intros r. apply check_relay_identity_Ok.
  - intros (Hr & Hne & Hl).
    assert (existsb (λ root, is_none (root_identity root)) roots = false) as ->.
    { apply existsb_not_elem. intros r Hin. rewrite Forall_forall in Hr.
      destruct (Hr r Hin) as (i & -> & _). done. }
    assert (existsb (λ relay, is_none (relay_identity relay)) relays = false) as ->.
    { apply existsb_not_elem. intros r Hin. rewrite Forall_forall in Hl.
      destruct (Hl r Hin) as (i & -> & _). done. }
    rewrite (proj2 (is_empty_false _)) by done. pass_guard.
    rewrite (proj2 (for_each_Ok (check_root_identity now) roots tt)), bind_ret.
    + apply for_each_Ok. eapply Forall_impl; [exact Hl|].
      intros r. apply check_relay_identity_Ok.
    + eapply Forall_impl; [exact Hr|]. intros r. apply check_root_identity_Ok.
Qed.
End validation.

Section acceptance.
Context `{UuidLib} `{Ed25519} `{!PlanetSerde}.
Implicit Types m : PlanetManifest.

(** What the checks of a Planet of version 3 or later say. *)
Record v3_ok (now : Z) m : Prop := {
  v3_roots : Forall (root_ok now) (pm_roots m);
  v3_some_relay : pm_relays m ≠ [];
  v3_relays : Forall (relay_ok now) (pm_relays m);
  v3_tls : if 4 <=? pm_version m then tls_relays_ok (pm_relays m) (pm_tls_relays m)
           else pm_tls_relays m = [];
  v3_turn : if pm_version m =? 5 then turn_servers_ok (pm_turn_servers m)
            else pm_turn_servers m = [];
}.
Lemma check_v3_sections_Ok m now u :
  check_v3_sections m now = Ok u ↔ (3 ≤ pm_version m → v3_ok now m).
Proof.
  destruct u. unfold check_v3_sections. destruct (3 <=? pm_version m) eqn:Hv.
  2: { apply Z.leb_gt in Hv. split; [lia|done]. }
  apply Z.leb_le in Hv. split.
  - intros (? & (? & ? & ?)%check_identities_Ok & Hc)%bind_Ok _.
    apply bind_Ok in Hc as (? & Ht & Hs). split; [done|done|done| |].
    + destruct (4 <=? pm_version m); [by apply validate_tls_relays_Ok in Ht|].
      inv_ok. by apply is_empty_true.
    + destruct (pm_version m =? 5); [by apply validate_turn_servers_Ok in Hs|].
      inv_ok. by apply is_empty_true.
  - intros Hm. destruct (Hm Hv) as [? ? ? Ht Hs].
    rewrite (proj2 (check_identities_Ok now (pm_roots m) (pm_relays m) tt)), bind_ret by done.
    apply bind_Ok. exists tt. split.
    + destruct (4 <=? pm_version m); [by apply validate_tls_relays_Ok|]. by rewrite Ht.
    + destruct (pm_version m =? 5); [by apply validate_turn_servers_Ok|]. by rewrite Hs.
Qed.

Record planet_valid (key : bytes) (now : Z) m : Prop := {
  pl_version : 1 ≤ pm_version m ≤ 5;
  pl_controller : pm_controller_public_key m = key;
  pl_current : ∀ expiry, pm_expires_at m = Some expiry → now ≤ expiry;
  pl_legacy : pm_version m < 3 →
    Forall (λ r, root_identity r = None) (pm_roots m)
    ∧ Forall (λ r, relay_identity r = None) (pm_relays m);
  pl_v3 : 3 ≤ pm_version m → v3_ok now m;
  pl_signed : ∃ encoded, planet_payload m = Some encoded
    ∧ signature_valid key encoded (pm_signature m);
}.

Lemma no_identity {A} (f : A → option ServiceIdentityPolicy) l :
  existsb (λ a, is_some (f a)) l = false ↔ Forall (λ a, f a = None) l.
Proof. rewrite existsb_not_elem, Forall_forall. by setoid_rewrite is_some_false. Qed.

Lemma planet_verify_iff m key now u :
  planet_verify_from_controller m key now = Ok u ↔ planet_valid key now m.
Proof.
  destruct u. unfold planet_verify_from_controller. split.
  - intros Hv. inv_ok. repeat match goal with Hn : ¬ (_ ≠ _) |- _ => apply dec_stable in Hn end.
    subst. match goal with Hx : check_v3_sections _ _ = Ok _ |- _ =>
      rewrite check_v3_sections_Ok in Hx end.
    split; [lia|done| | |done|].
    + intros e He. rewrite He in *. cbn in *. inv_ok. lia.
    + intros Hlt. match goal with Hx : _ && _ = false |- _ =>
        rewrite (proj2 (Z.ltb_lt _ _) Hlt) in Hx; cbn in Hx;
        apply orb_false_iff in Hx as [?%no_identity ?%no_identity] end. done.
    + eexists. split; [eassumption|]. eauto with signatures.
  - intros [Hv Hk He Hl H3 (m' & Hm & Hs)]. pass_guard.
    assert (is_some_and (pm_expires_at m) (λ expiry, expiry <? now) = false) as ->.
    { destruct (pm_expires_at m) as [e|]; [|done]. cbn. apply Z.ltb_ge. by apply He. }
    pass_guard. rewrite Hk. apply signature_valid_elim in Hs as (Hkk & Hsig & vk & Hvk & Hver).
    pass_call Hkk. pass_call Hsig.
    rewrite (proj2 (check_v3_sections_Ok m now tt) H3).
    assert ((pm_version m <? 3) && (existsb (λ root, is_some (root_identity root)) (pm_roots m)
      || existsb (λ relay, is_some (relay_identity relay)) (pm_relays m)) = false) as ->.
    { destruct (pm_version m <? 3) eqn:E; [|done]. apply Z.ltb_lt in E.
      destruct (Hl E) as [?%no_identity ?%no_identity]. by apply orb_false_iff. }
    pass_guard. pass_call Hm. pass_call Hvk. by rewrite Hver.
Qed.
End acceptance.

Section planet_properties.
Context `{UuidLib} `{Ed25519} `{!PlanetSerde}.
Implicit Types m : PlanetManifest.

(** what an accepted Planet says.  It has a known version, was signed by
    the pinned controller and has not expired; before version 3 it names no
    service identity; from version 3 every root and relay has an identity
    whose required keys exist now and the root keys agree with them; TLS
    relays (version 4) are pinned, distinct and attached to a relay identity;
    TURN servers (version 5) are distinct public unicast endpoints, pinned
    exactly when they use TLS; and earlier versions carry neither. *)
Theorem planet_verify_sound m key now :
  planet_verify_from_controller m key now = Ok tt → planet_valid key now m.
Proof. apply planet_verify_iff. Qed.

Lemma sign_v3_Ok url roots relays stun issued expires key m :
  sign_v3 url roots relays stun issued expires key = Ok m →
  ∃ first, head (sort_relays relays) = Some first
    ∧ pm_version m = 3 ∧ pm_controller_url m = url ∧ pm_relay_endpoint m = relay_endpoint first
    ∧ pm_roots m = sort_roots roots ∧ pm_relays m = sort_relays relays
    ∧ pm_tls_relays m = [] ∧ pm_turn_servers m = [] ∧ pm_stun_servers m = stun
    ∧ pm_issued_at m = issued ∧ pm_expires_at m = expires
    ∧ pm_controller_public_key m = public_bytes key.
Proof. unfold sign_v3. intros Hs. inv_ok. subst. by eexists. Qed.

Lemma sorted_identities now roots relays :
  Forall (root_ok now) roots → Forall (relay_ok now) relays →
  Forall (root_ok now) (sort_roots roots) ∧ Forall (relay_ok now) (sort_relays relays).
Proof.
  unfold sort_roots, sort_relays. rewrite !Forall_forall. intros Hr Hl.
  split; intros x; rewrite elem_of_sort_by; auto.
Qed.

Lemma sign_v5_valid `{!Ed25519Laws} url roots relays tls turn stun issued expires key m now :
  sign_v5 url roots relays tls turn stun issued expires key = Ok m →
  (∀ e, expires = Some e → now ≤ e) →
  Forall (root_ok now) roots → Forall (relay_ok now) relays →
  planet_valid (public_bytes key) now m
  ∧ pm_roots m = sort_roots roots ∧ pm_relays m = sort_relays relays
  ∧ pm_tls_relays m = sort_tls_relays tls ∧ pm_turn_servers m = sort_turn_servers turn.
Proof.
  unfold sign_v5. intros Hs He Hr Hl. apply bind_Ok in Hs as (m4 & H4 & Hs).
  unfold sign_v4 in H4. apply bind_Ok in H4 as (m3 & H3 & H4).
  apply sign_v3_Ok in H3 as (first & Hf & Hv & Hurl & Hend & Hroots & Hrelays & Htls & Hturn
    & Hstun & Hiss & Hexp & Hkey).
  inv_ok. subst. cbn in *.
  repeat match goal with
  | Hx : validate_tls_relays _ _ = Ok _ |- _ => apply validate_tls_relays_Ok in Hx
  | Hx : validate_turn_servers _ = Ok _ |- _ => apply validate_turn_servers_Ok in Hx
  end.
  destruct (sorted_identities now roots relays Hr Hl) as [Hr' Hl'].
  split; [|done]. split; cbn; try done; try lia.
  - intros _. split; cbn; rewrite ?Hroots, ?Hrelays; try done; try congruence.
    intros Hn. by rewrite Hn in Hf.
  - eexists. split; [eassumption|]. apply sign_signature_valid.
Qed.

(** a version 5 Planet that the controller signs is accepted by every
    client that pins the controller, while it has not expired and the key
    rotations of its services have not run out; it carries the given roots,
    relays, TLS relays and TURN servers in priority order. *)
Theorem planet_sign_v5_verify `{!Ed25519Laws} url roots relays tls turn stun issued expires
    key m now :
  sign_v5 url roots relays tls turn stun issued expires key = Ok m →
  (∀ e, expires = Some e → now ≤ e) →
  Forall (root_ok now) roots → Forall (relay_ok now) relays →
  planet_verify_from_controller m (public_bytes key) now = Ok tt
  ∧ pm_roots m ≡ₚ roots ∧ pm_relays m ≡ₚ relays
  ∧ pm_tls_relays m ≡ₚ tls ∧ pm_turn_servers m ≡ₚ turn.
Proof.
  intros Hs He Hr Hl.
  destruct (sign_v5_valid _ _ _ _ _ _ _ _ _ _ _ Hs He Hr Hl) as (Hv & -> & -> & -> & ->).
  split; [by apply planet_verify_iff|]. split_and!; apply sort_by_perm.
Qed.

(** A manifest with other service lists. *)
Definition with_services m roots relays tls turn : PlanetManifest :=
  mkPlanetManifest (pm_version m) (pm_controller_url m) (pm_relay_endpoint m) roots relays tls
    turn (pm_stun_servers m) (pm_issued_at m) (pm_expires_at m) (pm_controller_public_key m)
    (pm_signature m).

(** the signature of a version 1 Planet does not cover its service lists.
    A verifier that accepts such a manifest accepts it with any roots and
    relays that carry no identity, any TLS relays and any TURN servers, and
    for version 2 with any TLS relays and TURN servers: the emptiness checks
    of those lists run only from version 3 on. *)
Theorem planet_legacy_lists_unsigned m key now roots relays tls turn :
  planet_verify_from_controller m key now = Ok tt →
  pm_version m = 1 ∧ Forall (λ r, root_identity r = None) roots
    ∧ Forall (λ r, relay_identity r = None) relays
  ∨ pm_version m = 2 ∧ roots = pm_roots m ∧ relays = pm_relays m →
  planet_verify_from_controller (with_services m roots relays tls turn) key now = Ok tt.
Proof.
  intros [Hv Hk He Hl H3 (e & Hp & Hs)]%planet_verify_iff Hcase.
  assert (pm_version m < 3) as Hlt by (destruct Hcase as [[? _]|[? _]]; lia).
  specialize (Hl Hlt). apply planet_verify_iff. split; cbn; try done.
  - intros _. by destruct Hcase as [(_ & ? & ?)|(_ & -> & ->)].
  - lia.
  - exists e. split; [|done]. revert Hp. unfold planet_payload. cbn.
    by destruct Hcase as [(-> & _ & _)|(-> & -> & ->)].
Qed.
End planet_properties.

(** ** Witnesses *)
#[local] Instance planet_serde_sample : PlanetSerde :=
  {| serde_planet_v1 := const_serde _; serde_planet_v2 := const_serde _;
     serde_planet_v3 := const_serde _; serde_planet_v4 := const_serde _;
     serde_planet_v5 := const_serde _; serde_planet_semantic := const_serde _ |}.
Definition sample_root : PlanetRoot :=
  mkPlanetRoot (public_bytes service_key) [SA4 (ip4 203 0 113 1) 9000] 10 (Some sample_identity).
Definition sample_relay (priority port : Z) : PlanetRelay :=
  mkPlanetRelay (SA4 (ip4 203 0 113 2) port) priority (Some sample_identity).
Definition sample_tls : PlanetTlsRelay :=
  mkPlanetTlsRelay service_uuid (SA4 (ip4 203 0 113 2) 443) "relay.example" (replicate 32 1) 5.
Definition sample_turn : PlanetTurnServer :=
  mkPlanetTurnServer (SA4 (ip4 203 0 113 3) 3478) Udp None [] 5.
Definition sample_planet_result : result CryptoError PlanetManifest :=
  sign_v5 "https://controller.example" [sample_root] [sample_relay 20 1; sample_relay 10 2]
    [sample_tls] [sample_turn] ["stun.example:3478"] 120 (Some 180) controller_key.
Definition sample_planet_v1_result : result CryptoError PlanetManifest :=
  planet_sign "https://controller.example" (SA4 (ip4 203 0 113 2) 1) [] 120 None controller_key.
Definition no_planet : PlanetManifest :=
  mkPlanetManifest 0 "" (SA4 0 0) [] [] [] [] [] 0 None [] [].

Lemma planet_verify_sound_witness :
  planet_valid controller_public 150 (unwrap sample_planet_result no_planet).
Proof. apply planet_verify_sound. by vm_compute. Defined.
Lemma planet_sign_v5_verify_witness :
  let m := unwrap sample_planet_result no_planet in
  is_ok sample_planet_result = true
  ∧ planet_verify_from_controller m controller_public 150 = Ok tt
  ∧ pm_roots m ≡ₚ [sample_root] ∧ pm_relays m ≡ₚ [sample_relay 20 1; sample_relay 10 2]
  ∧ pm_tls_relays m ≡ₚ [sample_tls] ∧ pm_turn_servers m ≡ₚ [sample_turn].
Proof.
  cbn zeta. split; [by vm_compute|].
  apply (planet_sign_v5_verify "https://controller.example" [sample_root]
    [sample_relay 20 1; sample_relay 10 2] [sample_tls] [sample_turn] ["stun.example:3478"] 120
    (Some 180) controller_key).
  - apply unwrap_Ok. by vm_compute.
  - intros e [= <-]. lia.
  - apply Forall_singleton. apply check_root_identity_Ok with (u := tt). by vm_compute.
  - apply Forall_cons. split; [|apply Forall_singleton];
      apply check_relay_identity_Ok with (u := tt); by vm_compute.
Defined.
Lemma planet_legacy_lists_unsigned_witness :
  let m := unwrap sample_planet_v1_result no_planet in
  planet_verify_from_controller m controller_public 150 = Ok tt
  ∧ planet_verify_from_controller
      (with_services m [mkPlanetRoot [] [] 0 None] [] [sample_tls] [sample_turn])
      controller_public 150 = Ok tt.
Proof.
  cbn zeta. split; [by vm_compute|]. apply planet_legacy_lists_unsigned; [by vm_compute|].
  left. split_and!; [by vm_compute|by apply Forall_singleton|done].
Defined.
