(* ===== verification/PolicyPlanFacts.v ===== *)
(** * The adapter's plans: where every planned route comes from

    A plan only routes what a signed policy offers, keeps clear of the overlay's
    own addresses, and sends the default route through an exit that the signed
    policy of the network authorises and the operator selected. *)
From S2P Require Import Prelude Net Text Ext Concrete Model ServiceIdentity Membership.
From S2P Require Import Authorization Planet Policy Joined ExitGateway PolicyPlan Samples.
From S2P Require Import Request.
#[local] Open Scope Z_scope.

Lemma try_foldl_in {E A B} (f : A → B → result E A) (P : A → Prop) l a a' :
  try_foldl f a l = Ok a' → P a → (∀ a b a', b ∈ l → P a → f a b = Ok a' → P a') → P a'.
Proof.
  revert a. induction l as [|b l IH]; intros a Hl Ha Hf; cbn in Hl; [by injection Hl as <-|].
  apply bind_Ok in Hl as (a1 & Hb & Hl). apply (IH a1); [done| |].
  - eapply Hf; [by left|done|done].
  - intros a2 b2 a3 Hin. apply Hf. by right.
Qed.

Section plan.
Context `{UuidLib} `{Ed25519} `{IpNetLib}.
Context `{!MembershipSerde} `{!AuthorizationSerde} `{!PolicySerde}.
Implicit Types (s : PlanState) (joined : JoinedNetwork) (r : PlannedRoute).

(** ** What a planned route stands for *)
Record split_route (networks : list JoinedNetwork) (now : Z) r : Prop := {
  sr_origin : ∃ joined policy route net,
    joined ∈ networks ∧ cp_policy_manifest (jn_control_plane joined) = Some policy
    ∧ route ∈ pol_routes policy ∧ parse_ipnet (pr_prefix route) = Some net
    ∧ pol_network_id policy = jn_id joined ∧ now ≤ pol_expires_at policy
    ∧ r = mkPlannedRoute (net_to_string net) (jn_id joined)
            (mc_device_id (cert_claims (pr_gateway_certificate route)))
    ∧ mc_network_id (cert_claims (pr_gateway_certificate route)) = jn_id joined
    ∧ overlaps_virtual_prefix joined net = Ok false;
}.
(** The default route of a family, through the selected gateway. *)
Definition selected (selection : ExitNodeSelection) (r : PlannedRoute) (probe : IpAddr) : Prop :=
  pl_prefix r = "0.0.0.0/0"%string ∧ probe = ipv4_probe
    ∧ es_ipv4_gateway selection = Some (pl_gateway_device_id r)
  ∨ pl_prefix r = "::/0"%string ∧ probe = ipv6_probe
    ∧ es_ipv6_gateway selection = Some (pl_gateway_device_id r).
Record exit_route (networks : list JoinedNetwork) (now : Z) r : Prop := {
  er_origin : ∃ joined policy authorization probe,
    joined ∈ networks ∧ cp_policy_manifest (jn_control_plane joined) = Some policy
    ∧ cp_authorization_manifest (jn_control_plane joined) = Some authorization
    ∧ pl_network_id r = jn_id joined
    ∧ selected (cp_exit_node_selection (jn_control_plane joined)) r probe
    ∧ verify_for_network policy (jn_id joined)
        (cp_pinned_controller_public_key (jn_control_plane joined)) authorization now None = Ok tt
    ∧ exit_node_supports policy (pl_gateway_device_id r) probe = true;
}.
(** The DNS servers of one network at most. *)
Definition dns_owned (networks : list JoinedNetwork) (servers : list IpAddr) : Prop :=
  servers = [] ∨ ∃ joined policy, joined ∈ networks
    ∧ cp_policy_manifest (jn_control_plane joined) = Some policy
    ∧ ∀ server, server ∈ servers → server ∈ dns_servers (pol_dns policy).

(** ** The maps *)
Abbreviation route_map := (gmap string PlannedRoute).
Definition keyed (P : PlannedRoute → Prop) (m : route_map) : Prop :=
  ∀ k r, m !! k = Some r → pl_prefix r = k ∧ P r.
Lemma insert_route_keyed P m r m' :
  keyed P m → P r → insert_route m r = Ok m' → keyed P m'.
Proof.
  unfold insert_route. intros Hm Hr Hi. inv_ok. subst m'. intros k r'.
  intros [[<- <-]|[_ ?]]%lookup_insert_Some; [done|by apply Hm].
Qed.
Lemma values_in_order_spec m r : r ∈ values_in_order m ↔ ∃ k, m !! k = Some r.
Proof.
  unfold values_in_order. rewrite list_elem_of_fmap. split.
  - intros ([k r'] & -> & Hin). rewrite elem_of_sort_by, elem_of_map_to_list in Hin. by exists k.
  - intros [k Hk]. exists (k, r). split; [done|]. by rewrite elem_of_sort_by, elem_of_map_to_list.
Qed.
Lemma NoDup_values P m : keyed P m → NoDup (map pl_prefix (values_in_order m)).
Proof.
  intros Hm. unfold values_in_order. rewrite List.map_map.
  rewrite (List.map_ext_in _ fst).
  - rewrite sort_by_perm. apply NoDup_fst_map_to_list.
  - intros [k r] Hin%list_elem_of_In. rewrite elem_of_sort_by, elem_of_map_to_list in Hin.
    by destruct (Hm _ _ Hin).
Qed.
Lemma values_nil m : values_in_order m = [] ↔ m = ∅.
Proof.
  unfold values_in_order. split; [|by intros ->]. intros Hv%List.map_eq_nil%sort_by_nil_iff.
  by apply map_to_list_empty_iff.
Qed.

(** ** The loop *)
Section loop.
Context (networks : list JoinedNetwork) (now : Z).
Record plan_ok s : Prop := {
  po_routes : keyed (split_route networks now) (ps_routes s);
  po_exits : keyed (exit_route networks now) (ps_exit_routes s);
  po_switch : ps_exit_kill_switch s = true → ps_exit_routes s ≠ ∅;
  po_dns : dns_owned networks (ps_dns_servers s);
  po_unowned : ps_dns_owner s = None → ps_dns_servers s = [];
}.
Lemma plan_route_ok joined policy m route m' :
  joined ∈ networks → cp_policy_manifest (jn_control_plane joined) = Some policy →
  pol_network_id policy = jn_id joined → now ≤ pol_expires_at policy → route ∈ pol_routes policy →
  keyed (split_route networks now) m → plan_route joined m route = Ok m' →
  keyed (split_route networks now) m'.
Proof.
  intros Hj Hp Hid Hexp Hr Hm Hr'. unfold plan_route in Hr'. inv_ok. subst.
  repeat match goal with Hn : ¬ (_ ≠ _) |- _ => apply dec_stable in Hn end.
  eapply insert_route_keyed; [done| |done]. split. repeat eexists; done.
Qed.
Lemma plan_exit_ok joined policy s choice s' :
  joined ∈ networks → cp_policy_manifest (jn_control_plane joined) = Some policy →
  let selection := cp_exit_node_selection (jn_control_plane joined) in
  choice ∈ [(es_ipv4_gateway selection, "0.0.0.0/0"%string, ipv4_probe);
            (es_ipv6_gateway selection, "::/0"%string, ipv6_probe)] →
  plan_ok s → plan_exit now joined policy s choice = Ok s' → plan_ok s'.
Proof.
  intros Hj Hp selection Hchoice Hs Hr. destruct choice as [[gateway prefix] probe].
  cbn in Hr. destruct gateway as [g|]; [|by injection Hr as <-]. inv_ok. subst s'.
  destruct Hs as [Hroutes Hexits Hswitch Hdns Hun]. split; cbn; [done| | |done|done].
  - eapply insert_route_keyed; [done| |done]. split. repeat eexists; try done.
    + apply elem_of_cons in Hchoice as [E|E%list_elem_of_singleton]; injection E as ? -> ->;
        [left|right]; by split_and!.
    + by destruct x0.
  - intros _. match goal with Hi : insert_route _ _ = Ok _ |- _ => unfold insert_route in Hi end.
    inv_ok. subst. apply insert_non_empty.
Qed.
Lemma plan_dns_ok joined policy s s' :
  joined ∈ networks → cp_policy_manifest (jn_control_plane joined) = Some policy →
  plan_ok s → plan_dns joined policy s = Ok s' → plan_ok s'.
Proof.
  intros Hj Hp Hs Hr. unfold plan_dns in Hr. case_match; [|by injection Hr as <-]. inv_ok. subst.
  destruct Hs as [Hroutes Hexits Hswitch Hdns Hun]. split; cbn; try done.
  right. exists joined, policy. split_and!; [done|done|].
  rewrite Hun by (by apply is_some_false). done.
Qed.
Lemma plan_network_ok joined s s' :
  joined ∈ networks → plan_ok s → plan_network now s joined = Ok s' → plan_ok s'.
Proof.
  intros Hj Hs Hr. unfold plan_network in Hr.
  destruct (cp_policy_manifest _) as [policy|] eqn:Hp; [|by injection Hr as <-].
  apply bind_Ok in Hr as (u1 & Hstale & Hr). apply bind_Ok in Hr as (routes & Hroutes & Hr).
  apply bind_Ok in Hr as (u2 & _ & Hr). apply bind_Ok in Hr as (s2 & Hexits & Hr).
  apply bail_if_Ok, orb_false_iff in Hstale as [Hid Hexp].
  apply bool_decide_eq_false, dec_stable in Hid. apply Z.ltb_ge in Hexp.
  eapply plan_dns_ok; [done|done| |done].
  eapply (try_foldl_in _ plan_ok); [exact Hexits| |].
  - destruct Hs as [Hm Hexits' Hswitch Hdns Hun]. split; try done. cbn.
    eapply (try_foldl_in _ (keyed (split_route networks now))); [exact Hroutes|done|].
    intros. by eapply plan_route_ok.
  - intros s3 choice s4 Hin Hs3 Hc. by eapply (plan_exit_ok joined policy s3 choice).
Qed.
Lemma plan_loop_ok s : try_foldl (plan_network now) PlanState_new networks = Ok s → plan_ok s.
Proof.
  intros Hl. eapply (try_foldl_in _ plan_ok); [exact Hl| |].
  - split; try done; [intros k r; cbn; by rewrite lookup_empty..|by left].
  - intros s1 joined s2 Hin Hs1. by apply plan_network_ok.
Qed.
End loop.

(** What an accepted plan promises. *)
Record plan_sound (networks : list JoinedNetwork) (now : Z) (plan : PolicyPlan) : Prop := {
  ps_unambiguous : NoDup (map pl_prefix (pp_routes plan)) ∧ NoDup (map pl_prefix (pp_exit_routes plan));
  ps_split : ∀ r, r ∈ pp_routes plan → split_route networks now r;
  ps_exit : ∀ r, r ∈ pp_exit_routes plan → exit_route networks now r;
  ps_no_leak : pp_exit_routes plan ≠ [] → pp_dns_servers plan ≠ [];
  ps_guarded : pp_exit_kill_switch plan = true → pp_exit_routes plan ≠ [];
  ps_dns : dns_owned networks (pp_dns_servers plan);
}.
(** an accepted policy plan is sound: each prefix is routed once; each split
    route is in a current policy of its network, goes to the gateway certified
    there and does not touch the overlay's addresses; each default route goes
    through the exit the operator selected and a verified policy authorises, and
    never without a DNS server; the servers come from one network. *)
Theorem policy_plan_sound (networks : list JoinedNetwork) (now : Z) (plan : PolicyPlan) :
  policy_plan networks now = Ok plan → plan_sound networks now plan.
Proof.
  unfold policy_plan. intros Hp. inv_ok.
  match goal with Hl : try_foldl _ _ _ = Ok ?x |- _ => rename x into s;
    apply plan_loop_ok in Hl as [Hroutes Hexits Hswitch Hdns _] end.
  subst plan. split; cbn.
  - split; by eapply NoDup_values.
  - intros r [k Hk]%values_in_order_spec. by eapply Hroutes.
  - intros r [k Hk]%values_in_order_spec. by eapply Hexits.
  - intros Hne Hempty. rewrite Hempty in *. rewrite values_nil in Hne.
    match goal with Hb : negb (bool_decide _) && _ = false |- _ =>
      cbn in Hb; rewrite andb_true_r in Hb; apply negb_false_iff, bool_decide_eq_true in Hb end.
    done.
  - intros Hs Hn%values_nil. by destruct (Hswitch Hs).
  - destruct Hdns as [->|(joined & policy & Hj & Hpol & Hin)]; [by left|right].
    exists joined, policy. split_and!; [done|done|].
    intros server. rewrite elem_of_dedup, elem_of_sort_by. apply Hin.
Qed.
End plan.

(** ** Witness *)
Definition exit_network : JoinedNetwork :=
  let c := jn_control_plane alice_network in
  mkJoinedNetwork (jn_network alice_network) [addr 2] (Some alice_certificate) (replicate 32 7)
    (mkNetworkControlPlane None controller_public None None None None None [] [] [] [] [] []
       (cp_authorization_manifest c) (cp_policy_manifest c)
       (mkExitNodeSelection (Some bob) None true)).
Definition exit_plan : PolicyPlan := unwrap (policy_plan [exit_network] 150) PolicyPlan_default.
Lemma policy_plan_sound_witness :
  plan_sound [exit_network] 150 exit_plan
  ∧ pp_exit_routes exit_plan = [mkPlannedRoute "0.0.0.0/0" net_a bob]
  ∧ length (pp_routes exit_plan) = 2%nat.
Proof.
  split; [apply policy_plan_sound; apply unwrap_Ok; by vm_compute|]. vm_decide.
Defined.
