(* ===== verification/LinuxAdapterFacts.v ===== *)
(** * What the Linux adapter leaves installed

    The system's rules are the multiset of the rules that successful commands
    added and removed.  A delete only succeeds on a rule that is there, and a
    command that fails changes nothing.  Over such a system, replacing one set of
    rules by another either installs exactly the new one, keeps the old one, or
    disables the adapter. *)
From S2P Require Import Prelude Net Text Ext Concrete Model ServiceIdentity Membership.
From S2P Require Import Authorization Planet Policy Joined ExitGateway PolicyPlan.
From S2P Require Import TransportHealth.
From S2P Require Import Samples Request LinuxAdapter.
From stdpp Require Import gmultiset.
From Stdlib Require Import Ascii.
#[local] Open Scope Z_scope.

(** ** Rules *)
(** The program, the table, the chain and the match of an iptables rule. *)
Abbreviation rule := (string * string * string * list string)%type.
Definition is_iptables (program : string) : bool :=
  bool_decide (program = "iptables"%string) || bool_decide (program = "ip6tables"%string).
Definition rule_operation_of (operation : string) : option Operation :=
  if bool_decide (operation = "-D"%string) then Some Remove
  else if bool_decide (operation = "-A"%string) || bool_decide (operation = "-I"%string)
       then Some Apply else None.
Definition rule_in (program table : string) (arguments : list string) : option (Operation * rule) :=
  match arguments with
  | operation :: chain :: spec =>
      op ← rule_operation_of operation; Some (op, (program, table, chain, spec))
  | _ => None
  end.
Definition rule_of (c : LinuxPolicyCommand) : option (Operation * rule) :=
  if is_iptables (lc_program c) then
    match lc_arguments c with
    | _ :: flag :: table :: rest =>
        if bool_decide (flag = "-t"%string) then rule_in (lc_program c) table rest
        else rule_in (lc_program c) "filter" (flag :: table :: rest)
    | _ => None
    end
  else None.
Definition rules_of (cs : list LinuxPolicyCommand) : gmultiset rule :=
  list_to_set_disj (omap (λ c, snd <$> rule_of c) cs).
(** The commands of a list that change rules all do the same to them. *)
Definition all_do (op : Operation) (cs : list LinuxPolicyCommand) : Prop :=
  Forall (λ c, ∀ op' r, rule_of c = Some (op', r) → op' = op) cs.

Definition effect (rules : gmultiset rule) (c : LinuxPolicyCommand) (succeeded : bool)
    : gmultiset rule :=
  if succeeded then
    match rule_of c with
    | Some (Apply, r) => rules ⊎ {[+ r +]}
    | Some (Remove, r) => rules ∖ {[+ r +]}
    | None => rules
    end
  else rules.
Definition installed (env : AdapterEnv) (log : list LinuxPolicyCommand) : gmultiset rule :=
  (fold_left (λ '(before, rules) c, (before ++ [c], effect rules c (ae_execute env before c)))
     log ([], ∅)).2.
Lemma installed_snoc env log c :
  installed env (log ++ [c]) = effect (installed env log) c (ae_execute env log c).
Proof.
  unfold installed. rewrite fold_left_app. cbn.
  set (f := λ '(before, rules) c, (before ++ [c], effect rules c (ae_execute env before c))).
  assert (∀ l before (rules : gmultiset rule), (fold_left f l (before, rules)).1 = before ++ l)
    as Hlog.
  { induction l as [|x l IH]; intros before rules; cbn; [by rewrite app_nil_r|].
    rewrite IH. by rewrite <-app_assoc. }
  specialize (Hlog log [] ∅). cbn in Hlog.
  destruct (fold_left f log ([], ∅)) as [before rules]. cbn in *. by subst.
Qed.
(** The documented behaviour of iptables. *)
Definition lawful (env : AdapterEnv) : Prop :=
  ∀ log c r, rule_of c = Some (Remove, r) → ae_execute env log c = true → r ∈ installed env log.

Section multisets.
Context {A : Type} `{Countable A}.
Implicit Types (x : A) (X Y R : gmultiset A).
Lemma removed_subset x X Y : Y ⊆ X ∖ {[+ x +]} → Y ⊆ X.
Proof. multiset_solver. Qed.
Lemma removed_rest x X Y R : X ∖ {[+ x +]} ⊆ Y ⊎ R → X ⊆ Y ⊎ ({[+ x +]} ⊎ R).
Proof. multiset_solver. Qed.
Lemma removed_all x X Y R : x ∈ X → X ∖ {[+ x +]} = Y ⊎ R → X = Y ⊎ ({[+ x +]} ⊎ R).
Proof. multiset_solver. Qed.
Lemma kept_rest x X Y R : X ⊆ Y ⊎ R → X ⊆ Y ⊎ ({[+ x +]} ⊎ R).
Proof. multiset_solver. Qed.
Lemma added_subset x X Y : X ⊎ {[+ x +]} ⊆ Y → X ⊆ Y.
Proof. multiset_solver. Qed.
Lemma added_rest x X Y R : Y ⊆ (X ⊎ {[+ x +]}) ⊎ R → Y ⊆ X ⊎ ({[+ x +]} ⊎ R).
Proof. multiset_solver. Qed.
Lemma added_all x X Y R : Y = (X ⊎ {[+ x +]}) ⊎ R → Y = X ⊎ ({[+ x +]} ⊎ R).
Proof. multiset_solver. Qed.
Lemma removed_exactly X Y R : X ⊎ R = Y ⊎ R → Y = X.
Proof. intros Hx. by apply (inj (.⊎ R)) in Hx. Qed.
Lemma untouched X Y R : (∀ x, x ∈ R → x ∉ X) → X ⊆ Y ⊎ R → X ⊆ Y.
Proof.
  intros Hd Hs x. specialize (Hs x). rewrite multiplicity_disj_union in Hs.
  destruct (decide (x ∈ R)) as [Hin|Hout].
  - apply Hd in Hin. rewrite elem_of_multiplicity in Hin. lia.
  - rewrite elem_of_multiplicity in Hout. lia.
Qed.
Lemma base_kept X Y R : X ⊎ R ⊆ Y ⊎ R → X ⊆ Y.
Proof. multiset_solver. Qed.
Lemma restored_all X Y P Q : X ⊆ Y → Q = Y ⊎ P → X ⊎ P ⊆ Q.
Proof. multiset_solver. Qed.
Lemma restored_within X Y P Q : Y ⊆ X ⊎ P → Q = Y ⊎ P → Q ⊆ X ⊎ P ⊎ P.
Proof. multiset_solver. Qed.
Lemma removed_one x X : X = ({[+ x +]} ⊎ X) ∖ {[+ x +]}.
Proof. multiset_solver. Qed.
Lemma removed_in x X : x ∈ {[+ x +]} ⊎ X.
Proof. multiset_solver. Qed.
Lemma both_within X Y P D Q : X ⊆ Y → Q = Y ⊎ D → Q ⊆ X ⊎ P → D ⊆ P.
Proof.
  intros Hxy -> Hq x. specialize (Hxy x). specialize (Hq x). rewrite !multiplicity_disj_union in Hq. lia.
Qed.
Lemma both_sized X Y D Q : X ⊆ Y → Q = Y ⊎ D → (size X + size D ≤ size Q)%nat.
Proof. intros Hxy%gmultiset_subseteq_size ->. rewrite gmultiset_size_disj_union. lia. Qed.
End multisets.

Section runs.
Context `{UuidLib} `{Ed25519} `{IpNetLib} `{!UuidText}.
Context (env : AdapterEnv) (Hlaw : lawful env).
Implicit Types (a : Adapter) (cs : list LinuxPolicyCommand).
Definition rules_at a : gmultiset rule := installed env (ad_log a).

Lemma run_command_spec c a r a' :
  run_command env c a = (r, a') →
  rules_at a' = effect (rules_at a) c (is_ok r)
  ∧ is_ok r = ae_execute env (ad_log a) c
  ∧ a' = mkAdapter (ad_active a) (ad_policy a) (ad_gateways a) (ad_kill_switch a) (ad_log a ++ [c]).
Proof.
  unfold run_command, rules_at. intros [= <- <-]. cbn. rewrite installed_snoc.
  by destruct (ae_execute env (ad_log a) c).
Qed.
Lemma rules_of_cons c cs :
  rules_of (c :: cs) = match rule_of c with Some (_, r) => {[+ r +]} ⊎ rules_of cs | None => rules_of cs end.
Proof. unfold rules_of. cbn. destruct (rule_of c) as [[op r]|]; done. Qed.
(** Only the log changes while commands run. *)
Definition same_plans a a' : Prop :=
  ad_active a' = ad_active a ∧ ad_policy a' = ad_policy a ∧ ad_gateways a' = ad_gateways a
  ∧ ad_kill_switch a' = ad_kill_switch a.
Lemma run_commands_cons c cs a r a' :
  run_linux_policy_commands env (c :: cs) a = (r, a') →
  ∃ r1 a1 r2, run_command env c a = (r1, a1) ∧ run_linux_policy_commands env cs a1 = (r2, a')
    ∧ is_ok r = is_ok r1 && is_ok r2.
Proof.
  cbn [run_linux_policy_commands]. cbv [mbind handler_bind attempt lift].
  destruct (run_command env c a) as [r1 a1] eqn:E1.
  destruct (run_linux_policy_commands env cs a1) as [r2 a2] eqn:E2. intros [= <- <-].
  exists r1, a1, r2. split_and!; [done|done|]. by destruct r1, r2.
Qed.
Lemma run_removals cs a r a' :
  all_do Remove cs → run_linux_policy_commands env cs a = (r, a') →
  rules_at a' ⊆ rules_at a ∧ rules_at a ⊆ rules_at a' ⊎ rules_of cs
  ∧ (is_ok r = true → rules_at a = rules_at a' ⊎ rules_of cs) ∧ same_plans a a'.
Proof.
  intros Hall. revert a r a'. induction Hall as [|c cs Hc _ IH]; intros a r a' Hr.
  { injection Hr as <- <-. unfold rules_of. cbn. split_and!; [multiset_solver..|done]. }
  apply run_commands_cons in Hr as (r1 & a1 & r2 & Hc1 & Hc2 & ->).
  apply IH in Hc2 as (Hs & Hu & He & Hp). apply run_command_spec in Hc1 as (Heff & Hex & ->).
  rewrite rules_of_cons. destruct (rule_of c) as [[op x]|] eqn:Hx.
  - rewrite (Hc _ _ eq_refl) in *. destruct (is_ok r1); cbn in *.
    + assert (x ∈ rules_at a) by (eapply Hlaw; [exact Hx|by rewrite <-Hex]).
      unfold effect in Heff. rewrite Hx in Heff. rewrite Heff in *. split_and!; [|by apply removed_rest| |done].
      * by eapply removed_subset.
      * intros Hok. by apply removed_all; [|apply He].
    + rewrite Heff in *. split_and!; [done|by apply kept_rest|done|done].
  - assert (rules_at (mkAdapter (ad_active a) (ad_policy a) (ad_gateways a) (ad_kill_switch a)
      (ad_log a ++ [c])) = rules_at a) as Hsame.
    { rewrite Heff. unfold effect. rewrite Hx. by destruct (is_ok r1). }
    rewrite Hsame in *. split_and!; [done|done| |done]. intros [_ Hok]%andb_true_iff. by apply He.
Qed.
Lemma run_additions cs a r a' :
  all_do Apply cs → run_linux_policy_commands env cs a = (r, a') →
  rules_at a ⊆ rules_at a' ∧ rules_at a' ⊆ rules_at a ⊎ rules_of cs
  ∧ (is_ok r = true → rules_at a' = rules_at a ⊎ rules_of cs) ∧ same_plans a a'.
Proof.
  intros Hall. revert a r a'. induction Hall as [|c cs Hc _ IH]; intros a r a' Hr.
  { injection Hr as <- <-. unfold rules_of. cbn. split_and!; [multiset_solver..|done]. }
  apply run_commands_cons in Hr as (r1 & a1 & r2 & Hc1 & Hc2 & ->).
  apply IH in Hc2 as (Hs & Hu & He & Hp). apply run_command_spec in Hc1 as (Heff & Hex & ->).
  rewrite rules_of_cons. unfold effect in Heff. destruct (rule_of c) as [[op x]|] eqn:Hx.
  - rewrite (Hc _ _ eq_refl) in *. destruct (is_ok r1); cbn in *; rewrite Heff in *.
    + split_and!; [by eapply added_subset|by apply added_rest| |done].
      intros Hok. by apply added_all, He.
    + split_and!; [done|by apply kept_rest|done|done].
  - assert (rules_at (mkAdapter (ad_active a) (ad_policy a) (ad_gateways a) (ad_kill_switch a)
      (ad_log a ++ [c])) = rules_at a) as Hsame by (rewrite Heff; by destruct (is_ok r1)).
    rewrite Hsame in *. split_and!; [done|done| |done]. intros [_ Hok]%andb_true_iff. by apply He.
Qed.

(** A failed insertion leaves fewer rules. *)
Definition all_rules cs : Prop := Forall (λ c, is_Some (rule_of c)) cs.
Lemma failed_additions cs a r a' :
  all_do Apply cs → all_rules cs → run_linux_policy_commands env cs a = (r, a') → is_ok r = false →
  (size (rules_at a') < size (rules_at a) + size (rules_of cs))%nat.
Proof.
  intros Hall Hrules. revert a r a'. induction Hrules as [|c cs [[op x] Hx] _ IH]; intros a r a' Hr.
  { by injection Hr as <- <-. }
  apply Forall_cons_iff in Hall as [Hc Hall]. rewrite (Hc _ _ Hx) in Hx.
  apply run_commands_cons in Hr as (r1 & a1 & r2 & Hc1 & Hc2 & ->).
  pose proof (run_additions cs _ _ _ Hall Hc2) as (_ & Hu%gmultiset_subseteq_size & _).
  apply run_command_spec in Hc1 as (Heff & _ & ->). rewrite rules_of_cons, Hx.
  unfold effect in Heff. rewrite Hx in Heff.
  rewrite gmultiset_size_disj_union, gmultiset_size_singleton in *.
  destruct (is_ok r1); cbn; rewrite Heff in *.
  - intros Hr2. specialize (IH Hall _ _ _ Hc2 Hr2). rewrite Heff in IH.
    rewrite gmultiset_size_disj_union, gmultiset_size_singleton in IH. lia.
  - intros _. lia.
Qed.

(** ** Replacing the rules *)
(** What a replacement leaves, over the rules [base] of the rest of the
    system: the new rules, or the earlier ones, or an adapter switched off. *)
Definition replaced (base : gmultiset rule) (previous desired : list LinuxPolicyCommand)
    (install : Adapter → Adapter) a (r : result AdapterError unit) a' : Prop :=
  match r with
  | Ok _ => rules_at a' = base ⊎ rules_of desired ∧ same_plans (install a) a'
  | Err RestoredPrevious =>
      same_plans a a' ∧ base ⊎ rules_of previous ⊆ rules_at a'
      ∧ rules_at a' ⊆ base ⊎ rules_of previous ⊎ rules_of previous
  | Err DisabledFailClosed => same_plans (with_active a false) a' ∧ base ⊆ rules_at a'
  | Err NotActive => ad_active a = false ∧ a' = a
  | _ => False
  end.
Definition keeps_log (f : Adapter → Adapter) : Prop :=
  ∀ a, ad_log (f a) = ad_log a ∧ ∀ a', same_plans a a' → same_plans (f a) (f a').
Lemma same_plans_trans a1 a2 a3 : same_plans a1 a2 → same_plans a2 a3 → same_plans a1 a3.
Proof. unfold same_plans. intros (-> & -> & -> & ->) (-> & -> & -> & ->). done. Qed.
(** Taking the earlier rules out and putting the new ones in. *)
Definition attempted (base P D : gmultiset rule) a a1 (ok : bool) : Prop :=
  same_plans a a1 ∧ base ⊆ rules_at a1 ∧ (rules_at a1 ⊆ base ⊎ P ∨ rules_at a1 ⊆ base ⊎ D)
  ∧ (ok = true → rules_at a1 = base ⊎ D).
Lemma replacement_attempt base removals additions a r a1 :
  all_do Remove removals → all_do Apply additions →
  rules_at a = base ⊎ rules_of removals →
  (run_linux_policy_commands env removals ;; run_linux_policy_commands env additions) a = (r, a1) →
  attempted base (rules_of removals) (rules_of additions) a a1 (is_ok r).
Proof.
  intros Hrem Hadd Hbase Hr. unfold mbind, handler_bind in Hr.
  destruct (run_linux_policy_commands env removals a) as [r1 b] eqn:E1.
  apply run_removals in E1 as (Hs1 & Hu1 & He1 & Hp1); [|done].
  rewrite Hbase in *. pose proof (base_kept _ _ _ Hu1) as Hkept.
  destruct r1 as [u|e].
  - pose proof (removed_exactly _ _ _ (He1 eq_refl)) as Hb.
    apply run_additions in Hr as (Hs2 & Hu2 & He2 & Hp2); [|done]. rewrite Hb in *.
    split_and!; [exact (same_plans_trans _ _ _ Hp1 Hp2)|done|by right|done].
  - injection Hr as <- <-. split_and!; [done|done|by left|done].
Qed.
Lemma replacement_undone base P D cleanup restore a b r2 a2 r3 a3 :
  all_do Remove cleanup → all_do Apply restore → rules_of cleanup = D → rules_of restore = P →
  (∀ x, x ∈ D → x ∉ base) → attempted base P D a b false →
  run_linux_policy_commands env cleanup b = (r2, a2) →
  run_linux_policy_commands env restore a2 = (r3, a3) →
  same_plans a a3 ∧ base ⊆ rules_at a3
  ∧ (is_ok r2 = true → is_ok r3 = true → base ⊎ P ⊆ rules_at a3 ∧ rules_at a3 ⊆ base ⊎ P ⊎ P).
Proof.
  intros Hrem Hadd HD HP Hdisj (Hp & Hkept & Hwithin & _) E2 E3.
  apply run_removals in E2 as (Hs2 & Hu2 & He2 & Hp2); [|done].
  apply run_additions in E3 as (Hs3 & Hu3 & He3 & Hp3); [|done]. rewrite HD, HP in *.
  assert (base ⊆ rules_at a2) as Hb2 by (eapply untouched; [done|exact (transitivity Hkept Hu2)]).
  split_and!; [exact (same_plans_trans _ _ _ Hp (same_plans_trans _ _ _ Hp2 Hp3))|exact (transitivity Hb2 Hs3)|].
  intros Hok2 Hok3. specialize (He2 Hok2). specialize (He3 Hok3). split; [by eapply restored_all|].
  eapply restored_within; [|exact He3]. destruct Hwithin as [Hw|Hw]; [exact (transitivity Hs2 Hw)|].
  rewrite He2 in Hw. apply base_kept in Hw. etrans; [exact Hw|]. apply gmultiset_disj_union_subseteq_l.
Qed.
Lemma replace_rules_run base (previous desired : Operation → list LinuxPolicyCommand) install a r a' :
  (∀ op, all_do op (previous op)) → (∀ op, all_do op (desired op)) →
  rules_of (previous Remove) = rules_of (previous Apply) →
  rules_of (desired Remove) = rules_of (desired Apply) → keeps_log install →
  rules_at a = base ⊎ rules_of (previous Apply) →
  (∀ x, x ∈ rules_of (desired Apply) → x ∉ base) →
  replace_rules env previous desired install a = (r, a') →
  replaced base (previous Apply) (desired Apply) install a r a'.
Proof.
  intros Hprev Hdes HP HD Hlog Hbase Hdisj Hr. unfold replace_rules in Hr.
  set (both := (run_linux_policy_commands env (previous Remove) ;; _)) in Hr.
  cbv [mbind handler_bind attempt read write lift] in Hr.
  destruct (both a) as [r1 b] eqn:E1. unfold both in E1.
  apply (replacement_attempt base) in E1; [|done|done|by rewrite HP]. rewrite HP in E1.
  destruct r1 as [u|e]; cbn in Hr.
  - injection Hr as <- <-. destruct E1 as (Hp & _ & _ & Hok). destruct (Hlog b) as [Hb Hsame].
    split; [|by apply Hlog]. unfold rules_at. rewrite Hb. by apply Hok.
  - destruct (run_linux_policy_commands env (desired Remove) b) as [r2 a2] eqn:E2.
    destruct (run_linux_policy_commands env (previous Apply) a2) as [r3 a3] eqn:E3.
    pose proof (replacement_undone base _ _ _ _ a b _ _ _ _ (Hdes Remove) (Hprev Apply) HD eq_refl
      Hdisj E1 E2 E3) as (Hp & Hk & Hboth).
    destruct r2, r3; cbn in Hr, Hboth; injection Hr as <- <-.
    1: { split; [done|by apply Hboth]. }
    all: split; [|done]; destruct Hp as (Ha & Hq & Hg & Hks); unfold same_plans; cbn; auto.
Qed.
(** The new rules were all there, so they were the earlier ones. *)
Lemma replace_rules_restored base (previous desired : Operation → list LinuxPolicyCommand) install a a' :
  (∀ op, all_do op (previous op)) → (∀ op, all_do op (desired op)) → all_rules (desired Apply) →
  rules_of (previous Remove) = rules_of (previous Apply) →
  rules_of (desired Remove) = rules_of (desired Apply) →
  rules_at a = base ⊎ rules_of (previous Apply) →
  (∀ x, x ∈ rules_of (desired Apply) → x ∉ base) →
  replace_rules env previous desired install a = (Err RestoredPrevious, a') →
  rules_of (desired Apply) ⊆ rules_of (previous Apply).
Proof.
  intros Hprev Hdes Hrules HP HD Hbase Hdisj Hr. unfold replace_rules in Hr.
  cbv [mbind handler_bind attempt read write lift] in Hr.
  destruct (run_linux_policy_commands env (previous Remove) a) as [r1 b] eqn:E1.
  apply run_removals in E1 as (Hs1 & Hu1 & He1 & Hp1); [|done]. rewrite HP, Hbase in *.
  pose proof (base_kept _ _ _ Hu1) as Hkept.
  assert (∀ c r2 a2, base ⊆ rules_at c →
    run_linux_policy_commands env (desired Remove) c = (r2, a2) → is_ok r2 = true → ∃ R, base ⊆ R ∧ rules_at c = R ⊎ rules_of (desired Apply)) as Hundo.
  { intros c r2 a2 Hc E2 Hok. apply run_removals in E2 as (_ & Hu2 & He2 & _); [|done].
    rewrite HD in *. exists (rules_at a2).
    split; [|by apply He2]. eapply untouched; [done|exact (transitivity Hc Hu2)]. }
  destruct r1 as [u|e]; cbn in Hr.
  - pose proof (removed_exactly _ _ _ (He1 eq_refl)) as Hb.
    destruct (run_linux_policy_commands env (desired Apply) b) as [r2 c] eqn:E2.
    destruct r2; [done|]. cbn in Hr.
    pose proof (failed_additions _ _ _ _ (Hdes Apply) Hrules E2 eq_refl) as Hlt. rewrite Hb in Hlt.
    apply run_additions in E2 as (Hs2 & _ & _ & _); [|done]. rewrite Hb in Hs2.
    destruct (run_linux_policy_commands env (desired Remove) c) as [r3 a3] eqn:E3.
    destruct (run_linux_policy_commands env (previous Apply) a3) as [r4 a4] eqn:E4.
    destruct (Hundo c r3 a3 Hs2 E3) as (R & Hin & Heq).
    { by destruct r3, r4. }
    pose proof (both_sized _ _ _ _ Hin Heq). lia.
  - destruct (run_linux_policy_commands env (desired Remove) b) as [r3 a3] eqn:E3.
    destruct (run_linux_policy_commands env (previous Apply) a3) as [r4 a4] eqn:E4.
    destruct (Hundo b r3 a3 Hkept E3) as (R & Hin & Heq).
    { by destruct r3, r4. }
    by eapply both_within.
Qed.
End runs.

(** ** The rules of a plan *)
Definition ruled (cs : list LinuxPolicyCommand) : list rule := omap (λ c, snd <$> rule_of c) cs.
Lemma ruled_app cs cs' : ruled (cs ++ cs') = ruled cs ++ ruled cs'.
Proof. apply omap_app. Qed.
Lemma all_do_app op cs cs' : all_do op cs → all_do op cs' → all_do op (cs ++ cs').
Proof. apply Forall_app_2. Qed.
Lemma ruled_concat {A} (f g : A → list LinuxPolicyCommand) l :
  (∀ x, ruled (f x) = ruled (g x)) → ruled (concat (map f l)) = ruled (concat (map g l)).
Proof. intros Hfg. induction l as [|x l IH]; [done|]. cbn. by rewrite !ruled_app, Hfg, IH. Qed.
Lemma ruled_map {A} (f g : A → LinuxPolicyCommand) l :
  (∀ x, rule_of (f x) = rule_of (g x) ∨ snd <$> rule_of (f x) = snd <$> rule_of (g x)) →
  ruled (map f l) = ruled (map g l).
Proof.
  intros Hfg. unfold ruled. induction l as [|x l IH]; [done|]. cbn.
  assert (snd <$> rule_of (f x) = snd <$> rule_of (g x)) as -> by (destruct (Hfg x) as [->|]; done).
  by rewrite IH.
Qed.
Lemma all_do_concat {A} op (f : A → list LinuxPolicyCommand) l :
  (∀ x, all_do op (f x)) → all_do op (concat (map f l)).
Proof. intros Hf. induction l as [|x l IH]; [apply List.Forall_nil|]. cbn. by apply all_do_app. Qed.
Lemma all_do_map {A} op (f : A → LinuxPolicyCommand) l :
  (∀ x op' r, rule_of (f x) = Some (op', r) → op' = op) → all_do op (map f l).
Proof. intros Hf. apply Forall_map, Forall_true. exact Hf. Qed.
Lemma kill_switch_all_do plan op : all_do op (linux_kill_switch_commands plan op).
Proof.
  unfold linux_kill_switch_commands. destruct (negb _); [apply List.Forall_nil|].
  cbn. rewrite app_nil_r. destruct op;
  repeat first [apply all_do_app | apply Forall_cons | apply List.Forall_nil
               | apply all_do_map; intros x | split]; by intros ?? [= <- <-].
Qed.
Lemma kill_switch_all_rules plan : all_rules (linux_kill_switch_commands plan Apply).
Proof.
  unfold linux_kill_switch_commands, all_rules. destruct (negb _); [apply List.Forall_nil|].
  cbn. rewrite app_nil_r.
  repeat first [apply Forall_app_2 | apply Forall_cons | apply List.Forall_nil
               | apply Forall_map, Forall_true; intros x]; by eexists.
Qed.
Lemma family_ruled plan family :
  ruled (family_rules plan Remove family) = ruled (family_rules plan Apply family).
Proof.
  destruct family as [program ipv6]. unfold family_rules. rewrite !ruled_app.
  assert (∀ e, snd <$> rule_of (bootstrap_rule program ipv6 Remove e)
    = snd <$> rule_of (bootstrap_rule program ipv6 Apply e)) as Hboot.
  { intros e. unfold rule_of. cbn [lc_program bootstrap_rule]. by destruct (is_iptables program). }
  rewrite (ruled_map (bootstrap_rule program ipv6 Remove) (bootstrap_rule program ipv6 Apply));
    [|intros e; right; apply Hboot].
  f_equal; [|f_equal]; unfold ruled, rule_of; cbn; by destruct (is_iptables program).
Qed.
Lemma kill_switch_ruled plan :
  rules_of (linux_kill_switch_commands plan Remove) = rules_of (linux_kill_switch_commands plan Apply).
Proof.
  unfold rules_of. f_equal. unfold linux_kill_switch_commands. destruct (negb _); [done|].
  apply ruled_concat, family_ruled.
Qed.
Section gateways.
Context `{UuidLib} `{Ed25519} `{IpNetLib} `{!UuidText}.
Lemma gateway_rules_all_do op route : all_do op (gateway_rules op route).
Proof.
  unfold gateway_rules, gateway_program. destruct op, (gr_ipv6 route);
    repeat first [apply Forall_cons | apply List.Forall_nil | split]; by intros ?? [= <- <-].
Qed.
Lemma gateway_rules_ruled route : ruled (gateway_rules Remove route) = ruled (gateway_rules Apply route).
Proof. unfold gateway_rules, gateway_program. by destruct (gr_ipv6 route). Qed.
Lemma gateways_all_do plan op : all_do op (linux_exit_gateway_commands plan op).
Proof.
  unfold linux_exit_gateway_commands. generalize (@nil bool).
  induction (gp_routes plan) as [|route routes IH]; intros enabled; [apply List.Forall_nil|].
  cbn [gateway_commands_from]. pose proof (gateway_rules_all_do op route). destruct op; [|by apply all_do_app].
  destruct (contains _ _); [by apply all_do_app|]. apply Forall_cons; [intros ?? Hr; vm_compute in Hr; done|]. by apply all_do_app.
Qed.
Lemma gateways_ruled plan :
  rules_of (linux_exit_gateway_commands plan Remove) = rules_of (linux_exit_gateway_commands plan Apply).
Proof.
  unfold rules_of, linux_exit_gateway_commands. f_equal. generalize (@nil bool).
  change (∀ enabled, ruled (gateway_commands_from Remove enabled (gp_routes plan))
    = ruled (gateway_commands_from Apply enabled (gp_routes plan))).
  assert (∀ enabled enabled' routes, ruled (gateway_commands_from Remove enabled routes)
    = ruled (gateway_commands_from Apply enabled' routes)) as Hall; [|intros; apply Hall].
  intros enabled enabled' routes. revert enabled'.
  induction routes as [|route routes IH]; intros enabled'; [done|]. cbn [gateway_commands_from].
  assert (ruled (gateway_rules Remove route ++ gateway_commands_from Remove enabled routes)
    = ruled (gateway_rules Apply route) ++ ruled (gateway_commands_from Remove enabled routes)) as ->
    by by rewrite ruled_app, gateway_rules_ruled.
  destruct (contains _ _).
  - by rewrite ruled_app, (IH enabled').
  - transitivity (ruled (gateway_rules Apply route
      ++ gateway_commands_from Apply (gr_ipv6 route :: enabled') routes)); [|done].
    by rewrite ruled_app, (IH (gr_ipv6 route :: enabled')).
Qed.
End gateways.

(** ** A system *)
(** Appending or inserting a rule succeeds unless it is refused, and deleting
    one succeeds when it is there. *)
Fixpoint take_out (r : rule) (rules : list rule) : option (list rule) :=
  match rules with
  | [] => None
  | r' :: rules => if decide (r' = r) then Some rules else cons r' <$> take_out r rules
  end.
Lemma take_out_Some r rules k : take_out r rules = Some k → rules ≡ₚ r :: k.
Proof.
  revert k. induction rules as [|r' rules IH]; intros k; cbn; [done|].
  case_decide as Heq; [by intros [= <-]; subst|].
  intros (k' & Hk & ->)%fmap_Some. rewrite (IH _ Hk). apply Permutation_swap.
Qed.
Definition rules_after (refused : LinuxPolicyCommand → bool) (rules : list rule)
    (c : LinuxPolicyCommand) : option (list rule) :=
  if refused c then None else
  match rule_of c with
  | Some (Apply, r) => Some (r :: rules)
  | Some (Remove, r) => take_out r rules
  | None => Some rules
  end.
Definition system_rules (refused : LinuxPolicyCommand → bool) (log : list LinuxPolicyCommand)
    : list rule :=
  fold_left (λ rules c, default rules (rules_after refused rules c)) log [].
Definition system (refused : LinuxPolicyCommand → bool) : AdapterEnv :=
  mkAdapterEnv (λ log c, bool_decide (is_Some (rules_after refused (system_rules refused log) c)))
    (λ _, true) 150.
Lemma system_installed refused log :
  installed (system refused) log = list_to_set_disj (system_rules refused log).
Proof.
  induction log as [|c log IH] using rev_ind; [done|].
  rewrite installed_snoc, IH. unfold system_rules at 2. rewrite fold_left_app.
  fold (system_rules refused log). cbn. unfold rules_after, effect.
  destruct (refused c); [done|]. destruct (rule_of c) as [[[] r]|]; cbn.
  - by rewrite (comm_L (⊎)).
  - destruct (take_out r (system_rules refused log)) as [k|] eqn:Hk; [|done].
    apply take_out_Some in Hk. cbn. rewrite Hk, list_to_set_disj_cons.
    symmetry. apply removed_one.
  - done.
Qed.
Lemma system_lawful refused : lawful (system refused).
Proof.
  intros log c r Hc Hs. rewrite system_installed. apply bool_decide_eq_true in Hs as [k Hk].
  unfold rules_after in Hk. destruct (refused c); [done|]. rewrite Hc in Hk.
  apply take_out_Some in Hk. rewrite Hk, list_to_set_disj_cons. apply removed_in.
Qed.

(** ** The kill switch and the exit gateways *)
Section replacement.
Context `{UuidLib} `{Ed25519} `{IpNetLib} `{!UuidText}.
Implicit Types (a : Adapter).
Lemma unchanged_replaced env base previous install a :
  rules_at env a = base ⊎ rules_of previous → same_plans (install a) a →
  replaced env base previous previous install a (Ok tt) a.
Proof. done. Qed.

(** C16: Over a system where deleting a rule succeeds only when the rule is
    installed, [configure_kill_switch] ends in one of four ways, whichever of
    its commands fail.  It is refused on an inactive adapter.  It succeeds, and
    the iptables rules are exactly those of the rest of the system and of the new
    plan, which it records.  It reports that the previous plan was restored, and
    then the adapter is unchanged and every rule of the rest and of the previous
    plan is installed.  Or the adapter is switched off.  The rules of the rest of
    the system, none of them a rule of the new plan, survive every outcome. *)
Theorem kill_switch_replaced env base (desired : KillSwitchPlan) a r a' :
  lawful env →
  rules_at env a = base ⊎ rules_of (linux_kill_switch_commands (ad_kill_switch a) Apply) →
  (∀ x, x ∈ rules_of (linux_kill_switch_commands desired Apply) → x ∉ base) →
  configure_kill_switch env desired a = (r, a') →
  replaced env base (linux_kill_switch_commands (ad_kill_switch a) Apply)
    (linux_kill_switch_commands desired Apply) (λ a, with_kill_switch a desired) a r a'.
Proof.
  intros Hlaw Hbase Hdisj. unfold configure_kill_switch.
  cbv [mbind handler_bind read lift bail_if].
  destruct (ad_active a) eqn:Hactive; cbn; [|by intros [= <- <-]].
  case_bool_decide as Heq.
  - intros [= <- <-]. rewrite Heq in *. apply unchanged_replaced; [done|].
    unfold same_plans. cbn. by rewrite Heq.
  - intros Hr. apply (replace_rules_run env Hlaw base (linux_kill_switch_commands (ad_kill_switch a))
      (linux_kill_switch_commands desired)); auto using kill_switch_all_do, kill_switch_ruled.
    intros b. split; [done|]. intros b' (Ha & Hp & Hg & _). by split_and!.
Qed.

(** The previous kill switch is only ever restored when every rule of the
    new one already belonged to it.  Undoing a failed replacement deletes all the
    rules of the new plan, and deleting one that was not inserted fails: a change
    that was to add a rule and fails switches the adapter off. *)
Theorem kill_switch_restored_only_shrinking env base (desired : KillSwitchPlan) a a' :
  lawful env →
  rules_at env a = base ⊎ rules_of (linux_kill_switch_commands (ad_kill_switch a) Apply) →
  (∀ x, x ∈ rules_of (linux_kill_switch_commands desired Apply) → x ∉ base) →
  configure_kill_switch env desired a = (Err RestoredPrevious, a') →
  rules_of (linux_kill_switch_commands desired Apply)
    ⊆ rules_of (linux_kill_switch_commands (ad_kill_switch a) Apply).
Proof.
  intros Hlaw Hbase Hdisj. unfold configure_kill_switch.
  cbv [mbind handler_bind read lift bail_if].
  destruct (ad_active a) eqn:Hactive; cbn; [|done].
  case_bool_decide; [done|].
  intros Hr. by apply (replace_rules_restored env Hlaw base
      (linux_kill_switch_commands (ad_kill_switch a)) (linux_kill_switch_commands desired)
      (λ a, with_kill_switch a desired) a a');
    auto using kill_switch_all_do, kill_switch_ruled, kill_switch_all_rules.
Qed.

(** [configure_exit_gateways] ends in the same four ways as the kill switch,
    over the forwarding and masquerading rules of the exit gateways. *)
Theorem exit_gateways_replaced env base (desired : ExitGatewayPlan) a r a' :
  lawful env →
  rules_at env a = base ⊎ rules_of (linux_exit_gateway_commands (ad_gateways a) Apply) →
  (∀ x, x ∈ rules_of (linux_exit_gateway_commands desired Apply) → x ∉ base) →
  configure_exit_gateways env desired a = (r, a') →
  replaced env base (linux_exit_gateway_commands (ad_gateways a) Apply)
    (linux_exit_gateway_commands desired Apply) (λ a, with_gateways a desired) a r a'.
Proof.
  intros Hlaw Hbase Hdisj. unfold configure_exit_gateways.
  cbv [mbind handler_bind read lift bail_if].
  destruct (ad_active a) eqn:Hactive; cbn; [|by intros [= <- <-]].
  case_bool_decide as Heq.
  - intros [= <- <-]. rewrite Heq in *. apply unchanged_replaced; [done|].
    unfold same_plans. cbn. by rewrite Heq.
  - intros Hr. apply (replace_rules_run env Hlaw base (linux_exit_gateway_commands (ad_gateways a))
      (linux_exit_gateway_commands desired)); auto using gateways_all_do, gateways_ruled.
    intros b. split; [done|]. intros b' (Ha & Hp & _ & Hk). by split_and!.
Qed.
End replacement.

(** ** Witnesses *)
Definition foreign_command : LinuxPolicyCommand :=
  mkLinuxPolicyCommand "iptables" ["-w"; "-A"; "OUTPUT"; "-j"; "LOG"]%string.
Definition controller_only : KillSwitchPlan :=
  mkKillSwitchPlan true [mkBootstrapEndpoint (SA4 (2^24 * 203 + 7) 443) BootstrapTcp].
Definition controller_and_relay : KillSwitchPlan :=
  mkKillSwitchPlan true [mkBootstrapEndpoint (SA4 (2^24 * 203 + 7) 443) BootstrapTcp;
                         mkBootstrapEndpoint (SA4 (2^24 * 198 + 9) 3478) BootstrapUdp].
(** The first deletion is refused. *)
Definition deletion_refused (c : LinuxPolicyCommand) : bool :=
  bool_decide (c = overlay_rule "iptables" false Remove).
Definition foreign_rules : gmultiset rule := rules_of [foreign_command].
Definition guarded_adapter : Adapter :=
  mkAdapter true PolicyPlan_default ExitGatewayPlan_default controller_only
    (foreign_command :: linux_kill_switch_commands controller_only Apply).
Definition reconfigured (refused : LinuxPolicyCommand → bool) (plan : KillSwitchPlan)
    : result AdapterError unit * Adapter :=
  configure_kill_switch (system refused) plan guarded_adapter.
Lemma not_foreign (plan : list LinuxPolicyCommand) :
  forallb (λ x, negb (bool_decide (x ∈ ruled [foreign_command]))) (ruled plan) = true →
  ∀ x, x ∈ rules_of plan → x ∉ foreign_rules.
Proof.
  rewrite forallb_forall. intros Hall x. unfold foreign_rules, rules_of.
  rewrite !elem_of_list_to_set_disj. intros Hx Hin.
  specialize (Hall x). rewrite <-list_elem_of_In in Hall.
  by rewrite bool_decide_true in Hall; [apply Hall in Hx|].
Qed.
(** A log of insertions alone. *)
Lemma inserted_rules refused a cs :
  ad_log a = foreign_command :: cs →
  bool_decide (system_rules refused (ad_log a) = reverse (ruled (ad_log a))) = true →
  rules_at (system refused) a = foreign_rules ⊎ rules_of cs.
Proof.
  intros Hlog Hr%bool_decide_eq_true. unfold rules_at.
  rewrite system_installed, Hr, reverse_Permutation, Hlog. unfold foreign_rules, rules_of.
  by rewrite <-list_to_set_disj_app.
Qed.
Lemma reconfigured_run refused plan :
  configure_kill_switch (system refused) plan guarded_adapter
  = ((reconfigured refused plan).1, (reconfigured refused plan).2).
Proof. apply surjective_pairing. Qed.
Lemma reconfigured_to refused plan r :
  (reconfigured refused plan).1 = r →
  configure_kill_switch (system refused) plan guarded_adapter = (r, (reconfigured refused plan).2).
Proof. intros <-. apply reconfigured_run. Qed.
Definition switched (refused : LinuxPolicyCommand → bool) (plan : KillSwitchPlan) : Prop :=
  replaced (system refused) foreign_rules (linux_kill_switch_commands controller_only Apply)
    (linux_kill_switch_commands plan Apply) (λ a, with_kill_switch a plan) guarded_adapter
    (reconfigured refused plan).1 (reconfigured refused plan).2.
Lemma kill_switch_replaced_witness :
  (switched (λ _, false) controller_and_relay
   ∧ (reconfigured (λ _, false) controller_and_relay).1 = Ok tt)
  ∧ (switched deletion_refused controller_and_relay
     ∧ (reconfigured deletion_refused controller_and_relay).1 = Err DisabledFailClosed).
Proof.
  split; (split; [|vm_compute; reflexivity]).
  - apply (kill_switch_replaced (system (λ _, false)) foreign_rules controller_and_relay
      guarded_adapter); [apply system_lawful|apply inserted_rules; [done|]|apply not_foreign|].
    + vm_compute; reflexivity.
    + vm_compute; reflexivity.
    + exact (reconfigured_run (λ _, false) controller_and_relay).
  - apply (kill_switch_replaced (system deletion_refused) foreign_rules controller_and_relay
      guarded_adapter); [apply system_lawful|apply inserted_rules; [done|]|apply not_foreign|].
    + vm_compute; reflexivity.
    + vm_compute; reflexivity.
    + exact (reconfigured_run deletion_refused controller_and_relay).
Defined.
(** Taking the switch off restores it when a deletion fails. *)
Lemma kill_switch_restored_only_shrinking_witness :
  (reconfigured deletion_refused KillSwitchPlan_default).1 = Err RestoredPrevious
  ∧ rules_of (linux_kill_switch_commands KillSwitchPlan_default Apply)
    ⊆ rules_of (linux_kill_switch_commands controller_only Apply).
Proof.
  split; [vm_compute; reflexivity|].
  apply (kill_switch_restored_only_shrinking (system deletion_refused) foreign_rules
    KillSwitchPlan_default guarded_adapter (reconfigured deletion_refused KillSwitchPlan_default).2).
  - apply system_lawful.
  - apply inserted_rules; [done|]. vm_compute; reflexivity.
  - apply not_foreign. vm_compute; reflexivity.
  - apply reconfigured_to. vm_compute; reflexivity.
Defined.

Definition alice_gateway (egress : string) : ExitGatewayPlan :=
  mkExitGatewayPlan [mkGatewayRoute net_a "10.0.0.0/24" egress false].
Definition gateway_adapter : Adapter :=
  mkAdapter true PolicyPlan_default (alice_gateway "eth0") KillSwitchPlan_default
    (foreign_command :: linux_exit_gateway_commands (alice_gateway "eth0") Apply).
Definition moved_gateway : result AdapterError unit * Adapter :=
  configure_exit_gateways (system (λ _, false)) (alice_gateway "eth1") gateway_adapter.
Lemma exit_gateways_replaced_witness :
  replaced (system (λ _, false)) foreign_rules (linux_exit_gateway_commands (alice_gateway "eth0") Apply)
    (linux_exit_gateway_commands (alice_gateway "eth1") Apply)
    (λ a, with_gateways a (alice_gateway "eth1")) gateway_adapter moved_gateway.1 moved_gateway.2
  ∧ moved_gateway.1 = Ok tt.
Proof.
  split; [|vm_compute; reflexivity].
  apply (exit_gateways_replaced (system (λ _, false)) foreign_rules (alice_gateway "eth1")
    gateway_adapter); [apply system_lawful| |apply not_foreign; vm_compute; reflexivity
                      |exact (surjective_pairing moved_gateway)].
  apply inserted_rules; [done|]. vm_compute; reflexivity.
Defined.
