(* ===== verification/DataPlaneFacts.v ===== *)
(** * Correctness of routing and of the peer directory *)
From S2P Require Import Prelude Net Text Ext Concrete Model ServiceIdentity Membership.
From S2P Require Import Authorization RelayProto Planet Policy Joined DataPlane PeerDirectory.
From S2P Require Import Samples PolicyFacts.
#[local] Open Scope Z_scope.

Section routing.
Context `{UuidLib} `{Ed25519} `{IpNetLib}.
Implicit Types (n : JoinedNetwork) (d : DeviceId) (a : IpAddr).

(** A policy route that may carry an address now: its gateway is a current,
    authorised member of the network under the pinned controller, whose
    signed claims cover the prefix, and the prefix contains the address. *)
Record route_usable n (auth : NetworkAuthorizationManifest) a (now : Z) (r : PolicyRoute)
    (p : IpNet) : Prop := {
  ru_prefix : parse_ipnet (pr_prefix r) = Some p;
  ru_contains : net_contains p a = true;
  ru_controller : cert_controller_public_key (pr_gateway_certificate r)
    = cp_pinned_controller_public_key (jn_control_plane n);
  ru_network : mc_network_id (cert_claims (pr_gateway_certificate r)) = jn_id n;
  ru_current : ∀ e, mc_expires_at (cert_claims (pr_gateway_certificate r)) = Some e → now ≤ e;
  ru_authorized : authorized auth (pr_gateway_certificate r);
  ru_covered : ∃ allowed, allowed ∈ mc_allowed_routes (cert_claims (pr_gateway_certificate r))
    ∧ ip_prefix_covers allowed (pr_prefix r) = true;
}.

Lemma certificate_current_spec n auth c now :
  certificate_current n auth c now = true →
  cert_controller_public_key c = cp_pinned_controller_public_key (jn_control_plane n)
  ∧ mc_network_id (cert_claims c) = jn_id n
  ∧ (∀ e, mc_expires_at (cert_claims c) = Some e → now ≤ e) ∧ authorized auth c.
Proof.
  unfold certificate_current. rewrite !andb_true_iff, !bool_decide_eq_true, negb_true_iff.
  intros [[[[? ?] _] He] ?%authorizes_iff]. split_and!; try done.
  intros e Hx. rewrite Hx in He. cbn in He. by apply Z.ltb_ge in He.
Qed.

Lemma usable_route_Some n auth a now r len g :
  usable_route n auth a now r = Some (len, g) →
  ∃ p, route_usable n auth a now r p ∧ len = net_prefix_len p
    ∧ g = mc_device_id (cert_claims (pr_gateway_certificate r)).
Proof.
  unfold usable_route. intros Hr. apply bind_Some in Hr as (p & Hp & Hr).
  case_match eqn:Hc; [done|]. case_match eqn:Hn; [|done]. injection Hr as <- <-.
  rewrite negb_false_iff, andb_true_iff, existsb_elem in Hc.
  destruct Hc as [(? & ? & ? & ?)%certificate_current_spec ?].
  exists p. split; [by split|done].
Qed.

(** The documents a routing decision rests on. *)
Record documents_ok n (pol : NetworkPolicyManifest) (auth : NetworkAuthorizationManifest)
    (now : Z) : Prop := {
  do_policy : cp_policy_manifest (jn_control_plane n) = Some pol;
  do_authorization : cp_authorization_manifest (jn_control_plane n) = Some auth;
  do_pinned : cp_pinned_controller_public_key (jn_control_plane n) ≠ [];
  do_pol : pol_network_id pol = jn_id n
    ∧ pol_controller_public_key pol = cp_pinned_controller_public_key (jn_control_plane n)
    ∧ now ≤ pol_expires_at pol;
  do_auth : auth_network_id auth = jn_id n
    ∧ auth_controller_public_key auth = cp_pinned_controller_public_key (jn_control_plane n)
    ∧ now ≤ auth_expires_at auth;
}.
Lemma documents_current_ok n pol auth now :
  cp_policy_manifest (jn_control_plane n) = Some pol →
  cp_authorization_manifest (jn_control_plane n) = Some auth →
  documents_current n pol auth now = true → documents_ok n pol auth now.
Proof.
  intros Hp Ha Hd. unfold documents_current in Hd. inv_ok.
  repeat match goal with Hn : ¬ (_ ≠ _) |- _ => apply dec_stable in Hn end.
  split; try done. by apply is_empty_false.
Qed.

(** The gateway of an address is that of a longest usable route, and every
    usable route of that length names the same gateway. *)
Lemma policy_gateway_Some n a now len g :
  policy_gateway n a now = Some (len, g) →
  ∃ pol auth r p, documents_ok n pol auth now ∧ r ∈ pol_routes pol
    ∧ route_usable n auth a now r p ∧ len = net_prefix_len p
    ∧ g = mc_device_id (cert_claims (pr_gateway_certificate r))
    ∧ ∀ r' len' g', r' ∈ pol_routes pol → usable_route n auth a now r' = Some (len', g') →
        len' ≤ len ∧ (len' = len → g' = g).
Proof.
  unfold policy_gateway. intros Hg. apply bind_Some in Hg as (pol & Hpol & Hg).
  apply bind_Some in Hg as (auth & Hauth & Hg). case_match eqn:Hd; [|done].
  apply select_best_Some in Hg as (Hmax & l1 & l2 & Hl & Hl1 & Hl2). cbn in *.
  assert ((len, g) ∈ omap (usable_route n auth a now) (pol_routes pol)) as Hin
    by (rewrite Hl; set_solver).
  apply list_elem_of_omap in Hin as (r & Hr & Hu).
  destruct (usable_route_Some _ _ _ _ _ _ _ Hu) as (p & Hp & Hlen & Hdev).
  exists pol, auth, r, p. split_and!; try done; [by apply documents_current_ok|].
  intros r' len' g' Hr' Hu'.
  assert ((len', g') ∈ omap (usable_route n auth a now) (pol_routes pol)) as Hin'
    by (apply list_elem_of_omap; eauto).
  split; [by apply (Hmax (len', g'))|]. intros ->. rewrite Hl in Hin'.
  apply elem_of_app in Hin' as [Hin'|[[= ->]|Hin']%elem_of_cons]; [|done|].
  - specialize (Hl1 _ Hin'). cbn in Hl1. lia.
  - specialize (Hl2 _ Hin' eq_refl). apply bool_decide_eq_false, dec_stable in Hl2. done.
Qed.

Lemma exit_candidate_current n d a now :
  exit_candidate_is_current n d a now = true →
  ∃ pol auth e, documents_ok n pol auth now ∧ e ∈ pol_exit_nodes pol
    ∧ mc_device_id (cert_claims (en_gateway_certificate e)) = d
    ∧ authorized auth (en_gateway_certificate e)
    ∧ (if is_ipv4 a then en_supports_ipv4 e else en_supports_ipv6 e) = true.
Proof.
  unfold exit_candidate_is_current.
  destruct (cp_policy_manifest _) as [pol|] eqn:Hp; [|done].
  destruct (cp_authorization_manifest _) as [auth|] eqn:Ha; [|done].
  rewrite andb_true_iff, existsb_elem. intros [Hd (e & He & Hx)].
  rewrite !andb_true_iff, bool_decide_eq_true in Hx.
  destruct Hx as [[? (_ & _ & _ & ?)%certificate_current_spec] ?].
  exists pol, auth, e. split_and!; try done. by apply documents_current_ok.
Qed.

(** The two ways a device is entitled to carry traffic of an address. *)
Definition gateway_of n d a (now : Z) : Prop :=
  (∃ len, policy_gateway n a now = Some (len, d))
  ∨ (address_belongs_to_network n a = false ∧ exit_candidate_is_current n d a now = true).

Lemma peer_is_gateway_for_source_spec n d a now :
  peer_is_gateway_for_source n d a now = true → gateway_of n d a now.
Proof.
  unfold peer_is_gateway_for_source. rewrite orb_true_iff, andb_true_iff, negb_true_iff.
  intros [Hp|Hx]; [left|by right].
  destruct (policy_gateway n a now) as [[len g]|]; [|done]. cbn in Hp.
  apply bool_decide_eq_true in Hp as ->. by exists len.
Qed.
Lemma local_device_is_gateway_for_spec n d a now :
  local_device_is_gateway_for n d a now = true → gateway_of n d a now.
Proof.
  unfold local_device_is_gateway_for. rewrite orb_true_iff, !andb_true_iff, !negb_true_iff.
  intros [Hp|[[? _] ?]]; [left|by right].
  destruct (policy_gateway n a now) as [[len g]|]; [|done]. cbn in Hp.
  apply bool_decide_eq_true in Hp as ->. by exists len.
Qed.

Lemma destination_prefix_None n a :
  destination_prefix_len n a = None → address_belongs_to_network n a = false.
Proof.
  unfold destination_prefix_len, address_belongs_to_network. destruct a.
  - destruct (parse_ipv4net _); cbn; [|done]. by destruct (v4_contains _ _).
  - destruct (vn_ipv6_prefix _); cbn; [|done]. destruct (parse_ipv6net _); cbn; [|done].
    by destruct (v6_contains _ _).
Qed.

(** Where a packet may be sent from the network its source belongs to. *)
Lemma route_from_member_Some n a now route :
  route_from_member n a now = Some route →
  or_network route = n
  ∧ match or_gateway route with
    | None => is_group_destination n a = true
        ∨ ∃ direct, destination_prefix_len n a = Some direct
            ∧ ∀ len g, policy_gateway n a now = Some (len, g) → len < direct
    | Some g => is_group_destination n a = false
        ∧ ((∃ len, policy_gateway n a now = Some (len, g)
              ∧ ∀ direct, destination_prefix_len n a = Some direct → direct < len)
           ∨ (policy_gateway n a now = None ∧ destination_prefix_len n a = None
              ∧ selected_exit_gateway n a now = Some g))
    end.
Proof.
  unfold route_from_member. case_match eqn:Hg; [intros [= <-]; cbn; auto|].
  destruct (destination_prefix_len n a) as [direct|] eqn:Hd,
    (policy_gateway n a now) as [[custom g]|] eqn:Hp; cbn.
  - destruct (direct <? custom) eqn:E1.
    + intros [= <-]. cbn. split; [done|]. split; [done|]. left. exists custom.
      split; [done|]. intros ? [= <-]. by apply Z.ltb_lt.
    + destruct (custom <? direct) eqn:E2; [|done]. intros [= <-]. cbn. split; [done|]. right.
      exists direct. split; [done|]. intros ? ? [= <- _]. by apply Z.ltb_lt.
  - intros [= <-]. cbn. split; [done|]. right. exists direct. by split.
  - intros [= <-]. cbn. split; [done|]. split; [done|]. left. exists custom. done.
  - destruct (selected_exit_gateway n a now) as [g|]; [|done]. intros [= <-]. cbn. split_and!; [done|done|by right].
Qed.

Lemma gateway_return_Some local_device (s dst : IpAddr) (now len : Z) n n' :
  gateway_return local_device s dst now n = Some (len, n') →
  n' = n ∧ has_key n = true ∧ address_belongs_to_network n dst = true
  ∧ (policy_gateway n s now = Some (len, local_device)
     ∨ (policy_gateway n s now = None ∧ exit_candidate_is_current n local_device s now = true)).
Proof.
  unfold gateway_return. case_match eqn:Hc; [done|].
  rewrite orb_false_iff, !negb_false_iff in Hc.
  destruct (policy_gateway n s now) as [[len0 g]|].
  - case_bool_decide as Hx; [|done]. intros [= <- <-]. subst. naive_solver.
  - unfold local_device_is_exit_gateway_for. case_match eqn:Hx; [|done].
    intros [= <- <-]. naive_solver.
Qed.

Definition sources n (source : IpAddr) : bool :=
  has_key n && contains source (jn_assigned_addresses n).

Lemma filter_nil_forall {A} (f : A → bool) l : List.filter f l = [] → ∀ x, x ∈ l → f x = false.
Proof.
  intros Hf x Hx. apply not_true_is_false. intros Hfx.
  assert (x ∈ List.filter f l) as Hin by (by apply elem_of_list_filter).
  rewrite Hf in Hin. by apply elem_of_nil in Hin.
Qed.

Lemma outbound_route_cases networks local_device packet now route :
  outbound_route_for_ip_packet networks local_device packet now = Some route →
  ∃ s dst : IpAddr, packet_addresses packet = Some (s, dst) ∧ or_network route ∈ networks
    ∧ has_key (or_network route) = true
    ∧ ((List.filter (λ n, sources n s) networks = [or_network route]
        ∧ route_from_member (or_network route) dst now = Some route)
       ∨ ((∀ n, n ∈ networks → sources n s = false) ∧ or_gateway route = None
          ∧ address_belongs_to_network (or_network route) dst = true
          ∧ (policy_gateway (or_network route) s now ≠ None →
             ∃ len, policy_gateway (or_network route) s now = Some (len, local_device))
          ∧ (policy_gateway (or_network route) s now = None →
             exit_candidate_is_current (or_network route) local_device s now = true))).
Proof.
  unfold outbound_route_for_ip_packet. intros Hr.
  apply bind_Some in Hr as ([s dst] & Hp & Hr). exists s, dst. split; [done|].
  destruct (List.filter _ networks) as [|n [|]] eqn:Hf; [| |done].
  - apply fmap_Some in Hr as ([len n] & Hs & ->). cbn.
    apply select_best_Some in Hs as (_ & l1 & l2 & Hl & _).
    assert ((len, n) ∈ omap (gateway_return local_device s dst now) networks) as Hin
      by (rewrite Hl; set_solver).
    apply list_elem_of_omap in Hin as (n0 & Hn0 & Hret).
    apply gateway_return_Some in Hret as (-> & Hk & Hb & Hg). split_and!; [done|done|].
    right. split_and!; [by apply filter_nil_forall|done|done| |].
    + intros Hne. destruct Hg as [?|[? _]]; [by exists len|done].
    + intros Hnone. destruct Hg as [Hg|[_ ?]]; [congruence|done].
  - assert (n ∈ networks ∧ sources n s = true) as [Hn Hs].
    { apply (elem_of_list_filter (λ n, has_key n && contains s (jn_assigned_addresses n))).
      rewrite Hf. by left. }
    unfold sources in Hs. apply andb_true_iff in Hs as [Hk _].
    destruct (route_from_member_Some _ _ _ _ Hr) as [E _]. rewrite E. split_and!; [done|done|].
    left. done.
Qed.
End routing.

(** ** Candidates and round-trip times *)
Section candidates.
Implicit Types (r : PeerRoute) (c : PeerCandidate).

Definition route_ok r : Prop :=
  len (route_candidates r) ≤ ROUTE_CANDIDATES ∧ NoDup (endpoints r)
  ∧ Forall (λ c, 0 ≤ pc_consecutive_failures c ≤ 255) (route_candidates r).

Lemma add_candidate_ok r e : route_ok r → route_ok (add_candidate r e).
Proof.
  intros (Hl & Hn & Hf). unfold add_candidate. destruct (_ && _) eqn:Hc; [|done].
  rewrite andb_true_iff, negb_true_iff, existsb_not_elem, Z.ltb_lt in Hc. destruct Hc as [Hnew Hlt].
  unfold route_ok, endpoints in *. cbn. rewrite len_app, len_cons, len_nil.
  split_and!; [lia| |].
  - rewrite map_app. apply NoDup_app. split_and!; [done| |apply NoDup_singleton].
    intros x Hx ->%list_elem_of_singleton. apply list_elem_of_fmap in Hx as (c & Hce & Hc).
    specialize (Hnew c Hc). apply bool_decide_eq_false in Hnew. cbn in Hce. congruence.
  - apply Forall_app. split; [done|]. apply Forall_singleton. cbn. lia.
Qed.

Lemma update_candidate_endpoints e f l :
  (∀ c, pc_endpoint (f c) = pc_endpoint c) →
  map pc_endpoint (update_candidate e f l) = map pc_endpoint l.
Proof.
  intros Hf. induction l as [|c l IH]; cbn; [done|]. case_match; cbn; [by rewrite Hf|by rewrite IH].
Qed.
Lemma update_candidate_Forall (P : PeerCandidate → Prop) e f l :
  (∀ c, P c → P (f c)) → Forall P l → Forall P (update_candidate e f l).
Proof.
  intros Hf. induction 1 as [|c l Hc Hl IH]; cbn; [done|].
  case_match; constructor; auto.
Qed.
Lemma update_candidate_ok r e f :
  (∀ c, pc_endpoint (f c) = pc_endpoint c) →
  (∀ c, 0 ≤ pc_consecutive_failures c ≤ 255 → 0 ≤ pc_consecutive_failures (f c) ≤ 255) →
  route_ok r → route_ok (with_candidates r (update_candidate e f (route_candidates r))).
Proof.
  intros He Hf (Hl & Hn & Hfs). unfold route_ok, endpoints in *. cbn.
  rewrite update_candidate_endpoints by done. split_and!; [|done|by apply update_candidate_Forall].
  unfold len in *. rewrite <-(length_map pc_endpoint), update_candidate_endpoints, length_map; done.
Qed.

Lemma mark_probe_sent_ok r e now : route_ok r → route_ok (mark_probe_sent r e now).
Proof. by apply update_candidate_ok. Qed.
Lemma mark_success_ok r e now : route_ok r → route_ok (mark_success r e now).1.
Proof.
  intros Hr. unfold mark_success. case_match; [|done]. apply update_candidate_ok; [done| |done].
  intros c _. cbn. lia.
Qed.
Lemma expire_probes_ok r now : route_ok r → route_ok (expire_probes r now).
Proof.
  intros (Hl & Hn & Hf). unfold route_ok, endpoints, expire_probes in *. cbn.
  rewrite map_map. unfold len in *. rewrite length_map. split_and!; [done| |].
  - erewrite map_ext; [exact Hn|]. intros c. by case_match.
  - apply Forall_fmap. eapply Forall_impl; [exact Hf|]. intros c Hc. cbn in *.
    case_match; [|done]. cbn. unfold sat_add8. lia.
Qed.

Lemma weighted_rtt_bounds p s :
  0 ≤ p → 0 ≤ s →
  Z.min (as_micros p) (as_micros s) ≤ Z.max (as_micros p) (as_micros s)
  ∧ as_micros (weighted_rtt p s) ≤ Z.max (as_micros p) (as_micros s)
  ∧ (Z.min (as_micros p) (as_micros s) ≤ u64_max →
     Z.min (as_micros p) (as_micros s) ≤ as_micros (weighted_rtt p s)).
Proof.
  intros Hp Hs. unfold weighted_rtt, as_micros. rewrite Z.div_mul by lia.
  assert (0 ≤ p / 1000) by (apply Z.div_pos; lia). assert (0 ≤ s / 1000) by (apply Z.div_pos; lia).
  set (x := p / 1000) in *. set (y := s / 1000) in *.
  assert (Z.min x y ≤ (x * 7 + y) / 8 ≤ Z.max x y) as [? ?].
  { pose proof (Z.div_mod (x * 7 + y) 8). pose proof (Z.mod_pos_bound (x * 7 + y) 8). lia. }
  lia.
Qed.
End candidates.

(** ** The directory *)
Section directory.
Context `{UuidLib} `{Ed25519} `{IpNetLib} `{HashOrder}.
Implicit Types (peers : gmap (NetworkId * DeviceId) PeerRoute) (k : NetworkId * DeviceId).

(** Addresses are held by one peer of a network only, lie in the network's
    prefix and are not the agent's own; the agent is not its own peer. *)
Record directory_ok (self : DeviceId) (networks : list JoinedNetwork) peers : Prop := {
  dir_exclusive : ∀ n d1 r1 d2 r2, peers !! (n, d1) = Some r1 → peers !! (n, d2) = Some r2 →
    d1 ≠ d2 → ∀ a, a ∈ route_assigned_addresses r1 → a ∉ route_assigned_addresses r2;
  dir_addresses : ∀ k r a, peers !! k = Some r → a ∈ route_assigned_addresses r →
    ∃ network, network ∈ networks ∧ jn_id network = k.1
      ∧ address_belongs_to_network network a = true ∧ a ∉ jn_assigned_addresses network;
  dir_self : ∀ n r, peers !! (n, self) = Some r → route_assigned_addresses r = [];
}.

Lemma update_peer_addresses_true peers k addresses self networks now peers' :
  update_peer_addresses peers k addresses self networks now = (peers', true) →
  ∃ network r, network ∈ networks ∧ jn_id network = k.1 ∧ k.2 ≠ self
    ∧ r = set_assigned_addresses_at (default PeerRoute_empty (peers !! k))
            (dedup (sort_by ip_le addresses)) now
    ∧ peers' = <[k := r]> peers ∧ addresses ≠ []
    ∧ (∀ a, a ∈ addresses → address_belongs_to_network network a = true
         ∧ a ∉ jn_assigned_addresses network)
    ∧ ∀ k' r', peers !! k' = Some r' → k' ≠ k → k'.1 = k.1 →
        ∀ a, a ∈ route_assigned_addresses r' → a ∉ addresses.
Proof.
  unfold update_peer_addresses. case_match eqn:Hself; [done|].
  apply orb_false_iff in Hself as [Hself%bool_decide_eq_false _].
  destruct (List.find _ networks) as [network|] eqn:Hf; [|done].
  apply List.find_some in Hf as [Hin Hid]. apply bool_decide_eq_true in Hid.
  rewrite <-list_elem_of_In in Hin. case_match eqn:Hc; [done|]. intros [= <-].
  rewrite !orb_false_iff in Hc. destruct Hc as [[[He Hb] Ho] Hx].
  rewrite existsb_not_elem in Hb. rewrite existsb_not_elem in Ho.
  assert (∀ a, a ∈ dedup (sort_by ip_le addresses) ↔ a ∈ addresses) as Hiff
    by (intros; by rewrite elem_of_dedup, elem_of_sort_by).
  exists network. eexists. split_and!; try done.
  - intros ->. done.
  - intros a Ha%Hiff. split; [by apply negb_false_iff, Hb|by apply contains_false, Ho].
  - intros k' r' Hk' Hne Hn a Ha Hin'. apply Hiff in Hin'.
    apply not_true_iff_false in Hx. apply Hx. apply existsb_hash_iter. exists k', r'.
    split; [done|]. rewrite !andb_true_iff, !bool_decide_eq_true. split; [done|].
    apply existsb_elem. exists a. by rewrite contains_true.
Qed.

Lemma directory_insert self networks peers k r network (addresses : list IpAddr) :
  directory_ok self networks peers →
  network ∈ networks → jn_id network = k.1 → k.2 ≠ self →
  (∀ a, a ∈ route_assigned_addresses r → a ∈ addresses) →
  (∀ a, a ∈ addresses → address_belongs_to_network network a = true
     ∧ a ∉ jn_assigned_addresses network) →
  (∀ k' r', peers !! k' = Some r' → k' ≠ k → k'.1 = k.1 →
     ∀ a, a ∈ route_assigned_addresses r' → a ∉ addresses) →
  directory_ok self networks (<[k := r]> peers).
Proof.
  intros [He Ha Hs] Hin Hid Hk Hr Hadd Hfree. destruct k as [n0 d0]. cbn in *. split.
  - intros n d1 r1 d2 r2 Hl1 Hl2 Hne a Hx1 Hx2.
    apply lookup_insert_Some in Hl1 as [[Hk1 <-]|[Hk1 Hl1]];
      apply lookup_insert_Some in Hl2 as [[Hk2 <-]|[Hk2 Hl2]]; simplify_eq.
    + eapply Hfree; [exact Hl2|congruence|done|exact Hx2|auto].
    + eapply Hfree; [exact Hl1|congruence|done|exact Hx1|auto].
    + by apply (He n d1 r1 d2 r2 Hl1 Hl2 Hne a).
  - intros k r' a [[<- <-]|[_ Hl]]%lookup_insert_Some Hx; [|by eapply Ha].
    exists network. destruct (Hadd a (Hr a Hx)). done.
  - intros n r' [[[= -> ->] _]|[_ Hl]]%lookup_insert_Some; [done|by eapply Hs].
Qed.

Lemma update_peer_addresses_ok all networks peers k addresses self now :
  networks ⊆ all → directory_ok self all peers →
  directory_ok self all (update_peer_addresses peers k addresses self networks now).1.
Proof.
  intros Hsub Hd. destruct (update_peer_addresses _ _ _ _ _ _) as [peers' []] eqn:Hu; cbn.
  - apply update_peer_addresses_true in Hu as (network & r & ? & ? & ? & -> & -> & _ & ? & ?).
    eapply (directory_insert _ _ _ _ _ network addresses); eauto.
    intros a. cbn. by rewrite elem_of_dedup, elem_of_sort_by.
  - assert (peers' = peers) as ->; [|done]. revert Hu. unfold update_peer_addresses.
    repeat case_match; by intros [=].
Qed.
Lemma update_peer_membership_ok all networks peers c self now :
  networks ⊆ all → directory_ok self all peers →
  directory_ok self all (update_peer_membership peers c self networks now).1.
Proof.
  intros Hsub Hd. unfold update_peer_membership. case_match; [done|].
  set (k := (mc_network_id (cert_claims c), mc_device_id (cert_claims c))).
  pose proof (update_peer_addresses_ok all networks peers k
    (mc_assigned_addresses (cert_claims c)) self now Hsub Hd) as Hok.
  destruct (update_peer_addresses _ _ _ _ _ _) as [peers' []] eqn:Hu; cbn in *; [|done].
  apply update_peer_addresses_true in Hu as (network & r & ? & ? & ? & -> & -> & _ & ? & ?).
  rewrite lookup_insert_eq. cbn. rewrite insert_insert_eq.
  eapply (directory_insert _ _ _ _ _ network (mc_assigned_addresses (cert_claims c))); eauto.
  intros a. cbn. by rewrite elem_of_dedup, elem_of_sort_by.
Qed.
(** ** Handshake replay cache *)
Lemma size_retain_le {A} (f : ((NetworkId * DeviceId) * bytes) → A → bool)
    (m : gmap ((NetworkId * DeviceId) * bytes) A) : (size (retain f m) ≤ size m)%nat.
Proof. apply map_subseteq_size, retain_subseteq. Qed.

Lemma lookup_fresh (seen : gmap ((NetworkId * DeviceId) * bytes) Z) now (k : (NetworkId * DeviceId) * bytes) t :
  retain (λ _ recorded, duration_since now recorded <=? HANDSHAKE_REPLAY_TTL) seen !! k = Some t
  ↔ seen !! k = Some t ∧ duration_since now t ≤ HANDSHAKE_REPLAY_TTL.
Proof. by rewrite lookup_retain, Z.leb_le. Qed.

Lemma record_session_handshake_refuses seen peer id now seen' ok :
  record_session_handshake seen peer id now = (seen', ok) →
  ok = false ↔ ∃ t, seen !! (peer, id) = Some t ∧ duration_since now t ≤ HANDSHAKE_REPLAY_TTL.
Proof.
  unfold record_session_handshake. case_match eqn:Hin; intros [= _ <-].
  - apply is_some_true in Hin as [t Hin%lookup_fresh]. split; [by exists t|done].
  - apply is_some_false in Hin. split; [done|]. intros (t & Ht%lookup_fresh). congruence.
Qed.
Lemma record_session_handshake_records seen peer id now seen' :
  record_session_handshake seen peer id now = (seen', true) → seen' !! (peer, id) = Some now.
Proof.
  unfold record_session_handshake. case_match; intros [= <-]. by rewrite lookup_insert_eq.
Qed.
Lemma record_session_handshake_keeps seen peer id now seen' ok :
  record_session_handshake seen peer id now = (seen', ok) →
  ∃ dropped : option ((NetworkId * DeviceId) * bytes),
    (∀ (k : (NetworkId * DeviceId) * bytes) t, k ≠ (peer, id) → Some k ≠ dropped → seen !! k = Some t →
       duration_since now t ≤ HANDSHAKE_REPLAY_TTL → seen' !! k = Some t)
    ∧ ∀ (k : (NetworkId * DeviceId) * bytes) t, dropped = Some k → seen !! k = Some t →
        MAX_HANDSHAKE_REPLAY_ENTRIES ≤ Z.of_nat (size seen)
        ∧ ∀ (k' : (NetworkId * DeviceId) * bytes) t', seen !! k' = Some t' → duration_since now t' ≤ HANDSHAKE_REPLAY_TTL →
            duration_since now t' ≤ duration_since now t.
Proof.
  unfold record_session_handshake. set (m := retain _ seen). intros Hr.
  assert (∀ (k : (NetworkId * DeviceId) * bytes) t, m !! k = Some t ↔ seen !! k = Some t ∧ duration_since now t ≤ HANDSHAKE_REPLAY_TTL)
    as Hm by (intros; apply lookup_fresh).
  case_match eqn:Hin.
  { injection Hr as <- _. exists None. split; [|done]. intros. by apply Hm. }
  injection Hr as <- _. case_match eqn:Hfull.
  2: { exists None. split; [|done]. intros. rewrite lookup_insert_ne by done. by apply Hm. }
  destruct (max_by_key _ (hash_iter m)) as [[k t]|] eqn:Hmax.
  2: { exists None. split; [|done]. intros. rewrite lookup_insert_ne by done. by apply Hm. }
  apply max_by_key_Some in Hmax as [Hk%elem_of_hash_iter Hold]. exists (Some k). split.
  - intros k' t' Hne Hd Hl Hf. rewrite lookup_insert_ne, lookup_delete_ne by congruence.
    by apply Hm.
  - intros ? t0 [= <-] Hl. apply Hm in Hk as [Hk _]. assert (t0 = t) as -> by congruence.
    apply Z.leb_le in Hfull. assert (size m ≤ size seen)%nat by apply size_retain_le.
    split; [lia|]. intros k' t' Hl' Hf'.
    apply (Hold (k', t')). by apply elem_of_hash_iter, Hm.
Qed.

Lemma record_session_handshake_size seen peer id now seen' ok :
  record_session_handshake seen peer id now = (seen', ok) →
  Z.of_nat (size seen) ≤ MAX_HANDSHAKE_REPLAY_ENTRIES →
  Z.of_nat (size seen') ≤ MAX_HANDSHAKE_REPLAY_ENTRIES.
Proof.
  unfold record_session_handshake, MAX_HANDSHAKE_REPLAY_ENTRIES. set (m := retain _ seen).
  intros Hr Hs. assert (size m ≤ size seen)%nat by apply size_retain_le.
  case_match eqn:Hin; [injection Hr as <- _; lia|]. injection Hr as <- _.
  apply is_some_false in Hin.
  destruct (16384 <=? Z.of_nat (size m)) eqn:Hfull.
  - apply Z.leb_le in Hfull.
    destruct (max_by_key _ (hash_iter m)) as [[k t]|] eqn:Hmax.
    + apply max_by_key_Some in Hmax as [Hk%elem_of_hash_iter _].
      rewrite map_size_insert_None.
      * rewrite map_size_delete_Some by (by eexists). lia.
      * rewrite lookup_delete_None. by right.
    + apply max_by_key_None in Hmax. assert (size m = 0%nat); [|lia].
      rewrite <-length_hash_iter, Hmax. done.
  - apply Z.leb_gt in Hfull. rewrite map_size_insert_None by done. lia.
Qed.
(** ** Steps of the directory

    The event loop touches a route in these ways only: through the two
    announcement handlers, by expiry, by adding, probing or refreshing a candidate,
    and by dropping the networks that were left.  That the worker takes no other is
    [worker_directory_steps] in [AgentDirectoryFacts]. *)
Inductive dir_step (self : DeviceId) (all : list JoinedNetwork)
    : gmap (NetworkId * DeviceId) PeerRoute → gmap (NetworkId * DeviceId) PeerRoute → Prop :=
| step_addresses peers k addresses networks now : networks ⊆ all →
    dir_step self all peers (update_peer_addresses peers k addresses self networks now).1
| step_membership peers c networks now : networks ⊆ all →
    dir_step self all peers (update_peer_membership peers c self networks now).1
| step_expire peers now : dir_step self all peers ((λ r, expire_directory r now) <$> peers)
| step_candidate peers k r e : peers !! k = Some r →
    dir_step self all peers (<[k := add_candidate r e]> peers)
| step_new_candidate peers k e : peers !! k = None →
    dir_step self all peers (<[k := PeerRoute_new e]> peers)
| step_probe_sent peers k r e now : peers !! k = Some r →
    dir_step self all peers (<[k := mark_probe_sent r e now]> peers)
| step_success peers k r e now : peers !! k = Some r →
    dir_step self all peers (<[k := (mark_success r e now).1]> peers)
| step_timeouts peers now : dir_step self all peers ((λ r, expire_probes r now) <$> peers)
| step_probes peers now :
    dir_step self all peers ((λ r, foldl (λ r e, mark_probe_sent r e now) r (endpoints r)) <$> peers)
| step_leave peers f : dir_step self all peers (retain f peers).

Lemma directory_ok_sub self all peers peers' :
  (∀ k r', peers' !! k = Some r' → route_assigned_addresses r' = []
     ∨ ∃ r, peers !! k = Some r ∧ route_assigned_addresses r' = route_assigned_addresses r) →
  directory_ok self all peers → directory_ok self all peers'.
Proof.
  intros Hsub [He Ha Hs]. split.
  - intros n d1 r1 d2 r2 Hl1 Hl2 Hne a.
    destruct (Hsub _ _ Hl1) as [->|(x1 & Hx1 & ->)]; [by intros ?%elem_of_nil|].
    destruct (Hsub _ _ Hl2) as [->|(x2 & Hx2 & ->)]; [by intros _ ?%elem_of_nil|].
    eapply He; eauto.
  - intros k r a Hl. destruct (Hsub _ _ Hl) as [->|(x & Hx & ->)]; [by intros ?%elem_of_nil|].
    by eapply Ha.
  - intros n r Hl. destruct (Hsub _ _ Hl) as [->|(x & Hx & ->)]; [done|]. by eapply Hs.
Qed.
Lemma directory_ok_replace self all peers k r r' :
  route_assigned_addresses r' = [] ∨
    (peers !! k = Some r ∧ route_assigned_addresses r' = route_assigned_addresses r) →
  directory_ok self all peers → directory_ok self all (<[k := r']> peers).
Proof.
  intros Hr. apply directory_ok_sub. intros k0 r0 [[<- <-]|[_ Hl]]%lookup_insert_Some; [|eauto].
  destruct Hr as [?|[? ?]]; eauto.
Qed.
Lemma directory_ok_fmap self all peers f :
  (∀ r, route_assigned_addresses (f r) = []
     ∨ route_assigned_addresses (f r) = route_assigned_addresses r) →
  directory_ok self all peers → directory_ok self all (f <$> peers).
Proof.
  intros Hf. apply directory_ok_sub. intros k r'. rewrite lookup_fmap.
  intros (r & Hl & ->)%fmap_Some. destruct (Hf r); eauto.
Qed.

Lemma dir_step_ok self all peers peers' :
  dir_step self all peers peers' → directory_ok self all peers → directory_ok self all peers'.
Proof.
  intros Hs Hok. destruct Hs.
  - by apply update_peer_addresses_ok.
  - by apply update_peer_membership_ok.
  - apply directory_ok_fmap; [|done]. intros r. unfold expire_directory. case_match; auto.
  - eapply directory_ok_replace; [right; split; [done|]|done]. unfold add_candidate.
    by case_match.
  - eapply (directory_ok_replace _ _ _ _ PeerRoute_empty); [by left|done].
  - eapply directory_ok_replace; [by right|done].
  - eapply directory_ok_replace; [right; split; [done|]|done]. unfold mark_success.
    by case_match.
  - apply directory_ok_fmap; auto.
  - apply directory_ok_fmap; [|done]. intros r. right.
    apply (foldl_preserves _ (λ r', route_assigned_addresses r' = route_assigned_addresses r)); [done|].
    by intros ? ? _ <-.
  - eapply directory_ok_sub; [|done]. intros k r [? _]%lookup_retain. eauto.
Qed.
Lemma directory_reachable self all peers : rtc (dir_step self all) ∅ peers → directory_ok self all peers.
Proof.
  apply (rtc_ind_r (λ peers, directory_ok self all peers)).
  - split; intros *; rewrite lookup_empty; done.
  - intros ? ? _ Hs. by apply dir_step_ok.
Qed.

(** ** Who a packet goes to *)
Lemma peer_target_Some network gateway (dst : IpAddr) n d r d' r' :
  peer_target network gateway dst ((n, d), r) = Some (d', r') →
  n = jn_id network ∧ d' = d ∧ r' = r ∧ route_assigned_addresses r ≠ []
  ∧ (gateway = Some d ∨ (gateway = None ∧ (is_group_destination network dst = true
       ∨ dst ∈ route_assigned_addresses r))).
Proof.
  cbn. case_match eqn:Hc; [done|]. apply orb_false_iff in Hc as [Hn Hr].
  apply bool_decide_eq_false, dec_stable in Hn as ->. apply is_empty_false in Hr.
  case_match eqn:Hc; [|done]. intros [= <- <-]. split_and!; try done.
  apply orb_true_iff in Hc as [->%bool_decide_eq_true|Hc]; [by left|].
  apply andb_true_iff in Hc as [Hg Hc]. right. split; [by destruct gateway|].
  apply orb_true_iff in Hc as [?|?%contains_true]; auto.
Qed.

(** A unicast destination has one target at most, in a consistent directory. *)
Lemma unicast_targets self all peers network (dst : IpAddr) :
  directory_ok self all peers → is_group_destination network dst = false →
  (length (omap (peer_target network None dst) (hash_iter peers)) ≤ 1)%nat.
Proof.
  intros [He _ _] Hg. apply length_omap_le_1; [eapply NoDup_fmap_1, NoDup_hash_iter|].
  intros [[n1 d1] r1] [[n2 d2] r2] Hx%elem_of_hash_iter Hy%elem_of_hash_iter
    [[] (-> & _ & _ & _ & Hd1)%peer_target_Some] [[] (-> & _ & _ & _ & Hd2)%peer_target_Some].
  destruct Hd1 as [?|[_ [?|Hd1]]]; [done|congruence|].
  destruct Hd2 as [?|[_ [?|Hd2]]]; [done|congruence|].
  destruct (decide (d1 = d2)) as [->|Hne]; [congruence|].
  by destruct (He _ _ _ _ _ Hx Hy Hne dst).
Qed.

(** At most 16 distinct candidates per route, with failure counts in [u8]. *)
Definition candidates_ok peers : Prop := map_Forall (λ _ r, route_ok r) peers.

Lemma route_ok_congr r r' :
  route_candidates r' = route_candidates r → route_ok r → route_ok r'.
Proof. unfold route_ok, endpoints. by intros ->. Qed.
Lemma route_ok_empty : route_ok PeerRoute_empty.
Proof. unfold route_ok. cbn. split_and!; [done|constructor|constructor]. Qed.
Lemma route_ok_new e : route_ok (PeerRoute_new e).
Proof.
  unfold route_ok. cbn. split_and!; [done|apply NoDup_singleton|].
  constructor; [done|constructor].
Qed.
Lemma candidates_ok_default peers k : candidates_ok peers → route_ok (default PeerRoute_empty (peers !! k)).
Proof.
  intros Hok. destruct (peers !! k) as [r|] eqn:Hl; [by eapply Hok|apply route_ok_empty].
Qed.
Lemma candidates_ok_addresses peers k addresses self networks now :
  candidates_ok peers →
  candidates_ok (update_peer_addresses peers k addresses self networks now).1.
Proof.
  intros Hok. destruct (update_peer_addresses _ _ _ _ _ _) as [peers' []] eqn:Hu; cbn.
  - apply update_peer_addresses_true in Hu as (n & r & _ & _ & _ & -> & -> & _).
    apply map_Forall_insert_2; [|done]. eapply route_ok_congr; [|by apply candidates_ok_default].
    done.
  - assert (peers' = peers) as ->; [|done]. revert Hu. unfold update_peer_addresses.
    repeat case_match; by intros [=].
Qed.
Lemma candidates_ok_membership peers c self networks now :
  candidates_ok peers → candidates_ok (update_peer_membership peers c self networks now).1.
Proof.
  intros Hok. unfold update_peer_membership. case_match; [done|].
  pose proof (candidates_ok_addresses peers
    (mc_network_id (cert_claims c), mc_device_id (cert_claims c))
    (mc_assigned_addresses (cert_claims c)) self networks now Hok) as Ha.
  destruct (update_peer_addresses _ _ _ _ _ _) as [peers' up]; cbn in *.
  destruct up; cbn; [|done]. destruct (peers' !! _) as [r|] eqn:Hl; [|done]. cbn.
  apply map_Forall_insert_2; [|done]. eapply route_ok_congr; [|by eapply Ha]. done.
Qed.
Lemma candidates_ok_fmap peers f :
  (∀ r, route_ok r → route_ok (f r)) → candidates_ok peers → candidates_ok (f <$> peers).
Proof.
  intros Hf Hok k r'. rewrite lookup_fmap. intros (r & Hl & ->)%fmap_Some. by eapply Hf, Hok.
Qed.
Lemma dir_step_candidates self all peers peers' :
  dir_step self all peers peers' → candidates_ok peers → candidates_ok peers'.
Proof.
  intros Hs Hok. destruct Hs.
  - by apply candidates_ok_addresses.
  - by apply candidates_ok_membership.
  - apply candidates_ok_fmap; [|done]. intros r Hr. unfold expire_directory. by case_match.
  - apply map_Forall_insert_2; [|done]. by eapply add_candidate_ok, Hok.
  - apply map_Forall_insert_2; [|done]. apply route_ok_new.
  - apply map_Forall_insert_2; [|done]. by eapply mark_probe_sent_ok, Hok.
  - apply map_Forall_insert_2; [|done]. by eapply mark_success_ok, Hok.
  - apply candidates_ok_fmap; [|done]. intros r. apply expire_probes_ok.
  - apply candidates_ok_fmap; [|done]. intros r Hr. apply (foldl_preserves _ route_ok); [done|].
    intros r' e _. apply mark_probe_sent_ok.
  - intros k r [? _]%lookup_retain. by eapply Hok.
Qed.
Lemma candidates_reachable self all peers : rtc (dir_step self all) ∅ peers → candidates_ok peers.
Proof.
  apply (rtc_ind_r candidates_ok); [apply map_Forall_empty|].
  intros ? ? _ Hs. by apply (dir_step_candidates _ _ _ _ Hs).
Qed.
End directory.

(** ** Properties *)
Section routing_property.
Context `{UuidLib} `{Ed25519} `{IpNetLib}.

(** A device is entitled to carry traffic of an address in a network: the
    documents of the network are current and from its pinned controller, and
    either the device is the gateway of a usable policy route to the address
    that no longer usable route beats, or the address is outside the network
    and the device is an authorised exit for its family. *)
Definition entitled (n : JoinedNetwork) (d : DeviceId) (a : IpAddr) (now : Z) : Prop :=
  ∃ pol auth, documents_ok n pol auth now
    ∧ ((∃ r p, r ∈ pol_routes pol ∧ route_usable n auth a now r p
          ∧ mc_device_id (cert_claims (pr_gateway_certificate r)) = d
          ∧ ∀ r' len' g', r' ∈ pol_routes pol → usable_route n auth a now r' = Some (len', g') →
              len' ≤ net_prefix_len p ∧ (len' = net_prefix_len p → g' = d))
       ∨ (address_belongs_to_network n a = false
          ∧ ∃ e, e ∈ pol_exit_nodes pol
              ∧ mc_device_id (cert_claims (en_gateway_certificate e)) = d
              ∧ authorized auth (en_gateway_certificate e)
              ∧ (if is_ipv4 a then en_supports_ipv4 e else en_supports_ipv6 e) = true)).

Lemma policy_gateway_entitled n a now len g :
  policy_gateway n a now = Some (len, g) → entitled n g a now.
Proof.
  intros (pol & auth & r & p & Hd & Hr & Hu & -> & -> & Hb)%policy_gateway_Some.
  exists pol, auth. split; [done|]. left. exists r, p. done.
Qed.
Lemma exit_entitled n d a now :
  address_belongs_to_network n a = false → exit_candidate_is_current n d a now = true →
  entitled n d a now.
Proof.
  intros Hb (pol & auth & e & Hd & He & Hx)%exit_candidate_current.
  exists pol, auth. split; [done|]. right. eauto.
Qed.
Lemma gateway_of_entitled n d a now : gateway_of n d a now → entitled n d a now.
Proof. intros [[len ?%policy_gateway_entitled]|[? ?]]; [done|by apply exit_entitled]. Qed.

(** C25: where an IP packet from the virtual adapter is sent, if it is sent.  Either its
    source address belongs to exactly one keyed network, and it goes to that network:
    directly only when the destination is a group address, or lies in the network's
    prefix and the best policy route to it, if there is one, is shorter than this prefix;
    and through a gateway only when the destination is no group address and the
    controller's current signed documents entitle the gateway to it, namely as the
    gateway of the best policy route (which is longer than the network's prefix when the
    destination is in that prefix), or as the exit that was selected, when the
    destination is outside the prefix and no policy route leads to it.  Or the source
    belongs to no network, and the packet is return traffic into the prefix of the
    network: this device is the gateway of the best policy route to the source, or there
    is none and this device is an exit that the current documents authorise for its
    family.  A source in two networks is never routed. *)
Theorem outbound_route_entitled networks local_device packet now route :
  outbound_route_for_ip_packet networks local_device packet now = Some route →
  let n := or_network route in
  ∃ s dst : IpAddr, packet_addresses packet = Some (s, dst) ∧ n ∈ networks ∧ has_key n = true
    ∧ ((List.filter (λ n, sources n s) networks = [n]
        ∧ match or_gateway route with
          | None => is_group_destination n dst = true
              ∨ ∃ direct, destination_prefix_len n dst = Some direct
                  ∧ ∀ len g, policy_gateway n dst now = Some (len, g) → len < direct
          | Some g => is_group_destination n dst = false ∧ entitled n g dst now
              ∧ ((∃ len, policy_gateway n dst now = Some (len, g)
                    ∧ ∀ direct, destination_prefix_len n dst = Some direct → direct < len)
                 ∨ (policy_gateway n dst now = None ∧ destination_prefix_len n dst = None
                    ∧ selected_exit_gateway n dst now = Some g))
          end)
       ∨ ((∀ n', n' ∈ networks → sources n' s = false) ∧ or_gateway route = None
          ∧ address_belongs_to_network n dst = true
          ∧ ((∃ len, policy_gateway n s now = Some (len, local_device))
             ∨ (policy_gateway n s now = None
                ∧ exit_candidate_is_current n local_device s now = true)))).
Proof.
  intros (s & dst & Hp & Hn & Hk & Hc)%outbound_route_cases n. exists s, dst.
  split_and!; [done..|]. destruct Hc as [[Hf Hr]|(Hs & Hg & Hb & Hx & Hy)]; [left|right].
  - split; [done|]. apply route_from_member_Some in Hr as [_ Hr]. fold n in Hr.
    destruct (or_gateway route) as [g|]; [|done]. destruct Hr as [Hgd Hr]. split; [done|].
    split; [|done]. destruct Hr as [(len & ?%policy_gateway_entitled & _)|(_ & Hd & Hsel)]; [done|].
    unfold selected_exit_gateway in Hsel. apply bind_Some in Hsel as (g' & _ & Hsel).
    case_match eqn:He; [|done]. injection Hsel as <-. apply exit_entitled; [|done].
    by apply destination_prefix_None.
  - split_and!; [done..|]. destruct (policy_gateway n s now) as [[len g]|] eqn:Hpg.
    + left. rewrite <-Hpg. apply Hx. fold n. by rewrite Hpg.
    + right. auto.
Qed.
End routing_property.

(** ** Witnesses *)
Definition packet_to_route : bytes := ipv4_packet (ip4 100 64 0 2) (ip4 10 1 0 5).

Definition alice_route : OutboundNetworkRoute :=
  default (mkOutboundNetworkRoute alice_network None)
    (outbound_route_for_ip_packet [alice_network] alice packet_to_route 150).

Lemma outbound_route_entitled_witness :
  or_gateway alice_route = Some bob
  ∧ ∃ s dst, packet_addresses packet_to_route = Some (s, dst).
Proof.
  split; [vm_decide|].
  destruct (outbound_route_entitled [alice_network] alice packet_to_route 150 alice_route)
    as (s & dst & Hp & _); [|exists s, dst; exact Hp].
  apply default_Some. vm_compute. reflexivity.
Defined.

Section directory_property.
Context `{UuidLib} `{Ed25519} `{IpNetLib} `{HashOrder}.
Implicit Types (peers : gmap (NetworkId * DeviceId) PeerRoute).

(** C26: what a decrypted packet must satisfy before it reaches the virtual
    adapter.  It is addressed to this device or to nobody in particular; its
    source is an address of the sending member, or one the sender is entitled
    to forward for; and its destination is a group address, or (only when
    addressed to this device) an address of this device or one it is entitled
    to carry.  A member cannot inject a packet under another's address. *)
Theorem delivery_authorized network source_device source_route outer local packet now :
  packet_is_authorized_for_delivery network source_device source_route outer local packet now
    = true →
  (is_nil (device_uuid outer) = true ∨ outer = local)
  ∧ ∃ s dst, packet_addresses packet = Some (s, dst)
    ∧ (s ∈ route_assigned_addresses source_route ∨ entitled network source_device s now)
    ∧ (is_group_destination network dst = true
       ∨ (is_nil (device_uuid outer) = false
          ∧ (dst ∈ jn_assigned_addresses network ∨ entitled network local dst now))).
Proof.
  unfold packet_is_authorized_for_delivery. intros Hp.
  case_match eqn:Ho; [done|]. apply andb_false_iff in Ho.
  split.
  { destruct Ho as [?%negb_false_iff|Ho%bool_decide_eq_false]; [by left|right].
    by apply dec_stable. }
  destruct (packet_addresses packet) as [[s dst]|]; [|done]. exists s, dst. split; [done|].
  case_match eqn:Hs; [done|]. split.
  - rewrite andb_false_iff, !negb_false_iff in Hs.
    destruct Hs as [?%contains_true|?%peer_is_gateway_for_source_spec%gateway_of_entitled]; auto.
  - case_match eqn:Hn; [by left|].
    rewrite !orb_true_iff in Hp.
    destruct Hp as [[?|?%contains_true]|?%local_device_is_gateway_for_spec%gateway_of_entitled];
      auto.
Qed.

(** C28: over any run of the event loop's steps on the peer directory (every turn
    of the worker is such a run: [worker_directory_steps]), an address belongs to one
    peer of a network at most, lies in the prefix of a network the agent knew and is none
    of the agent's own, an entry of the agent itself has no address, and a route has at
    most 16 candidates, all distinct.  A unicast packet therefore goes to one peer at
    most, the one that holds the destination address, and never back to the agent. *)
Theorem directory_unicast self all peers :
  rtc (dir_step self all) ∅ peers →
  directory_ok self all peers ∧ candidates_ok peers
  ∧ ∀ network packet (s dst : IpAddr), packet_addresses packet = Some (s, dst) →
      is_group_destination network dst = false →
      let targets := peer_targets_for_packet peers network None packet in
      (length targets ≤ 1)%nat
      ∧ ∀ d r, (d, r) ∈ targets → d ≠ self ∧ dst ∈ route_assigned_addresses r
          ∧ peers !! (jn_id network, d) = Some r.
Proof.
  intros Hr. pose proof (directory_reachable _ _ _ Hr) as Hd.
  split_and!; [done|by eapply candidates_reachable|].
  intros network packet s dst Hp Hg. unfold peer_targets_for_packet. rewrite Hp.
  rewrite length_sort_by. split; [by eapply unicast_targets|].
  intros d r. rewrite elem_of_sort_by, list_elem_of_omap.
  intros ([[n d0] r0] & Hl%elem_of_hash_iter & (-> & -> & -> & Hne & Hx)%peer_target_Some).
  destruct Hx as [?|[_ [?|Hx]]]; [done|congruence|]. split_and!; [|done|done].
  intros ->. by rewrite (dir_self _ _ _ Hd _ _ Hl) in Hne.
Qed.

(** the handshake replay cache.  A session id is refused exactly when the
    peer used it within the last five minutes; a fresh one is recorded; the
    cache stays within its bound; and recording one keeps every other fresh
    entry, except that a full cache drops one entry, an oldest one. *)
Theorem handshake_replay_cache seen peer id now seen' ok :
  record_session_handshake seen peer id now = (seen', ok) →
  (ok = false ↔ ∃ t, seen !! (peer, id) = Some t ∧ duration_since now t ≤ HANDSHAKE_REPLAY_TTL)
  ∧ (ok = true → seen' !! (peer, id) = Some now)
  ∧ (Z.of_nat (size seen) ≤ MAX_HANDSHAKE_REPLAY_ENTRIES →
     Z.of_nat (size seen') ≤ MAX_HANDSHAKE_REPLAY_ENTRIES)
  ∧ ∃ dropped : option ((NetworkId * DeviceId) * bytes),
      (∀ (k : (NetworkId * DeviceId) * bytes) t, k ≠ (peer, id) → Some k ≠ dropped → seen !! k = Some t →
         duration_since now t ≤ HANDSHAKE_REPLAY_TTL → seen' !! k = Some t)
      ∧ ∀ (k : (NetworkId * DeviceId) * bytes) t, dropped = Some k → seen !! k = Some t →
          MAX_HANDSHAKE_REPLAY_ENTRIES ≤ Z.of_nat (size seen)
          ∧ ∀ (k' : (NetworkId * DeviceId) * bytes) t', seen !! k' = Some t' → duration_since now t' ≤ HANDSHAKE_REPLAY_TTL →
              duration_since now t' ≤ duration_since now t.
Proof.
  intros Hr. split_and!.
  - by eapply record_session_handshake_refuses.
  - intros ->. by eapply record_session_handshake_records.
  - by eapply record_session_handshake_size.
  - by eapply record_session_handshake_keeps.
Qed.
End directory_property.

Lemma delivery_authorized_witness :
  packet_is_authorized_for_delivery alice_network bob bob_route alice alice packet_from_bob 150
    = true
  ∧ packet_is_authorized_for_delivery alice_network bob bob_route alice alice
      (ipv4_packet (ip4 100 64 0 9) (ip4 100 64 0 2)) 150 = false
  ∧ (is_nil (device_uuid alice) = true ∨ alice = alice).
Proof.
  assert (packet_is_authorized_for_delivery alice_network bob bob_route alice alice
    packet_from_bob 150 = true) as Hp by (vm_compute; reflexivity).
  split; [exact Hp|]. split; [vm_compute; reflexivity|].
  exact (proj1 (delivery_authorized _ _ _ _ _ _ _ Hp)).
Defined.

Definition sample_peers : gmap (NetworkId * DeviceId) PeerRoute :=
  (update_peer_addresses ∅ (net_a, bob) [addr 3] alice [alice_network] 7).1.
Lemma directory_unicast_witness :
  length (peer_targets_for_packet sample_peers alice_network None
            (ipv4_packet (ip4 100 64 0 2) (ip4 100 64 0 3))) = 1%nat
  ∧ candidates_ok sample_peers.
Proof.
  split; [vm_compute; reflexivity|].
  destruct (directory_unicast alice [alice_network] sample_peers) as (_ & Hc & _); [|exact Hc].
  apply rtc_once. apply step_addresses. intros n Hn. exact Hn.
Defined.

Lemma handshake_replay_cache_witness :
  ∃ seen' ok, record_session_handshake ∅ (net_a, bob) [1] 5 = (seen', ok)
    ∧ (ok = true → seen' !! ((net_a, bob), [1]) = Some 5).
Proof.
  eexists _, _. split; [reflexivity|].
  exact (proj1 (proj2 (handshake_replay_cache ∅ (net_a, bob) [1] 5 _ _ eq_refl))).
Defined.
