(* ===== verification/FramesFacts.v ===== *)
(** * Correctness of the agent's frames *)
From S2P Require Import Prelude Net Text Ext Concrete Model ServiceIdentity Membership.
From S2P Require Import Authorization RelayProto RootProto RelayServer Frames Samples.
#[local] Open Scope Z_scope.

(** ** Checked access succeeds within bounds *)
Lemma range_Ok a b (packet : bytes) :
  (a ≤ b)%nat → (b ≤ length packet)%nat → range a b packet = Ok (slice a b packet).
Proof. intros. unfold range. by rewrite bool_decide_eq_true_2. Qed.
Lemma index_Ok i (packet : bytes) :
  (i < length packet)%nat → ∃ x, index i packet = Ok x ∧ packet !! i = Some x.
Proof.
  intros Hi. destruct (lookup_lt_is_Some_2 packet i Hi) as [x Hx]. exists x.
  unfold index. by rewrite Hx.
Qed.

(** A parser that returns: neither out of range nor out of fuel. *)
Definition returns {A} (r : result access_error A) : Prop := ∃ a, r = Ok a.
Lemma returns_bind {A B} (r : result access_error A) (f : A → result access_error B) a :
  r = Ok a → returns (f a) → returns (r ≫= f).
Proof. by intros ->. Qed.
Lemma returns_Ok {A} (a : A) : returns (Ok a).
Proof. by exists a. Qed.
#[local] Hint Resolve returns_Ok : core.

Lemma parse_stun_address_returns value xor tid : returns (parse_stun_address value xor tid).
Proof.
  unfold parse_stun_address. destruct (_ <? _)%nat eqn:Hl; [done|]. apply Nat.ltb_ge in Hl.
  destruct (index_Ok 0 value ltac:(lia)) as (x & Hx & _). eapply returns_bind; [done|].
  case_match; [done|]. eapply returns_bind; [apply range_Ok; lia|].
  destruct (index_Ok 1 value ltac:(lia)) as (y & Hy & _). eapply returns_bind; [done|].
  case_match eqn:H4.
  { apply andb_true_iff in H4 as [_ H4%Nat.eqb_eq]. eapply returns_bind; [apply range_Ok; lia|done]. }
  case_match eqn:H6; [|done].
  apply andb_true_iff in H6 as [_ H6%Nat.eqb_eq]. eapply returns_bind; [apply range_Ok; lia|done].
Qed.
Lemma parse_stun_attributes_returns fuel packet body_end tid offset :
  (body_end ≤ length packet)%nat → (body_end - offset < 4 * fuel)%nat →
  returns (parse_stun_attributes fuel packet body_end tid offset).
Proof.
  intros Hb. revert offset. induction fuel as [|fuel IH]; intros offset Hf; [lia|].
  cbn [parse_stun_attributes]. destruct (_ <=? _)%nat eqn:Hl; cbn [negb]; [|apply returns_Ok].
  apply Nat.leb_le in Hl.
  rewrite !range_Ok by lia. rewrite !fmap_Ok, bind_ret.
  rewrite bind_ret. set (n := Z.to_nat _).
  destruct (_ <? _)%nat eqn:He; [done|]. apply Nat.ltb_ge in He.
  assert (returns (parse_stun_attributes fuel packet body_end tid
    (offset + 4 + n + (4 - n mod 4) mod 4))) as Hnext by (apply IH; lia).
  case_match; [|done]. eapply returns_bind; [apply range_Ok; lia|].
  destruct (parse_stun_address_returns (slice (offset + 4) (offset + 4 + n) packet)
    (from_be (slice offset (offset + 2) packet) =? 0x0020) tid) as [a Ha].
  eapply returns_bind; [exact Ha|]. by destruct a.
Qed.
Lemma parse_stun_returns packet : returns (parse_stun_binding_success packet).
Proof.
  unfold parse_stun_binding_success. destruct (_ <? _)%nat eqn:Hl; [done|]. apply Nat.ltb_ge in Hl.
  rewrite !range_Ok by lia. rewrite !bind_ret. case_match; [done|].
  rewrite fmap_Ok, bind_ret. set (n := Z.to_nat _).
  destruct (_ <? _)%nat eqn:He; [done|]. apply Nat.ltb_ge in He. rewrite bind_ret.
  apply parse_stun_attributes_returns; lia.
Qed.

(** ** Responses a STUN server builds *)
Definition stun_attribute (kind : Z) (value : bytes) : bytes :=
  be_bytes 2 kind ++ be_bytes 2 (len value) ++ value
    ++ replicate ((4 - length value mod 4) mod 4) 0.
Definition stun_success (tid body : bytes) : bytes :=
  be_bytes 2 0x0101 ++ be_bytes 2 (len body) ++ STUN_COOKIE ++ tid ++ body.
(** The value of an XOR-MAPPED-ADDRESS attribute. *)
Definition xor_mapped_address (tid : bytes) (e : SocketAddr) : bytes :=
  [0; if socket_is_ipv4 e then 1 else 2]
    ++ be_bytes 2 (Z.lxor (socket_port e) (from_be (take 2 STUN_COOKIE)))
    ++ xor_bytes (ip_octets (socket_ip e))
         (if socket_is_ipv4 e then STUN_COOKIE else STUN_COOKIE ++ tid).

Lemma lxor_bound n a b : 0 ≤ n → 0 ≤ a < 2 ^ n → 0 ≤ b < 2 ^ n → 0 ≤ Z.lxor a b < 2 ^ n.
Proof.
  intros Hn Ha Hb. assert (Z.lxor a b = Z.land (Z.lxor a b) (Z.ones n)) as ->.
  { rewrite <-(Z.mod_small a (2 ^ n)), <-(Z.mod_small b (2 ^ n)) by lia.
    rewrite <-!Z.land_ones by lia. apply Z.bits_inj'. intros i Hi.
    rewrite !Z.land_spec, !Z.lxor_spec, !Z.land_spec.
    by destruct (Z.testbit a i), (Z.testbit b i), (Z.testbit (Z.ones n) i). }
  rewrite Z.land_ones by lia. apply Z.mod_pos_bound. lia.
Qed.
Lemma length_xor_bytes l m : (length l ≤ length m)%nat → length (xor_bytes l m) = length l.
Proof. intros. unfold xor_bytes. rewrite length_zip_with. lia. Qed.
Lemma xor_bytes_twice l m : (length l ≤ length m)%nat → xor_bytes (xor_bytes l m) m = l.
Proof.
  unfold xor_bytes. revert m. induction l as [|x l IH]; intros [|y m] Hl; cbn in *; try done; [lia|].
  rewrite IH by lia. by rewrite Z.lxor_assoc, Z.lxor_nilpotent, Z.lxor_0_r.
Qed.

Definition wf_endpoint (e : SocketAddr) : Prop := wf_ip (socket_ip e) ∧ wf_port (socket_port e).
(** An endpoint as the wire carries it: without flow label and scope. *)
Definition wire_endpoint (e : SocketAddr) : SocketAddr := socket_new (socket_ip e) (socket_port e).

Lemma length_xor_mapped_address tid e :
  length tid = 12%nat →
  length (xor_mapped_address tid e) = if socket_is_ipv4 e then 8%nat else 20%nat.
Proof.
  intros Ht. unfold xor_mapped_address. rewrite !length_app, length_be_bytes.
  rewrite length_xor_bytes by (destruct e; cbn; lia).
  by destruct e.
Qed.
(** The port is masked with the head of the cookie. *)
Lemma unmask_port port :
  wf_port port →
  Z.lxor (from_be (be_bytes 2 (Z.lxor port (from_be (take 2 STUN_COOKIE)))))
    (from_be (take 2 STUN_COOKIE)) = port.
Proof.
  intros Hp. rewrite from_be_be_bytes. change (from_be (take 2 STUN_COOKIE)) with 8466.
  assert (0 ≤ Z.lxor port 8466 < 65536) as Hx by (apply (lxor_bound 16); [lia|exact Hp|lia]).
  rewrite Z.mod_small by exact Hx. by rewrite Z.lxor_assoc, Z.lxor_nilpotent, Z.lxor_0_r.
Qed.
Lemma parse_xor_mapped_address tid e :
  length tid = 12%nat → wf_endpoint e →
  parse_stun_address (xor_mapped_address tid e) true tid = Ok (Some (wire_endpoint e)).
Proof.
  intros Ht [Hip Hport]. pose proof (length_xor_mapped_address tid e Ht) as Hl.
  assert (index 0 (xor_mapped_address tid e) = Ok 0) as H0 by done.
  assert (index 1 (xor_mapped_address tid e) = Ok (if socket_is_ipv4 e then 1 else 2)) as H1 by done.
  assert (range 2 4 (xor_mapped_address tid e)
    = Ok (be_bytes 2 (Z.lxor (socket_port e) (from_be (take 2 STUN_COOKIE))))) as H2.
  { rewrite range_Ok by (rewrite ?Hl; destruct e; cbn; lia). by apply (f_equal Ok). }
  assert (range 4 (if socket_is_ipv4 e then 8 else 20) (xor_mapped_address tid e)
    = Ok (xor_bytes (ip_octets (socket_ip e))
            (if socket_is_ipv4 e then STUN_COOKIE else STUN_COOKIE ++ tid))) as H3.
  { rewrite range_Ok by (rewrite ?Hl; destruct e; cbn; lia). apply (f_equal Ok).
    unfold xor_mapped_address. rewrite app_assoc. apply slice_app_end; [done|].
    rewrite length_xor_bytes by (destruct e; cbn; lia). by destruct e. }
  unfold parse_stun_address. rewrite Hl, H0, H1, H2.
  destruct e as [ip port|ip port flow scope]; cbn [socket_is_ipv4 is_ipv4 socket_ip] in *;
    rewrite !bind_ret; cbn [Nat.ltb Nat.leb Z.eqb negb Nat.eqb andb Pos.eqb];
    rewrite H3, !bind_ret, unmask_port by done; rewrite xor_bytes_twice by (cbn; lia).
  - cbn [ip_octets]. by rewrite ipv4_of_octets_octets.
  - cbn [ip_octets]. by rewrite ipv6_of_octets_octets.
Qed.

(** ** The attribute loop, one attribute at a time *)
Definition u16_value (value : bytes) : Prop := len value < 65536.
Lemma length_stun_attribute kind value :
  length (stun_attribute kind value)
  = (4 + length value + (4 - length value mod 4) mod 4)%nat.
Proof.
  unfold stun_attribute. rewrite !length_app, !length_be_bytes, length_replicate. lia.
Qed.
Lemma attribute_ranges before kind value after packet :
  packet = before ++ stun_attribute kind value ++ after → 0 ≤ kind < 65536 → u16_value value →
  let o := length before in
  from_be <$> range o (o + 2) packet = Ok kind
  ∧ from_be <$> range (o + 2) (o + 4) packet = Ok (len value)
  ∧ range (o + 4) (o + 4 + length value) packet = Ok value.
Proof.
  intros -> Hk Hv. cbn zeta. unfold u16_value, len in Hv.
  set (n := length value) in *. set (pad := replicate ((4 - n mod 4) mod 4) 0).
  assert (before ++ stun_attribute kind value ++ after
    = before ++ be_bytes 2 kind ++ be_bytes 2 (len value) ++ value ++ pad ++ after) as ->.
  { unfold stun_attribute. by rewrite <-!app_assoc. }
  assert (∀ k, (k ≤ 4 + n)%nat → (length before + k ≤ length
    (before ++ be_bytes 2 kind ++ be_bytes 2 (len value) ++ value ++ pad ++ after))%nat) as Hl.
  { intros k Hn. rewrite !length_app, !length_be_bytes. lia. }
  rewrite !range_Ok by first [lia|apply Hl; lia|rewrite <-Nat.add_assoc; apply Hl; lia].
  split_and!.
  - rewrite (slice_app_here _ _ before (be_bytes 2 kind)) by (rewrite ?length_be_bytes; lia).
    rewrite fmap_Ok, from_be_be_bytes. by rewrite Z.mod_small.
  - rewrite app_assoc, (slice_app_here _ _ (before ++ be_bytes 2 kind) (be_bytes 2 (len value)))
      by (rewrite ?length_app, ?length_be_bytes; lia).
    rewrite fmap_Ok, from_be_be_bytes. rewrite Z.mod_small; [done|]. unfold len. cbn. lia.
  - rewrite app_assoc, app_assoc, (slice_app_here _ _ _ value)
      by (rewrite ?length_app, ?length_be_bytes; lia). done.
Qed.

Definition address_kind (kind : Z) : bool := (kind =? 0x0020) || (kind =? 0x0001).
Lemma skip_attribute fuel before kind value after packet body_end tid :
  packet = before ++ stun_attribute kind value ++ after →
  0 ≤ kind < 65536 → u16_value value → address_kind kind = false →
  (length (before ++ stun_attribute kind value) ≤ body_end)%nat →
  parse_stun_attributes (S fuel) packet body_end tid (length before)
  = parse_stun_attributes fuel packet body_end tid
      (length (before ++ stun_attribute kind value)).
Proof.
  intros Hp Hk Hv Ha He.
  destruct (attribute_ranges _ _ _ _ _ Hp Hk Hv) as (H1 & H2 & _).
  rewrite length_app, length_stun_attribute in *. cbn [parse_stun_attributes].
  rewrite (proj2 (Nat.leb_le _ _)) by lia. cbn [negb]. rewrite H1, bind_ret, H2, bind_ret.
  replace (Z.to_nat (len value)) with (length value) by (unfold len; lia).
  rewrite (proj2 (Nat.ltb_ge _ _)) by lia. unfold address_kind in Ha. rewrite Ha. f_equal. lia.
Qed.
Lemma mapped_attribute fuel before after packet body_end tid e :
  packet = before ++ stun_attribute 0x0020 (xor_mapped_address tid e) ++ after →
  length tid = 12%nat → wf_endpoint e →
  (length (before ++ stun_attribute 0x0020 (xor_mapped_address tid e)) ≤ body_end)%nat →
  parse_stun_attributes (S fuel) packet body_end tid (length before)
  = Ok (Some (tid, wire_endpoint e)).
Proof.
  intros Hp Ht Hwf He.
  assert (u16_value (xor_mapped_address tid e)) as Hv.
  { unfold u16_value, len. rewrite length_xor_mapped_address by done. destruct e; cbn; lia. }
  destruct (attribute_ranges _ _ _ _ _ Hp ltac:(lia) Hv) as (H1 & H2 & H3).
  rewrite length_app, length_stun_attribute in He. cbn [parse_stun_attributes].
  rewrite (proj2 (Nat.leb_le _ _)) by lia. cbn [negb]. rewrite H1, bind_ret, H2, bind_ret.
  replace (Z.to_nat (len (xor_mapped_address tid e))) with (length (xor_mapped_address tid e))
    by (unfold len; lia).
  rewrite (proj2 (Nat.ltb_ge _ _)) by lia. cbn [Z.eqb Pos.eqb orb]. rewrite H3, bind_ret.
  by rewrite parse_xor_mapped_address.
Qed.

Definition attributes (l : list (Z * bytes)) : bytes := concat (map (uncurry stun_attribute) l).
Definition other_attribute (kv : Z * bytes) : Prop :=
  0 ≤ kv.1 < 65536 ∧ u16_value kv.2 ∧ address_kind kv.1 = false.
Lemma parse_after_others l fuel before after packet body_end tid e :
  packet = before ++ attributes l ++ stun_attribute 0x0020 (xor_mapped_address tid e) ++ after →
  Forall other_attribute l → length tid = 12%nat → wf_endpoint e →
  (length (before ++ attributes l ++ stun_attribute 0x0020 (xor_mapped_address tid e))
   ≤ body_end)%nat → (length l < fuel)%nat →
  parse_stun_attributes fuel packet body_end tid (length before)
  = Ok (Some (tid, wire_endpoint e)).
Proof.
  revert fuel before. induction l as [|[kind value] l IH]; intros fuel before Hp Hl Ht Hwf He Hf;
    (destruct fuel as [|fuel]; [lia|]).
  - eapply (mapped_attribute fuel before after packet); [exact Hp|done|done|exact He].
  - apply Forall_cons in Hl as [(Hk & Hv & Ha) Hl]. cbn in Hk, Hv, Ha.
    unfold attributes in *. cbn [map concat uncurry] in *. rewrite <-app_assoc in Hp, He.
    erewrite (skip_attribute fuel before kind value); [|exact Hp|done..|].
    + apply IH; try done; [by rewrite <-app_assoc| |cbn in Hf; lia].
      by rewrite <-app_assoc.
    + rewrite !length_app in *. lia.
Qed.
Lemma length_attributes l : (length l ≤ length (attributes l))%nat.
Proof.
  induction l as [|[kind value] l IH]; [done|]. unfold attributes in *. cbn [map concat uncurry].
  rewrite length_app, length_stun_attribute. cbn [length]. lia.
Qed.

Lemma stun_success_fields tid body :
  length tid = 12%nat → let packet := stun_success tid body in
  slice 0 2 packet = be_bytes 2 0x0101 ∧ slice 4 8 packet = STUN_COOKIE
  ∧ slice 2 4 packet = be_bytes 2 (len body) ∧ slice 8 20 packet = tid.
Proof.
  intros Ht packet. unfold packet, stun_success. split_and!.
  - by apply (slice_app_here 0 2 []).
  - rewrite app_assoc. by apply slice_app_here.
  - by apply slice_app_here.
  - rewrite 2 app_assoc. by apply slice_app_here.
Qed.
Lemma parse_stun_success tid l e rest :
  let body := attributes l ++ stun_attribute 0x0020 (xor_mapped_address tid e) ++ rest in
  length tid = 12%nat → Forall other_attribute l → wf_endpoint e → u16_value body →
  parse_stun_binding_success (stun_success tid body) = Ok (Some (tid, wire_endpoint e)).
Proof.
  intros body Ht Hl Hwf Hb. unfold u16_value, len in Hb.
  set (head := be_bytes 2 0x0101 ++ be_bytes 2 (len body) ++ STUN_COOKIE ++ tid).
  assert (stun_success tid body = head ++ body) as Hp
    by (unfold head, stun_success; by rewrite <-!app_assoc).
  assert (length head = 20%nat) as Hh by (unfold head; rewrite !length_app, Ht, !length_be_bytes; done).
  assert (length (stun_success tid body) = (20 + length body)%nat) as Hlen
    by (rewrite Hp, length_app; lia).
  unfold parse_stun_binding_success. rewrite Hlen.
  rewrite (proj2 (Nat.ltb_ge _ _)) by lia. rewrite !range_Ok by lia. rewrite !bind_ret, fmap_Ok.
  destruct (stun_success_fields tid body Ht) as (-> & -> & -> & ->).
  cbn [negb orb]. rewrite !bool_decide_eq_false_2 by (intros []; done). cbn [orb].
  rewrite bind_ret, from_be_be_bytes.
  rewrite Z.mod_small by (unfold len; change (256 ^ Z.of_nat 2) with 65536; lia).
  replace (Z.to_nat (len body)) with (length body) by (unfold len; lia).
  rewrite (proj2 (Nat.ltb_ge _ _)) by lia. rewrite bind_ret, Hp, <-Hh. unfold body.
  apply (parse_after_others l _ head rest); try done.
  - rewrite !length_app. lia.
  - pose proof (length_attributes l). rewrite !length_app, Hh. lia.
Qed.

Lemma parse_stun_attributes_tid fuel packet body_end tid offset tid' e :
  parse_stun_attributes fuel packet body_end tid offset = Ok (Some (tid', e)) → tid' = tid.
Proof.
  revert offset. induction fuel as [|fuel IH]; intros offset; [done|]. cbn [parse_stun_attributes].
  case_match; [done|]. intros Hr. apply bind_Ok in Hr as (kind & _ & Hr).
  apply bind_Ok in Hr as (n & _ & Hr). case_match; [done|]. case_match; [|by eapply IH].
  apply bind_Ok in Hr as (v & _ & Hr). apply bind_Ok in Hr as ([a|] & _ & Hr); [|by eapply IH].
  by simplify_eq.
Qed.
Lemma parse_stun_transaction packet tid e :
  parse_stun_binding_success packet = Ok (Some (tid, e)) →
  tid = slice 8 20 packet ∧ length tid = 12%nat.
Proof.
  unfold parse_stun_binding_success. destruct (_ <? _)%nat eqn:Hl; [done|].
  apply Nat.ltb_ge in Hl. rewrite !range_Ok by lia. rewrite !bind_ret. case_match; [done|].
  rewrite fmap_Ok, bind_ret. case_match; [done|]. rewrite bind_ret.
  intros ->%parse_stun_attributes_tid. split; [done|]. by rewrite length_slice by lia.
Qed.

Section announcement_lemmas.
Context `{UuidLaws} `{Ed25519} `{!HashOrder}.

Lemma announcement_fields kind (n : NetworkId) (d : DeviceId) tail :
  let packet := RELAY_MAGIC ++ [kind] ++ network_bytes n ++ device_bytes d ++ tail in
  network_at 5 packet = Some n ∧ device_at 21 packet = Some d
  ∧ length packet = (37 + length tail)%nat ∧ slice 0 4 packet = RELAY_MAGIC
  ∧ byte_at 4 packet = kind.
Proof.
  intros packet. split_and!; try done.
  - by apply (network_at_here _ _ (RELAY_MAGIC ++ [kind]) n (device_bytes d ++ tail)).
  - eapply (device_at_here _ _ (RELAY_MAGIC ++ [kind] ++ network_bytes n)).
    + unfold packet. by rewrite <-!app_assoc.
    + by rewrite !length_app, network_bytes_length.
  - unfold packet. by rewrite !length_app, network_bytes_length, device_bytes_length.
Qed.

Lemma parse_peer_announcement_of (n : NetworkId) (d : DeviceId) e :
  wf_endpoint e →
  parse_peer_announcement (peer_announcement (n, d) e) = Some (n, d, wire_endpoint e).
Proof.
  intros [Hip Hport].
  assert (peer_announcement (n, d) e = RELAY_MAGIC ++ [RELAY_PEER] ++ network_bytes n
    ++ device_bytes d ++ endpoint_bytes e) as Hp by done.
  destruct (announcement_fields RELAY_PEER n d (endpoint_bytes e)) as (Hn & Hd & Hl & Hm & Hk).
  rewrite <-Hp in *. set (packet := peer_announcement (n, d) e) in *.
  assert (length (endpoint_bytes e) = if socket_is_ipv4 e then 7%nat else 19%nat) as He
    by (unfold endpoint_bytes; rewrite !length_app, !length_be_bytes; by destruct e).
  assert (∀ a b l1 l2 l3, endpoint_bytes e = l1 ++ l2 ++ l3 → a = (37 + length l1)%nat →
    b = (a + length l2)%nat → slice a b packet = l2) as Hslice.
  { intros a b l1 l2 l3 Hx -> ->. rewrite Hp, Hx. rewrite 4 app_assoc.
    apply slice_app_here; rewrite ?length_app, ?network_bytes_length, ?device_bytes_length; cbn; lia. }
  unfold parse_peer_announcement.
  rewrite (proj2 (has_prefix_true 40 RELAY_PEER packet)) by
    (rewrite Hl, He; split; [destruct e; cbn; lia|done]).
  cbn [negb]. rewrite Hn, Hd. cbn [mbind option_bind].
  rewrite (Hslice 38%nat 40%nat [if socket_is_ipv4 e then 4 else 6] (be_bytes 2 (socket_port e))
    (ip_octets (socket_ip e))) by (rewrite ?length_be_bytes; done).
  rewrite from_be_be_bytes, (Z.mod_small (socket_port e)) by exact Hport.
  assert (byte_at 37 packet = if socket_is_ipv4 e then 4 else 6) as ->.
  { unfold byte_at. rewrite Hp, 3 app_assoc. rewrite lookup_app_r by
      (rewrite !length_app, network_bytes_length, device_bytes_length; cbn; lia).
    rewrite !length_app, network_bytes_length, device_bytes_length. done. }
  rewrite Hl, He. clear Hp. clearbody packet.
  destruct e as [ip port|ip port flow scope];
    cbn [socket_is_ipv4 is_ipv4 socket_ip socket_port Z.eqb Pos.eqb Nat.eqb Nat.add andb
         mbind option_bind] in *.
  - rewrite (Hslice 40%nat 44%nat ([4] ++ be_bytes 2 port) (be_bytes 4 ip) []) by
      (rewrite ?length_app, ?length_be_bytes, ?app_nil_r; done).
    by rewrite ipv4_of_octets_octets.
  - rewrite (Hslice 40%nat 56%nat ([6] ++ be_bytes 2 port) (be_bytes 16 ip) []) by
      (rewrite ?length_app, ?length_be_bytes, ?app_nil_r; done).
    by rewrite ipv6_of_octets_octets.
Qed.

Lemma parse_punch_of (n : NetworkId) (d : DeviceId) kind kind' :
  kind = RELAY_PUNCH ∨ kind = RELAY_PUNCH_ACK →
  parse_punch (punch_packet n d kind) kind' = if kind' =? kind then Some (n, d) else None.
Proof.
  intros Hkind. destruct (announcement_fields kind n d []) as (Hn & Hd & Hl & Hm & Hk).
  rewrite !app_nil_r in *. unfold parse_punch, punch_packet in *.
  destruct (Z.eqb_spec kind' kind) as [->|Hne].
  - rewrite (proj2 (has_prefix_true 37 kind _)) by (rewrite Hl; split; [lia|done]).
    rewrite Hl. cbn [Nat.eqb andb].
    replace ((kind =? RELAY_PUNCH) || (kind =? RELAY_PUNCH_ACK)) with true
      by (destruct Hkind; by subst).
    cbn [negb]. by rewrite Hn, Hd.
  - assert (has_prefix 37 kind' (RELAY_MAGIC ++ [kind] ++ network_bytes n ++ device_bytes d) = false)
      as ->; [|by rewrite andb_false_r].
    apply not_true_is_false. intros (_ & _ & Hk')%has_prefix_true. congruence.
Qed.
End announcement_lemmas.

(** parsing STUN is safe.  Whatever datagram arrives, the parser of binding
    responses returns: no index is out of range and the attribute loop ends;
    and a mapped address is only ever reported with the transaction identifier
    the datagram carries. *)
Theorem stun_parser_total packet :
  ∃ found, parse_stun_binding_success packet = Ok found
    ∧ ∀ tid e, found = Some (tid, e) → tid = slice 8 20 packet ∧ length tid = 12%nat.
Proof.
  destruct (parse_stun_returns packet) as [found Hf]. exists found. split; [done|].
  intros tid e ->. by eapply parse_stun_transaction.
Qed.

(** the mapped address of a STUN response is read back.  From a binding
    response with any attributes of other kinds before the XOR-MAPPED-ADDRESS
    attribute and anything after it, the parser returns the transaction
    identifier and the endpoint that the server saw, IPv4 or IPv6. *)
Theorem stun_address_roundtrip tid others e rest :
  let body := attributes others ++ stun_attribute 0x0020 (xor_mapped_address tid e) ++ rest in
  length tid = 12%nat → Forall other_attribute others → wf_endpoint e → u16_value body →
  parse_stun_binding_success (stun_success tid body) = Ok (Some (tid, wire_endpoint e)).
Proof. apply parse_stun_success. Qed.

Definition sample_tid : bytes := replicate 12 77.
Definition sample_others : list (Z * bytes) := [(0x8022, bytes_of_string "stun server")].
Lemma stun_address_roundtrip_witness :
  let body := attributes sample_others
    ++ stun_attribute 0x0020 (xor_mapped_address sample_tid sample_remote) ++ [] in
  parse_stun_binding_success (stun_success sample_tid body) = Ok (Some (sample_tid, sample_remote)).
Proof.
  apply (stun_address_roundtrip sample_tid sample_others sample_remote []).
  - reflexivity.
  - constructor; [|constructor]. vm_compute. split; [split; [discriminate|reflexivity]|].
    split; reflexivity.
  - vm_compute. split; split; (discriminate || reflexivity).
  - vm_compute. reflexivity.
Defined.

Section announcements.
Context `{UuidLaws} `{Ed25519} `{!HashOrder}.

(** announcements arrive.  What the relay announces of a peer is read back
    by the agent as the network, the device and the endpoint without flow label
    and scope; a punch and its answer are read back, each under its own kind
    only. *)
Theorem announcement_roundtrip (n : NetworkId) (d : DeviceId) e kind :
  (wf_endpoint e →
   parse_peer_announcement (peer_announcement (n, d) e) = Some (n, d, wire_endpoint e))
  ∧ (kind = RELAY_PUNCH ∨ kind = RELAY_PUNCH_ACK →
     ∀ kind', parse_punch (punch_packet n d kind) kind'
              = if kind' =? kind then Some (n, d) else None).
Proof.
  split.
  - intros Hwf. apply parse_peer_announcement_of. done.
  - intros Hk kind'. by apply parse_punch_of.
Qed.
End announcements.

Lemma announcement_roundtrip_witness :
  parse_peer_announcement (peer_announcement (net_a, bob) sample_remote)
  = Some (net_a, bob, sample_remote).
Proof.
  apply (proj1 (announcement_roundtrip net_a bob sample_remote RELAY_PUNCH)).
  vm_compute. split; split; (discriminate || reflexivity).
Defined.
