(* ===== verification/TransportHealthFacts.v ===== *)
(** * Correctness of the registration schedule and of endpoint health *)
From S2P Require Import Prelude Net Text Ext Concrete Model Observability TransportHealth.
From S2P Require Import Samples.
#[local] Open Scope Z_scope.

(** ** Retry delays *)
Lemma base_seconds_value f :
  0 ≤ f → base_seconds f = if f =? 0 then 20 else if f =? 1 then 40 else if f =? 2 then 80 else 120.
Proof.
  intros Hf. unfold base_seconds.
  destruct (Z.eqb_spec f 0) as [->|]; [done|]. destruct (Z.eqb_spec f 1) as [->|]; [done|].
  destruct (Z.eqb_spec f 2) as [->|]; [done|]. by replace (Z.min f 3) with 3 by lia.
Qed.
Lemma retry_delay_bounds seed f :
  0 ≤ f → secs (base_seconds f) ≤ registration_retry_delay seed f
    ≤ secs (Z.min (base_seconds f + base_seconds f / 4) 120).
Proof.
  intros Hf. unfold registration_retry_delay. set (hash := foldl _ _ _). set (base := base_seconds f).
  assert (20 ≤ base ≤ 120) as Hb.
  { unfold base. rewrite base_seconds_value by done. repeat case_match; lia. }
  assert (5 ≤ base / 4) as Hq by (apply Z.div_le_lower_bound; lia).
  rewrite (Z.max_l (base / 4)) by lia.
  pose proof (Z.mod_pos_bound hash (base / 4 + 1) ltac:(lia)) as Hm.
  unfold secs, sat_add64, u64_max. change (as_secs REGISTRATION_MAX_DELAY) with 120. lia.
Qed.

Section schedule.
Context `{UuidLib} `{!HashOrder}.
Implicit Types s : RegistrationSchedule.

(** What the agent does with the schedule of one target, at growing instants. *)
Inductive schedule_step : RegistrationSchedule → Z → RegistrationSchedule → Prop :=
| step_sent s now : is_due s now = true → schedule_step s now (mark_sent s now)
| step_failure s now : schedule_step s now (mark_send_failure s now)
| step_timeout s now timeout : schedule_step s now (expire_if_timed_out s now timeout).1
| step_success s now : schedule_step s now (schedule_mark_success s now).
Inductive schedule_reachable : RegistrationSchedule → Prop :=
| schedule_start device target now : schedule_reachable (schedule_new device target now)
| schedule_next_step s now s' : schedule_reachable s → schedule_step s now s' →
    schedule_reachable s'.

Record schedule_ok s : Prop := {
  so_failures : 0 ≤ rs_consecutive_failures s ≤ 255;
  so_delay : rs_last_delay s = 0 ∨ secs 20 ≤ rs_last_delay s ≤ secs 120;
}.
Lemma schedule_next_ok s failures now :
  0 ≤ failures ≤ 255 → schedule_ok (schedule_next s failures now)
    ∧ now + secs 20 ≤ rs_next_attempt (schedule_next s failures now) ≤ now + secs 120
    ∧ rs_awaiting_since (schedule_next s failures now) = None.
Proof.
  intros Hf. pose proof (retry_delay_bounds (rs_seed s) failures ltac:(lia)) as Hd.
  assert (20 ≤ base_seconds failures) as Hb.
  { rewrite base_seconds_value by lia. repeat case_match; lia. }
  unfold secs in *. split_and!; [split|..]; cbn; unfold secs; lia || done.
Qed.
Lemma schedule_reachable_ok s : schedule_reachable s → schedule_ok s.
Proof.
  induction 1 as [|s now s' _ [Hf Hd] Hs]; [split; cbn; lia|]. destruct Hs.
  - by split.
  - apply schedule_next_ok. unfold sat_add8. lia.
  - unfold expire_if_timed_out. repeat case_match; try by split.
    apply schedule_next_ok. unfold sat_add8. lia.
  - apply schedule_next_ok. lia.
Qed.

(** registrations back off.  The delay after [f] failures in a row is 20,
    40, 80 or 120 seconds plus at most a quarter of it and never beyond 120
    seconds; whatever happened to a schedule, no registration is due while one
    is unanswered, and after a failure or an answer none is due for 20 seconds
    and one is due after 120 seconds. *)
Theorem registration_backoff s :
  schedule_reachable s →
  (∀ f, 0 ≤ f → base_seconds f
     = if f =? 0 then 20 else if f =? 1 then 40 else if f =? 2 then 80 else 120)
  ∧ (∀ seed f, 0 ≤ f → secs (base_seconds f) ≤ registration_retry_delay seed f
       ≤ secs (Z.min (base_seconds f + base_seconds f / 4) 120))
  ∧ (∀ now later, is_due (mark_sent s now) later = false)
  ∧ ∀ now later s', s' = mark_send_failure s now ∨ s' = schedule_mark_success s now →
      (later < now + secs 20 → is_due s' later = false)
      ∧ (now + secs 120 ≤ later → is_due s' later = true).
Proof.
  intros [Hf _]%schedule_reachable_ok.
  split_and!; [apply base_seconds_value|apply retry_delay_bounds|done|].
  assert (∀ now later failures, 0 ≤ failures ≤ 255 →
    (later < now + secs 20 → is_due (schedule_next s failures now) later = false)
    ∧ (now + secs 120 ≤ later → is_due (schedule_next s failures now) later = true)) as Hn.
  { intros now later failures Hx.
    destruct (schedule_next_ok s failures now Hx) as (_ & Hb & Ha).
    unfold is_due. rewrite Ha. cbn [is_none andb]. split; intros; [apply Z.leb_gt|apply Z.leb_le]; lia. }
  intros now later s' [->| ->]; apply Hn; unfold sat_add8; lia.
Qed.
End schedule.

Section health.
Context `{UuidLib} `{!HashOrder}.
Implicit Types (h : EndpointHealthTable) (configured : list (NetworkId * SocketAddr)).

(** Which networks the requirement map records for an endpoint. *)
Definition requires (m : gmap SocketAddr (list NetworkId)) (e : SocketAddr) (n : NetworkId) : Prop :=
  ∃ l, m !! e = Some l ∧ n ∈ l.
Lemma requires_empty e n : ¬ requires ∅ e n.
Proof. intros (l & Hl & _). by rewrite lookup_empty in Hl. Qed.
Lemma add_requirement_requires m n' e' e n :
  requires (add_requirement m (n', e')) e n ↔ requires m e n ∨ (n, e) = (n', e').
Proof.
  unfold requires, add_requirement. cbn. split.
  - intros (l & [[<- <-]|[Hne Hl]]%lookup_insert_Some & Hn); [|left; eauto].
    destruct (m !! e') as [l0|] eqn:He; cbn in Hn.
    + case_match; [left; eauto|]. apply elem_of_app in Hn as [?| ->%list_elem_of_singleton]; eauto.
    + case_match eqn:Hc; [by apply elem_of_nil in Hn|]. cbn in Hn.
      apply list_elem_of_singleton in Hn as ->. by right.
  - intros [(l & Hl & Hn)|[= -> ->]].
    + destruct (decide (e = e')) as [->|Hne].
      * eexists. rewrite lookup_insert_eq. split; [done|]. rewrite Hl. cbn.
        case_match; [done|]. apply elem_of_app. by left.
      * exists l. by rewrite lookup_insert_ne.
    + eexists. rewrite lookup_insert_eq. split; [done|].
      case_match eqn:Hc; [by apply contains_true in Hc|]. apply elem_of_app. right. by left.
Qed.
Lemma foldl_requires configured m e n :
  requires (foldl add_requirement m configured) e n ↔ requires m e n ∨ (n, e) ∈ configured.
Proof.
  revert m. induction configured as [|[n' e'] configured IH]; intros m; cbn [foldl].
  - rewrite elem_of_nil. tauto.
  - rewrite IH, add_requirement_requires, elem_of_cons. tauto.
Qed.
Lemma requirements_nonempty configured e l :
  foldl add_requirement ∅ configured !! e = Some l → ∃ n, (n, e) ∈ configured.
Proof.
  assert (∀ m, (∀ e l, m !! e = Some l → ∃ n, requires m e n) →
    ∀ e l, foldl add_requirement m configured !! e = Some l →
      ∃ n, requires (foldl add_requirement m configured) e n) as Hgen.
  { induction configured as [|[n' e'] configured IH]; intros m Hm; cbn [foldl]; [intros; by eapply Hm|].
    apply IH. intros e0 l0 Hl0. unfold add_requirement in Hl0. cbn in Hl0.
    apply lookup_insert_Some in Hl0 as [[<- _]|[Hne Hl]].
    - exists n'. apply add_requirement_requires. by right.
    - destruct (Hm _ _ Hl) as [n Hn]. exists n. apply add_requirement_requires. by left. }
  intros Hl. destruct (Hgen ∅ ltac:(intros ??; by rewrite lookup_empty) _ _ Hl) as [n Hn]. exists n.
  apply foldl_requires in Hn as [Hn|?]; [by destruct (requires_empty e n)|done].
Qed.
Lemma elem_of_aggregate configured f e :
  e ∈ aggregate_configured_endpoints configured f
  ↔ (∃ n, (n, e) ∈ configured) ∧ ∀ n, (n, e) ∈ configured → f n e = true.
Proof.
  unfold aggregate_configured_endpoints. rewrite list_elem_of_omap. split.
  - intros ([e' l] & Hl%elem_of_hash_iter & Hf). case_match eqn:Ha; [|done]. injection Hf as ->.
    split; [by eapply requirements_nonempty|]. intros n Hn.
    destruct (proj2 (foldl_requires configured ∅ e n) (or_intror Hn)) as (l' & Hl' & Hin).
    assert (l' = l) as -> by congruence. by apply (proj1 (forallb_elem _ _) Ha).
  - intros [[n Hn] Hall].
    destruct (proj2 (foldl_requires configured ∅ e n) (or_intror Hn)) as (l & Hl & _).
    exists (e, l). split; [by apply elem_of_hash_iter|].
    rewrite (proj2 (forallb_elem _ _)); [done|]. intros n' Hn'. apply Hall.
    destruct (proj1 (foldl_requires configured ∅ e n')) as [Hn''|?];
      [by exists l|by destruct (requires_empty e n')|done].
Qed.

Lemma select_relay_endpoint_Some n relays h now require e :
  select_relay_endpoint n relays h now require = Some e ↔
    (∃ l1 l2, relays = l1 ++ e :: l2 ∧ relay_is_healthy h n e now = true
       ∧ ∀ x, x ∈ l1 → relay_is_healthy h n x now = false)
    ∨ (∀ x, x ∈ relays → relay_is_healthy h n x now = false)
      ∧ require = false ∧ head relays = Some e.
Proof.
  unfold select_relay_endpoint.
  pose proof (find_first_Some (λ x, relay_is_healthy h n x now) relays e) as Hfirst. cbn in Hfirst.
  rewrite <-Hfirst.
  destruct (List.find _ relays) as [e'|] eqn:Hf.
  - split; [by left|]. intros [?|(Hx & _)]; [done|].
    apply List.find_some in Hf as [Hin%list_elem_of_In Hh]. by rewrite Hx in Hh.
  - assert (∀ x, x ∈ relays → relay_is_healthy h n x now = false) as Hx.
    { intros x Hin%list_elem_of_In. by apply (List.find_none _ _ Hf). }
    split.
    + destruct require; [done|]. intros Hh. right. done.
    + intros [?|(_ & -> & ?)]; done.
Qed.

(** endpoint health is per network.  An endpoint is reported healthy exactly
    when it is configured and every network that uses it has heard an
    acknowledgement from it within 45 seconds; the relay chosen for a network is
    the first configured one that is healthy for this network, and otherwise the
    first configured one unless authenticated health is required; and an
    acknowledgement for one network says nothing about any other. *)
Theorem endpoint_health_scoped h configured (n n' : NetworkId) relays (e : SocketAddr) now require :
  (e ∈ healthy_relay_endpoints h configured now
   ↔ (∃ n, (n, e) ∈ configured)
     ∧ ∀ n, (n, e) ∈ configured → relay_is_healthy h n e now = true)
  ∧ (select_relay_endpoint n relays h now require = Some e ↔
      (∃ l1 l2, relays = l1 ++ e :: l2 ∧ relay_is_healthy h n e now = true
         ∧ ∀ x, x ∈ l1 → relay_is_healthy h n x now = false)
      ∨ (∀ x, x ∈ relays → relay_is_healthy h n x now = false)
        ∧ require = false ∧ head relays = Some e)
  ∧ (n' ≠ n → ∀ x later, relay_is_healthy (mark_relay_acknowledged h n e now) n' x later
                           = relay_is_healthy h n' x later).
Proof.
  split_and!.
  - apply elem_of_aggregate.
  - apply select_relay_endpoint_Some.
  - intros Hne x later. unfold relay_is_healthy, mark_relay_acknowledged. cbn.
    by rewrite lookup_insert_ne by congruence.
Qed.
End health.

Lemma registration_backoff_witness :
  let s := schedule_new bob (mkRegistrationTarget net_a sample_remote ServiceRelay) 0 in
  is_due (mark_send_failure s 5) (5 + secs 19) = false
  ∧ is_due (mark_send_failure s 5) (5 + secs 120) = true.
Proof.
  intros s. destruct (registration_backoff s) as (_ & _ & _ & Hs); [apply schedule_start|].
  destruct (Hs 5 (5 + secs 19) _ (or_introl eq_refl)) as [H1 _].
  destruct (Hs 5 (5 + secs 120) _ (or_introl eq_refl)) as [_ H2].
  split; [apply H1; reflexivity|apply H2; vm_compute; discriminate].
Defined.

(** ** Session observability *)
Section trim.
Context `{UuidLib} `{HashOrder}.
Implicit Types (m : gmap (NetworkId * DeviceId) StoredObservation) (now : Z).

Definition age now (o : StoredObservation) : Z := duration_since now (so_recorded_at o).
(** [r] keeps the youngest entries of [m], as many as the bound allows. *)
Record trimmed now m r : Prop := {
  tr_subset : r ⊆ m;
  tr_size : Z.of_nat (size r) = Z.min (Z.of_nat (size m)) MAX_EXPIRED_OBSERVATIONS;
  tr_oldest k o k' o' : m !! k = Some o → r !! k = None → r !! k' = Some o' → age now o' ≤ age now o;
}.
Lemma trim_loop_trimmed fuel now m :
  (size m ≤ fuel)%nat → trimmed now m (trim_expired_loop fuel now m).
Proof.
  revert m. induction fuel as [|fuel IH]; intros m Hf; cbn [trim_expired_loop].
  - split; [done| |congruence]. unfold MAX_EXPIRED_OBSERVATIONS. lia.
  - destruct (MAX_EXPIRED_OBSERVATIONS <? Z.of_nat (size m)) eqn:Hlt; cycle 1.
    { apply Z.ltb_ge in Hlt. split; [done|lia|congruence]. }
    apply Z.ltb_lt in Hlt. destruct (max_by_key _ _) as [[oldest o]|] eqn:Hmax; cycle 1.
    { apply max_by_key_None in Hmax. pose proof (length_hash_iter m) as Hl. rewrite Hmax in Hl.
      unfold MAX_EXPIRED_OBSERVATIONS in *. cbn in Hl. lia. }
    apply max_by_key_Some in Hmax as [Hin%elem_of_hash_iter Hmax].
    assert (size (delete oldest m) = pred (size m)) as Hsize by (by eapply map_size_delete_Some).
    destruct (IH (delete oldest m)) as [Hsub Hs Hold]; [lia|]. split.
    + etrans; [done|]. apply delete_subseteq.
    + unfold MAX_EXPIRED_OBSERVATIONS in *. lia.
    + intros k ok k' ok' Hk Hr Hk'. destruct (decide (k = oldest)) as [->|Hne].
      * assert (m !! k' = Some ok') as Hm.
        { eapply lookup_weaken in Hk'; [|done]. by apply lookup_delete_Some in Hk' as [_ ?]. }
        apply elem_of_hash_iter in Hm. specialize (Hmax _ Hm). cbn in Hmax.
        replace ok with o by congruence. done.
      * eapply Hold; [|done|done]. by rewrite lookup_delete_ne.
Qed.

(** the eviction loop ends and keeps the youngest.  For every table of expired
    observations the loop leaves at most 256 of them (all of them if there are no
    more), each with its data, and none it removed is younger than one it kept. *)
Theorem trim_keeps_youngest now m :
  let r := trim_expired now m in
  r ⊆ m ∧ Z.of_nat (size r) = Z.min (Z.of_nat (size m)) 256
  ∧ ∀ k o k' o', m !! k = Some o → r !! k = None → r !! k' = Some o' →
      duration_since now (so_recorded_at o') ≤ duration_since now (so_recorded_at o).
Proof. destruct (trim_loop_trimmed (size m) now m) as [? ? Ho]; [lia|]. split_and!; [done|done|exact Ho]. Qed.
End trim.

(** ** Reachable records *)
Section reachable.
Context `{UuidLib} `{HashOrder}.

Inductive obs_step : ObservationState → ObservationState → Prop :=
| obs_step_reset s revision : obs_step s (obs_reset revision)
| obs_step_clear s revision : obs_step s (clear_if_revision s revision)
| obs_step_publish s revision key telemetry now : obs_step s (publish s revision key telemetry now)
| obs_step_expire s revision key now : obs_step s (expire s revision key now)
| obs_step_remove s revision key : obs_step s (obs_remove s revision key)
| obs_step_snapshot s now unix_ms : obs_step s (snapshot s now unix_ms).1.

Definition is_tombstone (o : StoredObservation) : Prop :=
  tel_state (so_telemetry o) = SessionState.Expired
  ∧ qc_queued_packets (tel_queue (so_telemetry o)) = 0.
Record obs_inv (s : ObservationState) : Prop := {
  oi_disjoint : obs_active s ##ₘ obs_expired s;
  oi_bound : Z.of_nat (size (obs_expired s)) ≤ MAX_EXPIRED_OBSERVATIONS;
  oi_tombstones key o : obs_expired s !! key = Some o → is_tombstone o;
}.
Lemma obs_empty_inv revision : obs_inv (mkObservationState revision ∅ ∅).
Proof.
  split; cbn; [apply map_disjoint_empty_r|by vm_compute|].
  intros key o. by rewrite lookup_empty.
Qed.
(** Fewer expired entries and keys that are not active keep the invariant. *)
Lemma obs_shrink_inv revision active expired active' expired' :
  obs_inv (mkObservationState revision active expired) →
  active' ⊆ active → expired' ⊆ expired → obs_inv (mkObservationState revision active' expired').
Proof.
  intros [Hd Hb Ht] Ha He. cbn in *. split; cbn.
  - eapply map_disjoint_weaken; done.
  - apply map_subseteq_size in He. lia.
  - intros key o Hk. eapply Ht, lookup_weaken; done.
Qed.
Lemma obs_step_inv s s' : obs_step s s' → obs_inv s → obs_inv s'.
Proof.
  intros [s0 r|s0 r|s0 r key t now|s0 r key now|s0 r key|s0 now ms] Hinv; destruct s0 as [rev act expd].
  - apply obs_empty_inv.
  - unfold clear_if_revision. case_match; [apply obs_empty_inv|done].
  - unfold publish. destruct (negb _); [done|]. destruct Hinv as [Hd Hb Ht]. cbn in *. split; cbn.
    + apply map_disjoint_insert_l. split; [by rewrite lookup_delete_eq|].
      eapply map_disjoint_weaken_r; [done|]. apply delete_subseteq.
    + assert (delete key expd ⊆ expd) as Hsub%map_subseteq_size by apply delete_subseteq. lia.
    + intros k o [_ Hk]%lookup_delete_Some. eauto.
  - unfold expire. destruct (negb _); [done|]. cbn. destruct (act !! key) as [o|] eqn:Hk; [|done].
    destruct Hinv as [Hd Hb Ht]. cbn in *.
    destruct (trim_loop_trimmed (size (<[key := tombstone o now]> expd)) now
      (<[key := tombstone o now]> expd)) as [Hsub Hsize _]; [lia|]. split; cbn.
    + eapply map_disjoint_weaken_r; [|exact Hsub]. apply map_disjoint_insert_r.
      split; [by rewrite lookup_delete_eq|]. eapply map_disjoint_weaken_l; [done|]. apply delete_subseteq.
    + unfold trim_expired. lia.
    + intros k o' Hk'. eapply lookup_weaken in Hk'; [|exact Hsub].
      apply lookup_insert_Some in Hk' as [[_ <-]|[_ Hk']]; [done|eauto].
  - unfold obs_remove. destruct (negb _); [done|].
    eapply obs_shrink_inv; [done|apply delete_subseteq..].
  - unfold snapshot. cbn. eapply obs_shrink_inv; [done|done|]. apply retain_subseteq.
Qed.

Lemma obs_reachable_inv s : rtc obs_step ObservationState_default s → obs_inv s.
Proof.
  intros Hr. remember ObservationState_default as s0 eqn:Hs0.
  assert (obs_inv s0) as Hinv by (subst; apply obs_empty_inv). clear Hs0.
  induction Hr; [done|]. eauto using obs_step_inv.
Qed.
End reachable.

(** ** The list the local API reports *)
Section listing.
Context `{UuidLaws} `{HashOrder}.

Definition observation_key (o : SessionObservation) : NetworkId * DeviceId :=
  (sob_network_id o, sob_peer_device_id o).
Lemma session_le_total a b : session_le a b = true ∨ session_le b a = true.
Proof.
  unfold session_le. destruct (decide (sob_network_id a = sob_network_id b)) as [->|Hne].
  - rewrite bool_decide_eq_true_2 by done. apply uuid_le_total.
  - rewrite !bool_decide_eq_false_2 by done. apply uuid_le_total.
Qed.
Lemma session_le_trans a b c :
  session_le a b = true → session_le b c = true → session_le a c = true.
Proof.
  unfold session_le.
  destruct (decide (sob_network_id a = sob_network_id b)) as [E1|E1],
    (decide (sob_network_id b = sob_network_id c)) as [E2|E2].
  - rewrite !bool_decide_eq_true_2 by congruence. apply uuid_le_trans.
  - rewrite E1, bool_decide_eq_true_2, !bool_decide_eq_false_2 by congruence. done.
  - rewrite <-E2, !bool_decide_eq_false_2, bool_decide_eq_true_2 by congruence. done.
  - rewrite !(bool_decide_eq_false_2 (_ = _)) by done. intros Hab Hbc.
    rewrite bool_decide_eq_false_2; [by eapply uuid_le_trans|]. intros E3. apply E1.
    rewrite <-E3 in Hbc. destruct (sob_network_id a), (sob_network_id b). f_equal.
    by apply uuid_le_antisym.
Qed.

Lemma snapshot_keys_NoDup (now : Z) (active expired kept : gmap (NetworkId * DeviceId) StoredObservation) :
  active ##ₘ expired → kept ⊆ expired →
  NoDup (map observation_key (sort_by session_le
    (map (session_observation now) (hash_iter active ++ hash_iter kept)))).
Proof.
  intros Hd Hsub. rewrite sort_by_perm, map_map.
  assert (map (λ kv, observation_key (session_observation now kv)) (hash_iter active ++ hash_iter kept)
    = (hash_iter active).*1 ++ (hash_iter kept).*1) as ->.
  { rewrite <-fmap_app. apply map_ext. by intros [[n d] o]. }
  apply NoDup_app. split_and!; [apply NoDup_hash_iter| |apply NoDup_hash_iter].
  intros key [o Ha]%elem_of_hash_keys [o' Hk]%elem_of_hash_keys.
  eapply lookup_weaken in Hk; [|exact Hsub]. by eapply map_disjoint_spec in Hk.
Qed.

(** the session list is bounded, separated and ordered.  Whatever sequence of
    publications, expiries, removals, resets and snapshots led to the record, the
    expired observations are at most 256, all of them tombstones (state expired, no
    queued packet) of peers that are not active; a snapshot lists exactly the active
    ones and the expired ones of the last 300 seconds, each peer once, in the order
    of network and device. *)
Theorem observations_bounded s now unix_ms :
  rtc obs_step ObservationState_default s →
  let l := sl_sessions (snapshot s now unix_ms).2 in
  Z.of_nat (size (obs_expired s)) ≤ 256
  ∧ (∀ key o, obs_expired s !! key = Some o → is_tombstone o ∧ obs_active s !! key = None)
  ∧ NoDup (map observation_key l)
  ∧ StronglySorted (le_rel session_le) l
  ∧ ∀ x, x ∈ l ↔ ∃ key o, x = session_observation now (key, o)
      ∧ (obs_active s !! key = Some o
         ∨ obs_expired s !! key = Some o ∧ duration_since now (so_recorded_at o) ≤ secs 300).
Proof.
  intros [Hd Hb Ht]%obs_reachable_inv l. split; [done|]. split.
  { intros key o Hk. split; [eauto|]. by eapply map_disjoint_Some_r. }
  assert (∀ x, x ∈ l ↔ ∃ kv, x = session_observation now kv
    ∧ kv ∈ hash_iter (obs_active s) ++ hash_iter (retain (λ _ o,
        duration_since now (so_recorded_at o) <=? EXPIRED_OBSERVATION_TTL) (obs_expired s))) as Hl.
  { intros x. subst l. cbn [snapshot snd sl_sessions]. rewrite elem_of_sort_by, list_elem_of_fmap. naive_solver. }
  split_and!.
  - subst l. cbn [snapshot snd sl_sessions]. apply (snapshot_keys_NoDup now _ (obs_expired s)); [done|]. apply retain_subseteq.
  - subst l. cbn [snapshot snd sl_sessions]. apply sort_by_StronglySorted.
    + apply session_le_total.
    + apply session_le_trans.
  - intros x. rewrite Hl. split.
    + intros ([key o] & -> & [Hk%elem_of_hash_iter|Hk%elem_of_hash_iter]%elem_of_app); exists key, o.
      * by split; [|left].
      * apply lookup_retain in Hk as [Hk ?%Z.leb_le]. by split; [|right].
    + intros (key & o & -> & [Hk|[Hk Hle]]); exists (key, o); (split; [done|]); apply elem_of_app.
      * left. by apply elem_of_hash_iter.
      * right. apply elem_of_hash_iter, lookup_retain. split; [done|]. by apply Z.leb_le.
Qed.
End listing.

(** ** Witness: one session that expired, one that is active *)
Definition sample_telemetry : SessionTelemetry :=
  mkSessionTelemetry SessionState.Established SessionPath.Direct 0 (mkSessionQueueCounters 0 8 0)
    (mkSessionSecurityCounters 1 0 5 5 0).
Definition sample_observed : ObservationState :=
  publish (expire (publish (obs_reset 3) 3 (net_a, alice) sample_telemetry 10) 3 (net_a, alice) 20)
    3 (net_a, bob) sample_telemetry 30.
Lemma observations_bounded_witness :
  length (sl_sessions (snapshot sample_observed 40 1).2) = 2%nat
  ∧ Z.of_nat (size (obs_expired sample_observed)) ≤ 256.
Proof.
  split; [vm_compute; reflexivity|].
  refine (proj1 (observations_bounded sample_observed 40 1 _)).
  eapply rtc_l; [apply (obs_step_reset _ 3)|].
  eapply rtc_l; [apply (obs_step_publish _ 3 (net_a, alice) sample_telemetry 10)|].
  eapply rtc_l; [apply (obs_step_expire _ 3 (net_a, alice) 20)|].
  apply rtc_once, (obs_step_publish _ 3 (net_a, bob) sample_telemetry 30).
Defined.
