(* ===== verification/RelayFacts.v ===== *)
(** * Correctness of the relay server *)
From S2P Require Import Prelude Net Text Ext Concrete Model ServiceIdentity Membership.
From S2P Require Import Authorization RelayProto Session RootProto RelayServer Policy Samples.
From S2P Require Import RootFacts.
#[local] Open Scope Z_scope.

(** ** Candidates *)
Section candidates.
(** An observed endpoint first, at most sixteen distinct candidates, all on
    the observed address. *)
Record candidates_ok (observed : SocketAddr) (l : list SocketAddr) : Prop := {
  co_head : head l = Some observed;
  co_length : len l ≤ MAX_CANDIDATES_PER_PEER;
  co_distinct : NoDup l;
  co_address : Forall (λ c, socket_ip c = socket_ip observed) l;
  co_valid : Forall (λ c, c = observed ∨ valid_candidate c = true) l;
}.
Lemma accept_candidates_into_ok observed l advertised :
  candidates_ok observed l → len l < MAX_CANDIDATES_PER_PEER →
  candidates_ok observed (accept_candidates_into observed l advertised).
Proof.
  revert l. induction advertised as [|c advertised IH]; intros l Hl Hlen; cbn; [done|].
  destruct (_ && _) eqn:Hc; [|by apply IH].
  rewrite !andb_true_iff, bool_decide_eq_true, negb_true_iff, contains_false in Hc.
  destruct Hc as [[Hip Hv] Hnew].
  assert (candidates_ok observed (l ++ [c])) as Hok.
  { destruct Hl as [Hh Hm Hd Ha Hvs]. split.
    - by destruct l.
    - rewrite len_app, len_cons, len_nil. lia.
    - apply NoDup_app. split_and!; [done| |apply NoDup_singleton].
      intros x Hx ->%list_elem_of_singleton. done.
    - apply Forall_app. split; [done|]. by apply Forall_singleton.
    - apply Forall_app. split; [done|]. apply Forall_singleton. by right. }
  case_match eqn:Hfull; [done|]. apply IH; [done|].
  apply Z.eqb_neq in Hfull. pose proof (co_length _ _ Hok). lia.
Qed.
Lemma accepted_candidates_ok observed advertised :
  candidates_ok observed (accepted_candidates observed advertised).
Proof.
  apply accept_candidates_into_ok; [|done].
  split; [done|done|apply NoDup_singleton|by apply Forall_singleton|].
  apply Forall_singleton. by left.
Qed.
End candidates.

(** ** The invariant *)
Section relay_invariant.
Context `{UuidLib} `{Ed25519} `{HashOrder} `{!MembershipSerde} `{!AuthorizationSerde}
  `{!RootSerde} `{!RelaySerde} `{!RelayServerSerde}.
Implicit Types (s : RelayState) (p : PeerRecord) (k : NetworkId * DeviceId).

(** The peer proved a membership that the trusted controller issued, under a
    manifest whose expiry the record keeps. *)
Definition member_authorized (trusted : bytes) k (c : MembershipCertificate) (expires : Z)
    : Prop :=
  k = (mc_network_id (cert_claims c), mc_device_id (cert_claims c))
  ∧ ∃ t m, certificate_valid trusted t c ∧ manifest_valid trusted t m ∧ authorized m c
      ∧ auth_expires_at m = expires.

Record peer_ok (trusted : bytes) k p : Prop := {
  po_member : member_authorized trusted k (pr_certificate p) (pr_authorization_expires_at p);
  po_candidates : candidates_ok (pr_endpoint p) (pr_candidates p);
  po_addresses : pr_assigned_addresses p = authorized_addresses (pr_certificate p);
}.

(** No two members of a network hold the same virtual address. *)
Definition addresses_exclusive (peers : gmap (NetworkId * DeviceId) PeerRecord) : Prop :=
  ∀ k1 p1 k2 p2, peers !! k1 = Some p1 → peers !! k2 = Some p2 → k1.1 = k2.1 → k1 ≠ k2 →
  ∀ a, a ∈ pr_assigned_addresses p1 → a ∉ pr_assigned_addresses p2.

Record relay_inv (trusted : bytes) s : Prop := {
  ri_exclusive : addresses_exclusive (rs_peers s);
  ri_peers : ∀ k p, rs_peers s !! k = Some p → peer_ok trusted k p;
  ri_hints : ∀ n h, rs_authorization_hints s !! n = Some h →
    hint_network_id h = n ∧ hint_controller_public_key h = trusted;
}.

Lemma authorized_addresses_spec c a :
  a ∈ authorized_addresses c →
  a ∈ mc_assigned_addresses (cert_claims c)
  ∧ ip_is_unspecified a = false ∧ ip_is_multicast a = false.
Proof.
  intros Ha%elem_of_take. destruct Ha as (i & Hi & _).
  apply list_elem_of_lookup_2 in Hi.
  rewrite elem_of_dedup, elem_of_sort_by, elem_of_list_filter in Hi.
  by rewrite andb_true_iff, !negb_true_iff in Hi.
Qed.

Lemma has_address_conflict_false peers k addresses :
  has_address_conflict peers k addresses = false ↔
  ∀ k' p, peers !! k' = Some p → k'.1 = k.1 → k'.2 ≠ k.2 →
    ∀ a, a ∈ pr_assigned_addresses p → a ∉ addresses.
Proof.
  unfold has_address_conflict. rewrite <-not_true_iff_false, existsb_hash_iter. split.
  - intros Hn k' p Hp Hk Hd a Ha Hin. apply Hn. exists k', p. split; [done|].
    rewrite !andb_true_iff, !bool_decide_eq_true. split; [done|].
    apply existsb_elem. exists a. by rewrite contains_true.
  - intros Hall (k' & p & Hp & Hc).
    rewrite !andb_true_iff, !bool_decide_eq_true, existsb_elem in Hc.
    destruct Hc as [[Hk Hd] (a & Ha & Hin)]. rewrite contains_true in Hin.
    by apply (Hall k' p Hp Hk Hd a).
Qed.

(** What a parsed registration proves about the member it registers. *)
Lemma registration_check_Ok r trusted id legacy now u :
  registration_check r trusted id legacy now = Ok u →
  ∃ target, membership_valid [trusted] now 120 target r
    ∧ authorization_set_valid [trusted] now true r.
Proof.
  unfold registration_check. intros Hc.
  case_match; [case_match; [|done]|case_match; [|done]].
  - apply bind_Ok in Hc as (? & Hm & Ha). eexists.
    split; [by eapply verify_membership_Ok|by eapply verify_authorization_set_Ok].
  - apply verify_authorized_for_service_Ok in Hc. eauto.
Qed.

Lemma parse_signed_registration_Some bs trusted id legacy now a :
  parse_signed_registration bs trusted id legacy now = Some a →
  ∃ r, from_slice bs = Some r ∧ rrp_certificates (reg_payload r) = [ar_certificate a]
    ∧ rrp_nonce (reg_payload r) = ar_nonce a
    ∧ registration_check r trusted id legacy now = Ok tt
    ∧ member_authorized trusted (ar_key a) (ar_certificate a) (ar_authorization_expires_at a)
    ∧ ∀ h, ar_authorization_hint a = Some h →
        hint_network_id h = (ar_key a).1 ∧ hint_controller_public_key h = trusted.
Proof.
  unfold parse_signed_registration. intros Hp.
  apply bind_Some in Hp as (r & Hr & Hp). apply bind_Some in Hp as ([] & Hc%ok_Some & Hp).
  destruct (rrp_certificates (reg_payload r)) as [|c [|]] eqn:Hcs; [done| |done].
  apply bind_Some in Hp as (m & Hm & Hp). case_bool_decide as Hd; [|done]. simplify_eq. cbn.
  apply List.find_some in Hm as [Hin Hn]. apply bool_decide_eq_true in Hn.
  rewrite <-list_elem_of_In in Hin.
  destruct (registration_check_Ok _ _ _ _ _ _ Hc) as (target & Hmem & Hset).
  pose proof (rm_certificates _ _ _ _ _ Hmem) as Hcert. rewrite Hcs in Hcert.
  apply Forall_singleton in Hcert as [_ _ (key & ->%list_elem_of_singleton & Hcv)].
  destruct (as_matches _ _ _ _ Hset m Hin) as ((key & ->%list_elem_of_singleton & Hmv)
    & c' & Hc' & Haz & _). rewrite Hcs in Hc'. apply list_elem_of_singleton in Hc' as ->.
  exists r. split_and!; try done.
  - split; [done|]. by exists now, m.
  - intros h Hh. destruct (mv_hint _ _ _ Hmv h Hh) as ([] & ? & _). split; congruence.
Qed.

(** The three outcomes of an authenticated registration. *)
Lemma handle_registration_cases identity s a remote now instant s' out :
  handle_registration identity s a remote now instant = Some (s', out) →
  let k := ar_key a in
  let p := mkPeerRecord remote (accepted_candidates remote (ar_candidates a))
    (authorized_addresses (ar_certificate a)) (ar_certificate a)
    (ar_authorization_expires_at a) instant in
  rs_seen_nonces s' !! (k.1, k.2, ar_nonce a) = Some instant
  ∧ (rs_peers s' = rs_peers s ∧ rs_authorization_hints s' = rs_authorization_hints s ∧ out = []
     ∨ has_address_conflict (rs_peers s) k (authorized_addresses (ar_certificate a)) = false
       ∧ rs_peers s' = <[k := p]> (rs_peers s)
       ∧ rs_authorization_hints s'
         = remember_hint (rs_authorization_hints s) k.1 (ar_authorization_hint a)
       ∧ ∀ target bs, (target, bs) ∈ out → target = remote
           ∨ ∃ k' q, rs_peers s !! k' = Some q ∧ k'.1 = k.1 ∧ k' ≠ k ∧ target = pr_endpoint q).
Proof.
  unfold handle_registration. cbn zeta. case_match eqn:Hrep.
  { intros [= <- <-]. cbn. rewrite lookup_insert_eq. auto. }
  case_match eqn:Hconf.
  { intros [= <- <-]. cbn. rewrite lookup_insert_eq. auto. }
  intros Hh. apply bind_Some in Hh as (ack & _ & Hh).
  apply bind_Some in Hh as (ids & Hids & Hh). simplify_eq. cbn.
  rewrite lookup_insert_eq. split; [done|]. right. split_and!; try done.
  intros target bs Hin.
  assert (∀ k' q, (k', q) ∈ List.filter
    (λ kv, bool_decide (kv.1.1 = (ar_key a).1) && bool_decide (kv.1 ≠ ar_key a))
    (hash_iter (rs_peers s)) → rs_peers s !! k' = Some q ∧ k'.1 = (ar_key a).1 ∧ k' ≠ ar_key a)
    as Hex.
  { intros k' q [Hf Hb]%elem_of_list_filter. rewrite elem_of_hash_iter in Hf. cbn in Hb.
    by rewrite andb_true_iff, !bool_decide_eq_true in Hb. }
  apply elem_of_cons in Hin as [[= -> _]|Hin]; [by left|].
  apply elem_of_app in Hin as [Hin|Hin].
  - unfold registration_candidate_fanout in Hin.
    apply elem_of_concat in Hin as (l & Hl & Hin).
    apply list_elem_of_fmap in Hl as ([k' q] & -> & Hkq). apply Hex in Hkq.
    case_match; [by apply elem_of_nil in Hin|].
    apply elem_of_app in Hin as [Hin|Hin]; apply list_elem_of_fmap in Hin as (c & [= -> _] & _).
    + right. exists k', q. naive_solver.
    + by left.
  - unfold identity_announcements in Hids. apply bind_Some in Hids as (ps & Hps & [= <-]).
    apply mapM_Some in Hps.
    apply elem_of_concat in Hin as (l & Hl & Hin).
    destruct (Forall2_elem_r _ _ _ _ Hps Hl) as ([k' q] & Hkq & Hl'). apply Hex in Hkq.
    apply bind_Some in Hl' as (m1 & _ & Hl'). apply bind_Some in Hl' as (m2 & _ & [= <-]).
    apply elem_of_cons in Hin as [[= -> _]|Hin].
    + right. exists k', q. naive_solver.
    + apply list_elem_of_singleton in Hin as [= -> _]. by left.
Qed.

(** *** Preservation *)
Lemma prune_lookup s now instant k p :
  rs_peers (prune s now instant) !! k = Some p →
  rs_peers s !! k = Some p ∧ duration_since instant (pr_last_seen p) ≤ PEER_TTL
  ∧ now ≤ pr_authorization_expires_at p.
Proof. cbn. rewrite lookup_retain, andb_true_iff, !Z.leb_le. done. Qed.

Lemma prune_inv trusted s now instant : relay_inv trusted s → relay_inv trusted (prune s now instant).
Proof.
  intros [He Hp Hh]. split.
  - intros k1 p1 k2 p2 (? & _)%prune_lookup (? & _)%prune_lookup. by apply (He k1 p1 k2 p2).
  - intros k p (? & _)%prune_lookup. by apply Hp.
  - intros n h. cbn. rewrite lookup_retain. intros [? _]. by apply Hh.
Qed.

Lemma exclusive_insert peers k p :
  addresses_exclusive peers →
  has_address_conflict peers k (pr_assigned_addresses p) = false →
  addresses_exclusive (<[k := p]> peers).
Proof.
  rewrite has_address_conflict_false. intros He Hc k1 p1 k2 p2 Hl1 Hl2 Hk Hne a Ha1 Ha2.
  rewrite lookup_insert_Some in Hl1. rewrite lookup_insert_Some in Hl2.
  assert (∀ k', k'.1 = k.1 → k' ≠ k → k'.2 ≠ k.2) as Hdev.
  { intros [n1 d1] Hn Hx E. destruct k as [n2 d2]. cbn in *. congruence. }
  destruct Hl1 as [[<- <-]|[Hk1 Hl1]], Hl2 as [[<- <-]|[Hk2 Hl2]]; [done| | |].
  - apply (Hc k2 p2 Hl2 (eq_sym Hk) (Hdev k2 (eq_sym Hk) (not_eq_sym Hne)) a Ha2 Ha1).
  - apply (Hc k1 p1 Hl1 Hk (Hdev k1 Hk Hne) a Ha1 Ha2).
  - by apply (He k1 p1 k2 p2 Hl1 Hl2 Hk Hne a).
Qed.

Lemma remember_hint_Some hints n h n' h' :
  remember_hint hints n h !! n' = Some h' →
  hints !! n' = Some h' ∨ n' = n ∧ h = Some h'.
Proof.
  unfold remember_hint. destruct h as [h|]; [|by left]. case_match; [|by left].
  rewrite lookup_insert_Some. intros [[-> ->]|[_ ?]]; auto.
Qed.

Lemma handle_registration_inv trusted identity s a remote now instant s' out :
  relay_inv trusted s →
  member_authorized trusted (ar_key a) (ar_certificate a) (ar_authorization_expires_at a) →
  (∀ h, ar_authorization_hint a = Some h →
     hint_network_id h = (ar_key a).1 ∧ hint_controller_public_key h = trusted) →
  handle_registration identity s a remote now instant = Some (s', out) →
  relay_inv trusted s'.
Proof.
  intros [He Hp Hh] Hm Hhint [_ Hc]%handle_registration_cases.
  destruct Hc as [(E1 & E2 & _)|(Hconf & E1 & E2 & _)]; split; rewrite ?E1, ?E2; try done.
  - by apply exclusive_insert.
  - intros k p. rewrite lookup_insert_Some. intros [[<- <-]|[_ Hk]]; [|by apply Hp].
    split; [done|apply accepted_candidates_ok|done].
  - intros n h [?|[-> ?]]%remember_hint_Some; [by apply Hh|by apply Hhint].
Qed.

Lemma receive_inv trusted identity legacy s remote packet now instant s' out :
  relay_inv trusted s →
  receive trusted identity legacy s remote packet now instant = Some (s', out) →
  relay_inv trusted s'.
Proof.
  intros Hs. unfold receive. case_match; [by intros [= <- _]|].
  unfold handle_packet. apply prune_inv with (now := now) (instant := instant) in Hs.
  case_match.
  { destruct (parse_signed_registration _ _ _ _ _) as [a|] eqn:Ha; [|by intros [= <- _]].
    apply parse_signed_registration_Some in Ha as (r & _ & _ & _ & _ & Hm & Hh).
    by eapply handle_registration_inv. }
  repeat case_match; by intros [= <- _].
Qed.

Lemma relay_inv_new trusted : relay_inv trusted RelayState_new.
Proof.
  split; cbn; [by intros ????; rewrite lookup_empty|intros ??; by rewrite lookup_empty..].
Qed.

Lemma relay_reachable_inv trusted identity legacy s :
  relay_reachable trusted identity legacy s → relay_inv trusted s.
Proof.
  induction 1 as [|s e s' out _ IH Hstep]; [apply relay_inv_new|].
  destruct Hstep as [s e s' out Hr]. by eapply receive_inv.
Qed.

(** *** Forwarding *)
Lemma relay_targets_spec peers n src dst target :
  target ∈ relay_targets peers (n, src) dst →
  ∃ d q, peers !! (n, d) = Some q ∧ target = pr_endpoint q
    ∧ (is_nil (device_uuid dst) = true ∧ d ≠ src ∨ is_nil (device_uuid dst) = false ∧ d = dst).
Proof.
  unfold relay_targets. case_match eqn:Hnil.
  - intros ([[n' d] q] & Hin & Ht)%list_elem_of_omap. rewrite elem_of_hash_iter in Hin.
    case_match eqn:Hc; [|done]. simplify_eq.
    rewrite andb_true_iff, !bool_decide_eq_true in Hc. destruct Hc as [Hn Hne]. cbn in Hn. subst.
    exists d, q. split_and!; [done|done|]. left. split; [done|]. by intros ->.
  - cbn [fst]. destruct (peers !! (n, dst)) as [q|] eqn:Hq; cbn;
      [|by intros ?%elem_of_nil].
    intros ->%list_elem_of_singleton. exists dst, q. auto.
Qed.
End relay_invariant.

(** ** Frames *)
Lemma read_tcp_frame_here frame rest :
  frame ≠ [] → len frame ≤ 65535 →
  read_tcp_frame (be_bytes 4 (len frame) ++ frame ++ rest) = Ok (Some (frame, rest)).
Proof.
  intros Hne Hl. pose proof (len_nonneg frame).
  assert (len frame ≠ 0) by (destruct frame; [done|rewrite len_cons in *; pose proof (len_nonneg frame); lia]).
  unfold read_tcp_frame. rewrite length_app, length_be_bytes, bool_decide_eq_false_2 by lia.
  rewrite take_app_length', drop_app_length' by (by rewrite length_be_bytes).
  rewrite from_be_be_bytes, Z.mod_small by (cbn; lia). unfold MAX_TCP_FRAME_BYTES.
  pass_guard. rewrite len_app. pose proof (len_nonneg rest). pass_guard. unfold len.
  rewrite Nat2Z.id, take_app_length, drop_app_length. done.
Qed.

(** TCP framing.  What [write_tcp_frame] emits, followed by anything, is
    read back as the same frame with the rest of the stream left over; the
    empty frame and frames over 65535 bytes are never written, and no frame
    outside those bounds is ever returned by the reader. *)
Theorem tcp_frame_roundtrip frame rest encoded stream frame' rest' :
  (write_tcp_frame frame = Ok encoded →
   read_tcp_frame (encoded ++ rest) = Ok (Some (frame, rest)))
  ∧ (is_ok (write_tcp_frame frame) = true ↔ 0 < len frame ≤ 65535)
  ∧ (wf_bytes stream → read_tcp_frame stream = Ok (Some (frame', rest')) →
     0 < len frame' ≤ 65535).
Proof.
  assert (is_empty frame = true ∨ 0 < len frame) as Hf.
  { destruct frame as [|x f]; [by left|right]. rewrite len_cons. pose proof (len_nonneg f). lia. }
  split_and!.
  - unfold write_tcp_frame, MAX_TCP_FRAME_BYTES. intros Hw. inv_ok. subst. rewrite <-app_assoc.
    apply read_tcp_frame_here; [by apply is_empty_false|lia].
  - unfold write_tcp_frame, MAX_TCP_FRAME_BYTES. destruct Hf as [Hf|Hf].
    + rewrite Hf. apply is_empty_true in Hf as ->. cbn. split; [done|]. unfold len. cbn. lia.
    + assert (is_empty frame = false) as -> by (destruct frame; done).
      destruct (65535 <? len frame) eqn:E; cbn; split; try done.
      * apply Z.ltb_lt in E. lia.
      * apply Z.ltb_ge in E. lia.
  - unfold read_tcp_frame, MAX_TCP_FRAME_BYTES. intros Hwf. case_bool_decide as Hlen; [done|].
    intros Hr. inv_ok. simplify_eq.
    pose proof (from_be_bound (take 4 stream) (Forall_take _ _ _ Hwf)). set (r := drop 4 stream) in *. set (n := from_be (take 4 stream)) in *.
    assert (0 ≤ len (take (Z.to_nat n) r)) by apply len_nonneg.
    unfold len in *. rewrite length_take in *. lia.
Qed.

Section relay_properties.
Context `{UuidLib} `{Ed25519} `{HashOrder} `{!MembershipSerde} `{!AuthorizationSerde}
  `{!RootSerde} `{!RelaySerde} `{!RelayServerSerde}.
Implicit Types (s : RelayState) (p : PeerRecord) (k : NetworkId * DeviceId).

(** C23: in every state the relay can reach, whatever datagrams arrive, no two
    members of one network hold the same virtual address; every peer proved a
    membership of the trusted controller under a manifest whose expiry it
    carries; its candidates start with the observed endpoint, are at most
    sixteen, distinct and on the observed address; and every remembered hint
    is of its network and controller. *)
Theorem relay_state_invariant trusted identity legacy s :
  relay_reachable trusted identity legacy s → relay_inv trusted s.
Proof. apply relay_reachable_inv. Qed.

(** C21: isolation of networks.  Every datagram the relay sends concerns one
    network of which the sender is a member: a forwarded frame is the frame
    received, from the endpoint registered for its source, and goes only to
    current members of the same network (the one addressed, or for the
    broadcast address every other one); anything sent on a registration goes
    to the registering endpoint or to another current member of the network
    it authenticated for. *)
Theorem relay_isolation trusted identity legacy s remote packet now instant s' out target bs :
  receive trusted identity legacy s remote packet now instant = Some (s', out) →
  (target, bs) ∈ out →
  ∃ n, (∃ src dst p d q,
          parse_data_header packet = Some (n, src, dst) ∧ bs = packet
          ∧ rs_peers s !! (n, src) = Some p ∧ pr_endpoint p = remote
          ∧ rs_peers s !! (n, d) = Some q ∧ target = pr_endpoint q
          ∧ duration_since instant (pr_last_seen q) ≤ PEER_TTL
          ∧ now ≤ pr_authorization_expires_at q
          ∧ (is_nil (device_uuid dst) = true ∧ d ≠ src
             ∨ is_nil (device_uuid dst) = false ∧ d = dst))
     ∨ (∃ a, parse_signed_registration (drop 5 packet) trusted (rid_relay_id identity) legacy now
               = Some a
          ∧ (ar_key a).1 = n
          ∧ (target = remote ∨ ∃ k q, rs_peers s !! k = Some q ∧ k.1 = n ∧ k ≠ ar_key a
               ∧ target = pr_endpoint q ∧ now ≤ pr_authorization_expires_at q)).
Proof.
  unfold receive. case_match; [by intros [= _ <-] ?%elem_of_nil|]. unfold handle_packet.
  case_match.
  { destruct (parse_signed_registration _ _ _ _ _) as [a|] eqn:Ha;
      [|by intros [= _ <-] ?%elem_of_nil].
    intros [_ Hc]%handle_registration_cases Hin. exists (ar_key a).1. right. exists a.
    split_and!; [done|done|]. destruct Hc as [(_ & _ & ->)|(_ & _ & _ & Hout)].
    { by apply elem_of_nil in Hin. }
    destruct (Hout _ _ Hin) as [->|(k' & q & Hq & Hn & Hne & ->)]; [by left|right].
    apply prune_lookup in Hq as (? & _ & ?). exists k', q. done. }
  case_match; [|by intros [= _ <-] ?%elem_of_nil].
  destruct (parse_data_header packet) as [[[n src] dst]|] eqn:Hh;
    [|by intros [= _ <-] ?%elem_of_nil].
  case_match eqn:Hsrc; [by intros [= _ <-] ?%elem_of_nil|].
  intros [= _ <-] Hin. apply bool_decide_eq_false, dec_stable, fmap_Some in Hsrc as (p & Hp & ->).
  apply list_elem_of_fmap in Hin as (t & [= -> ->] & Ht).
  apply relay_targets_spec in Ht as (d & q & Hq & -> & Hd).
  apply prune_lookup in Hp as (Hp & _ & _). apply prune_lookup in Hq as (Hq & ? & ?).
  exists n. left. exists src, dst, p, d, q. done.
Qed.

(** A run of the relay over a list of datagrams. *)
Inductive relay_run (trusted : bytes) (identity : RelayIdentity) (legacy : bool)
    : RelayState → list datagram_event → RelayState → Prop :=
| run_nil s : relay_run trusted identity legacy s [] s
| run_cons s e s1 out es s2 :
    relay_step trusted identity legacy s e s1 out →
    relay_run trusted identity legacy s1 es s2 →
    relay_run trusted identity legacy s (e :: es) s2.

(** A registration nonce stays known for as long as it matters. *)
Lemma nonce_persists trusted identity legacy s es s' nk t t0 :
  relay_run trusted identity legacy s es s' →
  rs_seen_nonces s !! nk = Some t → t0 ≤ t →
  Forall (λ e, t0 ≤ ev_instant e ≤ t0 + REGISTRATION_NONCE_TTL) es →
  ∃ t', rs_seen_nonces s' !! nk = Some t' ∧ t0 ≤ t'.
Proof.
  intros Hrun. revert t. induction Hrun as [s|s e s1 out es s2 Hstep _ IH]; intros t Ht Hle Hes;
    [by eauto|].
  apply Forall_cons in Hes as [He Hes]. destruct Hstep as [s e s1 out Hr].
  assert (∃ t', rs_seen_nonces s1 !! nk = Some t' ∧ t0 ≤ t') as (t' & ? & ?); [|by eauto].
  revert Hr. unfold receive. case_match; [intros [= <- _]; by eauto|]. unfold handle_packet.
  case_match; [|repeat case_match; intros [= <- _]; cbn; by eauto].
  destruct (parse_signed_registration _ _ _ _ _) as [a|] eqn:Ha; [|intros [= <- _]; cbn; by eauto].
  intros Hr. destruct (decide (nk = ((ar_key a).1, (ar_key a).2, ar_nonce a))) as [->|Hne].
  { apply handle_registration_cases in Hr as [Hn _]. eexists. split; [exact Hn|lia]. }
  assert (rs_seen_nonces s1 !! nk = Some t) as ->; [|by eauto].
  assert (rs_seen_nonces s1 = <[((ar_key a).1, (ar_key a).2, ar_nonce a) := ev_instant e]>
    (retain (λ _ at_, duration_since (ev_instant e) at_ <=? REGISTRATION_NONCE_TTL)
       (rs_seen_nonces s))) as ->.
  { revert Hr. unfold handle_registration. cbn. case_match; [by intros [= <- _]|].
    case_match; [by intros [= <- _]|].
    intros Hr. apply bind_Some in Hr as (? & _ & Hr). apply bind_Some in Hr as (? & _ & Hr).
    by simplify_eq. }
  rewrite lookup_insert_ne by done. rewrite lookup_retain. split; [done|].
  unfold duration_since, sat_sub, REGISTRATION_NONCE_TTL, secs in *. apply Z.leb_le. lia.
Qed.

(** a registration is accepted once.  After the relay has handled an
    authenticated registration, the same registration delivered again within
    300 seconds, from any address and after any other traffic, changes no
    peer and sends nothing. *)
Theorem registration_replay_rejected trusted identity legacy s e s1 out1 a es s2 e' s3 out3 :
  relay_step trusted identity legacy s e s1 out1 →
  byte_at 4 (ev_packet e) = RELAY_REGISTER_SIGNED →
  (5 ≤ length (ev_packet e))%nat → slice 0 4 (ev_packet e) = RELAY_MAGIC →
  parse_signed_registration (drop 5 (ev_packet e)) trusted (rid_relay_id identity) legacy
    (ev_now e) = Some a →
  relay_run trusted identity legacy s1 es s2 →
  Forall (λ x, ev_instant e ≤ ev_instant x ≤ ev_instant e + REGISTRATION_NONCE_TTL) (es ++ [e']) →
  ev_packet e' = ev_packet e →
  relay_step trusted identity legacy s2 e' s3 out3 →
  out3 = [] ∧ rs_peers s3 = rs_peers (prune s2 (ev_now e') (ev_instant e')).
Proof.
  intros Hs1 Hk Hl Hm Ha Hrun [Hes [He' _]%Forall_cons]%Forall_app Hp Hs3.
  assert (rs_seen_nonces s1 !! ((ar_key a).1, (ar_key a).2, ar_nonce a) = Some (ev_instant e)) as Hn.
  { destruct Hs1 as [s e s1 out1 Hr]. revert Hr. unfold receive, handle_packet.
    rewrite bool_decide_eq_false_2, (bool_decide_eq_false_2 (slice 0 4 _ ≠ _)) by (lia || naive_solver).
    cbn [orb]. rewrite Hk, Z.eqb_refl, Ha. by intros [? _]%handle_registration_cases. }
  destruct (nonce_persists _ _ _ _ _ _ _ _ (ev_instant e) Hrun Hn) as (t & Ht & Hle); [lia|done|].
  destruct Hs3 as [s2 e' s3 out3 Hr]. revert Hr. unfold receive, handle_packet. rewrite Hp.
  rewrite bool_decide_eq_false_2, (bool_decide_eq_false_2 (slice 0 4 _ ≠ _)) by (lia || naive_solver).
  cbn [orb]. rewrite Hk, Z.eqb_refl.
  destruct (parse_signed_registration _ _ _ _ (ev_now e')) as [a'|] eqn:Ha';
    [|by intros [= <- <-]].
  assert (ar_key a' = ar_key a ∧ ar_nonce a' = ar_nonce a) as [Ek En].
  { apply parse_signed_registration_Some in Ha as (r & Hr & Hc & Hno & _ & [Hm1 _] & _).
    apply parse_signed_registration_Some in Ha' as (r' & Hr' & Hc' & Hno' & _ & [Hm2 _] & _).
    assert (r' = r) as -> by congruence. assert (ar_certificate a' = ar_certificate a) by congruence.
    split; congruence. }
  unfold handle_registration. cbn. rewrite Ek, En.
  assert (retain (λ _ at_, duration_since (ev_instant e') at_ <=? REGISTRATION_NONCE_TTL)
    (rs_seen_nonces s2) !! ((ar_key a).1, (ar_key a).2, ar_nonce a) = Some t) as ->.
  { apply lookup_retain. split; [done|].
    unfold duration_since, sat_sub, REGISTRATION_NONCE_TTL, secs in *. apply Z.leb_le. lia. }
  cbn. by intros [= <- <-].
Qed.
End relay_properties.

(** ** Witnesses: one registration, then a frame to the network *)
Definition sample_event (now instant : Z) : datagram_event :=
  mkDatagramEvent sample_remote sample_registration_packet now instant.
Definition sample_receive (s : RelayState) (e : datagram_event)
    : option (RelayState * list datagram) :=
  receive controller_public sample_relay_identity false s (ev_remote e) (ev_packet e) (ev_now e)
    (ev_instant e).
Definition after {A} (o : option (RelayState * A)) : RelayState :=
  match o with Some (s, _) => s | None => RelayState_new end.
Definition sent {A} (o : option (A * list datagram)) : list datagram :=
  match o with Some (_, out) => out | None => [] end.
Lemma after_sent o : is_some o = true → o = Some (after o, sent o).
Proof. by destruct o as [[]|]. Qed.

Definition registered_once : option (RelayState * list datagram) :=
  sample_receive RelayState_new (sample_event 160 0).
Definition registered_twice : option (RelayState * list datagram) :=
  sample_receive (after registered_once) (sample_event 170 (secs 10)).
Lemma registered_once_Some : registered_once = Some (after registered_once, sent registered_once).
Proof. apply after_sent. by vm_compute. Qed.
Lemma registered_twice_Some : registered_twice = Some (after registered_twice, sent registered_twice).
Proof. apply after_sent. by vm_compute. Qed.
Example registered_once_peers :
  size (rs_peers (after registered_once)) = 1%nat ∧ length (sent registered_once) = 1%nat.
Proof. by vm_compute. Qed.

Lemma relay_state_invariant_witness :
  relay_inv controller_public (after registered_once).
Proof.
  apply (relay_state_invariant controller_public sample_relay_identity false).
  eapply reachable_step; [apply reachable_new|].
  apply (relay_step_receive _ _ _ _ (sample_event 160 0)). exact registered_once_Some.
Defined.
Lemma relay_isolation_witness :
  ∃ target bs n, sent registered_once = [(target, bs)]
  ∧ ((∃ src dst p d q,
        parse_data_header sample_registration_packet = Some (n, src, dst)
        ∧ bs = sample_registration_packet
        ∧ rs_peers RelayState_new !! (n, src) = Some p ∧ pr_endpoint p = sample_remote
        ∧ rs_peers RelayState_new !! (n, d) = Some q ∧ target = pr_endpoint q
        ∧ duration_since 0 (pr_last_seen q) ≤ PEER_TTL ∧ 160 ≤ pr_authorization_expires_at q
        ∧ (is_nil (device_uuid dst) = true ∧ d ≠ src ∨ is_nil (device_uuid dst) = false ∧ d = dst))
     ∨ (∃ a, parse_signed_registration (drop 5 sample_registration_packet) controller_public
               (rid_relay_id sample_relay_identity) false 160 = Some a
          ∧ (ar_key a).1 = n
          ∧ (target = sample_remote ∨ ∃ k q, rs_peers RelayState_new !! k = Some q ∧ k.1 = n
               ∧ k ≠ ar_key a ∧ target = pr_endpoint q ∧ 160 ≤ pr_authorization_expires_at q))).
Proof.
  destruct (sent registered_once) as [|[target bs] [|]] eqn:Hs;
    [by apply (f_equal length) in Hs; vm_compute in Hs| |
     by apply (f_equal length) in Hs; vm_compute in Hs].
  pose proof registered_once_Some as Hr. rewrite Hs in Hr.
  destruct (relay_isolation controller_public sample_relay_identity false RelayState_new
    sample_remote sample_registration_packet 160 0 (after registered_once) [(target, bs)] target bs)
    as [n Hn]; [exact Hr|by left|].
  exists target, bs, n. exact (conj eq_refl Hn).
Defined.
Lemma registration_replay_rejected_witness :
  sent registered_twice = []
  ∧ rs_peers (after registered_twice)
    = rs_peers (prune (after registered_once) 170 (secs 10)).
Proof.
  destruct (parse_signed_registration [77] controller_public service_uuid false 160) as [a|] eqn:Ha;
    [|by apply (f_equal is_some) in Ha; vm_compute in Ha].
  apply (registration_replay_rejected controller_public sample_relay_identity false RelayState_new
    (sample_event 160 0) (after registered_once) (sent registered_once) a [] (after registered_once)
    (sample_event 170 (secs 10)) (after registered_twice) (sent registered_twice)).
  - constructor. exact registered_once_Some.
  - by vm_compute.
  - by vm_compute; lia.
  - by vm_compute.
  - exact Ha.
  - constructor.
  - apply Forall_singleton. cbn. unfold REGISTRATION_NONCE_TTL, secs. lia.
  - done.
  - constructor. exact registered_twice_Some.
Defined.
