(* ===== verification/TurnFacts.v ===== *)
(** * The TURN client: its codec, its allocation, and what it hands on *)
From S2P Require Import Prelude Request Net Text Ext Concrete Model Planet Responses.
From S2P Require Import TransportHealth.
From S2P Require Import Frames AgentWorker Turn Samples FramesFacts.
#[local] Open Scope Z_scope.

(** ** Padding *)
Lemma padded_spec n : padded n = ((n + 3) / 4 * 4)%nat.
Proof.
  unfold padded. rewrite <-Z.ldiff_land. change 3 with (Z.ones 2) at 2.
  rewrite Z.ldiff_ones_r, Z.shiftl_mul_pow2, Z.shiftr_div_pow2 by lia. change (2 ^ 2) with 4.
  replace (Z.of_nat n + 3) with (Z.of_nat (n + 3)) by lia.
  rewrite <-(Nat2Z.inj_div _ 4), <-(Nat2Z.inj_mul _ 4). apply Nat2Z.id.
Qed.
Lemma padded_bounds n : (n ≤ padded n < n + 4)%nat ∧ (padded n mod 4 = 0)%nat.
Proof.
  rewrite padded_spec. pose proof (Nat.div_mod_eq (n + 3) 4). pose proof (Nat.mod_upper_bound (n + 3) 4).
  rewrite Nat.Div0.mod_mul. lia.
Qed.
Lemma padded_add a n : (a mod 4 = 0)%nat → padded (a + n) = (a + padded n)%nat.
Proof.
  intros Ha. apply Nat.Div0.mod_divides in Ha as [k ->]. rewrite !padded_spec.
  replace (4 * k + n + 3)%nat with (n + 3 + k * 4)%nat by lia.
  rewrite Nat.div_add by lia. lia.
Qed.
Lemma padded_pad n : padded n = (n + (4 - n mod 4) mod 4)%nat.
Proof.
  rewrite padded_spec. pose proof (Nat.div_mod_eq n 4) as Hn. pose proof (Nat.mod_upper_bound n 4).
  revert Hn. set (q := (n / 4)%nat). set (m := (n mod 4)%nat) in *. clearbody q m. intros ->.
  replace (4 * q + m + 3)%nat with (m + 3 + q * 4)%nat by lia. rewrite Nat.div_add by lia.
  assert (m = 0 ∨ m = 1 ∨ m = 2 ∨ m = 3)%nat as [->|[->|[->| ->]]] by lia; cbn; lia.
Qed.

(** ** Writing *)
Definition aligned (bs : bytes) : Prop := (length bs mod 4 = 0)%nat.
Lemma length_padded_attribute k v : length (stun_attribute k v) = (4 + padded (length v))%nat.
Proof. rewrite length_stun_attribute, padded_pad. lia. Qed.
Lemma stun_attribute_aligned k v : aligned (stun_attribute k v).
Proof.
  unfold aligned. rewrite length_padded_attribute. destruct (padded_bounds (length v)) as [_ Hp].
  by rewrite Nat.Div0.add_mod, Hp.
Qed.
Lemma aligned_app a b : aligned a → aligned b → aligned (a ++ b).
Proof. unfold aligned. intros Ha Hb. by rewrite length_app, Nat.Div0.add_mod, Ha, Hb. Qed.
Lemma append_attribute_Ok target k v bs :
  aligned target → append_attribute target k v = Ok bs →
  bs = target ++ stun_attribute k v ∧ len v ≤ 65535.
Proof.
  intros Ht. unfold append_attribute, bail_if. destruct (65535 <? len v) eqn:Hv; [done|].
  apply Z.ltb_ge in Hv. rewrite bind_ret. cbv zeta. intros <-%Ok_inj. split; [|done].
  set (l := be_bytes 2 k ++ be_bytes 2 (len v) ++ v).
  assert (length l = (4 + length v)%nat) as Hl by (unfold l; rewrite !length_app, !length_be_bytes; lia).
  unfold zero_resized. rewrite length_app, Hl.
  rewrite padded_add, padded_add by done. destruct (padded_bounds (length v)) as [Hp _].
  rewrite take_ge by (rewrite length_app, Hl; lia). unfold stun_attribute, l. rewrite <-!(assoc_L (++)).
  do 4 f_equal. rewrite padded_pad. f_equal. lia.
Qed.
Lemma append_attributes_Ok l body bs :
  aligned body → append_attributes body l = Ok bs →
  bs = body ++ attributes l ∧ aligned bs ∧ Forall (λ a, len a.2 ≤ 65535) l.
Proof.
  revert body. induction l as [|[k v] l IH]; intros body Hb; cbn [append_attributes].
  - intros [= <-]. unfold attributes. cbn. by rewrite app_nil_r.
  - intros (target & Ht & Hr)%bind_Ok. apply append_attribute_Ok in Ht as [-> Hv]; [|done].
    apply IH in Hr as (-> & Ha & Hl); [|by apply aligned_app, stun_attribute_aligned].
    split_and!; [|done|by constructor]. unfold attributes. cbn. by rewrite <-(assoc_L (++)).
Qed.

(** ** Reading *)
Lemma turn_range_app a b (l1 l2 l3 : bytes) :
  length l1 = a → length l2 = (b - a)%nat → (a ≤ b)%nat → turn_range a b (l1 ++ l2 ++ l3) = Ok l2.
Proof.
  intros Ha Hb Hab. unfold turn_range. rewrite range_Ok; [|done|rewrite !length_app; lia].
  by rewrite (slice_app_here a b).
Qed.
Lemma turn_range_Ok a b (bs : bytes) :
  (a ≤ b)%nat → (b ≤ length bs)%nat → turn_range a b bs = Ok (slice a b bs).
Proof. intros. unfold turn_range. by rewrite range_Ok. Qed.
Lemma u16_be n : 0 ≤ n < 65536 → from_be (be_bytes 2 n) = n.
Proof. intros. rewrite from_be_be_bytes. by apply Z.mod_small. Qed.
Definition wf_attribute (a : attribute) : Prop := 0 ≤ a.1 < 65536 ∧ len a.2 ≤ 65535.
Lemma turn_attribute_ranges pre k v rest :
  let bs := pre ++ stun_attribute k v ++ rest in
  turn_range (length pre) (length pre + 2) bs = Ok (be_bytes 2 k)
  ∧ turn_range (length pre + 2) (length pre + 4) bs = Ok (be_bytes 2 (len v))
  ∧ turn_range (length pre + 4) (length pre + 4 + length v) bs = Ok v.
Proof.
  intros bs. unfold bs, stun_attribute. rewrite <-!(assoc_L (++)). split_and!.
  - apply turn_range_app; rewrite ?length_be_bytes; lia.
  - rewrite (assoc_L (++) pre). apply turn_range_app; rewrite ?length_app, ?length_be_bytes; lia.
  - rewrite (assoc_L (++) pre), (assoc_L (++) (pre ++ _)).
    apply turn_range_app; rewrite ?length_app, ?length_be_bytes; lia.
Qed.
Lemma parse_attributes_written l fuel pre :
  aligned pre → Forall wf_attribute l → (length l ≤ fuel)%nat →
  parse_attributes fuel (pre ++ attributes l) (length pre) = Ok l.
Proof.
  revert fuel pre. induction l as [|[k v] l IH]; intros fuel pre Hp Hw Hf.
  { unfold attributes. cbn [map concat]. rewrite app_nil_r.
    destruct fuel; cbn [parse_attributes]; by rewrite (proj2 (Nat.leb_le _ _)) by lia. }
  apply Forall_cons_1 in Hw as [[Hk Hv] Hw]. cbn [fst snd] in *. destruct fuel as [|fuel]; [cbn in Hf; lia|].
  change (attributes ((k, v) :: l)) with (stun_attribute k v ++ attributes l).
  pose proof (turn_attribute_ranges pre k v (attributes l)) as (H1 & H2 & H3).
  pose proof (length_padded_attribute k v) as Hla. destruct (padded_bounds (length v)) as [Hpad _].
  assert (length (pre ++ stun_attribute k v ++ attributes l)
    = (length pre + (4 + padded (length v)) + length (attributes l))%nat) as Hlen
    by (rewrite !length_app, Hla; lia).
  assert (padded (length pre + 4 + length v) = length (pre ++ stun_attribute k v)) as Hnext.
  { rewrite length_app, Hla. replace (length pre + 4 + length v)%nat with (length pre + (4 + length v))%nat by lia.
    rewrite padded_add by done. by rewrite (padded_add 4). }
  cbn [parse_attributes]. rewrite Hlen, (proj2 (Nat.leb_gt _ _)) by lia. unfold bail_if.
  rewrite (proj2 (Nat.ltb_ge _ _)) by lia. rewrite bind_ret, H1, H2, !fmap_Ok, !bind_ret.
  rewrite !u16_be by (pose proof (len_nonneg v); lia). unfold len. rewrite Nat2Z.id.
  rewrite Hnext, H3, bind_ret. rewrite !(proj2 (Nat.ltb_ge _ _)), !bind_ret
    by (rewrite ?length_app, ?Hla; lia).
  rewrite (assoc_L (++)), IH; [done|by apply aligned_app, stun_attribute_aligned|done|cbn in Hf; lia].
Qed.
Definition turn_header (ty : Z) (size : Z) (tx : bytes) : bytes :=
  be_bytes 2 ty ++ be_bytes 2 size ++ be_bytes 4 MAGIC_COOKIE ++ tx.
Lemma parse_written ty tx l :
  0 ≤ ty < 0x4000 → length tx = 12%nat → Forall wf_attribute l →
  20 + len (attributes l) ≤ MAX_MESSAGE_LEN → aligned (attributes l) →
  parse_message (turn_header ty (len (attributes l)) tx ++ attributes l) = Ok (mkMessage ty tx l).
Proof.
  intros Hty Htx Hl Hmax Ha. set (body := attributes l) in *. unfold MAX_MESSAGE_LEN in Hmax.
  pose proof (len_nonneg body) as Hpos. unfold aligned in Ha.
  assert (length (turn_header ty (len body) tx) = 20%nat) as Hh
    by (unfold turn_header; rewrite !length_app, !length_be_bytes, Htx; done).
  assert (len (turn_header ty (len body) tx ++ body) = 20 + len body) as Hlen
    by (unfold len in *; rewrite length_app, Hh; lia).
  assert (length (turn_header ty (len body) tx ++ body) = (20 + length body)%nat) as Hlen'
    by (rewrite length_app, Hh; lia).
  unfold parse_message, bail_if, HEADER_LEN, MAX_MESSAGE_LEN. rewrite Hlen, Hlen'.
  rewrite (proj2 (Nat.ltb_ge _ _)) by lia. rewrite (proj2 (Z.ltb_ge _ _)) by lia. cbn [orb].
  rewrite bind_ret.
  assert (turn_range 0 2 (turn_header ty (len body) tx ++ body) = Ok (be_bytes 2 ty)) as ->.
  { unfold turn_header. rewrite <-!(assoc_L (++)). apply (turn_range_app 0 2 []); rewrite ?length_app, ?length_be_bytes; cbn [length]; lia. }
  rewrite fmap_Ok, bind_ret, u16_be by lia.
  assert (Z.land ty 0xc000 = 0) as ->.
  { change 0xc000 with (Z.shiftl 3 14). apply Z.bits_inj'. intros i Hi.
    rewrite Z.land_spec, Z.bits_0, Z.shiftl_spec by lia. destruct (Z.ltb_spec i 14).
    - rewrite (Z.testbit_neg_r 3) by lia. apply andb_false_r.
    - rewrite (Z.bits_above_log2 ty); [done|lia|]. destruct (decide (ty = 0)) as [->|]; [cbn; lia|].
      apply Z.log2_lt_pow2; [lia|]. apply Z.lt_le_trans with (2 ^ 14); [lia|]. by apply Z.pow_le_mono_r. }
  rewrite Z.eqb_refl. cbn [negb]. rewrite bind_ret.
  assert (turn_range 2 4 (turn_header ty (len body) tx ++ body) = Ok (be_bytes 2 (len body))) as ->.
  { unfold turn_header. rewrite <-!(assoc_L (++)). apply (turn_range_app 2 4); rewrite ?length_app, ?length_be_bytes; cbn [length]; lia. }
  rewrite fmap_Ok, bind_ret, u16_be by lia.
  rewrite (proj2 (Z.eqb_eq (len body + Z.of_nat 20) _)) by lia.
  rewrite (proj2 (Z.eqb_eq (len body mod 4) 0)) by (unfold len; change 4 with (Z.of_nat 4); rewrite <-Nat2Z.inj_mod, Ha; done).
  cbn [negb orb]. rewrite bind_ret.
  assert (turn_range 4 8 (turn_header ty (len body) tx ++ body) = Ok (be_bytes 4 MAGIC_COOKIE)) as ->.
  { unfold turn_header. rewrite <-!(assoc_L (++)), (assoc_L (++) (be_bytes 2 ty)). apply (turn_range_app 4 8); rewrite ?length_app, ?length_be_bytes; cbn [length]; lia. }
  rewrite fmap_Ok, bind_ret, from_be_be_bytes. change (MAGIC_COOKIE mod _) with MAGIC_COOKIE.
  rewrite Z.eqb_refl. cbn [negb]. rewrite bind_ret.
  assert (turn_range 8 20 (turn_header ty (len body) tx ++ body) = Ok tx) as ->.
  { unfold turn_header. rewrite <-!(assoc_L (++)), (assoc_L (++) (be_bytes 2 ty)), (assoc_L (++) (be_bytes 2 ty ++ _)).
    apply (turn_range_app 8 20); rewrite ?length_app, ?length_be_bytes; cbn [length]; lia. }
  rewrite bind_ret. pose proof (length_attributes l) as Hn. fold body in Hn.
  pose proof (parse_attributes_written l (20 + length body) (turn_header ty (len body) tx)) as Hp.
  fold body in Hp. rewrite Hh in Hp. rewrite Hp; [done|unfold aligned; by rewrite Hh|done|lia].
Qed.

Section messages.
Context `{TurnLib} `{!TurnLibLaws}.
Lemma attributes_app l1 l2 : attributes (l1 ++ l2) = attributes l1 ++ attributes l2.
Proof. unfold attributes. by rewrite map_app, concat_app. Qed.
Lemma encode_message_Ok ty tx l key bs :
  length tx = 12%nat → encode_message ty tx l key = Ok bs →
  ∃ l', bs = turn_header ty (len (attributes l')) tx ++ attributes l'
    ∧ len (attributes l') ≤ 65535 ∧ aligned (attributes l')
    ∧ Forall (λ a, len a.2 ≤ 65535) l
    ∧ match key with
      | None => l' = l
      | Some key => ∃ tag, l' = l ++ [(ATTR_MESSAGE_INTEGRITY, tag)] ∧ length tag = 20%nat
          ∧ turn_hmac_sha1 key (turn_header ty (len (attributes l')) tx ++ attributes l) = Some tag
      end.
Proof.
  intros Htx. unfold encode_message, bail_if. intros (body & Hbody & Hrun)%bind_Ok.
  apply append_attributes_Ok in Hbody as (-> & Ha & Hl); [|done]. cbn [app] in *.
  destruct (65535 <? _) eqn:Hsize; [done|]. apply Z.ltb_ge in Hsize. rewrite bind_ret in Hrun.
  cbv zeta in Hrun. destruct key as [key|].
  - apply bind_Ok in Hrun as (tag & Htag%ok_or_Ok & Hrun). pose proof (turn_hmac_length _ _ _ Htag) as Hlt.
    assert (len (attributes (l ++ [(ATTR_MESSAGE_INTEGRITY, tag)])) = len (attributes l) + 24) as Hlen.
    { rewrite attributes_app, len_app. change (attributes [_]) with (stun_attribute ATTR_MESSAGE_INTEGRITY tag ++ []).
      rewrite app_nil_r. unfold len at 2. rewrite length_padded_attribute, Hlt. done. }
    assert (be_bytes 2 ty ++ be_bytes 2 (len (attributes l) + 24) ++ be_bytes 4 MAGIC_COOKIE ++ tx ++ attributes l
      = turn_header ty (len (attributes l) + 24) tx ++ attributes l) as Heq
      by (unfold turn_header; by rewrite <-!(assoc_L (++))).
    rewrite Heq in Hrun, Htag. apply append_attribute_Ok in Hrun as [-> _].
    2: { apply aligned_app; [|done]. unfold aligned, turn_header.
         by rewrite !length_app, !length_be_bytes, Htx. }
    exists (l ++ [(ATTR_MESSAGE_INTEGRITY, tag)]). rewrite Hlen. split_and!; [|lia| |done|by exists tag].
    + rewrite attributes_app, (assoc_L (++)). f_equal. unfold attributes. cbn [map concat uncurry]. by rewrite app_nil_r.
    + rewrite attributes_app. apply aligned_app; [done|]. unfold attributes. cbn [map concat uncurry].
      rewrite app_nil_r. apply stun_attribute_aligned.
  - apply Ok_inj in Hrun as <-. exists l. rewrite Z.add_0_r in *. split_and!; [|done..].
    unfold turn_header. by rewrite <-!(assoc_L (++)).
Qed.
(** C35: TURN messages arrive.  A message that the client encodes is parsed back as
    its type, its transaction identifier and its attributes in their order, followed
    by the integrity attribute when a key was given, whose value is the keyed digest
    of everything before it under the length it has with it; unless it is longer than
    the parser takes, which is a limit the encoder does not check. *)
Theorem turn_message_roundtrip ty tx l key bs :
  0 ≤ ty < 0x4000 → length tx = 12%nat → Forall (λ a, 0 ≤ a.1 < 65536) l →
  encode_message ty tx l key = Ok bs →
  ∃ l', match key with
        | None => l' = l
        | Some key => ∃ tag before, l' = l ++ [(ATTR_MESSAGE_INTEGRITY, tag)]
            ∧ bs = before ++ stun_attribute ATTR_MESSAGE_INTEGRITY tag
            ∧ turn_hmac_sha1 key before = Some tag
        end
  ∧ parse_message bs = if len bs <=? MAX_MESSAGE_LEN then Ok (mkMessage ty tx l') else Err TurnMalformed.
Proof.
  intros Hty Htx Hl Henc. pose proof (encode_message_Ok _ _ _ _ _ Htx Henc) as (l' & Hbs & Hsize & Ha & Hv & Hkey).
  exists l'. assert (len bs = 20 + len (attributes l')) as Hlen.
  { rewrite Hbs, len_app. f_equal. unfold turn_header, len. by rewrite !length_app, !length_be_bytes, Htx. }
  assert (Forall wf_attribute l') as Hwf.
  { assert (Forall wf_attribute l) as Hwf by (apply Forall_and; by split).
    destruct key as [key|]; [|by subst]. destruct Hkey as (tag & -> & Ht & _). apply Forall_app. split; [done|].
    apply Forall_singleton. split; cbn; [unfold ATTR_MESSAGE_INTEGRITY; lia|]. unfold len. rewrite Ht. lia. }
  split.
  - destruct key as [key|]; [|done]. destruct Hkey as (tag & -> & Ht & Hmac).
    eexists tag, _. split_and!; [done| |exact Hmac]. rewrite Hbs, attributes_app, (assoc_L (++)).
    f_equal. unfold attributes. cbn [map concat uncurry]. by rewrite app_nil_r.
  - destruct (Z.leb_spec (len bs) MAX_MESSAGE_LEN) as [Hmax|Hmax].
    + rewrite Hbs. apply parse_written; try done. by rewrite <-Hlen.
    + unfold parse_message. rewrite (proj2 (Z.ltb_lt _ _)) by done. by rewrite orb_true_r.
Qed.
End messages.

(** ** Addresses *)
Definition cookie_prefix : bytes := STUN_COOKIE ++ replicate 12 0.
Lemma mask_ipv6_xor octets :
  length octets = 16%nat → mask_ipv6 octets = xor_bytes octets cookie_prefix.
Proof.
  intros Hl. do 16 (destruct octets as [|? octets]; [done|]). destruct octets; [|done].
  unfold mask_ipv6, xor_bytes, cookie_prefix. cbn -[Z.lxor Z.div Z.modulo].
  by rewrite !Z.lxor_0_r.
Qed.
Lemma byte_shiftr a m : (a / 256 ^ Z.of_nat m) mod 256 = Z.land (Z.shiftr a (8 * Z.of_nat m)) (Z.ones 8).
Proof.
  rewrite Z.land_ones, Z.shiftr_div_pow2 by lia. by rewrite Z.pow_mul_r by lia.
Qed.
Lemma xor_be_bytes n a b : be_bytes n (Z.lxor a b) = xor_bytes (be_bytes n a) (be_bytes n b).
Proof.
  unfold xor_bytes. induction n as [|n IH]; [done|]. cbn [be_bytes zip_with]. rewrite IH. f_equal.
  rewrite !byte_shiftr, Z.shiftr_lxor. apply Z.bits_inj'. intros i Hi.
  rewrite !Z.lxor_spec, !Z.land_spec, Z.lxor_spec.
  by destruct (Z.testbit (Z.shiftr a _) i), (Z.testbit (Z.shiftr b _) i), (Z.testbit (Z.ones 8) i).
Qed.
Lemma encode_address_masked e :
  encode_xor_address e
  = [0; if socket_is_ipv4 e then 1 else 2]
    ++ be_bytes 2 (Z.lxor (socket_port e) (from_be (take 2 STUN_COOKIE)))
    ++ xor_bytes (ip_octets (socket_ip e)) (if socket_is_ipv4 e then STUN_COOKIE else cookie_prefix).
Proof.
  unfold encode_xor_address. do 2 f_equal. destruct e as [ip port|ip port flow scope]; cbn [socket_ip].
  - rewrite xor_be_bytes. done.
  - rewrite mask_ipv6_xor by apply length_be_bytes. done.
Qed.
Lemma xor_bytes_cancel l m m' :
  length m = length l → length m' = length l → xor_bytes l m = xor_bytes l m' → m = m'.
Proof.
  unfold xor_bytes. revert m m'. induction l as [|x l IH]; intros [|y m] [|y' m'] Hm Hm' Heq; try done.
  cbn in *. injection Heq as Hy Hrest. f_equal; [|apply IH; [lia..|done]].
  assert (Z.lxor x (Z.lxor x y) = Z.lxor x (Z.lxor x y')) as Hxx by by rewrite Hy.
  by rewrite <-!Z.lxor_assoc, !Z.lxor_nilpotent, !Z.lxor_0_l in Hxx.
Qed.
Lemma xor_peer_address_read m e :
  wf_endpoint e → attribute_of m ATTR_XOR_PEER_ADDRESS = Some (encode_xor_address e) →
  xor_peer_address m = Ok (Some (wire_endpoint e)).
Proof.
  intros [Hip Hport] Ha. unfold xor_peer_address. rewrite Ha, encode_address_masked.
  set (port := be_bytes 2 _). set (ip := xor_bytes _ _).
  assert (length ip = if socket_is_ipv4 e then 4%nat else 16%nat) as Hl.
  { unfold ip. rewrite length_xor_bytes; destruct e; cbn; lia. }
  set (value := [0; _] ++ port ++ ip).
  assert (length value = if socket_is_ipv4 e then 8%nat else 20%nat) as Hlen.
  { unfold value, port. rewrite !length_app, length_be_bytes, Hl. by destruct (socket_is_ipv4 e). }
  assert (turn_index 0 value = Ok 0) as H0 by done.
  assert (turn_index 1 value = Ok (if socket_is_ipv4 e then 1 else 2)) as H1 by done.
  assert (turn_range 2 4 value = Ok port) as H2 by by apply (turn_range_app 2 4); rewrite ?length_be_bytes; cbn; lia.
  assert (turn_range 4 (if socket_is_ipv4 e then 8 else 20) value = Ok ip) as H3.
  { assert (value = ([0; if socket_is_ipv4 e then 1 else 2] ++ port) ++ ip ++ []) as ->
      by (unfold value; by rewrite app_nil_r, (assoc_L (++))).
    apply turn_range_app.
    - unfold port. rewrite length_app, length_be_bytes. done.
    - rewrite Hl. by destruct (socket_is_ipv4 e).
    - destruct (socket_is_ipv4 e); lia. }
  rewrite Hlen, H0, H1, H2. unfold bail_if. rewrite !bind_ret. unfold port at 1 2.
  change (Z.shiftr MAGIC_COOKIE 16) with (from_be (take 2 STUN_COOKIE)). rewrite unmask_port by done.
  destruct e as [a p|a p fl sc]; cbn [socket_is_ipv4 is_ipv4 socket_ip Nat.ltb Nat.leb Z.eqb Nat.eqb andb Pos.eqb negb] in *;
    rewrite !bind_ret, H3, bind_ret.
  - unfold ip. cbn [ip_octets]. change STUN_COOKIE with (be_bytes 4 MAGIC_COOKIE).
    rewrite <-xor_be_bytes, from_be_be_bytes. change (256 ^ Z.of_nat 4) with (2 ^ 32).
    rewrite Z.mod_small by (apply lxor_bound; [lia|exact Hip|done]).
    by rewrite Z.lxor_assoc, Z.lxor_nilpotent, Z.lxor_0_r.
  - rewrite mask_ipv6_xor by done. unfold ip. rewrite xor_bytes_twice by (cbn; lia).
    cbn [ip_octets]. by rewrite (ipv6_of_octets_octets a).
Qed.

(** C36: The masks of TURN addresses.  A peer address that the client writes is read
    back by it, without flow label and scope.  For an IPv4 peer the attribute is the
    one of RFC 5389, as the STUN parser of the agent reads it: the mask is the cookie.
    For an IPv6 peer the RFC's mask is the cookie and the transaction identifier, and
    the client masks with the cookie alone: what it writes is the RFC's attribute only
    under the transaction identifier of twelve zeros. *)
Theorem turn_address_masks e tx m :
  wf_endpoint e → length tx = 12%nat →
  attribute_of m ATTR_XOR_PEER_ADDRESS = Some (encode_xor_address e) →
  xor_peer_address m = Ok (Some (wire_endpoint e))
  ∧ (encode_xor_address e = xor_mapped_address tx e
     ↔ socket_is_ipv4 e = true ∨ tx = replicate 12 0).
Proof.
  intros He Htx Hm. split; [by apply xor_peer_address_read|].
  rewrite encode_address_masked. unfold xor_mapped_address. destruct (socket_is_ipv4 e) eqn:H4.
  { split; [by left|done]. }
  split; [|by intros [?| -> ]].
  intros Heq. right. do 2 apply app_inv_head in Heq. apply xor_bytes_cancel in Heq.
  - by apply app_inv_head in Heq.
  - destruct e; [done|]. cbn [socket_ip ip_octets]. by rewrite length_be_bytes.
  - destruct e; [done|]. cbn [socket_ip ip_octets]. rewrite length_be_bytes, length_app, Htx. done.
Qed.

(** ** Every datagram is survived *)
Definition no_fault {A} (r : result TurnError A) : Prop := ∀ e, r ≠ Err (TurnFault e).
Lemma no_fault_bind {A B} (r : result TurnError A) (f : A → result TurnError B) :
  no_fault r → (∀ a, r = Ok a → no_fault (f a)) → no_fault (r ≫= f).
Proof. intros Hr Hf. destruct r as [a|e]; [by apply Hf|]. intros e' [= ->]. by apply (Hr e'). Qed.
Lemma no_fault_err {A B} (e : TurnError) : no_fault (Err e : result _ A) → no_fault (Err e : result _ B).
Proof. intros He e' [= ->]. by apply (He e'). Qed.
Lemma no_fault_bail c e : (∀ x, e ≠ TurnFault x) → no_fault (bail_if c e).
Proof. intros He x. unfold bail_if. destruct c; [|done]. intros [= ->]. by apply (He x). Qed.
Lemma no_fault_range a b bs : (a ≤ b)%nat → (b ≤ length bs)%nat → no_fault (turn_range a b bs).
Proof. intros Ha Hb e. unfold turn_range. by rewrite range_Ok. Qed.
Lemma no_fault_number a b bs : (a ≤ b)%nat → (b ≤ length bs)%nat → no_fault (from_be <$> turn_range a b bs).
Proof. intros Ha Hb e. unfold turn_range. by rewrite range_Ok. Qed.
Lemma bail_Ok c (e : TurnError) u : bail_if c e = Ok u → c = false.
Proof. by destruct c. Qed.
Lemma parse_attributes_no_fault fuel bs cursor :
  (length bs - cursor ≤ 4 * fuel)%nat → no_fault (parse_attributes fuel bs cursor).
Proof.
  revert cursor. induction fuel as [|fuel IH]; intros cursor Hf; cbn [parse_attributes].
  { rewrite (proj2 (Nat.leb_le _ _)) by lia. done. }
  destruct (length bs <=? cursor)%nat; [done|].
  apply no_fault_bind; [by apply no_fault_bail|]. intros ? Hc%bail_Ok%Nat.ltb_ge.
  apply no_fault_bind; [apply no_fault_number; lia|]. intros kind _.
  apply no_fault_bind; [apply no_fault_number; lia|]. intros size _. cbv zeta. set (n := Z.to_nat size).
  apply no_fault_bind; [by apply no_fault_bail|]. intros ? He%bail_Ok%Nat.ltb_ge.
  apply no_fault_bind; [apply no_fault_range; lia|]. intros value _.
  apply no_fault_bind; [by apply no_fault_bail|]. intros ? _.
  apply no_fault_bind; [|done]. apply IH. destruct (padded_bounds (cursor + 4 + n)). lia.
Qed.
Lemma parse_message_no_fault bs : no_fault (parse_message bs).
Proof.
  unfold parse_message, HEADER_LEN. apply no_fault_bind; [by apply no_fault_bail|].
  intros ? [Hl%Nat.ltb_ge _]%bail_Ok%orb_false_iff.
  apply no_fault_bind; [apply no_fault_number; lia|]. intros ? _.
  apply no_fault_bind; [by apply no_fault_bail|]. intros ? _.
  apply no_fault_bind; [apply no_fault_number; lia|]. intros ? _.
  apply no_fault_bind; [by apply no_fault_bail|]. intros ? _.
  apply no_fault_bind; [apply no_fault_number; lia|]. intros ? _.
  apply no_fault_bind; [by apply no_fault_bail|]. intros ? _.
  apply no_fault_bind; [apply no_fault_range; lia|]. intros ? _.
  apply no_fault_bind; [|done]. apply parse_attributes_no_fault. lia.
Qed.
Lemma xor_peer_address_no_fault m : no_fault (xor_peer_address m).
Proof.
  unfold xor_peer_address. destruct (attribute_of _ _) as [value|]; [|done].
  apply no_fault_bind; [by apply no_fault_bail|]. intros ? Hl%bail_Ok%Nat.ltb_ge.
  assert (∀ i, (i < 8)%nat → no_fault (turn_index i value)) as Hi.
  { intros i Hi e. unfold turn_index. destruct (index_Ok i value ltac:(lia)) as (x & -> & _). done. }
  apply no_fault_bind; [apply Hi; lia|]. intros ? _.
  apply no_fault_bind; [by apply no_fault_bail|]. intros ? _.
  apply no_fault_bind; [apply no_fault_range; lia|]. intros ? _.
  apply no_fault_bind; [apply Hi; lia|]. intros a3 _.
  destruct ((a3 =? 1) && _) eqn:H4.
  { apply andb_true_iff in H4 as [_ H4%Nat.eqb_eq]. apply no_fault_bind; [apply no_fault_range; lia|done]. }
  destruct ((a3 =? 2) && _) eqn:H6; [|done].
  apply andb_true_iff in H6 as [_ H6%Nat.eqb_eq]. apply no_fault_bind; [apply no_fault_range; lia|done].
Qed.

(** ** Messages on a stream *)
Lemma parse_message_length bs m :
  parse_message bs = Ok m →
  (HEADER_LEN ≤ length bs)%nat ∧ len bs ≤ MAX_MESSAGE_LEN
  ∧ len bs = 20 + from_be (slice 2 4 bs) ∧ from_be (slice 2 4 bs) mod 4 = 0.
Proof.
  unfold parse_message, HEADER_LEN. intros (? & [Hl%Nat.ltb_ge Hm%Z.ltb_ge]%bail_Ok%orb_false_iff & Hr)%bind_Ok.
  rewrite (turn_range_Ok 0 2), fmap_Ok, bind_ret in Hr by lia. apply bind_Ok in Hr as (? & _ & Hr).
  rewrite (turn_range_Ok 2 4), fmap_Ok, bind_ret in Hr by lia.
  apply bind_Ok in Hr as (? & [Hs%negb_false_iff%Z.eqb_eq H4%negb_false_iff%Z.eqb_eq]%bail_Ok%orb_false_iff & _).
  split_and!; try done; lia.
Qed.
(** The framing of messages on a TLS stream loses nothing.  A message that was
    written, hence one that parses, is read back from the front of the stream as the
    same bytes, and what follows it stays in the stream. *)
Theorem turn_stream_framing message m rest (s : Stream) :
  parse_message message = Ok m → sm_arriving s = message ++ rest →
  read_turn_stream_message s = (Ok message, with_bytes s rest).
Proof.
  intros Hm Hs. apply parse_message_length in Hm as (Hh & Hmax & Hlen & H4). unfold HEADER_LEN in *.
  set (body := from_be (slice 2 4 message)) in *.
  assert (Z.to_nat body = (length message - 20)%nat) as Hbody by (unfold len in Hlen; lia).
  assert (read_exact 20 s = (Ok (take 20 message), with_bytes s (drop 20 message ++ rest))) as H1.
  { unfold read_exact. cbv [mbind handler_bind read mret handler_ret write]. rewrite Hs.
    rewrite (proj2 (Nat.leb_le _ _)) by (rewrite length_app; lia).
    by rewrite take_app_le, drop_app_le by lia. }
  assert (turn_range 2 4 (take 20 message) = Ok (slice 2 4 message)) as H2.
  { rewrite turn_range_Ok by (rewrite ?length_take; lia). f_equal.
    unfold slice. by rewrite skipn_firstn_comm, take_take. }
  assert (read_exact (Z.to_nat body) (with_bytes s (drop 20 message ++ rest))
    = (Ok (drop 20 message), with_bytes s rest)) as H3.
  { unfold read_exact. cbv [mbind handler_bind read mret handler_ret write with_bytes sm_arriving].
    rewrite (proj2 (Nat.leb_le _ _)) by (rewrite length_app, length_drop; lia).
    rewrite take_app_length', drop_app_length' by (rewrite length_drop; lia). done. }
  assert (negb (body mod 4 =? 0) || (MAX_MESSAGE_LEN <? body + Z.of_nat 20) = false) as Hok.
  { rewrite (proj2 (Z.eqb_eq _ _) H4). apply Z.ltb_ge. lia. }
  unfold read_turn_stream_message, HEADER_LEN. unfold mbind, handler_bind at 1. rewrite H1, H2.
  unfold lift. rewrite fmap_Ok. fold body. unfold handler_bind, bail_if. rewrite Hok, H3.
  cbv [mret handler_ret]. by rewrite take_drop.
Qed.

Section allocation.
Context `{UuidLib} `{TurnLib} {S : Type} (tr : Transport S) (credential : TurnCredential).
Context (R : relation S) `{!PreOrder R}.
Context (Hnew : within R (tr_new_transaction_id tr)) (Hsend : ∀ bs, within R (tr_send tr bs)).
Context (Hreceive : ∀ tx, within R (tr_receive_response tr tx)).
Lemma request_within ty l a : within R (authenticated_request tr credential ty l a).
Proof.
  unfold authenticated_request. apply within_bind; [done..|]. intros tx.
  apply within_bind; [done|by apply within_lift|]. intros bs.
  apply within_bind; [done..|]. intros ?. apply Hreceive.
Qed.
Lemma allocate_authenticated_within n a :
  within R (allocate_authenticated_over tr credential n a).
Proof.
  revert a. induction n as [|n IH]; intros a; cbn [allocate_authenticated_over]; [by apply within_lift|].
  apply within_bind; [done|apply request_within|]. intros response.
  destruct (_ =? ALLOCATE_SUCCESS); [by apply within_mret|].
  destruct ((_ =? ALLOCATE_ERROR) && _).
  { apply within_bind; [done|by apply within_lift|]. intros a'. apply IH. }
  destruct (_ =? ALLOCATE_ERROR); by apply within_lift.
Qed.
Lemma allocate_within : within R (allocate_over tr credential).
Proof.
  unfold allocate_over. apply within_bind; [done..|]. intros tx.
  apply within_bind; [done|by apply within_lift|]. intros bs. apply within_bind; [done..|]. intros ?.
  apply within_bind; [done..|]. intros response. apply within_bind; [done|by apply within_lift|]. intros ?.
  apply allocate_authenticated_within.
Qed.
Lemma create_permission_within a p : within R (create_permission_over tr credential a p).
Proof.
  unfold create_permission_over. apply within_bind; [done|apply request_within|]. intros ?. by apply within_lift.
Qed.
Lemma refresh_within a : within R (refresh_over tr credential a).
Proof.
  unfold refresh_over. apply within_bind; [done|apply request_within|]. intros ?.
  apply within_bind; [done|by apply within_lift|]. intros ?. by apply within_mret.
Qed.
End allocation.

(** ** What is handed on, over UDP *)
Section udp_route.
Context `{UuidLib} `{TurnLib} (server : SocketAddr).
(** Only the server is sent to; arrivals are taken from the front. *)
Record socket_grows (s s' : Socket) : Prop := {
  sg_sent : ∃ sent, so_sent s' = so_sent s ++ sent ∧ Forall (λ p, p.1 = server) sent;
  sg_arriving : ∃ used, so_arriving s = used ++ so_arriving s';
}.
#[local] Instance socket_grows_preorder : PreOrder socket_grows.
Proof.
  split.
  - intros s. split; [exists []|by exists []]. by rewrite app_nil_r.
  - intros s1 s2 s3 [(l1 & H1 & F1) (u1 & A1)] [(l2 & H2 & F2) (u2 & A2)]. split.
    + exists (l1 ++ l2). split; [by rewrite H2, H1, (assoc_L (++))|by apply Forall_app].
    + exists (u1 ++ u2). by rewrite A1, A2, (assoc_L (++)).
Qed.
Lemma new_id_within : within socket_grows socket_new_transaction_id.
Proof.
  intros s r s'. unfold socket_new_transaction_id. destruct (draw _) as [x draws]. intros [= _ <-].
  split; [exists []; by rewrite app_nil_r|by exists []].
Qed.
Lemma send_within bs : within socket_grows (send_to server bs).
Proof.
  intros s r s'. unfold send_to. cbv [mbind handler_bind read lift bail_if].
  destruct (so_refuses s _); intros [= _ <-]; [done|]. split; [|by exists []].
  exists [(server, bs)]. split; [done|by apply Forall_singleton].
Qed.
Lemma await_used tx arriving r rest :
  await_response server tx arriving = (r, rest) → ∃ used, arriving = used ++ rest.
Proof.
  revert r rest. induction arriving as [|a arriving IH]; intros r rest; cbn [await_response].
  { intros [= _ <-]. by exists []. }
  assert (∀ r' rest', await_response server tx arriving = (r', rest') → ∃ used, a :: arriving = used ++ rest') as Hnext.
  { intros r' rest' Hr. destruct (IH _ _ Hr) as [used ->]. by exists (a :: used). }
  assert (∃ used, a :: arriving = used ++ arriving) as Hone by by exists [a].
  destruct a as [source bs| |]; [|by intros [= _ <-]..]. case_bool_decide; [apply Hnext|].
  destruct (parse_message bs) as [m|e]; [|by intros [= _ <-]].
  case_bool_decide; [by intros [= _ <-]|apply Hnext].
Qed.
Lemma receive_within tx : within socket_grows (receive_response server tx).
Proof.
  intros s r s'. unfold receive_response. destruct (await_response _ _ _) as [x rest] eqn:Hr.
  intros [= _ <-]. apply await_used in Hr. split; [exists []; by rewrite app_nil_r|done].
Qed.

(** The packet came in a Data indication from the server. *)
Definition handed_on (arriving : list Arrival) (i : TurnInbound) : Prop :=
  ∃ bs m, Datagram server bs ∈ arriving ∧ parse_message bs = Ok m ∧ ms_type m = DATA_INDICATION
    ∧ xor_peer_address m = Ok (Some (ti_relay_endpoint i))
    ∧ attribute_of m ATTR_DATA = Some (ti_packet i) ∧ ti_packet i ≠ [].
Record route_grows (r r' : RouteRun Socket) : Prop := {
  rg_socket : socket_grows (rr_connection r) (rr_connection r');
  rg_delivered : ∃ new, rr_delivered r' = rr_delivered r ++ new
    ∧ Forall (handed_on (so_arriving (rr_connection r))) new;
}.
#[local] Instance route_grows_preorder : PreOrder route_grows.
Proof.
  split.
  - intros r. split; [done|]. exists []. by rewrite app_nil_r.
  - intros r1 r2 r3 [S1 (n1 & D1 & F1)] [S2 (n2 & D2 & F2)]. split; [by transitivity (rr_connection r2)|].
    exists (n1 ++ n2). split; [by rewrite D2, D1, (assoc_L (++))|]. apply Forall_app. split; [done|].
    destruct S1 as [_ (used & Hu)]. eapply Forall_impl; [exact F2|].
    intros i (bs & m & Hin & Hrest). exists bs, m. split; [|done]. rewrite Hu. apply elem_of_app. by right.
Qed.
Lemma on_connection_within {A} (m : handler Socket TurnError A) :
  within socket_grows m → within route_grows (on_connection m).
Proof.
  intros Hm r x r'. unfold on_connection. destruct (m (rr_connection r)) as [a s] eqn:Hr.
  intros [= _ <-]. split; [by eapply Hm|]. exists []. by rewrite app_nil_r.
Qed.
Lemma same_route_grows r r' :
  rr_connection r' = rr_connection r → rr_delivered r' = rr_delivered r → route_grows r r'.
Proof. intros Hc Hd. split; [by rewrite Hc|]. exists []. by rewrite app_nil_r. Qed.
Lemma count_within f : within route_grows (count f).
Proof. apply within_update. intros r. by apply same_route_grows. Qed.
Lemma abandon_within lost : within route_grows (abandon_read (λ _ s, s) lost).
Proof. apply within_update. intros r. by apply same_route_grows. Qed.
Context (credential : TurnCredential).
Lemma receive_datagram_run s r s' :
  receive_datagram server s = (r, s') →
  socket_grows s s' ∧ ∀ bs, r = Ok (Some bs) → Datagram server bs ∈ so_arriving s.
Proof.
  unfold receive_datagram. cbv [mbind handler_bind read mret handler_ret write lift].
  assert (∀ a rest, so_arriving s = a :: rest → socket_grows s (with_arriving s rest)) as Hgrow.
  { intros a rest Ha. split; [exists []; by rewrite app_nil_r|]. exists [a]. by rewrite Ha. }
  destruct (so_arriving s) as [|[source bs| |] rest] eqn:Ha; intros [= <- <-]; try by split; [by eapply Hgrow|].
  - done.
  - split; [by eapply Hgrow|]. intros bs'. case_bool_decide as Hs; [done|]. intros [= <-].
    rewrite Hs. apply list_elem_of_here.
Qed.
Lemma forward_received_within taken : within route_grows (forward_received (receive_datagram server) taken).
Proof.
  intros r x r'. unfold forward_received, on_connection. cbv [mbind handler_bind].
  destruct (receive_datagram server (rr_connection r)) as [received s] eqn:Hr.
  apply receive_datagram_run in Hr as [Hs Hin].
  assert (route_grows r (mkRouteRun s (rr_allocated r) (rr_telemetry r) (rr_delivered r))) as Hsame.
  { split; [done|]. exists []. by rewrite app_nil_r. }
  destruct received as [[bs|]|e]; [|by intros [= _ <-]..]. unfold lift.
  destruct (parse_message bs) as [m|e] eqn:Hm; [|by intros [= _ <-]].
  destruct (negb _) eqn:Hty; [by intros [= _ <-]|]. apply negb_false_iff, Z.eqb_eq in Hty.
  destruct (xor_peer_address m) as [[peer|]|e] eqn:Hp; [|by intros [= _ <-]..].
  destruct (attribute_of m ATTR_DATA) as [[|b packet]|] eqn:Hd; [by intros [= _ <-]| |by intros [= _ <-]].
  destruct (negb taken); [by intros [= _ <-]|].
  cbv [deliver count read write mret handler_ret mbind handler_bind]. intros [= _ <-].
  split; [done|]. cbn. eexists. split; [done|]. apply Forall_singleton.
  exists bs, m. split_and!; [by apply Hin|done..].
Qed.
Abbreviation event_turn := (forward_event (udp server) credential (receive_datagram server) (λ _ s, s)).
Lemma forward_outbound_within f o now later :
  within route_grows (forward_outbound (udp server) credential f o now later).
Proof.
  unfold forward_outbound. apply within_bind; [apply _| |].
  - destruct (permission_due _ _ _); [|by apply within_mret; apply _].
    apply within_bind; [apply _| |intros ?; by apply within_mret; apply _].
    apply on_connection_within, create_permission_within;
      [apply _|apply new_id_within|apply send_within|apply receive_within].
  - intros f'. apply within_bind; [apply _|apply on_connection_within, new_id_within|]. intros tx.
    apply within_bind; [apply _|by apply within_lift; apply _|]. intros bs.
    apply within_bind; [apply _|apply on_connection_within, send_within|]. intros ?.
    apply within_bind; [apply _|apply count_within|]. intros ?. by apply within_mret; apply _.
Qed.
Lemma forward_event_within f lost event : within route_grows (event_turn f lost event).
Proof.
  destruct event as [stop|[o|] now later|taken|later]; cbn [forward_event].
  1, 2, 3, 5: apply within_bind; [apply _|apply abandon_within|]; intros ?.
  - by apply within_mret; apply _.
  - apply within_bind; [apply _|apply forward_outbound_within|]. intros ?. by apply within_mret; apply _.
  - by apply within_mret; apply _.
  - apply within_bind; [apply _| |intros ?; by apply within_mret; apply _].
    apply on_connection_within, refresh_within;
      [apply _|apply new_id_within|apply send_within|apply receive_within].
  - apply within_bind; [apply _|apply forward_received_within|]. intros ?. by apply within_mret; apply _.
Qed.
Lemma forward_within events : ∀ f,
  within route_grows (forward (udp server) credential (receive_datagram server) (λ _ s, s) f events).
Proof.
  induction events as [|[lost event] events IH]; intros f; cbn [forward]; [by apply within_mret; apply _|].
  apply within_bind; [apply _|apply forward_event_within|]. intros [f'|]; [apply IH|by apply within_mret; apply _].
Qed.
End udp_route.

(** C32: What a UDP allocation sends and hands on.  Whatever datagrams arrive, from
    whomever, whatever calls fail and in whatever order the loop finds its events,
    a route sends to the TURN server of the route only, and every packet it hands on
    to the agent came in a Data indication from that server, as the data of the peer
    that the indication names. *)
Theorem turn_delivers_from_server `{UuidLib} `{TurnLib} route bound now events r x r' :
  connect_and_forward route bound now events r = (x, r') →
  let server := turn_endpoint (tu_server route) in
  (∃ sent, so_sent (rr_connection r') = so_sent (rr_connection r) ++ sent
    ∧ Forall (λ p, p.1 = server) sent)
  ∧ ∃ new, rr_delivered r' = rr_delivered r ++ new
    ∧ Forall (handed_on server (so_arriving (rr_connection r))) new.
Proof.
  intros Hr server. assert (route_grows server r r') as [[Hsent _] Hnew]; [|done]. revert r x r' Hr.
  change (within (route_grows server) (connect_and_forward route bound now events)).
  pose proof (route_grows_preorder server) as Hpre. pose proof (socket_grows_preorder server) as Hpre'.
  unfold connect_and_forward, allocate_and_forward. fold server.
  apply within_bind; [done|by apply within_lift|]. intros ?.
  apply within_bind; [done|by apply within_lift|]. intros ?.
  apply within_bind; [done| |].
  { apply on_connection_within, allocate_within;
      [done|apply new_id_within|apply send_within|apply receive_within]. }
  intros ?. apply within_bind; [done| |intros ?; apply forward_within].
  apply within_update. intros r. by apply same_route_grows.
Qed.

(** ** The client returns *)
Definition faultless {S A} (m : handler S TurnError A) : Prop := ∀ s, no_fault (m s).1.
Lemma faultless_bind {S A B} (m : handler S TurnError A) (f : A → handler S TurnError B) :
  faultless m → (∀ a, faultless (f a)) → faultless (m ≫= f).
Proof.
  intros Hm Hf s. cbv [mbind handler_bind]. specialize (Hm s). destruct (m s) as [[a|e] s1]; [apply Hf|by eapply no_fault_err].
Qed.
Lemma faultless_lift {S A} (r : result TurnError A) : no_fault r → faultless (S := S) (lift r).
Proof. by intros Hr s. Qed.
Lemma faultless_mret {S A} (a : A) : faultless (S := S) (mret a).
Proof. by intros s. Qed.
Lemma faultless_update {S} (f : S → S) : faultless (s ← read; write (f s)).
Proof. by intros s. Qed.
#[local] Hint Resolve faultless_mret faultless_update : turn.
Section no_faults.
Context `{UuidLib} `{TurnLib}.
Lemma append_no_fault target k v : no_fault (append_attribute target k v).
Proof. apply no_fault_bind; [by apply no_fault_bail|done]. Qed.
Lemma encode_no_fault ty tx l key : no_fault (encode_message ty tx l key).
Proof.
  unfold encode_message. apply no_fault_bind.
  { generalize (@nil Z). induction l as [|[k v] l IH]; intros body; [done|].
    cbn [append_attributes]. apply no_fault_bind; [apply append_no_fault|]. intros body' _. apply IH. }
  intros body _. apply no_fault_bind; [by apply no_fault_bail|]. intros ? _.
  destruct key as [key|]; [|done]. apply no_fault_bind; [|intros tag _; apply append_no_fault].
  by destruct (turn_hmac_sha1 _ _).
Qed.
Lemma challenge_no_fault m : no_fault (authentication_from_challenge m).
Proof.
  unfold authentication_from_challenge. apply no_fault_bind; [by apply no_fault_bail|]. intros ? _.
  assert (∀ o : option bytes, no_fault (ok_or o TurnNoChallenge)) as Ho by by intros [].
  apply no_fault_bind; [apply Ho|]. intros ? _. by apply no_fault_bind; [apply Ho|].
Qed.
Section over.
Context {S : Type} (tr : Transport S) (credential : TurnCredential).
Context (Hnew : faultless (tr_new_transaction_id tr)) (Hsend : ∀ bs, faultless (tr_send tr bs)).
Context (Hreceive : ∀ tx, faultless (tr_receive_response tr tx)).
Lemma request_faultless ty l a : faultless (authenticated_request tr credential ty l a).
Proof.
  apply faultless_bind; [done|]. intros tx.
  apply faultless_bind; [apply faultless_lift, encode_no_fault|]. intros bs.
  apply faultless_bind; [apply Hsend|]. intros ?. apply Hreceive.
Qed.
Lemma allocate_faultless : faultless (allocate_over tr credential).
Proof.
  apply faultless_bind; [done|]. intros tx.
  apply faultless_bind; [apply faultless_lift, encode_no_fault|]. intros bs.
  apply faultless_bind; [apply Hsend|]. intros ?. apply faultless_bind; [apply Hreceive|]. intros response.
  apply faultless_bind; [apply faultless_lift; destruct (_ =? _); [apply challenge_no_fault|done]|].
  generalize 2%nat. intros n. induction n as [|n IH]; intros auth; cbn [allocate_authenticated_over];
    [by apply faultless_lift|].
  apply faultless_bind; [apply request_faultless|]. intros response'.
  destruct (_ =? ALLOCATE_SUCCESS); [apply faultless_mret|].
  destruct ((_ =? ALLOCATE_ERROR) && _).
  { apply faultless_bind; [apply faultless_lift, challenge_no_fault|apply IH]. }
  destruct (_ =? ALLOCATE_ERROR); by apply faultless_lift.
Qed.
Lemma create_permission_faultless a p : faultless (create_permission_over tr credential a p).
Proof.
  apply faultless_bind; [apply request_faultless|]. intros ?. apply faultless_lift. by apply no_fault_bail.
Qed.
Lemma refresh_faultless a : faultless (refresh_over tr credential a).
Proof.
  apply faultless_bind; [apply request_faultless|]. intros ?.
  apply faultless_bind; [apply faultless_lift; by apply no_fault_bail|]. intros ?. apply faultless_mret.
Qed.
Context (receive_next : handler S TurnError (option bytes)) (abandon : nat → S → S).
Context (Hnext : faultless receive_next).
Lemma on_connection_faultless {A} (m : handler S TurnError A) : faultless m → faultless (on_connection m).
Proof. intros Hm r. unfold on_connection. specialize (Hm (rr_connection r)). by destruct (m _). Qed.
Lemma forward_outbound_faultless f o now later :
  faultless (forward_outbound tr credential f o now later).
Proof.
  apply faultless_bind.
  { destruct (permission_due _ _ _); [|apply faultless_mret].
    apply faultless_bind; [apply on_connection_faultless, create_permission_faultless|]. intros ?. apply faultless_mret. }
  intros f'. apply faultless_bind; [by apply on_connection_faultless|]. intros tx.
  apply faultless_bind; [apply faultless_lift, encode_no_fault|]. intros bs.
  apply faultless_bind; [by apply on_connection_faultless|]. intros ?.
  apply faultless_bind; [apply faultless_update|]. intros ?. apply faultless_mret.
Qed.
Lemma forward_received_faultless taken : faultless (forward_received receive_next taken).
Proof.
  apply faultless_bind; [by apply on_connection_faultless|]. intros [bs|]; [|apply faultless_mret].
  apply faultless_bind; [apply faultless_lift, parse_message_no_fault|]. intros m.
  destruct (negb _); [apply faultless_mret|].
  apply faultless_bind; [apply faultless_lift, xor_peer_address_no_fault|].
  intros [peer|]; [|apply faultless_mret]. destruct (attribute_of _ _) as [[|b packet]|]; try apply faultless_mret.
  destruct (negb taken); [apply faultless_mret|].
  apply faultless_bind; [apply faultless_update|]. intros ?.
  apply faultless_bind; [apply faultless_update|]. intros ?. apply faultless_mret.
Qed.
Lemma allocate_and_forward_faultless now events :
  faultless (allocate_and_forward tr credential receive_next abandon now events).
Proof.
  apply faultless_bind; [apply on_connection_faultless, allocate_faultless|]. intros a.
  apply faultless_bind; [apply faultless_update|]. intros _.
  generalize (mkForwarding a ∅ (now + half_lifetime a)). induction events as [|[lost event] events IH]; intros f;
    cbn [forward]; [apply faultless_mret|].
  apply faultless_bind; [|intros [f'|]; [apply IH|apply faultless_mret]].
  destruct event as [stop|[o|] t later|taken|later]; cbn [forward_event].
  1, 2, 3, 5: apply faultless_bind; [apply faultless_update|]; intros ?.
  - apply faultless_mret.
  - apply faultless_bind; [apply forward_outbound_faultless|]. intros ?. apply faultless_mret.
  - apply faultless_mret.
  - apply faultless_bind; [apply on_connection_faultless, refresh_faultless|]. intros ?. apply faultless_mret.
  - apply faultless_bind; [apply forward_received_faultless|]. intros ?. apply faultless_mret.
Qed.
End over.

(** A stream: reading takes a header at least, so the fuel suffices. *)
Lemma read_exact_run n s r s' :
  read_exact n s = (r, s') →
  no_fault r ∧ ∀ bs, r = Ok bs → length bs = n ∧ (length (sm_arriving s') + n = length (sm_arriving s))%nat.
Proof.
  unfold read_exact. cbv [mbind handler_bind read mret handler_ret write lift].
  destruct (n <=? _)%nat eqn:Hn; intros [= <- <-].
  - apply Nat.leb_le in Hn. split; [done|]. intros bs [= <-]. cbn. rewrite length_take, length_drop. lia.
  - split; [by destruct (sm_closed s)|done].
Qed.
Lemma read_message_run s r s' :
  read_turn_stream_message s = (r, s') →
  no_fault r ∧ ∀ bs, r = Ok bs → (length (sm_arriving s') < length (sm_arriving s))%nat.
Proof.
  unfold read_turn_stream_message. cbv [mbind handler_bind].
  destruct (read_exact HEADER_LEN s) as [header s1] eqn:H1. apply read_exact_run in H1 as [N1 L1].
  destruct header as [header|e]; [|intros [= <- <-]; split; [by eapply no_fault_err|done]].
  destruct (L1 _ eq_refl) as [Hl1 Hs1]. unfold HEADER_LEN in *. rewrite turn_range_Ok by lia. rewrite fmap_Ok.
  unfold lift. destruct (bail_if _ _) as [u|e] eqn:Hb.
  2: { intros [= <- <-]. split; [|done]. eapply no_fault_err. rewrite <-Hb. by apply no_fault_bail. }
  destruct (read_exact _ s1) as [body s2] eqn:H2. apply read_exact_run in H2 as [N2 L2].
  destruct body as [body|e]; [|intros [= <- <-]; split; [by eapply no_fault_err|done]].
  intros [= <- <-]. split; [done|]. intros bs _. destruct (L2 _ eq_refl). lia.
Qed.
Lemma await_stream_no_fault fuel tx s :
  (length (sm_arriving s) < fuel)%nat → no_fault (await_stream_response fuel tx s).1.
Proof.
  revert s. induction fuel as [|fuel IH]; intros s Hf; [lia|]. cbn [await_stream_response].
  cbv [mbind handler_bind]. destruct (read_turn_stream_message s) as [r s1] eqn:Hr.
  apply read_message_run in Hr as [Hn Hl]. destruct r as [bs|e]; [|by eapply no_fault_err]. specialize (Hl _ eq_refl).
  unfold lift. pose proof (parse_message_no_fault bs) as Hp. destruct (parse_message bs) as [m|e]; [|by eapply no_fault_err].
  case_bool_decide; [done|]. apply IH. lia.
Qed.
Lemma draw_no_fault draws : no_fault (draw draws).1.
Proof. by destruct draws as [|[]]. Qed.
Lemma await_no_fault server tx arriving : no_fault (await_response server tx arriving).1.
Proof.
  induction arriving as [|[source bs| |] arriving IH]; cbn [await_response]; try done.
  case_bool_decide; [done|]. pose proof (parse_message_no_fault bs) as Hp.
  destruct (parse_message bs) as [m|e]; [|by eapply no_fault_err]. by case_bool_decide.
Qed.
End no_faults.
(** C34: The TURN client always returns.  Whatever a server, or whoever can send in its
    name, puts into datagrams or into the stream, and whichever calls fail, neither
    loop indexes out of a message's bounds nor runs out of the fuel given to the
    attribute loop and to the search for a response. *)
Theorem turn_client_returns `{UuidLib} `{TurnLib} route made now events :
  (∀ r e, (connect_and_forward route made now events r).1 ≠ Err (TurnFault e))
  ∧ (∀ r e, (connect_and_forward_tls route made now events r).1 ≠ Err (TurnFault e)).
Proof.
  split.
  - change (faultless (connect_and_forward route made now events)). unfold connect_and_forward.
    do 2 (apply faultless_bind; [apply faultless_lift; by apply no_fault_bail|]; intros ?).
    apply allocate_and_forward_faultless.
    + intros s. unfold tr_new_transaction_id, udp, socket_new_transaction_id.
      pose proof (draw_no_fault (so_draws s)). by destruct (draw _).
    + intros bs s. cbn. unfold send_to. cbv [mbind handler_bind read lift bail_if].
      by destruct (so_refuses s _).
    + intros tx s. cbn. unfold receive_response.
      pose proof (await_no_fault (turn_endpoint (tu_server route)) tx (so_arriving s)). by destruct (await_response _ _ _).
    + intros s. unfold receive_datagram. cbv [mbind handler_bind read mret handler_ret write lift].
      by destruct (so_arriving s) as [|[]].
  - change (faultless (connect_and_forward_tls route made now events)). unfold connect_and_forward_tls.
    do 3 (apply faultless_bind; [apply faultless_lift; by apply no_fault_bail|]; intros ?).
    apply allocate_and_forward_faultless.
    + intros s. cbn. unfold stream_new_transaction_id. pose proof (draw_no_fault (sm_draws s)). by destruct (draw _).
    + intros bs. cbn. unfold write_turn_stream_message.
      apply faultless_bind; [apply faultless_lift, parse_message_no_fault|]. intros _ s.
      cbv [mbind handler_bind read lift bail_if]. by destruct (sm_refuses s _).
    + intros tx s. cbn. unfold receive_stream_response. cbv [mbind handler_bind read].
      apply await_stream_no_fault. lia.
    + intros s. unfold receive_stream_message. destruct (read_turn_stream_message s) as [x s'] eqn:Hr.
      apply read_message_run in Hr as [Hx _]. destruct x as [bs|[]]; try done; by destruct (Hx e).
Qed.

(** ** The times of an allocation *)
Section times.
Context `{UuidLib} `{TurnLib} {S : Type} (tr : Transport S) (credential : TurnCredential).
Context (receive_next : handler S TurnError (option bytes)) (abandon : nat → S → S).
Definition authenticated (a : Authentication) : Prop :=
  60 ≤ au_lifetime a ≤ 300 ∧ au_realm a ≠ [] ∧ au_nonce a ≠ [].
Lemma granted_bounds m : 60 ≤ granted_lifetime m ≤ 300.
Proof. unfold granted_lifetime, DEFAULT_LIFETIME. lia. Qed.
Lemma challenge_Ok m a : authentication_from_challenge m = Ok a → authenticated a.
Proof.
  unfold authentication_from_challenge. intros (? & _ & Hr)%bind_Ok.
  apply bind_Ok in Hr as (realm & Hrealm%ok_or_Ok & Hr). apply bind_Ok in Hr as (nonce & Hnonce%ok_or_Ok & Hr).
  apply Ok_inj in Hr as <-. split_and!; cbn; try (unfold DEFAULT_LIFETIME; lia).
  - destruct (attribute_of m ATTR_REALM) as [[|]|]; [done| |done]. by injection Hrealm as <-.
  - destruct (attribute_of m ATTR_NONCE) as [[|]|]; [done| |done]. by injection Hnonce as <-.
Qed.
Lemma allocate_authenticated_Ok n a s a' s' :
  authenticated a → allocate_authenticated_over tr credential n a s = (Ok a', s') → authenticated a'.
Proof.
  revert a s. induction n as [|n IH]; intros a s Ha; cbn [allocate_authenticated_over]; [done|].
  intros (response & s1 & _ & Hr)%handler_bind_Ok.
  destruct (_ =? ALLOCATE_SUCCESS).
  { injection Hr as <- <-. destruct Ha as (_ & Hrn). split; [apply granted_bounds|done]. }
  destruct ((_ =? ALLOCATE_ERROR) && _).
  - apply handler_bind_Ok in Hr as (a1 & s2 & [Hc _]%lift_run & Hr). apply challenge_Ok in Hc. by eapply IH.
  - by destruct (_ =? ALLOCATE_ERROR).
Qed.
Lemma allocate_Ok s a s' : allocate_over tr credential s = (Ok a, s') → authenticated a.
Proof.
  unfold allocate_over. intros (tx & s1 & _ & Hr)%handler_bind_Ok.
  apply handler_bind_Ok in Hr as (bs & s2 & _ & Hr). apply handler_bind_Ok in Hr as (u & s3 & _ & Hr).
  apply handler_bind_Ok in Hr as (response & s4 & _ & Hr).
  apply handler_bind_Ok in Hr as (a0 & s5 & [Hc _]%lift_run & Hr).
  destruct (_ =? ALLOCATE_ERROR); [|done]. apply challenge_Ok in Hc. by eapply allocate_authenticated_Ok.
Qed.
Lemma refresh_Ok a s a' s' :
  authenticated a → refresh_over tr credential a s = (Ok a', s') → authenticated a'.
Proof.
  intros (_ & Hrn). unfold refresh_over. intros (response & s1 & _ & Hr)%handler_bind_Ok.
  apply handler_bind_Ok in Hr as (u & s2 & _ & Hr). injection Hr as <- _. split; [apply granted_bounds|done].
Qed.

(** The turns a loop has made, the last one first. *)
Abbreviation loop_state := (Forwarding * RouteRun S)%type.
Inductive turns (start : loop_state) : list TurnEvent → loop_state → Prop :=
| turns_none : turns start [] start
| turns_more events f r lost event f' r' :
    turns start events (f, r) →
    forward_event tr credential receive_next abandon f lost event r = (Ok (Some f'), r') →
    turns start (event :: events) (f', r').
(** The expiry of a permission is four minutes after it was obtained for a packet. *)
Definition permitted (events : list TurnEvent) (peer : SocketAddr) (expiry : Z) : Prop :=
  ∃ o now obtained, OutboundReady (Some o) now obtained ∈ events ∧ to_peer o = peer
    ∧ expiry = obtained + secs 240.
Record kept_alive (events : list TurnEvent) (start : Z) (f : Forwarding) : Prop := {
  ka_authenticated : authenticated (fo_authentication f);
  ka_refresh : ∃ t, fo_refresh_deadline f = t + half_lifetime (fo_authentication f)
    ∧ (t = start ∨ RefreshDue t ∈ events);
  ka_permissions : ∀ peer expiry, fo_permissions f !! peer = Some expiry → permitted events peer expiry;
}.
Lemma permitted_more event events peer expiry :
  permitted events peer expiry → permitted (event :: events) peer expiry.
Proof. intros (o & now & t & Hin & Hp & He). exists o, now, t. split; [by right|done]. Qed.
Lemma kept_alive_more event events start f : kept_alive events start f → kept_alive (event :: events) start f.
Proof.
  intros [Ha (t & Hd & Ht) Hp]. split; [done| |intros ???; by apply permitted_more, Hp].
  exists t. split; [done|]. destruct Ht; [by left|right; by right].
Qed.
Lemma forward_outbound_Ok f o now later r f' r' :
  forward_outbound tr credential f o now later r = (Ok f', r') →
  f' = if permission_due f (to_peer o) now
       then set_forwarding_permission f (to_peer o) (later + secs 240) else f.
Proof.
  unfold forward_outbound. intros (f1 & r1 & H1 & Hr)%handler_bind_Ok.
  apply handler_bind_Ok in Hr as (tx & r2 & _ & Hr). apply handler_bind_Ok in Hr as (bs & r3 & _ & Hr).
  apply handler_bind_Ok in Hr as (u & r4 & _ & Hr). apply handler_bind_Ok in Hr as (u' & r5 & _ & Hr).
  injection Hr as <- _. destruct (permission_due _ _ _); [|by injection H1 as <- _].
  apply handler_bind_Ok in H1 as (u1 & r6 & _ & H1). by injection H1 as <- _.
Qed.
Lemma outbound_event_Ok f lost o now later r f' r' :
  forward_event tr credential receive_next abandon f lost (OutboundReady (Some o) now later) r
    = (Ok (Some f'), r') →
  f' = if permission_due f (to_peer o) now
       then set_forwarding_permission f (to_peer o) (later + secs 240) else f.
Proof.
  cbn [forward_event]. intros (u & r1 & _ & Hr)%handler_bind_Ok.
  apply handler_bind_Ok in Hr as (f1 & r2 & H1 & Hr). injection Hr as -> _. by eapply forward_outbound_Ok.
Qed.
Lemma event_keeps_alive events start f lost event r f' r' :
  kept_alive events start f →
  forward_event tr credential receive_next abandon f lost event r = (Ok (Some f'), r') →
  kept_alive (event :: events) start f'.
Proof.
  intros Hk Hr. pose proof (kept_alive_more event _ _ _ Hk) as [Ha Hd Hp].
  destruct event as [stop|[o|] now later|taken|later].
  - cbn [forward_event] in Hr. apply handler_bind_Ok in Hr as (u & r1 & _ & Hr).
    destruct stop; [done|]. by injection Hr as <- _.
  - apply outbound_event_Ok in Hr as ->. destruct (permission_due _ _ _); [|done]. split; [done..|].
    intros peer expiry. cbn [set_forwarding_permission fo_permissions].
    intros [[<- <-]|[_ He]]%lookup_insert_Some; [|by apply Hp].
    exists o, now, later. split; [left|done].
  - cbn [forward_event] in Hr. apply handler_bind_Ok in Hr as (u & r1 & _ & Hr). done.
  - cbn [forward_event] in Hr. apply handler_bind_Ok in Hr as ([] & r1 & _ & Hr); [|done].
    by injection Hr as <- _.
  - cbn [forward_event] in Hr. apply handler_bind_Ok in Hr as (u & r1 & _ & Hr).
    apply handler_bind_Ok in Hr as (a & r2 & Hrun & Hr). injection Hr as <- _.
    unfold on_connection in Hrun. destruct (refresh_over _ _ _ _) as [x s] eqn:Hx. injection Hrun as -> _.
    split; [by eapply refresh_Ok| |done]. exists later. split; [done|]. right. left.
Qed.
Lemma turns_keep_alive a now r events f r' :
  authenticated a → turns (mkForwarding a ∅ (now + half_lifetime a), r) events (f, r') →
  kept_alive events now f.
Proof.
  intros Ha Ht. remember (f, r') as c eqn:Hc. revert f r' Hc.
  induction Ht as [|events f0 r0 lost event f1 r1 Ht IH Hr]; intros f r' [= <- <-].
  - split; [done| |done]. exists now. split; [done|by left].
  - pose proof (IH f0 r0 eq_refl) as Hk. by eapply event_keeps_alive; [exact Hk|exact Hr].
Qed.
End times.
(** C33: The times of an allocation, over either connection.  Whatever lifetimes the
    server grants, in every state that the loop reaches after an allocation the
    lifetime is between one and five minutes, the refresh is due half a lifetime after
    the allocation or the last refresh, that is after half a minute at the least and
    with half a minute to spare, and realm and nonce are not empty.  A packet goes out
    only under a permission for its peer that was obtained for a packet to it less
    than three and a half minutes ago; the server keeps it for five. *)
Theorem turn_times_bounded `{UuidLib} `{TurnLib} {S} (tr : Transport S) credential receive_next abandon
    s a s' now r events f r' :
  allocate_over tr credential s = (Ok a, s') →
  turns tr credential receive_next abandon (mkForwarding a ∅ (now + half_lifetime a), r) events (f, r') →
  60 ≤ au_lifetime (fo_authentication f) ≤ 300
  ∧ au_realm (fo_authentication f) ≠ [] ∧ au_nonce (fo_authentication f) ≠ []
  ∧ (∃ t, (t = now ∨ RefreshDue t ∈ events)
     ∧ t + secs 30 ≤ fo_refresh_deadline f ≤ t + secs (au_lifetime (fo_authentication f)) - secs 30)
  ∧ ∀ o t later lost f' r'', t ≤ later →
    forward_event tr credential receive_next abandon f lost (OutboundReady (Some o) t later) r'
      = (Ok (Some f'), r'') →
    ∃ o' t' obtained, OutboundReady (Some o') t' obtained ∈ OutboundReady (Some o) t later :: events
      ∧ to_peer o' = to_peer o ∧ t < obtained + secs 210.
Proof.
  intros Ha%allocate_Ok Ht. pose proof (turns_keep_alive _ _ _ _ _ _ _ _ _ _ Ha Ht) as Hk.
  pose proof Hk as [(Hl & Hr & Hn) (t & Hd & Hdue) _]. split_and!; [lia|lia|done|done| |].
  - exists t. split; [done|]. rewrite Hd. unfold half_lifetime, secs.
    pose proof (Z.div_mod (au_lifetime (fo_authentication f) * 1000000000) 2).
    pose proof (Z.mod_pos_bound (au_lifetime (fo_authentication f) * 1000000000) 2). lia.
  - intros o t1 later lost f' r'' Hle Hev. pose proof (event_keeps_alive _ _ _ _ _ _ _ _ _ _ _ _ Hk Hev) as [_ _ Hp].
    apply outbound_event_Ok in Hev. unfold permission_due in Hev.
    assert (∃ expiry, fo_permissions f' !! to_peer o = Some expiry ∧ t1 + secs 30 < expiry) as (expiry & He & Hlt).
    { destruct (fo_permissions f !! to_peer o) as [e|] eqn:He.
      - destruct (Z.leb_spec e (t1 + secs 30)); subst f'; [|by exists e].
        exists (later + secs 240). split; [apply lookup_insert_eq|unfold secs; lia].
      - subst f'. exists (later + secs 240). split; [apply lookup_insert_eq|unfold secs; lia]. }
    destruct (Hp _ _ He) as (o' & t' & obtained & Hin & Hpeer & ->). exists o', t', obtained.
    split_and!; [done|done|unfold secs in *; lia].
Qed.

(** ** A session with a server: a challenge, an allocation, a packet in and a packet out *)
#[export] Instance turn_sample : TurnLib := {|
  md5_compute m := be_bytes 16 (from_be m);
  turn_hmac_sha1 key m := Some (be_bytes 20 (from_be key + from_be m));
|}.
#[export] Instance turn_sample_laws : TurnLibLaws.
Proof. split. by intros key m tag [= <-]. Qed.
Module Sample.
Definition server : SocketAddr := socket_new (V4 5) 3478.
Definition stranger : SocketAddr := socket_new (V4 6) 3478.
Definition peer : SocketAddr := socket_new (V6 (2 ^ 125 + 1)) 9.
Definition credential : TurnCredential := mkTurnCredential 1 "u" "p" 9.
Definition udp_route : TurnUdpRoute :=
  mkTurnUdpRoute (mkNetworkId (uuid_of 1)) (mkPlanetTurnServer server Udp None [] 1) credential.
Definition id (n : Z) : bytes := replicate 12 n.
Definition message (ty : Z) (tx : bytes) (l : list attribute) : bytes :=
  match encode_message ty tx l None with Ok bs => bs | Err _ => [] end.
Definition challenge (code : Z) (tx : bytes) : bytes :=
  message ALLOCATE_ERROR tx [(ATTR_ERROR_CODE, [0; 0; 4; code]); (ATTR_REALM, [114]); (ATTR_NONCE, [110; code])].
Definition granted (ty : Z) (tx : bytes) (seconds : Z) : bytes :=
  message ty tx [(ATTR_LIFETIME, be_bytes 4 seconds)].
Definition data (tx packet : bytes) : bytes :=
  message DATA_INDICATION tx [(ATTR_XOR_PEER_ADDRESS, encode_xor_address peer); (ATTR_DATA, packet)].
(** The second request finds its nonce stale, and a stranger interferes. *)
Definition socket : Socket :=
  mkSocket [Datagram stranger [1]; Datagram server (challenge 1 (id 1)); Datagram server (challenge 38 (id 2));
            Datagram stranger (data (id 3) [6]); Datagram server (granted ALLOCATE_SUCCESS (id 3) 1);
            Datagram stranger (data (id 4) [7]); Datagram server (data (id 4) [8; 9]);
            Datagram server (message CREATE_PERMISSION_SUCCESS (id 5) [])]
    [] (map (λ n, Some (id n)) [1; 2; 3; 5; 6]) (λ _, false).
Definition run : RouteRun Socket := mkRouteRun socket false (telemetry_reset 1) [].
Definition outbound : TurnEvent := OutboundReady (Some (mkTurnOutbound peer [1; 2; 3])) 10 11.
Definition events : list (nat * TurnEvent) :=
  [(0%nat, ReceiveReady true); (0%nat, ReceiveReady true); (0%nat, outbound); (0%nat, ShutdownChanged true)].

(** The states that the session passes through. *)
Definition allocation : Authentication := mkAuthentication [114] [110; 38] 60.
Definition connected : Socket := (allocate_over (udp server) credential socket).2.
Definition allocated : RouteRun Socket := mkRouteRun connected true (telemetry_reset 1) [].
Definition idle : Forwarding := mkForwarding allocation ∅ (0 + half_lifetime allocation).
Definition turn (f : Forwarding) (event : TurnEvent) (r : RouteRun Socket)
    : result TurnError (option Forwarding) * RouteRun Socket :=
  forward_event (udp server) credential (receive_datagram server) (λ _ s, s) f 0 event r.
Definition received : RouteRun Socket := (turn idle (ReceiveReady true) allocated).2.
Definition received_twice : RouteRun Socket := (turn idle (ReceiveReady true) received).2.
Definition allowed : Forwarding := set_forwarding_permission idle peer (11 + secs 240).
Lemma run_of {A B} (x : A * B) a : x.1 = a → x = (a, x.2).
Proof. by destruct x; cbn; intros ->. Qed.
End Sample.
Lemma turn_message_roundtrip_witness :
  ∃ l', parse_message (Sample.message DATA_INDICATION (Sample.id 1) [(ATTR_DATA, [7; 8; 9])])
    = Ok (mkMessage DATA_INDICATION (Sample.id 1) l').
Proof.
  destruct (turn_message_roundtrip DATA_INDICATION (Sample.id 1) [(ATTR_DATA, [7; 8; 9])] None
    (Sample.message DATA_INDICATION (Sample.id 1) [(ATTR_DATA, [7; 8; 9])])) as (l' & _ & Hp).
  - by vm_compute.
  - by vm_compute.
  - repeat constructor; by vm_compute.
  - by vm_compute.
  - exists l'. exact Hp.
Defined.
Lemma turn_address_masks_witness :
  ∃ m, xor_peer_address m = Ok (Some Sample.peer)
    ∧ encode_xor_address Sample.peer ≠ xor_mapped_address (Sample.id 1) Sample.peer.
Proof.
  exists (mkMessage DATA_INDICATION (Sample.id 1) [(ATTR_XOR_PEER_ADDRESS, encode_xor_address Sample.peer)]).
  destruct (turn_address_masks Sample.peer (Sample.id 1)
    (mkMessage DATA_INDICATION (Sample.id 1) [(ATTR_XOR_PEER_ADDRESS, encode_xor_address Sample.peer)])) as [Hp [Hm _]].
  - split; by vm_compute.
  - done.
  - by vm_compute.
  - split; [exact Hp|]. intros He. by destruct (Hm He) as [?%(f_equal negb)|?].
Defined.
Lemma turn_stream_framing_witness :
  ∃ s, read_turn_stream_message s
    = (Ok (Sample.challenge 1 (Sample.id 1)), with_bytes s (Sample.granted ALLOCATE_SUCCESS (Sample.id 2) 60)).
Proof.
  exists (mkStream (Sample.challenge 1 (Sample.id 1) ++ Sample.granted ALLOCATE_SUCCESS (Sample.id 2) 60)
    false [] [] (λ _, false)).
  apply (turn_stream_framing _ (mkMessage ALLOCATE_ERROR (Sample.id 1)
    [(ATTR_ERROR_CODE, [0; 0; 4; 1]); (ATTR_REALM, [114]); (ATTR_NONCE, [110; 1])])).
  - by vm_compute.
  - done.
Defined.
Lemma turn_delivers_from_server_witness :
  ∃ x r', connect_and_forward Sample.udp_route true 0 Sample.events Sample.run = (x, r')
    ∧ rr_delivered r' = [mkTurnInbound Sample.peer [8; 9]]
    ∧ ∃ new, rr_delivered r' = [] ++ new
      ∧ Forall (handed_on Sample.server (so_arriving Sample.socket)) new.
Proof.
  eexists _, _. split; [apply Sample.run_of; by vm_compute|]. split; [by vm_compute|].
  apply (turn_delivers_from_server Sample.udp_route true 0 Sample.events Sample.run (Ok true)).
  apply Sample.run_of. by vm_compute.
Defined.
Lemma turn_times_bounded_witness :
  60 ≤ au_lifetime (fo_authentication Sample.idle) ≤ 300
  ∧ ∃ o' t' obtained, OutboundReady (Some o') t' obtained ∈ [Sample.outbound; ReceiveReady true; ReceiveReady true]
      ∧ to_peer o' = Sample.peer ∧ 10 < obtained + secs 210.
Proof.
  assert (allocate_over (udp Sample.server) Sample.credential Sample.socket
    = (Ok Sample.allocation, Sample.connected)) as Ha
    by (refine (Sample.run_of _ (Ok Sample.allocation) _); vm_compute; reflexivity).
  assert (Sample.turn Sample.idle (ReceiveReady true) Sample.allocated
    = (Ok (Some Sample.idle), Sample.received)) as H1
    by (refine (Sample.run_of _ (Ok (Some Sample.idle)) _); vm_compute; reflexivity).
  assert (Sample.turn Sample.idle (ReceiveReady true) Sample.received
    = (Ok (Some Sample.idle), Sample.received_twice)) as H2
    by (refine (Sample.run_of _ (Ok (Some Sample.idle)) _); vm_compute; reflexivity).
  assert (Sample.turn Sample.idle Sample.outbound Sample.received_twice
    = (Ok (Some Sample.allowed), (Sample.turn Sample.idle Sample.outbound Sample.received_twice).2)) as H3
    by (refine (Sample.run_of _ (Ok (Some Sample.allowed)) _); vm_compute; reflexivity).
  unfold Sample.turn in H1, H2, H3.
  pose proof (turns_more (udp Sample.server) Sample.credential (receive_datagram Sample.server) (λ _ s, s) _ []
    Sample.idle Sample.allocated 0%nat (ReceiveReady true) Sample.idle Sample.received
    (turns_none _ _ _ _ (Sample.idle, Sample.allocated)) H1) as Ht1.
  pose proof (turns_more (udp Sample.server) Sample.credential (receive_datagram Sample.server) (λ _ s, s) _ _
    Sample.idle Sample.received 0%nat (ReceiveReady true) Sample.idle Sample.received_twice Ht1 H2) as Ht.
  destruct (turn_times_bounded (udp Sample.server) Sample.credential (receive_datagram Sample.server) (λ _ s, s)
    Sample.socket Sample.allocation Sample.connected 0 Sample.allocated
    _ Sample.idle Sample.received_twice Ha Ht) as (Hl & _ & _ & _ & Hp).
  split; [exact Hl|].
  exact (Hp (mkTurnOutbound Sample.peer [1; 2; 3]) 10 11 0%nat Sample.allowed _ ltac:(lia) H3).
Defined.

(** A read of the TLS stream that another event interrupts loses what it had taken:
    here the header of the first of two Data indications, after which the loop takes
    the rest of it for a message and ends. *)
Example abandoned_read_loses_packets :
  let loop := forward tls Sample.credential receive_stream_message abandon_stream_read Sample.idle in
  let arriving := Sample.data (Sample.id 1) [8; 9] ++ Sample.data (Sample.id 2) [7] in
  let start := mkRouteRun (mkStream arriving false [] [] (λ _, false)) true (telemetry_reset 1) [] in
  let interrupted lost := [(lost, ShutdownChanged false); (0%nat, ReceiveReady true);
                           (0%nat, ReceiveReady true); (0%nat, ShutdownChanged true)] in
  (loop (interrupted 0%nat) start).1 = Ok true
  ∧ rr_delivered (loop (interrupted 0%nat) start).2
    = [mkTurnInbound Sample.peer [8; 9]; mkTurnInbound Sample.peer [7]]
  ∧ (loop (interrupted 20%nat) start).1 = Err TurnMalformed
  ∧ rr_delivered (loop (interrupted 20%nat) start).2 = [].
Proof. vm_compute. repeat split. Qed.
