(* ===== verification/TlsRelayFacts.v ===== *)
(** * Relays over TLS: the pin, the frames end to end, and what the transport keeps *)
From S2P Require Import Prelude Request Net Text Ext Concrete Model Planet RelayServer.
From S2P Require Import AgentSession TlsRelay TurnFacts RelayFacts.
#[local] Open Scope Z_scope.

(** ** Whom a route talks to *)
(** The certificate of a handshake is the pinned one, and the transcript is signed with its
    key. *)
Definition proved_pin `{SessionCrypto} `{Webpki} (pin : bytes) (h : PeerHandshake) : Prop :=
  hs_certificate h ≠ [] ∧ length pin = 32%nat ∧ sha256 (hs_certificate h) = pin
  ∧ dss_scheme (hs_signature h) ∈ supported_verify_schemes
  ∧ ∃ certificate algorithms algorithm,
      end_entity_cert (hs_certificate h) = Some certificate
      ∧ signature_algorithms (dss_scheme (hs_signature h)) = Some algorithms ∧ algorithm ∈ algorithms
      ∧ verify_signature certificate algorithm (hs_transcript h) (dss_signature (hs_signature h)) = true.
Lemma pin_verified `{SessionCrypto} pin cert :
  verify_leaf_certificate_pin_bytes pin cert = Ok tt → cert ≠ [] ∧ length pin = 32%nat ∧ sha256 cert = pin.
Proof.
  unfold verify_leaf_certificate_pin_bytes.
  intros (? & [He%is_empty_false Hl%negb_false_iff%Nat.eqb_eq]%bail_if_Ok%orb_false_iff & Hs%bail_if_Ok)%bind_Ok.
  apply bool_decide_eq_false in Hs. split_and!; [done|done|]. by apply dec_stable.
Qed.
Lemma signature_verified `{Webpki} message cert dss tls13 :
  verify_handshake_signature message cert dss tls13 = Ok tt →
  ∃ certificate algorithms algorithm, end_entity_cert cert = Some certificate
    ∧ signature_algorithms (dss_scheme dss) = Some algorithms ∧ algorithm ∈ algorithms
    ∧ verify_signature certificate algorithm message (dss_signature dss) = true.
Proof.
  unfold verify_handshake_signature. intros (? & _ & Hr)%bind_Ok.
  apply bind_Ok in Hr as (certificate & Hc%ok_or_Ok & Hr). apply bind_Ok in Hr as (algorithms & Ha%ok_or_Ok & Hr).
  destruct (existsb _ _) eqn:He; [|done]. apply existsb_exists in He as (algorithm & Hin & Hv).
  exists certificate, algorithms, algorithm. split_and!; [done..| |done]. by apply list_elem_of_In.
Qed.
Lemma connect_proves_pin `{SessionCrypto} `{Webpki} `{RustlsLaws} name pin peer stream :
  connect_pinned_tls name pin peer = Ok stream →
  ∃ server p, server_name_try_from name = Some server ∧ peer = Some p
    ∧ stream = hs_stream (shown server p) ∧ proved_pin pin (shown server p).
Proof.
  unfold connect_pinned_tls. intros (server & Hn%ok_or_Ok & Hr)%bind_Ok.
  apply bind_Ok in Hr as (p & Hp%ok_or_Ok & Hr%ok_or_Ok).
  apply tls_connect_verified in Hr as (-> & Hcert & Hs & Hsig).
  exists server, p. split_and!; [done..|]. apply pin_verified in Hcert as (He & Hl & Hp').
  assert (∃ tls13, verify_handshake_signature (hs_transcript (shown server p)) (hs_certificate (shown server p))
    (hs_signature (shown server p)) tls13 = Ok tt) as (tls13 & Hv)
    by (destruct Hsig as [Hv|Hv]; [exists false|exists true]; exact Hv).
  apply signature_verified in Hv as (certificate & algorithms & algorithm & ? & ? & ? & ?).
  split_and!; [done..|]. by exists certificate, algorithms, algorithm.
Qed.

(** A run adds to what was delivered, for the endpoint of its route. *)
Section relay_run.
Context `{UuidLib} `{SessionCrypto} `{Webpki} `{Rustls} (endpoint : SocketAddr).
Record run_grows (r r' : TlsRun) : Prop := {
  ug_delivered : ∃ new, tn_delivered r' = tn_delivered r ++ new
    ∧ Forall (λ i, tri_relay_endpoint i = endpoint) new;
}.
#[local] Instance run_grows_preorder : PreOrder run_grows.
Proof.
  split; [intros r; split; exists []; by rewrite app_nil_r|].
  intros r1 r2 r3 [(n1 & D1 & F1)] [(n2 & D2 & F2)]. split. exists (n1 ++ n2).
  rewrite D2, D1, (assoc_L (++)). split; [done|by apply Forall_app_2].
Qed.
Lemma same_delivered r r' : tn_delivered r' = tn_delivered r → run_grows r r'.
Proof. intros Hd. split. exists []. by rewrite app_nil_r. Qed.
Lemma on_stream_within {A} (m : handler TlsStream TlsRelayError A) : within run_grows (on_stream m).
Proof. intros r x r'. unfold on_stream. destruct (m _). intros [= _ <-]. by apply same_delivered. Qed.
Lemma count_frame_within f : within run_grows (count_frame f).
Proof. intros r x r' [= _ <-]. by apply same_delivered. Qed.
Lemma relay_event_within lost event : within run_grows (relay_event endpoint lost event).
Proof.
  destruct event as [stop|[packet|]|taken]; cbn [relay_event].
  - apply within_bind; [apply _|apply on_stream_within|]. intros ?. by apply within_mret; apply _.
  - apply within_bind; [apply _|apply on_stream_within|]. intros ?.
    apply within_bind; [apply _|apply on_stream_within|]. intros ?.
    apply within_bind; [apply _|apply count_frame_within|]. intros ?. by apply within_mret; apply _.
  - by apply within_mret; apply _.
  - apply within_bind; [apply _|apply on_stream_within|].
    intros [[packet|]|]; try by apply within_mret; apply _.
    destruct (negb taken); [by apply within_mret; apply _|].
    apply within_bind; [apply _| |intros ?; apply within_bind; [apply _|apply count_frame_within|]].
    + intros r x r' [= _ <-]. split. eexists. split; [done|]. by apply Forall_singleton.
    + intros ?. by apply within_mret; apply _.
Qed.
Lemma relay_loop_within events : within run_grows (relay_loop endpoint events).
Proof.
  induction events as [|[lost event] events IH]; cbn [relay_loop]; [by apply within_mret; apply _|].
  apply within_bind; [apply _|apply relay_event_within|]. intros []; [apply IH|by apply within_mret; apply _].
Qed.
End relay_run.
(** The state of a route once it is connected over a stream. *)
Definition connected_run (stream : TlsStream) (r : TlsRun) : TlsRun :=
  mkTlsRun stream true (if tn_connected r then tn_telemetry r else add_connected 1 (tn_telemetry r))
    (tn_delivered r).
(** C29: a route over TLS talks to its relay only.  Whatever the peer of a connection shows
    in the handshake and sends, whichever calls fail and in whatever order the loop finds
    its events: either the connection fails and nothing of the route has changed; or the
    certificate that this peer showed has the pin of the route as its digest, all of its
    32 bytes, and the transcript of this handshake is signed with the key of this
    certificate, under a scheme the verifier supports, and then the route is connected and
    every byte is written to and read from the stream of the session with this peer.
    Every packet is handed on under the endpoint of the relay. *)
Theorem tls_relay_pinned `{UuidLib} `{SessionCrypto} `{Webpki} `{RustlsLaws} route peer events r x r' :
  connect_and_forward route peer events r = (x, r') →
  (is_ok x = false ∧ r' = r)
  ∨ ∃ server p, server_name_try_from (tls_server_name (tr_relay route)) = Some server ∧ peer = Some p
      ∧ proved_pin (tls_certificate_sha256 (tr_relay route)) (shown server p)
      ∧ relay_loop (tr_relay_endpoint route) events (connected_run (hs_stream (shown server p)) r) = (x, r')
      ∧ ∃ new, tn_delivered r' = tn_delivered r ++ new
          ∧ Forall (λ i, tri_relay_endpoint i = tr_relay_endpoint route) new.
Proof.
  unfold connect_and_forward. intros [(stream & r1 & Hc & Hr)|(e & Hc & ->)]%handler_bind_run;
    apply lift_run in Hc as [Hc ->]; [right|by left].
  apply connect_proves_pin in Hc as (server & p & Hn & Hp & -> & Hpin). exists server, p.
  apply handler_bind_run in Hr as [(u' & r2 & [= _ <-] & Hr)|(e & [=] & _)].
  split_and!; [done..|]. by apply relay_loop_within in Hr as [Hnew].
Qed.

(** ** Frames *)
Definition frame (f : bytes) : bytes := be_bytes 4 (len f) ++ f.
Definition frames (fs : list bytes) : bytes := concat (map frame fs).
Definition framable (f : bytes) : Prop := 0 < len f ≤ 65535.
Lemma length_frame f : length (frame f) = (4 + length f)%nat.
Proof. unfold frame. by rewrite length_app, length_be_bytes. Qed.
Lemma frames_app a b : frames (a ++ b) = frames a ++ frames b.
Proof. unfold frames. by rewrite map_app, concat_app. Qed.
Lemma frame_size f : framable f → from_be (be_bytes 4 (len f)) = len f.
Proof. intros Hf. rewrite from_be_be_bytes. apply Z.mod_small. unfold framable in Hf. lia. Qed.
Lemma framable_nonempty f : framable f → f ≠ [].
Proof. intros [Hf _] ->. change (len (@nil Z)) with 0 in Hf. lia. Qed.
Lemma framable_check f : framable f ↔ is_empty f || (65535 <? len f) = false.
Proof.
  unfold framable. rewrite orb_false_iff, Z.ltb_ge. destruct f as [|b f]; cbn [is_empty].
  - change (len (@nil Z)) with 0. split; [lia|by intros []].
  - rewrite len_cons. pose proof (len_nonneg f). split; [lia|]. intros []. lia.
Qed.
(** What the front of a stream is that may have been cut anywhere. *)
Lemma front_of_frames arriving fs :
  arriving `prefix_of` frames fs →
  (length arriving < 4)%nat
  ∨ ∃ f fs', fs = f :: fs' ∧ take 4 arriving = be_bytes 4 (len f)
    ∧ ((length arriving < 4 + length f)%nat ∨ ∃ rest, arriving = frame f ++ rest ∧ rest `prefix_of` frames fs').
Proof.
  intros [tail Hf]. destruct (decide (length arriving < 4)%nat) as [|Hl]; [by left|right].
  destruct fs as [|f fs].
  { symmetry in Hf. apply app_nil in Hf as [-> _]. cbn in Hl. lia. }
  exists f, fs. split; [done|].
  assert (frame f ++ frames fs = arriving ++ tail) as Hs by (rewrite <-Hf; done).
  split.
  - transitivity (take 4 (arriving ++ tail)); [by rewrite take_app_le by lia|]. rewrite <-Hs.
    unfold frame. rewrite <-(assoc_L (++)). by rewrite take_app_length' by (by rewrite length_be_bytes).
  - destruct (decide (length arriving < 4 + length f)%nat) as [|Hlf]; [by left|right].
    exists (drop (4 + length f) arriving). rewrite <-length_frame in *. split.
    + rewrite <-(take_drop (length (frame f)) arriving) at 1. f_equal.
      transitivity (take (length (frame f)) (arriving ++ tail)); [by rewrite take_app_le by lia|].
      rewrite <-Hs. by rewrite take_app_length.
    + exists tail. transitivity (drop (length (frame f)) (frame f ++ frames fs)); [by rewrite drop_app_length|].
      rewrite Hs, drop_app_le by lia. done.
Qed.
Lemma frames_front_checked arriving f fs :
  Forall framable (f :: fs) → take 4 arriving = be_bytes 4 (len f) → from_be (take 4 arriving) = len f ∧ framable f.
Proof. intros Hf Ht. apply Forall_cons_1 in Hf as [Hf _]. rewrite Ht. split; [by apply frame_size|done]. Qed.

(** What a write leaves, and what it leaves alone. *)
Lemma write_all_run bs s x s' :
  write_all bs s = (x, s') →
  ts_arriving s' = ts_arriving s ∧ ts_end s' = ts_end s
  ∧ ∃ n, ts_written s' = ts_written s ++ take n bs ∧ (is_ok x = true → take n bs = bs).
Proof.
  unfold write_all. cbv [mbind handler_bind read]. destruct (ts_outcomes s) as [|[n|] outcomes];
    cbv [write lift]; intros [= <- <-]; (split; [done|]); (split; [done|]); cbn.
  - exists (length bs). by rewrite firstn_all.
  - by exists n.
  - exists (length bs). by rewrite firstn_all.
Qed.
Lemma take_prefix {A} n (l : list A) : take n l `prefix_of` l.
Proof. exists (drop n l). by rewrite take_drop. Qed.
Lemma write_tcp_frame_run f s x s' :
  write_tcp_frame f s = (x, s') →
  ts_arriving s' = ts_arriving s ∧ ts_end s' = ts_end s
  ∧ ∃ bs, ts_written s' = ts_written s ++ bs
    ∧ (bs = [] ∧ is_ok x = false ∨ framable f ∧ bs `prefix_of` frame f ∧ (is_ok x = true → bs = frame f)).
Proof.
  unfold write_tcp_frame. intros [(u & s1 & Hc & Hr)|(e & Hc & ->)]%handler_bind_run; apply lift_run in Hc as [Hc ->].
  2: { split_and!; [done..|]. exists []. rewrite app_nil_r. split; [done|by left]. }
  apply bail_if_Ok, framable_check in Hc.
  apply handler_bind_run in Hr as [(u' & s2 & H1 & Hr)|(e & H1 & ->)];
    apply write_all_run in H1 as (A1 & E1 & n1 & W1 & F1).
  2: { split_and!; [done..|]. eexists. split; [done|right]. split_and!; [done| |done].
       etransitivity; [apply take_prefix|]. by eexists. }
  apply handler_bind_run in Hr as [(u'' & s3 & H2 & Hr)|(e & H2 & ->)];
    apply write_all_run in H2 as (A2 & E2 & n2 & W2 & F2).
  2: { rewrite W2, W1, (F1 eq_refl), <-(assoc_L (++)). split_and!; [congruence..|]. eexists. split; [done|right].
       split_and!; [done| |done]. apply prefix_app, take_prefix. }
  apply write_all_run in Hr as (A3 & E3 & n3 & W3 & F3).
  rewrite W3, W2, W1, (F1 eq_refl), (F2 eq_refl), take_nil, app_nil_r, <-(assoc_L (++)).
  split_and!; [congruence..|]. eexists. split; [done|right]. by split_and!.
Qed.
Lemma read_exact_written n s x s' :
  read_exact n s = (x, s') → ts_written s' = ts_written s ∧ ts_end s' = ts_end s.
Proof.
  unfold read_exact. cbv [mbind handler_bind read].
  destruct (n <=? _)%nat; cbv [write lift mret handler_ret]; by intros [= _ <-].
Qed.
Lemma next_frame_written s x s' : next_frame s = (x, s') → ts_written s' = ts_written s.
Proof.
  unfold next_frame, read_tcp_frame. destruct (read_exact 4 s) as [header s1] eqn:H1.
  apply read_exact_written in H1 as [W1 _]. destruct header as [header|e].
  - destruct ((lift _ ≫= _) s1) as [found s2] eqn:H2. assert (ts_written s2 = ts_written s) as W2.
    { rewrite <-W1. revert H2. cbv [mbind handler_bind lift]. destruct (bail_if _ _); [|by intros [= _ <-]].
      destruct (read_exact _ s1) as [f s3] eqn:H3. apply read_exact_written in H3 as [W3 _].
      destruct f; cbv [mret handler_ret]; by intros [= _ <-]. }
    by destruct found as [f|[]]; intros [= _ <-].
  - by destruct e; intros [= _ <-].
Qed.

(** The packets that a list of events hands to the connection. *)
Definition outbound_packets (events : list (nat * TlsEvent)) : list bytes :=
  omap (λ e, match e.2 with OutboundReady packet => packet | _ => None end) events.
Section uplink.
Context (endpoint : SocketAddr).
Record writes (packets : list bytes) (done : bool) (s s' : TlsStream) (fs : list bytes) : Prop := {
  wr_taken : fs `prefix_of` packets;
  wr_framable : Forall framable fs;
  wr_bytes : ∃ bs, ts_written s' = ts_written s ++ bs ∧ bs `prefix_of` frames fs ∧ (done = true → bs = frames fs);
}.
Lemma writes_none packets done s s' : ts_written s' = ts_written s → writes packets done s s' [].
Proof.
  intros Hw. split; [apply prefix_nil|constructor|]. exists []. by rewrite app_nil_r.
Qed.
Lemma relay_event_writes lost event r x r' :
  relay_event endpoint lost event r = (x, r') →
  ∃ fs, writes (outbound_packets [(lost, event)]) (is_ok x) (tn_stream r) (tn_stream r') fs
    ∧ (x = Ok true → fs = outbound_packets [(lost, event)]).
Proof.
  destruct event as [stop|[packet|]|taken]; cbn [relay_event]; unfold on_stream; cbv [mbind handler_bind read write].
  - intros [= <- <-]. exists []. split; [by apply writes_none|done].
  - cbn [tn_stream]. destruct (write_tcp_frame packet _) as [u s'] eqn:Hw.
    apply write_tcp_frame_run in Hw as (_ & _ & bs & Hbs & Hcase). cbn [ts_written abandon_frame with_arriving_bytes] in Hbs.
    destruct Hcase as [[-> Hx]|(Hf & Hp & Hok)].
    + destruct u; [done|]. intros [= <- <-]. exists []. split; [|done]. apply writes_none. cbn. by rewrite Hbs, app_nil_r.
    + assert (frames [packet] = frame packet) as Hone by (unfold frames; cbn; by rewrite app_nil_r).
      assert (∀ r1, ts_written (tn_stream r1) = ts_written s' → writes [packet] (is_ok u) (tn_stream r) (tn_stream r1) [packet]) as Hwr.
      { intros r1 H1. split; [done|by constructor|]. exists bs. rewrite H1, Hone. by split_and!. }
      destruct u as [u|e]; intros [= <- <-]; exists [packet]; (split; [by apply Hwr|done]).
  - intros [= <- <-]. exists []. split; [by apply writes_none|done].
  - destruct (next_frame (tn_stream r)) as [found s] eqn:Hn. apply next_frame_written in Hn.
    intros Hr. exists []. split; [|done]. apply writes_none.
    destruct found as [[[packet|]|]|e]; [destruct (negb taken)|..]; by injection Hr as _ <-.
Qed.
Lemma relay_loop_writes events r x r' :
  relay_loop endpoint events r = (x, r') →
  ∃ fs, writes (outbound_packets events) (is_ok x) (tn_stream r) (tn_stream r') fs
    ∧ (x = Ok false → fs = outbound_packets events).
Proof.
  revert r. induction events as [|[lost event] events IH]; intros r; cbn [relay_loop].
  { intros [= <- <-]. exists []. split; [by apply writes_none|done]. }
  assert (outbound_packets ((lost, event) :: events) = outbound_packets [(lost, event)] ++ outbound_packets events) as Hpk
    by (unfold outbound_packets; by rewrite <-omap_app).
  rewrite Hpk. intros [(more & r1 & He & Hr)|(e & He & ->)]%handler_bind_run;
    apply relay_event_writes in He as (fs & [Ht Hf (bs & Hb & Hp & Hd)] & Hall).
  2: { exists fs. split; [|done]. split; [by apply prefix_app_r|done|by exists bs]. }
  specialize (Hd eq_refl) as ->. destruct more.
  - rewrite (Hall eq_refl) in *. apply IH in Hr as (fs' & [Ht' Hf' (bs' & Hb' & Hp' & Hd')] & Hall').
    exists (outbound_packets [(lost, event)] ++ fs'). split; [|by intros ->%Hall'].
    split; [by apply prefix_app|by apply Forall_app_2|]. exists (frames (outbound_packets [(lost, event)]) ++ bs').
    rewrite Hb', Hb, frames_app, (assoc_L (++)). split_and!; [done|by apply prefix_app|]. by intros ->%Hd'.
  - injection Hr as <- <-. exists fs. split; [|done]. split; [by apply prefix_app_r|done|]. by eexists.
Qed.
End uplink.

(** ** The proxy *)
Import TcpProxy.
Lemma proxy_reads arriving fs :
  Forall framable fs → arriving `prefix_of` frames fs →
  RelayServer.read_tcp_frame arriving = Ok None
  ∨ RelayServer.read_tcp_frame arriving = Err FrameTruncated
  ∨ ∃ f fs' rest, fs = f :: fs' ∧ arriving = frame f ++ rest ∧ rest `prefix_of` frames fs'
      ∧ RelayServer.read_tcp_frame arriving = Ok (Some (f, rest)).
Proof.
  intros Hf [Hl|(f & fs' & -> & Ht & Hcase)]%front_of_frames.
  { left. unfold RelayServer.read_tcp_frame. by rewrite bool_decide_eq_true_2. }
  destruct (frames_front_checked _ _ _ Hf Ht) as [Hsize Hok]. destruct (decide (length arriving < 4)%nat) as [|Hl].
  { left. unfold RelayServer.read_tcp_frame. by rewrite bool_decide_eq_true_2. }
  right. destruct Hcase as [Hshort|(rest & -> & Hrest)].
  - left. unfold RelayServer.read_tcp_frame. rewrite bool_decide_eq_false_2, Hsize by done.
    unfold framable in Hok. rewrite (proj2 (Z.eqb_neq (len f) 0)) by lia.
    unfold RelayServer.MAX_TCP_FRAME_BYTES. rewrite (proj2 (Z.ltb_ge 65535 (len f))) by lia. cbn [orb bail_if].
    rewrite bind_ret. cbv zeta. rewrite (proj2 (Z.ltb_lt _ _)); [done|]. unfold len. rewrite length_drop. lia.
  - right. exists f, fs', rest. split_and!; [done..|]. unfold frame. rewrite <-(assoc_L (++)).
    apply read_tcp_frame_here; [by apply framable_nonempty|unfold framable in Hok; lia].
Qed.
Definition unlost {A} (events : list (nat * A)) : Prop := Forall (λ e, e.1 = 0%nat) events.
Lemma abandon_nothing s : abandon_frame 0 s = s.
Proof. unfold abandon_frame. rewrite drop_0. by destruct s. Qed.
Lemma proxy_event_forwards target event p x p' fs :
  Forall framable fs → ts_arriving (px_stream p) `prefix_of` frames fs →
  proxy_event target 0 event p = (x, p') →
  ∃ sent rest, fs = sent ++ rest ∧ px_sent p' = px_sent p ++ map (pair target) sent
    ∧ (is_ok x = true → ts_arriving (px_stream p') `prefix_of` frames rest).
Proof.
  intros Hf Ha. destruct event as [|source datagram|]; cbn [proxy_event].
  - unfold frame_ready. cbv [mbind handler_bind read].
    destruct (proxy_reads _ _ Hf Ha) as [-> |[-> |(f & fs' & rest & -> & Harr & Hrest & ->)]].
    1, 2: destruct (ts_end (px_stream p)); cbv [lift mret handler_ret]; intros [= <- <-]; exists [], fs;
      (split; [done|]); (split; [by rewrite app_nil_r|done]).
    cbv [write mret handler_ret sent_datagram read mbind handler_bind lift bail_if]. cbn [px_refuses with_stream px_sent].
    destruct (px_refuses p _); intros [= <- <-].
    + exists [], (f :: fs'). split; [done|]. split; [by rewrite app_nil_r|done].
    + exists [f], fs'. done.
  - cbv [mbind handler_bind read write]. rewrite abandon_nothing.
    case_bool_decide; [intros [= <- <-]; exists [], fs; by rewrite app_nil_r|].
    unfold written_frame. cbv [mbind handler_bind read write lift].
    destruct (map_err _ _) as [encoded|e]; [|intros [= <- <-]; exists [], fs; cbn; by rewrite app_nil_r].
    destruct (write_all _ _) as [u s] eqn:Hw. apply write_all_run in Hw as (Harr & _).
    assert (ts_arriving s `prefix_of` frames fs) as Hfront by (rewrite Harr; exact Ha).
    destruct u; cbv [map_err mret handler_ret]; intros [= <- <-]; exists [], fs;
      (split; [done|]); (split; [cbn; by rewrite app_nil_r|done]).
  - intros [= <- <-]. exists [], fs. by rewrite app_nil_r.
Qed.
Lemma proxy_forwards target events p x p' fs :
  unlost events → Forall framable fs → ts_arriving (px_stream p) `prefix_of` frames fs →
  proxy_tcp_connection target events p = (x, p') →
  ∃ sent, px_sent p' = px_sent p ++ map (pair target) sent ∧ sent `prefix_of` fs.
Proof.
  intros Hu. revert p fs. induction Hu as [|[lost event] events Hl Hu IH]; intros p fs Hf Ha; cbn [proxy_tcp_connection].
  { intros [= _ <-]. exists []. rewrite app_nil_r. split; [done|apply prefix_nil]. }
  cbn in Hl. subst lost. intros [(more & p1 & He & Hr)|(e & He & ->)]%handler_bind_run;
    destruct (proxy_event_forwards _ _ _ _ _ _ Hf Ha He) as (sent & rest & -> & Hsent & Harr).
  2: { exists sent. split; [done|by eexists]. }
  specialize (Harr eq_refl). destruct more.
  - apply Forall_app in Hf as [_ Hf]. destruct (IH _ _ Hf Harr Hr) as (sent' & Hs' & Hp).
    exists (sent ++ sent'). rewrite Hs', Hsent, map_app, (assoc_L (++)). split; [done|by apply prefix_app].
  - injection Hr as _ <-. exists sent. split; [done|by eexists].
Qed.
(** A frame that has arrived in full is sent on, unless the socket refuses. *)
Lemma proxy_forwards_all target p fs rest :
  Forall framable fs → ts_arriving (px_stream p) = frames fs ++ rest → (∀ n, px_refuses p n = false) →
  let r := proxy_tcp_connection target (replicate (length fs) (0%nat, FrameArrives)) p in
  r.1 = Ok false ∧ px_sent r.2 = px_sent p ++ map (pair target) fs.
Proof.
  revert p. induction fs as [|f fs IH]; intros p Hf Ha Hrefuse; cbn [replicate length proxy_tcp_connection].
  { cbn. by rewrite app_nil_r. }
  apply Forall_cons_1 in Hf as [Hok Hf].
  assert (ts_arriving (px_stream p) = be_bytes 4 (len f) ++ f ++ (frames fs ++ rest)) as Harr.
  { rewrite Ha. unfold frames at 1. cbn [map concat]. unfold frame at 1. by rewrite <-!(assoc_L (++)). }
  pose proof (read_tcp_frame_here f (frames fs ++ rest)) as Hread. rewrite <-Harr in Hread. cbn [proxy_event].
  unfold frame_ready. cbv [mbind handler_bind read].
  rewrite Hread by (try (by apply framable_nonempty); unfold framable in Hok; lia).
  cbv [write mret handler_ret sent_datagram read mbind handler_bind lift bail_if]. cbn [px_refuses with_stream px_sent].
  rewrite Hrefuse.
  lazymatch goal with |- context [proxy_tcp_connection target _ ?q] => destruct (IH q Hf eq_refl Hrefuse) as [H1 H2] end.
  split; [exact H1|]. etransitivity; [exact H2|]. cbn. by rewrite <-(assoc_L (++)).
Qed.

(** ** The way back *)
Definition relayed_datagrams (target : SocketAddr) (events : list (nat * ProxyEvent)) : list bytes :=
  omap (λ e, match e.2 with
             | DatagramArrives source datagram => if bool_decide (source ≠ target) then None else Some datagram
             | _ => None end) events.
Lemma relay_write_frame datagram encoded :
  RelayServer.write_tcp_frame datagram = Ok encoded → framable datagram ∧ encoded = frame datagram.
Proof.
  unfold RelayServer.write_tcp_frame. intros (? & Hc%bail_if_Ok%framable_check & [= <-])%bind_Ok. done.
Qed.
Lemma frame_ready_written p x p' :
  frame_ready p = (x, p') → ts_written (px_stream p') = ts_written (px_stream p).
Proof.
  unfold frame_ready. cbv [mbind handler_bind read].
  destruct (RelayServer.read_tcp_frame _) as [[[f rest]|]|[]]; try (destruct (ts_end (px_stream p)));
    cbv [write lift mret handler_ret]; by intros [= _ <-].
Qed.
Lemma proxy_event_writes target lost event p x p' :
  proxy_event target lost event p = (x, p') →
  ∃ fs, writes (relayed_datagrams target [(lost, event)]) (is_ok x) (px_stream p) (px_stream p') fs
    ∧ (x = Ok true → fs = relayed_datagrams target [(lost, event)]).
Proof.
  destruct event as [|source datagram|]; cbn [proxy_event].
  - intros Hr. exists []. split; [|done]. apply writes_none. revert Hr. cbv [mbind handler_bind].
    destruct (frame_ready p) as [found p1] eqn:Hf. apply frame_ready_written in Hf. rewrite <-Hf.
    destruct found as [[[f|]|]|e]; try by intros [= _ <-].
    cbv [sent_datagram read mbind handler_bind lift bail_if write]. by destruct (px_refuses p1 _); intros [= _ <-].
  - cbv [mbind handler_bind read write]. unfold relayed_datagrams. cbn [omap list_omap snd].
    case_bool_decide; [intros [= <- <-]; exists []; split; [by apply writes_none|done]|].
    unfold written_frame. cbv [mbind handler_bind read write lift].
    destruct (RelayServer.write_tcp_frame datagram) as [encoded|e] eqn:Hw; cbn [map_err];
      [|intros [= <- <-]; exists []; split; [by apply writes_none|done]].
    apply relay_write_frame in Hw as [Hok ->].
    destruct (write_all _ _) as [u s] eqn:Hw. apply write_all_run in Hw as (_ & _ & n & Hwr & Hn).
    assert (frames [datagram] = frame datagram) as Hone by (unfold frames; cbn; by rewrite app_nil_r).
    assert (writes [datagram] (is_ok u) (px_stream p) s [datagram]) as Hwrites.
    { split; [done|by constructor|]. exists (take n (frame datagram)). rewrite Hone.
      split_and!; [exact Hwr|apply take_prefix|exact Hn]. }
    destruct u; cbv [map_err mret handler_ret]; intros [= <- <-]; exists [datagram]; done.
  - intros [= <- <-]. exists []. split; [by apply writes_none|done].
Qed.
Lemma proxy_writes target events p x p' :
  proxy_tcp_connection target events p = (x, p') →
  ∃ fs, writes (relayed_datagrams target events) (is_ok x) (px_stream p) (px_stream p') fs.
Proof.
  revert p. induction events as [|[lost event] events IH]; intros p; cbn [proxy_tcp_connection].
  { intros [= <- <-]. exists []. by apply writes_none. }
  assert (relayed_datagrams target ((lost, event) :: events)
    = relayed_datagrams target [(lost, event)] ++ relayed_datagrams target events) as Hpk
    by (unfold relayed_datagrams; by rewrite <-omap_app).
  rewrite Hpk. intros [(more & p1 & He & Hr)|(e & He & ->)]%handler_bind_run;
    apply proxy_event_writes in He as (fs & [Ht Hf (bs & Hb & Hp & Hd)] & Hall).
  2: { exists fs. split; [by apply prefix_app_r|done|by exists bs]. }
  specialize (Hd eq_refl) as ->. destruct more.
  - rewrite (Hall eq_refl) in *. apply IH in Hr as (fs' & [Ht' Hf' (bs' & Hb' & Hp' & Hd')]).
    exists (relayed_datagrams target [(lost, event)] ++ fs').
    split; [by apply prefix_app|by apply Forall_app_2|]. exists (frames (relayed_datagrams target [(lost, event)]) ++ bs').
    rewrite Hb', Hb, frames_app, (assoc_L (++)). split_and!; [done|by apply prefix_app|]. by intros ->%Hd'.
  - injection Hr as <- <-. exists fs. split; [by apply prefix_app_r|done|]. by eexists.
Qed.
Lemma relay_reads s x s' fs :
  Forall framable fs → ts_arriving s `prefix_of` frames fs → next_frame s = (x, s') →
  (x = Ok None ∧ s' = s ∨ x = Ok (Some None) ∨ is_ok x = false)
  ∨ ∃ f fs', fs = f :: fs' ∧ x = Ok (Some (Some f)) ∧ ts_arriving s' `prefix_of` frames fs'.
Proof.
  intros Hf Ha. unfold next_frame, read_tcp_frame, read_exact at 1. cbv [mbind handler_bind read].
  destruct (Nat.leb_spec 4 (length (ts_arriving s))) as [Hl|Hl].
  2: { cbv [write lift]. intros Hr. left. destruct (ts_end s); injection Hr as <- <-; auto. }
  destruct (front_of_frames _ _ Ha) as [?|(f & fs' & -> & Ht & Hcase)]; [lia|].
  destruct (frames_front_checked _ _ _ Hf Ht) as [Hsize Hok]. cbv [write mret handler_ret]. rewrite Hsize.
  cbv [lift bail_if].
  unfold framable in Hok. rewrite (proj2 (Z.eqb_neq (len f) 0)) by lia.
  unfold MAX_TCP_FRAME_BYTES. rewrite (proj2 (Z.ltb_ge 65535 (len f))) by lia. cbn [orb].
  unfold read_exact. cbv [mbind handler_bind read with_arriving_bytes]. cbn [ts_arriving ts_end].
  assert (Z.to_nat (len f) = length f) as -> by (unfold len; lia).
  destruct Hcase as [Hshort|(rest & Harr & Hrest)].
  - rewrite (proj2 (Nat.leb_gt _ _)) by (rewrite length_drop; lia). cbv [write lift].
    intros Hr. left. destruct (ts_end s); injection Hr as <- <-; auto.
  - rewrite Harr. unfold frame. rewrite <-(assoc_L (++)), drop_app_length' by (by rewrite length_be_bytes).
    rewrite (proj2 (Nat.leb_le _ _)) by (rewrite length_app; lia). cbv [write mret handler_ret].
    intros [= <- <-]. right. exists f, fs'. rewrite take_app_length, drop_app_length. done.
Qed.
Section downlink.
Context (endpoint : SocketAddr).
Lemma relay_event_delivers event r x r' fs :
  Forall framable fs → ts_arriving (tn_stream r) `prefix_of` frames fs →
  relay_event endpoint 0 event r = (x, r') →
  ∃ got rest, fs = got ++ rest ∧ tn_delivered r' = tn_delivered r ++ map (mkTlsRelayInbound endpoint) got
    ∧ (x = Ok true → ts_arriving (tn_stream r') `prefix_of` frames rest).
Proof.
  intros Hf Ha. assert (∀ r1 (y : result TlsRelayError bool), tn_delivered r1 = tn_delivered r →
    (y = Ok true → ts_arriving (tn_stream r1) = ts_arriving (tn_stream r)) →
    ∃ got rest, fs = got ++ rest ∧ tn_delivered r1 = tn_delivered r ++ map (mkTlsRelayInbound endpoint) got
      ∧ (y = Ok true → ts_arriving (tn_stream r1) `prefix_of` frames rest)) as Hnone.
  { intros r1 y Hd Hs. exists [], fs. rewrite Hd, app_nil_r. split_and!; [done..|]. intros ->%Hs. exact Ha. }
  destruct event as [stop|[packet|]|taken]; cbn [relay_event]; unfold on_stream; cbv [mbind handler_bind read write].
  - rewrite abandon_nothing. intros [= <- <-]. by apply Hnone.
  - rewrite abandon_nothing. cbn [tn_stream]. destruct (write_tcp_frame packet _) as [u s'] eqn:Hw.
    apply write_tcp_frame_run in Hw as (Harr & _). destruct u; intros [= <- <-]; by apply Hnone.
  - intros [= <- <-]. by apply Hnone.
  - destruct (next_frame (tn_stream r)) as [found s] eqn:Hn.
    destruct (relay_reads _ _ _ _ Hf Ha Hn) as [[[-> ->]|[-> |He]]|(f & fs' & -> & -> & Hrest)].
    + intros [= <- <-]. by apply Hnone.
    + intros [= <- <-]. by apply Hnone.
    + destruct found; [done|]. intros [= <- <-]. by apply Hnone.
    + destruct (negb taken); [intros [= <- <-]; by apply Hnone|]. intros [= <- <-]. by exists [f], fs'.
Qed.
Lemma relay_loop_delivers events r x r' fs :
  unlost events → Forall framable fs → ts_arriving (tn_stream r) `prefix_of` frames fs →
  relay_loop endpoint events r = (x, r') →
  ∃ got, tn_delivered r' = tn_delivered r ++ map (mkTlsRelayInbound endpoint) got ∧ got `prefix_of` fs.
Proof.
  intros Hu. revert r fs. induction Hu as [|[lost event] events Hl Hu IH]; intros r fs Hf Ha; cbn [relay_loop].
  { intros [= _ <-]. exists []. rewrite app_nil_r. split; [done|apply prefix_nil]. }
  cbn in Hl. subst lost. intros [(more & r1 & He & Hr)|(e & He & ->)]%handler_bind_run;
    destruct (relay_event_delivers _ _ _ _ _ Hf Ha He) as (got & rest & -> & Hgot & Harr).
  2: { exists got. split; [done|by eexists]. }
  destruct more.
  - specialize (Harr eq_refl). apply Forall_app in Hf as [_ Hf]. destruct (IH _ _ Hf Harr Hr) as (got' & Hg' & Hp).
    exists (got ++ got'). rewrite Hg', Hgot, map_app, (assoc_L (++)). split; [done|by apply prefix_app].
  - injection Hr as _ <-. exists got. split; [done|by eexists].
Qed.
End downlink.
(** C30: A route over TLS and the proxy of the relay are two queues of packets.  Whatever
    calls fail at either end, wherever the connection breaks, and in whatever order the
    two loops find their events: when neither abandons a frame that it has begun to
    read, the proxy sends to the relay a front part of the packets that the agent gave to
    the connection, unchanged and in order, and the agent is handed, under the endpoint
    of the relay, a front part of the datagrams that the relay sent to the proxy.  When
    the agent's writes succeed, all arrives and the socket takes it, and the proxy finds
    nothing but the arrival of these frames, it sends all of them. *)
Theorem tls_relay_fifo endpoint events r x r' target proxied p y p' :
  relay_loop endpoint events r = (x, r') → proxy_tcp_connection target proxied p = (y, p') →
  unlost events → unlost proxied →
  ts_written (tn_stream r) = [] → ts_written (px_stream p) = [] →
  ts_arriving (px_stream p) `prefix_of` ts_written (tn_stream r') →
  ts_arriving (tn_stream r) `prefix_of` ts_written (px_stream p') →
  (∃ sent, px_sent p' = px_sent p ++ map (pair target) sent ∧ sent `prefix_of` outbound_packets events)
  ∧ (∃ got, tn_delivered r' = tn_delivered r ++ map (mkTlsRelayInbound endpoint) got
       ∧ got `prefix_of` relayed_datagrams target proxied)
  ∧ (x = Ok false → ts_arriving (px_stream p) = ts_written (tn_stream r') → (∀ n, px_refuses p n = false) →
     proxied = replicate (length (outbound_packets events)) (0%nat, FrameArrives) →
     px_sent p' = px_sent p ++ map (pair target) (outbound_packets events)).
Proof.
  intros Hr Hp Hu Hup Hw Hwp Ha Hap.
  destruct (relay_loop_writes _ _ _ _ _ Hr) as (fs & [Htaken Hf (bs & Hb & Hpre & Hdone)] & Hall).
  destruct (proxy_writes _ _ _ _ _ Hp) as (ds & [Htaken' Hf' (bs' & Hb' & Hpre' & _)]).
  rewrite Hw in Hb. rewrite Hwp in Hb'. cbn [app] in Hb, Hb'. rewrite Hb in Ha. rewrite Hb' in Hap. split_and!.
  - destruct (proxy_forwards _ _ _ _ _ fs Hup Hf (transitivity Ha Hpre) Hp) as (sent & Hs & Hpr).
    exists sent. split; [done|]. by transitivity fs.
  - destruct (relay_loop_delivers _ _ _ _ _ ds Hu Hf' (transitivity Hap Hpre') Hr) as (got & Hg & Hpr).
    exists got. split; [done|]. by transitivity ds.
  - intros -> Hfull Hrefuse ->. rewrite (Hall eq_refl) in *. rewrite Hb, (Hdone eq_refl) in Hfull.
    destruct (proxy_forwards_all target p _ [] Hf) as [_ Hs]; [by rewrite app_nil_r|done|].
    rewrite Hp in Hs. exact Hs.
Qed.

(** ** What the transport keeps *)
Section transport.
Context `{UuidLib}.
(** A step of the agent, or of the task of a route that has not ended. *)
Inductive tls_step (w : tls_world) : tls_world → Prop :=
| step_send endpoint packet : tls_step w (try_send endpoint packet w).2
| step_receive packet w' : receive_inbound w = Some (packet, w') → tls_step w w'
| step_connect endpoint relay :
    tp_relays w.1 !! endpoint = Some relay → ob_closed relay = false → tls_step w (route_connected endpoint w)
| step_take endpoint : tls_step w (route_takes endpoint w).2
| step_sent : tls_step w (w.1, add_frame_sent w.2)
| step_deliver endpoint relay packet w' :
    tp_relays w.1 !! endpoint = Some relay → framable packet → route_delivers endpoint packet w = Some w' →
    tls_step w w'
| step_disconnect endpoint failed closing : tls_step w (route_disconnected endpoint failed closing w).

Definition connected_relays (relays : gmap SocketAddr OutboundRelay) : gmap SocketAddr OutboundRelay :=
  filter (λ kv, ob_connected kv.2 = true) relays.
Definition ones (b : bool) : nat := if b then 1 else 0.
Lemma connected_update relays endpoint relay relay' :
  relays !! endpoint = Some relay →
  (size (connected_relays (<[endpoint := relay']> relays)) + ones (ob_connected relay)
   = size (connected_relays relays) + ones (ob_connected relay'))%nat.
Proof.
  intros Hl. unfold connected_relays.
  assert (size (filter (λ kv, ob_connected kv.2 = true) relays)
    = size (filter (λ kv : SocketAddr * OutboundRelay, ob_connected kv.2 = true) (delete endpoint relays)) + ones (ob_connected relay))%nat as ->.
  { rewrite <-(insert_delete_id relays endpoint relay Hl) at 1. destruct (ob_connected relay) eqn:Hc.
    - rewrite map_filter_insert_True by done. rewrite map_size_insert_None; [cbn; lia|].
      apply map_lookup_filter_None_2. left. apply lookup_delete_eq.
    - rewrite map_filter_insert_False by (cbn; by rewrite Hc). rewrite delete_delete_eq. cbn. lia. }
  rewrite <-insert_delete_eq. destruct (ob_connected relay') eqn:Hc.
  - rewrite map_filter_insert_True by done. rewrite map_size_insert_None; [cbn; lia|].
    apply map_lookup_filter_None_2. left. apply lookup_delete_eq.
  - rewrite map_filter_insert_False by (cbn; by rewrite Hc). rewrite delete_delete_eq. cbn. lia.
Qed.
Definition relay_ok (relay : OutboundRelay) : Prop :=
  (length (ob_queue relay) ≤ OUTBOUND_QUEUE_CAPACITY)%nat ∧ Forall framable (ob_queue relay).
Record transport_ok (routes : list TlsRelayRoute) (w : tls_world) : Prop := {
  to_relays : ∀ endpoint, is_Some (tp_relays w.1 !! endpoint) → endpoint ∈ map tr_relay_endpoint routes;
  to_size : (size (tp_relays w.1) ≤ length routes)%nat;
  to_connected : tt_connected w.2 = Z.of_nat (size (connected_relays (tp_relays w.1)));
  to_configured : tt_configured w.2 = len routes;
  to_queues : map_Forall (λ _, relay_ok) (tp_relays w.1);
  to_incoming : (length (tp_incoming w.1) ≤ OUTBOUND_QUEUE_CAPACITY)%nat
    ∧ Forall (λ i, framable (tri_packet i) ∧ tri_relay_endpoint i ∈ map tr_relay_endpoint routes) (tp_incoming w.1);
}.
Lemma start_ok routes t : transport_ok routes (TlsRelayTransport_start routes t).
Proof.
  unfold TlsRelayTransport_start.
  assert (∀ l m, l `suffix_of` routes →
    map_Forall (λ endpoint relay, relay = mkOutboundRelay [] false false ∧ endpoint ∈ map tr_relay_endpoint routes) m →
    (size m + length l ≤ length routes)%nat →
    let m' := foldl start_route m l in
    map_Forall (λ endpoint relay, relay = mkOutboundRelay [] false false ∧ endpoint ∈ map tr_relay_endpoint routes) m'
    ∧ (size m' ≤ length routes)%nat) as Hfold.
  { induction l as [|route l IH]; intros m Hl Hm Hs; cbn [foldl length] in *; [split; [done|lia]|].
    assert (l `suffix_of` routes) as Hl' by (by eapply suffix_cons_l).
    destruct (m !! tr_relay_endpoint route) eqn:He;
      (assert (start_route m route = _) as -> by (unfold start_route; rewrite He; reflexivity));
      [apply IH; [done|done|lia]|]. apply IH; [done| |rewrite map_size_insert_None by done; lia].
    apply map_Forall_insert_2; [|done]. split; [done|]. apply list_elem_of_fmap. exists route. split; [done|].
    destruct Hl as [k ->]. apply elem_of_app. right. left. }
  destruct (Hfold routes ∅) as [Hm Hs]; [done|apply map_Forall_empty|by rewrite map_size_empty|].
  set (m := foldl start_route ∅ routes) in *. split; cbn [fst snd tp_relays tp_incoming tls_telemetry_reset tt_connected tt_configured].
  - intros endpoint [relay Hr]. by apply Hm in Hr as [_ ?].
  - done.
  - assert (connected_relays m = ∅) as ->; [|by rewrite map_size_empty].
    apply map_empty_filter. intros endpoint relay Hr. by apply Hm in Hr as [-> _].
  - done.
  - intros endpoint relay Hr. apply Hm in Hr as [-> _]. split; [cbn; lia|constructor].
  - split; [cbn; lia|constructor].
Qed.
(** Replacing a relay by an updated one, with the counter following its flag. *)
Lemma set_relay_ok routes tp t endpoint relay relay' t' :
  transport_ok routes (tp, t) → len routes < 2 ^ 64 →
  tp_relays tp !! endpoint = Some relay → relay_ok relay' →
  tt_configured t' = tt_configured t →
  tt_connected t' = wrap64 (tt_connected t + Z.of_nat (ones (ob_connected relay')) - Z.of_nat (ones (ob_connected relay))) →
  transport_ok routes (set_relay endpoint relay' tp, t').
Proof.
  intros [Hr Hs Hc Hg Hq Hi] Hlen Hl Hok Hg' Hc'. cbn [fst snd] in *.
  pose proof (connected_update _ _ _ relay' Hl) as Hcount.
  assert (size (connected_relays (<[endpoint:=relay']> (tp_relays tp))) ≤ size (<[endpoint:=relay']> (tp_relays tp)))%nat
    as Hle by (apply map_size_filter).
  rewrite map_size_insert_Some in Hle by (by eexists).
  split; cbn [fst snd set_relay tp_relays tp_incoming].
  - intros e [x [[<- _]|[_ He]]%lookup_insert_Some]; apply Hr; by eexists.
  - by rewrite map_size_insert_Some by (by eexists).
  - rewrite Hc', Hc. unfold wrap64. unfold len in Hlen. rewrite Z.mod_small by lia. lia.
  - by rewrite Hg'.
  - by apply map_Forall_insert_2.
  - done.
Qed.
Lemma wrap_unchanged n b : 0 ≤ n < 2 ^ 64 → wrap64 (n + Z.of_nat (ones b) - Z.of_nat (ones b)) = n.
Proof. intros. unfold wrap64. rewrite Z.mod_small; lia. Qed.
Lemma count_small routes tp t : transport_ok routes (tp, t) → len routes < 2 ^ 64 → 0 ≤ tt_connected t < 2 ^ 64.
Proof.
  intros [_ Hs Hc _ _ _] Hl. cbn [fst snd] in *. unfold len in Hl.
  pose proof (map_size_filter (λ kv : SocketAddr * OutboundRelay, ob_connected kv.2 = true) (tp_relays tp)) as Hle.
  rewrite Hc. unfold connected_relays. lia.
Qed.
Lemma same_transport_ok routes tp t t' :
  transport_ok routes (tp, t) → tt_connected t' = tt_connected t → tt_configured t' = tt_configured t →
  transport_ok routes (tp, t').
Proof. intros [Hr Hs Hc Hg Hq Hi] H1 H2. by split; cbn [fst snd] in *; rewrite ?H1, ?H2. Qed.
Lemma tls_step_ok routes w w' : len routes < 2 ^ 64 → transport_ok routes w → tls_step w w' → transport_ok routes w'.
Proof.
  intros Hlen Hw Hstep. destruct w as [tp t]. pose proof (count_small _ _ _ Hw Hlen) as Hsmall.
  pose proof Hw as [Hr Hs Hc Hg Hq Hi]. cbn [fst snd] in *.
  destruct Hstep as [endpoint packet|packet w' Hrec|endpoint relay Hl Ho|endpoint| |endpoint relay packet w' Hl Hf Hd|endpoint failed closing].
  - cbn [try_send]. destruct (is_empty packet || _) eqn:Hp; [done|]. apply framable_check in Hp.
    destruct (tp_relays tp !! endpoint) as [relay|] eqn:Hl; [|done].
    destruct (negb (ob_connected relay)); [by eapply same_transport_ok|].
    unfold queue_frame. destruct (ob_closed relay || _) eqn:Hfull; [by eapply same_transport_ok|].
    apply orb_false_iff in Hfull as [_ Hfull%Nat.leb_gt]. pose proof (Hq _ _ Hl) as [_ Hall].
    eapply set_relay_ok; [done|done|exact Hl| |done|by rewrite wrap_unchanged].
    split; cbn [ob_queue]; [rewrite length_app; cbn; lia|]. apply Forall_app_2; [done|by constructor].
  - cbn [receive_inbound] in Hrec. destruct (tp_incoming tp) as [|i incoming] eqn:Hin;
      [by destruct (forallb _ _); [injection Hrec as _ <-|]|]. injection Hrec as _ <-.
    destruct Hi as [Hil Hall]. apply Forall_cons_1 in Hall as [_ Hall].
    split; cbn [fst snd tp_relays tp_incoming]; try done. split; [cbn in Hil; lia|done].
  - cbn [fst route_connected] in *. rewrite Hl. eapply set_relay_ok; [done|done|exact Hl|exact (Hq _ _ Hl)|by destruct (ob_connected relay)|].
    cbn [ob_connected]. destruct (ob_connected relay); cbn [ones]; [by rewrite (wrap_unchanged _ true)|].
    cbn. f_equal. lia.
  - cbn [route_takes]. destruct (tp_relays tp !! endpoint) as [[[|packet queue] closed connected]|] eqn:Hl; try done.
    pose proof (Hq _ _ Hl) as [Hql Hall]. cbn [ob_queue] in *. apply Forall_cons_1 in Hall as [_ Hall].
    eapply set_relay_ok; [done|done|exact Hl|split; [cbn in *; lia|done]|done|]. cbn [ob_connected]. by rewrite wrap_unchanged.
  - by eapply same_transport_ok.
  - cbn [route_delivers] in Hd. destruct (Nat.ltb_spec (length (tp_incoming tp)) OUTBOUND_QUEUE_CAPACITY) as [Hroom|]; [|done].
    injection Hd as <-. destruct Hi as [Hil Hall]. split; cbn [fst snd tp_relays tp_incoming]; try done.
    split; [rewrite length_app; cbn; lia|]. apply Forall_app_2; [done|]. apply Forall_singleton. split; [done|].
    apply Hr. by eexists.
  - cbn [route_disconnected]. destruct (tp_relays tp !! endpoint) as [relay|] eqn:Hl; [|done].
    eapply set_relay_ok; [done|done|exact Hl|exact (Hq _ _ Hl)|by destruct (failed && _), (ob_connected relay)|].
    cbn [ob_connected ones]. assert (∀ t1, tt_connected (if failed && negb closing then add_connection_failure t1 else t1)
      = tt_connected t1) as -> by (intros; by destruct (failed && _)).
    destruct (ob_connected relay); cbn [ones]; [cbn; f_equal; lia|by rewrite (wrap_unchanged _ false)].
Qed.
End transport.
(** C31: What a transport over TLS keeps.  In every state it reaches, there are queues for
    its configured relays only; the count of connections in the telemetry is the number
    of connected relays, and no more than the configured routes; no queue, in either
    direction, holds more than 256 packets; and every packet in them fits a frame.  The
    telemetry outlives the transport, though: when the next transport starts while a
    relay of the last is still connected, the end of that connection counts down from
    zero, and the agent reports 2^64 - 1 connected relays. *)
Theorem tls_transport_invariant `{UuidLib} routes t w :
  len routes < 2 ^ 64 → rtc tls_step (TlsRelayTransport_start routes t) w →
  transport_ok routes w ∧ 0 ≤ tt_connected w.2 ≤ tt_configured w.2
  ∧ ∀ endpoint relay next failed,
      tp_relays w.1 !! endpoint = Some relay → ob_connected relay = true →
      tt_connected (route_disconnected endpoint failed true (w.1, (TlsRelayTransport_start next w.2).2)).2 = 2 ^ 64 - 1.
Proof.
  intros Hl Hw. assert (transport_ok routes w) as Hok.
  { apply rtc_ind_r with (P := transport_ok routes) in Hw; [done|apply start_ok|]. intros. by eapply tls_step_ok. }
  split; [done|]. split.
  - destruct Hok as [_ Hs -> -> _ _]. pose proof (map_size_filter (λ kv : SocketAddr * OutboundRelay, ob_connected kv.2 = true) (tp_relays w.1)).
    unfold connected_relays, len. lia.
  - intros endpoint relay next failed Hr Hc. cbn [route_disconnected TlsRelayTransport_start snd]. rewrite Hr, Hc.
    by rewrite andb_false_r.
Qed.

(** ** A connection, and packets in both directions *)
#[export] Instance webpki_sample : Webpki := {|
  EndEntityCert := bytes;
  end_entity_cert der := if is_empty der then None else Some der;
  verify_signature cert _ message signature := bool_decide (signature = cert ++ message);
|}.
#[export] Instance rustls_sample : Rustls := {|
  ServerName := string;
  server_name_try_from s := if str_is_empty s then None else Some s;
  TcpPeer := PeerHandshake;
  shown _ h := h;
  tls_connect v _ h :=
    if is_ok (verify_server_cert v (hs_certificate h))
       && bool_decide (dss_scheme (hs_signature h) ∈ supported_schemes v)
       && is_ok (verify_tls13_signature v (hs_transcript h) (hs_certificate h) (hs_signature h))
    then Some (hs_stream h) else None;
|}.
#[export] Instance rustls_sample_laws : RustlsLaws.
Proof.
  split. intros v name h stream. cbn. destruct (is_ok _ && _ && _) eqn:Hg; [|done]. intros [= <-].
  apply andb_true_iff in Hg as [[[[] Hc]%is_ok_true Hs%bool_decide_eq_true]%andb_true_iff [[] Hv]%is_ok_true].
  split; [done|]. split_and!; [done|done|by right].
Qed.
Module TlsSample.
Definition relay : SocketAddr := socket_new (V4 5) 7000.
Definition certificate : bytes := [3; 1; 4].
Definition route : TlsRelayRoute :=
  mkTlsRelayRoute (mkPlanetTlsRelay (uuid_of 1) (socket_new (V4 5) 443) "relay" (sha256 certificate) 1) relay.
(** The relay sends two packets, the second in two parts. *)
Definition outbound : list (nat * TlsEvent) :=
  [(0%nat, OutboundReady (Some [1; 2])); (0%nat, FrameReady true); (0%nat, FrameReady true); (0%nat, OutboundReady (Some [3]))].
Definition stream (arriving : bytes) : TlsStream := mkTlsStream arriving StillOpen [] [].
Definition incoming : TlsStream := stream (frame [9] ++ [0; 0; 0]).
Definition start : TlsRun := mkTlsRun incoming false (tls_telemetry_reset 1) [].
(** A peer with a certificate, which signs with its key. *)
Definition peer_with (cert : bytes) : @TcpPeer rustls_sample :=
  mkPeerHandshake cert [1] (mkDigitallySigned ED25519 (cert ++ [1])) incoming.
Definition peer : @TcpPeer rustls_sample := peer_with certificate.
Definition proxied : list (nat * ProxyEvent) :=
  [(0%nat, FrameArrives); (0%nat, DatagramArrives relay [9]); (0%nat, FrameArrives); (0%nat, DatagramArrives relay [7; 7])].
Definition proxy : Proxy := mkProxy (stream (frame [1; 2] ++ frame [3])) [] (λ _, false).
End TlsSample.
Lemma tls_relay_pinned_witness :
  let run p := connect_and_forward TlsSample.route (Some p) TlsSample.outbound TlsSample.start in
  tn_delivered (run TlsSample.peer).2 = [mkTlsRelayInbound TlsSample.relay [9]]
  ∧ proved_pin (sha256 TlsSample.certificate) TlsSample.peer
  ∧ (run (TlsSample.peer_with [2; 7; 1])).2 = TlsSample.start.
Proof.
  intros run. split; [by vm_compute|]. split.
  - destruct (tls_relay_pinned TlsSample.route (Some TlsSample.peer) TlsSample.outbound TlsSample.start
      _ _ (surjective_pairing (run TlsSample.peer))) as [[Hf _]|(server & p & _ & [= <-] & Hp & _)]; [|exact Hp].
    exfalso. by vm_compute in Hf.
  - destruct (tls_relay_pinned TlsSample.route (Some (TlsSample.peer_with [2; 7; 1])) TlsSample.outbound
      TlsSample.start _ _ (surjective_pairing (run (TlsSample.peer_with [2; 7; 1]))))
      as [[_ Heq]|(server & p & _ & [= <-] & (_ & _ & Hpin & _) & _)]; [exact Heq|].
    exfalso. by vm_compute in Hpin.
Defined.
Lemma tls_relay_fifo_witness :
  px_sent (proxy_tcp_connection TlsSample.relay TlsSample.proxied TlsSample.proxy).2 = [(TlsSample.relay, [1; 2]); (TlsSample.relay, [3])]
  ∧ ∃ sent, px_sent (proxy_tcp_connection TlsSample.relay TlsSample.proxied TlsSample.proxy).2
      = map (pair TlsSample.relay) sent ∧ sent `prefix_of` [[1; 2]; [3]].
Proof.
  split; [by vm_compute|].
  destruct (tls_relay_fifo TlsSample.relay TlsSample.outbound TlsSample.start (Ok false)
    (relay_loop TlsSample.relay TlsSample.outbound TlsSample.start).2 TlsSample.relay TlsSample.proxied TlsSample.proxy (Ok false)
    (proxy_tcp_connection TlsSample.relay TlsSample.proxied TlsSample.proxy).2) as [H1 _].
  - apply Sample.run_of. by vm_compute.
  - apply Sample.run_of. by vm_compute.
  - by repeat constructor.
  - by repeat constructor.
  - done.
  - done.
  - exists []. by vm_compute.
  - exists [2; 7; 7]. by vm_compute.
  - exact H1.
Defined.
Lemma tls_transport_invariant_witness :
  let w := route_connected TlsSample.relay (TlsRelayTransport_start [TlsSample.route] (tls_telemetry_reset 0)) in
  tt_connected w.2 = 1
  ∧ tt_connected (route_disconnected TlsSample.relay true true (w.1, (TlsRelayTransport_start [TlsSample.route] w.2).2)).2 = 2 ^ 64 - 1.
Proof.
  intros w. split; [by vm_compute|].
  refine (proj2 (proj2 (tls_transport_invariant [TlsSample.route] (tls_telemetry_reset 0) w _ _))
    TlsSample.relay (mkOutboundRelay [] false true) [TlsSample.route] true _ _).
  - by vm_compute.
  - apply rtc_once. by apply (step_connect _ TlsSample.relay (mkOutboundRelay [] false false)).
  - by vm_compute.
  - done.
Defined.
(** Without routes no task holds the sending end of the channel: [receive_inbound] is always
    ready and has nothing. *)
Example no_routes_always_ready t :
  receive_inbound (TlsRelayTransport_start [] t) = Some (None, TlsRelayTransport_start [] t).
Proof. done. Qed.
(** A proxy that is interrupted by a datagram while it reads a frame loses the frame. *)
Example interrupted_proxy_loses_a_frame :
  let run lost := (proxy_tcp_connection TlsSample.relay
    [(lost, DatagramArrives TlsSample.relay [7]); (0%nat, FrameArrives); (0%nat, FrameArrives)] TlsSample.proxy).2 in
  map snd (px_sent (run 0%nat)) = [[1; 2]; [3]] ∧ px_sent (run 4%nat) = [].
Proof. vm_compute. repeat split. Qed.
