(* ===== verification/PortMappingFacts.v ===== *)
(** * Port mapping: which answers are taken, what a mapping keeps, and when it is renewed *)
From S2P Require Import Prelude Request Net Text Ext SocketText Frames FramesFacts TurnFacts.
From S2P Require Import PortMapping.
#[local] Open Scope Z_scope.

(** ** Checked access *)
Lemma answer_byte_Ok i response b : answer_byte i response = Ok b ↔ response !! i = Some b.
Proof. unfold answer_byte, index. by rewrite map_err_Ok, ok_or_Ok. Qed.
Lemma answer_range_Ok a b response l :
  answer_range a b response = Ok l ↔ (a ≤ b)%nat ∧ (b ≤ length response)%nat ∧ l = slice a b response.
Proof.
  unfold answer_range, range. rewrite map_err_Ok. case_bool_decide as Hb.
  - split; [intros [= <-]; naive_solver|by intros (_ & _ & ->)].
  - split; [done|]. intros (? & ? & _). by destruct Hb.
Qed.
Lemma slice_cons i (response : bytes) b : response !! i = Some b → slice i (i + 2) response = b :: slice (i + 1) (i + 2) response.
Proof.
  intros Hb. unfold slice. replace (i + 2 - i)%nat with 2%nat by lia. replace (i + 2 - (i + 1))%nat with 1%nat by lia.
  rewrite (drop_S response b i Hb). cbn [take]. by replace (i + 1)%nat with (S i) by lia.
Qed.
Lemma answer_u16_Ok i response v :
  answer_u16 i response = Ok v ↔ (i + 2 ≤ length response)%nat ∧ v = from_be (slice i (i + 2) response).
Proof.
  unfold answer_u16. rewrite bind_Ok. setoid_rewrite answer_byte_Ok. split.
  - intros (high & Hh & Hr). apply bind_Ok in Hr as (low & Hl%answer_byte_Ok & [= <-]).
    pose proof (lookup_lt_Some _ _ _ Hl). split; [lia|]. rewrite (slice_cons _ _ _ Hh). f_equal. f_equal.
    unfold slice. replace (i + 2 - (i + 1))%nat with 1%nat by lia. by rewrite (drop_S response low (i + 1) Hl).
  - intros [Hl ->]. destruct (lookup_lt_is_Some_2 response i) as [high Hh]; [lia|].
    destruct (lookup_lt_is_Some_2 response (i + 1)) as [low Hlo]; [lia|]. exists high. split; [done|].
    apply bind_Ok. exists low. rewrite answer_byte_Ok. split; [done|]. do 2 f_equal. rewrite (slice_cons _ _ _ Hh).
    f_equal. unfold slice. replace (i + 2 - (i + 1))%nat with 1%nat by lia. by rewrite (drop_S response low (i + 1) Hlo).
Qed.
Lemma check_answer_Ok n version opcode response u :
  (2 ≤ n)%nat →
  check_answer n version opcode response = Ok u ↔
  (n ≤ length response)%nat ∧ response !! 0%nat = Some version ∧ response !! 1%nat = Some opcode.
Proof.
  intros Hn. unfold check_answer. destruct u. split.
  - intros (? & Hl%bail_if_Ok%Nat.ltb_ge & Hr)%bind_Ok. apply bind_Ok in Hr as (b0 & H0%answer_byte_Ok & Hr).
    apply bind_Ok in Hr as (? & ->%bail_if_Ok%negb_false_iff%Z.eqb_eq & Hr).
    apply bind_Ok in Hr as (b1 & H1%answer_byte_Ok & ->%bail_if_Ok%negb_false_iff%Z.eqb_eq). done.
  - intros (Hl & H0%answer_byte_Ok & H1%answer_byte_Ok).
    rewrite (proj2 (bail_if_Ok _ _ tt)), bind_ret, H0 by (by apply Nat.ltb_ge).
    rewrite bind_ret, Z.eqb_refl. cbn [negb bail_if]. by rewrite bind_ret, H1, bind_ret, Z.eqb_refl.
Qed.

(** ** PCP answers *)
Definition pcp_address (ip : IpAddr) : bytes :=
  match ip with V4 a => zeros 10 ++ [255; 255] ++ be_bytes 4 a | V6 a => be_bytes 16 a end.
(** The parts of a MAP response of RFC 6887: version, opcode, result and protocol are
    fixed; reserved parts, lifetime and epoch are not looked at. *)
Record pcp_parts : Type := mkPcpParts { pp_reserved : Z; pp_times : bytes; pp_reserved' : bytes; pp_options : bytes }.
Definition wf_parts (p : pcp_parts) : Prop := length (pp_times p) = 20%nat ∧ length (pp_reserved' p) = 3%nat.
Definition pcp_answer (p : pcp_parts) (nonce : bytes) (internal_port : Z) (ip : IpAddr) (port : Z) : bytes :=
  [2; 129; pp_reserved p; 0] ++ pp_times p ++ nonce ++ [17] ++ pp_reserved' p
  ++ be_bytes 2 internal_port ++ be_bytes 2 port ++ pcp_address ip ++ pp_options p.
Definition decode_address (octets : bytes) : IpAddr :=
  if bool_decide (take 12 octets = zeros 10 ++ [255; 255]) then ipv4_of_octets (drop 12 octets)
  else ipv6_of_octets octets.
Record pcp_fields (response : bytes) (nonce : bytes) (internal_port : Z) (ip : IpAddr) (port : Z) : Prop := {
  pf_length : (60 ≤ length response)%nat;
  pf_version : response !! 0%nat = Some 2;
  pf_opcode : response !! 1%nat = Some 129;
  pf_code : response !! 3%nat = Some 0;
  pf_nonce : slice 24 36 response = nonce;
  pf_protocol : response !! 36%nat = Some 17;
  pf_internal : from_be (slice 40 42 response) = internal_port;
  pf_port : port = from_be (slice 42 44 response);
  pf_address : ip = decode_address (slice 44 60 response);
}.
Lemma bail_Ok_true {E} c (e : E) : c = false → bail_if c e = Ok tt.
Proof. by intros ->. Qed.
Lemma parse_pcp_Ok response internal_port nonce ip port :
  parse_pcp_map_response response internal_port nonce = Ok (ip, port) ↔ pcp_fields response nonce internal_port ip port.
Proof.
  unfold parse_pcp_map_response. split.
  - intros (? & [Hl [H0 H1]]%check_answer_Ok & Hr)%bind_Ok; [|lia].
    apply bind_Ok in Hr as (code & H3%answer_byte_Ok & Hr).
    apply bind_Ok in Hr as (? & ->%bail_if_Ok%negb_false_iff%Z.eqb_eq & Hr).
    apply bind_Ok in Hr as (echoed & (_ & _ & ->)%answer_range_Ok & Hr).
    apply bind_Ok in Hr as (protocol & Hp%answer_byte_Ok & Hr).
    apply bind_Ok in Hr as (? & [Hn%bool_decide_eq_false ->%negb_false_iff%Z.eqb_eq]%bail_if_Ok%orb_false_iff & Hr).
    apply bind_Ok in Hr as (port' & [_ Hport]%answer_u16_Ok & Hr).
    apply bind_Ok in Hr as (? & ->%bail_if_Ok%negb_false_iff%Z.eqb_eq & Hr).
    apply bind_Ok in Hr as (external & [_ ->]%answer_u16_Ok & Hr).
    apply bind_Ok in Hr as (prefix & (_ & _ & ->)%answer_range_Ok & Hr).
    apply bind_Ok in Hr as (address & Ha & [= <- <-]).
    split; try done; [by apply dec_stable|].
    unfold decode_address. replace (take 12 (slice 44 60 response)) with (slice 44 56 response)
      by (unfold slice; by rewrite take_take).
    case_bool_decide; apply bind_Ok in Ha as (octets & (_ & _ & ->)%answer_range_Ok & [= <-]); f_equal.
    unfold slice. by rewrite skipn_firstn_comm, drop_drop.
  - intros [Hl H0 H1 H3 Hn Hp Hi -> ->].
    assert (check_answer 60 2 129 response = Ok tt) as -> by (apply check_answer_Ok; [lia|done]).
    rewrite bind_ret, (proj2 (answer_byte_Ok 3 _ _) H3), bind_ret. cbn [Z.eqb negb bail_if]. rewrite bind_ret.
    rewrite (proj2 (answer_range_Ok 24 36 response nonce)), bind_ret by (split_and!; [lia|lia|done]).
    rewrite (proj2 (answer_byte_Ok 36 _ _) Hp), bind_ret, bool_decide_eq_false_2 by naive_solver.
    cbn [Z.eqb Pos.eqb negb orb bail_if]. rewrite bind_ret.
    rewrite (proj2 (answer_u16_Ok 40 response internal_port)), bind_ret by (split; [lia|done]).
    rewrite Z.eqb_refl. cbn [negb bail_if]. rewrite bind_ret.
    rewrite (proj2 (answer_u16_Ok 42 response _)), bind_ret by (split; [lia|done]).
    rewrite (proj2 (answer_range_Ok 44 56 response _)), bind_ret by (split_and!; [lia|lia|done]).
    unfold decode_address. replace (take 12 (slice 44 60 response)) with (slice 44 56 response)
      by (unfold slice; by rewrite take_take).
    case_bool_decide.
    + rewrite (proj2 (answer_range_Ok 56 60 response _)), !bind_ret by (split_and!; [lia|lia|done]).
      unfold slice. by rewrite skipn_firstn_comm, drop_drop.
    + by rewrite (proj2 (answer_range_Ok 44 60 response _)), !bind_ret by (split_and!; [lia|lia|done]).
Qed.
(** [Ipv6Addr] values that are no mapped IPv4 address. *)
Definition unmapped (ip : IpAddr) : Prop :=
  match ip with V4 _ => True | V6 a => take 12 (be_bytes 16 a) ≠ zeros 10 ++ [255; 255] end.
Lemma decode_pcp_address ip : wf_ip ip → unmapped ip → decode_address (pcp_address ip) = ip.
Proof.
  destruct ip as [a|a]; intros Hw Hu; cbn [pcp_address]; unfold decode_address.
  - rewrite (assoc_L (++)), take_app_length' by done. rewrite bool_decide_eq_true_2 by done.
    rewrite drop_app_length' by done. by apply ipv4_of_octets_octets.
  - rewrite bool_decide_eq_false_2 by exact Hu. by apply ipv6_of_octets_octets.
Qed.
Lemma from_be_octets n (octets : bytes) : wf_bytes octets → length octets = n → 0 ≤ from_be octets < 256 ^ Z.of_nat n.
Proof. intros Hw <-. by apply from_be_bound. Qed.
Lemma pcp_decode_address octets :
  wf_bytes octets → length octets = 16%nat →
  let ip := decode_address octets in pcp_address ip = octets ∧ wf_ip ip ∧ unmapped ip.
Proof.
  intros Hw Hl. unfold decode_address. case_bool_decide as Hm; cbn [pcp_address wf_ip unmapped ipv4_of_octets ipv6_of_octets].
  - assert (length (drop 12 octets) = 4%nat) as Hd by (rewrite length_drop; lia).
    assert (wf_bytes (drop 12 octets)) as Hwd by (by apply Forall_drop).
    split; [|split; [exact (from_be_octets 4 _ Hwd Hd)|done]].
    pose proof (be_bytes_from_be _ Hwd) as Hb. rewrite Hd in Hb.
    rewrite (assoc_L (++)), Hb, <-Hm. apply take_drop.
  - pose proof (be_bytes_from_be _ Hw) as Hb. rewrite Hl in Hb. rewrite Hb.
    split; [done|]. by split; [exact (from_be_octets 16 _ Hw Hl)|].
Qed.
Lemma split_at {A} a b (l : list A) : (a ≤ b)%nat → drop a l = slice a b l ++ drop b l.
Proof. intros. unfold slice. rewrite <-(take_drop (b - a) (drop a l)) at 1. f_equal. rewrite drop_drop. f_equal. lia. Qed.
Lemma slice_one {A} i j (l : list A) x : l !! i = Some x → j = S i → slice i j l = [x].
Proof. intros Hx ->. unfold slice. rewrite (drop_S l x i Hx). by replace (S i - i)%nat with 1%nat by lia. Qed.
Lemma be_bytes_slice a b (l : bytes) n :
  wf_bytes l → (a ≤ b)%nat → (b ≤ length l)%nat → n = (b - a)%nat → be_bytes n (from_be (slice a b l)) = slice a b l.
Proof.
  intros Hw Hab Hb ->. rewrite <-(length_slice a b l) by done. apply be_bytes_from_be.
  unfold slice. by apply Forall_take, Forall_drop.
Qed.
Lemma fields_answer response nonce internal_port ip port :
  wf_bytes response → pcp_fields response nonce internal_port ip port →
  wf_ip ip ∧ unmapped ip ∧ wf_port port
  ∧ ∃ parts, wf_parts parts ∧ response = pcp_answer parts nonce internal_port ip port.
Proof.
  intros Hw [Hl H0 H1 H3 Hn Hp Hi -> ->].
  assert (wf_bytes (slice 44 60 response)) as Hw16 by (unfold slice; by apply Forall_take, Forall_drop).
  destruct (pcp_decode_address (slice 44 60 response)) as (Ha & Hwf & Hu); [done|by rewrite length_slice by lia|].
  assert (wf_port (from_be (slice 42 44 response))) as Hport.
  { apply (from_be_octets 2); [unfold slice; by apply Forall_take, Forall_drop|by rewrite length_slice by lia]. }
  split_and!; [done..|]. destruct (lookup_lt_is_Some_2 response 2) as [b2 H2]; [lia|].
  exists (mkPcpParts b2 (slice 4 24 response) (slice 37 40 response) (drop 60 response)).
  split; [split; cbn [pp_times pp_reserved']; by rewrite length_slice by lia|].
  unfold pcp_answer. cbn [pp_reserved pp_times pp_reserved' pp_options].
  rewrite Ha, <-Hn, <-Hi, (be_bytes_slice 40 42), (be_bytes_slice 42 44) by (done || lia).
  rewrite <-(slice_one 36 37 _ _ Hp) by done.
  rewrite <-(split_at 44 60), <-(split_at 42 44), <-(split_at 40 42), <-(split_at 37 40), <-(split_at 36 37),
    <-(split_at 24 36), <-(split_at 4 24) by lia.
  rewrite <-(drop_0 response) at 1.
  rewrite (split_at 0 1), (split_at 1 2), (split_at 2 3), (split_at 3 4) by lia.
  by rewrite (slice_one 0 1 _ _ H0), (slice_one 1 2 _ _ H1), (slice_one 2 3 _ _ H2), (slice_one 3 4 _ _ H3).
Qed.
Lemma answer_fields parts nonce internal_port ip port :
  wf_parts parts → length nonce = 12%nat → wf_port internal_port → wf_port port → wf_ip ip → unmapped ip →
  pcp_fields (pcp_answer parts nonce internal_port ip port) nonce internal_port ip port.
Proof.
  intros [Ht Hr] Hn Hi Hp Hip Hu.
  assert (length (pcp_address ip) = 16%nat) as Ha by (destruct ip; cbn [pcp_address]; by rewrite ?length_app, ?length_be_bytes).
  set (head := [2; 129; pp_reserved parts; 0] ++ pp_times parts).
  assert (length head = 24%nat) as Hh by (unfold head; rewrite length_app, Ht; done).
  assert (pcp_answer parts nonce internal_port ip port = head ++ nonce ++ [17] ++ pp_reserved' parts
    ++ be_bytes 2 internal_port ++ be_bytes 2 port ++ pcp_address ip ++ pp_options parts) as ->
    by (unfold pcp_answer, head; by rewrite <-(assoc_L (++))).
  assert (∀ v, wf_port v → from_be (be_bytes 2 v) = v) as Hu16
    by (intros; rewrite from_be_be_bytes; by apply Z.mod_small).
  split; try (by unfold head).
  - rewrite !length_app, Hh, Hn, Hr, !length_be_bytes, Ha. cbn. lia.
  - apply slice_app_here; [done|lia].
  - rewrite (assoc_L (++)), lookup_app_r by (rewrite length_app; lia).
    by replace (36 - length (head ++ nonce))%nat with 0%nat by (rewrite length_app; lia).
  - rewrite (assoc_L (++)), (assoc_L (++)), (assoc_L (++)), slice_app_here; [by apply Hu16| |by rewrite length_be_bytes].
    rewrite !length_app, Hh, Hn, Hr. done.
  - rewrite (assoc_L (++)), (assoc_L (++)), (assoc_L (++)), (assoc_L (++)), slice_app_here;
      [by rewrite Hu16| |by rewrite length_be_bytes]. rewrite !length_app, Hh, Hn, Hr, length_be_bytes. done.
  - rewrite (assoc_L (++)), (assoc_L (++)), (assoc_L (++)), (assoc_L (++)), (assoc_L (++)), slice_app_here;
      [by rewrite decode_pcp_address| |by rewrite Ha]. rewrite !length_app, Hh, Hn, Hr, !length_be_bytes. done.
Qed.
(** ** No answer is read out of its bounds *)
Definition in_bounds {A} (r : result MappingError A) : Prop := ∀ e, r ≠ Err (MappingFault e).
Lemma in_bounds_bind {A B} (r : result MappingError A) (f : A → result MappingError B) :
  in_bounds r → (∀ a, r = Ok a → in_bounds (f a)) → in_bounds (r ≫= f).
Proof. intros Hr Hf e [He|(a & Ha & He)]%bind_Err; [by eapply Hr|by eapply Hf]. Qed.
Lemma in_bounds_bail c e : (∀ x, e ≠ MappingFault x) → in_bounds (bail_if c e).
Proof. intros He x [_ ->]%bail_if_Err. by eapply He. Qed.
Lemma in_bounds_byte i response : (i < length response)%nat → in_bounds (answer_byte i response).
Proof. intros [b Hb]%lookup_lt_is_Some_2 e. by rewrite (proj2 (answer_byte_Ok i response b) Hb). Qed.
Lemma in_bounds_u16 i response : (i + 2 ≤ length response)%nat → in_bounds (answer_u16 i response).
Proof. intros Hl e. by rewrite (proj2 (answer_u16_Ok i response _) (conj Hl eq_refl)). Qed.
Lemma in_bounds_range a b response : (a ≤ b)%nat → (b ≤ length response)%nat → in_bounds (answer_range a b response).
Proof. intros Ha Hb e. by rewrite (proj2 (answer_range_Ok a b response _) (conj Ha (conj Hb eq_refl))). Qed.
Lemma in_bounds_check n version opcode response : (2 ≤ n)%nat → in_bounds (check_answer n version opcode response).
Proof.
  intros Hn. unfold check_answer. apply in_bounds_bind; [by apply in_bounds_bail|]. intros u Hl%bail_if_Ok%Nat.ltb_ge.
  apply in_bounds_bind; [apply in_bounds_byte; lia|]. intros b _.
  apply in_bounds_bind; [by apply in_bounds_bail|]. intros ? _.
  apply in_bounds_bind; [apply in_bounds_byte; lia|]. intros ? _. by apply in_bounds_bail.
Qed.
Ltac bounded :=
  repeat first
    [ apply in_bounds_bind; [first [apply in_bounds_byte|apply in_bounds_u16|apply in_bounds_range|by apply in_bounds_bail]; lia|intros ? _]
    | apply in_bounds_bind; [by apply in_bounds_bail|intros ? _] ].
Lemma parsers_in_bounds response internal_port nonce :
  in_bounds (parse_nat_pmp_public_address response)
  ∧ in_bounds (parse_nat_pmp_map_response response internal_port)
  ∧ in_bounds (parse_pcp_map_response response internal_port nonce).
Proof.
  split_and!; (apply in_bounds_bind; [apply in_bounds_check; lia|]);
    intros u [Hl _]%check_answer_Ok; try lia; bounded.
  - done.
  - done.
  - apply in_bounds_bind; [case_bool_decide; bounded; done|]. intros ? _. done.
Qed.
(** C38: Which PCP answers the agent takes.  An answer to a MAP request is taken for the
    external address and port [ip] and [port] exactly when it is a success response of
    RFC 6887 to that request: version 2, the response opcode, result 0, the nonce and the
    internal port of the request, protocol UDP, then port and address (an IPv4 address as
    a mapped one), whatever its lifetime, epoch, reserved parts and options are.  No
    answer, of any length and content, makes the parsers of PCP and of NAT-PMP index out
    of its bounds. *)
Theorem pcp_answers_exact response internal_port nonce ip port :
  wf_bytes response → length nonce = 12%nat → wf_port internal_port →
  (parse_pcp_map_response response internal_port nonce = Ok (ip, port)
   ↔ wf_ip ip ∧ unmapped ip ∧ wf_port port
     ∧ ∃ parts, wf_parts parts ∧ response = pcp_answer parts nonce internal_port ip port)
  ∧ ∀ answer port' e, parse_nat_pmp_public_address answer ≠ Err (MappingFault e)
      ∧ parse_nat_pmp_map_response answer port' ≠ Err (MappingFault e)
      ∧ parse_pcp_map_response answer port' nonce ≠ Err (MappingFault e).
Proof.
  intros Hw Hn Hi. split.
  2: { intros answer port' e. destruct (parsers_in_bounds answer port' nonce) as (H1 & H2 & H3). by split_and!. }
  rewrite parse_pcp_Ok. split; [by apply fields_answer|].
  intros (Hip & Hu & Hp & parts & Hparts & ->). by apply answer_fields.
Qed.

(** ** Renewals *)
(** The ticks at which the worker renews: when each began and when it was done. *)
Fixpoint renewals (ticks : list (Z * Z)) (r : Renewal) (g : Gateway) : list (Z * Z) :=
  match ticks with
  | [] => []
  | (now, later) :: ticks =>
      let '(_, r', g') := renewal_tick now later r g in
      if now <? rn_next r then renewals ticks r' g' else (now, later) :: renewals ticks r' g'
  end.
(** Ticks follow each other, and neither a tick nor the time to the next exceeds [d]. *)
Fixpoint ticking (d last : Z) (ticks : list (Z * Z)) : Prop :=
  match ticks with
  | [] => True
  | (now, later) :: ticks => last ≤ now ≤ last + d ∧ now ≤ later ≤ now + d ∧ ticking d later ticks
  end.
Lemma tick_next now later r g :
  rn_next (renewal_tick now later r g).1.2 = if now <? rn_next r then rn_next r else later + MAPPING_REFRESH.
Proof.
  unfold renewal_tick. destruct (now <? rn_next r); [done|]. destruct (rn_mapping r) as [m|]; [|done].
  by destruct (Mapping_renew m g) as [[[]|] ?].
Qed.
(** Each renewal begins when 1800 seconds have passed since the last, and soon after. *)
Lemma renewals_spaced d ticks : ∀ last from r g,
  ticking d last ticks → 0 ≤ d → rn_next r = from + MAPPING_REFRESH → from ≤ last → last ≤ rn_next r + d →
  ∀ i a b n l, ((from, from) :: renewals ticks r g) !! i = Some (a, b) → renewals ticks r g !! i = Some (n, l) →
    b + MAPPING_REFRESH ≤ n ≤ b + MAPPING_REFRESH + 2 * d ∧ n ≤ l ≤ n + d.
Proof.
  induction ticks as [|[now later] ticks IH]; intros last from r g Ht Hd Hnext Hlast Hbound i a b n l; [done|].
  destruct Ht as (Hnow & Hlater & Ht). cbn [renewals].
  pose proof (tick_next now later r g) as Hn. destruct (renewal_tick now later r g) as [[e r'] g']. cbn [fst snd] in Hn.
  destruct (Z.ltb_spec now (rn_next r)) as [Hbefore|Hdue].
  - apply (IH later from r' g'); [done|done|congruence|lia|rewrite Hn; lia].
  - destruct i as [|i]; cbn [lookup list_lookup].
    + intros [= <- <-] [= <- <-]. unfold MAPPING_REFRESH in *. lia.
    + intros Ha Hr. apply (IH later later r' g') with (i := i) (a := if (i =? 0)%nat then later else a); try done.
      * unfold MAPPING_REFRESH in *. rewrite Hn. unfold secs. lia.
      * destruct i; cbn in *; [by injection Ha as <- <-|done].
Qed.
(** Every UPnP mapping is asked for with the lease of the module. *)
Lemma establish_leases local g x g' :
  UpnpMapping_establish local g = (Ok x, g') →
  gw_mapped g' = gw_mapped g ++ [(socket_port local, local, UPNP_LEASE_SECONDS)].
Proof.
  unfold UpnpMapping_establish, search_gateway, add_port, get_external_ip. intros Hr. by run_handler Hr; simplify_eq.
Qed.
Lemma renew_leases m g x g' :
  UpnpMapping_renew m g = (x, g') →
  gw_mapped g' = gw_mapped g ++ [(um_external_port m, um_local m, UPNP_LEASE_SECONDS)].
Proof. unfold UpnpMapping_renew, add_port, get_external_ip. intros Hr. by run_handler Hr; simplify_eq. Qed.
(** C37: When a mapping is renewed.  The worker makes a mapping between [made] and
    [start] and then ticks, each tick beginning at most [d] after the last one ended and
    lasting at most [d].  Whatever the gateway does, a renewal begins at the earliest
    1800 seconds after the mapping was made or the renewal before it was over.  A UPnP
    mapping is asked for, and renewed, with a lease of 1800 seconds, so every renewal of one comes when its lease, if
    it began in that time, has already run out.  The 7200 seconds asked of PCP and
    NAT-PMP have not run out by then, while [d] is below half an hour. *)
Theorem mapping_leases m made start d ticks g :
  made ≤ start ≤ made + d → 0 ≤ d → ticking d start ticks →
  let attempts := renewals ticks (first_renewal (Some m) start) g in
  (∀ i from until granted n l,
     ((made, start) :: attempts) !! i = Some (from, until) → from ≤ granted ≤ until → attempts !! i = Some (n, l) →
     granted + secs UPNP_LEASE_SECONDS ≤ n
     ∧ (d ≤ secs 1799 → n ≤ granted + secs MAPPING_LIFETIME_SECONDS))
  ∧ (∀ local g x g', UpnpMapping_establish local g = (Ok x, g') →
       gw_mapped g' = gw_mapped g ++ [(socket_port local, local, UPNP_LEASE_SECONDS)])
  ∧ (∀ m g x g', UpnpMapping_renew m g = (x, g') →
       gw_mapped g' = gw_mapped g ++ [(um_external_port m, um_local m, UPNP_LEASE_SECONDS)]).
Proof.
  intros Hmade Hd Ht attempts. split; [|split; [exact establish_leases|exact renew_leases]].
  intros i from until granted n l Hi Hg Hr.
  assert (∀ i a b n l, ((start, start) :: attempts) !! i = Some (a, b) → attempts !! i = Some (n, l) →
    b + MAPPING_REFRESH ≤ n ≤ b + MAPPING_REFRESH + 2 * d ∧ n ≤ l ≤ n + d) as Hspaced.
  { apply (renewals_spaced d ticks start start); [done|done|done|lia|].
    unfold first_renewal, MAPPING_REFRESH, secs. cbn [rn_next]. lia. }
  assert (until - d ≤ from ∧ until + MAPPING_REFRESH ≤ n ≤ until + MAPPING_REFRESH + 2 * d) as [Hw Hn].
  { destruct i as [|i]; cbn [lookup list_lookup] in Hi.
    - injection Hi as <- <-. pose proof (Hspaced 0%nat start start n l eq_refl Hr). lia.
    - pose proof (Hspaced (S i) from until n l Hi Hr) as [Hn _].
      destruct (lookup_lt_is_Some_2 ((start, start) :: attempts) i) as [[a b] Hab].
      { apply lookup_lt_Some in Hi. cbn. lia. }
      pose proof (Hspaced i a b from until Hab Hi) as [_ Hl]. lia. }
  unfold UPNP_LEASE_SECONDS, MAPPING_LIFETIME_SECONDS, MAPPING_REFRESH, secs in *. lia.
Qed.
Lemma pcp_answers_exact_witness :
  let nonce := replicate 12 7 in
  parse_pcp_map_response (pcp_answer (mkPcpParts 0 (replicate 20 1) [0; 0; 0] [5]) nonce 4000 (V4 16909060) 5000)
    4000 nonce = Ok (V4 16909060, 5000).
Proof.
  intros nonce.
  refine (proj2 (proj1 (pcp_answers_exact
    (pcp_answer (mkPcpParts 0 (replicate 20 1) [0; 0; 0] [5]) nonce 4000 (V4 16909060) 5000) 4000 nonce
    (V4 16909060) 5000 _ _ _)) _).
  - repeat constructor; by vm_compute.
  - done.
  - by vm_compute.
  - split; [by vm_compute|]. split; [done|]. split; [by vm_compute|].
    exists (mkPcpParts 0 (replicate 20 1) [0; 0; 0] [5]). by split.
Defined.
Lemma mapping_leases_witness :
  let m := UpnpIgd (mkUpnpMapping (socket_new (V4 5) 9) 9) in
  let g := mkGateway [] [] [] [] [] [] [] [] [] [] in
  renewals [(secs 900, secs 900); (secs 1801, secs 1802)] (first_renewal (Some m) 0) g = [(secs 1801, secs 1802)]
  ∧ 0 + secs UPNP_LEASE_SECONDS ≤ secs 1801.
Proof.
  intros m g. split; [by vm_compute|].
  refine (proj1 (proj1 (mapping_leases m 0 0 (secs 1000) [(secs 900, secs 900); (secs 1801, secs 1802)] g _ _ _)
    0%nat 0 0 0 (secs 1801) (secs 1802) _ _ _)).
  - unfold secs. lia.
  - unfold secs. lia.
  - cbn [ticking]. unfold secs. lia.
  - done.
  - lia.
  - by vm_compute.
Defined.
