(* ===== verification/RootServerFacts.v ===== *)
(** * Correctness of the root discovery server *)
From S2P Require Import Prelude Net Text Ext Concrete Model ServiceIdentity Membership.
From S2P Require Import Authorization RelayProto Session RootProto RelayServer RootServer.
From S2P Require Import Policy Samples RootFacts.
#[local] Open Scope Z_scope.
Import RootServer.

Section root_server_invariant.
Context `{UuidLib} `{Ed25519} `{HashOrder} `{!MembershipSerde} `{!AuthorizationSerde}
  `{!RootSerde}.
Implicit Types (s : RootState) (p : RootRegistrationPayload).

(** A directory entry: a member proved to a trusted controller, with usable
    addresses of its certificate and at most sixteen candidates. *)
Record entry_ok (trusted : list bytes) (k : NetworkId * DeviceId) (e : PeerRecord) : Prop := {
  eo_key : k = (mc_network_id (cert_claims (certificate e)),
                mc_device_id (cert_claims (certificate e)));
  eo_member : ∃ t m key, key ∈ trusted ∧ certificate_valid key t (certificate e)
    ∧ manifest_valid key t m ∧ authorized m (certificate e)
    ∧ auth_expires_at m = authorization_expires_at e;
  eo_addresses : ∀ a, a ∈ assigned_addresses e →
    a ∈ mc_assigned_addresses (cert_claims (certificate e)) ∧ usable_address a = true;
  eo_candidates : len (candidates e) ≤ MAX_CANDIDATES_PER_PEER;
}.
Definition exclusive (m : gmap (NetworkId * DeviceId) PeerRecord) : Prop :=
  ∀ n d1 e1 d2 e2, m !! (n, d1) = Some e1 → m !! (n, d2) = Some e2 → d1 ≠ d2 →
  ∀ a, a ∈ assigned_addresses e1 → a ∉ assigned_addresses e2.
Record root_inv (trusted : list bytes) s : Prop := {
  rti_exclusive : exclusive (peers s);
  rti_entries : ∀ k e, peers s !! k = Some e → entry_ok trusted k e;
}.

Lemma conflicts_false m device network addresses :
  conflicts m device network addresses = false ↔
  ∀ d e, m !! (network, d) = Some e → d ≠ device →
    ∀ a, a ∈ assigned_addresses e → a ∉ addresses.
Proof.
  unfold conflicts. rewrite <-not_true_iff_false, existsb_hash_iter. split.
  - intros Hn d e He Hd a Ha Hin. apply Hn. exists (network, d), e. split; [done|].
    rewrite !andb_true_iff, !bool_decide_eq_true. split; [done|].
    apply existsb_elem. exists a. by rewrite contains_true.
  - intros Hall ([n d] & e & He & Hc).
    rewrite !andb_true_iff, !bool_decide_eq_true, existsb_elem in Hc.
    destruct Hc as [[-> Hd] (a & Ha & Hin)]. rewrite contains_true in Hin.
    by apply (Hall d e He Hd a).
Qed.

(** What the certificate loop collects. *)
Lemma collect_memberships_Ok manifests ms0 cs ms :
  collect_memberships manifests ms0 cs = Ok ms →
  ∀ n addresses c expires, ms !! n = Some (addresses, c, expires) →
    ms0 !! n = Some (addresses, c, expires)
    ∨ c ∈ cs ∧ mc_network_id (cert_claims c) = n
      ∧ (∃ m, m ∈ manifests ∧ auth_network_id m = n ∧ expires = auth_expires_at m)
      ∧ ∀ a, a ∈ addresses → a ∈ mc_assigned_addresses (cert_claims c) ∧ usable_address a = true.
Proof.
  revert ms0. induction cs as [|c0 cs IH]; intros ms0; cbn [collect_memberships].
  { intros [= <-]. by left. }
  intros Hc n addresses c expires Hn. inv_ok.
  destruct (IH _ Hc n addresses c expires Hn) as [Hl|(Hin & ? & ? & ?)].
  2: { right. split_and!; try done. by right. }
  rewrite lookup_insert_Some in Hl. destruct Hl as [[<- Heq]|[_ Hl]]; [|by left].
  injection Heq as <- <- <-. right.
  match goal with Hf : List.find _ _ = Some ?m |- _ =>
    apply List.find_some in Hf as [Hf Hm]; apply bool_decide_eq_true in Hm;
    rewrite <-list_elem_of_In in Hf end.
  split_and!; [by left|done|by eauto|].
  intros a. rewrite elem_of_dedup, elem_of_sort_by, elem_of_list_filter. done.
Qed.

(** The entries after a registration. *)
Lemma inserted_lookup (f : list IpAddr * MembershipCertificate * Z → PeerRecord)
    (device d : DeviceId) (n : NetworkId)
    (l : list (NetworkId * (list IpAddr * MembershipCertificate * Z)))
    (m : gmap (NetworkId * DeviceId) PeerRecord) :
  NoDup l.*1 →
  foldl (λ m '(network, x), <[(network, device) := f x]> m) m l !! (n, d) =
  if decide (d = device) then
    match (list_to_map l : gmap NetworkId _) !! n with
    | Some x => Some (f x)
    | None => m !! (n, d)
    end
  else m !! (n, d).
Proof.
  revert m. induction l as [|[n0 x0] l IH]; intros m; cbn [foldl list_to_map foldr fmap list_fmap].
  { intros _. case_decide; [|done]. by rewrite lookup_empty. }
  intros [Hn0 Hnd]%NoDup_cons. rewrite IH by done. cbn [fst snd uncurry].
  destruct (decide (d = device)) as [->|Hd].
  - destruct (decide (n = n0)) as [->|Hn].
    + rewrite lookup_insert_eq, lookup_insert_eq.
      by rewrite (not_elem_of_list_to_map_1 _ _ Hn0).
    + rewrite !lookup_insert_ne by congruence. done.
  - rewrite lookup_insert_ne by congruence. done.
Qed.
Lemma list_to_map_hash_iter {A} (m : gmap NetworkId A) : list_to_map (hash_iter m) = m.
Proof.
  rewrite <-(list_to_map_to_list m) at 2. apply list_to_map_proper; [apply NoDup_hash_iter|].
  apply hash_iter_perm.
Qed.

(** An authenticated registration, and what [register] makes of it. *)
Definition authenticated (trusted : list bytes) p : Prop :=
  ∀ c m, c ∈ rrp_certificates p → m ∈ rrp_authorization_manifests p →
    auth_network_id m = mc_network_id (cert_claims c) →
    mc_device_id (cert_claims c) = rrp_device_id p
    ∧ ∃ t key, key ∈ trusted ∧ certificate_valid key t c ∧ manifest_valid key t m ∧ authorized m c.

Lemma authenticated_by r trusted now skew target :
  membership_valid trusted now skew target r → authorization_set_valid trusted now true r →
  authenticated trusted (reg_payload r).
Proof.
  intros Hm Hs c m Hc Hin Hn. pose proof (rm_certificates _ _ _ _ _ Hm) as Hcs.
  rewrite Forall_forall in Hcs. destruct (Hcs c Hc) as [Hd _ (key & Hkey & Hcv)].
  split; [done|]. destruct (as_matches _ _ _ _ Hs m Hin) as ((key' & Hkey' & Hmv)
    & c' & Hc' & Haz & Hctl).
  assert (cert_network c' = cert_network c) as E by (rewrite <-(az_network _ _ Haz) in Hn; done).
  assert (c' = c) as ->.
  { pose proof (as_certificates _ _ _ _ Hs) as Hnd. clear -Hnd Hc Hc' E.
    induction (rrp_certificates (reg_payload r)) as [|x l IH]; [by apply not_elem_of_nil in Hc|].
    cbn in Hnd. apply NoDup_cons in Hnd as [Hx Hl].
    apply elem_of_cons in Hc as [->|Hc], Hc' as [->|Hc']; [done| | |by apply IH].
    - destruct Hx. rewrite <-E. by apply (list_elem_of_fmap_2 cert_network).
    - destruct Hx. rewrite E. by apply (list_elem_of_fmap_2 cert_network). }
  assert (key' = key) as ->; [|by exists now, key].
  rewrite <-(mv_controller _ _ _ Hmv), <-(cv_controller _ _ _ Hcv). done.
Qed.

Lemma authenticate_Ok r root_id legacy trusted skew now u :
  authenticate r root_id legacy trusted skew now = Ok u → authenticated trusted (reg_payload r).
Proof.
  unfold authenticate. intros Hc. case_match; [case_match; [|done]|case_match; [|done]].
  - apply bind_Ok in Hc as (? & Hm%verify_membership_Ok & Ha%verify_authorization_set_Ok).
    by eapply authenticated_by.
  - apply verify_authorized_for_service_Ok in Hc as [Hm Ha]. by eapply authenticated_by.
Qed.

Lemma registration_candidates_length observed advertised :
  len (registration_candidates observed advertised) ≤ MAX_CANDIDATES_PER_PEER.
Proof.
  unfold registration_candidates, len, MAX_CANDIDATES_PER_PEER. rewrite length_take. lia.
Qed.

Lemma register_inv trusted s p observed ttl instant s' res :
  root_inv trusted s → authenticated trusted p →
  register s p observed ttl instant = (s', res) → root_inv trusted s'.
Proof.
  intros [Hex Hent] Hauth. unfold register.
  destruct (collect_memberships _ _ _) as [ms|e] eqn:Hms; [|by intros [= <- _]; split].
  destruct (existsb _ (hash_iter ms)) eqn:Hconf; intros [= <- _]; [by split|].
  pose proof (collect_memberships_Ok _ _ _ _ Hms) as Hm.
  assert (∀ n addresses c expires, ms !! n = Some (addresses, c, expires) →
    conflicts (peers s) (rrp_device_id p) n addresses = false) as Hfree.
  { intros n addresses c expires Hn. rewrite existsb_not_elem in Hconf.
    apply (Hconf (n, (addresses, c, expires))). by apply elem_of_hash_iter. }
  set (f := λ x : list IpAddr * MembershipCertificate * Z,
    mkPeerRecord (registration_candidates observed (rrp_candidates p)) x.1.1 x.1.2 x.2 instant).
  assert (∀ n d, foldl (λ m '(network, (addresses, c, expires)),
      <[(network, rrp_device_id p) := mkPeerRecord (registration_candidates observed
        (rrp_candidates p)) addresses c expires instant]> m) (peers s) (hash_iter ms) !! (n, d)
    = if decide (d = rrp_device_id p) then
        match ms !! n with Some x => Some (f x) | None => peers s !! (n, d) end
      else peers s !! (n, d)) as Hlook.
  { intros n d. pose proof (inserted_lookup f (rrp_device_id p) d n (hash_iter ms) (peers s)
      (NoDup_hash_iter ms)) as Hl. rewrite list_to_map_hash_iter in Hl. rewrite <-Hl.
    f_equal. clear. generalize (peers s). induction (hash_iter ms) as [|[n0 [[a0 c0] e0]] l IH];
      intros m; cbn; [done|]. apply IH. }
  split; cbn [peers].
  - intros n d1 e1 d2 e2. rewrite !Hlook. intros Hq1 Hq2 Hne a Ha1 Ha2.
    repeat case_decide; subst; [done| | |by apply (Hex n d1 e1 d2 e2 Hq1 Hq2 Hne a)].
    + destruct (ms !! n) as [[[ad c] ex]|] eqn:En; [|by apply (Hex n d1 e1 _ e2 Hq1 Hq2 Hne a)].
      injection Hq2 as <-. apply Hfree in En. rewrite conflicts_false in En.
      by apply (En d1 e1 Hq1 Hne a Ha1).
    + destruct (ms !! n) as [[[ad c] ex]|] eqn:En; [|by apply (Hex n _ e1 d2 e2 Hq1 Hq2 Hne a)].
      injection Hq1 as <-. apply Hfree in En. rewrite conflicts_false in En.
      by apply (En d2 e2 Hq2 (not_eq_sym Hne) a Ha2).
  - intros [n d] e. rewrite Hlook. intros He. case_decide; [|by apply Hent].
    destruct (ms !! n) as [[[ad c] ex]|] eqn:En; [|by apply Hent]. injection He as <-. subst.
    apply Hm in En as [En|(Hc & Hn & (m & Hmin & Hmn & ->) & Hadd)]; [by rewrite lookup_empty in En|].
    destruct (Hauth c m Hc Hmin) as [Hd (t & key & ? & ? & ? & ?)]; [congruence|].
    split; cbn; [by rewrite Hn, Hd|by exists t, m, key|done|apply registration_candidates_length].
Qed.

Lemma prune_root_inv trusted s ttl now instant :
  root_inv trusted s → root_inv trusted (prune s ttl now instant).
Proof.
  intros [He Hp]. split; cbn.
  - intros n d1 e1 d2 e2 [? _]%lookup_retain [? _]%lookup_retain. by apply (He n d1 e1 d2 e2).
  - intros k e [? _]%lookup_retain. by apply Hp.
Qed.

Lemma process_registration_inv trusted s r observed root_id legacy skew ttl now instant s' res :
  root_inv trusted s →
  process_registration s r observed root_id legacy trusted skew ttl now instant = (s', res) →
  root_inv trusted s'.
Proof.
  intros Hs. unfold process_registration. case_match; [by intros [= <- _]|].
  destruct (authenticate _ _ _ _ _ _) as [u|e] eqn:Ha; [|by intros [= <- _]].
  case_match; [intros [= <- _]; by destruct Hs|]. intros Hr.
  eapply register_inv; [|by eapply authenticate_Ok|exact Hr].
  apply prune_root_inv. by destruct Hs.
Qed.
End root_server_invariant.

Section root_server_properties.
Context `{UuidLib} `{Ed25519} `{HashOrder} `{!MembershipSerde} `{!AuthorizationSerde}
  `{!RootSerde}.
Implicit Types (s : RootState) (p : RootRegistrationPayload).

Inductive root_reachable (root_id : Uuid) (legacy : bool) (trusted : list bytes)
    (skew ttl : Z) : RootState → Prop :=
| root_reachable_new : root_reachable root_id legacy trusted skew ttl RootState_new
| root_reachable_step s r observed now instant s' res :
    root_reachable root_id legacy trusted skew ttl s →
    process_registration s r observed root_id legacy trusted skew ttl now instant = (s', res) →
    root_reachable root_id legacy trusted skew ttl s'.

(** in every state a root can reach, no two devices of one network hold
    the same virtual address, and every entry belongs to a member that proved,
    to a trusted controller, a current certificate and a manifest authorising
    it; its addresses are usable ones of the certificate and its candidates
    at most sixteen. *)
Theorem root_directory_invariant root_id legacy trusted skew ttl s :
  root_reachable root_id legacy trusted skew ttl s → root_inv trusted s.
Proof.
  induction 1 as [|s r observed now instant s' res _ IH Hp].
  - split; cbn; [by intros ????? Hl; rewrite lookup_empty in Hl|by intros ??; rewrite lookup_empty].
  - by eapply process_registration_inv.
Qed.

Lemma register_peers_scope s p observed ttl instant s' obs ps refresh hints :
  register s p observed ttl instant = (s', Ok (Registered obs ps refresh hints)) →
  obs = observed ∧ len ps ≤ MAX_PEERS_PER_RESPONSE ∧ refresh = clamp 10 60 (as_secs ttl / 3)
  ∧ ∀ peer, peer ∈ ps →
      rpeer_device_id peer ≠ rrp_device_id p
      ∧ (∃ c, c ∈ rrp_certificates p ∧ mc_network_id (cert_claims c) = rpeer_network_id peer)
      ∧ ∃ e, peers s !! (rpeer_network_id peer, rpeer_device_id peer) = Some e
          ∧ rpeer_candidates peer = candidates e ∧ rpeer_certificate peer = Some (certificate e).
Proof.
  unfold register. destruct (collect_memberships _ _ _) as [ms|e] eqn:Hms; [|done].
  destruct (existsb _ _); [done|]. intros [= _ <- <- <- _].
  pose proof (collect_memberships_Ok _ _ _ _ Hms) as Hm.
  split_and!; [done| |done|].
  - unfold discovered_peers, len, MAX_PEERS_PER_RESPONSE. rewrite length_sort_by, length_take. lia.
  - intros peer Hin. unfold discovered_peers in Hin. rewrite elem_of_sort_by in Hin.
    apply elem_of_take in Hin as (i & Hin%list_elem_of_lookup_2 & _).
    apply list_elem_of_omap in Hin as ([[n d] e] & Hin & Hx). rewrite elem_of_hash_iter in Hin.
    case_match eqn:Hc; [|done]. injection Hx as <-. cbn.
    rewrite andb_true_iff, is_some_true, bool_decide_eq_true in Hc.
    destruct Hc as [[[[ad c] ex] Hn] Hd]. split_and!; [done| |by exists e].
    apply Hm in Hn as [Hn|(? & ? & _)]; [by rewrite lookup_empty in Hn|by exists c].
Qed.

(** a root answers members only.  A successful response reports the
    observed endpoint, asks for a refresh after 10 to 60 seconds, and lists at
    most 64 peers, each a current entry of another device in a network for
    which the registration, once authenticated, carries a certificate; a
    refused registration adds nothing to the directory. *)
Theorem root_response_scope s r observed root_id legacy trusted skew ttl now instant s' res :
  process_registration s r observed root_id legacy trusted skew ttl now instant = (s', res) →
  let p := reg_payload r in
  match res with
  | Ok (Registered obs ps refresh hints) =>
      authenticate r root_id legacy trusted skew now = Ok tt
      ∧ obs = observed ∧ 10 ≤ refresh ≤ 60 ∧ len ps ≤ 64
      ∧ ∀ peer, peer ∈ ps →
          rpeer_device_id peer ≠ rrp_device_id p
          ∧ (∃ c, c ∈ rrp_certificates p ∧ mc_network_id (cert_claims c) = rpeer_network_id peer)
          ∧ ∃ e, peers s !! (rpeer_network_id peer, rpeer_device_id peer) = Some e
              ∧ now ≤ authorization_expires_at e
              ∧ rpeer_candidates peer = candidates e
              ∧ rpeer_certificate peer = Some (certificate e)
  | Ok (ErrorResponse _) => False
  | Err _ => ∀ k e, peers s' !! k = Some e → peers s !! k = Some e
  end.
Proof.
  cbn zeta. unfold process_registration. case_match; [by intros [= <- <-]|].
  destruct (authenticate _ _ _ _ _ _) as [[]|e] eqn:Ha; [|by intros [= <- <-]].
  case_match; [by intros [= <- <-]|]. intros Hr.
  destruct res as [[obs ps refresh hints|m]|e].
  - destruct (register_peers_scope _ _ _ _ _ _ _ _ _ _ Hr) as (-> & Hl & -> & Hps).
    split_and!; try done; try (unfold clamp; lia). intros peer Hin.
    destruct (Hps peer Hin) as (Hd & Hc & e & He & ? & ?). split_and!; try done.
    cbn in He. rewrite lookup_retain, andb_true_iff, !Z.leb_le in He. exists e. naive_solver.
  - revert Hr. unfold register. repeat case_match; by intros [=].
  - intros k en. assert (peers s' = peers (prune s ttl now instant)) as ->.
    { revert Hr. unfold register. repeat case_match; intros [=]; by subst. }
    cbn. rewrite lookup_retain. by intros [? _].
Qed.

(** the candidate list of a root entry.  It always keeps the observed
    endpoint when fewer than sixteen candidates are advertised; but the list
    is cut to sixteen after sorting, so sixteen advertised candidates that
    sort before it push the one endpoint the root has seen out of the list. *)
Theorem root_candidates_cut observed advertised :
  ((length advertised < 16)%nat → observed ∈ registration_candidates observed advertised)
  ∧ (∃ advertised, length advertised = 16%nat
     ∧ SA6 1 4000 0 0 ∉ registration_candidates (SA6 1 4000 0 0) advertised).
Proof.
  split.
  - intros Hl. unfold registration_candidates. rewrite take_ge.
    + rewrite elem_of_dedup, elem_of_sort_by. by left.
    + etransitivity; [apply length_dedup|]. rewrite length_sort_by. cbn [length].
      pose proof (List.filter_length_le
        (λ c, negb (socket_port c =? 0) && negb (ip_is_unspecified (socket_ip c))) advertised).
      unfold MAX_CANDIDATES_PER_PEER. lia.
  - exists (map (λ i, SA4 (ip4 203 0 113 7) (Z.of_nat i)) (seq 1 16)). split; [done|].
    vm_decide.
Qed.
End root_server_properties.

(** ** Witnesses *)
Definition sample_root_registration_result : result RootProtocolError.t RootRegistration :=
  sign_authorized_for_service alice [alice_certificate] [sample_authorization]
    [sample_remote] 150 sample_nonce Root service_uuid alice_key.
Definition sample_root_registration : RootRegistration :=
  unwrap sample_root_registration_result sample_registration.
Definition sample_processed : RootState * result RegistrationError RootResponse :=
  process_registration RootState_new sample_root_registration sample_remote service_uuid false
    [controller_public] 120 (secs 90) 160 0.
Example sample_processed_peers :
  size (peers sample_processed.1) = 1%nat ∧ is_ok sample_processed.2 = true.
Proof. by vm_compute. Qed.

Lemma root_directory_invariant_witness : root_inv [controller_public] sample_processed.1.
Proof.
  apply (root_directory_invariant service_uuid false [controller_public] 120 (secs 90)).
  eapply (root_reachable_step _ _ _ _ _ RootState_new sample_root_registration sample_remote 160 0
    sample_processed.1 sample_processed.2); [constructor|].
  exact (surjective_pairing sample_processed).
Defined.
Lemma root_response_scope_witness :
  match sample_processed.2 with
  | Ok (Registered obs ps refresh hints) => obs = sample_remote ∧ 10 ≤ refresh ≤ 60 ∧ len ps ≤ 64
  | _ => False
  end.
Proof.
  pose proof (root_response_scope RootState_new sample_root_registration sample_remote service_uuid
    false [controller_public] 120 (secs 90) 160 0 sample_processed.1 sample_processed.2
    (surjective_pairing sample_processed)) as Hs.
  destruct sample_processed_peers as [_ Hok]. destruct sample_processed.2 as [[]|]; cbn in *;
    [|done|done]. destruct Hs as (_ & ? & ? & ? & _). exact (conj H (conj H0 H1)).
Defined.
