(* ===== verification/SessionFacts.v ===== *)
(** * Correctness of pairwise sessions

    Both ends of a handshake derive mirrored keys, an accepted message was
    signed by the expected peer, a sealed packet opens to its plaintext, and
    no sequence is accepted twice. *)
From S2P Require Import Prelude Net Text Ext Concrete Model ServiceIdentity Membership.
From S2P Require Import Authorization RelayProto Session Policy Samples.
#[local] Open Scope Z_scope.

(** Turns an inverted disequality guard into the equation it enforces. *)
Ltac stable_eqs :=
  repeat match goal with Hn : ¬ (_ ≠ _) |- _ => apply dec_stable in Hn end.

Section payloads.
Context `{UuidLib} `{Ed25519} {T : Type} `{!Serde T}.

Lemma verify_payload_iff domain (p : T) sig key u :
  verify_payload domain p sig key = Ok u ↔
  ∃ m, signature_message domain p = Ok m ∧ signature_valid key m sig.
Proof.
  unfold verify_payload. split.
  - intros Hv. inv_ok. eauto with signatures.
  - destruct u. intros (m & Hm & Hs).
    apply signature_valid_elim in Hs as (Hk & Hsig & vk & Hvk & Hver).
    pass_call Hk. pass_call Hsig. pass_call Hm. pass_call Hvk. by rewrite Hver.
Qed.

Lemma sign_payload_valid `{!Ed25519Laws} domain (p : T) key sig :
  sign_payload domain p key = Ok sig →
  ∃ m, signature_message domain p = Ok m ∧ signature_valid (public_bytes key) m sig.
Proof.
  unfold sign_payload. intros Hs. inv_ok. subst. eauto using sign_signature_valid.
Qed.

Lemma parse_header_routed `{!UuidLaws} kind n s d rest :
  parse_session_routing_header (routing_header kind n s d ++ rest) kind = Ok (n, s, d).
Proof.
  unfold parse_session_routing_header. rewrite header_prefix by (unfold RELAY_DATA_HEADER_LEN; lia). cbn [negb].
  pass_guard. destruct (header_fields kind n s d rest) as (-> & -> & ->). done.
Qed.

Lemma encode_routed_Ok kind n s d (v : T) packet :
  encode_routed_json kind n s d v = Ok packet ↔
  ∃ e, to_vec v = Some e ∧ packet = routing_header kind n s d ++ e.
Proof.
  unfold encode_routed_json. split.
  - intros He. inv_ok. subst. eauto.
  - intros (e & He & ->). by pass_call He.
Qed.

Lemma parse_routed_json_Ok packet kind n s d (v : T) :
  parse_routed_json packet kind n s d = Ok v ↔
  parse_session_routing_header packet kind = Ok (n, s, d)
  ∧ from_slice (drop RELAY_DATA_HEADER_LEN packet) = Some v.
Proof.
  unfold parse_routed_json. split.
  - intros Hp. inv_ok. stable_eqs. by subst.
  - intros [Hh Hv]. pass_call Hh. pass_guard. by rewrite Hv.
Qed.

Lemma drop_header `{!UuidLaws} kind n s d rest :
  drop RELAY_DATA_HEADER_LEN (routing_header kind n s d ++ rest) = rest.
Proof. by rewrite drop_app_length' by (by rewrite routing_header_length). Qed.

Lemma parse_encode_routed `{!UuidLaws} `{!SerdeLaws T} kind n s d (v : T) packet :
  encode_routed_json kind n s d v = Ok packet →
  parse_session_routing_header packet kind = Ok (n, s, d)
  ∧ parse_routed_json packet kind n s d = Ok v.
Proof.
  intros (e & He & ->)%encode_routed_Ok. rewrite parse_routed_json_Ok.
  rewrite parse_header_routed, drop_header. split_and!; try done. by apply from_to_vec.
Qed.
End payloads.

(** The session messages, whose serialisation round trips. *)
Class SessionSerdeLaws `{UuidLib} `{!SessionSerde} : Prop := {
  init_payload_laws :: SerdeLaws SessionInitPayload;
  init_laws :: SerdeLaws SessionInit;
  response_payload_laws :: SerdeLaws SessionResponsePayload;
  response_laws :: SerdeLaws SessionResponse;
}.

Section handshake.
Context `{UuidLaws} `{Ed25519Laws} `{SessionCryptoLaws} `{!SessionSerde} `{!SessionSerdeLaws}.

(** The initiation a handshake state describes. *)
Definition init_of (id : bytes) (secret : StaticSecret) (n : NetworkId) (i r : DeviceId)
    (t : Z) : SessionInitPayload :=
  mkSessionInitPayload 1 n i r id (dh_public secret) t.

Lemma start_Ok rid rs n i r key t h packet :
  start rid rs n i r key t = Ok (h, packet) →
  ∃ id sb, rid = Some id ∧ rs = Some sb ∧ ih_secret h = secret_from sb
    ∧ init_payload (ih_init h) = init_of id (secret_from sb) n i r t
    ∧ verify_payload INIT_SIGNATURE_DOMAIN (init_payload (ih_init h))
        (init_signature (ih_init h)) (public_bytes key) = Ok tt
    ∧ parse_session_routing_header packet RELAY_SESSION_INIT = Ok (n, i, r)
    ∧ parse_routed_json packet RELAY_SESSION_INIT n i r = Ok (ih_init h).
Proof.
  unfold start. intros Hs. inv_ok. simplify_eq.
  match goal with Hp : encode_routed_json _ _ _ _ _ = Ok _ |- _ =>
    apply parse_encode_routed in Hp as [Hh Hp] end.
  do 2 eexists. split_and!; try eassumption; try done.
  apply verify_payload_iff. by eapply sign_payload_valid.
Qed.

(** The result of deriving keys, whichever side derives them. *)
Lemma derive_session_keys_Ok nk p shared side k :
  derive_session_keys nk p shared side = Ok k ↔
  shared ≠ replicate 32 0
  ∧ ∃ a b, length a = 32%nat ∧ length b = 32%nat
    ∧ hkdf64 (NetworkKey_to_bytes nk) shared
        (KDF_DOMAIN ++ network_bytes (sr_network_id p) ++ device_bytes (sr_initiator p)
         ++ device_bytes (sr_responder p) ++ sr_session_id p
         ++ sr_initiator_ephemeral_public_key p ++ sr_responder_ephemeral_public_key p)
      = Some (a ++ b)
    ∧ k = mkPairwiseSessionKeys (sr_session_id p) (if side then a else b)
            (if side then b else a).
Proof.
  unfold derive_session_keys. split.
  - intros Hk. inv_ok. split; [done|].
    match goal with Ha : try_into 32 (take _ ?o) = Some ?a,
      Hb : try_into 32 (drop _ ?o) = Some ?b |- _ =>
      apply try_into_Some in Ha as [-> Ha]; apply try_into_Some in Hb as [-> Hb];
      exists (take 32 o), (drop 32 o) end.
    rewrite take_drop. by destruct side; inv_ok; subst.
  - intros (Hz & a & b & Ha & Hb & Hk & ->).
    pass_guard. pass_call Hk.
    rewrite take_app_length', drop_app_length' by done.
    rewrite !try_into_length by done. by destruct side.
Qed.

Lemma hkdf_split salt ikm info o :
  hkdf64 salt ikm info = Some o →
  ∃ a b, length a = 32%nat ∧ length b = 32%nat ∧ o = a ++ b.
Proof.
  intros Ho%hkdf64_length. exists (take 32 o), (drop 32 o).
  rewrite length_take, length_drop, take_drop. split_and!; [lia|lia|done].
Qed.

(** What the responder answers to an initiation it accepts. *)
Definition response_of (i : SessionInitPayload) (public : bytes) (now : Z)
    : SessionResponsePayload :=
  mkSessionResponsePayload 1 (si_network_id i) (si_initiator i) (si_responder i)
    (si_session_id i) (si_initiator_ephemeral_public_key i) public now.

Lemma accept_Ok rs packet key rk nk now skew keys packet' :
  accept_pairwise_handshake rs packet key rk nk now skew = Ok (keys, packet') →
  ∃ (init : SessionInit) sb sig,
    let i := init_payload init in
    from_slice (drop RELAY_DATA_HEADER_LEN packet) = Some init
    ∧ parse_session_routing_header packet RELAY_SESSION_INIT
        = Ok (si_network_id i, si_initiator i, si_responder i)
    ∧ si_version i = 1 ∧ abs_diff now (si_issued_at i) ≤ skew
    ∧ verify_payload INIT_SIGNATURE_DOMAIN i (init_signature init) key = Ok tt
    ∧ rs = Some sb
    ∧ derive_session_keys nk (response_of i (dh_public (secret_from sb)) now)
        (diffie_hellman (secret_from sb) (si_initiator_ephemeral_public_key i)) false = Ok keys
    ∧ sign_payload RESPONSE_SIGNATURE_DOMAIN
        (response_of i (dh_public (secret_from sb)) now) rk = Ok sig
    ∧ encode_routed_json RELAY_SESSION_RESPONSE (si_network_id i) (si_responder i)
        (si_initiator i)
        (mkSessionResponse (response_of i (dh_public (secret_from sb)) now) sig) = Ok packet'.
Proof.
  unfold accept_pairwise_handshake. intros Ha. apply bind_Ok in Ha as ([[n i] r] & Hh & Ha).
  inv_ok. stable_eqs. unfold verify_fresh in *. inv_ok. subst.
  match goal with Hp : parse_routed_json _ _ _ _ _ = Ok _ |- _ =>
    apply parse_routed_json_Ok in Hp as [_ Hp] end.
  simplify_eq.
  match goal with Hu : verify_payload _ _ _ _ = Ok ?u |- _ => destruct u end.
  do 3 eexists. split_and!; first [eassumption|done].
Qed.

(** An initiation built by [start] is accepted, given fresh randomness and a
    key derivation that succeeds. *)
Lemma accept_started rid rs n i r key t h packet rs' sb rk nk now skew :
  start rid rs n i r key t = Ok (h, packet) →
  abs_diff now t ≤ skew → rs' = Some sb →
  let shared := diffie_hellman (secret_from sb) (dh_public (ih_secret h)) in
  shared ≠ replicate 32 0 →
  (∀ info, is_Some (hkdf64 (NetworkKey_to_bytes nk) shared info)) →
  is_ok (accept_pairwise_handshake rs' packet (public_bytes key) rk nk now skew) = true.
Proof.
  intros (id & sb' & -> & -> & Hsec & Hi & Hv & Hh & Hp)%start_Ok Hf -> shared Hz Hk.
  subst shared. rewrite Hsec in *.
  unfold accept_pairwise_handshake. rewrite Hi in Hv.
  pass_call Hh. pass_call Hp. rewrite Hi. cbn [init_of si_network_id si_initiator si_responder
    si_version si_issued_at si_session_id si_initiator_ephemeral_public_key].
  pass_guard. unfold verify_fresh. repeat pass_guard. pass_call Hv.
  unfold sign_payload at 1, signature_message at 1.
  destruct (to_vec_total (mkSessionResponsePayload SESSION_PROTOCOL_VERSION n i r id
    (dh_public (secret_from sb')) (dh_public (secret_from sb)) now)) as [e He].
  pass_call He.
  set (p := mkSessionResponsePayload _ _ _ _ _ _ _ _) in *.
  edestruct Hk as [o Ho]. destruct (hkdf_split _ _ _ _ Ho) as (a & b & ? & ? & ->).
  assert (derive_session_keys nk p
    (diffie_hellman (secret_from sb) (dh_public (secret_from sb'))) false
    = Ok (mkPairwiseSessionKeys id b a)) as Hd.
  { apply derive_session_keys_Ok. split; [done|]. exists a, b. eauto. }
  pass_call Hd. unfold encode_routed_json.
  match goal with |- context [to_vec ?v] => destruct (to_vec_total v) as [e' He'] end.
  by pass_call He'.
Qed.

(** The initiator completes what its responder answered. *)
Lemma complete_accepted rid rs n i r key t h packet rs' rk nk now skew kr packet' now' skew' :
  start rid rs n i r key t = Ok (h, packet) →
  accept_pairwise_handshake rs' packet (public_bytes key) rk nk now skew = Ok (kr, packet') →
  abs_diff now' now ≤ skew' →
  complete h packet' (public_bytes rk) nk now' skew'
    = Ok (mkPairwiseSessionKeys (psk_session_id kr) (psk_receive_key kr) (psk_send_key kr)).
Proof.
  intros (id & sb & _ & _ & Hsec & Hi & _ & Hh & Hp)%start_Ok.
  intros (init & sb' & sig & Hj & Hh' & _ & _ & _ & _ & Hd & Hsig & He)%accept_Ok Hf.
  apply parse_routed_json_Ok in Hp as [_ Hp].
  assert (init = ih_init h) as -> by congruence. rewrite Hi in *. cbn in Hd, Hsig, He.
  apply parse_encode_routed in He as [_ He].
  apply derive_session_keys_Ok in Hd as (Hz & a & b & Ha & Hb & Hk & ->).
  unfold complete. rewrite Hi. cbn [init_of si_network_id si_initiator si_responder
    si_session_id si_initiator_ephemeral_public_key].
  pass_call He. cbn [response_payload response_signature]. unfold response_of.
  cbn [sr_version sr_network_id sr_initiator sr_responder sr_session_id
    sr_initiator_ephemeral_public_key sr_responder_ephemeral_public_key sr_issued_at
    init_of si_network_id si_initiator si_responder si_session_id
    si_initiator_ephemeral_public_key].
  unfold verify_fresh. pass_guard. pass_guard. pass_guard.
  apply sign_payload_valid in Hsig. rewrite (proj2 (verify_payload_iff _ _ _ _ tt)) by done.
  rewrite bind_ret. apply derive_session_keys_Ok. rewrite Hsec, dh_agree.
  split; [done|]. by exists a, b.
Qed.

(** C2: the handshake works and both ends agree.  An initiation that [start]
    builds is accepted by a responder that knows the initiator's public key
    (clocks within the skew, randomness available, a shared secret that is
    not zero and a key derivation that succeeds); the initiator accepts the
    response, and the two hold the same session identifier with each one's
    send key equal to the other's receive key. *)
Theorem handshake_agreement rid rs n i r key t h packet sb rk nk now skew now' skew' :
  start rid rs n i r key t = Ok (h, packet) →
  abs_diff now t ≤ skew → abs_diff now' now ≤ skew' →
  let shared := diffie_hellman (secret_from sb) (dh_public (ih_secret h)) in
  shared ≠ replicate 32 0 →
  (∀ info, is_Some (hkdf64 (NetworkKey_to_bytes nk) shared info)) →
  ∃ kr packet' ki,
    accept_pairwise_handshake (Some sb) packet (public_bytes key) rk nk now skew
      = Ok (kr, packet')
    ∧ complete h packet' (public_bytes rk) nk now' skew' = Ok ki
    ∧ psk_session_id ki = psk_session_id kr
    ∧ psk_send_key ki = psk_receive_key kr ∧ psk_receive_key ki = psk_send_key kr.
Proof.
  intros Hs Hf Hf' shared Hz Hk.
  assert (is_ok (accept_pairwise_handshake (Some sb) packet (public_bytes key) rk nk now skew)
    = true) as [[kr packet'] Ha]%is_ok_true by (by eapply accept_started).
  eexists kr, packet', _. split; [done|]. split; [by eapply complete_accepted|done].
Qed.

(** the initiator is authenticated.  A responder that accepts an
    initiation has read a message of that handshake from the packet, issued
    within the clock skew, whose identities are those of the routing header
    and whose signature by the expected initiator covers the identities, the
    session identifier and the ephemeral key the traffic keys depend on; the
    session it opens carries the identifier the initiator chose. *)
Theorem accept_authenticated rs packet key rk nk now skew keys packet' :
  accept_pairwise_handshake rs packet key rk nk now skew = Ok (keys, packet') →
  ∃ init message, let i := init_payload init in
    from_slice (drop 53 packet) = Some init
    ∧ signature_message INIT_SIGNATURE_DOMAIN i = Ok message
    ∧ signature_valid key message (init_signature init)
    ∧ parse_session_routing_header packet RELAY_SESSION_INIT
        = Ok (si_network_id i, si_initiator i, si_responder i)
    ∧ si_version i = 1 ∧ abs_diff now (si_issued_at i) ≤ skew
    ∧ psk_session_id keys = si_session_id i.
Proof.
  intros (init & sb & sig & Hj & Hh & Hver & Hf & Hv & _ & Hd & _)%accept_Ok.
  apply verify_payload_iff in Hv as (m & Hm & Hs).
  apply derive_session_keys_Ok in Hd as (_ & a & b & _ & _ & _ & ->).
  exists init, m. by split_and!.
Qed.

Lemma complete_Ok h packet key nk now skew keys :
  complete h packet key nk now skew = Ok keys →
  ∃ response message, let p := response_payload response in let i := init_payload (ih_init h) in
    from_slice (drop 53 packet) = Some response
    ∧ signature_message RESPONSE_SIGNATURE_DOMAIN p = Ok message
    ∧ signature_valid key message (response_signature response)
    ∧ sr_network_id p = si_network_id i ∧ sr_initiator p = si_initiator i
    ∧ sr_responder p = si_responder i ∧ sr_session_id p = si_session_id i
    ∧ sr_initiator_ephemeral_public_key p = si_initiator_ephemeral_public_key i
    ∧ sr_version p = 1 ∧ abs_diff now (sr_issued_at p) ≤ skew
    ∧ psk_session_id keys = si_session_id i.
Proof.
  unfold complete. intros Hc. inv_ok. stable_eqs. unfold verify_fresh in *. inv_ok.
  match goal with Hp : parse_routed_json _ _ _ _ _ = Ok _ |- _ =>
    apply parse_routed_json_Ok in Hp as [_ Hp] end.
  match goal with Hv : verify_payload _ _ _ _ = Ok _ |- _ =>
    apply verify_payload_iff in Hv as (m & Hm & Hs) end.
  apply derive_session_keys_Ok in Hc as (_ & a & b & _ & _ & _ & ->).
  do 2 eexists. split_and!; first [eassumption|done].
Qed.

(** the responder is authenticated.  An initiator that completes a
    handshake has read a response issued within the clock skew that the
    expected responder signed and that repeats the network, the two
    identities, the session identifier and the initiator's own ephemeral key
    of this very handshake. *)
Theorem complete_authenticated h packet key nk now skew keys :
  complete h packet key nk now skew = Ok keys →
  ∃ response message, let p := response_payload response in let i := init_payload (ih_init h) in
    from_slice (drop 53 packet) = Some response
    ∧ signature_message RESPONSE_SIGNATURE_DOMAIN p = Ok message
    ∧ signature_valid key message (response_signature response)
    ∧ sr_network_id p = si_network_id i ∧ sr_initiator p = si_initiator i
    ∧ sr_responder p = si_responder i ∧ sr_session_id p = si_session_id i
    ∧ sr_initiator_ephemeral_public_key p = si_initiator_ephemeral_public_key i
    ∧ sr_version p = 1 ∧ abs_diff now (sr_issued_at p) ≤ skew
    ∧ psk_session_id keys = si_session_id i.
Proof. apply complete_Ok. Qed.

Lemma started_id rid rs n i r key t h packet :
  start rid rs n i r key t = Ok (h, packet) →
  session_handshake_id packet RELAY_SESSION_INIT = Ok (si_session_id (init_payload (ih_init h))).
Proof.
  intros (id & sb & _ & _ & _ & Hi & _ & Hh & Hp)%start_Ok.
  unfold session_handshake_id. pass_call Hh. rewrite Z.eqb_refl. pass_call Hp.
  rewrite Hi. cbn [init_of si_network_id si_initiator si_responder]. by pass_guard.
Qed.
End handshake.

(** ** Data packets *)
Section packets.
Context `{UuidLaws} `{SessionCryptoLaws}.

Lemma session_data_header_length n s d id seq :
  length id = 16%nat → length (session_data_header n s d id seq) = 77%nat.
Proof.
  intros Hid. unfold session_data_header.
  by rewrite !length_app, routing_header_length, length_be_bytes, Hid.
Qed.

Lemma parse_session_data_header_of n s d id seq c :
  length id = 16%nat → 0 ≤ seq < 2 ^ 64 → (16 ≤ length c)%nat →
  parse_session_data_header (session_data_header n s d id seq ++ c) = Ok (n, s, d, id, seq).
Proof.
  intros Hid Hseq Hc. unfold parse_session_data_header.
  assert (length (session_data_header n s d id seq ++ c) = (77 + length c)%nat) as Hl
    by (by rewrite length_app, session_data_header_length).
  rewrite Hl. rewrite bool_decide_eq_false_2 by (cbv -[Nat.lt Nat.add length]; lia).
  cbn [bail_if]. rewrite bind_ret.
  unfold session_data_header. rewrite <-!app_assoc. rewrite parse_header_routed.
  rewrite bind_ret. cbv beta iota.
  rewrite (slice_app_here 53 69) by (rewrite ?routing_header_length; lia).
  rewrite (try_into_length 16 id) by done. cbn [ok_or]. rewrite bind_ret.
  rewrite app_assoc. rewrite (slice_app_here 69 77); cycle 1.
  { rewrite length_app, routing_header_length. lia. }
  { by rewrite length_be_bytes. }
  rewrite try_into_length by apply length_be_bytes. cbn [ok_or]. rewrite bind_ret.
  rewrite from_be_be_bytes, Z.mod_small; [done|]. cbn; lia.
Qed.

Lemma seal_Ok k n s d seq pt packet :
  seal k n s d seq pt = Ok packet ↔
  ∃ c, aead_encrypt (psk_send_key k) (session_nonce (psk_session_id k) seq)
         (session_data_header n s d (psk_session_id k) seq) pt = Some c
    ∧ packet = session_data_header n s d (psk_session_id k) seq ++ c.
Proof.
  unfold seal. split.
  - intros Hs. inv_ok. subst. eauto.
  - intros (c & Hc & ->). by pass_call Hc.
Qed.

Lemma open_sealed k k' w n s d seq pt packet :
  seal k n s d seq pt = Ok packet →
  length (psk_session_id k) = 16%nat → 0 ≤ seq < 2 ^ 64 →
  psk_session_id k' = psk_session_id k → psk_receive_key k' = psk_send_key k →
  can_accept w seq = true →
  session_open k' w packet = Ok (mkSessionPacket n s d (psk_session_id k) seq pt, mark w seq).
Proof.
  intros (c & Hc & ->)%seal_Ok Hid Hseq Hid' Hkey Hw. unfold session_open.
  rewrite parse_session_data_header_of by
    (try done; rewrite (aead_encrypt_length _ _ _ _ _ Hc); lia).
  rewrite bind_ret. cbv beta iota. pass_guard.
  rewrite take_app_length', drop_app_length' by (by rewrite session_data_header_length).
  rewrite Hkey. rewrite (aead_decrypt_encrypt _ _ _ _ _ Hc). done.
Qed.

End packets.

(** ** Runs of [open]: these hold of any cipher *)
Section opening.
Context `{UuidLib} `{SessionCrypto}.

Lemma session_open_Ok k w packet p w' :
  session_open k w packet = Ok (p, w') →
  can_accept w (spk_sequence p) = true ∧ w' = mark w (spk_sequence p)
  ∧ spk_session_id p = psk_session_id k.
Proof.
  unfold session_open. intros Ho. apply bind_Ok in Ho as ([[[[n s] d] id] seq] & _ & Ho).
  inv_ok. simplify_eq. cbn. stable_eqs. done.
Qed.

(** What a run of [open] over any packets accepts: sequences the window had
    not seen, no two equal; and the window ends up knowing them. *)
Lemma open_all_fresh k w seen packets ps w' :
  represents w seen → open_all k w packets = (ps, w') →
  NoDup (map spk_sequence ps) ∧ (∀ p, p ∈ ps → spk_sequence p ∉ seen)
  ∧ represents w' (list_to_set (map spk_sequence ps) ∪ seen).
Proof.
  revert w seen ps. induction packets as [|packet packets IH]; intros w seen ps Hw; cbn.
  { intros [= <- <-]. split_and!; [constructor|set_solver|]. cbn. by rewrite union_empty_l_L. }
  destruct (session_open k w packet) as [[p w1]|e] eqn:Ho; [|by apply IH].
  destruct (open_all k w1 packets) as [rest w2] eqn:Hr. intros [= <- <-].
  apply session_open_Ok in Ho as (Hc & -> & _). rewrite (can_accept_iff w seen) in Hc by done.
  specialize (IH _ _ _ (mark_represents _ _ _ Hw Hc) Hr) as (Hnd & Hfresh & Hrep).
  destruct Hc as [Hc _]. cbn. split_and!.
  - constructor; [|done]. rewrite list_elem_of_fmap. intros (q & Hq & Hin).
    apply (Hfresh q Hin). set_solver.
  - intros q [->|Hq]%elem_of_cons; [done|]. specialize (Hfresh q Hq). set_solver.
  - by rewrite (union_comm_L {[spk_sequence p]}), <-union_assoc_L.
Qed.
(** C1: no replay over a whole run.  Whatever packets arrive in whatever
    order, the packets a session accepts with one window all carry the
    session's identifier and pairwise different sequences. *)
Theorem no_sequence_accepted_twice k packets :
  let ps := (open_all k ReplayWindow_default packets).1 in
  NoDup (map spk_sequence ps) ∧ Forall (λ p, spk_session_id p = psk_session_id k) ps.
Proof.
  cbn zeta. destruct (open_all k ReplayWindow_default packets) as [ps w'] eqn:Ho. cbn. split.
  - by destruct (open_all_fresh _ _ _ _ _ _ represents_default Ho).
  - revert Ho. generalize ReplayWindow_default. revert ps.
    induction packets as [|packet packets IH]; intros ps w; cbn; [by intros [= <- _]|].
    destruct (session_open k w packet) as [[p w1]|e] eqn:Hp; [|by apply IH].
    destruct (open_all k w1 packets) as [rest w2] eqn:Hr. intros [= <- <-].
    constructor; [|by eapply IH]. by apply session_open_Ok in Hp as (_ & _ & ?).
Qed.
End opening.

Section packet_properties.
Context `{UuidLaws} `{SessionCryptoLaws}.

(** C27: the replay window refines its specification.  A window that
    represents a set of accepted sequences accepts exactly the sequences
    that are not in the set and at most 63 behind its largest member, and
    marking an acceptable sequence represents the set with it added; the
    fresh window represents the empty set. *)
Theorem replay_window_refines w seen s :
  represents ReplayWindow_default ∅
  ∧ (represents w seen →
     (can_accept w s = true ↔ acceptable seen s)
     ∧ (acceptable seen s → represents (mark w s) ({[s]} ∪ seen))).
Proof.
  split; [apply represents_default|]. intros Hw.
  split; [by apply can_accept_iff|by apply mark_represents].
Qed.

(** sealing and opening.  A packet sealed with one side's keys opens
    with the mirrored keys to the same route, sequence and plaintext when the
    window finds the sequence acceptable, and opening it a second time is
    refused as a replay. *)
Theorem seal_open_once k k' w seen n s d seq pt packet :
  seal k n s d seq pt = Ok packet →
  length (psk_session_id k) = 16%nat → 0 ≤ seq < 2 ^ 64 →
  psk_session_id k' = psk_session_id k → psk_receive_key k' = psk_send_key k →
  represents w seen → acceptable seen seq →
  ∃ w', session_open k' w packet = Ok (mkSessionPacket n s d (psk_session_id k) seq pt, w')
    ∧ represents w' ({[seq]} ∪ seen)
    ∧ session_open k' w' packet = Err SessionReplayDetected.
Proof.
  intros Hs Hid Hseq Hid' Hkey Hw Ha. exists (mark w seq). split_and!.
  - apply open_sealed; try done. by apply (can_accept_iff w seen).
  - by apply mark_represents.
  - apply seal_Ok in Hs as (c & Hc & ->). unfold session_open.
    rewrite parse_session_data_header_of by
      (try done; rewrite (aead_encrypt_length _ _ _ _ _ Hc); lia).
    rewrite bind_ret. cbv beta iota.
    assert (can_accept (mark w seq) seq = false) as ->; [|by rewrite orb_true_r].
    apply not_true_is_false. intros Hx.
    apply (can_accept_iff _ _ _ (mark_represents _ _ _ Hw Ha)) in Hx as [Hx _]. set_solver.
Qed.
End packet_properties.

(** ** Witnesses: a handshake between two devices and one data packet *)
#[export] Instance session_serde_sample_laws : SessionSerdeLaws.
Proof. by destruct session_serde_sample_roundtrip as (? & ? & ? & ?). Qed.

Definition sample_start : result CryptoError (InitiatorHandshake * bytes) :=
  start (Some (replicate 16 5)) (Some (replicate 32 6)) net_a alice bob alice_key 100.
Definition sample_handshake : InitiatorHandshake * bytes :=
  unwrap sample_start
    (mkInitiatorHandshake (mkSessionInit (init_untuple (0, net_a, alice, bob, [], [], 0)) [])
       (secret_from []), []).
Definition sample_accept : result CryptoError (PairwiseSessionKeys * bytes) :=
  accept_pairwise_handshake (Some (replicate 32 8)) sample_handshake.2 (public_bytes alice_key)
    bob_key net_key 110 30.
Definition sample_keys : PairwiseSessionKeys * bytes :=
  unwrap sample_accept (mkPairwiseSessionKeys [] [] [], []).

Lemma sample_start_Ok : sample_start = Ok (sample_handshake.1, sample_handshake.2).
Proof. unfold sample_handshake. apply unwrap_pair. by vm_compute. Qed.
Lemma sample_accept_Ok : sample_accept = Ok (sample_keys.1, sample_keys.2).
Proof. unfold sample_keys. apply unwrap_pair. by vm_compute. Qed.

Lemma handshake_agreement_witness :
  is_ok sample_start = true
  ∧ ∃ kr packet' ki,
      accept_pairwise_handshake (Some (replicate 32 8)) sample_handshake.2
        (public_bytes alice_key) bob_key net_key 110 30 = Ok (kr, packet')
      ∧ complete sample_handshake.1 packet' (public_bytes bob_key) net_key 120 30 = Ok ki
      ∧ psk_session_id ki = psk_session_id kr
      ∧ psk_send_key ki = psk_receive_key kr ∧ psk_receive_key ki = psk_send_key kr.
Proof.
  split; [by vm_compute|].
  apply (handshake_agreement (Some (replicate 16 5)) (Some (replicate 32 6)) net_a alice bob
    alice_key 100 sample_handshake.1 sample_handshake.2 (replicate 32 8) bob_key net_key
    110 30 120 30); [exact sample_start_Ok|by vm_compute|by vm_compute| |].
  - vm_decide.
  - intros info. apply hkdf64_concrete_total.
Defined.
Lemma accept_authenticated_witness :
  ∃ init message, let i := init_payload init in
    from_slice (drop 53 sample_handshake.2) = Some init
    ∧ signature_message INIT_SIGNATURE_DOMAIN i = Ok message
    ∧ signature_valid (public_bytes alice_key) message (init_signature init)
    ∧ parse_session_routing_header sample_handshake.2 RELAY_SESSION_INIT
        = Ok (si_network_id i, si_initiator i, si_responder i)
    ∧ si_version i = 1 ∧ abs_diff 110 (si_issued_at i) ≤ 30
    ∧ psk_session_id sample_keys.1 = si_session_id i.
Proof.
  apply (accept_authenticated (Some (replicate 32 8)) _ _ bob_key net_key 110 30 _ sample_keys.2).
  exact sample_accept_Ok.
Defined.
Lemma complete_authenticated_witness :
  is_ok (complete sample_handshake.1 sample_keys.2 (public_bytes bob_key) net_key 120 30) = true
  ∧ ∃ response message, let p := response_payload response in
      let i := init_payload (ih_init sample_handshake.1) in
      from_slice (drop 53 sample_keys.2) = Some response
      ∧ signature_message RESPONSE_SIGNATURE_DOMAIN p = Ok message
      ∧ signature_valid (public_bytes bob_key) message (response_signature response)
      ∧ sr_network_id p = si_network_id i ∧ sr_initiator p = si_initiator i
      ∧ sr_responder p = si_responder i ∧ sr_session_id p = si_session_id i
      ∧ sr_initiator_ephemeral_public_key p = si_initiator_ephemeral_public_key i
      ∧ sr_version p = 1 ∧ abs_diff 120 (sr_issued_at p) ≤ 30
      ∧ psk_session_id (unwrap (complete sample_handshake.1 sample_keys.2
          (public_bytes bob_key) net_key 120 30) (mkPairwiseSessionKeys [] [] []))
        = si_session_id i.
Proof.
  split; [by vm_compute|].
  apply (complete_authenticated _ _ _ net_key 120 30). apply unwrap_Ok. by vm_compute.
Defined.
Lemma replay_window_refines_witness :
  represents ReplayWindow_default ∅
  ∧ (can_accept ReplayWindow_default 7 = true ↔ acceptable ∅ 7)
  ∧ (acceptable ∅ 7 → represents (mark ReplayWindow_default 7) ({[7]} ∪ ∅)).
Proof.
  destruct (replay_window_refines ReplayWindow_default ∅ 7) as [H0 H]. split; [done|].
  by apply H.
Defined.
Lemma seal_open_once_witness :
  let k := mkPairwiseSessionKeys (replicate 16 1) (replicate 32 2) (replicate 32 3) in
  let k' := mkPairwiseSessionKeys (replicate 16 1) (replicate 32 3) (replicate 32 2) in
  let packet := unwrap (seal k net_a alice bob 9 [1; 2; 3]) [] in
  is_ok (seal k net_a alice bob 9 [1; 2; 3]) = true
  ∧ ∃ w', session_open k' ReplayWindow_default packet
        = Ok (mkSessionPacket net_a alice bob (replicate 16 1) 9 [1; 2; 3], w')
      ∧ represents w' ({[9]} ∪ ∅)
      ∧ session_open k' w' packet = Err SessionReplayDetected.
Proof.
  cbn zeta. split; [by vm_compute|].
  apply (seal_open_once (mkPairwiseSessionKeys (replicate 16 1) (replicate 32 2) (replicate 32 3))
    (mkPairwiseSessionKeys (replicate 16 1) (replicate 32 3) (replicate 32 2))
    ReplayWindow_default ∅ net_a alice bob 9 [1; 2; 3]);
    [apply unwrap_Ok; by vm_compute|done|lia|done|done|by split|by split].
Defined.
