(* ===== verification/AgentSessionFacts.v ===== *)
(** * The agent's sessions: what holds of every reachable table *)
From S2P Require Import Prelude Net Text Ext Model ServiceIdentity Membership Authorization.
From S2P Require Import RelayProto Session Planet Policy Joined DataPlane PeerDirectory.
From S2P Require Import Observability TransportHealth Frames AgentSession.
#[local] Open Scope Z_scope.

Section nonces.
Context `{UuidLaws} `{Ed25519} `{IpNetLib} `{HashOrder}.
Context `{!MembershipSerde} `{!AuthorizationSerde} `{!SessionSerde} `{SessionCrypto}.
Context (local : DeviceId).
Implicit Types (w : SessionTables) (p key : PeerKey) (packet x : bytes).

(** ** The data packets a run has handed to a transport, per peer *)

(** A data packet from this device to the peer. *)
Definition addressed p packet : bool :=
  bool_decide (take 53 packet = routing_header RELAY_SESSION_DATA p.1 local p.2).
Definition on_effect p (log : list bytes) (effect : Effect) : list bytes :=
  match effect with
  | SessionEstablished key _ => if decide (key = p) then [] else log
  | Transmit _ _ packet => if addressed p packet then log ++ [packet] else log
  | Inject _ => log
  end.
Definition next_log p : list bytes → list Effect → list bytes := foldl (on_effect p).

(** A run of this device with, for one peer, the data packets offered to a
    transport since the present session was established. *)
Inductive session_run (p : PeerKey) : SessionTables → list bytes → Prop :=
| run_start observed : session_run p (SessionTables_new observed) []
| run_step w log env input w' effects :
    session_run p w log → se_device_id env = local →
    session_step env input w = Ok (w', effects) →
    session_run p w' (next_log p log effects).

(** The packets of [log] are the plaintexts [0 … next - 1] sealed in order: one
    plaintext for each sequence number. *)
Definition accounted p (keys : PairwiseSessionKeys) (next : Z) (log : list bytes) : Prop :=
  ∃ plaintexts, len plaintexts = next ∧ ∀ x, x ∈ log → ∃ j plaintext,
    plaintexts !! j = Some plaintext
    ∧ seal keys p.1 local p.2 (Z.of_nat j) plaintext = Ok x.

Definition is_control packet : Prop :=
  ∃ kind rest, packet = RELAY_MAGIC ++ [kind] ++ rest ∧ kind ≠ RELAY_SESSION_DATA.
Definition session_wf (s : PeerSessionState) : Prop :=
  match s with
  | Pending q => len (pd_queued_packets q) ≤ SESSION_QUEUE_CAPACITY ∧ is_control (pd_init_packet q)
  | Established e =>
      0 ≤ es_next_sequence e ≤ u64_max ∧ ∀ r, es_cached_response e = Some r → is_control r
  end.
Record tables_inv p w (log : list bytes) : Prop := {
  ti_sessions key s : st_sessions w !! key = Some s → session_wf s;
  ti_log e : st_sessions w !! p = Some (Established e) →
    accounted p (es_keys e) (es_next_sequence e) log;
}.

(** *** Packets *)
Lemma routed_control kind n s d rest :
  kind ≠ RELAY_SESSION_DATA → is_control (routing_header kind n s d ++ rest).
Proof.
  intros Hk. exists kind, (network_bytes n ++ device_bytes s ++ device_bytes d ++ rest).
  unfold routing_header. by rewrite <-!app_assoc.
Qed.
Lemma control_not_addressed p packet : is_control packet → addressed p packet = false.
Proof.
  intros (kind & rest & -> & Hk). apply bool_decide_eq_false. intros E.
  apply (f_equal (λ l, l !! 4%nat)) in E. cbn in E. congruence.
Qed.
Lemma seal_header k n s d sequence plaintext x :
  seal k n s d sequence plaintext = Ok x → take 53 x = routing_header RELAY_SESSION_DATA n s d.
Proof.
  unfold seal. intros Hs. inv_ok. subst. unfold session_data_header.
  rewrite <-!app_assoc, take_app_length'; [done|]. by rewrite routing_header_length.
Qed.
Lemma seal_addressed k p key sequence plaintext x :
  seal k key.1 local key.2 sequence plaintext = Ok x → addressed p x = bool_decide (key = p).
Proof.
  intros Hs%seal_header. unfold addressed. rewrite Hs. apply bool_decide_ext. split; [|by intros ->].
  intros (_ & ? & _ & ?)%routing_header_inj. destruct key, p; cbn in *. congruence.
Qed.

(** *** The log *)
Lemma accounted_subset p keys next log log' :
  accounted p keys next log → (∀ x, x ∈ log' → x ∈ log) → accounted p keys next log'.
Proof. intros (pts & Hl & Hx) Hs. exists pts. split; [done|]. eauto. Qed.
Lemma inv_subset p w log log' :
  tables_inv p w log → (∀ x, x ∈ log' → x ∈ log) → tables_inv p w log'.
Proof. intros [Hs Hl] Hsub. split; [done|]. intros e He. eapply accounted_subset; eauto. Qed.

Definition quiet (effect : Effect) : Prop :=
  match effect with
  | Transmit _ _ packet => is_control packet
  | Inject _ => True
  | SessionEstablished _ _ => False
  end.
Lemma next_log_quiet p log effects : Forall quiet effects → next_log p log effects = log.
Proof.
  induction 1 as [|effect effects Hq _ IH]; [done|]. unfold next_log in *. cbn.
  destruct effect as [? ? packet| |]; cbn in *; [|done|done].
  by rewrite control_not_addressed.
Qed.
Lemma next_log_app p log e1 e2 : next_log p log (e1 ++ e2) = next_log p (next_log p log e1) e2.
Proof. apply foldl_app. Qed.

Definition transmits x (effect : Effect) : Prop := ∃ via endpoint, effect = Transmit via endpoint x.
Lemma transmits_subset p x log effects :
  Forall (transmits x) effects →
  ∀ y, y ∈ next_log p log effects → y ∈ (if addressed p x then log ++ [x] else log).
Proof.
  intros Hf. revert log. induction Hf as [|effect effects (via & endpoint & ->) _ IH]; intros log y.
  - cbn. destruct (addressed p x); [rewrite elem_of_app; by left|done].
  - intros Hy%IH. cbn in Hy. destruct (addressed p x); [|done].
    rewrite !elem_of_app in *. tauto.
Qed.
Lemma transmits_quiet x effects : is_control x → Forall (transmits x) effects → Forall quiet effects.
Proof. intros Hc Hf. eapply Forall_impl; [done|]. by intros effect (via & endpoint & ->). Qed.
Lemma first_sent_transmits env x attempts : Forall (transmits x) (first_sent env x attempts).1.
Proof.
  induction attempts as [|[[via endpoint] path] attempts IH]; cbn; [done|]. case_match.
  - repeat constructor. by eexists _, _.
  - destruct (first_sent env x attempts) as [effects sent]. cbn in *.
    constructor; [by eexists _, _|done].
Qed.

(** *** Table updates that keep the session *)
Definition same_session (s s' : PeerSessionState) : Prop :=
  match s, s' with
  | Pending q, Pending q' =>
      pd_queued_packets q' = pd_queued_packets q ∧ pd_init_packet q' = pd_init_packet q
  | Established e, Established e' =>
      es_keys e' = es_keys e ∧ es_next_sequence e' = es_next_sequence e
      ∧ es_cached_response e' = es_cached_response e
  | _, _ => False
  end.
Lemma same_session_wf s s' : same_session s s' → session_wf s → session_wf s'.
Proof.
  destruct s, s'; try by intros []. 
  - intros [Hq Hi]. cbn. by rewrite Hq, Hi.
  - intros (_ & Hn & Hc). cbn. by rewrite Hn, Hc.
Qed.
Lemma set_path_same s path : same_session s (set_path s path).
Proof. destruct s; by split_and!. Qed.
Lemma rejected_same s : same_session s (record_rejected_packet s).
Proof. by destruct s. Qed.
Lemma send_results_same s results : same_session s (record_encrypted_send_results s results).
Proof. by destruct s. Qed.
Lemma opened_same window path s : same_session s (record_opened window path s).
Proof. by destruct s. Qed.
Lemma sent_state_same s path is_data : same_session s (sent_state s path is_data).
Proof. by destruct s, is_data. Qed.
Lemma mark_retried_same now s : same_session s (mark_retried now s).
Proof. destruct s; [|by split_and!]. unfold mark_retried. destruct (retry_due _ _); by split_and!. Qed.
Lemma same_session_refl s : same_session s s.
Proof. by destruct s. Qed.

Lemma inv_update p env w log key f :
  (∀ s, same_session s (f s)) → tables_inv p w log → tables_inv p (update_session env w key f) log.
Proof.
  intros Hf [Hs Hl]. unfold update_session. destruct (st_sessions w !! key) as [s|] eqn:Hk; [|done].
  split; cbn.
  - intros k s' [[<- <-]|[_ Hk']]%lookup_insert_Some; [|eauto]. eapply same_session_wf; eauto.
  - intros e [[<- He]|[_ He]]%lookup_insert_Some; [|eauto].
    specialize (Hf s). rewrite He in Hf. destruct s as [q|e0]; [done|]. cbn in Hf.
    destruct Hf as (-> & -> & _). by apply Hl.
Qed.
Lemma inv_sub_sessions p w w' log :
  (∀ key s, st_sessions w' !! key = Some s → st_sessions w !! key = Some s) →
  tables_inv p w log → tables_inv p w' log.
Proof. intros Hsub [Hs Hl]. split; eauto. Qed.
Lemma inv_same_sessions p w w' log :
  tables_inv p w log → st_sessions w' = st_sessions w → tables_inv p w' log.
Proof. intros Hinv E. eapply inv_sub_sessions; [|done]. by rewrite E. Qed.
Lemma inv_insert_pending p w w' log key q :
  st_sessions w' = <[key := Pending q]> (st_sessions w) →
  session_wf (Pending q) → tables_inv p w log → tables_inv p w' log.
Proof.
  intros E Hq [Hs Hl]. split; rewrite E.
  - intros k s [[<- <-]|[_ Hk]]%lookup_insert_Some; eauto.
  - intros e [[_ ?]|[_ He]]%lookup_insert_Some; [done|eauto].
Qed.

(** *** Outbound packets *)
Lemma seal_queued_spec keys n s d next queued next' encrypted :
  seal_queued_from keys n s d next queued = Ok (next', encrypted) →
  next' = next + len queued ∧ ∀ j x, encrypted !! j = Some x → ∃ plaintext,
    queued !! j = Some plaintext ∧ seal keys n s d (next + Z.of_nat j) plaintext = Ok x.
Proof.
  revert next next' encrypted. induction queued as [|q queued IH]; intros next next' encrypted.
  { cbn [seal_queued_from]. intros [= <- <-]. split; [by rewrite len_nil, Z.add_0_r|].
    intros j x. by rewrite lookup_nil. }
  cbn [seal_queued_from]. intros Hs. inv_ok. rename x into packet.
  match goal with Hc : seal_queued_from _ _ _ _ _ _ = Ok ?r |- _ =>
    destruct r as [n' enc]; apply IH in Hc as [-> Henc] end.
  simplify_eq/=. split; [rewrite len_cons; lia|].
  intros [|j] x; cbn [lookup list_lookup].
  - intros [= ->]. exists q. by rewrite Z.add_0_r.
  - intros Hj%Henc. destruct Hj as (pt & ? & Hp). exists pt. split; [done|].
    by replace (next + Z.of_nat (S j)) with (next + 1 + Z.of_nat j) by lia.
Qed.

Lemma accounted_extend p keys next log x plaintext :
  0 ≤ next → accounted p keys next log → seal keys p.1 local p.2 next plaintext = Ok x →
  accounted p keys (next + 1) (log ++ [x]).
Proof.
  intros Hn (pts & Hl & Hx) Hs. exists (pts ++ [plaintext]). split.
  { by rewrite len_app, Hl. }
  intros y [Hy| ->%list_elem_of_singleton]%elem_of_app.
  - destruct (Hx y Hy) as (j & pt & Hj & ?). exists j, pt. split; [|done]. by apply lookup_app_l_Some.
  - exists (length pts), plaintext. unfold len in Hl. rewrite Hl. split; [|done].
    by rewrite lookup_app_r, Nat.sub_diag.
Qed.

Definition prepared_log p (log : list bytes) (prepared : option PreparedPeerPacket) : list bytes :=
  match prepared with
  | Some (Data x) => if addressed p x then log ++ [x] else log
  | _ => log
  end.
Definition prepared_wf (prepared : option PreparedPeerPacket) : Prop :=
  match prepared with Some (Handshake x) => is_control x | _ => True end.

Lemma queue_packet_wf q plaintext now q' prepared :
  queue_packet q plaintext now = (q', prepared) → session_wf (Pending q) →
  session_wf (Pending q') ∧ prepared_wf prepared
  ∧ ∀ p log, prepared_log p log prepared = log.
Proof.
  intros Hq [Hlen Hc]. unfold queue_packet in Hq.
  destruct (len (pd_queued_packets q) <? SESSION_QUEUE_CAPACITY) eqn:Hl;
    destruct (HANDSHAKE_RETRY <=? _); simplify_eq/=; split_and!; try done.
  all: rewrite len_app; cbn; apply Z.ltb_lt in Hl; change (len [plaintext]) with 1; lia.
Qed.
Lemma start_control rid rs n i r sk t handshake packet :
  start rid rs n i r sk t = Ok (handshake, packet) → is_control packet.
Proof.
  unfold start. intros Hs. inv_ok. simplify_eq.
  match goal with He : encode_routed_json _ _ _ _ _ = Ok _ |- _ => unfold encode_routed_json in He end.
  inv_ok. subst. by apply routed_control.
Qed.
Lemma accept_control rs packet pk sk nk now skew keys response :
  accept_pairwise_handshake rs packet pk sk nk now skew = Ok (keys, response) →
  is_control response.
Proof.
  unfold accept_pairwise_handshake. intros Hs. inv_ok. destruct x as [[n i] r]. inv_ok. simplify_eq.
  match goal with He : encode_routed_json RELAY_SESSION_RESPONSE _ _ _ _ = Ok _ |- _ =>
    unfold encode_routed_json in He end.
  inv_ok. subst. by apply routed_control.
Qed.

Lemma prepare_inv p env w log network peer pk plaintext sessions prepared w' :
  se_device_id env = local →
  prepare_outbound_peer_packet env (st_sessions w) network peer pk plaintext
    = Ok (sessions, prepared) →
  st_sessions w' = sessions → tables_inv p w log →
  tables_inv p w' (prepared_log p log prepared) ∧ prepared_wf prepared.
Proof.
  intros Hdev Hp Hw Hinv. unfold prepare_outbound_peer_packet in Hp.
  destruct (negb _); [injection Hp as <- <-; split; [|done]; eapply inv_sub_sessions; [|done]; by rewrite Hw|].
  set (key := (jn_id network, peer)) in Hp.
  set (kept := if is_some_and _ _ then delete key _ else _) in Hp.
  assert (∀ k s, kept !! k = Some s → st_sessions w !! k = Some s) as Hkept.
  { subst kept. destruct (is_some_and _ _); [|done]. by intros k s [_ ?]%lookup_delete_Some. }
  assert (tables_inv p (mkSessionTables (st_peers w) kept (st_seen w) (st_observed w)) log) as Hinv'
    by (by eapply inv_sub_sessions).
  destruct (kept !! key) as [[q|e]|] eqn:Hk.
  - destruct (queue_packet _ _ _) as [q' o] eqn:Hq. injection Hp as <- <-.
    destruct (queue_packet_wf _ _ _ _ _ Hq (ti_sessions _ _ _ Hinv' _ _ Hk)) as (? & ? & ->).
    split; [|done]. eapply inv_insert_pending; [|try done|exact Hinv']; [exact Hw|done ..].
  - inv_ok. injection Hp as <- <-. split; [|done].
    assert (es_next_sequence e ≠ u64_max) as Hmax.
    { intros Hm. subst kept. pose proof (Hkept _ _ Hk) as Hk0. rewrite Hk0 in Hk. cbn in Hk.
      unfold must_discard in Hk. rewrite Hm, orb_true_r, lookup_delete_eq in Hk. done. }
    destruct (ti_sessions _ _ _ Hinv' _ _ Hk) as [Hrange Hcached].
    unfold sat_add64 in Hw. rewrite Z.min_r in Hw by lia. split; cbn; rewrite Hw.
    + intros k s [[<- <-]|[_ ?]]%lookup_insert_Some; [|by eapply (ti_sessions _ _ _ Hinv')].
      split; [cbn; lia|done].
    + match goal with Hs : seal _ _ _ _ _ _ = Ok _ |- _ => rewrite Hdev in Hs;
        rewrite (seal_addressed _ p key _ _ _ Hs) end.
      intros e' [[<- He]|[Hne He]]%lookup_insert_Some.
      * rewrite bool_decide_eq_true_2 by done. injection He as <-. cbn.
        eapply accounted_extend; [lia| |done]. by apply (ti_log _ _ _ Hinv').
      * rewrite bool_decide_eq_false_2 by done. by apply (ti_log _ _ _ Hinv').
  - inv_ok. destruct x as [handshake init]. inv_ok. injection Hp as <- <-.
    match goal with Hs : start _ _ _ _ _ _ _ = Ok _ |- _ => apply start_control in Hs end.
    split; [|done]. eapply inv_insert_pending; [|try done|exact Hinv']; [exact Hw|done ..].
Qed.

Lemma send_to_target_inv p env relays health network packet w target w' effects log :
  se_device_id env = local →
  send_to_target env relays health network packet w target = Ok (w', effects) →
  tables_inv p w log → tables_inv p w' (next_log p log effects).
Proof.
  intros Hdev Hs Hinv. destruct target as [device route]. unfold send_to_target in Hs. inv_ok.
  destruct x as [sessions prepared].
  match goal with Hp : prepare_outbound_peer_packet _ _ _ _ _ _ = Ok _ |- _ =>
    destruct (prepare_inv p _ _ log _ _ _ _ _ _
      (mkSessionTables (st_peers w) sessions (st_seen w) (st_observed w)) Hdev Hp eq_refl Hinv)
      as [Hinv' Hwf] end.
  destruct prepared as [prepared|]; [|by simplify_eq].
  destruct (match prepared with Handshake p => (p, false) | Data p => (p, true) end)
    as [outbound is_data] eqn:Ho.
  destruct (send_peer_routed_packet _ _ _ _ _ _ _) as [sent path] eqn:Hr. simplify_eq.
  assert (Forall (transmits outbound) effects) as Ht.
  { change effects with (effects, path).1. rewrite <-Hr. apply first_sent_transmits. }
  apply inv_update; [intros s; destruct path; [apply sent_state_same|apply same_session_refl]|].
  destruct prepared as [x|x]; simplify_eq; cbn in Hinv', Hwf.
  - rewrite next_log_quiet; [done|]. by eapply transmits_quiet.
  - eapply inv_subset; [done|]. by apply transmits_subset.
Qed.
Lemma send_to_targets_inv p env relays health network packet targets w w' effects log :
  se_device_id env = local →
  send_to_targets env relays health network packet w targets = Ok (w', effects) →
  tables_inv p w log → tables_inv p w' (next_log p log effects).
Proof.
  intros Hdev. revert w w' effects log.
  induction targets as [|target targets IH]; intros w w' effects log; cbn [send_to_targets];
    intros Hs Hinv; [by simplify_eq|].
  inv_ok. destruct x as [w1 e1]. inv_ok. destruct x as [w2 e2]. simplify_eq.
  rewrite next_log_app. eapply IH; [done|]. by eapply send_to_target_inv.
Qed.

(** *** Inbound frames *)
Lemma inbound_log p env i log encrypted y :
  y ∈ next_log p log (map (send_to_inbound_path env i) encrypted).*1 →
  y ∈ log ∨ y ∈ encrypted ∧ addressed p y = true.
Proof.
  revert log. induction encrypted as [|x encrypted IH]; intros log; [by left|].
  intros [Hy|[Hy ?]]%IH; [|right; by split; [right|]].
  cbn in Hy. destruct (addressed p x) eqn:Hx; [|by left].
  apply elem_of_app in Hy as [?| ->%list_elem_of_singleton]; [by left|].
  right. by split; [left|].
Qed.

Lemma inherited_queue w p log key :
  tables_inv p w log → len (inherited (st_sessions w !! key)).1.1.1.1 ≤ SESSION_QUEUE_CAPACITY.
Proof.
  intros [Hs _]. destruct (st_sessions w !! key) as [[q|e]|] eqn:Hk; [|vm_compute; done..].
  by apply Hs in Hk as [? _].
Qed.
Definition establish_log p (log : list bytes) (env : SessionEnv) (i : Inbound) key
    (encrypted : list bytes) : list bytes :=
  next_log p (if decide (key = p) then [] else log)
    (map (send_to_inbound_path env i) encrypted).*1.
Lemma establish_log_eq p log env i key sid response encrypted :
  (∀ r, response = Some r → is_control r) →
  next_log p log (SessionEstablished key sid
    :: match response with Some r => [Transmit (inbound_transport i) (in_remote i) r] | None => [] end
    ++ (map (send_to_inbound_path env i) encrypted).*1)
  = establish_log p log env i key encrypted.
Proof.
  intros Hr. set (answer := match response with Some _ => _ | None => _ end).
  change (next_log p (on_effect p log (SessionEstablished key sid))
    (answer ++ (map (send_to_inbound_path env i) encrypted).*1)
    = establish_log p log env i key encrypted).
  rewrite next_log_app, (next_log_quiet p _ answer); [done|].
  subst answer. destruct response as [r|]; repeat constructor. by apply Hr.
Qed.
Lemma establish_inv p env i w key keys pk response carried w' effects log :
  se_device_id env = local →
  (∀ r, response = Some r → is_control r) → len carried.1.1.1.1 ≤ SESSION_QUEUE_CAPACITY →
  establish env i w key keys pk response carried = Ok (w', effects) →
  tables_inv p w log → tables_inv p w' (next_log p log effects).
Proof.
  intros Hdev Hresp Hq He Hinv. unfold establish in He.
  destruct carried as [[[[queued dropped] attempts] retries] rejected]. cbn in Hq. inv_ok.
  destruct x as [next encrypted]. injection He as <- <-.
  match goal with Hs : seal_queued_packets _ _ _ _ _ = Ok _ |- _ =>
    rewrite Hdev in Hs; apply seal_queued_spec in Hs as [-> Henc] end.
  rewrite establish_log_eq by done. apply inv_update; [intros s; apply send_results_same|].
  assert (∀ x, x ∈ encrypted → ∃ j plaintext, queued !! j = Some plaintext
    ∧ seal keys key.1 local key.2 (Z.of_nat j) plaintext = Ok x) as Hsealed.
  { intros x [j Hj]%list_elem_of_lookup. apply Henc in Hj as (pt & ? & ?). by exists j, pt. }
  split; cbn.
  - intros k s [[<- <-]|[_ Hk]]%lookup_insert_Some; [|by eapply ti_sessions]. cbn.
    split; [|done]. pose proof (len_nonneg queued). unfold SESSION_QUEUE_CAPACITY, u64_max in *. lia.
  - intros e [[<- [= <-]]|[Hne Hk]]%lookup_insert_Some.
    + cbn. exists queued. split; [done|]. intros x Hx%inbound_log.
      rewrite decide_True in Hx by done. destruct Hx as [[]%elem_of_nil|[Hx _]]. by apply Hsealed.
    + eapply accounted_subset; [by apply (ti_log _ _ _ Hinv)|]. intros x Hx%inbound_log.
      rewrite decide_False in Hx by done. destruct Hx as [?|[Hx Ha]]; [done|].
      apply Hsealed in Hx as (j & pt & _ & Hs). rewrite (seal_addressed _ p _ _ _ _ Hs) in Ha.
      by apply bool_decide_eq_true in Ha.
Qed.

Lemma receive_session_init_inv p env i w packet w' effects log :
  se_device_id env = local → receive_session_init env i w packet = Ok (w', effects) →
  tables_inv p w log → tables_inv p w' (next_log p log effects).
Proof.
  intros Hdev Hr Hinv. unfold receive_session_init in Hr.
  destruct (parse_session_routing_header _ _) as [[[n source] destination]|]; [|by simplify_eq].
  destruct (_ || _); [by simplify_eq|]. destruct (find_network _ _) as [network|]; [|by simplify_eq].
  destruct (negb _); [by simplify_eq|]. destruct (_ <$> _) as [pk|]; [|by simplify_eq].
  destruct (negb _); [by simplify_eq|].
  destruct (session_handshake_id _ _) as [sid|]; [|by simplify_eq].
  destruct (cached_response_for _ _) as [response|] eqn:Hc.
  { injection Hr as <- <-. rewrite next_log_quiet.
    - apply inv_update; [intros s; apply set_path_same|done].
    - repeat constructor. cbn. unfold cached_response_for in Hc.
      destruct (st_sessions w !! _) as [[|e]|] eqn:Hk; [done| |done].
      destruct (bool_decide _); [|done].
      by eapply (proj2 (ti_sessions _ _ _ Hinv _ (Established e) Hk)). }
  destruct (_ && _); [by simplify_eq|]. unfold accept_session_init in Hr.
  destruct (NetworkKey_from_slice _) as [nk|]; [|by simplify_eq].
  destruct (accept_pairwise_handshake _ _ _ _ _ _ _) as [[keys response]|] eqn:Ha.
  2: { injection Hr as <- <-. apply inv_update; [intros s; apply rejected_same|done]. }
  destruct (record_session_handshake _ _ _ _) as [seen fresh]. destruct (negb fresh).
  { injection Hr as <- <-. apply inv_update; [intros s; apply rejected_same|].
    by eapply inv_same_sessions. }
  eapply establish_inv; [done| | |exact Hr|by eapply inv_same_sessions].
  - intros r [= <-]. by eapply accept_control.
  - by eapply inherited_queue.
Qed.
Lemma receive_session_response_inv p env i w packet w' effects log :
  se_device_id env = local → receive_session_response env i w packet = Ok (w', effects) →
  tables_inv p w log → tables_inv p w' (next_log p log effects).
Proof.
  intros Hdev Hr Hinv. unfold receive_session_response in Hr.
  destruct (parse_session_routing_header _ _) as [[[n source] destination]|]; [|by simplify_eq].
  destruct (_ || _); [by simplify_eq|]. destruct (_ !! _) as [route|]; [|by simplify_eq].
  destruct (find_network _ _) as [network|]; [|by simplify_eq].
  destruct (negb _); [by simplify_eq|]. destruct (NetworkKey_from_slice _) as [nk|]; [|by simplify_eq].
  destruct (st_sessions w !! _) as [[q|]|] eqn:Hk; [|by simplify_eq..].
  destruct (bool_decide _); [by simplify_eq|].
  destruct (complete _ _ _ _ _ _) as [keys|].
  2: { injection Hr as <- <-. apply inv_update; [intros s; apply rejected_same|done]. }
  eapply establish_inv; [done| | |exact Hr|done]; [by intros ? [=]|].
  rewrite <-Hk. by eapply inherited_queue.
Qed.
Lemma deliver_opened_effects env i w n s d opened w' effects :
  deliver_opened env i w n s d opened = Ok (w', effects) →
  st_sessions w' = st_sessions w ∧ Forall quiet effects.
Proof.
  unfold deliver_opened. intros Hd.
  destruct (_ || _); [by simplify_eq|]. destruct (find_network _ _); [|by simplify_eq].
  destruct (negb _); [by simplify_eq|]. destruct (_ !! _); [|by simplify_eq].
  destruct (negb _); [by simplify_eq|]. destruct (se_adapter env) as [write|].
  - destruct (write _); simplify_eq. split; [by destruct (contains _ _)|by repeat constructor].
  - simplify_eq. split; [by destruct (contains _ _)|done].
Qed.
Lemma receive_session_data_inv p env i w packet w' effects log :
  receive_session_data env i w packet = Ok (w', effects) →
  tables_inv p w log → tables_inv p w' (next_log p log effects).
Proof.
  intros Hr Hinv. unfold receive_session_data in Hr.
  destruct (parse_session_routing_header _ _) as [[[n source] destination]|]; [|by simplify_eq].
  destruct (_ || _); [by simplify_eq|]. destruct (_ !! _) as [[|e]|]; [by simplify_eq| |by simplify_eq].
  destruct (session_open _ _ _) as [[opened window]|].
  - apply deliver_opened_effects in Hr as [Hs Hq]. rewrite next_log_quiet by done.
    eapply inv_sub_sessions; [intros k s; rewrite Hs; exact id|].
    apply inv_update; [intros s; apply opened_same|done].
  - injection Hr as <- <-. apply inv_update; [intros s; apply rejected_same|done].
Qed.

(** *** Maintenance *)
Lemma retry_handshake_inv p env relays_for health w effects key x log :
  is_control x → tables_inv p w log → Forall quiet effects →
  let acc := retry_handshake env relays_for health (w, effects) (key, x) in
  tables_inv p acc.1 log ∧ Forall quiet acc.2.
Proof.
  intros Hx Hinv Hq. cbn [retry_handshake].
  destruct (List.find _ _) as [network|]; [|done]. destruct (_ !! _) as [route|]; [|done].
  destruct (send_peer_routed_packet _ _ _ _ _ _ _) as [sent path] eqn:Hr. cbn. split.
  - apply inv_update; [|done]. intros s.
    destruct path; [apply set_path_same|apply same_session_refl].
  - apply Forall_app. split; [done|]. eapply transmits_quiet; [done|].
    change sent with (sent, path).1. rewrite <-Hr. apply first_sent_transmits.
Qed.
Lemma retry_handshakes_inv p env relays_for health w w' effects log :
  retry_handshakes env relays_for health w = (w', effects) →
  tables_inv p w log → tables_inv p w' (next_log p log effects).
Proof.
  unfold retry_handshakes. set (retries := due_handshakes _ _).
  set (w0 := mkSessionTables _ _ _ _). intros Hf Hinv.
  assert (Forall (λ r, is_control r.2) retries) as Hc.
  { apply Forall_forall. intros [key x] ([k s] & Hk%elem_of_hash_iter & Hs)%list_elem_of_omap.
    destruct s as [q|]; [|done]. destruct (retry_due _ _); [|done]. injection Hs as <- <-.
    by apply (ti_sessions _ _ _ Hinv) in Hk as [_ ?]. }
  assert (tables_inv p w0 log) as Hinv0.
  { split; cbn.
    - intros k s. rewrite lookup_fmap. intros (s0 & Hk & ->)%fmap_Some.
      eapply same_session_wf; [apply mark_retried_same|by eapply ti_sessions].
    - intros e. rewrite lookup_fmap. intros (s0 & Hk & E)%fmap_Some.
      destruct s0 as [q|e0]; cbn in E; [by destruct (_ <=? _)|]. injection E as ->.
      by apply (ti_log _ _ _ Hinv). }
  pose proof (foldl_preserves (retry_handshake env relays_for health)
    (λ acc, tables_inv p acc.1 log ∧ Forall quiet acc.2) retries (w0, [])) as Hfold.
  rewrite Hf in Hfold. destruct Hfold as [? ?]; [done| |by rewrite next_log_quiet].
  intros [w1 done1] [key x] Hin [Hinv1 Hq]. rewrite Forall_forall in Hc.
  by apply retry_handshake_inv; [apply (Hc (key, x))| |].
Qed.

Lemma probe_peers_inv p env w w' effects log :
  probe_peers env w = (w', effects) → tables_inv p w log → tables_inv p w' (next_log p log effects).
Proof.
  unfold probe_peers. intros [= <- <-] Hinv. rewrite next_log_quiet.
  - apply foldl_preserves; [by eapply inv_same_sessions|].
    intros w1 [key b] _ Hinv1. eapply inv_sub_sessions; [|done].
    cbn. by intros k s [_ ?]%lookup_delete_Some.
  - apply Forall_forall. intros effect (l & ([key route] & -> & _)%list_elem_of_fmap & He)%elem_of_concat.
    apply list_elem_of_fmap in He as (endpoint & -> & _). cbn.
    exists RELAY_PUNCH. by eexists.
Qed.
Lemma drop_unauthorized_inv p env w log :
  tables_inv p w log → tables_inv p (drop_unauthorized env w) log.
Proof.
  intros Hinv. eapply inv_sub_sessions; [|done]. cbn.
  apply (foldl_preserves _ (λ m, ∀ k s, m !! k = Some s → st_sessions w !! k = Some s)); [done|].
  intros m key _ Hm k s [_ ?]%lookup_delete_Some. by apply Hm.
Qed.

(** ** Every reachable table *)
Lemma session_step_inv p env input w w' effects log :
  se_device_id env = local → session_step env input w = Ok (w', effects) →
  tables_inv p w log → tables_inv p w' (next_log p log effects).
Proof.
  intros Hdev Hs Hinv. destruct input; cbn [session_step] in Hs.
  - unfold outbound_packet in Hs. destruct (outbound_route_for_ip_packet _ _ _ _); [|by simplify_eq].
    destruct (negb _); [by simplify_eq|]. by eapply send_to_targets_inv.
  - by eapply receive_session_init_inv.
  - by eapply receive_session_response_inv.
  - by eapply receive_session_data_inv.
  - apply Ok_inj in Hs. by eapply retry_handshakes_inv.
  - apply Ok_inj in Hs. by eapply probe_peers_inv.
  - injection Hs as <- <-. by apply drop_unauthorized_inv.
  - injection Hs as <- <-. by eapply inv_same_sessions.
  - injection Hs as <- <-. eapply inv_sub_sessions; [|done]. cbn. by intros k s [_ ?]%lookup_delete_Some.
Qed.
Lemma session_run_inv p w log : session_run p w log → tables_inv p w log.
Proof.
  induction 1 as [observed|w log env input w' effects _ IH Hdev Hs]; [|by eapply session_step_inv].
  by split; cbn; intros ?; [intros ?|]; rewrite lookup_empty.
Qed.

(** C3: no nonce is used twice, and no queue grows without bound.  Whatever the
    agent does (packets from the adapter, handshake and data frames from anybody,
    retries, probes, directory changes), the data packets it offers to a
    transport for a peer since the present session was established are the
    plaintexts numbered 0, 1, 2, … sealed under the session's keys, each number
    belonging to one plaintext and none reaching the number of the next packet;
    the numbers stay within 64 bits; and while a handshake is under way at most
    eight packets wait for it. *)
Theorem session_sequences_unique p w log s :
  session_run p w log → st_sessions w !! p = Some s →
  match s with
  | Pending q => len (pd_queued_packets q) ≤ 8
  | Established e =>
      0 ≤ es_next_sequence e ≤ u64_max
      ∧ ∃ plaintexts, len plaintexts = es_next_sequence e
          ∧ ∀ x, x ∈ log → ∃ j plaintext, plaintexts !! j = Some plaintext
              ∧ seal (es_keys e) p.1 local p.2 (Z.of_nat j) plaintext = Ok x
  end.
Proof.
  intros [Hs Hl]%session_run_inv Hp. pose proof (Hs _ _ Hp) as Hwf.
  destruct s as [q|e]; [by destruct Hwf|]. destruct Hwf as [? _].
  split; [done|]. by apply Hl.
Qed.
End nonces.
