(* ===== verification/AgentDeliveryFacts.v ===== *)
(** * The agent's sessions: who gets one, what is delivered, and that packets arrive *)
From S2P Require Import Prelude Net Text Ext Model ServiceIdentity Membership Authorization.
From S2P Require Import RelayProto Session Planet Policy Joined DataPlane PeerDirectory.
From S2P Require Import Observability TransportHealth Frames AgentSession.
From S2P Require Import Concrete Samples CoreFacts SessionFacts AgentSessionFacts.
#[local] Open Scope Z_scope.

Section safety.
Context `{UuidLib} `{Ed25519} `{IpNetLib} `{HashOrder}.
Context `{!MembershipSerde} `{!AuthorizationSerde} `{!SessionSerde} `{SessionCrypto}.
Implicit Types (w : SessionTables) (key : PeerKey) (packet : bytes).

(** A sequence that was marked is refused. *)
Lemma mark_refuses window s : can_accept (mark window s) s = false.
Proof.
  unfold can_accept, mark. destruct (highest window) as [h|]; cbn.
  - destruct (h <? s) eqn:Hlt; cbn; rewrite ?Hlt.
    + rewrite Z.ltb_irrefl, Z.sub_diag, land_bit by lia. case_match; [done|].
      by rewrite Z.lor_spec, orb_true_r.
    + destruct (h - s <? 64) eqn:Hd; [|done]. apply Z.ltb_lt in Hd. apply Z.ltb_ge in Hlt.
      rewrite land_bit by lia. rewrite Z.lor_spec, shl64_testbit, testbit_1 by lia.
      rewrite !bool_decide_eq_true_2 by lia. by rewrite orb_true_r.
  - by rewrite Z.ltb_irrefl, Z.sub_diag.
Qed.
Lemma session_open_refused k window packet opened window' :
  session_open k window packet = Ok (opened, window') →
  session_open k window' packet = Err SessionReplayDetected.
Proof.
  unfold session_open. intros Ho. apply bind_Ok in Ho as ([[[[n s] d] id] seq] & Hp & Ho).
  inv_ok. simplify_eq. rewrite Hp. cbn. by rewrite mark_refuses, orb_true_r.
Qed.

(** ** Lookups after an update *)
Lemma update_session_lookup env w key f :
  st_sessions (update_session env w key f) !! key = f <$> st_sessions w !! key.
Proof.
  unfold update_session. destruct (st_sessions w !! key) as [s|] eqn:Hk; cbn; [|done].
  by rewrite lookup_insert_eq.
Qed.
Lemma update_session_peers env w key f : st_peers (update_session env w key f) = st_peers w.
Proof. unfold update_session. by destruct (_ !! _). Qed.

(** ** Which effects a step can have *)
Definition is_transmit (effect : Effect) : Prop :=
  match effect with Transmit _ _ _ => True | _ => False end.
Lemma transmits_is_transmit x effects :
  Forall (transmits x) effects → Forall is_transmit effects.
Proof. intros Hf. eapply Forall_impl; [done|]. by intros effect (? & ? & ->). Qed.
Lemma send_peer_transmits env relays tls health network route packet effects path :
  send_peer_routed_packet env relays tls health network route packet = (effects, path) →
  Forall is_transmit effects.
Proof.
  intros E. change effects with (effects, path).1. rewrite <-E.
  eapply transmits_is_transmit, first_sent_transmits.
Qed.
Lemma send_to_targets_transmits env relays health network packet targets w w' effects :
  send_to_targets env relays health network packet w targets = Ok (w', effects) →
  Forall is_transmit effects.
Proof.
  revert w w' effects. induction targets as [|[device route] targets IH]; intros w w' effects;
    cbn [send_to_targets]; intros Hs; [by simplify_eq|].
  inv_ok. destruct x as [w1 e1]. inv_ok. destruct x as [w2 e2]. simplify_eq.
  apply Forall_app. split; [|by eapply IH].
  match goal with Hs : send_to_target _ _ _ _ _ _ _ = Ok _ |- _ => unfold send_to_target in Hs end.
  inv_ok. destruct x as [sessions [prepared|]]; [|by simplify_eq].
  destruct (match prepared with Handshake p => (p, false) | Data p => (p, true) end).
  destruct (send_peer_routed_packet _ _ _ _ _ _ _) eqn:Hr. simplify_eq.
  by eapply send_peer_transmits.
Qed.
Lemma outbound_transmits env relays_for health w packet w' effects :
  outbound_packet env relays_for health w packet = Ok (w', effects) → Forall is_transmit effects.
Proof.
  unfold outbound_packet. intros Hs. destruct (outbound_route_for_ip_packet _ _ _ _); [|by simplify_eq].
  destruct (negb _); [by simplify_eq|]. by eapply send_to_targets_transmits.
Qed.
Lemma retry_transmits env relays_for health w w' effects :
  retry_handshakes env relays_for health w = (w', effects) → Forall is_transmit effects.
Proof.
  unfold retry_handshakes. intros Hf.
  pose proof (foldl_preserves (retry_handshake env relays_for health)
    (λ acc, Forall is_transmit acc.2) (due_handshakes (se_instant env) (st_sessions w))) as Hp.
  match type of Hf with foldl _ ?a _ = _ => specialize (Hp a) end. rewrite Hf in Hp.
  apply Hp; [by cbn|]. intros [w1 done1] [key x] _ Hd. cbn in *.
  destruct (List.find _ _); [|done]. destruct (_ !! _); [|done].
  destruct (send_peer_routed_packet _ _ _ _ _ _ _) eqn:Hr. cbn.
  apply Forall_app. split; [done|]. by eapply send_peer_transmits.
Qed.
Lemma probe_transmits env w : Forall is_transmit (probe_peers env w).2.
Proof.
  apply Forall_forall. intros effect (l & ([key route] & -> & _)%list_elem_of_fmap & He)%elem_of_concat.
  by apply list_elem_of_fmap in He as (endpoint & -> & _).
Qed.

Definition is_inject (effect : Effect) : Prop :=
  match effect with Inject _ => True | _ => False end.
Definition is_established (effect : Effect) : Prop :=
  match effect with SessionEstablished _ _ => True | _ => False end.
Lemma inbound_transmits env i packets :
  Forall is_transmit (map (send_to_inbound_path env i) packets).*1.
Proof. by induction packets; constructor. Qed.

Lemma establish_spec env i w key keys pk response carried w' effects :
  establish env i w key keys pk response carried = Ok (w', effects) →
  ∃ next encrypted,
    seal_queued_packets keys key.1 (se_device_id env) key.2 carried.1.1.1.1 = Ok (next, encrypted)
    ∧ effects = SessionEstablished key (psk_session_id keys)
        :: match response with Some r => [Transmit (inbound_transport i) (in_remote i) r] | None => [] end
        ++ (map (send_to_inbound_path env i) encrypted).*1
    ∧ st_peers w' = st_peers w
    ∧ ∃ e, st_sessions w' !! key = Some (Established e) ∧ es_keys e = keys
        ∧ es_peer_public_key e = pk ∧ es_replay_window e = ReplayWindow_default.
Proof.
  unfold establish. destruct carried as [[[[queued dropped] attempts] retries] rejected].
  intros He. inv_ok. destruct x as [next encrypted]. injection He as <- <-.
  exists next, encrypted. split_and!; [done|done| |].
  - by rewrite update_session_peers.
  - eexists. rewrite update_session_lookup. cbn. by rewrite lookup_insert_eq.
Qed.
Lemma establish_effects env i w key keys pk response carried w' effects effect :
  establish env i w key keys pk response carried = Ok (w', effects) → effect ∈ effects →
  effect = SessionEstablished key (psk_session_id keys) ∨ is_transmit effect.
Proof.
  intros (next & encrypted & _ & -> & _)%establish_spec.
  intros [->|[He|He]%elem_of_app]%elem_of_cons; [by left|right..].
  - destruct response; [by apply list_elem_of_singleton in He as ->|by apply elem_of_nil in He].
  - pose proof (inbound_transmits env i encrypted) as Hf. rewrite Forall_forall in Hf. by apply Hf.
Qed.

(** Closes a branch of a handler that has no effect. *)
Ltac no_effect :=
  match goal with
  | Hr : Ok _ = Ok (_, ?effects), He : _ ∈ ?effects |- _ =>
      injection Hr as <- <-; by apply elem_of_nil in He
  end.

(** What an accepted initiation has passed. *)
Lemma receive_session_init_established env i w packet w' effects effect :
  receive_session_init env i w packet = Ok (w', effects) → effect ∈ effects →
  is_transmit effect ∨ ∃ n source network route nk sid keys response,
    parse_session_routing_header packet RELAY_SESSION_INIT = Ok (n, source, se_device_id env)
    ∧ source ≠ se_device_id env
    ∧ find_network (se_networks env) n = Some network
    ∧ local_network_is_authorized network (se_unix env) = true
    ∧ st_peers w !! (n, source) = Some route ∧ len (route_device_public_key route) = 32
    ∧ session_handshake_id packet RELAY_SESSION_INIT = Ok sid
    ∧ NetworkKey_from_slice (jn_network_key network) = Ok nk
    ∧ accept_pairwise_handshake (se_random_secret env) packet (route_device_public_key route)
        (se_identity env) nk (se_unix env) HANDSHAKE_CLOCK_SKEW_SECONDS = Ok (keys, response)
    ∧ (record_session_handshake (st_seen w) (n, source) sid (se_instant env)).2 = true
    ∧ (is_pending (st_sessions w !! (n, source)) = true → device_lt (se_device_id env) source = false)
    ∧ effect = SessionEstablished (n, source) (psk_session_id keys)
    ∧ ∃ e, st_sessions w' !! (n, source) = Some (Established e) ∧ es_keys e = keys
        ∧ es_peer_public_key e = route_device_public_key route.
Proof.
  intros Hr He. unfold receive_session_init in Hr.
  destruct (parse_session_routing_header _ _) as [[[n source] destination]|] eqn:Hparse; [|no_effect].
  destruct (_ || _) eqn:Hids; [no_effect|].
  destruct (find_network _ _) as [network|] eqn:Hnet; [|no_effect].
  destruct (negb (local_network_is_authorized _ _)) eqn:Hauth; [no_effect|].
  destruct (_ <$> _) as [pk|] eqn:Hroute; [|no_effect]. apply fmap_Some in Hroute as (route & Hroute & ->).
  destruct (negb (len _ =? 32)) eqn:Hlen; [no_effect|].
  destruct (session_handshake_id _ _) as [sid|] eqn:Hsid; [|no_effect].
  destruct (cached_response_for _ _) as [response|].
  { left. injection Hr as <- <-. by apply list_elem_of_singleton in He as ->. }
  destruct (_ && _) eqn:Htie; [no_effect|]. unfold accept_session_init in Hr.
  destruct (NetworkKey_from_slice _) as [nk|] eqn:Hnk; [|no_effect].
  destruct (accept_pairwise_handshake _ _ _ _ _ _ _) as [[keys response]|] eqn:Ha; [|no_effect].
  destruct (record_session_handshake _ _ _ _) as [seen fresh] eqn:Hrec.
  destruct fresh; cbn [negb] in Hr; [|no_effect].
  destruct (establish_effects _ _ _ _ _ _ _ _ _ _ _ Hr He) as [->|?]; [right|by left].
  apply establish_spec in Hr as (next & encrypted & _ & _ & _ & e & He1 & He2 & He3 & _).
  inv_ok. stable_eqs. subst destination.
  exists n, source, network, route, nk, sid, keys, response. rewrite Hrec.
  apply andb_false_iff in Htie. split_and!; eauto. intros Hp. destruct Htie; congruence.
Qed.
Lemma receive_session_response_established env i w packet w' effects effect :
  receive_session_response env i w packet = Ok (w', effects) → effect ∈ effects →
  is_transmit effect ∨ ∃ n source network route nk q keys,
    parse_session_routing_header packet RELAY_SESSION_RESPONSE = Ok (n, source, se_device_id env)
    ∧ source ≠ se_device_id env
    ∧ find_network (se_networks env) n = Some network
    ∧ local_network_is_authorized network (se_unix env) = true
    ∧ st_peers w !! (n, source) = Some route
    ∧ NetworkKey_from_slice (jn_network_key network) = Ok nk
    ∧ st_sessions w !! (n, source) = Some (Pending q)
    ∧ pd_peer_public_key q = route_device_public_key route
    ∧ complete (pd_handshake q) packet (route_device_public_key route) nk (se_unix env)
        HANDSHAKE_CLOCK_SKEW_SECONDS = Ok keys
    ∧ effect = SessionEstablished (n, source) (psk_session_id keys)
    ∧ ∃ e, st_sessions w' !! (n, source) = Some (Established e) ∧ es_keys e = keys
        ∧ es_peer_public_key e = route_device_public_key route.
Proof.
  intros Hr He. unfold receive_session_response in Hr.
  destruct (parse_session_routing_header _ _) as [[[n source] destination]|] eqn:Hparse; [|no_effect].
  destruct (_ || _) eqn:Hids; [no_effect|].
  destruct (st_peers w !! _) as [route|] eqn:Hroute; [|no_effect].
  destruct (find_network _ _) as [network|] eqn:Hnet; [|no_effect].
  destruct (negb (local_network_is_authorized _ _)) eqn:Hauth; [no_effect|].
  destruct (NetworkKey_from_slice _) as [nk|] eqn:Hnk; [|no_effect].
  destruct (st_sessions w !! _) as [[q|]|] eqn:Hk; [|no_effect..].
  destruct (bool_decide (pd_peer_public_key q ≠ _)) eqn:Hpk; [no_effect|].
  destruct (complete _ _ _ _ _ _) as [keys|] eqn:Hc; [|no_effect].
  destruct (establish_effects _ _ _ _ _ _ _ _ _ _ _ Hr He) as [->|?]; [right|by left].
  apply establish_spec in Hr as (next & encrypted & _ & _ & _ & e & He1 & He2 & He3 & _).
  inv_ok. stable_eqs. subst destination.
  exists n, source, network, route, nk, q, keys. split_and!; eauto.
Qed.
Lemma receive_session_data_injected env i w packet w' effects effect :
  receive_session_data env i w packet = Ok (w', effects) → effect ∈ effects →
  ∃ n source network route e opened window,
    parse_session_routing_header packet RELAY_SESSION_DATA = Ok (n, source, se_device_id env)
    ∧ source ≠ se_device_id env
    ∧ st_sessions w !! (n, source) = Some (Established e)
    ∧ session_open (es_keys e) (es_replay_window e) packet = Ok (opened, window)
    ∧ spk_network_id opened = n ∧ spk_source opened = source
    ∧ find_network (se_networks env) n = Some network
    ∧ local_network_is_authorized network (se_unix env) = true
    ∧ st_peers w !! (n, source) = Some route
    ∧ packet_is_authorized_for_delivery network source route (se_device_id env) (se_device_id env)
        (spk_plaintext opened) (se_unix env) = true
    ∧ effect = Inject (spk_plaintext opened)
    ∧ ∃ e', st_sessions w' !! (n, source) = Some (Established e') ∧ es_keys e' = es_keys e
        ∧ es_replay_window e' = window.
Proof.
  intros Hr He. unfold receive_session_data in Hr.
  destruct (parse_session_routing_header _ _) as [[[n source] destination]|] eqn:Hparse; [|no_effect].
  destruct (_ || _) eqn:Hids; [no_effect|].
  destruct (st_sessions w !! _) as [[|e]|] eqn:Hk; [no_effect| |no_effect].
  destruct (session_open _ _ _) as [[opened window]|] eqn:Ho; [|no_effect].
  pose proof (deliver_opened_effects _ _ _ _ _ _ _ _ _ Hr) as [Hsess _].
  unfold deliver_opened in Hr. destruct (bool_decide _ || bool_decide _ || bool_decide _) eqn:Hop; [no_effect|].
  destruct (find_network _ _) as [network|] eqn:Hnet; [|no_effect].
  destruct (negb (local_network_is_authorized _ _)) eqn:Hauth; [no_effect|].
  rewrite update_session_peers in Hr.
  destruct (st_peers w !! _) as [route|] eqn:Hroute; [|no_effect].
  destruct (negb (packet_is_authorized_for_delivery _ _ _ _ _ _ _)) eqn:Hd; [no_effect|].
  destruct (se_adapter env) as [write|]; [|no_effect]. destruct (write _); [|done].
  injection Hr as <- <-. apply list_elem_of_singleton in He as ->. inv_ok. stable_eqs. subst destination.
  exists n, source, network, route, e, opened, window. split_and!; eauto.
  rewrite Hsess, update_session_lookup, Hk. cbn. eauto.
Qed.

(** The inputs that can do more than transmit. *)
Lemma session_step_effect env input w w' effects effect :
  session_step env input w = Ok (w', effects) → effect ∈ effects → ¬ is_transmit effect →
  (∃ i packet, input = DataFrame i packet ∧ receive_session_data env i w packet = Ok (w', effects))
  ∨ (∃ i packet, input = InitFrame i packet ∧ receive_session_init env i w packet = Ok (w', effects))
  ∨ (∃ i packet, input = ResponseFrame i packet
       ∧ receive_session_response env i w packet = Ok (w', effects)).
Proof.
  intros Hs He Hn. destruct input; cbn [session_step] in Hs; try no_effect; try by naive_solver.
  - apply outbound_transmits in Hs. rewrite Forall_forall in Hs. by destruct (Hn (Hs _ He)).
  - apply Ok_inj, retry_transmits in Hs. rewrite Forall_forall in Hs. by destruct (Hn (Hs _ He)).
  - apply Ok_inj in Hs. pose proof (probe_transmits env w) as Hp. rewrite Hs, Forall_forall in Hp.
    by destruct (Hn (Hp _ He)).
Qed.

Lemma record_handshake_fresh seen key id now t :
  (record_session_handshake seen key id now).2 = true → seen !! (key, id) = Some t →
  secs 300 < duration_since now t.
Proof.
  unfold record_session_handshake. intros Hr Ht.
  destruct (is_some (retain _ seen !! (key, id))) eqn:Hk; [done|].
  apply is_some_false in Hk. apply Z.lt_nge. intros Hle.
  enough (retain (λ _ recorded, duration_since now recorded <=? HANDSHAKE_REPLAY_TTL) seen
    !! (key, id) = Some t) by congruence.
  apply lookup_retain. split; [done|]. by apply Z.leb_le.
Qed.

(** C4: what reaches the virtual adapter is authentic and authorised, and arrives
    once.  The agent writes a packet to the adapter only on a session frame
    addressed to this device, which the established session with its sender opens
    under its receiving key and replay window to exactly that packet; the sender
    is in the directory of a network this device is currently authorised for,
    and the delivery rules allow the packet from this sender; afterwards the
    session refuses the frame as a replay. *)
Theorem injected_authentic env input w w' effects plaintext :
  session_step env input w = Ok (w', effects) → Inject plaintext ∈ effects →
  ∃ i packet n source network route e opened,
    input = DataFrame i packet
    ∧ parse_session_routing_header packet RELAY_SESSION_DATA = Ok (n, source, se_device_id env)
    ∧ source ≠ se_device_id env
    ∧ st_sessions w !! (n, source) = Some (Established e)
    ∧ is_ok (session_open (es_keys e) (es_replay_window e) packet) = true
    ∧ fst <$> session_open (es_keys e) (es_replay_window e) packet = Ok opened
    ∧ spk_network_id opened = n ∧ spk_source opened = source ∧ spk_plaintext opened = plaintext
    ∧ find_network (se_networks env) n = Some network
    ∧ local_network_is_authorized network (se_unix env) = true
    ∧ st_peers w !! (n, source) = Some route
    ∧ packet_is_authorized_for_delivery network source route (se_device_id env)
        (se_device_id env) plaintext (se_unix env) = true
    ∧ ∃ e', st_sessions w' !! (n, source) = Some (Established e') ∧ es_keys e' = es_keys e
        ∧ session_open (es_keys e') (es_replay_window e') packet = Err SessionReplayDetected.
Proof.
  intros Hs He. destruct (session_step_effect _ _ _ _ _ _ Hs He) as [(i & packet & -> & Hr)|
    [(i & packet & -> & Hr)|(i & packet & -> & Hr)]]; [by intros []|..].
  - destruct (receive_session_data_injected _ _ _ _ _ _ _ Hr He)
      as (n & source & network & route & e & opened & window & Hparse & Hsrc & Hk & Ho & Hn & Hso
          & Hnet & Hauth & Hroute & Hd & [= ->] & e' & Hk' & Hkeys & Hw).
    exists i, packet, n, source, network, route, e, opened. rewrite Ho.
    split_and!; try done. exists e'. rewrite Hkeys, Hw. split_and!; try done.
    by eapply session_open_refused.
  - by destruct (receive_session_init_established _ _ _ _ _ _ _ Hr He) as [[]|Hx]; decompose [ex and] Hx.
  - by destruct (receive_session_response_established _ _ _ _ _ _ _ Hr He) as [[]|Hx]; decompose [ex and] Hx.
Qed.

(** C5: who gets a session.  A session with a peer enters the table only when
    this device is authorised for the network at that moment and the directory
    holds the peer's identity key; then either the peer's initiation was accepted
    under that key (its signature, clock and addressing checked), is not one seen
    in the last 300 seconds, and does not compete with a handshake of this device
    that takes precedence, or the response completes the pending handshake started
    with the same key; and the session stored has the keys of that handshake and
    is bound to the identity key. *)
Theorem session_established_authentic env input w w' effects key sid :
  session_step env input w = Ok (w', effects) → SessionEstablished key sid ∈ effects →
  ∃ network route nk keys,
    find_network (se_networks env) key.1 = Some network
    ∧ local_network_is_authorized network (se_unix env) = true
    ∧ st_peers w !! key = Some route ∧ key.2 ≠ se_device_id env
    ∧ NetworkKey_from_slice (jn_network_key network) = Ok nk
    ∧ ((∃ i packet id response, input = InitFrame i packet
          ∧ len (route_device_public_key route) = 32
          ∧ accept_pairwise_handshake (se_random_secret env) packet
              (route_device_public_key route) (se_identity env) nk (se_unix env) 120
            = Ok (keys, response)
          ∧ session_handshake_id packet RELAY_SESSION_INIT = Ok id
          ∧ (∀ t, st_seen w !! (key, id) = Some t → secs 300 < duration_since (se_instant env) t)
          ∧ (is_pending (st_sessions w !! key) = true → device_lt (se_device_id env) key.2 = false))
       ∨ (∃ i packet q, input = ResponseFrame i packet
          ∧ st_sessions w !! key = Some (Pending q)
          ∧ pd_peer_public_key q = route_device_public_key route
          ∧ complete (pd_handshake q) packet (route_device_public_key route) nk (se_unix env) 120
            = Ok keys))
    ∧ sid = psk_session_id keys
    ∧ ∃ e, st_sessions w' !! key = Some (Established e) ∧ es_keys e = keys
        ∧ es_peer_public_key e = route_device_public_key route.
Proof.
  intros Hs He. destruct (session_step_effect _ _ _ _ _ _ Hs He) as [(i & packet & -> & Hr)|
    [(i & packet & -> & Hr)|(i & packet & -> & Hr)]]; [by intros []|..].
  - pose proof (receive_session_data_injected _ _ _ _ _ _ _ Hr He) as Hx. by decompose [ex and] Hx.
  - destruct (receive_session_init_established _ _ _ _ _ _ _ Hr He)
      as [[]|(n & source & network & route & nk & id & keys & response & _ & Hsrc & Hnet & Hauth
          & Hroute & Hlen & Hid & Hnk & Ha & Hrec & Htie & [= -> ->] & Hw')].
    exists network, route, nk, keys. split_and!; try done. left.
    exists i, packet, id, response. split_and!; try done.
    intros t Ht. by eapply record_handshake_fresh.
  - destruct (receive_session_response_established _ _ _ _ _ _ _ Hr He)
      as [[]|(n & source & network & route & nk & q & keys & _ & Hsrc & Hnet & Hauth & Hroute
          & Hnk & Hk & Hpk & Hc & [= -> ->] & Hw')].
    exists network, route, nk, keys. split_and!; try done. right. by exists i, packet, q.
Qed.
End safety.

(** ** Two agents *)
Section progress.
Context `{UuidLaws} `{Ed25519Laws} `{SessionCryptoLaws} `{!SessionSerde} `{!SessionSerdeLaws}.
Context `{IpNetLib} `{HashOrder} `{!MembershipSerde} `{!AuthorizationSerde}.
Implicit Types (w : SessionTables) (a b : DeviceId) (packet plaintext : bytes).

(** The agent of a device that is authorised for a network at that moment. *)
Record party (env : SessionEnv) (device : DeviceId) (identity : SigningKey) (n : NetworkId)
    (network : JoinedNetwork) : Prop := {
  pt_device : se_device_id env = device;
  pt_identity : se_identity env = identity;
  pt_network : find_network (se_networks env) n = Some network;
  pt_authorized : local_network_is_authorized network (se_unix env) = true;
}.
Lemma find_network_id networks n network : find_network networks n = Some network → jn_id network = n.
Proof. intros Hf%List.find_some. by destruct Hf as [_ ?%bool_decide_eq_true]. Qed.

Lemma start_total id sb n i r key t :
  ∃ h packet, start (Some id) (Some sb) n i r key t = Ok (h, packet).
Proof.
  unfold start, sign_payload, signature_message, encode_routed_json. cbn [ok_or]. rewrite !bind_ret.
  match goal with |- context [to_vec ?v] => destruct (to_vec_total v) as [e He] end. pass_call He.
  match goal with |- context [to_vec ?v] => destruct (to_vec_total v) as [e' He'] end. pass_call He'.
  eauto.
Qed.
Lemma record_handshake_new seen key id now :
  seen !! (key, id) = None → (record_session_handshake seen key id now).2 = true.
Proof.
  intros Hs. unfold record_session_handshake.
  destruct (retain _ seen !! (key, id)) as [t|] eqn:Hk; [|done].
  apply lookup_retain in Hk as [Hk _]. congruence.
Qed.

(** The responder answers an acceptable initiation. *)
Lemma init_answered env i w n a b identity network nk route id packet keys response :
  party env b identity n network → a ≠ b →
  NetworkKey_from_slice (jn_network_key network) = Ok nk →
  st_peers w !! (n, a) = Some route → len (route_device_public_key route) = 32 →
  st_sessions w !! (n, a) = None → st_seen w !! ((n, a), id) = None →
  parse_session_routing_header packet RELAY_SESSION_INIT = Ok (n, a, b) →
  session_handshake_id packet RELAY_SESSION_INIT = Ok id →
  accept_pairwise_handshake (se_random_secret env) packet (route_device_public_key route)
    identity nk (se_unix env) HANDSHAKE_CLOCK_SKEW_SECONDS = Ok (keys, response) →
  ∃ w' effects e, receive_session_init env i w packet = Ok (w', effects)
    ∧ Transmit (inbound_transport i) (in_remote i) response ∈ effects
    ∧ st_peers w' = st_peers w
    ∧ st_sessions w' !! (n, a) = Some (Established e)
    ∧ es_keys e = keys ∧ es_replay_window e = ReplayWindow_default.
Proof.
  intros [Hdev Hid Hnet Hauth] Hab Hnk Hroute Hlen Hsess Hseen Hparse Hsid Ha.
  unfold receive_session_init. rewrite Hparse, Hdev.
  rewrite (bool_decide_eq_false_2 (b ≠ b)), (bool_decide_eq_false_2 (a = b)) by naive_solver.
  cbn [orb]. rewrite Hnet, Hauth. cbn [negb]. rewrite Hroute. cbn [fmap option_fmap option_map].
  rewrite Hlen, Z.eqb_refl. cbn [negb]. rewrite Hsid, Hsess. cbn [cached_response_for is_pending andb].
  unfold accept_session_init. rewrite Hnk, Hid, Ha.
  destruct (record_session_handshake _ _ _ _) as [seen fresh] eqn:Hr.
  pose proof (record_handshake_new (st_seen w) (n, a) id (se_instant env) Hseen) as Hf.
  rewrite Hr in Hf. cbn in Hf. subst fresh. cbn [negb]. rewrite Hsess. cbn [inherited].
  destruct (establish env i (with_seen w seen) (n, a) keys (route_device_public_key route)
    (Some response) ([], 0, 1, 0, 0)) as [[w' effects]|] eqn:He; [|done].
  exists w', effects. apply establish_spec in He as (next & enc & _ & -> & Hp & e & ? & ? & _ & ?).
  exists e. split_and!; try done. right. by left.
Qed.

(** The initiator completes the handshake and sends what was waiting. *)
Lemma response_completed env i w n a b identity network nk route q packet keys plaintext data :
  party env a identity n network → a ≠ b →
  NetworkKey_from_slice (jn_network_key network) = Ok nk →
  st_peers w !! (n, b) = Some route → st_sessions w !! (n, b) = Some (Pending q) →
  pd_peer_public_key q = route_device_public_key route → pd_queued_packets q = [plaintext] →
  parse_session_routing_header packet RELAY_SESSION_RESPONSE = Ok (n, b, a) →
  complete (pd_handshake q) packet (route_device_public_key route) nk (se_unix env)
    HANDSHAKE_CLOCK_SKEW_SECONDS = Ok keys →
  seal keys n a b 0 plaintext = Ok data →
  ∃ w' effects, receive_session_response env i w packet = Ok (w', effects)
    ∧ Transmit (inbound_transport i) (in_remote i) data ∈ effects.
Proof.
  intros [Hdev _ Hnet Hauth] Hab Hnk Hroute Hsess Hpk Hq Hparse Hc Hseal.
  unfold receive_session_response. rewrite Hparse, Hdev.
  rewrite (bool_decide_eq_false_2 (a ≠ a)), (bool_decide_eq_false_2 (b = a)) by naive_solver.
  cbn [orb]. rewrite Hroute, Hnet, Hauth. cbn [negb]. rewrite Hnk, Hsess, Hpk.
  rewrite bool_decide_eq_false_2 by naive_solver. rewrite Hc.
  destruct (establish _ _ _ _ _ _ _ _) as [[w' effects]|] eqn:He.
  - exists w', effects. split; [done|].
    apply establish_spec in He as (next & enc & Hs & -> & _). cbn in Hs.
    rewrite Hdev, Hq in Hs. unfold seal_queued_packets in Hs. cbn [seal_queued_from] in Hs.
    rewrite Hseal in Hs. injection Hs as _ <-. right. by left.
  - unfold establish in He. cbn [inherited] in He. rewrite Hdev, Hq in He.
    unfold seal_queued_packets in He. cbn [seal_queued_from fst snd] in He. by rewrite Hseal in He.
Qed.
(** The receiver opens a packet sealed for it and delivers it. *)
Lemma data_delivered env i w n a b identity network route e opened window data write :
  party env b identity n network → a ≠ b →
  parse_session_routing_header data RELAY_SESSION_DATA = Ok (n, a, b) →
  st_sessions w !! (n, a) = Some (Established e) → st_peers w !! (n, a) = Some route →
  session_open (es_keys e) (es_replay_window e) data = Ok (opened, window) →
  spk_network_id opened = n → spk_source opened = a → spk_destination opened = b →
  packet_is_authorized_for_delivery network a route b b (spk_plaintext opened) (se_unix env) = true →
  se_adapter env = Some write → write (spk_plaintext opened) = true →
  ∃ w', receive_session_data env i w data = Ok (w', [Inject (spk_plaintext opened)]).
Proof.
  intros [Hdev _ Hnet Hauth] Hab Hparse Hsess Hroute Ho Hn Hs Hd Hdeliver Hadapter Hwrite.
  unfold receive_session_data. rewrite Hparse, Hdev.
  rewrite (bool_decide_eq_false_2 (b ≠ b)), (bool_decide_eq_false_2 (a = b)) by naive_solver.
  cbn [orb]. rewrite Hsess, Ho. unfold deliver_opened. rewrite Hn, Hs, Hd.
  rewrite !bool_decide_eq_false_2 by naive_solver. cbn [orb].
  rewrite Hnet, Hauth, update_session_peers, Hroute. cbn [negb]. rewrite Hdev, Hdeliver. cbn [negb].
  rewrite Hadapter, Hwrite. eauto.
Qed.

Lemma seal_total k n s d sequence plaintext :
  (∀ key nonce aad m, is_Some (aead_encrypt key nonce aad m)) →
  ∃ x, seal k n s d sequence plaintext = Ok x.
Proof.
  intros Ht. unfold seal. edestruct Ht as [c Hc]. rewrite Hc. cbn. eauto.
Qed.
Lemma seal_parsed k n s d sequence plaintext x :
  seal k n s d sequence plaintext = Ok x →
  parse_session_routing_header x RELAY_SESSION_DATA = Ok (n, s, d).
Proof.
  intros (c & _ & ->)%seal_Ok. unfold session_data_header. rewrite <-!app_assoc.
  apply parse_header_routed.
Qed.
(** The response of an accepted initiation, and the session it opens. *)
Lemma accepted_response rid rs n i r key t h packet rs' rk nk now skew keys packet' :
  start rid rs n i r key t = Ok (h, packet) →
  accept_pairwise_handshake rs' packet (public_bytes key) rk nk now skew = Ok (keys, packet') →
  parse_session_routing_header packet' RELAY_SESSION_RESPONSE = Ok (n, r, i)
  ∧ psk_session_id keys = si_session_id (init_payload (ih_init h)).
Proof.
  intros (id & sb & _ & _ & Hsec & Hi & _ & Hh & Hp)%start_Ok.
  intros (init & sb' & sig & Hj & _ & _ & _ & _ & _ & Hd & _ & He)%accept_Ok.
  apply parse_routed_json_Ok in Hp as [_ Hp]. assert (init = ih_init h) as -> by congruence.
  rewrite Hi in *. apply parse_encode_routed in He as [He _].
  by apply derive_session_keys_Ok in Hd as (_ & ? & ? & _ & _ & _ & ->).
Qed.

(** C6: two members can talk.  Assumed: both are authorised in a network, have the same
    network key and hold each other's public key in their directories; neither has a
    session or a pending handshake with the other (with one pending on both sides, one of
    the two initiations is ignored); the handshake identifier that the first device draws
    is not in the peer's replay cache; drawing, key derivation and encryption work, and
    the shared secret is not zero; the clocks are within 120 seconds; and the packet
    passes the peer's delivery check, the peer's adapter is active and takes it.  Then the
    device, asked to send the packet, starts a handshake and keeps the packet; the peer
    answers the initiation; on the answer the device sends the kept packet; and on that
    the peer writes exactly this packet to its adapter, with no other effect. *)
Theorem first_packet_delivered a b ska skb n neta netb nk id s1 s2 ea1 ea2 eb1 eb2 ia ib ib2
    wa wb ra rb write plaintext :
  a ≠ b →
  party ea1 a ska n neta → party ea2 a ska n neta →
  party eb1 b skb n netb → party eb2 b skb n netb →
  NetworkKey_from_slice (jn_network_key neta) = Ok nk →
  NetworkKey_from_slice (jn_network_key netb) = Ok nk →
  st_sessions wa !! (n, b) = None → st_peers wa !! (n, b) = Some ra →
  route_device_public_key ra = public_bytes skb →
  st_sessions wb !! (n, a) = None → st_peers wb !! (n, a) = Some rb →
  route_device_public_key rb = public_bytes ska →
  st_seen wb !! ((n, a), id) = None → length id = 16%nat →
  se_random_id ea1 = Some id → se_random_secret ea1 = Some s1 → se_random_secret eb1 = Some s2 →
  diffie_hellman (secret_from s2) (dh_public (secret_from s1)) ≠ replicate 32 0 →
  (∀ salt ikm info, is_Some (hkdf64 salt ikm info)) →
  (∀ key nonce aad m, is_Some (aead_encrypt key nonce aad m)) →
  abs_diff (se_unix eb1) (se_unix ea1) ≤ 120 → abs_diff (se_unix ea2) (se_unix eb1) ≤ 120 →
  packet_is_authorized_for_delivery netb a rb b b plaintext (se_unix eb2) = true →
  se_adapter eb2 = Some write → write plaintext = true →
  ∃ sessions init wb1 eff1 response wa2 eff2 data wb2,
    prepare_outbound_peer_packet ea1 (st_sessions wa) neta b (public_bytes skb) plaintext
      = Ok (sessions, Some (Handshake init))
    ∧ session_step eb1 (InitFrame ib init) wb = Ok (wb1, eff1)
    ∧ Transmit (inbound_transport ib) (in_remote ib) response ∈ eff1
    ∧ session_step ea2 (ResponseFrame ia response)
        (mkSessionTables (st_peers wa) sessions (st_seen wa) (st_observed wa)) = Ok (wa2, eff2)
    ∧ Transmit (inbound_transport ia) (in_remote ia) data ∈ eff2
    ∧ session_step eb2 (DataFrame ib2 data) wb1 = Ok (wb2, [Inject plaintext]).
Proof.
  intros Hab Ha1 Ha2 Hb1 Hb2 Hnka Hnkb Hsa Hpa Hka Hsb Hpb Hkb Hseen Hid Hrid Hrs1 Hrs2 Hz Hh Ht
    Hclock1 Hclock2 Hdel Hwr Hwrite.
  destruct (start_total id s1 n a b ska (se_unix ea1)) as (h & init & Hstart).
  pose proof (start_Ok _ _ _ _ _ _ _ _ _ Hstart)
    as (? & ? & [= <-] & [= <-] & Hsec & Hinit & _ & Hparse & _).
  assert (is_ok (accept_pairwise_handshake (Some s2) init (public_bytes ska) skb nk (se_unix eb1) 120)
    = true) as [[keys response] Hacc]%is_ok_true.
  { eapply accept_started; [exact Hstart|done|done|by rewrite Hsec|by intros]. }
  pose proof (complete_accepted _ _ _ _ _ _ _ _ _ _ _ _ _ _ _ _ _ _ Hstart Hacc Hclock2) as Hcomp.
  destruct (accepted_response _ _ _ _ _ _ _ _ _ _ _ _ _ _ _ _ Hstart Hacc) as [Hresp Hsid].
  rewrite Hinit in Hsid. cbn in Hsid.
  set (ki := mkPairwiseSessionKeys _ _ _) in Hcomp.
  destruct (seal_total ki n a b 0 plaintext Ht) as [data Hdata].
  destruct (init_answered eb1 ib wb n a b skb netb nk rb id init keys response)
    as (wb1 & eff1 & e & Hstep1 & Htx1 & Hpeers1 & He1 & Hek & Hew); try done.
  { unfold len. by rewrite Hkb, public_bytes_length. }
  { rewrite (started_id _ _ _ _ _ _ _ _ _ Hstart), Hinit. done. }
  { by rewrite Hrs2, Hkb. }
  set (q := mkPendingSession h init (public_bytes skb) (se_instant ea1) (se_instant ea1) [plaintext]
    SessionPath.Unknown 0 1 0 0).
  set (sessions := <[(n, b) := Pending q]> (st_sessions wa)).
  destruct (response_completed ea2 ia (mkSessionTables (st_peers wa) sessions (st_seen wa) (st_observed wa))
    n a b ska neta nk ra q response ki plaintext data) as (wa2 & eff2 & Hstep2 & Htx2); try done.
  { cbn. subst sessions. by rewrite lookup_insert_eq. }
  { by rewrite Hka. }
  pose proof (open_sealed ki keys (es_replay_window e) n a b 0 plaintext data Hdata) as Hopen.
  destruct (data_delivered eb2 ib2 wb1 n a b skb netb rb e
    (mkSessionPacket n a b (psk_session_id ki) 0 plaintext) (mark (es_replay_window e) 0) data write)
    as [wb2 Hstep3]; try done.
  { by eapply seal_parsed. }
  { by rewrite Hpeers1. }
  { rewrite Hek. apply Hopen; cbn; [by rewrite Hsid|lia|done|done|by rewrite Hew]. }
  exists sessions, init, wb1, eff1, response, wa2, eff2, data, wb2. split_and!; try done.
  unfold prepare_outbound_peer_packet. unfold len. rewrite public_bytes_length. cbn [negb Z.eqb].
  destruct Ha1 as [Hd1 Hi1 Hn1 _]. rewrite (find_network_id _ _ _ Hn1), Hsa. cbn.
  by rewrite Hsa, Hrid, Hrs1, Hd1, Hi1, Hstart.
Qed.
End progress.

(** ** Witnesses *)
Lemma run_sample_Ok env input w :
  is_ok (session_step env input w) = true →
  session_step env input w = Ok ((run_sample env input w).1, (run_sample env input w).2).
Proof. apply unwrap_pair. Qed.

Lemma injected_authentic_witness :
  Inject packet_from_bob ∈ alice_delivering.2
  ∧ ∃ packet n source, parse_session_routing_header packet RELAY_SESSION_DATA
      = Ok (n, source, alice).
Proof.
  split; [vm_decide|].
  destruct (injected_authentic (alice_env 153)
    (DataFrame sample_inbound (last_transmitted bob_completing.2)) alice_accepting.1
    alice_delivering.1 alice_delivering.2 packet_from_bob)
    as (i & packet & n & source & network & route & e & opened & _ & Hp & _).
  - apply run_sample_Ok. vm_decide.
  - vm_decide.
  - exists packet, n, source. exact Hp.
Defined.
Lemma session_established_authentic_witness :
  SessionEstablished (net_a, bob) (replicate 16 5) ∈ alice_accepting.2
  ∧ ∃ e, st_sessions alice_accepting.1 !! (net_a, bob) = Some (Established e).
Proof.
  split; [vm_decide|].
  destruct (session_established_authentic (alice_env 151)
    (InitFrame sample_inbound (last_transmitted bob_sending.2)) alice_tables
    alice_accepting.1 alice_accepting.2 (net_a, bob) (replicate 16 5))
    as (network & route & nk & keys & _ & _ & _ & _ & _ & _ & _ & e & He & _).
  - apply run_sample_Ok. vm_decide.
  - vm_decide.
  - exists e. exact He.
Defined.
Lemma sample_party device network identity now :
  bool_decide (jn_id network = net_a) = true → local_network_is_authorized network now = true →
  party (sample_env device network identity now) device identity net_a network.
Proof.
  intros Hn Ha. split; [done|done| |done]. unfold find_network. cbn [se_networks sample_env List.find].
  by rewrite Hn.
Qed.
Lemma first_packet_delivered_witness :
  ∃ data w w', session_step (alice_env 153) (DataFrame sample_inbound data) w
    = Ok (w', [Inject packet_from_bob]).
Proof.
  destruct (first_packet_delivered bob alice bob_key alice_key net_a bob_network alice_network
    net_key (replicate 16 5) (replicate 32 (6 + 150 mod 7)) (replicate 32 (6 + 151 mod 7))
    (bob_env 150) (bob_env 152) (alice_env 151) (alice_env 153) sample_inbound sample_inbound
    sample_inbound bob_tables alice_tables alice_peer_route bob_route (λ _, true) packet_from_bob)
    as (sessions & init & wb1 & eff1 & response & wa2 & eff2 & data & wb2 & _ & _ & _ & _ & _ & Hd).
  all: try (apply sample_party; [vm_decide|vm_compute; reflexivity]).
  all: try reflexivity.
  all: try (intros; apply hkdf64_concrete_total).
  - vm_decide.
  - vm_decide.
  - intros. eexists. reflexivity.
  - vm_decide.
  - vm_decide.
  - exists data, wb1, wb2. exact Hd.
Defined.
Lemma session_sequences_unique_witness :
  ∃ s, st_sessions bob_completing.1 !! (net_a, alice) = Some s
    ∧ match s with
      | Pending q => len (pd_queued_packets q) ≤ 8
      | Established e => 0 ≤ es_next_sequence e ≤ u64_max
      end.
Proof.
  destruct (st_sessions bob_completing.1 !! (net_a, alice)) as [s|] eqn:Hs.
  - exists s. split; [reflexivity|].
    assert (∃ log, session_run bob (net_a, alice) bob_completing.1 log) as [log Hrun].
    { pose proof (run_step bob (net_a, alice) _ _ (bob_env 150)
        (ChangeDirectory {[ (net_a, alice) := alice_peer_route ]}) bob_tables []
        (run_start bob (net_a, alice) (obs_reset 1)) eq_refl eq_refl) as R1.
      assert (is_ok (session_step (bob_env 150) (OutboundPacket sample_relays
        EndpointHealthTable_default packet_from_bob) bob_tables) = true) as Hok1 by vm_decide.
      pose proof (run_step _ _ _ _ (bob_env 150) _ _ _ R1 eq_refl (run_sample_Ok _ _ _ Hok1)) as R2.
      assert (is_ok (session_step (bob_env 152) (ResponseFrame sample_inbound
        (last_transmitted alice_accepting.2)) bob_sending.1) = true) as Hok2 by vm_decide.
      eexists. exact (run_step _ _ _ _ (bob_env 152) _ _ _ R2 eq_refl (run_sample_Ok _ _ _ Hok2)). }
    pose proof (session_sequences_unique bob (net_a, alice) bob_completing.1 log s Hrun Hs) as H.
    destruct s as [q|e]; [exact H|exact (proj1 H)].
  - exfalso. assert (is_some (st_sessions bob_completing.1 !! (net_a, alice)) = true) as Hx by vm_decide.
    rewrite Hs in Hx. discriminate Hx.
Defined.
