(* ===== verification/AgentWorkerFacts.v ===== *)
(** * The agent's worker against the session machine

    Which datagrams are turns of the session machine, what the others may do to the
    tables, and which turns the timer takes. *)
From S2P Require Import Prelude Net Text Ext Model ServiceIdentity Membership Authorization.
From S2P Require Import RelayProto Session RootProto Planet Policy Joined DataPlane.
From S2P Require Import PeerDirectory.
From S2P Require Import Observability TransportHealth Frames AgentSession AgentWorker.
From S2P Require Import DataPlaneFacts.
From S2P Require Import Concrete Samples.
#[local] Open Scope Z_scope.

Section refinement.
Context `{UuidLib} `{Ed25519} `{IpNetLib} `{HashOrder}.
Context `{!MembershipSerde} `{!AuthorizationSerde} `{!SessionSerde} `{!RootSerde} `{!RelaySerde}.
Context `{SessionCrypto} `{!WorkerSerde}.
Implicit Types (w : SessionTables) (k : Worker) (key : PeerKey) (packet : bytes).

(** ** What a datagram is to the worker *)

(** The kind of a frame of peers and relays: a datagram with the magic that is not the
    document of a root. *)
Definition frame_kind packet : option Z :=
  if (len packet <? 5) || bool_decide (take 4 packet ≠ RELAY_MAGIC)
     || is_some (from_slice packet : option SignedRootResponse)
  then None else Some (byte_at 4 packet).
(** The turn of the session machine a datagram stands for. *)
Definition session_frame (env : WorkerEnv) (a : Arrival) packet : option SessionInput :=
  kind ← frame_kind packet;
  if kind =? RELAY_SESSION_INIT then Some (InitFrame (inbound_of env a) packet)
  else if kind =? RELAY_SESSION_RESPONSE then Some (ResponseFrame (inbound_of env a) packet)
  else if kind =? RELAY_SESSION_DATA then Some (DataFrame (inbound_of env a) packet)
  else None.

(** The certificates a datagram presents: that of an identity frame from a configured
    relay, and those of the peers in a response that a pinned root signed for a request
    of this worker. *)
Inductive presents (env : WorkerEnv) k (remote : SocketAddr) packet : MembershipCertificate → Prop :=
| presented_by_relay c :
    frame_kind packet = Some RELAY_PEER_IDENTITY →
    remote ∈ tc_relay_endpoints (we_configuration env) →
    parse_peer_identity packet = Some c → presents env k remote packet c
| presented_by_root response t observed discovered refresh hints peer c :
    from_slice packet = Some response → root_transaction_for env k remote response = Some t →
    srr_response response = Registered observed discovered refresh hints → peer ∈ discovered →
    rpeer_network_id peer = rtx_network_id t → rpeer_certificate peer = Some c →
    presents env k remote packet c.
(** A certificate of another device of a joined network that the agent may rely on. *)
Record certificate_for (env : SessionEnv) key (c : MembershipCertificate) : Prop := {
  cf_key : key = (mc_network_id (cert_claims c), mc_device_id (cert_claims c));
  cf_other : key.2 ≠ se_device_id env;
  cf_length : len (mc_device_public_key (cert_claims c)) = 32;
  cf_accepted : ∃ network, find_network (se_networks env) key.1 = Some network
    ∧ is_ok (cert_verify_from_controller c (pinned_controller_key network) (se_unix env)) = true
    ∧ local_network_is_authorized network (se_unix env) = true
    ∧ peer_certificate_is_authorized network c (se_unix env) = true;
}.

(** What the agent authenticates a peer by: its key and its addresses. *)
Definition identity_of (route : PeerRoute) : bytes * list IpAddr :=
  (route_device_public_key route, route_assigned_addresses route).
Definition identity_at w key : bytes * list IpAddr :=
  default ([], []) (identity_of <$> st_peers w !! key).
Definition certified_identity (c : MembershipCertificate) : bytes * list IpAddr :=
  (mc_device_public_key (cert_claims c),
   dedup (sort_by ip_le (mc_assigned_addresses (cert_claims c)))).

(** The directory follows the certificates in [P], and so do the sessions: one ends
    exactly when the key it was made with is replaced. *)
Record learns (P : MembershipCertificate → Prop) (env : SessionEnv) w w' : Prop := {
  ln_seen : st_seen w' = st_seen w;
  ln_identity key : identity_at w' key = identity_at w key
    ∨ ∃ c, P c ∧ certificate_for env key c ∧ identity_at w' key = certified_identity c;
  ln_session key :
    (st_sessions w' !! key = st_sessions w !! key
     ∧ ((identity_at w key).1 = [] ∨ (identity_at w' key).1 = (identity_at w key).1))
    ∨ (st_sessions w' !! key = None
       ∧ ∃ c, P c ∧ certificate_for env key c
           ∧ mc_device_public_key (cert_claims c) ≠ (identity_at w key).1);
}.
#[local] Instance learns_preorder P env : PreOrder (learns P env).
Proof.
  split.
  - intros w. split; [done|by left|]. intros key. left. split; [done|by right].
  - intros w1 w2 w3 [Hs1 Hi1 Hn1] [Hs2 Hi2 Hn2]. split; [by rewrite Hs2| |].
    + intros key. destruct (Hi2 key) as [->|]; [apply Hi1|by right].
    + intros key. destruct (Hn1 key) as [[E1 K1]|[E1 X1]], (Hn2 key) as [[E2 K2]|[E2 X2]].
      * left. rewrite E2. split; [done|]. destruct K1 as [|K1]; [by left|]. rewrite <-K1.
        destruct K2 as [|K2]; [by left|by right].
      * right. split; [done|]. destruct X2 as (c & Hc & Hf & Hk). exists c. split_and!; [done..|].
        destruct K1 as [K1|K1]; [|by rewrite <-K1]. rewrite K1. intros E.
        pose proof (cf_length _ _ _ Hf) as Hl. rewrite E in Hl. done.
      * right. by rewrite E2.
      * by right.
Qed.
Lemma learns_same P env w w' :
  st_seen w' = st_seen w → st_sessions w' = st_sessions w →
  (∀ key, identity_at w' key = identity_at w key) → learns P env w w'.
Proof.
  intros Hs Hn Hi. split; [done|by left|]. intros key. left. rewrite Hn, Hi. split; [done|by right].
Qed.
Lemma learns_foldl {A B : Type} P env (tables : A → SessionTables) (f : A → B → A) l acc :
  (∀ a b, b ∈ l → learns P env (tables a) (tables (f a b))) →
  learns P env (tables acc) (tables (foldl f acc l)).
Proof.
  intros Hf. apply (foldl_preserves f (λ a, learns P env (tables acc) (tables a))); [done|].
  intros a b Hb Ha. etrans; [exact Ha|by apply Hf].
Qed.

(** *** Updates of an entry *)
Lemma identity_with_candidates r l : identity_of (with_candidates r l) = identity_of r.
Proof. done. Qed.
Lemma identity_add_candidate r c : identity_of (add_candidate r c) = identity_of r.
Proof. unfold add_candidate. by destruct (_ && _). Qed.
Lemma identity_mark_success r e now : identity_of (mark_success r e now).1 = identity_of r.
Proof. unfold mark_success. by destruct (has_endpoint _ _). Qed.
(** An update that leaves the identity of the entry alone. *)
Lemma identity_insert w key route key' :
  identity_of route = identity_at w key →
  identity_at (with_peers w (<[key := route]> (st_peers w))) key' = identity_at w key'.
Proof.
  intros Hi. unfold identity_at at 1. cbn. destruct (decide (key = key')) as [<-|Hne].
  - by rewrite lookup_insert_eq.
  - by rewrite lookup_insert_ne.
Qed.
Lemma learns_insert P env w key route :
  identity_of route = identity_at w key → learns P env w (with_peers w (<[key := route]> (st_peers w))).
Proof. intros Hi. apply learns_same; [done..|]. intros key'. by apply identity_insert. Qed.

(** *** Certificates *)
Lemma update_membership_spec env network c peers peers' outcome :
  find_network (se_networks env) (mc_network_id (cert_claims c)) = Some network →
  accept_certificate env network c = true →
  update_peer_membership peers c (se_device_id env) (se_networks env) (se_instant env) = (peers', outcome) →
  (outcome = None ∧ peers' = peers)
  ∨ ∃ key route, certificate_for env key c ∧ peers' = <[key := route]> peers
      ∧ identity_of route = certified_identity c
      ∧ let previous := default [] (route_device_public_key <$> peers !! key) in
        outcome = Some (negb (is_empty previous)
                        && bool_decide (previous ≠ mc_device_public_key (cert_claims c))).
Proof.
  intros Hn Hc. unfold update_peer_membership.
  destruct (len _ =? 32) eqn:Hlen; cbn [negb]; [|intros [= <- <-]; by left]. apply Z.eqb_eq in Hlen.
  unfold update_peer_addresses. cbn [fst snd].
  destruct (bool_decide (_ = se_device_id env)) eqn:Hself; cbn [orb]; [intros [= <- <-]; by left|].
  destruct (_ <? _); cbn [orb]; [intros [= <- <-]; by left|].
  destruct (List.find _ _) as [n|]; [|intros [= <- <-]; by left].
  destruct (_ || _); [intros [= <- <-]; by left|]. cbn [negb].
  rewrite lookup_insert_eq, insert_insert_eq. intros [= <- <-]. right.
  eexists _, _. split; [|done]. apply bool_decide_eq_false_1 in Hself.
  unfold accept_certificate in Hc. rewrite !andb_true_iff in Hc. destruct Hc as [[Hv Hl] Hp].
  split; [done|exact Hself|done|]. by exists network.
Qed.
Lemma learn_membership_learns (P : MembershipCertificate → Prop) env network c w :
  find_network (se_networks env) (mc_network_id (cert_claims c)) = Some network →
  accept_certificate env network c = true → P c → learns P env w (learn_membership env w c).1.
Proof.
  intros Hn Hc HP. unfold learn_membership.
  destruct (update_peer_membership _ _ _ _ _) as [peers' outcome] eqn:Hu.
  apply (update_membership_spec _ _ _ _ _ _ Hn Hc) in Hu
    as [[-> ->]|(key & route & Hf & -> & Hi & ->)]; [by apply learns_same|].
  cbn zeta. rewrite <-(cf_key _ _ _ Hf). set (w1 := with_peers _ _).
  assert (∀ key', identity_at w1 key' = identity_at w key'
    ∨ key' = key ∧ identity_at w1 key' = certified_identity c) as Hw1.
  { intros key'. unfold identity_at. subst w1. cbn. destruct (decide (key = key')) as [<-|Hne].
    - right. by rewrite lookup_insert_eq.
    - left. by rewrite lookup_insert_ne. }
  assert (∀ key', identity_at w1 key' = identity_at w key'
    ∨ ∃ c, P c ∧ certificate_for env key' c ∧ identity_at w1 key' = certified_identity c) as Hw1'.
  { intros key'. destruct (Hw1 key') as [|[-> ?]]; eauto. }
  replace (default [] _) with (identity_at w key).1
    by (unfold identity_at; by destruct (st_peers w !! key)).
  destruct (negb (is_empty _) && bool_decide _) eqn:Hd; cbn [fst].
  - split; [done|exact Hw1'|]. intros key'. cbn. destruct (decide (key = key')) as [<-|Hne].
    + right. rewrite lookup_delete_eq. split; [done|]. exists c. split_and!; [done..|].
      apply andb_true_iff in Hd as [_ Hd%bool_decide_eq_true]. congruence.
    + left. rewrite lookup_delete_ne by done. split; [done|]. right.
      by destruct (Hw1 key') as [H'|[-> _]]; [exact (f_equal fst H')|].
  - split; [done|exact Hw1'|]. intros key'. left. split; [done|].
    destruct (Hw1 key') as [H'|[-> H']]; [right; exact (f_equal fst H')|]. rewrite H'. cbn.
    apply andb_false_iff in Hd as [Hd%negb_false_iff%is_empty_true|Hd%bool_decide_eq_false]; [by left|].
    right. symmetry. by apply dec_stable.
Qed.
Lemma learn_candidate_learns P env w key candidate :
  learns P env w (learn_candidate env w key candidate).1.
Proof.
  unfold learn_candidate. cbn. apply learns_insert. unfold mark_probe_sent, identity_at.
  rewrite identity_with_candidates. destruct (st_peers w !! key) as [r|]; [|done].
  by rewrite identity_add_candidate.
Qed.
(** *** Roots *)
Definition only_transmits (effects : list Effect) : Prop :=
  Forall (λ effect, match effect with Transmit _ _ _ => True | _ => False end) effects.
Lemma only_transmits_nil : only_transmits [].
Proof. constructor. Qed.
#[local] Hint Resolve only_transmits_nil : core.
Lemma only_transmits_map {B} (f : B → Effect) l :
  (∀ b, ∃ via endpoint packet, f b = Transmit via endpoint packet) → only_transmits (map f l).
Proof. intros Hf. apply Forall_fmap, Forall_true. intros b. cbn. by destruct (Hf b) as (? & ? & ? & ->). Qed.
Lemma learn_candidate_transmits env w key candidate :
  only_transmits (learn_candidate env w key candidate).2.
Proof. by repeat constructor. Qed.
Lemma discovered_acceptable_Some env n peer c :
  discovered_acceptable env n peer = Some c →
  rpeer_network_id peer = n ∧ rpeer_certificate peer = Some c
  ∧ ∃ network, find_network (se_networks env) (mc_network_id (cert_claims c)) = Some network
      ∧ accept_certificate env network c = true.
Proof.
  unfold discovered_acceptable. destruct (bool_decide (_ ≠ n)) eqn:Hpn; [done|]. cbn [orb].
  destruct (bool_decide (rpeer_device_id peer = _)); [done|].
  intros (network & Hn & (c' & Hp & Hd)%bind_Some)%bind_Some.
  destruct (bool_decide (mc_network_id _ ≠ _)) eqn:Hnet; [done|].
  destruct (bool_decide (mc_device_id _ ≠ _)); [done|]. cbn [orb] in Hd.
  destruct (bool_decide (mc_assigned_addresses _ ≠ _)); [done|]. cbn [orb] in Hd.
  destruct (accept_certificate _ _ _) eqn:Hc; [|done]. injection Hd as ->.
  apply bool_decide_eq_false_1, dec_stable in Hnet, Hpn. split_and!; [done..|].
  exists network. by rewrite Hnet.
Qed.
Lemma learn_discovered_learns (P : MembershipCertificate → Prop) (env : WorkerEnv) n acc peer :
  (∀ c, rpeer_network_id peer = n → rpeer_certificate peer = Some c → P c) →
  learns P (we_session env) acc.1 (learn_discovered env n acc peer).1.
Proof.
  intros HP. unfold learn_discovered. destruct (discovered_acceptable _ _ _) as [c|] eqn:Hd; [|done].
  apply discovered_acceptable_Some in Hd as (Hn & Hc & network & Hf & Ha).
  pose proof (learn_membership_learns P _ network c acc.1 Hf Ha (HP c Hn Hc)) as Hm.
  destruct (learn_membership _ _ _) as [w taken]. cbn in Hm. destruct (negb taken); [exact Hm|].
  etrans; [exact Hm|]. apply (learns_foldl P _ fst _ _ (w, acc.2)). intros a candidate _. unfold learn_candidates.
  pose proof (learn_candidate_learns P (we_session env) a.1 (rpeer_network_id peer, rpeer_device_id peer)
    candidate) as Hl. by destruct (learn_candidate _ _ _ _).
Qed.
Lemma learn_discovered_transmits (env : WorkerEnv) n acc peer :
  only_transmits acc.2 → only_transmits (learn_discovered env n acc peer).2.
Proof.
  intros Ha. unfold learn_discovered. destruct (discovered_acceptable _ _ _) as [c|]; [|done].
  destruct (learn_membership _ _ _) as [w taken]. destruct (negb taken); [done|].
  apply (foldl_preserves _ (λ a, only_transmits a.2)); [done|]. intros a candidate _ Hb. unfold learn_candidates.
  pose proof (learn_candidate_transmits (we_session env) a.1 (rpeer_network_id peer, rpeer_device_id peer)
    candidate) as Hl. destruct (learn_candidate _ _ _ _). by apply Forall_app_2.
Qed.

(** Updates that leave the tables alone. *)
Lemma schedule_succeeded_tables k target now : wk_tables (schedule_succeeded k target now) = wk_tables k.
Proof. unfold schedule_succeeded. by destruct (_ !! _). Qed.
Lemma hints_tables env n hints k :
  wk_tables (foldl (λ k hint, if bool_decide (hint_network_id hint = n)
      && consider_authorization_hint env hint then request_refresh k false else k) k hints)
  = wk_tables k.
Proof.
  apply (foldl_preserves _ (λ k', wk_tables k' = wk_tables k)); [done|].
  intros a b _ Ha. by destruct (_ && _).
Qed.
Lemma receive_stun_tables env remote k id candidate :
  wk_tables (receive_stun env remote k id candidate).1 = wk_tables k.
Proof. unfold receive_stun. destruct (_ !! _); [|done]. destruct (_ && _); [|done]. by destruct (_ && _). Qed.
Lemma relay_acknowledged_tables env n remote k : wk_tables (relay_acknowledged env n remote k) = wk_tables k.
Proof. unfold relay_acknowledged. cbn. by rewrite schedule_succeeded_tables. Qed.
Lemma receive_signed_ack_tables env remote k packet :
  wk_tables (receive_signed_ack env remote k packet) = wk_tables k.
Proof.
  unfold receive_signed_ack. destruct (from_slice _); [|done].
  destruct (acknowledge_signed_relay_registration _ _ _ _ _ _) as [[[[? ?] ?] ?]|]; [|done].
  destruct (is_some_and _ _); cbn; by rewrite schedule_succeeded_tables.
Qed.
Lemma receive_legacy_ack_tables env remote k packet :
  wk_tables (receive_legacy_ack env remote k packet) = wk_tables k.
Proof.
  unfold receive_legacy_ack. destruct (parse_registration_ack packet) as [[[? ?] ?]|]; [|done].
  destruct (_ || _); [done|]. destruct (acknowledge_relay_registration _ _ _ _ _ _ _) as [[? ?]|]; [|done].
  by rewrite relay_acknowledged_tables.
Qed.

(** What a datagram that is no session frame may do. *)
Definition introduces env (remote : SocketAddr) packet k (r : Worker * list Effect) : Prop :=
  learns (presents env k remote packet) (we_session env) (wk_tables k) (wk_tables r.1)
  ∧ only_transmits r.2.
Lemma introduces_same env remote packet k k' effects :
  wk_tables k' = wk_tables k → only_transmits effects → introduces env remote packet k (k', effects).
Proof. intros Ht He. split; cbn; [by rewrite Ht|done]. Qed.
Lemma handle_root_response_introduces env remote k packet :
  introduces env remote packet k
    ((handle_root_response env remote k packet).1.2, (handle_root_response env remote k packet).2).
Proof.
  unfold handle_root_response. destruct (from_slice packet) as [response|] eqn:Hp; [|by apply introduces_same].
  destruct (root_transaction_for _ _ _ _) as [t|] eqn:Ht; [|by apply introduces_same].
  destruct (srr_response response) as [o discovered r hints|] eqn:Hr; cbn; [|by apply introduces_same].
  set (k2 := foldl _ _ hints).
  assert (wk_tables k2 = wk_tables k) as ->
    by (subst k2; rewrite hints_tables; etrans; [apply schedule_succeeded_tables|done]).
  pose proof (learns_foldl (presents env k remote packet) (we_session env) fst
    (learn_discovered env (rtx_network_id t)) discovered (wk_tables k, [])) as Hl.
  pose proof (foldl_preserves (learn_discovered env (rtx_network_id t)) (λ a, only_transmits a.2) discovered
    (wk_tables k, [])) as He.
  split; cbn; destruct (foldl (learn_discovered _ _) _ _) as [w effects]; cbn in *.
  - apply Hl. intros a peer Hin. apply learn_discovered_learns. intros c. by eapply presented_by_root.
  - apply He; [done|]. intros a peer _. apply learn_discovered_transmits.
Qed.
Lemma receive_stun_transmits env remote k id candidate :
  only_transmits (receive_stun env remote k id candidate).2.
Proof.
  unfold receive_stun. destruct (_ !! _); [|done]. destruct (_ && _); [|done]. cbn.
  apply Forall_concat, Forall_fmap, Forall_true. intros network. cbn. destruct (is_some _); [|done].
  apply only_transmits_map. by eexists _, _, _.
Qed.

(** ** Frames *)
Lemma frame_kind_Some packet kind :
  frame_kind packet = Some kind ↔
    (len packet <? 5) || bool_decide (take 4 packet ≠ RELAY_MAGIC) = false
    ∧ (from_slice packet : option SignedRootResponse) = None ∧ byte_at 4 packet = kind.
Proof.
  unfold frame_kind. destruct (_ || bool_decide _); cbn [orb]; [by split; [|intros []]|].
  destruct (from_slice packet); cbn; [by split; [|intros (_ & ? & _)]|].
  split; [by intros [= <-]|by intros (_ & _ & ->)].
Qed.
Lemma stun_no_frame packet x kind :
  parse_stun_binding_success packet = Ok (Some x) → frame_kind packet ≠ Some kind.
Proof.
  intros Hs [[_ Hm]%orb_false_iff _]%frame_kind_Some.
  apply bool_decide_eq_false_1, dec_stable in Hm.
  unfold parse_stun_binding_success in Hs. destruct (_ <? 20)%nat eqn:Hl; [done|].
  apply bind_Ok in Hs as (start & Hr & Hs). apply bind_Ok in Hs as (cookie & _ & Hs).
  destruct (bool_decide (start ≠ _)) eqn:Hk; [done|].
  apply bool_decide_eq_false_1, dec_stable in Hk. subst start.
  unfold range in Hr. destruct (bool_decide _); [|done]. injection Hr as Hr.
  apply (f_equal (λ l, l !! 0%nat)) in Hm, Hr. rewrite lookup_take_lt in Hm by lia.
  unfold slice in Hr. rewrite lookup_take_lt, lookup_drop in Hr by lia.
  pose proof (eq_trans (eq_sym Hm) Hr) as Hx. by vm_compute in Hx.
Qed.
Lemma receive_frame_session env a k packet kind :
  frame_kind packet = Some kind → receive_udp_packet env a k packet = receive_frame env a k packet.
Proof.
  intros Hk. unfold receive_udp_packet.
  destruct (parse_stun_binding_success packet) as [[x|]|] eqn:Hs; [by eapply stun_no_frame in Hk|..].
  all: apply frame_kind_Some in Hk as (Hm & Hj & _); unfold handle_root_response; by rewrite Hj, Hm.
Qed.
Lemma receive_peer_identity_learns (env : WorkerEnv) remote k packet :
  frame_kind packet = Some RELAY_PEER_IDENTITY → remote ∈ tc_relay_endpoints (we_configuration env) →
  learns (presents env k remote packet) (we_session env) (wk_tables k)
    (receive_peer_identity (we_session env) (wk_tables k) packet).
Proof.
  intros Hk Hrem. unfold receive_peer_identity. destruct (parse_peer_identity _) as [c|] eqn:Hp; [|done].
  destruct (find_network _ _) as [network|] eqn:Hn; [|done].
  destruct (accept_certificate _ network c) eqn:Hc; cbn [andb]; [|done].
  destruct (_ =? _); [|done]. eapply learn_membership_learns; [done..|]. by apply presented_by_relay.
Qed.
Lemma receive_peer_learns P (env : WorkerEnv) w packet :
  learns P (we_session env) w (receive_peer env w packet).1 ∧ only_transmits (receive_peer env w packet).2.
Proof.
  unfold receive_peer. destruct (parse_peer_announcement _) as [[[n d] e]|]; [|done].
  destruct (find_network _ _); [|done]. destruct (_ || _); [done|].
  split; [apply learn_candidate_learns|apply learn_candidate_transmits].
Qed.
Lemma receive_punch_learns P env remote w packet :
  learns P env w (receive_punch env remote w packet).1 ∧ only_transmits (receive_punch env remote w packet).2.
Proof.
  unfold receive_punch. destruct (parse_punch _ _) as [[n d]|]; [|done].
  destruct (find_network _ _); [|done]. destruct (st_peers w !! _) as [r|] eqn:Hr; [|done].
  destruct (_ || _); [done|]. cbn. split.
  - apply learns_insert. unfold identity_at. rewrite Hr. apply identity_mark_success.
  - destruct (punch_response_kind _); by repeat constructor.
Qed.
Lemma receive_frame_introduces env a k packet kind :
  frame_kind packet = Some kind → session_frame env a packet = None →
  ∃ r, receive_frame env a k packet = Ok r ∧ introduces env (ar_remote a) packet k r.
Proof.
  intros Hk. unfold session_frame. rewrite Hk. cbn. intros Hs.
  pose proof Hk as (_ & _ & Hb)%frame_kind_Some. unfold receive_frame. rewrite Hb.
  destruct ((_ =? RELAY_REGISTER_ACK_SIGNED) && _).
  { eexists. split; [done|]. apply introduces_same; [apply receive_signed_ack_tables|done]. }
  destruct ((_ =? RELAY_REGISTER_ACK) && _).
  { eexists. split; [done|]. apply introduces_same; [apply receive_legacy_ack_tables|done]. }
  destruct ((_ =? RELAY_PEER_IDENTITY) && _) eqn:Hid.
  { apply andb_true_iff in Hid as [->%Z.eqb_eq Hrem%contains_true]. eexists. split; [done|].
    split; [|done]. by apply receive_peer_identity_learns. }
  destruct ((_ =? RELAY_PEER) && _); [eexists; split; [done|apply receive_peer_learns]|].
  destruct (_ || _); [eexists; split; [done|apply receive_punch_learns]|].
  repeat match type of Hs with (if ?b then _ else _) = _ => destruct b; [done|] end.
  eexists. split; [done|]. by apply introduces_same.
Qed.

(** A datagram that is no session frame never fails. *)
Lemma datagram_introduces env a k packet :
  session_frame env a packet = None →
  ∃ r, receive_udp_packet env a k packet = Ok r ∧ introduces env (ar_remote a) packet k r.
Proof.
  intros Hs. destruct (frame_kind packet) as [kind|] eqn:Hk.
  { erewrite receive_frame_session by done. by eapply receive_frame_introduces. }
  unfold receive_udp_packet. destruct (parse_stun_binding_success packet) as [[[id candidate]|]|].
  { eexists. split; [done|]. split; [by rewrite receive_stun_tables|apply receive_stun_transmits]. }
  all: pose proof (handle_root_response_introduces env (ar_remote a) k packet) as Hroot;
    destruct (handle_root_response env (ar_remote a) k packet) as [[[] k1] e1] eqn:Hh;
    cbn in Hroot; [by eexists|]; eexists;
    unfold frame_kind in Hk; unfold handle_root_response in Hh; destruct (from_slice packet);
    [destruct (root_transaction_for _ _ _ _); [by destruct (apply_root_response _ _ _ _ _)|done]|];
    cbn [is_some] in Hk; rewrite orb_false_r in Hk; destruct (_ || _); [|done];
    split; [done|by destruct Hroot].
Qed.
Lemma datagram_session env a k packet input :
  session_frame env a packet = Some input →
  receive_udp_packet env a k packet = in_tables k <$> session_step (we_session env) input (wk_tables k).
Proof.
  unfold session_frame. intros (kind & Hk & Hs)%bind_Some. erewrite receive_frame_session by done.
  pose proof Hk as (_ & _ & Hb)%frame_kind_Some. unfold receive_frame. rewrite Hb.
  destruct (Z.eqb_spec kind RELAY_SESSION_INIT) as [->|_]; [by injection Hs as <-|].
  destruct (Z.eqb_spec kind RELAY_SESSION_RESPONSE) as [->|_]; [by injection Hs as <-|].
  destruct (Z.eqb_spec kind RELAY_SESSION_DATA) as [->|_]; [by injection Hs as <-|done].
Qed.

(** ** The scan *)
(** The scan writes transactions and schedules, and nothing else. *)
Section scan.
Context {A : Type} (f : Worker → A).
Hypothesis f_schedules : ∀ k s, f (with_schedules k s) = f k.
Hypothesis f_root : ∀ k r, f (with_root k r) = f k.
Hypothesis f_relay : ∀ k r h, h = wk_health k → f (with_relay k r h) = f k.
Hypothesis f_stun : ∀ k s, f (with_stun k s (wk_candidates k)) = f k.

Lemma register_with_relay_keeps env m acc e acc' :
  register_with_relay env m acc e = Ok acc' → f acc'.1 = f acc.1.
Proof using f_schedules f_relay.
  unfold register_with_relay, store_schedule. destruct acc as [k done0]. intros Hr.
  destruct (negb _); [injection Hr as <-; cbn; by rewrite f_schedules|].
  inv_ok. destruct x as [signed|]; [|simplify_eq/=; by rewrite f_relay, f_schedules].
  inv_ok. destruct (send_registration _ _ _ _) as [effects []]; simplify_eq/=.
  - rewrite f_relay by done. rewrite f_schedules, f_relay by done. apply f_schedules.
  - rewrite f_schedules, f_relay by done. apply f_schedules.
Qed.
Lemma register_with_root_keeps env m root acc e acc' :
  register_with_root env m root acc e = Ok acc' → f acc'.1 = f acc.1.
Proof using f_schedules f_root.
  unfold register_with_root, store_schedule. destruct acc as [k done0]. intros Hr.
  destruct (negb _); [injection Hr as <-; cbn; by rewrite f_schedules|].
  inv_ok. destruct x as [signed|]; [|simplify_eq/=; by rewrite f_root, f_schedules].
  inv_ok. destruct (se_send _ _ _ _); simplify_eq/=.
  - by rewrite f_root, f_schedules, f_root, f_schedules.
  - by rewrite f_schedules, f_root, f_schedules.
Qed.
Lemma register_membership_keeps env acc m acc' :
  register_membership env acc m = Ok acc' → f acc'.1 = f acc.1.
Proof using f_schedules f_relay f_root.
  unfold register_membership. intros Hr. inv_ok.
  match goal with Hx : try_foldl (register_with_relay _ _) _ _ = Ok ?y |- _ =>
    assert (f y.1 = f acc.1) as Hy end.
  { eapply (try_foldl_preserves _ (λ a, f a.1 = f acc.1)); [done|done|].
    intros a b a' Ha Hb%register_with_relay_keeps. by rewrite Hb. }
  eapply (try_foldl_preserves _ (λ a, f a.1 = f acc.1)); [exact Hr|done|].
  intros a root a' Ha Hb. eapply (try_foldl_preserves _ (λ a, f a.1 = f acc.1)); [exact Hb|done|].
  intros a1 e a2 Ha1 He%register_with_root_keeps. by rewrite He.
Qed.
Lemma expire_transactions_keeps now k : f (expire_transactions now k) = f k.
Proof using f_relay f_root f_stun.
  unfold expire_transactions. etrans; [|apply (f_stun k)].
  etrans; [|apply f_root]. by apply f_relay.
Qed.
Lemma registration_scan_keeps env stun k k' effects :
  registration_scan env stun k = Ok (k', effects) → f k' = f k.
Proof using f_schedules f_relay f_root f_stun.
  unfold registration_scan. intros Hr. inv_ok. destruct x as [k1 e1].
  destruct (foldl (request_stun env) _ stun) as [k2 e2] eqn:Hf. injection Hr as <- _.
  rewrite expire_transactions_keeps. change k2 with (k2, e2).1. rewrite <-Hf.
  apply (foldl_preserves _ (λ a, f a.1 = f k)).
  - cbn. rewrite f_schedules. change k1 with (k1, e1).1.
    eapply (try_foldl_preserves _ (λ a, f a.1 = f k)); [eassumption|done|].
    intros a m a' Ha Hb%register_membership_keeps. by rewrite Hb.
  - intros [k3 e3] [server id] _ Ha. cbn in *. destruct (se_send _ _ _ _); [|done].
    by rewrite f_stun.
Qed.
Lemma tick_scan_keeps env plan k effects k' effects' :
  (if tp_scan plan
   then '(k, more) ← registration_scan env (tp_stun plan) k; Ok (k, effects ++ more)
   else Ok (k, effects)) = Ok (k', effects') → f k' = f k.
Proof using f_schedules f_relay f_root f_stun.
  destruct (tp_scan plan); intros Hs; inv_ok; [|by simplify_eq].
  destruct x as [k1 e1]. match goal with Hr : registration_scan _ _ _ = Ok _ |- _ =>
    apply registration_scan_keeps in Hr end. by simplify_eq.
Qed.
End scan.

(** What the scan sends. *)
Lemma first_sent_only_transmits env packet attempts : only_transmits (first_sent env packet attempts).1.
Proof.
  induction attempts as [|[[via e] path] attempts IH]; [done|]. cbn.
  destruct (se_send _ _ _ _); [by repeat constructor|].
  destruct (first_sent _ _ _). by constructor.
Qed.
Lemma register_with_relay_transmits env m acc e acc' :
  register_with_relay env m acc e = Ok acc' → only_transmits acc.2 → only_transmits acc'.2.
Proof.
  unfold register_with_relay. destruct acc as [k done0]. cbn. intros Hr Ha.
  destruct (negb _); [by injection Hr as <-|]. inv_ok. destruct x as [signed|]; [|by simplify_eq/=].
  inv_ok. unfold send_registration in Hr.
  match type of Hr with context [first_sent ?s ?p ?l] => pose proof (first_sent_only_transmits s p l) as Hf;
    destruct (first_sent s p l) as [effects path] end.
  cbn in Hr. injection Hr as <-. cbn. apply Forall_app_2; [done|]. by repeat constructor.
Qed.
Lemma register_with_root_transmits env m root acc e acc' :
  register_with_root env m root acc e = Ok acc' → only_transmits acc.2 → only_transmits acc'.2.
Proof.
  unfold register_with_root. destruct acc as [k done0]. cbn. intros Hr Ha.
  destruct (negb _); [by injection Hr as <-|]. inv_ok. destruct x as [signed|]; [|by simplify_eq/=].
  inv_ok. simplify_eq. cbn. apply Forall_app_2; [done|by repeat constructor].
Qed.
Lemma registration_scan_transmits env stun k k' effects :
  registration_scan env stun k = Ok (k', effects) → only_transmits effects.
Proof.
  unfold registration_scan. intros Hr. inv_ok. destruct x as [k1 e1].
  match goal with Hm : try_foldl (register_membership env) _ _ = _ |- _ =>
    eapply (try_foldl_preserves _ (λ a, only_transmits a.2)) in Hm as He1 end; [|done|].
  - destruct (foldl (request_stun env) _ stun) as [k2 e2] eqn:Hf. injection Hr as _ <-.
    change e2 with (k2, e2).2. rewrite <-Hf. apply (foldl_preserves _ (λ a, only_transmits a.2)); [done|].
    intros [k3 e3] [server id] _ Ha. cbn. apply Forall_app_2; [done|by repeat constructor].
  - intros acc m acc' Ha Hm. unfold register_membership in Hm. inv_ok.
    eapply (try_foldl_preserves _ (λ a, only_transmits a.2)); [exact Hm| |].
    + eapply (try_foldl_preserves _ (λ a, only_transmits a.2)); [eassumption|done|].
      intros a b a' Hx Hb. by eapply register_with_relay_transmits.
    + intros a root a' Hx Hb. eapply (try_foldl_preserves _ (λ a, only_transmits a.2)); [exact Hb|done|].
      intros a1 e a2 Hy He. by eapply register_with_root_transmits.
Qed.

Lemma in_tables_Ok k (r : result AgentError (SessionTables * list Effect)) k' effects :
  in_tables k <$> r = Ok (k', effects) → r = Ok (wk_tables k', effects).
Proof. destruct r as [[w e]|]; [|done]. unfold in_tables. cbn. by intros [= <- <-]. Qed.

(** ** The tick *)
(** The turns of the session machine a turn of the timer stands for: before the scan,
    and after it one for each packet of the adapter. *)
Definition maintenance_turns env plan k : list SessionInput :=
  [DropUnauthorized]
  ++ (if tp_retry plan then [RetryHandshakes (relays_of (we_configuration env)) (wk_health k)] else [])
  ++ (if tp_probe plan then [ProbePeers] else []).
Definition outbound_turns env plan k : list SessionInput :=
  map (OutboundPacket (relays_of (we_configuration env)) (wk_health k))
    (take MAX_PACKETS_PER_TICK (tp_packets plan)).
Fixpoint session_turns (env : SessionEnv) (inputs : list SessionInput) w
    : result AgentError (SessionTables * list Effect) :=
  match inputs with
  | [] => Ok (w, [])
  | input :: inputs =>
      '(w, effects) ← session_step env input w;
      '(w, more) ← session_turns env inputs w;
      Ok (w, effects ++ more)
  end.
(** The worker leaves its loop: the configuration changed, or a Planet expired. *)
Definition rebuilt env plan : bool :=
  negb (tp_revision plan =? se_revision (we_session env))
  || has_expired_planet (we_configuration env) (se_unix (we_session env)).

#[local] Arguments probe_peers : simpl never.
#[local] Arguments retry_handshakes : simpl never.
#[local] Arguments drop_unauthorized : simpl never.
Lemma tick_maintenance_turns env plan k k' effects :
  tick_maintenance env plan k = (k', effects) →
  session_turns (we_session env) (maintenance_turns env plan k) (wk_tables k) = Ok (wk_tables k', effects)
  ∧ wk_health k' = wk_health k.
Proof.
  unfold tick_maintenance, maintenance_turns. set (k0 := match tp_mapping plan with Some _ => _ | None => _ end).
  assert (wk_tables k0 = wk_tables k ∧ wk_health k0 = wk_health k) as [Ht Hh]
    by (subst k0; by destruct (tp_mapping plan)).
  clearbody k0. intros Hm. cbn [app session_turns session_step]. cbn.
  rewrite <-Ht, <-Hh. set (k1 := with_tables k0 _) in Hm.
  replace (drop_unauthorized (we_session env) (wk_tables k0)) with (wk_tables k1) by done.
  replace (wk_health k0) with (wk_health k1) by done. clearbody k1. clear Ht Hh.
  destruct (tp_retry plan), (tp_probe plan); cbn;
    unfold in_tables in Hm; cbn in *.
  - destruct (retry_handshakes _ _ _ _) as [w2 e2]. cbn in *.
    destruct (probe_peers _ w2) as [w3 e3]. cbn in *. injection Hm as <- <-. by rewrite !app_nil_r.
  - destruct (retry_handshakes _ _ _ _) as [w2 e2]. cbn in *. injection Hm as <- <-. by rewrite !app_nil_r.
  - destruct (probe_peers _ _) as [w3 e3]. cbn in *. injection Hm as <- <-. by rewrite !app_nil_r.
  - by injection Hm as <- <-.
Qed.
Lemma outbound_steps_turns env packets k effects k' effects' :
  try_foldl (outbound_step env) (k, effects) packets = Ok (k', effects') →
  ∃ more, effects' = effects ++ more
    ∧ session_turns (we_session env)
        (map (OutboundPacket (relays_of (we_configuration env)) (wk_health k)) packets) (wk_tables k)
      = Ok (wk_tables k', more).
Proof.
  revert k effects. induction packets as [|packet packets IH]; intros k effects Ht; cbn in Ht.
  - injection Ht as <- <-. exists []. by rewrite app_nil_r.
  - cbn. destruct (outbound_packet _ _ _ _ _) as [[w e1]|]; [|done]. cbn in *.
    apply IH in Ht as (more & -> & Ht). cbn in Ht. exists (e1 ++ more). by rewrite Ht, (assoc_L (++)).
Qed.
Lemma tick_turns env plan k k' effects :
  tick env plan k = Ok (Some (k', effects)) →
  rebuilt env plan = false ∧ ∃ w e1 scan e2,
    session_turns (we_session env) (maintenance_turns env plan k) (wk_tables k) = Ok (w, e1)
    ∧ session_turns (we_session env) (outbound_turns env plan k) w = Ok (wk_tables k', e2)
    ∧ only_transmits scan ∧ effects = e1 ++ scan ++ e2.
Proof.
  unfold tick. fold (rebuilt env plan). destruct (rebuilt env plan); [done|].
  destruct (tick_maintenance env plan k) as [k1 e1] eqn:Hm. intros Ht.
  apply tick_maintenance_turns in Hm as [Hm Hh]. split; [done|]. inv_ok. destruct x as [k2 e2].
  match goal with Hs : (if tp_scan plan then _ else _) = _ |- _ => pose proof Hs as Hs';
    apply (tick_scan_keeps wk_tables) in Hs as Htab; [|done..];
    apply (tick_scan_keeps wk_health) in Hs as Hhealth; [|done..] end.
  assert (∃ scan, e2 = e1 ++ scan ∧ only_transmits scan) as (scan & -> & Hscan).
  { destruct (tp_scan plan); inv_ok; [|simplify_eq; exists []; by rewrite app_nil_r].
    destruct x as [k3 e3]. simplify_eq. exists e3. split; [done|]. by eapply registration_scan_transmits. }
  destruct (try_foldl _ _ _) as [[k3 e3]|] eqn:Hf; [|done]. injection Ht as <- <-.
  apply outbound_steps_turns in Hf as (more & -> & Hf).
  exists (wk_tables k1), e1, scan, more. split; [done|]. split.
  - unfold outbound_turns. by rewrite <-Hh, <-Hhealth, <-Htab.
  - split; [done|]. by rewrite (assoc_L (++)).
Qed.

(** C7: the worker runs the session machine, and nothing else touches sessions.  A
    session frame (by its magic and kind, from anywhere) is exactly the turn of the
    session machine for this frame: the same tables, the same effects, the same error,
    and the rest of the worker unchanged.  Any other datagram never fails, injects
    nothing and establishes nothing; the replay cache stays, and a session ends when,
    and only when, the key of its peer is replaced by that of a certificate which the
    datagram presents and the agent accepts.  A turn of the timer that goes on drops
    what is no longer authorised, then retries and probes if these are due, and then
    sends the first 32 packets of the adapter in order; its effects are those of these
    turns with the registrations between them.  When the configuration changed or a
    Planet expired the worker leaves its loop instead. *)
Theorem worker_refines_sessions env input k :
  match input with
  | Datagram a packet =>
      match session_frame env a packet with
      | Some turn =>
          worker_step env input k
          = (λ r, Some (with_tables k r.1, r.2)) <$> session_step (we_session env) turn (wk_tables k)
      | None =>
          ∃ k' effects, worker_step env input k = Ok (Some (k', effects))
            ∧ learns (presents env k (ar_remote a) packet) (we_session env) (wk_tables k) (wk_tables k')
            ∧ only_transmits effects
      end
  | Tick plan =>
      (rebuilt env plan = true → worker_step env input k = Ok None)
      ∧ ∀ k' effects, worker_step env input k = Ok (Some (k', effects)) →
          ∃ w e1 scan e2,
            session_turns (we_session env) (maintenance_turns env plan k) (wk_tables k) = Ok (w, e1)
            ∧ session_turns (we_session env) (outbound_turns env plan k) w = Ok (wk_tables k', e2)
            ∧ only_transmits scan ∧ effects = e1 ++ scan ++ e2
  end.
Proof.
  destruct input as [a packet|plan]; cbn [worker_step].
  - destruct (session_frame env a packet) as [turn|] eqn:Hs.
    + rewrite (datagram_session _ _ _ _ _ Hs). by destruct (session_step _ _ _) as [[w e]|].
    + destruct (datagram_introduces env a k packet Hs) as ([k' effects] & -> & Hi & He).
      by exists k', effects.
  - split; [|by intros k' effects [_ ?]%tick_turns].
    unfold tick. fold (rebuilt env plan). by intros ->.
Qed.
End refinement.

Lemma step_determined {A B E} (r : result E (option (A * B))) a b a' b' :
  r = Ok (Some (a, b)) → r = Ok (Some (a', b')) → a' = a ∧ b' = b.
Proof. by intros -> [= -> ->]. Qed.
(** The relay's identity frame for Bob is no session frame, Bob's certificate is what it
    presents, and his data frames are turns of the session machine. *)
Lemma worker_refines_sessions_witness :
  (∃ c, presents (alice_worker_env 152) alice_acknowledged.1 sample_remote identity_packet c
     ∧ identity_at (wk_tables alice_introduced.1) (net_a, bob) = certified_identity c)
  ∧ session_frame (alice_worker_env 152) from_relay (RELAY_MAGIC ++ [RELAY_SESSION_DATA])
    = Some (DataFrame sample_inbound (RELAY_MAGIC ++ [RELAY_SESSION_DATA]))
  ∧ ∃ w e1 scan e2,
      session_turns (alice_env 150) [DropUnauthorized; ProbePeers] (wk_tables alice_worker) = Ok (w, e1)
      ∧ session_turns (alice_env 150) [] w = Ok (wk_tables alice_registering.1, e2)
      ∧ only_transmits scan ∧ alice_registering.2 = e1 ++ scan ++ e2.
Proof.
  split; [|split; [reflexivity|]].
  - pose proof (worker_refines_sessions (alice_worker_env 152) (Datagram from_relay identity_packet)
      alice_acknowledged.1) as Hw.
    assert (session_frame (alice_worker_env 152) from_relay identity_packet = None) as Hf by vm_decide.
    cbv beta match in Hw. rewrite Hf in Hw. destruct Hw as (k' & effects & Hk & [_ Hi _] & _).
    pose proof (step_determined _ _ _ _ _ Hk alice_introduced_step) as Hd.
    destruct Hd as [Hd _]. rewrite <-Hd in Hi.
    destruct (Hi (net_a, bob)) as [Hsame|(c & Hc & _ & Hid)]; [|exists c; split; [exact Hc|exact Hid]].
    exfalso. apply (f_equal (λ i, is_empty i.1)) in Hsame.
    assert (is_empty (identity_at (wk_tables alice_introduced.1) (net_a, bob)).1 = false) as H1 by vm_decide.
    assert (is_empty (identity_at (wk_tables alice_acknowledged.1) (net_a, bob)).1 = true) as H2 by vm_decide.
    rewrite H1, H2 in Hsame. discriminate Hsame.
  - exact (proj2 (worker_refines_sessions (alice_worker_env 150) (Tick scan_plan) alice_worker) _ _
      alice_registering_step).
Defined.
