(* ===== verification/AgentDirectoryFacts.v ===== *)
(** * The agent's peer directory holds only certified identities

    The public key and the addresses of a directory entry change only with a
    certificate that the datagram of this turn presents and the agent accepts, and
    are cleared only by the timer, when they are too old or their network is no
    longer authorised. *)
From S2P Require Import Prelude Net Text Ext Model ServiceIdentity Membership Authorization.
From S2P Require Import RelayProto Session RootProto Planet Policy Joined DataPlane.
From S2P Require Import PeerDirectory.
From S2P Require Import Observability TransportHealth Frames AgentSession AgentWorker.
From S2P Require Import DataPlaneFacts AgentSessionFacts AgentDeliveryFacts AgentWorkerFacts.
From S2P Require Import Concrete Samples.
#[local] Open Scope Z_scope.

Section directory.
Context `{UuidLib} `{Ed25519} `{IpNetLib} `{HashOrder}.
Context `{!MembershipSerde} `{!AuthorizationSerde} `{!SessionSerde} `{!RootSerde} `{!RelaySerde}.
Context `{SessionCrypto} `{!WorkerSerde}.
Implicit Types (w : SessionTables) (k : Worker) (key : PeerKey) (packet : bytes) (env : SessionEnv).

Lemma identity_same_peers w w' key : st_peers w' = st_peers w → identity_at w' key = identity_at w key.
Proof. unfold identity_at. by intros ->. Qed.

(** ** Sessions leave identities alone *)
Lemma send_to_targets_peers env relays health network packet targets w w' effects :
  send_to_targets env relays health network packet w targets = Ok (w', effects) →
  st_peers w' = st_peers w.
Proof.
  revert w w' effects. induction targets as [|[device r] targets IH]; intros w w' effects;
    cbn [send_to_targets]; intros Hs; [by simplify_eq|].
  inv_ok. destruct x as [w1 e1]. inv_ok. destruct x as [w2 e2]. simplify_eq.
  match goal with Ht : send_to_targets _ _ _ _ _ _ _ = Ok _ |- _ => rewrite (IH _ _ _ Ht) end.
  match goal with Ht : send_to_target _ _ _ _ _ _ _ = Ok _ |- _ => unfold send_to_target in Ht end.
  inv_ok. destruct x as [sessions [prepared|]]; [|by simplify_eq].
  destruct (match prepared with Handshake p => _ | Data p => _ end) as [outbound is_data].
  destruct (send_peer_routed_packet _ _ _ _ _ _ _) as [e path]. simplify_eq.
  by rewrite update_session_peers.
Qed.
Lemma outbound_packet_peers env relays health w packet w' effects :
  outbound_packet env relays health w packet = Ok (w', effects) → st_peers w' = st_peers w.
Proof.
  unfold outbound_packet. destruct (outbound_route_for_ip_packet _ _ _ _); [|by intros ?; simplify_eq].
  destruct (negb _); [by intros ?; simplify_eq|]. apply send_to_targets_peers.
Qed.
Lemma establish_peers env i w key keys pk response carried w' effects :
  establish env i w key keys pk response carried = Ok (w', effects) → st_peers w' = st_peers w.
Proof. by intros (? & ? & _ & _ & ? & _)%establish_spec. Qed.
Ltac same_peers :=
  match goal with
  | Hr : establish _ _ _ _ _ _ _ _ = Ok _ |- _ => by rewrite (establish_peers _ _ _ _ _ _ _ _ _ _ Hr)
  | Hr : Ok _ = Ok _ |- _ => simplify_eq; by rewrite ?update_session_peers
  end.
Lemma receive_session_init_peers env i w packet w' effects :
  receive_session_init env i w packet = Ok (w', effects) → st_peers w' = st_peers w.
Proof.
  unfold receive_session_init. intros Hr.
  destruct (parse_session_routing_header _ _) as [[[n source] destination]|]; [|same_peers].
  destruct (_ || _); [same_peers|]. destruct (find_network _ _) as [network|]; [|same_peers].
  destruct (negb _); [same_peers|]. destruct (_ <$> _) as [pk|]; [|same_peers].
  destruct (negb _); [same_peers|]. destruct (session_handshake_id _ _) as [sid|]; [|same_peers].
  destruct (cached_response_for _ _); [same_peers|]. destruct (_ && _); [same_peers|].
  unfold accept_session_init in Hr. destruct (NetworkKey_from_slice _); [|same_peers].
  destruct (accept_pairwise_handshake _ _ _ _ _ _ _) as [[keys response]|]; [|same_peers].
  destruct (record_session_handshake _ _ _ _) as [seen fresh].
  destruct (negb fresh); same_peers.
Qed.
Lemma receive_session_response_peers env i w packet w' effects :
  receive_session_response env i w packet = Ok (w', effects) → st_peers w' = st_peers w.
Proof.
  unfold receive_session_response. intros Hr.
  destruct (parse_session_routing_header _ _) as [[[n source] destination]|]; [|same_peers].
  destruct (_ || _); [same_peers|]. destruct (st_peers w !! _) as [r|]; [|same_peers].
  destruct (find_network _ _) as [network|]; [|same_peers]. destruct (negb _); [same_peers|].
  destruct (NetworkKey_from_slice _); [|same_peers].
  destruct (st_sessions w !! _) as [[q|e]|]; [|same_peers..].
  destruct (bool_decide (pd_peer_public_key q ≠ _)); [same_peers|].
  destruct (complete _ _ _ _ _ _) as [keys|]; same_peers.
Qed.
Lemma receive_session_data_identity env i w packet w' effects key :
  receive_session_data env i w packet = Ok (w', effects) → identity_at w' key = identity_at w key.
Proof.
  assert (∀ w', st_peers w' = st_peers w → identity_at w' key = identity_at w key) as Hsame
    by (intros w1; apply identity_same_peers).
  unfold receive_session_data. intros Hr.
  destruct (parse_session_routing_header _ _) as [[[n source] destination]|]; [|apply Hsame; same_peers].
  destruct (_ || _); [apply Hsame; same_peers|].
  destruct (st_sessions w !! _) as [[q|e]|]; [apply Hsame; same_peers| |apply Hsame; same_peers].
  destruct (session_open _ _ _) as [[opened window]|]; [|apply Hsame; same_peers].
  unfold deliver_opened in Hr. destruct (_ || _); [apply Hsame; same_peers|].
  destruct (find_network _ _) as [network|]; [|apply Hsame; same_peers].
  destruct (negb _); [apply Hsame; same_peers|].
  set (w0 := update_session _ _ _ _) in Hr.
  assert (st_peers w0 = st_peers w) as Hw0 by apply update_session_peers.
  destruct (st_peers w0 !! _) as [r|] eqn:Hroute; [|apply Hsame; simplify_eq; done].
  destruct (negb _); [apply Hsame; simplify_eq; done|].
  set (w1 := if contains _ _ then _ else _) in Hr.
  assert (identity_at w1 key = identity_at w key) as Hw1.
  { rewrite <-(Hsame w0 Hw0). subst w1. destruct (contains _ _); [done|].
    apply identity_insert. unfold identity_at. rewrite Hroute. cbn.
    by rewrite identity_mark_success, identity_add_candidate. }
  destruct (se_adapter env) as [write|]; [|by simplify_eq]. destruct (write _); by simplify_eq.
Qed.
Lemma retry_handshakes_peers env relays health w :
  st_peers (retry_handshakes env relays health w).1 = st_peers w.
Proof.
  unfold retry_handshakes. apply (foldl_preserves _ (λ a, st_peers a.1 = st_peers w)); [done|].
  intros [w1 e1] [key handshake] _ Ha. cbn in *. destruct (List.find _ _); [|done].
  destruct (st_peers w1 !! key); [|done]. destruct (send_peer_routed_packet _ _ _ _ _ _ _) as [e path].
  cbn. by rewrite update_session_peers.
Qed.
Lemma session_frame_identity (env : WorkerEnv) a packet turn w w' effects key :
  session_frame env a packet = Some turn → session_step (we_session env) turn w = Ok (w', effects) →
  identity_at w' key = identity_at w key.
Proof.
  unfold session_frame. intros (kind & _ & Ht)%bind_Some Hs.
  destruct (kind =? RELAY_SESSION_INIT);
    [injection Ht as <-; by eapply identity_same_peers, receive_session_init_peers|].
  destruct (kind =? RELAY_SESSION_RESPONSE);
    [injection Ht as <-; by eapply identity_same_peers, receive_session_response_peers|].
  destruct (kind =? RELAY_SESSION_DATA); [|done].
  injection Ht as <-. by eapply receive_session_data_identity.
Qed.
Lemma datagram_identity (env : WorkerEnv) a k packet k' effects key :
  receive_udp_packet env a k packet = Ok (k', effects) →
  identity_at (wk_tables k') key = identity_at (wk_tables k) key
  ∨ ∃ c, presents env k (ar_remote a) packet c ∧ certificate_for (we_session env) key c
      ∧ identity_at (wk_tables k') key = certified_identity c.
Proof.
  intros Hr. destruct (session_frame env a packet) as [turn|] eqn:Hf.
  - left. rewrite (datagram_session _ _ _ _ _ Hf) in Hr. apply in_tables_Ok in Hr.
    by eapply session_frame_identity.
  - destruct (datagram_introduces env a k packet Hf) as (r & Hr' & [[_ Hi _] _]).
    rewrite Hr in Hr'. injection Hr' as <-. apply Hi.
Qed.

(** ** The timer *)
Lemma drop_unauthorized_identity env w key :
  identity_at (drop_unauthorized env w) key = identity_at w key
  ∨ identity_at (drop_unauthorized env w) key = ([], []) ∧ network_authorized env key.1 = false.
Proof.
  unfold identity_at. destruct (st_peers (drop_unauthorized env w) !! key) as [r|] eqn:Hr.
  - left. cbn in Hr. by apply lookup_retain in Hr as [-> _].
  - destruct (st_peers w !! key) as [r|] eqn:Hw; [|by left]. right. split; [done|].
    destruct (network_authorized env key.1) eqn:Ha; [|done]. cbn in Hr.
    rewrite (proj2 (lookup_retain _ _ _ r)) in Hr; [done|]. by split.
Qed.
(** The entry is older than the directory keeps entries. *)
Definition entry_expired env w key : Prop :=
  ∃ r seen, st_peers w !! key = Some r ∧ route_directory_last_seen r = Some seen
    ∧ PEER_DIRECTORY_TTL < duration_since (se_instant env) seen.
Lemma probe_route_identity now r :
  identity_of (probe_route now r) = identity_of r
  ∨ identity_of (probe_route now r) = ([], [])
    ∧ ∃ seen, route_directory_last_seen r = Some seen ∧ PEER_DIRECTORY_TTL < duration_since now seen.
Proof.
  unfold probe_route. set (r1 := expire_probes _ _).
  assert (identity_of (foldl (λ r e, mark_probe_sent r e now) r1 (endpoints r1)) = identity_of r1) as ->.
  { apply (foldl_preserves _ (λ r', identity_of r' = identity_of r1)); [done|]. by intros ? ? _ <-. }
  subst r1. cbn. unfold expire_directory. destruct (is_some_and _ _) eqn:Hs; [right|by left].
  split; [done|]. destruct (route_directory_last_seen r) as [seen|]; [|done]. exists seen.
  split; [done|]. by apply Z.ltb_lt.
Qed.
Lemma probe_peers_directory env w :
  st_peers (probe_peers env w).1 = probe_route (se_instant env) <$> st_peers w.
Proof.
  unfold probe_peers. cbn. set (w1 := with_peers _ _).
  change (probe_route (se_instant env) <$> st_peers w) with (st_peers w1).
  apply (foldl_preserves _ (λ a, st_peers a = st_peers w1)); [done|]. by intros a [k e] _ <-.
Qed.
Lemma probe_peers_identity env w key :
  identity_at (probe_peers env w).1 key = identity_at w key
  ∨ identity_at (probe_peers env w).1 key = ([], []) ∧ entry_expired env w key.
Proof.
  unfold identity_at. rewrite probe_peers_directory, lookup_fmap. destruct (st_peers w !! key) as [r|] eqn:Hr; [|by left].
  cbn. destruct (probe_route_identity (se_instant env) r) as [?|(? & seen & ? & ?)]; [by left|right].
  split; [done|]. by exists r, seen.
Qed.
Lemma outbound_turns_peers env relays health packets w w' effects :
  session_turns env (map (OutboundPacket relays health) packets) w = Ok (w', effects) →
  st_peers w' = st_peers w.
Proof.
  revert w effects. induction packets as [|packet packets IH]; intros w effects; cbn; [by intros ?; simplify_eq|].
  destruct (outbound_packet _ _ _ _ _) as [[w1 e1]|] eqn:Ho; [|done]. cbn.
  destruct (session_turns _ _ _) as [[w2 e2]|] eqn:Ht; [|done]. cbn. intros [= <- <-].
  rewrite (IH _ _ Ht). by eapply outbound_packet_peers.
Qed.
Lemma tick_identity (env : WorkerEnv) plan k k' effects key :
  tick env plan k = Ok (Some (k', effects)) →
  identity_at (wk_tables k') key = identity_at (wk_tables k) key
  ∨ identity_at (wk_tables k') key = ([], [])
    ∧ (network_authorized (we_session env) key.1 = false
       ∨ tp_probe plan = true ∧ entry_expired (we_session env) (wk_tables k) key).
Proof.
  intros (_ & w & e1 & scan & e2 & Hm & Ho & _)%tick_turns.
  rewrite (identity_same_peers _ _ key (outbound_turns_peers _ _ _ _ _ _ _ Ho)). clear Ho.
  unfold maintenance_turns in Hm. cbn -[drop_unauthorized retry_handshakes probe_peers] in Hm.
  set (w1 := drop_unauthorized _ _) in Hm.
  assert (∃ w2, st_peers w2 = st_peers w1
    ∧ w = if tp_probe plan then (probe_peers (we_session env) w2).1 else w2) as (w2 & Hw2 & ->).
  { destruct (tp_retry plan); cbn -[retry_handshakes probe_peers] in Hm;
      [pose proof (retry_handshakes_peers (we_session env) (relays_of (we_configuration env)) (wk_health k) w1) as Hr;
       destruct (retry_handshakes _ _ _ w1) as [w2 e]|];
      [exists w2|exists w1]; (split; [done|]);
      destruct (tp_probe plan); cbn -[probe_peers] in Hm;
      try (destruct (probe_peers _ _)); by injection Hm as <- _. }
  pose proof (drop_unauthorized_identity (we_session env) (wk_tables k) key) as Hw1. fold w1 in Hw1.
  rewrite <-(identity_same_peers _ _ key Hw2) in Hw1.
  destruct (tp_probe plan); [|destruct Hw1 as [?|[? ?]]; auto].
  destruct (probe_peers_identity (we_session env) w2 key) as [->|[-> (r & seen & Hr & ? & ?)]];
    [destruct Hw1 as [?|[? ?]]; auto|].
  right. split; [done|]. right. split; [done|]. exists r, seen. split; [|done].
  rewrite Hw2 in Hr. subst w1. cbn in Hr. by apply lookup_retain in Hr as [? _].
Qed.

(** C8: the directory holds only certified identities.  When a datagram changes the
    public key or the addresses of an entry, it presents a membership certificate (in
    the identity frame of a configured relay, or in a response that a pinned root signed
    for a request of this worker) which is signed by the pinned controller of a joined
    network, current, covered by the current authorization manifest, and of another
    device, and the new key and addresses are those of this certificate.  Every other
    frame (announcements, hole punching, acknowledgements, session traffic) changes
    neither.  The timer changes neither, except that it clears them when their network
    is no longer authorised or, on a probe, when they are older than 120 seconds. *)
Theorem directory_certified (env : WorkerEnv) input k k' effects key :
  worker_step env input k = Ok (Some (k', effects)) →
  let before := identity_at (wk_tables k) key in
  let after := identity_at (wk_tables k') key in
  match input with
  | Datagram a packet =>
      (after = before
       ∨ ∃ c, presents env k (ar_remote a) packet c ∧ certificate_for (we_session env) key c
           ∧ after = certified_identity c)
      ∧ (∀ kind, frame_kind packet = Some kind → kind ≠ RELAY_PEER_IDENTITY → after = before)
  | Tick plan =>
      after = before
      ∨ after = ([], [])
        ∧ (network_authorized (we_session env) key.1 = false
           ∨ tp_probe plan = true ∧ entry_expired (we_session env) (wk_tables k) key)
  end.
Proof.
  intros Hs before after. destruct input as [a packet|plan]; [|by eapply tick_identity].
  assert (after = before ∨ ∃ c, presents env k (ar_remote a) packet c
    ∧ certificate_for (we_session env) key c ∧ after = certified_identity c) as Hc.
  { pose proof (datagram_identity env a k packet k' effects key) as Hd. cbn in Hs.
    destruct (receive_udp_packet env a k packet) as [[k1 e1]|]; [|done].
    injection Hs as -> ->. by apply Hd. }
  split; [done|]. intros kind Hk Hne. destruct Hc as [|(c & Hp & _)]; [done|]. exfalso.
  apply frame_kind_Some in Hk as Hk'. destruct Hk' as (_ & Hj & _). by inversion Hp; simplify_eq.
Qed.

(** ** The steps of [dir_step] are all there is *)
Section steps.
Context (self : DeviceId) (all : list JoinedNetwork).
Definition moves w w' : Prop := rtc (dir_step self all) (st_peers w) (st_peers w').
#[local] Instance moves_preorder : PreOrder moves.
Proof. split; [intros w; by apply rtc_refl|]. intros w1 w2 w3 ? ?. by eapply rtc_trans. Qed.
Lemma moves_same w w' : st_peers w' = st_peers w → moves w w'.
Proof. unfold moves. by intros ->. Qed.
Lemma moves_foldl {A B : Type} (tables : A → SessionTables) (f : A → B → A) l acc :
  (∀ a b, moves (tables a) (tables (f a b))) → moves (tables acc) (tables (foldl f acc l)).
Proof.
  intros Hf. apply (foldl_preserves f (λ a, moves (tables acc) (tables a))); [done|].
  intros a b _ Ha. by etrans.
Qed.
(** An entry is written twice. *)
Lemma moves_insert w key r1 r2 :
  dir_step self all (st_peers w) (<[key := r1]> (st_peers w)) →
  (∀ peers, peers !! key = Some r1 → dir_step self all peers (<[key := r2]> peers)) →
  moves w (with_peers w (<[key := r2]> (st_peers w))).
Proof.
  intros Hs1 Hs2. eapply rtc_l; [exact Hs1|]. apply rtc_once. cbn.
  rewrite <-(insert_insert_eq (st_peers w) key r2 r1). apply Hs2, lookup_insert_eq.
Qed.

Context (env : WorkerEnv) (Hself : se_device_id (we_session env) = self)
  (Hall : se_networks (we_session env) ⊆ all).
Abbreviation senv := (we_session env).
Lemma learn_membership_moves w c : moves w (learn_membership senv w c).1.
Proof using Hself Hall.
  pose proof (step_membership self all (st_peers w) c _ (se_instant senv) Hall) as Hs. rewrite <-Hself in Hs at 2.
  unfold learn_membership, moves.
  destruct (update_peer_membership _ _ _ _ _) as [peers [[]|]]; by apply rtc_once.
Qed.
Lemma learn_candidate_moves w key candidate : moves w (learn_candidate senv w key candidate).1.
Proof.
  apply (moves_insert w key (match st_peers w !! key with
    | Some r => add_candidate r candidate | None => PeerRoute_new candidate end)).
  - destruct (st_peers w !! key) as [r|] eqn:Hr; [by apply step_candidate|by apply step_new_candidate].
  - intros peers Hr. by apply step_probe_sent.
Qed.
Lemma learn_discovered_moves n acc peer : moves acc.1 (learn_discovered env n acc peer).1.
Proof using Hself Hall.
  unfold learn_discovered. destruct (discovered_acceptable _ _ _) as [c|]; [|done].
  pose proof (learn_membership_moves acc.1 c) as Hm. destruct (learn_membership _ _ _) as [w taken].
  destruct (negb taken); [exact Hm|]. etrans; [exact Hm|].
  apply (moves_foldl fst _ _ (w, acc.2)). intros a e. unfold learn_candidates.
  pose proof (learn_candidate_moves a.1 (rpeer_network_id peer, rpeer_device_id peer) e) as Hl.
  by destruct (learn_candidate _ _ _ _).
Qed.
Lemma handle_root_response_moves remote k packet :
  moves (wk_tables k) (wk_tables (handle_root_response env remote k packet).1.2).
Proof using Hself Hall.
  unfold handle_root_response. destruct (from_slice packet) as [response|]; [|done].
  destruct (root_transaction_for _ _ _ _) as [t|]; [|done].
  destruct (srr_response response) as [o discovered r hints|]; cbn; [|done].
  set (k2 := foldl _ _ hints).
  assert (wk_tables k2 = wk_tables k) as ->
    by (subst k2; rewrite hints_tables; etrans; [apply schedule_succeeded_tables|done]).
  pose proof (moves_foldl fst (learn_discovered env (rtx_network_id t)) discovered (wk_tables k, [])
    (learn_discovered_moves _)) as Hl. by destruct (foldl (learn_discovered _ _) _ _).
Qed.
Lemma receive_session_data_moves i w packet w' effects :
  receive_session_data senv i w packet = Ok (w', effects) → moves w w'.
Proof.
  unfold receive_session_data. intros Hr.
  destruct (parse_session_routing_header _ _) as [[[n source] destination]|]; [|apply moves_same; same_peers].
  destruct (_ || _); [apply moves_same; same_peers|].
  destruct (st_sessions w !! _) as [[q|e]|]; [apply moves_same; same_peers| |apply moves_same; same_peers].
  destruct (session_open _ _ _) as [[opened window]|]; [|apply moves_same; same_peers].
  unfold deliver_opened in Hr. destruct (_ || _); [apply moves_same; same_peers|].
  destruct (find_network _ _) as [network|]; [|apply moves_same; same_peers].
  destruct (negb _); [apply moves_same; same_peers|]. set (w0 := update_session _ _ _ _) in Hr.
  assert (moves w w0) as Hw0 by apply moves_same, update_session_peers.
  destruct (st_peers w0 !! _) as [r|] eqn:Hroute; [|by simplify_eq]. destruct (negb _); [by simplify_eq|].
  set (w1 := if contains _ _ then _ else _) in Hr.
  assert (moves w w1) as Hw1.
  { etrans; [exact Hw0|]. subst w1. destruct (contains _ _); [done|].
    eapply (moves_insert w0 _ (add_candidate r (in_remote i))); [by apply step_candidate|].
    intros peers ?. by apply step_success. }
  destruct (se_adapter senv) as [write|]; [|by simplify_eq]. destruct (write _); by simplify_eq.
Qed.
Lemma receive_frame_moves a k packet k' effects :
  receive_frame env a k packet = Ok (k', effects) → moves (wk_tables k) (wk_tables k').
Proof using Hself Hall.
  unfold receive_frame. intros Hr.
  repeat match type of Hr with (if ?b then _ else _) = _ => destruct b end.
  all: try (apply in_tables_Ok in Hr).
  - injection Hr as <- _. by rewrite receive_signed_ack_tables.
  - injection Hr as <- _. by rewrite receive_legacy_ack_tables.
  - injection Hr as <- _. unfold receive_peer_identity. cbn.
    destruct (parse_peer_identity _); [|done]. destruct (find_network _ _); [|done].
    destruct (_ && _); [apply learn_membership_moves|done].
  - injection Hr as <- _. unfold receive_peer. cbn. destruct (parse_peer_announcement _) as [[[n d] e]|]; [|done].
    destruct (find_network _ _); [|done]. destruct (_ || _); [done|]. apply learn_candidate_moves.
  - injection Hr as <- _. unfold receive_punch. cbn. destruct (parse_punch _ _) as [[n d]|]; [|done].
    destruct (find_network _ _); [|done]. destruct (st_peers _ !! _) as [r|] eqn:Hl; [|done].
    destruct (_ || _); [done|]. by apply rtc_once, step_success.
  - by eapply moves_same, receive_session_init_peers.
  - by eapply moves_same, receive_session_response_peers.
  - by eapply receive_session_data_moves.
  - by injection Hr as <- _.
Qed.
Lemma session_turn_moves input w w' effects :
  session_step senv input w = Ok (w', effects) →
  match input with DropUnauthorized | ProbePeers | RetryHandshakes _ _ | OutboundPacket _ _ _ => True | _ => False end →
  moves w w'.
Proof.
  destruct input as [r h p| | | |r h| | | |]; cbn [session_step]; intros Hs [].
  - by eapply moves_same, outbound_packet_peers.
  - apply Ok_inj in Hs. apply moves_same. rewrite <-(retry_handshakes_peers senv r h w), Hs. done.
  - apply Ok_inj, (f_equal fst) in Hs. cbn [fst] in Hs. subst w'. unfold moves.
    rewrite probe_peers_directory. set (now := se_instant senv).
    replace (probe_route now <$> st_peers w)
      with ((λ r, foldl (λ r e, mark_probe_sent r e now) r (endpoints r))
              <$> ((λ r, expire_probes r now) <$> ((λ r, expire_directory r now) <$> st_peers w)))
      by (by rewrite <-!map_fmap_compose).
    eapply rtc_l; [apply step_expire|]. eapply rtc_l; [apply step_timeouts|]. apply rtc_once, step_probes.
  - injection Hs as <- _. apply rtc_once, step_leave.
Qed.
Lemma session_turns_moves inputs w w' effects :
  session_turns senv inputs w = Ok (w', effects) →
  Forall (λ input, match input with
    DropUnauthorized | ProbePeers | RetryHandshakes _ _ | OutboundPacket _ _ _ => True | _ => False end) inputs →
  moves w w'.
Proof.
  intros Ht Hf. revert w effects Ht. induction Hf as [|input inputs Hi _ IH]; intros w effects Ht; cbn in Ht;
    [by injection Ht as <- _|].
  destruct (session_step _ _ _) as [[w1 e1]|] eqn:Hs; [|done]. cbn in Ht.
  destruct (session_turns _ _ _) as [[w2 e2]|] eqn:Hr; [|done]. cbn in Ht. injection Ht as <- _.
  etrans; [by eapply session_turn_moves|by eapply IH].
Qed.
(** Every turn of the worker is a run of [dir_step]s on the directory. *)
Lemma worker_directory_steps input k k' effects :
  worker_step env input k = Ok (Some (k', effects)) → moves (wk_tables k) (wk_tables k').
Proof using Hself Hall.
  destruct input as [a packet|plan]; cbn [worker_step]; intros Hs.
  - destruct (receive_udp_packet env a k packet) as [[k1 e1]|] eqn:Hr; [|done]. injection Hs as <- _.
    unfold receive_udp_packet in Hr. destruct (parse_stun_binding_success packet) as [[[id candidate]|]|].
    { injection Hr as Hr. apply moves_same. by rewrite <-(receive_stun_tables env (ar_remote a) k id candidate), Hr. }
    all: pose proof (handle_root_response_moves (ar_remote a) k packet) as Hroot;
      destruct (handle_root_response env (ar_remote a) k packet) as [[[] k2] e2]; cbn in Hroot;
      [by injection Hr as <- _|destruct (_ || _); [by injection Hr as <- _|]];
      etrans; [exact Hroot|by eapply receive_frame_moves].
  - apply tick_turns in Hs as (_ & w & e1 & scan & e2 & Hm & Ho & _).
    etrans; eapply session_turns_moves; [exact Hm| |exact Ho|].
    + unfold maintenance_turns. destruct (tp_retry plan), (tp_probe plan); by repeat constructor.
    + unfold outbound_turns. by apply Forall_fmap, Forall_true.
Qed.
End steps.

(** The turns of one device; each sees its own networks. *)
Definition worker_turn (self : DeviceId) (all : list JoinedNetwork) k k' : Prop :=
  ∃ (env : WorkerEnv) input effects,
    se_device_id (we_session env) = self ∧ se_networks (we_session env) ⊆ all
    ∧ worker_step env input k = Ok (Some (k', effects)).
(** In every state a worker reaches, the directory is consistent, so that a unicast packet
    goes to one peer at most ([directory_unicast]). *)
Theorem worker_directory_consistent self all observed reported mapping k :
  rtc (worker_turn self all) (Worker_new observed reported mapping) k →
  directory_ok self all (st_peers (wk_tables k)) ∧ candidates_ok (st_peers (wk_tables k)).
Proof.
  intros Hr. assert (rtc (dir_step self all) ∅ (st_peers (wk_tables k))) as Hd.
  { revert Hr. apply (rtc_ind_r (λ k, rtc (dir_step self all) ∅ (st_peers (wk_tables k)))); [done|].
    intros k1 k2 _ (env & input & effects & Hself & Hall & Hs) IH. etrans; [exact IH|].
    by eapply (worker_directory_steps _ _ env). }
  split; [by apply directory_reachable|by eapply candidates_reachable].
Qed.
End directory.

Lemma directory_certified_witness :
  let w := wk_tables alice_introduced.1 in
  is_empty (identity_at w (net_a, bob)).1 = false
  ∧ ∃ c, presents (alice_worker_env 152) alice_acknowledged.1 sample_remote identity_packet c
     ∧ certificate_for (alice_env 152) (net_a, bob) c ∧ identity_at w (net_a, bob) = certified_identity c.
Proof.
  intros w. split; [vm_decide|].
  destruct (directory_certified (alice_worker_env 152) (Datagram from_relay identity_packet)
    alice_acknowledged.1 alice_introduced.1 alice_introduced.2 (net_a, bob) alice_introduced_step)
    as [[Hsame|Hc] _]; [|exact Hc].
  exfalso. apply (f_equal (λ i, is_empty i.1)) in Hsame.
  assert (is_empty (identity_at w (net_a, bob)).1 = false) as H1 by vm_decide.
  assert (is_empty (identity_at (wk_tables alice_acknowledged.1) (net_a, bob)).1 = true) as H2 by vm_decide.
  pose proof (eq_trans (eq_sym H1) (eq_trans Hsame H2)) as Hx. discriminate Hx.
Defined.
