(* ===== verification/AgentHealthFacts.v ===== *)
(** * What the agent's worker knows about its relays and roots is earned

    A relay is reported healthy and a root responsive only after an answer to an
    outstanding request, and at most one request per target is outstanding. *)
From S2P Require Import Prelude Net Text Ext Model ServiceIdentity Membership Authorization.
From S2P Require Import RelayProto Session RootProto Planet Policy Joined DataPlane.
From S2P Require Import PeerDirectory.
From S2P Require Import Observability TransportHealth Frames AgentSession AgentWorker.
From S2P Require Import DataPlaneFacts AgentWorkerFacts.
From S2P Require Import Concrete Samples.
#[local] Open Scope Z_scope.

Section health.
Context `{UuidLib} `{Ed25519} `{IpNetLib} `{HashOrder}.
Context `{!MembershipSerde} `{!AuthorizationSerde} `{!SessionSerde} `{!RootSerde} `{!RelaySerde}.
Context `{SessionCrypto} `{!WorkerSerde}.
Implicit Types (k : Worker) (packet nonce : bytes) (env : WorkerEnv).

(** ** Health is earned *)
(** What the worker believes about its services: the table it routes by, and the
    one it reports. *)
Definition beliefs k : EndpointHealthTable * EndpointHealthTable := (wk_health k, wk_reported k).

(** An acknowledgement that answers an outstanding registration. *)
Definition relay_answered env (a : Arrival) packet k nonce (n : NetworkId) (e : SocketAddr) : Prop :=
  ∃ t, wk_relay k !! nonce = Some t ∧ ltx_network_id t = n ∧ ltx_endpoint t = e
    ∧ ar_remote a = e ∧ e ∈ tc_relay_endpoints (we_configuration env)
    ∧ duration_since (se_instant (we_session env)) (ltx_issued_at t) < TRANSPORT_TRANSACTION_TTL
    ∧ ((∃ version identity ack, ltx_planet_manifest_version t = Some version ∧ 3 ≤ version ≤ 5
          ∧ ltx_identity t = Some identity
          ∧ from_slice (drop 5 packet) = Some ack ∧ rap_request_nonce (ra_payload ack) = nonce
          ∧ is_ok (relay_ack_verify ack identity n (ltx_device_id t) nonce
                     (se_unix (we_session env)) 5) = true)
       ∨ (∃ version, ltx_planet_manifest_version t = Some version ∧ 1 ≤ version ≤ 2
          ∧ ltx_identity t = None
          ∧ parse_registration_ack packet = Some (n, se_device_id (we_session env), nonce))).
(** A response that answers an outstanding request and that the configured root signed. *)
Definition root_answered env (a : Arrival) packet k nonce (n : NetworkId) (e : SocketAddr) : Prop :=
  ∃ response t root, from_slice packet = Some response ∧ srr_request_nonce response = nonce
    ∧ wk_root k !! nonce = Some t
    ∧ rtx_network_id t = n ∧ rtx_endpoint t = e ∧ ar_remote a = e
    ∧ duration_since (se_instant (we_session env)) (rtx_issued_at t) < TRANSPORT_TRANSACTION_TTL
    ∧ root ∈ root_servers_for (we_configuration env) n ∧ e ∈ root_endpoints root
    ∧ root_public_key root = rtx_public_key t ∧ root_identity root = rtx_identity t
    ∧ root_verified root response (se_unix (we_session env)) = true.

Lemma schedule_succeeded_keeps {A} (f : Worker → A) k target now :
  (∀ k s, f (with_schedules k s) = f k) → f (schedule_succeeded k target now) = f k.
Proof. intros Hf. unfold schedule_succeeded. destruct (_ !! _); [apply Hf|done]. Qed.

Lemma acknowledge_relay_spec transactions h n d nonce e now r :
  acknowledge_relay_registration transactions h n d nonce e now = Some r →
  ∃ t version, transactions !! nonce = Some t ∧ ltx_network_id t = n ∧ ltx_device_id t = d
    ∧ ltx_endpoint t = e ∧ ltx_planet_manifest_version t = Some version ∧ 1 ≤ version ≤ 2
    ∧ ltx_identity t = None ∧ duration_since now (ltx_issued_at t) < TRANSPORT_TRANSACTION_TTL
    ∧ r = (delete nonce transactions, mark_relay_acknowledged h n e now).
Proof.
  unfold acknowledge_relay_registration. intros (t & Ht & Hr)%bind_Some.
  destruct (_ || _) eqn:Hg in Hr; [done|]. injection Hr as <-.
  rewrite !orb_false_iff in Hg. destruct Hg as [[[[[Hn Hd] He] Hv] Hi] Hx].
  rewrite bool_decide_eq_false in Hn, Hd, He. apply dec_stable in Hn, Hd, He.
  destruct (ltx_planet_manifest_version t) as [v|] eqn:Hver; [|done].
  exists t, v. apply Z.leb_gt in Hx. apply negb_false_iff in Hv.
  destruct (ltx_identity t); [done|]. split_and!; try done; lia.
Qed.
Lemma acknowledge_signed_spec transactions h ack e now unix r :
  acknowledge_signed_relay_registration transactions h ack e now unix = Some r →
  ∃ t version identity, transactions !! rap_request_nonce (ra_payload ack) = Some t
    ∧ ltx_endpoint t = e ∧ ltx_planet_manifest_version t = Some version ∧ 3 ≤ version ≤ 5
    ∧ ltx_identity t = Some identity
    ∧ duration_since now (ltx_issued_at t) < TRANSPORT_TRANSACTION_TTL
    ∧ is_ok (relay_ack_verify ack identity (ltx_network_id t) (ltx_device_id t)
               (rap_request_nonce (ra_payload ack)) unix 5) = true
    ∧ r = (delete (rap_request_nonce (ra_payload ack)) transactions,
           mark_relay_acknowledged h (ltx_network_id t) e now, ltx_network_id t,
           rap_authorization_hint (ra_payload ack)).
Proof.
  unfold acknowledge_signed_relay_registration.
  intros (t & Ht & (identity & Hi & Hr)%bind_Some)%bind_Some.
  destruct (_ || _) eqn:Hg in Hr; [done|]. injection Hr as <-.
  rewrite !orb_false_iff in Hg. destruct Hg as [[[Hv He] Hx] Hok].
  rewrite bool_decide_eq_false in He. apply dec_stable in He.
  destruct (ltx_planet_manifest_version t) as [v|] eqn:Hver; [|done].
  exists t, v, identity. apply Z.leb_gt in Hx. apply negb_false_iff in Hv, Hok.
  split_and!; try done; lia.
Qed.

(** How a datagram may change the beliefs. *)
Definition learns env (a : Arrival) packet k k' : Prop :=
  beliefs k' = beliefs k
  ∨ (∃ nonce n, relay_answered env a packet k nonce n (ar_remote a)
       ∧ wk_relay k' = delete nonce (wk_relay k)
       ∧ beliefs k' =
           (mark_relay_acknowledged (wk_health k) n (ar_remote a) (se_instant (we_session env)),
            mark_relay_acknowledged (wk_reported k) n (ar_remote a) (se_instant (we_session env))))
  ∨ (∃ nonce n, root_answered env a packet k nonce n (ar_remote a)
       ∧ wk_root k' = delete nonce (wk_root k)
       ∧ beliefs k' = (wk_health k, mark_root_responsive (wk_reported k) n (ar_remote a)
                                      (se_instant (we_session env)))).

Lemma relay_acknowledged_beliefs env n remote k :
  beliefs (relay_acknowledged env n remote k)
  = (wk_health k, mark_relay_acknowledged (wk_reported k) n remote (se_instant (we_session env))).
Proof.
  unfold relay_acknowledged, beliefs. cbn. by rewrite !(schedule_succeeded_keeps _ (count_confirmation _ _)).
Qed.
Lemma relay_acknowledged_relay env n remote k :
  wk_relay (relay_acknowledged env n remote k) = wk_relay k.
Proof. unfold relay_acknowledged. cbn. by rewrite (schedule_succeeded_keeps wk_relay). Qed.

Lemma receive_signed_ack_learns env a k packet :
  ar_remote a ∈ tc_relay_endpoints (we_configuration env) →
  learns env a packet k (receive_signed_ack env (ar_remote a) k packet).
Proof.
  intros Hin. unfold receive_signed_ack. destruct (from_slice _) as [ack|] eqn:Hack; [|by left].
  destruct (acknowledge_signed_relay_registration _ _ _ _ _ _) as [r|] eqn:Hr; [|by left].
  apply acknowledge_signed_spec in Hr as (t & v & identity & Ht & He & Hv & Hv35 & Hi & Hx & Hok & ->).
  right. left. exists (rap_request_nonce (ra_payload ack)), (ltx_network_id t).
  split; [exists t; split_and!; try done; left; by exists v, identity, ack|].
  set (k1 := relay_acknowledged _ _ _ _).
  assert (wk_relay k1 = delete (rap_request_nonce (ra_payload ack)) (wk_relay k)) as Hk1.
  { subst k1. by rewrite relay_acknowledged_relay. }
  pose proof (relay_acknowledged_beliefs env (ltx_network_id t) (ar_remote a)
    (with_relay k (delete (rap_request_nonce (ra_payload ack)) (wk_relay k))
       (mark_relay_acknowledged (wk_health k) (ltx_network_id t) (ar_remote a)
          (se_instant (we_session env))))) as Hb.
  by destruct (is_some_and _ _).
Qed.
Lemma receive_legacy_ack_learns env a k packet :
  ar_remote a ∈ tc_relay_endpoints (we_configuration env) →
  learns env a packet k (receive_legacy_ack env (ar_remote a) k packet).
Proof.
  intros Hin. unfold receive_legacy_ack.
  destruct (parse_registration_ack packet) as [[[n d] nonce]|] eqn:Hp; [|by left].
  destruct (negb _); cbn [orb]; [by left|].
  destruct (bool_decide (d ≠ _)) eqn:Hd; cbn [orb]; [by left|].
  rewrite bool_decide_eq_false in Hd. apply dec_stable in Hd as ->.
  destruct (is_none _); [by left|].
  destruct (acknowledge_relay_registration _ _ _ _ _ _ _) as [r|] eqn:Hr; [|by left].
  apply acknowledge_relay_spec in Hr as (t & v & Ht & Hn & Hdev & He & Hv & Hv12 & Hi & Hx & ->).
  right. left. exists nonce, n. split; [exists t; split_and!; try done; right; by exists v|].
  split; [by rewrite relay_acknowledged_relay|]. by rewrite relay_acknowledged_beliefs.
Qed.
Lemma root_transaction_for_spec env k remote response t :
  root_transaction_for env k remote response = Some t →
  wk_root k !! srr_request_nonce response = Some t ∧ rtx_endpoint t = remote
  ∧ duration_since (se_instant (we_session env)) (rtx_issued_at t) < TRANSPORT_TRANSACTION_TTL
  ∧ ∃ root, root ∈ root_servers_for (we_configuration env) (rtx_network_id t)
    ∧ remote ∈ root_endpoints root ∧ root_public_key root = rtx_public_key t
    ∧ root_identity root = rtx_identity t
    ∧ root_verified root response (se_unix (we_session env)) = true.
Proof.
  unfold root_transaction_for. intros (t' & Ht & Hr)%bind_Some.
  destruct (bool_decide _) eqn:He; [done|]. cbn [orb] in Hr.
  destruct (_ <=? _) eqn:Hx in Hr; [done|]. apply bind_Some in Hr as (root & Hroot & Hr).
  destruct (root_verified _ _ _) eqn:Hv; [|done]. injection Hr as ->.
  apply bool_decide_eq_false_1, dec_stable in He. apply Z.leb_gt in Hx.
  unfold current_root in Hroot. apply List.find_some in Hroot as [Hin%list_elem_of_In Hroot].
  rewrite !andb_true_iff, !bool_decide_eq_true in Hroot. destruct Hroot as [[Hpk Hend%contains_true] Hi].
  split_and!; try done. by exists root.
Qed.
Lemma handle_root_response_learns env a k packet :
  learns env a packet k (handle_root_response env (ar_remote a) k packet).1.2.
Proof.
  unfold handle_root_response. destruct (from_slice packet) as [response|] eqn:Hp; [|by left].
  destruct (root_transaction_for _ _ _ _) as [t|] eqn:Ht; [|by left].
  apply root_transaction_for_spec in Ht as (Ht & He & Hx & root & Hroot & Hend & Hpk & Hi & Hv).
  destruct (srr_response response) as [o discovered r hints|]; cbn; [|by left].
  right. right. exists (srr_request_nonce response), (rtx_network_id t).
  split; [by exists response, t, root|].
  set (k2 := foldl _ _ hints).
  assert (wk_root k2 = delete (srr_request_nonce response) (wk_root k) ∧ beliefs k2 =
    (wk_health k, mark_root_responsive (wk_reported k) (rtx_network_id t) (ar_remote a)
       (se_instant (we_session env)))) as Hk.
  { subst k2. match goal with |- context [foldl ?f ?x hints] =>
      apply (foldl_preserves f (λ k', wk_root k' = _ ∧ beliefs k' = _)) end.
    - unfold beliefs. cbn. by rewrite !(schedule_succeeded_keeps _ (with_root _ _)).
    - intros b hint _ Hb. by destruct (_ && _). }
  by destruct (foldl (learn_discovered _ _) _ _) as [w effects].
Qed.

Lemma receive_frame_learns env a k packet k' effects :
  receive_frame env a k packet = Ok (k', effects) → learns env a packet k k'.
Proof.
  unfold receive_frame. intros Hr.
  destruct (contains (ar_remote a) _) eqn:Hin; rewrite ?andb_false_r in Hr.
  all: try apply contains_true in Hin.
  all: repeat match type of Hr with (if ?b then _ else _) = _ => destruct b end.
  all: try (injection Hr as <- _; first
    [by apply receive_signed_ack_learns | by apply receive_legacy_ack_learns | by left]).
  all: unfold in_tables in Hr; match type of Hr with _ <$> ?r = _ =>
    destruct r as [[w e]|]; [|done] end; injection Hr as <- _; by left.
Qed.
Lemma receive_udp_packet_learns env a k packet k' effects :
  receive_udp_packet env a k packet = Ok (k', effects) → learns env a packet k k'.
Proof.
  unfold receive_udp_packet. intros Hr.
  destruct (parse_stun_binding_success packet) as [[[id candidate]|]|].
  { injection Hr as Hr. left. change k' with (k', effects).1. rewrite <-Hr.
    unfold receive_stun. destruct (wk_stun k !! id); [|done]. destruct (_ && _); [|done].
    by destruct (_ && _). }
  all: pose proof (handle_root_response_learns env a k packet) as Hl;
    destruct (handle_root_response env (ar_remote a) k packet) as [[b k1] e1] eqn:Hroot;
    cbn in Hl; destruct b; [by injection Hr as <- _|].
  all: assert (k1 = k) as -> by (unfold handle_root_response in Hroot;
    destruct (from_slice packet) as [response|];
    [destruct (root_transaction_for _ _ _ _); [destruct (apply_root_response _ _ _ _ _)|];
       by simplify_eq|by simplify_eq]).
  all: destruct (_ || _); [by injection Hr as <- _|by eapply receive_frame_learns].
Qed.
Lemma tick_beliefs env plan k k' effects :
  tick env plan k = Ok (Some (k', effects)) → beliefs k' = beliefs k.
Proof.
  unfold tick. destruct (_ || _); [done|].
  destruct (tick_maintenance env plan k) as [k1 e1] eqn:Hm. intros Ht.
  assert (beliefs k1 = beliefs k) as <-.
  { unfold tick_maintenance, in_tables in Hm. destruct (tp_probe plan); [|destruct (tp_retry plan)];
      [|by simplify_eq; destruct (tp_mapping plan)..].
    destruct (if tp_retry plan then _ else _) as [k2 e2] eqn:Hk2. destruct (probe_peers _ _).
    injection Hm as <- _. transitivity (beliefs k2); [done|].
    destruct (tp_retry plan); simplify_eq; by destruct (tp_mapping plan). }
  inv_ok. destruct x as [k2 e2].
  match goal with Hs : (if tp_scan plan then _ else _) = _ |- _ =>
    apply (tick_scan_keeps beliefs) in Hs as <-; [|done..|unfold beliefs; by intros ??? ->|done] end.
  destruct (try_foldl _ _ _) as [[k3 e3]|] eqn:Hf; [|done]. injection Ht as <- <-.
  change k3 with (k3, e3).1. change k2 with (k2, e2).1.
  eapply (try_foldl_preserves _ (λ a, beliefs a.1 = beliefs (k2, e2).1)); [exact Hf|done|].
  intros [k4 e4] b a' Ha Hb. unfold outbound_step in Hb. inv_ok. destruct x as [w effects'].
  by injection Hb as <-.
Qed.

(** health is earned.  The timer never makes a service healthy.  A datagram
    makes at most one service healthy, for one network: the relay that answered
    a registration younger than 30 seconds with the request's own nonce, by a
    signed acknowledgement that the pinned identity verifies when the Planet is
    of version 3 to 5 and by a plain one only for version 1 or 2; or the root
    that is still configured and signed the response to an outstanding request.
    The answered request is used up. *)
Theorem service_health_earned env input k k' effects :
  worker_step env input k = Ok (Some (k', effects)) →
  match input with
  | Tick _ => beliefs k' = beliefs k
  | Datagram a packet =>
      beliefs k' = beliefs k
      ∨ (∃ nonce n, relay_answered env a packet k nonce n (ar_remote a)
           ∧ wk_relay k' = delete nonce (wk_relay k)
           ∧ beliefs k' =
               (mark_relay_acknowledged (wk_health k) n (ar_remote a) (se_instant (we_session env)),
                mark_relay_acknowledged (wk_reported k) n (ar_remote a)
                  (se_instant (we_session env))))
      ∨ (∃ nonce n, root_answered env a packet k nonce n (ar_remote a)
           ∧ wk_root k' = delete nonce (wk_root k)
           ∧ beliefs k' = (wk_health k, mark_root_responsive (wk_reported k) n (ar_remote a)
                                          (se_instant (we_session env))))
  end.
Proof.
  destruct input as [a packet|plan]; cbn [worker_step]; [|apply tick_beliefs].
  destruct (receive_udp_packet env a k packet) as [[k1 e1]|] eqn:Hr; [|done].
  intros [= <- <-]. by eapply receive_udp_packet_learns.
Qed.

(** ** Outstanding requests *)
Definition one_per_target {T : Type} (target : T → NetworkId * SocketAddr) (m : gmap bytes T)
    : Prop :=
  ∀ n1 t1 n2 t2, m !! n1 = Some t1 → m !! n2 = Some t2 → target t1 = target t2 → n1 = n2.
Lemma one_per_target_subseteq {T : Type} (target : T → NetworkId * SocketAddr) m m' :
  m' ⊆ m → one_per_target target m → one_per_target target m'.
Proof. intros Hs Hm n1 t1 n2 t2 H1' H2'. eapply Hm; by eapply lookup_weaken. Qed.
(** A new request replaces the one its target had. *)
Lemma one_per_target_replace {T : Type} (target : T → NetworkId * SocketAddr) m keep nonce t :
  one_per_target target m → (∀ n t', keep n t' = true → target t' ≠ target t) →
  one_per_target target (<[nonce := t]> (retain keep m)).
Proof.
  intros Hm Hk n1 t1 n2 t2 Ht1 Ht2 Heq.
  apply lookup_insert_Some in Ht1 as [[<- <-]|[Hn1 Ht1]];
    apply lookup_insert_Some in Ht2 as [[<- <-]|[Hn2 Ht2]]; [done| | |].
  - apply lookup_retain in Ht2 as [_ Hk2]. by destruct (Hk _ _ Hk2).
  - apply lookup_retain in Ht1 as [_ Hk1]. by destruct (Hk _ _ Hk1).
  - apply lookup_retain in Ht1 as [Ht1 _], Ht2 as [Ht2 _]. by eapply Hm.
Qed.

Definition relay_target (t : RelayRegistrationTransaction) : NetworkId * SocketAddr :=
  (ltx_network_id t, ltx_endpoint t).
Definition root_target (t : RootTransaction) : NetworkId * SocketAddr :=
  (rtx_network_id t, rtx_endpoint t).
Definition requests_ok k : Prop :=
  one_per_target relay_target (wk_relay k) ∧ one_per_target root_target (wk_root k)
  ∧ len (wk_candidates k) ≤ MAX_ADVERTISED_CANDIDATES.
(** A step that only uses requests up, and respects the bound on candidates. *)
Definition uses_up k k' : Prop :=
  wk_relay k' ⊆ wk_relay k ∧ wk_root k' ⊆ wk_root k
  ∧ (len (wk_candidates k) ≤ MAX_ADVERTISED_CANDIDATES →
     len (wk_candidates k') ≤ MAX_ADVERTISED_CANDIDATES).
#[local] Instance uses_up_preorder : PreOrder uses_up.
Proof.
  split; [by intros k|]. intros k1 k2 k3 (Hr1 & Ho1 & Hc1) (Hr2 & Ho2 & Hc2).
  split_and!; [by etrans..|by auto].
Qed.
Lemma uses_up_ok k k' : uses_up k k' → requests_ok k → requests_ok k'.
Proof.
  intros (Hr & Ho & Hc) (Hr' & Ho' & Hc').
  split_and!; [by eapply one_per_target_subseteq..|by apply Hc].
Qed.
Definition requests k := (wk_relay k, wk_root k, wk_candidates k).
Lemma uses_up_same k k' : requests k' = requests k → uses_up k k'.
Proof. intros Hr. injection Hr as Hr1 Hr2 Hr3. split_and!; by rewrite ?Hr1, ?Hr2, ?Hr3. Qed.

Lemma receive_stun_uses_up env remote k id candidate :
  uses_up k (receive_stun env remote k id candidate).1.
Proof.
  unfold receive_stun. destruct (wk_stun k !! id); [|done]. destruct (_ && _); [|done].
  destruct (_ && _) eqn:Hg; [|done]. split_and!; [done..|]. cbn [fst wk_candidates with_stun]. intros _.
  apply andb_true_iff in Hg as [_ Hlen%Z.ltb_lt]. cbn [wk_candidates with_stun] in Hlen.
  rewrite len_app. change (len [candidate]) with 1. lia.
Qed.
Lemma relay_acknowledged_requests env n remote k :
  requests (relay_acknowledged env n remote k) = requests k.
Proof. unfold relay_acknowledged, requests. cbn. by rewrite !(schedule_succeeded_keeps _ (count_confirmation _ _)). Qed.
Lemma used_request k nonce h k' :
  requests k' = requests (with_relay k (delete nonce (wk_relay k)) h) → uses_up k k'.
Proof.
  intros Hr. etrans; [|by apply uses_up_same]. split_and!; [|done..]. cbn. apply delete_subseteq.
Qed.
Lemma receive_signed_ack_uses_up env remote k packet :
  uses_up k (receive_signed_ack env remote k packet).
Proof.
  unfold receive_signed_ack. destruct (from_slice _) as [ack|]; [|by apply uses_up_same].
  destruct (acknowledge_signed_relay_registration _ _ _ _ _ _) as [r|] eqn:Hr; [|by apply uses_up_same].
  apply acknowledge_signed_spec in Hr as (t & v & identity & _ & _ & _ & _ & _ & _ & _ & ->).
  eapply used_request. etrans; [|apply (relay_acknowledged_requests env (ltx_network_id t) remote)].
  by destruct (is_some_and _ _).
Qed.
Lemma receive_legacy_ack_uses_up env remote k packet :
  uses_up k (receive_legacy_ack env remote k packet).
Proof.
  unfold receive_legacy_ack. destruct (parse_registration_ack packet) as [[[n d] nonce]|]; [|done].
  destruct (_ || _); [done|].
  destruct (acknowledge_relay_registration _ _ _ _ _ _ _) as [r|] eqn:Hr; [|by apply uses_up_same].
  apply acknowledge_relay_spec in Hr as (t & v & _ & _ & _ & _ & _ & _ & _ & _ & ->).
  eapply used_request. apply relay_acknowledged_requests.
Qed.
Lemma handle_root_response_uses_up env remote k packet :
  uses_up k (handle_root_response env remote k packet).1.2.
Proof.
  unfold handle_root_response. destruct (from_slice packet) as [response|]; [|done].
  destruct (root_transaction_for _ _ _ _) as [t|]; [|done]. set (k1 := with_root k _).
  assert (uses_up k k1) as Hk1 by (split_and!; [done|cbn; apply delete_subseteq|done]).
  etrans; [exact Hk1|]. apply uses_up_same.
  destruct (srr_response response) as [o discovered r hints|]; cbn; [|done].
  set (k2 := foldl _ _ hints).
  assert (requests k2 = requests k1) as Hk.
  { subst k2. apply (foldl_preserves _ (λ k', requests k' = requests k1)).
    - unfold requests. cbn. by rewrite !(schedule_succeeded_keeps _ k1).
    - intros b hint _ Hb. by destruct (_ && _). }
  by destruct (foldl (learn_discovered _ _) _ _).
Qed.
Lemma receive_udp_packet_uses_up env a k packet k' effects :
  receive_udp_packet env a k packet = Ok (k', effects) → uses_up k k'.
Proof.
  unfold receive_udp_packet. intros Hr.
  destruct (parse_stun_binding_success packet) as [[[id candidate]|]|].
  { injection Hr as Hr. change k' with (k', effects).1. rewrite <-Hr. apply receive_stun_uses_up. }
  all: pose proof (handle_root_response_uses_up env (ar_remote a) k packet) as Hu;
    destruct (handle_root_response env (ar_remote a) k packet) as [[[] k1] e1]; cbn in Hu;
    [by injection Hr as <- _|destruct (_ || _); [by injection Hr as <- _|]];
    etrans; [exact Hu|].
  all: unfold receive_frame in Hr;
    repeat match type of Hr with (if ?b then _ else _) = _ => destruct b end;
    try (injection Hr as <- _; first
      [apply receive_signed_ack_uses_up | apply receive_legacy_ack_uses_up | by apply uses_up_same]);
    apply uses_up_same; unfold in_tables in Hr; match type of Hr with _ <$> ?r = _ =>
    destruct r as [[w e1']|]; [|done] end; by injection Hr as <- _.
Qed.

(** The scan: a new request replaces the outstanding one of its target. *)
Lemma register_with_relay_requests env m acc e acc' :
  requests_ok acc.1 → register_with_relay env m acc e = Ok acc' → requests_ok acc'.1.
Proof.
  destruct acc as [k done0]. cbn [fst]. intros (Hr & Ho & Hc) Hs.
  unfold register_with_relay, store_schedule in Hs.
  destruct (negb _); [by injection Hs as <-|].
  set (kept := retain _ _) in Hs.
  assert (one_per_target relay_target kept) as Hkept.
  { eapply one_per_target_subseteq; [|exact Hr]. apply retain_subseteq. }
  inv_ok. destruct x as [signed|]; [|by simplify_eq/=].
  inv_ok. destruct (send_registration _ _ _ _) as [effects []]; simplify_eq/=; [|done].
  split_and!; [|done..]. cbn. apply one_per_target_replace; [done|].
  by intros _ t Ht%bool_decide_eq_true_1.
Qed.
Lemma register_with_root_requests env m root acc e acc' :
  requests_ok acc.1 → register_with_root env m root acc e = Ok acc' → requests_ok acc'.1.
Proof.
  destruct acc as [k done0]. cbn [fst]. intros (Hr & Ho & Hc) Hs.
  unfold register_with_root, store_schedule in Hs.
  destruct (negb _); [by injection Hs as <-|].
  set (kept := retain _ _) in Hs.
  assert (one_per_target root_target kept) as Hkept.
  { eapply one_per_target_subseteq; [|exact Ho]. apply retain_subseteq. }
  inv_ok. destruct x as [signed|]; [|by simplify_eq/=].
  inv_ok. destruct (se_send _ _ _ _); simplify_eq/=; [|done].
  split_and!; [done| |done]. cbn. apply one_per_target_replace; [done|].
  intros _ t Ht. apply orb_true_iff in Ht. rewrite !bool_decide_eq_true in Ht.
  unfold root_target. cbn. intros [= ??]. by destruct Ht.
Qed.
Lemma register_membership_requests env acc m acc' :
  requests_ok acc.1 → register_membership env acc m = Ok acc' → requests_ok acc'.1.
Proof.
  unfold register_membership. intros Hok Hs. inv_ok.
  eapply (try_foldl_preserves _ (λ a, requests_ok a.1)); [exact Hs| |].
  - eapply (try_foldl_preserves _ (λ a, requests_ok a.1)); [done..|].
    intros a e a'. apply register_with_relay_requests.
  - intros a root a' Ha Hb. eapply (try_foldl_preserves _ (λ a, requests_ok a.1)); [exact Hb|done|].
    intros a1 e a2. apply register_with_root_requests.
Qed.
Lemma expire_transactions_uses_up now k : uses_up k (expire_transactions now k).
Proof. split_and!; [apply retain_subseteq..|done]. Qed.
Lemma registration_scan_requests env stun k k' effects :
  requests_ok k → registration_scan env stun k = Ok (k', effects) → requests_ok k'.
Proof.
  unfold registration_scan. intros Hok Hr. inv_ok. destruct x as [k1 e1].
  destruct (foldl (request_stun env) _ stun) as [k2 e2] eqn:Hf. injection Hr as <- _.
  eapply uses_up_ok; [apply expire_transactions_uses_up|].
  change k2 with (k2, e2).1. rewrite <-Hf. apply (foldl_preserves _ (λ a, requests_ok a.1)).
  - change (requests_ok (k1, e1).1).
    eapply (try_foldl_preserves _ (λ a, requests_ok a.1)); [eassumption|done|].
    intros a m a'. apply register_membership_requests.
  - intros [k3 e3] [server id] _ Ha. cbn in *. by destruct (se_send _ _ _ _).
Qed.
Lemma renew_mapping_uses_up external k : uses_up k (renew_mapping external k).
Proof.
  split_and!; [done..|]. unfold renew_mapping. cbn [wk_candidates]. intros Hc.
  set (l := match wk_mapping k with Some _ => _ | None => _ end).
  assert (len l ≤ MAX_ADVERTISED_CANDIDATES) as Hl.
  { subst l. destruct (wk_mapping k); [|done]. etrans; [|exact Hc]. unfold len.
    apply inj_le, List.filter_length_le. }
  destruct (_ && _) eqn:Hg; [|done]. apply andb_true_iff in Hg as [_ Hlen%Z.ltb_lt].
  rewrite len_app. change (len [external]) with 1. lia.
Qed.
Lemma tick_maintenance_uses_up env plan k k' effects :
  tick_maintenance env plan k = (k', effects) → uses_up k k'.
Proof.
  unfold tick_maintenance. set (k1 := with_tables _ _).
  assert (uses_up k k1) as Hk1.
  { subst k1. destruct (tp_mapping plan) as [e|]; [apply (renew_mapping_uses_up e k)|by apply uses_up_same]. }
  destruct (if tp_retry plan then _ else _) as [k2 e2] eqn:Hretry.
  assert (requests k2 = requests k1) as Hk2.
  { destruct (tp_retry plan); [|by injection Hretry as <- _]. unfold in_tables in Hretry.
    by injection Hretry as <- _. }
  intros Hp. etrans; [exact Hk1|]. apply uses_up_same. rewrite <-Hk2.
  destruct (tp_probe plan); [|by injection Hp as <- _]. destruct (probe_peers _ _). by injection Hp as <- _.
Qed.
Lemma tick_requests env plan k k' effects :
  requests_ok k → tick env plan k = Ok (Some (k', effects)) → requests_ok k'.
Proof.
  unfold tick. destruct (_ || _); [done|]. intros Hok.
  destruct (tick_maintenance env plan k) as [k1 e1] eqn:Hm. intros Ht.
  apply tick_maintenance_uses_up in Hm. apply (uses_up_ok _ _ Hm) in Hok. inv_ok. destruct x as [k2 e2].
  assert (requests_ok k2) as Hk2.
  { match goal with Hs : (if tp_scan plan then _ else _) = _ |- _ => destruct (tp_scan plan) end;
      inv_ok; [|by simplify_eq].
    match goal with Hs : registration_scan _ _ _ = Ok ?y |- _ => destruct y as [k3 e3];
      apply registration_scan_requests in Hs; [|done] end. by simplify_eq. }
  destruct (try_foldl _ _ _) as [[k3 e3]|] eqn:Hf; [|done]. injection Ht as <- <-.
  change (requests_ok (k3, e3).1).
  eapply (try_foldl_preserves _ (λ a, requests_ok a.1)); [exact Hf|done|].
  intros [k4 e4] b a' Ha Hb. unfold outbound_step in Hb. inv_ok. destruct x as [w effects'].
  by injection Hb as <-.
Qed.

(** The states of a running worker; each step sees its own environment. *)
Definition worker_reaches : Worker → Worker → Prop :=
  rtc (λ k k', ∃ env input effects, worker_step env input k = Ok (Some (k', effects))).

(** at most one registration per target is outstanding.  In every state a
    worker reaches, two outstanding registrations with relays differ in network
    or endpoint, and so do two with roots, so an answer always settles the
    latest request; and at most sixteen candidates are advertised. *)
Theorem one_registration_outstanding observed reported mapping k :
  worker_reaches (Worker_new observed reported mapping) k →
  (∀ n1 t1 n2 t2, wk_relay k !! n1 = Some t1 → wk_relay k !! n2 = Some t2 →
     ltx_network_id t1 = ltx_network_id t2 → ltx_endpoint t1 = ltx_endpoint t2 → n1 = n2)
  ∧ (∀ n1 t1 n2 t2, wk_root k !! n1 = Some t1 → wk_root k !! n2 = Some t2 →
       rtx_network_id t1 = rtx_network_id t2 → rtx_endpoint t1 = rtx_endpoint t2 → n1 = n2)
  ∧ len (wk_candidates k) ≤ MAX_ADVERTISED_CANDIDATES.
Proof.
  intros Hr. assert (requests_ok k) as (Hrel & Hroot & Hc).
  { revert Hr. apply (rtc_ind_r requests_ok).
    - split_and!; [by intros ?? ?? Ht; cbn in Ht; rewrite lookup_empty in Ht..|]. by destruct mapping.
    - intros k1 k2 _ (env & input & effects & Hs) Hok.
      destruct input as [a packet|plan]; cbn [worker_step] in Hs; [|by eapply tick_requests].
      destruct (receive_udp_packet env a k1 packet) as [[k3 e3]|] eqn:Hu; [|done].
      injection Hs as <- <-. apply receive_udp_packet_uses_up in Hu. by eapply uses_up_ok. }
  split_and!; [..|done].
  - intros n1 t1 n2 t2 Ht1 Ht2 Hn He. eapply Hrel; [done..|]. unfold relay_target. by rewrite Hn, He.
  - intros n1 t1 n2 t2 Ht1 Ht2 Hn He. eapply Hroot; [done..|]. unfold root_target. by rewrite Hn, He.
Qed.
End health.

Lemma service_health_earned_witness :
  ∃ nonce n, relay_answered (alice_worker_env 151) from_relay ack_packet alice_registering.1 nonce n
               sample_remote
    ∧ wk_relay alice_acknowledged.1 = delete nonce (wk_relay alice_registering.1).
Proof.
  destruct (service_health_earned _ _ _ _ _ alice_acknowledged_step)
    as [Hb|[(nonce & n & Ha & Hd & _)|(nonce & n & (response & t & root & _ & _ & Hr & _) & _)]].
  - exfalso. apply (f_equal (λ b, relay_is_healthy b.1 net_a sample_remote (secs 152))) in Hb.
    assert (relay_is_healthy (beliefs alice_acknowledged.1).1 net_a sample_remote (secs 152) = true)
      as Ht by vm_decide.
    assert (relay_is_healthy (beliefs alice_registering.1).1 net_a sample_remote (secs 152) = false)
      as Hf by vm_decide.
    pose proof (eq_trans (eq_sym Hf) (eq_trans (eq_sym Hb) Ht)) as Hx. discriminate Hx.
  - exists nonce, n. split; [exact Ha|exact Hd].
  - exfalso. assert (size (wk_root alice_registering.1) = 0%nat) as He by vm_decide.
    apply map_size_empty_inv in He. rewrite He, lookup_empty in Hr. discriminate Hr.
Defined.
Lemma one_registration_outstanding_witness :
  len (wk_candidates alice_registering.1) ≤ 16
  ∧ size (wk_relay alice_registering.1) = 1%nat.
Proof.
  split; [|vm_decide].
  eapply (one_registration_outstanding (obs_reset 1) EndpointHealthTable_default
    (Some (SA4 (ip4 198 51 100 4) 5000))), rtc_once. do 3 eexists. exact alice_registering_step.
Defined.
