(* ===== verification/AgentHistoryFacts.v ===== *)
(** * What a joined network keeps: its controller and its Planet history

    The key a network is pinned to never changes while the network is joined,
    and the Planet documents it accepts never go back, whatever calls run in
    whatever order, documents that were fetched earlier included. *)
From S2P Require Import Prelude Request Net Text Ext Model ServiceIdentity Membership.
From S2P Require Import Authorization Responses RelayProto Session RootProto Planet Policy.
From S2P Require Import Joined ExitGateway PolicyPlan DataPlane PeerDirectory Observability.
From S2P Require Import TransportHealth SocketText LinuxAdapter ControlUrl Frames AgentSession.
From S2P Require Import AgentWorker AgentState AgentMigration AgentControl AgentRefresh.
From S2P Require Import AgentPolicy AgentNetworks.
#[local] Open Scope Z_scope.

(** ** What the calls keep *)
Section carried.
Context `{UuidLib} `{Ed25519} `{IpNetLib} `{HashOrder} `{SessionCrypto} `{UrlLib} `{ClientLib}.
Context `{!UuidText}.
Context `{!MembershipSerde} `{!AuthorizationSerde} `{!PolicySerde} `{!PlanetSerde}.
Context (I D : PersistedState → Prop).
Implicit Types s : PersistedState.
Implicit Types a : Agent.

(** Whatever the call returns, the live state has [I] and the file has [D]. *)
Definition holds (a : Agent) : Prop := I (an_state a) ∧ D (an_disk a).
Definition carries {A} (m : handler Agent ControlError A) : Prop :=
  ∀ a r a', holds a → m a = (r, a') → holds a'.

Lemma carries_bind {A B} (m : handler Agent ControlError A) (f : A → handler Agent ControlError B) :
  carries m → (∀ x, carries (f x)) → carries (m ≫= f).
Proof.
  intros Hm Hf a r a' Ha [(x & a1 & Hr & Hx)|(e & Hr & _)]%handler_bind_run; [|by eapply Hm].
  eapply Hf; [|done]. by eapply Hm.
Qed.
Lemma carries_get {B} (f : PersistedState → handler Agent ControlError B) :
  (∀ s, I s → carries (f s)) → carries (get_state ≫= f).
Proof. intros Hf a r a' Ha Hr. eapply (Hf (an_state a)); [apply Ha|done|done]. Qed.
Lemma carries_lift_bind {A B} (x : result ControlError A) (f : A → handler Agent ControlError B) :
  (∀ y, x = Ok y → carries (f y)) → carries (lift x ≫= f).
Proof.
  intros Hf a r a' Ha Hr. destruct x as [y|e]; [by eapply Hf|]. by injection Hr as <- <-.
Qed.
Lemma carries_lift {A} (x : result ControlError A) : carries (lift x).
Proof. intros a r a' Ha Hr. by injection Hr as <- <-. Qed.
Lemma carries_ret {A} (x : A) : carries (mret x).
Proof. intros a r a' Ha Hr. by injection Hr as <- <-. Qed.
Lemma carries_set s : I s → carries (set_state s).
Proof. intros Hs a r a' [_ Hd] Hr. cbn in Hr. injection Hr as <- <-. by split. Qed.
Lemma carries_write_file env e s : D s → carries (write_file env e s).
Proof.
  intros Hs a r a' [Hi Hd] Hr. cbv [write_file mbind handler_bind read write lift] in Hr.
  destruct (ne_write env (an_disk a) s); by injection Hr as <- <-.
Qed.
Lemma carries_adapt m : carries (adapt m).
Proof. intros a r a' [Hi Hd]. unfold adapt. destruct (m (an_adapter a)). by intros [= <- <-]. Qed.
Lemma carries_attempt {A} (m : handler Agent ControlError A) :
  carries m → carries (attempt m).
Proof.
  intros Hm a r a' Ha. unfold attempt. destruct (m a) as [x a1] eqn:E. intros [= _ <-]. by eapply Hm.
Qed.
Lemma carries_read {B} (f : Agent → handler Agent ControlError B) :
  (∀ a, holds a → carries (f a)) → carries (read ≫= f).
Proof. intros Hf a r a' Ha Hr. by eapply (Hf a). Qed.
Lemma carries_write a : holds a → carries (write a).
Proof. intros Ha b r a' _ Hr. by injection Hr as <- <-. Qed.
Lemma carries_if {A} (b : bool) (m1 m2 : handler Agent ControlError A) :
  carries m1 → carries m2 → carries (if b then m1 else m2).
Proof. by destruct b. Qed.

Lemma carries_reload : carries request_transport_reload.
Proof. apply carries_read. intros a [??]. by apply carries_write. Qed.
Lemma carries_credential id credential : carries (set_turn_credential id credential).
Proof. apply carries_read. intros a [??]. by apply carries_write. Qed.
Lemma carries_active : carries is_active.
Proof. apply carries_read. intros a [??]. apply carries_ret. Qed.
Lemma carries_adapt_or e m : carries (adapt_or e m).
Proof. apply carries_bind; [apply carries_adapt|]. intros. apply carries_lift. Qed.
Lemma carries_fail_closed {A} env e : carries (fail_closed (A:=A) env e).
Proof. apply carries_bind; [apply carries_adapt|]. intros. apply carries_lift. Qed.
Lemma carries_persist env e s : I s → D s → carries (persist_state_candidate env e s).
Proof. intros. apply carries_bind; [by apply carries_write_file|]. intros. by apply carries_set. Qed.
Lemma carries_answer {A} (m : handler Agent ControlError A) : carries m → carries (answer m).
Proof. intros. apply carries_bind; [done|]. intros. apply carries_ret. Qed.
Lemma carries_refresh_each {A} (f : A → handler Agent ControlError unit) l :
  (∀ x, x ∈ l → carries (f x)) → carries (refresh_each f l).
Proof.
  induction l as [|x l IH]; intros Hf; cbn; [apply carries_ret|].
  apply carries_bind; [apply carries_attempt, Hf; by left|].
  intros _. apply IH. intros. apply Hf. by right.
Qed.
End carried.

(** Walks through a call: what remains are the updates of the live state and
    the states written to the file. *)
Ltac carry_step :=
  lazymatch goal with
  | |- carries _ _ (get_state ≫= _) => apply carries_get; intros ? ?
  | |- carries _ _ (lift _ ≫= _) => apply carries_lift_bind; intros ? ?
  | |- carries _ _ (read ≫= _) => apply carries_read; intros ? ?
  | |- carries _ _ (_ ≫= _) => apply carries_bind; [|intros ?]
  | |- carries _ _ (lift _) => apply carries_lift
  | |- carries _ _ (mret _) => apply carries_ret
  | |- carries _ _ (set_state _) => apply carries_set
  | |- carries _ _ (write_file _ _ _) => apply carries_write_file
  | |- carries _ _ (adapt _) => apply carries_adapt
  | |- carries _ _ (adapt_or _ _) => apply carries_adapt_or
  | |- carries _ _ (attempt _) => apply carries_attempt
  | |- carries _ _ (fail_closed _ _) => apply carries_fail_closed
  | |- carries _ _ request_transport_reload => apply carries_reload
  | |- carries _ _ (set_turn_credential _ _) => apply carries_credential
  | |- carries _ _ is_active => apply carries_active
  | |- carries _ _ (persist_state_candidate _ _ _) => apply carries_persist
  | |- carries _ _ (answer _) => apply carries_answer
  | |- carries _ _ (write _) => apply carries_write
  | |- carries _ _ (if _ then _ else _) => apply carries_if
  | |- carries _ _ (let '(_, _) := ?p in _) => let E := fresh "Hp" in destruct p as [? ?] eqn:E
  | |- carries _ _ (match ?x with _ => _ end) => let E := fresh "Hm" in destruct x eqn:E
  end.
Ltac carry := repeat carry_step.

Section calls.
Context `{UuidLib} `{Ed25519} `{IpNetLib} `{HashOrder} `{SessionCrypto} `{UrlLib} `{ClientLib}.
Context `{!UuidText}.
Context `{!MembershipSerde} `{!AuthorizationSerde} `{!PolicySerde} `{!PlanetSerde}.
Implicit Types s : PersistedState.

Section parts.
Context (I D : PersistedState → Prop).
Lemma carries_apply_networks env s removed reload withdrawn :
  carries I D (apply_networks env s removed reload withdrawn).
Proof. unfold apply_networks. carry. Qed.
Lemma carries_kill_switch env plan : carries I D (apply_kill_switch env plan).
Proof. unfold apply_kill_switch. carry. Qed.
Lemma carries_prepare env t : carries I D (prepare_enrollment env t).
Proof. unfold prepare_enrollment. carry. Qed.
End parts.
End calls.

Section history.
Context `{UuidLib} `{Ed25519} `{IpNetLib} `{HashOrder} `{SessionCrypto} `{UrlLib} `{ClientLib}.
Context `{!UuidText}.
Context `{!MembershipSerde} `{!AuthorizationSerde} `{!PolicySerde} `{!PlanetSerde}.
Implicit Types (c : NetworkControlPlane) (n : JoinedNetwork) (s : PersistedState).

(** ** The order on control planes *)
Definition planet_le c c' : Prop :=
  ∀ v, cp_planet_manifest_version c = Some v →
    ∃ v', cp_planet_manifest_version c' = Some v' ∧ v ≤ v'
    ∧ ∀ t, cp_planet_last_issued_at c = Some t →
        ∃ t', cp_planet_last_issued_at c' = Some t' ∧ t ≤ t'
        ∧ (v' = v → t' = t → cp_planet_semantic_digest c ≠ [] →
           cp_planet_semantic_digest c' = cp_planet_semantic_digest c).
Definition pinned_le c c' : Prop :=
  cp_pinned_controller_public_key c ≠ [] →
  cp_pinned_controller_public_key c' = cp_pinned_controller_public_key c.
Definition control_le c c' : Prop := planet_le c c' ∧ pinned_le c c'.
#[local] Instance planet_le_preorder : PreOrder planet_le.
Proof.
  split.
  - intros c v Hv. exists v. split_and!; [done|lia|]. intros t Ht. by exists t.
  - intros c1 c2 c3 H12 H23 v1 Hv1.
    destruct (H12 _ Hv1) as (v2 & Hv2 & Hle & Ht12). destruct (H23 _ Hv2) as (v3 & Hv3 & ? & Ht23).
    exists v3. split_and!; [done|lia|]. intros t1 Ht1.
    destruct (Ht12 _ Ht1) as (t2 & Ht2 & ? & Hd12). destruct (Ht23 _ Ht2) as (t3 & Ht3 & ? & Hd23).
    exists t3. split_and!; [done|lia|]. intros -> -> Hd.
    rewrite Hd23; [apply Hd12; [lia|lia|done]|lia|lia|]. rewrite Hd12; [done|lia|lia|done].
Qed.
#[local] Instance control_le_preorder : PreOrder control_le.
Proof.
  split; [by split|]. intros c1 c2 c3 [? H12] [? H23]. split; [by etrans|].
  intros Hk. rewrite H23; [by apply H12|]. by rewrite H12.
Qed.
(** Every network of the later state comes from one of the earlier state. *)
Definition kept_from s s' : Prop :=
  ∀ n', n' ∈ ag_networks s' → ∃ n, n ∈ ag_networks s ∧ jn_id n = jn_id n'
    ∧ control_le (jn_control_plane n) (jn_control_plane n').
(** The same, or the network is new. *)
Definition kept_or_new s s' : Prop :=
  ∀ n', n' ∈ ag_networks s' →
    (∃ n, n ∈ ag_networks s ∧ jn_id n = jn_id n'
       ∧ control_le (jn_control_plane n) (jn_control_plane n'))
    ∨ ∀ n, n ∈ ag_networks s → jn_id n ≠ jn_id n'.
Lemma kept_from_refl s : kept_from s s.
Proof. intros n ?. exists n. done. Qed.
Lemma kept_from_trans s1 s2 s3 : kept_from s1 s2 → kept_from s2 s3 → kept_from s1 s3.
Proof.
  intros H12 H23 n3 (n2 & (n1 & ? & ? & ?)%H12 & ? & ?)%H23. exists n1.
  split_and!; [done|congruence|by etrans].
Qed.
Lemma kept_from_new s s' : kept_from s s' → kept_or_new s s'.
Proof. intros Hk n' Hn. left. by apply Hk. Qed.
Lemma kept_from_sublist s s' :
  (∀ n, n ∈ ag_networks s' → n ∈ ag_networks s) → kept_from s s'.
Proof. intros Hs n' Hn. exists n'. split; [by apply Hs|done]. Qed.
Lemma kept_networks s s1 s2 : ag_networks s2 = ag_networks s1 → kept_from s s1 → kept_from s s2.
Proof. unfold kept_from. by intros ->. Qed.

(** Updating networks in place. *)
Definition refines (f : JoinedNetwork → JoinedNetwork) n : Prop :=
  jn_id (f n) = jn_id n ∧ control_le (jn_control_plane n) (jn_control_plane (f n)).
Lemma elem_of_alter {A} (f : A → A) i (l : list A) y :
  y ∈ alter f i l → y ∈ l ∨ ∃ x, l !! i = Some x ∧ y = f x.
Proof.
  intros [j Hj]%list_elem_of_lookup. destruct (decide (i = j)) as [<-|Hij].
  - rewrite list_lookup_alter, decide_True in Hj by done. apply fmap_Some in Hj as (x & ? & ->). right. by exists x.
  - rewrite list_lookup_alter, decide_False in Hj by done. left. by eapply list_elem_of_lookup_2.
Qed.
Lemma network_position_Some s id i :
  network_position s id = Some i → ∃ n, ag_networks s !! i = Some n ∧ jn_id n = id
    ∧ find_network (ag_networks s) id = Some n.
Proof.
  unfold network_position. intros ([j n] & Hf & ->)%fmap_Some. cbn [fst].
  apply list_find_Some in Hf as (Hl & Hid & Hfirst). exists n. split_and!; [done|done|].
  unfold find_network. clear -Hl Hid Hfirst. revert j Hl Hfirst.
  induction (ag_networks s) as [|m l IH]; intros [|j] Hl Hfirst; cbn in *; try done.
  - injection Hl as ->. by rewrite bool_decide_eq_true_2.
  - rewrite bool_decide_eq_false_2 by (by apply (Hfirst 0%nat); [|lia]).
    apply (IH j); [done|]. intros k y Hy Hlt. apply (Hfirst (S k)); [done|lia].
Qed.
Lemma update_network_kept id f s :
  (∀ n, n ∈ ag_networks s → jn_id n = id → find_network (ag_networks s) id = Some n → refines f n) →
  kept_from s (update_network id f s).
Proof.
  unfold update_network. intros Hf. destruct (network_position s id) as [i|] eqn:Hp;
    [|apply kept_from_refl].
  apply network_position_Some in Hp as (n & Hl & Hid & Hfind).
  intros n' [Hn|(m & Hm & ->)]%elem_of_alter; cbn in *; [by exists n'|].
  rewrite Hl in Hm. injection Hm as <-. exists n.
  pose proof (list_elem_of_lookup_2 _ _ _ Hl) as Hin. destruct (Hf n Hin Hid Hfind) as [? ?]. done.
Qed.
Lemma map_kept (f : JoinedNetwork → JoinedNetwork) s s' :
  (∀ n, refines f n) → ag_networks s' = map f (ag_networks s) → kept_from s s'.
Proof.
  intros Hf E n'. rewrite E. intros (n & -> & Hn)%list_elem_of_fmap. exists n.
  destruct (Hf n). done.
Qed.
(** ** What each update of a network refines *)
Lemma metadata_ok c version issued_at digest u :
  validate_planet_acceptance_metadata c version issued_at digest = Ok u →
  ∀ v, cp_planet_manifest_version c = Some v →
    ∃ v', version = Some v' ∧ v ≤ v'
    ∧ ∀ t, cp_planet_last_issued_at c = Some t →
        ∃ t', issued_at = Some t' ∧ t ≤ t'
        ∧ (v' = v → t' = t → cp_planet_semantic_digest c ≠ [] →
           digest = cp_planet_semantic_digest c).
Proof.
  unfold validate_planet_acceptance_metadata. intros Hv v Hc. rewrite Hc in Hv. inv_ok.
  match goal with E : version = Some ?x |- _ => exists x; rename x into v' end.
  split_and!; [done|done|]. intros t Ht. rewrite Ht in Hv. inv_ok.
  match goal with E : issued_at = Some ?x |- _ => exists x; rename x into t' end.
  split_and!; [done|done|]. intros -> -> Hd%is_empty_false.
  destruct (decide (cp_planet_semantic_digest c = digest)) as [->|Hne]; [done|].
  exfalso. revert Hv. by rewrite !Z.eqb_refl, Hd, bool_decide_eq_true_2.
Qed.
Lemma planet_update_le c manifest pinned url now update manifest_url :
  validate_planet_update c manifest pinned url now = Ok update →
  planet_le c (apply_planet_update c manifest_url update).1
  ∧ cp_pinned_controller_public_key (apply_planet_update c manifest_url update).1
    = cp_pinned_controller_public_key c.
Proof.
  unfold validate_planet_update. intros Hu. inv_ok.
  match goal with H : validate_planet_acceptance_metadata _ _ _ _ = _ |- _ => rename H into Hm end.
  subst update. split; [|done]. intros v Hv.
  destruct (metadata_ok _ _ _ _ _ Hm v Hv) as (v' & [= <-] & Hle & Ht).
  exists (pm_version manifest). split_and!; [done|done|]. intros t Ht0.
  destruct (Ht t Ht0) as (t' & [= <-] & ? & ?). by exists (pm_issued_at manifest).
Qed.
Lemma same_metadata_le c c' :
  cp_planet_manifest_version c' = cp_planet_manifest_version c →
  cp_planet_last_issued_at c' = cp_planet_last_issued_at c →
  cp_planet_semantic_digest c' = cp_planet_semantic_digest c →
  cp_pinned_controller_public_key c' = cp_pinned_controller_public_key c →
  control_le c c'.
Proof.
  intros Hv Ht Hd Hk. split; [|by intros _]. intros v ?. exists v. rewrite Hv, Ht, Hd.
  split_and!; [done|lia|]. intros t ?. by exists t.
Qed.
Lemma with_policy_refines n policy selection :
  refines (λ n, network_with_policy n policy selection) n.
Proof. split; [done|]. by apply same_metadata_le. Qed.
Lemma clear_selection_refines n : refines (λ n, (clear_unusable_exit_selection n).1) n.
Proof.
  unfold refines, clear_unusable_exit_selection. destruct (cp_policy_manifest _); cbn;
    (split; [done|by apply same_metadata_le]).
Qed.
Lemma drop_policy_refines now n : refines (drop_refuted_policy now) n.
Proof.
  unfold refines, drop_refuted_policy. repeat case_match; try done.
  split; [done|]. by apply same_metadata_le.
Qed.
Lemma expire_policy_refines now n : refines (λ n, (expire_policy now n).1) n.
Proof.
  unfold refines, expire_policy. case_match; [|done].
  pose proof (clear_selection_refines
    (network_with_policy n None (cp_exit_node_selection (jn_control_plane n)))) as [Hi Hc].
  pose proof (with_policy_refines n None (cp_exit_node_selection (jn_control_plane n))) as [_ Hp].
  split; [exact Hi|etrans; [exact Hp|exact Hc]].
Qed.
Lemma action_refines n action now updated reload credential :
  action_outcome n action now = Ok (Some updated, reload, credential) →
  jn_id updated = jn_id n ∧ control_le (jn_control_plane n) (jn_control_plane updated).
Proof.
  destruct action; cbn; intros Ha; inv_ok; try done; simplify_eq; cbn;
    (split; [done|by apply same_metadata_le]).
Qed.

(** ** The calls *)
Section from_state.
Context (s0 : PersistedState).
Notation keeps m := (carries (kept_from s0) (λ _, True) m).

Lemma keeps_set_kept s s' : kept_from s0 s → kept_from s s' → keeps (set_state s').
Proof. intros. apply carries_set. by eapply kept_from_trans. Qed.
Lemma withdraw_networks s : ag_networks (withdraw_gateways s).1 = ag_networks s.
Proof. done. Qed.
Lemma keeps_gateways env e s previous plan :
  kept_from s0 s → keeps (apply_gateways env e s previous plan).
Proof. intros Hs. unfold apply_gateways. carry; try done. Qed.
Lemma keeps_planet env target manifest : keeps (apply_refreshed_planet env target manifest).
Proof.
  unfold apply_refreshed_planet. carry; try done. eapply kept_from_trans; [done|].
  apply update_network_kept. intros m0 _ _ Hn. split; [done|].
  match goal with H : find_network _ _ = Some ?j, Hp : apply_planet_update _ _ _ = (_, _) |- _ =>
    rewrite Hn in H; injection H as ->; rename Hp into Happ end.
  match goal with H : failed _ = Ok _ |- _ => apply map_err_Ok in H;
    destruct (planet_update_le _ _ _ _ _ _ (Some (pt_manifest_url target)) H) as [Hle Hk] end.
  rewrite Happ in Hle, Hk. split; [done|]. by intros _.
Qed.
(** The states an accepted policy and an accepted authorization lead to. *)
Lemma withdrawn_kept s1 s s' b : withdraw_gateways s = (s', b) → kept_from s1 s → kept_from s1 s'.
Proof.
  intros Hw. apply kept_networks. by rewrite <-(withdraw_networks s), Hw.
Qed.
Lemma policy_state_kept s id n policy n' b s' b' :
  find_network (ag_networks s) id = Some n →
  clear_unusable_exit_selection
    (network_with_policy n (Some policy) (cp_exit_node_selection (jn_control_plane n))) = (n', b) →
  withdraw_gateways (update_network id (λ _, n') s) = (s', b') → kept_from s s'.
Proof.
  intros Hf Hc Hw. eapply withdrawn_kept; [done|]. apply update_network_kept.
  intros m _ _ Hm. rewrite Hf in Hm. injection Hm as <-.
  pose proof (clear_selection_refines
    (network_with_policy n (Some policy) (cp_exit_node_selection (jn_control_plane n)))) as [Hi Hl].
  pose proof (with_policy_refines n (Some policy) (cp_exit_node_selection (jn_control_plane n)))
    as [_ Hp].
  rewrite Hc in Hi, Hl. split; [exact Hi|etrans; [exact Hp|exact Hl]].
Qed.
Lemma restored_kept s id policy selection gateways :
  kept_from s (with_exit_gateways
    (update_network id (λ n, network_with_policy n policy selection) s) gateways).
Proof.
  eapply kept_networks; [|apply update_network_kept; intros; apply with_policy_refines]. done.
Qed.
Lemma action_state_kept s index n updated networks b s' b' now action reload credential :
  ag_networks s !! index = Some n →
  action_outcome n action now = Ok (updated, reload, credential) →
  networks_after (ag_networks s) index updated now = (networks, b) →
  withdraw_gateways (with_networks s networks) = (s', b') → kept_from s s'.
Proof.
  intros Hl Ha Hn Hw. eapply withdrawn_kept; [done|]. destruct updated as [m|]; cbn in Hn.
  - destruct (clear_unusable_exit_selection (drop_refuted_policy now m)) as [m' b1] eqn:Hc.
    injection Hn as <- <-. apply action_refines in Ha as [Hi Hle].
    pose proof (clear_selection_refines (drop_refuted_policy now m)) as [Hi' Hle'].
    pose proof (drop_policy_refines now m) as [Hi1 Hle1]. rewrite Hc in Hi', Hle'.
    intros k [j [(-> & <- & _)|[_ Hk]]%list_lookup_insert_Some]%list_elem_of_lookup;
      [|exists k; split; [by eapply list_elem_of_lookup_2|done]]. exists n.
    split_and!; [by eapply list_elem_of_lookup_2|by rewrite <-Hi, <-Hi1, <-Hi'|].
    etrans; [exact Hle|]. etrans; [exact Hle1|exact Hle'].
  - injection Hn as <- <-. apply kept_from_sublist. cbn. intros k Hk.
    by eapply list_elem_of_delete_inv.
Qed.
Lemma keeps_policy env id policy : keeps (apply_policy_manifest env id policy).
Proof.
  unfold apply_policy_manifest. carry; try done; try apply carries_kill_switch.
  all: match goal with
    Hf : ok_or (find_network _ _) _ = Ok _, Hc : clear_unusable_exit_selection _ = _,
    Hw : withdraw_gateways _ = _ |- _ =>
      apply ok_or_Ok in Hf; pose proof (policy_state_kept _ _ _ _ _ _ _ _ Hf Hc Hw) end.
  - by eapply kept_from_trans.
  - eapply kept_from_trans; [by eapply kept_from_trans|apply restored_kept].
Qed.
Lemma keeps_action env target action : keeps (apply_authorization_action env target action).
Proof.
  unfold apply_authorization_action.
  carry; try done; try apply carries_kill_switch; try apply carries_apply_networks.
  all: match goal with
    Hpos : network_position _ _ = Some _, Hfind : find_network _ _ = Some _,
    Hn : networks_after _ _ _ _ = _, Hw : withdraw_gateways _ = _ |- _ =>
      apply network_position_Some in Hpos as (m & Hl & _ & Hm); rewrite Hfind in Hm;
      injection Hm as <-; subst;
      match goal with Ha : action_outcome _ _ _ = Ok _ |- _ =>
        pose proof (action_state_kept _ _ _ _ _ _ _ _ _ _ _ _ Hl Ha Hn Hw) as Hkept end end.
  - by eapply kept_from_trans.
  - eapply kept_from_trans; [done|]. eapply kept_from_trans; [exact Hkept|]. by apply kept_from_sublist.
Qed.
Lemma map_fst_kept (f : JoinedNetwork → JoinedNetwork * bool) s s' b :
  (∀ n, refines (λ n, (f n).1) n) → update_networks f s = (s', b) → kept_from s s'.
Proof.
  intros Hf [= <- _]. apply (map_kept (λ n, (f n).1)); [done|]. cbn. by rewrite List.map_map.
Qed.
Lemma keeps_expiry env : keeps (expire_stale_policies env).
Proof.
  unfold expire_stale_policies. carry; try done; try apply carries_kill_switch.
  eapply withdrawn_kept; [done|]. eapply kept_from_trans; [done|].
  eapply map_fst_kept; [|done]. intros. apply expire_policy_refines.
Qed.
Lemma keeps_authorizations env : keeps (refresh_authorizations_once env).
Proof.
  apply carries_bind; [apply keeps_expiry|]. intros _. apply carries_bind.
  { unfold authorization_refresh_material. carry. }
  intros [[device identity] targets]. apply carries_refresh_each. intros target _.
  unfold refresh_one_authorization, refresh_policy. carry; [apply keeps_action|apply keeps_policy].
Qed.
Lemma keeps_planets env : keeps (refresh_planets_once env).
Proof.
  unfold refresh_planets_once. carry. apply carries_refresh_each. intros target _.
  unfold refresh_one_planet. carry. apply keeps_planet.
Qed.
Lemma selection_kept s1 s id selection :
  kept_from s1 s → kept_from s1 (restore_selection id selection s).
Proof.
  intros. eapply kept_from_trans; [done|]. apply update_network_kept. intros n _ _ _.
  split; [done|]. by apply same_metadata_le.
Qed.
Lemma keeps_selection env id selection : keeps (configure_exit_selection env id selection).
Proof. unfold configure_exit_selection. carry; try done; by repeat apply selection_kept. Qed.
Lemma keeps_relay env config : keeps (configure_relay env config).
Proof. unfold configure_relay. carry; done. Qed.
Lemma keeps_add_gateway env id request : keeps (configure_exit_gateway env id request).
Proof. unfold configure_exit_gateway. carry; try done. by apply keeps_gateways. Qed.
Lemma keeps_remove_gateway env id : keeps (remove_exit_gateway env id).
Proof. unfold remove_exit_gateway. carry; try done. by apply keeps_gateways. Qed.
Lemma keeps_leave env id : keeps (leave_network env id).
Proof.
  unfold leave_network. carry; try done. eapply kept_from_trans; [done|].
  apply kept_from_sublist. intros n. unfold forget_network. cbn.
  intros [? _]%elem_of_list_filter. done.
Qed.
Lemma keeps_activation env : keeps (activate_adapter env).
Proof. unfold activate_adapter, activate_adapter_transaction. carry. Qed.
Lemma keeps_deactivation env : keeps (deactivate_adapter env).
Proof. unfold deactivate_adapter. carry. Qed.
Lemma keeps_hint env hint : keeps (consider_authorization_hint env hint).
Proof. unfold consider_authorization_hint. carry; by destruct_and?. Qed.
Lemma keeps_configured_planet env config : keeps (configure_planet env config).
Proof.
  unfold configure_planet. carry; try done. eapply kept_from_trans; [done|].
  match goal with Hn : try_map _ _ = Ok _ |- _ => apply try_map_Ok in Hn; rename Hn into Hmap end.
  intros n' Hn'. cbn in Hn'. destruct (Forall2_elem_r _ _ _ _ Hmap Hn') as (n & Hin & Hf).
  exists n. split; [done|]. unfold configure_network_planet in Hf. case_match; inv_ok; [by subst|].
  match goal with Hu : validate_planet_update (jn_control_plane _) _ _ _ _ = Ok _ |- _ =>
    destruct (planet_update_le _ _ _ _ _ _ None Hu) as [Hle Hk] end.
  subst n'. split; [done|]. split; [exact Hle|by intros _].
Qed.
End from_state.

(** A network that is added or enrolled again. *)
Lemma kept_new_append s n :
  (∀ m, m ∈ ag_networks s → jn_id m ≠ jn_id n) →
  kept_or_new s (with_networks s (ag_networks s ++ [n])).
Proof.
  intros Hn n'. cbn. rewrite elem_of_app, list_elem_of_singleton.
  intros [?| ->]; [left; by exists n'|by right].
Qed.
Lemma find_network_None networks id :
  find_network networks id = None → ∀ n, n ∈ networks → jn_id n ≠ id.
Proof.
  unfold find_network. intros Hf n Hn%list_elem_of_In.
  apply (List.find_none _ _ Hf) in Hn. by apply bool_decide_eq_false in Hn.
Qed.
Lemma find_network_Some networks id n :
  find_network networks id = Some n → n ∈ networks ∧ jn_id n = id.
Proof.
  unfold find_network. intros [Hi Hd]%List.find_some. rewrite list_elem_of_In.
  by apply bool_decide_eq_true in Hd.
Qed.
(** A call that starts by reading the state, run from a given agent. *)
Lemma run_from_state {A} (I D : PersistedState → Prop) a (f : PersistedState → _) r a' :
  I (an_state a) → D (an_disk a) →
  carries I D (f (an_state a)) → (get_state ≫= f : handler Agent ControlError A) a = (r, a') →
  I (an_state a').
Proof. intros Hi Hd Hf Hr. by destruct (Hf a r a' (conj Hi Hd) Hr). Qed.
Lemma add_network_history env request a r a' :
  add_network env request a = (r, a') → kept_or_new (an_state a) (an_state a').
Proof.
  intros [(u & a1 & Hl & Hr)|(e & Hl & _)]%handler_bind_run; apply lift_run in Hl as [_ ->];
    [|apply kept_from_new, kept_from_refl].
  eapply (run_from_state (kept_or_new (an_state a)) (λ _, True)); [|done| |exact Hr];
    [apply kept_from_new, kept_from_refl|]. cbv beta zeta. carry; try done.
  match goal with Hb : bail_if _ _ = Ok _ |- _ => apply bail_if_Ok in Hb; rename Hb into Hnew end.
  apply kept_new_append. intros m Hm He. cbn in He.
  apply (proj1 (existsb_not_elem _ _) Hnew) in Hm. by apply bool_decide_eq_false in Hm.
Qed.
Lemma check_pinned_Ok pinned controller u :
  check_pinned pinned controller = Ok u → pinned ≠ [] → controller = pinned.
Proof.
  unfold check_pinned. intros Hc%bail_if_Ok Hne%is_empty_false. rewrite Hne in Hc. cbn in Hc.
  apply bool_decide_eq_false in Hc. by destruct (decide (pinned = controller)).
Qed.
Lemma resolved_pinned env configured pinned authorization current c :
  resolve_enrollment_control_plane env configured pinned authorization current = Ok c →
  cp_pinned_controller_public_key c = pinned.
Proof.
  unfold resolve_enrollment_control_plane. intros Hr.
  destruct configured; inv_ok; [|by subst]. case_match; inv_ok; by subst.
Qed.
Lemma prepared_pinned env t a c :
  (prepare_enrollment env t a).1 = Ok c →
  cp_pinned_controller_public_key c = te_controller_public_key t.
Proof.
  destruct (prepare_enrollment env t a) as [r a'] eqn:Hp. cbn. intros ->.
  unfold prepare_enrollment in Hp. run_handler Hp; try done. by eapply resolved_pinned.
Qed.
Lemma install_state_history t c s u :
  let joined := enrolled_network (te_enrollment t) c in
  cp_pinned_controller_public_key c = te_controller_public_key t →
  match find_network (ag_networks s) (jn_id joined) with
  | Some existing =>
      check_pinned (pinned_controller_key existing) (te_controller_public_key t) ;;
      validate_planet_acceptance_metadata (jn_control_plane existing)
        (cp_planet_manifest_version c) (cp_planet_last_issued_at c) (cp_planet_semantic_digest c)
  | None => Ok tt
  end = Ok u →
  kept_or_new s (if find_network (ag_networks s) (jn_id joined)
                 then update_network (jn_id joined) (λ _, joined) s
                 else with_networks s (ag_networks s ++ [joined])).
Proof.
  intros joined Hk Hc. destruct (find_network _ _) as [existing|] eqn:Hf.
  - inv_ok. apply kept_from_new, update_network_kept. intros n Hn Hid Hn'.
    rewrite Hf in Hn'. injection Hn' as <-. split; [done|]. split; [exact (metadata_ok _ _ _ _ _ Hc)|].
    intros Hne. cbn. rewrite Hk.
    assert (pinned_controller_key existing = cp_pinned_controller_public_key (jn_control_plane existing))
      as Hp by (unfold pinned_controller_key; by rewrite (proj2 (is_empty_false _) Hne)).
    rewrite Hp in *. by eapply check_pinned_Ok.
  - apply kept_new_append. by apply find_network_None.
Qed.
Lemma install_history env t c a r a' :
  cp_pinned_controller_public_key c = te_controller_public_key t →
  install_enrollment env t c a = (r, a') → kept_or_new (an_state a) (an_state a').
Proof.
  intros Hk Hr. unfold install_enrollment in Hr.
  eapply (run_from_state (kept_or_new (an_state a)) (λ _, True));
    [apply kept_from_new, kept_from_refl|done| |exact Hr].
  cbv beta zeta. carry; try done. by eapply install_state_history.
Qed.
Lemma prepared_state env t a r a' : prepare_enrollment env t a = (r, a') → an_state a' = an_state a.
Proof.
  intros Hr. by destruct (carries_prepare (λ s, s = an_state a) (λ _, True) env t a r a' (conj eq_refl I) Hr).
Qed.
Lemma enroll_history env t a r a' :
  enroll_network env t a = (r, a') → kept_or_new (an_state a) (an_state a').
Proof.
  intros [(c & a1 & Hp & Hr)|(e & Hp & _)]%handler_bind_run.
  - rewrite <-(prepared_state _ _ _ _ _ Hp). eapply install_history; [|done].
    eapply prepared_pinned. by rewrite Hp.
  - rewrite (prepared_state _ _ _ _ _ Hp). apply kept_from_new, kept_from_refl.
Qed.

(** Every move of the agent. *)
Lemma carried_history {A} (m : handler Agent ControlError A) a :
  carries (kept_from (an_state a)) (λ _, True) m → kept_or_new (an_state a) (an_state (m a).2).
Proof.
  intros Hm. apply kept_from_new. destruct (m a) as [r a'] eqn:Hr.
  by destruct (Hm a r a' (conj (kept_from_refl _) I) Hr).
Qed.
Lemma answered_history {A} (m : handler Agent ControlError A) a :
  kept_or_new (an_state a) (an_state (m a).2) →
  kept_or_new (an_state a) (an_state (answer m a).2).
Proof. unfold answer, mbind, handler_bind. by destruct (m a) as [[?|?] ?]. Qed.
Lemma move_history a b : agent_moves a b → kept_or_new (an_state a) (an_state b).
Proof.
  destruct 1 as [env call a|env0 before env t c a Hp| | |].
  - destruct call; cbn [agent_step].
    + apply carried_history, keeps_relay.
    + apply carried_history, keeps_configured_planet.
    + apply carried_history, keeps_selection.
    + apply carried_history, keeps_add_gateway.
    + apply carried_history, keeps_remove_gateway.
    + apply answered_history. destruct (add_network env request a) eqn:E. by eapply add_network_history.
    + apply carried_history, keeps_leave.
    + apply answered_history. destruct (enroll_network env enrollment a) eqn:E. by eapply enroll_history.
    + apply carried_history, keeps_activation.
    + apply carried_history, keeps_deactivation.
    + apply answered_history, carried_history, keeps_hint.
    + apply carried_history, keeps_planets.
    + apply carried_history, keeps_authorizations.
  - destruct (install_enrollment env t c a) eqn:E. eapply install_history; [|done].
    by eapply prepared_pinned.
  - apply carried_history, keeps_planet.
  - apply carried_history, keeps_action.
  - apply carried_history, keeps_policy.
Qed.
Lemma NoDup_map_inj {A B} (f : A → B) l x y :
  NoDup (map f l) → x ∈ l → y ∈ l → f x = f y → x = y.
Proof.
  intros Hl [i Hi]%list_elem_of_lookup [j Hj]%list_elem_of_lookup E.
  assert (i = j) as <-; [|congruence].
  eapply NoDup_lookup; [exact Hl| |]; rewrite list_lookup_fmap; [by rewrite Hi|by rewrite Hj, E].
Qed.
Lemma kept_network a b n n' :
  agent_moves a b → NoDup (map jn_id (ag_networks (an_state a))) →
  n ∈ ag_networks (an_state a) → n' ∈ ag_networks (an_state b) → jn_id n' = jn_id n →
  control_le (jn_control_plane n) (jn_control_plane n').
Proof.
  intros Hm Hnd Hn Hn' Hid.
  destruct (move_history a b Hm n' Hn') as [(m & Hin & Hmid & Hle)|Hnew];
    [|by destruct (Hnew n Hn)].
  replace n with m; [done|]. eapply (NoDup_map_inj jn_id); [done|done|done|congruence].
Qed.
End history.
