(* ===== verification/AgentDocumentFacts.v ===== *)
(** * The documents an agent accepts: no other controller, no way back

    The theorems on what a joined network keeps through every move of the agent,
    and on what a refreshed authorization rests on. *)
From S2P Require Import Prelude Request Net Text Ext Concrete Model ServiceIdentity Membership.
From S2P Require Import Authorization Responses RelayProto Session RootProto Planet Policy.
From S2P Require Import Joined ExitGateway PolicyPlan DataPlane PeerDirectory Observability.
From S2P Require Import TransportHealth SocketText LinuxAdapter ControlUrl Frames AgentSession.
From S2P Require Import AgentWorker AgentState AgentMigration AgentControl AgentRefresh.
From S2P Require Import AgentPolicy AgentNetworks Samples AgentHistoryFacts.
From Stdlib Require Import Ascii.
#[local] Open Scope Z_scope.

(** ** A sample agent for the witnesses *)
(** A URL of a scheme, a host and a path. *)
#[export] Instance url_concrete : UrlLib := {|
  Url := string * string * string;
  url_parse s :=
    '(scheme, rest) ← split_once "://" s;
    let host := before_any ["/"%char] rest in
    if str_is_empty host then None
    else Some (scheme, host, str_drop (String.length host) rest);
  url_scheme u := u.1.1;
  url_host_str u := Some u.1.2;
  url_username _ := ""%string;
  url_password _ := None;
  url_query _ := None;
  url_fragment _ := None;
  url_path u := u.2;
  url_set_path u path := (u.1, path);
  url_to_string u := (u.1.1 ++ "://" ++ u.1.2 ++ u.2)%string;
  url_port_or_known_default u := if bool_decide (u.1.1 = "https"%string) then Some 443 else Some 80;
|}.
#[export] Instance client_concrete : ClientLib := {|
  base64_decode s := Some (bytes_of_string s);
  pem_bundle _ := Some 1%nat;
  client_build _ := true;
|}.
#[export] Instance agent_planet_serde : PlanetSerde :=
  {| serde_planet_v1 := const_serde _; serde_planet_v2 := const_serde _;
     serde_planet_v3 := const_serde _; serde_planet_v4 := const_serde _;
     serde_planet_v5 := const_serde _; serde_planet_semantic := const_serde _ |}.

Definition sample_url : string := "https://controller.example".
Definition sample_manifest_url : string := "https://controller.example/v1/planet".
Definition planet_at (issued_at : Z) : PlanetManifest :=
  unwrap (sign_v2 sample_url [] [mkPlanetRelay (SA4 (ip4 203 0 113 2) 1) 10 None] ["stun.example:3478"]
            issued_at (Some 900) controller_key)
    (mkPlanetManifest 0 "" (SA4 0 0) [] [] [] [] [] 0 None [] []).
Example normalised_url : normalize_http_url " https://controller.example/ " = Ok sample_url.
Proof. by vm_compute. Qed.

(** The sample network with its controller and an accepted Planet. *)
Definition accepted_control_plane : NetworkControlPlane :=
  let c := set_controller (jn_control_plane alice_network) (Some sample_url) controller_public None
             (Some sample_manifest_url) in
  let update := validate_planet_update NetworkControlPlane_default (planet_at 100) controller_public
                  None 150 in
  match update with
  | Ok update => (apply_planet_update c (Some sample_manifest_url) update).1
  | Err _ => c
  end.
Definition alice_joined : JoinedNetwork := with_control_plane alice_network accepted_control_plane.
Definition alice_state : PersistedState :=
  with_networks (PersistedState_new (be_bytes 32 2) (uuid_of 21)) [alice_joined].
Definition agent_of (s : PersistedState) : Agent :=
  mkAgent s s Adapter_new ∅ 1 (obs_reset 1) false false false.
Definition alice_agent : Agent := agent_of alice_state.
Definition agent_env (now : Z) : AgentEnv :=
  mkAgentEnv now (uuid_of 80) (Some (be_bytes 32 80)) (replicate 16 3) (λ _ _, Written)
    (λ _ _, true) (λ _, true) (λ _ port, Some [SA4 (ip4 198 51 100 9) port])
    (λ _ _, Some (planet_at 120)) (λ _ _, Some sample_authorization)
    (λ _ _ _, None) (λ _ _, Some sample_policy).
Definition run_agent (a : Agent) (env : AgentEnv) (call : AgentCall) : Agent :=
  (agent_step env call a).2.
Definition alice_refreshed : Agent := run_agent alice_agent (agent_env 160) RefreshPlanets.
Example sample_planet_refresh :
  map (λ n, cp_planet_last_issued_at (jn_control_plane n)) (ag_networks (an_state alice_refreshed))
    = [Some 120]
  ∧ an_revision alice_refreshed = 2 ∧ an_transport_reload alice_refreshed = true.
Proof. vm_decide. Qed.

Section documents.
Context `{UuidLib} `{Ed25519} `{IpNetLib} `{HashOrder} `{SessionCrypto} `{UrlLib} `{ClientLib}.
Context `{!UuidText}.
Context `{!MembershipSerde} `{!AuthorizationSerde} `{!PolicySerde} `{!PlanetSerde}.

(** C15: the Planet documents of a joined network never go back: whatever the
    agent does, with documents fetched now or earlier, the version and the issue
    time a network has accepted only grow, and a document of the same version and
    time has the same content, when a digest of it was recorded.  The networks of the
    state are taken to have distinct identifiers. *)
Theorem planet_never_rolls_back (a b : Agent) (n n' : JoinedNetwork) (version issued_at : Z) :
  agent_moves a b →
  NoDup (map jn_id (ag_networks (an_state a))) →
  n ∈ ag_networks (an_state a) → n' ∈ ag_networks (an_state b) → jn_id n' = jn_id n →
  cp_planet_manifest_version (jn_control_plane n) = Some version →
  cp_planet_last_issued_at (jn_control_plane n) = Some issued_at →
  ∃ version' issued_at',
    cp_planet_manifest_version (jn_control_plane n') = Some version'
    ∧ cp_planet_last_issued_at (jn_control_plane n') = Some issued_at'
    ∧ version ≤ version' ∧ issued_at ≤ issued_at'
    ∧ (version' = version → issued_at' = issued_at →
       cp_planet_semantic_digest (jn_control_plane n) ≠ [] →
       cp_planet_semantic_digest (jn_control_plane n')
       = cp_planet_semantic_digest (jn_control_plane n)).
Proof.
  intros Hm Hnd Hn Hn' Hid Hv Ht.
  destruct (kept_network a b n n' Hm Hnd Hn Hn' Hid) as [Hle _].
  destruct (Hle _ Hv) as (v' & Hv' & ? & Hi). destruct (Hi _ Ht) as (t' & Ht' & ? & ?).
  by exists v', t'.
Qed.

(** the controller of a joined network never changes: a key the network is
    pinned to stays the same through every move of the agent, an enrolment whose
    first half ran earlier included; only leaving the network releases it. *)
Theorem pinned_controller_kept (a b : Agent) (n n' : JoinedNetwork) :
  agent_moves a b →
  NoDup (map jn_id (ag_networks (an_state a))) →
  n ∈ ag_networks (an_state a) → n' ∈ ag_networks (an_state b) → jn_id n' = jn_id n →
  cp_pinned_controller_public_key (jn_control_plane n) ≠ [] →
  cp_pinned_controller_public_key (jn_control_plane n')
  = cp_pinned_controller_public_key (jn_control_plane n).
Proof.
  intros Hm Hnd Hn Hn' Hid. by destruct (kept_network a b n n' Hm Hnd Hn Hn' Hid) as [_ Hk].
Qed.

(** What an action the agent takes rests on. *)
Definition action_sound (now : Z) (device_id : DeviceId) (identity : SigningKey)
    (target : AuthorizationRefreshTarget) (action : AuthorizationRefreshAction) : Prop :=
  let fresh m := manifest_valid (ft_pinned target) now m ∧ auth_network_id m = ft_network_id target
    ∧ ∀ epoch, ft_authorization_epoch target = Some epoch → epoch ≤ auth_authorization_epoch m in
  match action with
  | Revoke => ∃ m, fresh m ∧ ∀ member,
      List.find (λ member, bool_decide (am_device_id member = device_id)) (auth_active_members m)
        = Some member →
      am_device_public_key member ≠ public_bytes identity
      ∨ am_certificate_id member ≠ cert_id (ft_certificate target)
  | UpdateManifest m => fresh m ∧ authorized m (ft_certificate target)
  | Update certificate network_key m credential =>
      fresh m ∧ certificate_valid (ft_pinned target) now certificate ∧ authorized m certificate
      ∧ cert_id certificate = cert_id (ft_certificate target)
      ∧ mc_network_id (cert_claims certificate) = ft_network_id target
      ∧ mc_device_id (cert_claims certificate) = device_id
      ∧ mc_device_public_key (cert_claims certificate) = public_bytes identity
      ∧ length network_key = 32%nat
      ∧ (ft_turn_credential_required target = true → is_Some credential)
  end.
Lemma check_authorization_Ok target oldest now m u :
  check_authorization target oldest now m = Ok u →
  manifest_valid (ft_pinned target) now m ∧ auth_network_id m = ft_network_id target
  ∧ ∀ epoch, oldest = Some epoch → epoch ≤ auth_authorization_epoch m.
Proof.
  unfold check_authorization, failed. intros Hc. inv_ok.
  match goal with Hv : auth_verify_from_controller _ _ _ = _, Hn : ¬ (_ ≠ _) |- _ =>
    apply auth_verify_iff in Hv; apply dec_stable in Hn end.
  split_and!; [done|done|]. intros epoch ->. cbn in Hc. by apply Z.ltb_ge in Hc.
Qed.
Lemma accept_refresh_sound device_id identity target oldest now response action :
  (∀ epoch, ft_authorization_epoch target = Some epoch → epoch ≤ oldest) →
  accept_refresh device_id identity target oldest now response = Ok action →
  action_sound now device_id identity target action.
Proof.
  unfold accept_refresh, failed. intros Hold Ha. apply bind_Ok in Ha as (u & Hc & Ha).
  apply check_authorization_Ok in Hc as (Hv & Hn & He). specialize (He _ eq_refl).
  assert (∀ epoch, ft_authorization_epoch target = Some epoch →
    epoch ≤ auth_authorization_epoch (rf_authorization response)) as He'
    by (intros epoch Hepoch; specialize (Hold _ Hepoch); lia).
  destruct (rf_revoked response).
  - destruct (existsb _ _) eqn:Hex; [done|]. injection Ha as <-.
    exists (rf_authorization response). split; [done|]. intros member [Hin Hd]%List.find_some.
    apply bool_decide_eq_true in Hd. apply list_elem_of_In in Hin.
    apply (proj1 (existsb_not_elem _ _) Hex) in Hin. unfold is_this_member in Hin.
    rewrite Hd, bool_decide_eq_true_2 in Hin by done.
    apply andb_false_iff in Hin as [Hin|Hin]; apply bool_decide_eq_false in Hin; auto.
  - inv_ok. repeat match goal with Hne : ¬ (_ ≠ _) |- _ => apply dec_stable in Hne end.
    match goal with Hk : NetworkKey_from_slice _ = _ |- _ => unfold NetworkKey_from_slice in Hk end.
    inv_ok. subst action. split_and!; try done.
    + by eapply cert_verify_iff.
    + by apply authorizes_iff.
    + match goal with Hk : try_into 32 _ = Some _ |- _ => by apply try_into_Some in Hk as [_ Hk] end.
    + intros Hreq. match goal with Ht : _ && _ = false |- _ => rewrite Hreq in Ht; cbn in Ht end.
      match goal with Ht : is_none _ = false |- _ => apply negb_false_iff, is_some_true in Ht end.
      done.
Qed.

(** a refreshed authorization is only acted on when the pinned controller
    signed it: leaving a network takes a current signed manifest of that network,
    no older than the one known, that does not name this membership; a new
    certificate and key come with a signed manifest that authorises them for this
    device, identity and certificate. *)
Theorem refresh_action_sound (env : AgentEnv) (device_id : DeviceId) (identity : SigningKey)
    (target : AuthorizationRefreshTarget) (action : AuthorizationRefreshAction) :
  fetch_authorization_action env device_id identity target = Ok action →
  action_sound (ne_now env) device_id identity target action.
Proof.
  unfold fetch_authorization_action, failed. intros Ha.
  apply bind_Ok in Ha as (m & Hget & Ha). apply bind_Ok in Ha as (u & Hc & Ha).
  apply check_authorization_Ok in Hc as (Hv & Hn & He).
  destruct (List.find _ _) as [member|] eqn:Hf.
  2: { injection Ha as <-. exists m. split; [done|]. intros member. by rewrite Hf. }
  destruct (_ || _) eqn:Hother.
  { injection Ha as <-. exists m. split; [done|]. intros member'. rewrite Hf. intros [= <-].
    apply orb_true_iff in Hother as [Ho|Ho]; apply bool_decide_eq_true in Ho; auto. }
  destruct (_ && _) eqn:Hkeep.
  - injection Ha as <-. apply andb_true_iff in Hkeep as [[Hz _]%andb_true_iff _].
    split; [done|by apply authorizes_iff].
  - inv_ok. eapply accept_refresh_sound; [|done]. done.
Qed.
End documents.

(** ** Witnesses *)
Definition alice_newer : Agent :=
  (apply_refreshed_planet (agent_env 160)
     (default (mkPlanetRefreshTarget net_b "" "" None []) (planet_refresh_target alice_joined))
     (planet_at 120) alice_agent).2.
Definition only_network (a : Agent) : JoinedNetwork := default bob_network (head (ag_networks (an_state a))).
Lemma only_network_in (a : Agent) :
  is_empty (ag_networks (an_state a)) = false → only_network a ∈ ag_networks (an_state a).
Proof. unfold only_network. destruct (ag_networks (an_state a)); [done|]. intros _. by left. Qed.
Definition alice_target : AuthorizationRefreshTarget :=
  default (mkAuthorizationRefreshTarget net_b "" None [] bob_certificate None true)
    (authorization_refresh_target ∅ 160 alice_joined).
Lemma one_network_NoDup : NoDup (map jn_id (ag_networks (an_state alice_agent))).
Proof. apply NoDup_singleton. Qed.
Lemma planet_never_rolls_back_witness :
  ∃ version issued_at,
    cp_planet_manifest_version (jn_control_plane (only_network alice_newer)) = Some version
    ∧ cp_planet_last_issued_at (jn_control_plane (only_network alice_newer)) = Some issued_at
    ∧ 2 ≤ version ∧ 100 ≤ issued_at
    ∧ (version = 2 → issued_at = 100 →
       cp_planet_semantic_digest (jn_control_plane alice_joined) ≠ [] →
       cp_planet_semantic_digest (jn_control_plane (only_network alice_newer))
       = cp_planet_semantic_digest (jn_control_plane alice_joined)).
Proof.
  apply (planet_never_rolls_back alice_agent alice_newer alice_joined (only_network alice_newer) 2 100).
  - apply move_planet.
  - apply one_network_NoDup.
  - by apply list_elem_of_singleton.
  - apply only_network_in. by vm_compute.
  - vm_decide.
  - by vm_compute.
  - by vm_compute.
Defined.
Lemma pinned_controller_kept_witness :
  cp_pinned_controller_public_key (jn_control_plane (only_network alice_newer)) = controller_public.
Proof.
  apply (pinned_controller_kept alice_agent alice_newer alice_joined (only_network alice_newer)).
  - apply move_planet.
  - apply one_network_NoDup.
  - by apply list_elem_of_singleton.
  - apply only_network_in. by vm_compute.
  - vm_decide.
  - vm_decide.
Defined.
#[local] Instance action_eq_dec : EqDecision AuthorizationRefreshAction.
Proof. solve_decision. Defined.
Lemma refresh_action_sound_witness :
  action_sound 160 alice alice_key alice_target (UpdateManifest sample_authorization).
Proof. apply (refresh_action_sound (agent_env 160)). vm_decide. Defined.
