(* ===== verification/ControllerFacts.v ===== *)
(** * The controller's state: addresses, certificates and epochs *)
From S2P Require Import Prelude Net Text Ext Model ServiceIdentity Membership Authorization.
From S2P Require Import Planet Policy TransportHealth Request Responses Controller.
From S2P Require Import Concrete Samples.
#[local] Open Scope Z_scope.

Import Controller.

(** ** Address allocation *)
Section allocation.
Context `{UuidLib} `{Ed25519} `{IpNetLib} `{!IpNetLaws} `{HashOrder}.
Implicit Types (used : gset Z) (network : VirtualNetwork) (members : gmap DeviceId MembershipClaims).

(** A run of more values than a set holds has one outside it. *)
Lemma run_not_covered used c : ¬ ∀ x, c ≤ x < c + Z.of_nat (S (size used)) → x ∈ used.
Proof.
  intros Hall.
  assert (seqZ c (Z.of_nat (S (size used))) ⊆+ elements used) as Hsub.
  { apply NoDup_submseteq; [apply NoDup_seqZ|]. intros x Hx%elem_of_seqZ.
    apply elem_of_elements, Hall. lia. }
  apply submseteq_length in Hsub. rewrite length_seqZ, Nat2Z.id in Hsub.
  change (length (elements used)) with (size used) in Hsub. lia.
Qed.

Lemma first_free_v4_Some fuel used c last x :
  first_free_v4 fuel used c last = Some x →
  c ≤ x ≤ last ∧ x ∉ used ∧ ∀ y, c ≤ y < x → y ∈ used.
Proof.
  revert c. induction fuel as [|fuel IH]; intros c; cbn [first_free_v4]; [done|].
  destruct (last <? c) eqn:Hl; [done|]. apply Z.ltb_ge in Hl. case_bool_decide as Hc.
  - intros (Hx & Hn & Hall)%IH. split; [lia|]. split; [done|]. intros y Hy.
    destruct (decide (y = c)) as [->|]; [done|]. apply Hall. lia.
  - intros [= <-]. split; [lia|]. split; [done|lia].
Qed.
Lemma first_free_v4_None fuel used c last :
  first_free_v4 fuel used c last = None →
  ∀ x, c ≤ x ≤ last → x < c + Z.of_nat fuel → x ∈ used.
Proof.
  revert c. induction fuel as [|fuel IH]; intros c; cbn [first_free_v4]; [lia|].
  destruct (last <? c) eqn:Hl; [lia|]. case_bool_decide as Hc; [|done].
  intros Hn x Hx Hf. destruct (decide (x = c)) as [->|]; [done|]. apply (IH (c + 1)); [done|lia..].
Qed.
Lemma first_free_v4_exhausted used c last :
  first_free_v4 (S (size used)) used c last = None → ∀ x, c ≤ x ≤ last → x ∈ used.
Proof.
  intros Hn. destruct (decide (last < c + Z.of_nat (S (size used)))) as [Hl|Hl].
  - intros x Hx. eapply first_free_v4_None; [done..|lia].
  - destruct (run_not_covered used c). intros x Hx. eapply first_free_v4_None; [done|lia..].
Qed.

(** An IPv6 offset whose address exists and lies in the prefix. *)
Definition v6_offset_ok (prefix : Ipv6Net) (offset : Z) : Prop :=
  v6_contains prefix (v6_network prefix + offset) = true.
Lemma v6_offset_ok_iff prefix offset :
  0 ≤ offset → v6_offset_ok prefix offset ↔ offset < 2 ^ (128 - v6_prefix_len prefix).
Proof. intros Ho. unfold v6_offset_ok. rewrite v6_contains_spec. lia. Qed.
Lemma first_free_v6_Some fuel prefix used o x :
  1 ≤ o → first_free_v6 fuel prefix used (v6_network prefix) o = Some x →
  ∃ offset, o ≤ offset ∧ x = v6_network prefix + offset ∧ v6_contains prefix x = true ∧ x ∉ used
    ∧ ∀ y, o ≤ y < offset → v6_network prefix + y ∈ used.
Proof.
  revert o. induction fuel as [|fuel IH]; intros o Ho; cbn [first_free_v6]; [done|].
  destruct (_ <=? _); [done|]. destruct (v6_contains prefix (v6_network prefix + o)) eqn:Hc; cbn [negb]; [|done].
  case_bool_decide as Hu.
  - intros (offset & Hoff & -> & Hc' & Hn & Hall)%IH; [|lia]. exists offset.
    split; [lia|]. split_and!; [done..|]. intros y Hy.
    destruct (decide (y = o)) as [->|]; [done|]. apply Hall. lia.
  - intros [= <-]. exists o. split_and!; [lia|done..|lia].
Qed.
Lemma first_free_v6_None fuel prefix used o :
  1 ≤ o → first_free_v6 fuel prefix used (v6_network prefix) o = None →
  ∀ y, o ≤ y < o + Z.of_nat fuel → v6_offset_ok prefix y → v6_network prefix + y ∈ used.
Proof.
  revert o. induction fuel as [|fuel IH]; intros o Ho; cbn [first_free_v6]; [lia|].
  pose proof (v6_network_fits prefix) as Hfits.
  destruct (_ <=? _) eqn:Hbig.
  { intros _ y Hy Hok%v6_offset_ok_iff; [|lia]. apply Z.leb_le in Hbig. lia. }
  destruct (v6_contains _ _) eqn:Hc; cbn [negb].
  2: { intros _ y Hy Hok%v6_offset_ok_iff; [|lia].
       assert (v6_offset_ok prefix o) as Ho' by (apply v6_offset_ok_iff; lia).
       unfold v6_offset_ok in Ho'. congruence. }
  case_bool_decide as Hu; [|done]. intros Hn y Hy Hok.
  destruct (decide (y = o)) as [->|]; [done|]. apply (IH (o + 1)); [lia|done|lia|done].
Qed.
Lemma first_free_v6_exhausted prefix used :
  first_free_v6 (S (size used)) prefix used (v6_network prefix) 1 = None →
  ∀ y, 1 ≤ y → v6_offset_ok prefix y → v6_network prefix + y ∈ used.
Proof.
  intros Hn y Hy Hok.
  destruct (decide (y < 1 + Z.of_nat (S (size used)))) as [Hl|Hl].
  { by apply (first_free_v6_None (S (size used)) prefix used 1); [lia|..]. }
  destruct (run_not_covered used (v6_network prefix + 1)). intros x Hx.
  replace x with (v6_network prefix + (x - v6_network prefix)) by lia.
  apply v6_offset_ok_iff in Hok; [|lia].
  apply (first_free_v6_None (S (size used)) prefix used 1); [lia|done|lia|].
  apply v6_offset_ok_iff; lia.
Qed.

(** The host addresses of a network. *)
Definition host_v4 network (ip : Z) : Prop :=
  ∃ prefix, parse_ipv4net (vn_ipv4_prefix network) = Some prefix ∧ v4_prefix_len prefix < 31
    ∧ v4_network prefix < ip < v4_broadcast prefix.
Definition host_v6 network (ip : Z) : Prop :=
  ∃ text prefix, vn_ipv6_prefix network = Some text ∧ parse_ipv6net text = Some prefix
    ∧ v6_prefix_len prefix ≠ 128 ∧ v6_contains prefix ip = true ∧ v6_network prefix < ip.
Lemma elem_of_v4_addresses ip l : ip ∈ v4_addresses l ↔ V4 ip ∈ l.
Proof.
  unfold v4_addresses. rewrite list_elem_of_omap. split.
  - intros ([a|a] & Ha & Hip); [|done]. by injection Hip as ->.
  - intros Hip. by exists (V4 ip).
Qed.
Lemma elem_of_v6_addresses ip l : ip ∈ v6_addresses l ↔ V6 ip ∈ l.
Proof.
  unfold v6_addresses. rewrite list_elem_of_omap. split.
  - intros ([a|a] & Ha & Hip); [done|]. by injection Hip as ->.
  - intros Hip. by exists (V6 ip).
Qed.
Lemma elem_of_member_addresses a members :
  a ∈ member_addresses members ↔
    ∃ d c, members !! d = Some c ∧ a ∈ mc_assigned_addresses c.
Proof.
  unfold member_addresses. rewrite list_elem_of_In, in_concat. split.
  - intros (l & Hl & Ha). apply in_map_iff in Hl as (c & <- & Hc).
    apply list_elem_of_In, elem_of_hash_values in Hc as (d & Hd). exists d, c.
    by rewrite list_elem_of_In.
  - intros (d & c & Hd & Ha). exists (mc_assigned_addresses c).
    split; [|by apply list_elem_of_In]. apply in_map_iff. exists c. split; [done|].
    apply list_elem_of_In, elem_of_hash_values. eauto.
Qed.

Lemma allocate_ipv4_Some network members ip :
  allocate_ipv4_address network members = Some ip →
  host_v4 network ip ∧ V4 ip ∉ member_addresses members
  ∧ ∀ y, host_v4 network y → y < ip → V4 y ∈ member_addresses members.
Proof.
  unfold allocate_ipv4_address. intros (prefix & Hp & Ha)%bind_Some.
  destruct (31 <=? _) eqn:H31; [done|]. apply Z.leb_gt in H31.
  apply first_free_v4_Some in Ha as (Hr & Hn & Hall).
  rewrite elem_of_list_to_set, elem_of_v4_addresses in Hn.
  split_and!; [exists prefix; split_and!; [done..|lia|lia]|done|].
  intros y (prefix' & Hp' & _ & Hy) Hlt. rewrite Hp in Hp'. injection Hp' as <-.
  apply elem_of_v4_addresses. specialize (Hall y). rewrite elem_of_list_to_set in Hall.
  apply Hall. lia.
Qed.
Lemma allocate_ipv4_None network members ip :
  allocate_ipv4_address network members = None → host_v4 network ip →
  V4 ip ∈ member_addresses members.
Proof.
  unfold allocate_ipv4_address. intros Ha (prefix & Hp & Hlen & Hip). rewrite Hp in Ha. cbn in Ha.
  rewrite (proj2 (Z.leb_gt _ _)) in Ha by done.
  apply elem_of_v4_addresses. pose proof (first_free_v4_exhausted _ _ _ Ha ip) as He.
  rewrite elem_of_list_to_set in He. apply He. lia.
Qed.
Lemma allocate_ipv6_Some network members ip :
  allocate_ipv6_address network members = Some ip →
  host_v6 network ip ∧ V6 ip ∉ member_addresses members
  ∧ ∀ y, host_v6 network y → y < ip → V6 y ∈ member_addresses members.
Proof.
  unfold allocate_ipv6_address. intros (text & Ht & (prefix & Hp & Ha)%bind_Some)%bind_Some.
  destruct (_ =? 128) eqn:H128; [done|]. apply Z.eqb_neq in H128.
  apply first_free_v6_Some in Ha as (offset & Ho & -> & Hc & Hn & Hall); [|lia].
  rewrite elem_of_list_to_set, elem_of_v6_addresses in Hn.
  split_and!; [exists text, prefix; split_and!; [done..|lia]|done|].
  intros y (text' & prefix' & Ht' & Hp' & _ & _ & Hy) Hlt.
  rewrite Ht in Ht'. injection Ht' as <-. rewrite Hp in Hp'. injection Hp' as <-.
  apply elem_of_v6_addresses. specialize (Hall (y - v6_network prefix)).
  rewrite elem_of_list_to_set in Hall. replace (v6_network prefix + (y - v6_network prefix)) with y
    in Hall by lia. apply Hall. lia.
Qed.
Lemma allocate_ipv6_None network members ip :
  allocate_ipv6_address network members = None → host_v6 network ip →
  V6 ip ∈ member_addresses members.
Proof.
  unfold allocate_ipv6_address. intros Ha (text & prefix & Ht & Hp & Hlen & Hc & Hip).
  rewrite Ht in Ha. cbn in Ha.
  rewrite Hp in Ha. cbn in Ha. rewrite (proj2 (Z.eqb_neq _ _)) in Ha by done.
  apply elem_of_v6_addresses.
  pose proof (first_free_v6_exhausted prefix _ Ha (ip - v6_network prefix)) as He.
  rewrite elem_of_list_to_set in He. unfold v6_offset_ok in He.
  replace (v6_network prefix + (ip - v6_network prefix)) with ip in He by lia.
  apply He; [lia|done].
Qed.

(** addresses are allocated well.  An IPv4 address is handed out exactly
    when the prefix leaves a host address no member has, and then it is the
    least such address; the same for IPv6, although only as many offsets are
    tried as addresses are in use, and one more. *)
Theorem allocation_least_free network members :
  (match allocate_ipv4_address network members with
   | Some ip => host_v4 network ip ∧ V4 ip ∉ member_addresses members
       ∧ ∀ y, host_v4 network y → y < ip → V4 y ∈ member_addresses members
   | None => ∀ y, host_v4 network y → V4 y ∈ member_addresses members
   end)
  ∧ (match allocate_ipv6_address network members with
     | Some ip => host_v6 network ip ∧ V6 ip ∉ member_addresses members
         ∧ ∀ y, host_v6 network y → y < ip → V6 y ∈ member_addresses members
     | None => ∀ y, host_v6 network y → V6 y ∈ member_addresses members
     end).
Proof.
  split.
  - destruct (allocate_ipv4_address _ _) eqn:Ha; [by apply allocate_ipv4_Some|].
    intros y. by apply allocate_ipv4_None.
  - destruct (allocate_ipv6_address _ _) eqn:Ha; [by apply allocate_ipv6_Some|].
    intros y. by apply allocate_ipv6_None.
Qed.
End allocation.

(** Two members have the first two host addresses of the prefix. *)
Definition two_taken : gmap DeviceId MembershipClaims :=
  {[alice := claims_for alice alice_key 1; bob := claims_for bob bob_key 2]}.
Definition small_network (length : Z) : VirtualNetwork :=
  mkVirtualNetwork net_a "small" (cidr4 (ip4 100 64 0 0) length) None Preferred.
Lemma allocation_least_free_witness :
  allocate_ipv4_address (small_network 29) two_taken = Some (ip4 100 64 0 3)
  ∧ allocate_ipv4_address (small_network 30) two_taken = None
  ∧ ∀ y, host_v4 (small_network 30) y → V4 y ∈ member_addresses two_taken.
Proof.
  split; [vm_decide|].
  assert (allocate_ipv4_address (small_network 30) two_taken = None) as Hnone by vm_decide.
  split; [exact Hnone|].
  pose proof (proj1 (allocation_least_free (small_network 30) two_taken)) as Hall.
  rewrite Hnone in Hall. exact Hall.
Defined.
