(* ===== verification/ControllerStateFacts.v ===== *)
(** * What every request of the controller preserves *)
From S2P Require Import Prelude Net Text Ext Model ServiceIdentity Membership Authorization.
From S2P Require Import Planet Policy TransportHealth Request Responses Controller.
From S2P Require Import ControllerFacts.
#[local] Open Scope Z_scope.

Import Controller.

Section state.
Context `{UuidLib} `{Ed25519} `{IpNetLib} `{!IpNetLaws} `{HashOrder} `{SessionCrypto}.
Context `{!ControllerLib}.
Implicit Types (m : ControllerState) (n : ManagedNetwork) (s : Server) (env : Env).

(** ** The invariant *)
Definition host_address (network : VirtualNetwork) (a : IpAddr) : Prop :=
  match a with V4 ip => host_v4 network ip | V6 ip => host_v6 network ip end.
Record network_ok (id : NetworkId) n : Prop := {
  no_id : vn_id (mn_network n) = id;
  no_member d c : mn_members n !! d = Some c →
    mc_network_id c = id ∧ mc_device_id c = d ∧ len (mc_device_public_key c) = 32;
  no_certificate d c : mn_members n !! d = Some c → is_Some (mn_member_certificate_ids n !! d);
  no_disjoint d1 c1 d2 c2 a :
    mn_members n !! d1 = Some c1 → mn_members n !! d2 = Some c2 →
    a ∈ mc_assigned_addresses c1 → a ∈ mc_assigned_addresses c2 → d1 = d2;
  no_hosts d c a : mn_members n !! d = Some c → a ∈ mc_assigned_addresses c →
    host_address (mn_network n) a;
  no_v4 d c : mn_members n !! d = Some c → ∃ ip, V4 ip ∈ mc_assigned_addresses c;
  no_unique d1 d2 u : mn_member_certificate_ids n !! d1 = Some u →
    mn_member_certificate_ids n !! d2 = Some u → d1 = d2;
  no_revoked d u : mn_member_certificate_ids n !! d = Some u →
    mn_revoked_certificate_ids n !! u = None;
  no_not_nil d u : mn_member_certificate_ids n !! d = Some u → is_nil u = false;
  no_key : len (mn_network_key n) = 32;
  no_epochs : 1 ≤ mn_network_key_epoch n ≤ u64_max ∧ 1 ≤ mn_authorization_epoch n ≤ u64_max
    ∧ 1 ≤ mn_policy_epoch n ≤ u64_max;
}.
Record state_ok m : Prop := {
  so_network id n : cs_networks m !! id = Some n → network_ok id n;
  so_token t k : cs_enrollment_tokens m !! t = Some k → is_Some (cs_networks m !! et_network_id k);
}.
Definition server_ok s : Prop := state_ok (sv_memory s) ∧ state_ok (sv_disk s).

(** What the operating system's randomness promises: a drawn identifier is a
    version 4 one that is new, a drawn key has its length. *)
Definition fresh (u : Uuid) m : Prop :=
  is_nil u = false ∧ ∀ id n, cs_networks m !! id = Some n →
    (∀ d, mn_member_certificate_ids n !! d ≠ Some u) ∧ mn_revoked_certificate_ids n !! u = None.
Definition good_draws env m : Prop :=
  fresh (ce_uuid env) m ∧ ∀ key, ce_random env = Some key → len key = 32.

Definition fresh_b (u : Uuid) m : bool :=
  negb (is_nil u)
  && bool_decide (map_Forall (λ _ n, map_Forall (λ _ v, v ≠ u) (mn_member_certificate_ids n)
                     ∧ mn_revoked_certificate_ids n !! u = None) (cs_networks m)).
Definition good_draws_b env m : bool :=
  fresh_b (ce_uuid env) m && from_option (λ key, len key =? 32) true (ce_random env).
Lemma good_draws_b_true env m : good_draws_b env m = true → good_draws env m.
Proof.
  intros [[Hnil%negb_true_iff Hf%bool_decide_eq_true]%andb_true_iff Hk]%andb_true_iff.
  split; [split; [done|]|].
  - intros id n Hn. destruct (Hf id n Hn) as [Hids Hr]. split; [|done].
    intros d Hd. by apply (Hids d _ Hd).
  - intros key Hkey. rewrite Hkey in Hk. by apply Z.eqb_eq.
Qed.

(** ** How the primitives run *)
Lemma state_run s r s' : state s = (r, s') → r = Ok (sv_memory s) ∧ s' = s.
Proof. by intros [= <- <-]. Qed.
Lemma set_state_run m s r s' :
  set_state m s = (r, s') → r = Ok tt ∧ s' = mkServer m (sv_disk s) (sv_refresh_nonces s).
Proof. by intros [= <- <-]. Qed.
Lemma set_nonces_run nonces s r s' :
  set_nonces nonces s = (r, s') → r = Ok tt ∧ s' = mkServer (sv_memory s) (sv_disk s) nonces.
Proof. by intros [= <- <-]. Qed.
(** The state file afterwards is the one before or the memory. *)
Lemma write_state_run env s r s' :
  write_state env s = (r, s') →
  (s' = s ∧ r = Err Internal)
  ∨ s' = mkServer (sv_memory s) (sv_memory s) (sv_refresh_nonces s).
Proof.
  unfold write_state. intros Hr. run_handler Hr.
  destruct (ce_write env); run_handler Hr; naive_solver.
Qed.
End state.

(** Runs a request, through its primitives, in hypothesis [H]: one goal per way
    it returns, with the server it leaves. *)
Ltac run_request H :=
  repeat lazymatch type of H with
  | (_ ≫= _) ?s = (_, _) =>
      let Hrun := fresh "Hrun" in
      apply handler_bind_run in H as [(?x & ?s1 & Hrun & H)|(?e & Hrun & H)];
      run_request Hrun
  | lift _ _ = (_, _) => apply lift_run in H as [H ->]
  | read _ = (_, _) => apply read_run in H as [H ->]; try (injection H as ->); try discriminate H
  | state _ = (_, _) => apply state_run in H as [H ->]; try (injection H as ->); try discriminate H
  | set_state _ _ = (_, _) => apply set_state_run in H as [H ->]; try discriminate H
  | set_nonces _ _ = (_, _) => apply set_nonces_run in H as [H ->]; try discriminate H
  | write_state _ _ = (_, _) => apply write_state_run in H as [[-> H]| ->]
  | mret _ _ = (_, _) => apply ret_run in H as [H ->]
  end;
  try match goal with
  | Hx : Err _ = Ok _ |- _ => discriminate Hx
  | Hx : Ok _ = Err _ |- _ => discriminate Hx
  end;
  cbn [sv_memory sv_disk sv_refresh_nonces] in *.

Section preservation.
Context `{UuidLib} `{Ed25519} `{IpNetLib} `{!IpNetLaws} `{HashOrder} `{SessionCrypto}.
Context `{!ControllerLib} `{!MembershipSerde} `{!AuthorizationSerde} `{!PolicySerde} `{!PlanetSerde}.
Implicit Types (m : ControllerState) (n : ManagedNetwork) (s : Server) (env : Env).

(** ** Networks *)
Lemma with_network_ok m id n : state_ok m → network_ok id n → state_ok (with_network m id n).
Proof.
  intros [Hn Ht] Hok. split; cbn.
  - intros id' n' [[<- <-]|[_ Hl]]%lookup_insert_Some; [done|by apply Hn].
  - intros t k Hk. destruct (decide (id = et_network_id k)) as [->|Hne].
    + rewrite lookup_insert_eq. by eexists.
    + rewrite lookup_insert_ne by done. by eapply Ht.
Qed.
Lemma with_token_ok m t k :
  state_ok m → is_Some (cs_networks m !! et_network_id k) → state_ok (with_token m t k).
Proof.
  intros [Hn Ht] Hk. split; [exact Hn|]. cbn.
  intros t' k' [[<- <-]|[_ Hl]]%lookup_insert_Some; [done|by eapply Ht].
Qed.
Lemma new_network_ok network key :
  len key = 32 →
  network_ok (vn_id network) (mkManagedNetwork network ∅ key 1 1 ∅ ∅ 1 ManagedPolicy_default).
Proof.
  intros Hk. split; cbn; try done; intros *; by rewrite lookup_empty.
Qed.
Lemma next_epoch_bounds e : 1 ≤ e ≤ u64_max → e ≤ next_epoch e ∧ 1 ≤ next_epoch e ≤ u64_max.
Proof. unfold next_epoch, sat_add64, u64_max. lia. Qed.

(** Changes of the policy, and of claims that keep key and addresses. *)
Lemma with_policy_ok id n epoch p :
  1 ≤ epoch ≤ u64_max → network_ok id n → network_ok id (with_policy n epoch p).
Proof. intros He []. split; cbn; eauto. tauto. Qed.
Lemma with_same_claims_ok id n d c c' :
  mn_members n !! d = Some c → mc_network_id c' = mc_network_id c →
  mc_device_id c' = mc_device_id c → mc_device_public_key c' = mc_device_public_key c →
  mc_assigned_addresses c' = mc_assigned_addresses c →
  network_ok id n → network_ok id (with_members n (<[d := c']> (mn_members n))).
Proof.
  intros Hd Hn Hdev Hpk Ha [].
  assert (∀ d1 c1, <[d := c']> (mn_members n) !! d1 = Some c1 →
    ∃ c0, mn_members n !! d1 = Some c0 ∧ mc_network_id c1 = mc_network_id c0
      ∧ mc_device_id c1 = mc_device_id c0 ∧ mc_device_public_key c1 = mc_device_public_key c0
      ∧ mc_assigned_addresses c1 = mc_assigned_addresses c0) as Hback.
  { intros d1 c1 [[<- <-]|[_ Hl]]%lookup_insert_Some; eauto 10. }
  split; cbn; eauto.
  - intros d1 c1 (c0 & Hc0 & -> & -> & -> & _)%Hback. eauto.
  - intros d1 c1 (c0 & Hc0 & _)%Hback. eauto.
  - intros d1 c1 d2 c2 a (c3 & H3' & _ & _ & _ & ->)%Hback (c4 & H4' & _ & _ & _ & ->)%Hback. eauto.
  - intros d1 c1 a (c0 & Hc0 & _ & _ & _ & ->)%Hback. eauto.
  - intros d1 c1 (c0 & Hc0 & _ & _ & _ & ->)%Hback. eauto.
Qed.
Lemma without_member_ok id n d now : network_ok id n → network_ok id (without_member n d now).
Proof.
  intros []. split; cbn; try done.
  - intros d1 c1 [_ ?]%lookup_delete_Some. eauto.
  - intros d1 c1 [? ?]%lookup_delete_Some. rewrite lookup_delete_ne by done. eauto.
  - intros d1 c1 d2 c2 a [_ ?]%lookup_delete_Some [_ ?]%lookup_delete_Some. eauto.
  - intros d1 c1 a [_ ?]%lookup_delete_Some. eauto.
  - intros d1 c1 [_ ?]%lookup_delete_Some. eauto.
  - intros d1 d2 u [_ ?]%lookup_delete_Some [_ ?]%lookup_delete_Some. eauto.
  - intros d1 u [Hne Hu]%lookup_delete_Some. destruct (mn_member_certificate_ids n !! d) as [u'|] eqn:Hd; [|eauto].
    rewrite lookup_insert_ne; [eauto|]. intros ->. apply Hne. eauto.
  - intros d1 u [_ ?]%lookup_delete_Some. eauto.
  - destruct no_epochs0 as (? & ? & Hp). split_and!; try lia; destruct (_ || _); try lia;
      apply next_epoch_bounds in Hp; lia.
Qed.
Lemma rekeyed_ok id n key : len key = 32 → network_ok id n → network_ok id (rekeyed n (mkNetworkKey key)).
Proof.
  intros Hk []. split; cbn; try done; eauto.
  destruct no_epochs0 as (Hke & Ha & ?). apply next_epoch_bounds in Hke, Ha. lia.
Qed.

(** Enrolment. *)
Lemma assigned_addresses_spec network (members : gmap DeviceId MembershipClaims) d l :
  assigned_addresses_for_device network members d = Some l →
  (∃ ip, V4 ip ∈ l)
  ∧ ∀ a, a ∈ l → (∃ c, members !! d = Some c ∧ a ∈ mc_assigned_addresses c)
      ∨ (a ∉ member_addresses members ∧ host_address network a).
Proof.
  unfold assigned_addresses_for_device. set (old := default [] _). cbn zeta.
  intros (l1 & Hl1 & Hl)%bind_Some.
  assert ((∃ ip, V4 ip ∈ l1) ∧ ∀ a, a ∈ l1 → a ∈ old
    ∨ (a ∉ member_addresses members ∧ host_address network a)) as [Hv4 Hin1].
  { destruct (existsb ip_is_v4 old) eqn:He.
    - injection Hl1 as <-. split; [|auto]. apply existsb_elem in He as ([ip|ip] & Hip & Hv); [|done].
      by exists ip.
    - apply bind_Some in Hl1 as (ip & Hip & [= <-]). apply allocate_ipv4_Some in Hip as (? & ? & _).
      split; [exists ip; apply elem_of_app; right; by apply list_elem_of_singleton|].
      intros a [?| ->%list_elem_of_singleton]%elem_of_app; auto. }
  assert ((∃ ip, V4 ip ∈ l) ∧ ∀ a, a ∈ l → a ∈ old
    ∨ (a ∉ member_addresses members ∧ host_address network a)) as [Hv Hin].
  { destruct (_ && _) in Hl; [|by injection Hl as <-].
    apply bind_Some in Hl as (ip & Hip & [= <-]). apply allocate_ipv6_Some in Hip as (? & ? & _).
    split; [destruct Hv4 as [ip' ?]; exists ip'; apply elem_of_app; by left|].
    intros a [?| ->%list_elem_of_singleton]%elem_of_app; auto. }
  split; [done|]. intros a [Ho|?]%Hin; [|by right]. left. subst old.
  destruct (members !! d) as [c|]; [by exists c|by apply elem_of_nil in Ho].
Qed.
Lemma with_certificate_id_ok id n d u :
  mn_member_certificate_ids n !! d = Some u
  ∨ (mn_member_certificate_ids n !! d = None ∧ (∀ d', mn_member_certificate_ids n !! d' ≠ Some u)
     ∧ mn_revoked_certificate_ids n !! u = None ∧ is_nil u = false) →
  network_ok id n → network_ok id (with_certificate_id n d u).
Proof.
  intros Hu Hok. destruct Hu as [Hu|(Hd & Hu & Hr & Hnil)].
  { unfold with_certificate_id. rewrite insert_id by done. by destruct n. }
  destruct Hok. split; cbn; try done.
  - intros d1 c1 Hc1. destruct (decide (d = d1)) as [->|]; [rewrite lookup_insert_eq; by eexists|].
    rewrite lookup_insert_ne by done. eauto.
  - intros d1 d2 v [[<- <-]|[Hn1 Hv1]]%lookup_insert_Some [[<- Hv2]|[Hn2 Hv2]]%lookup_insert_Some.
    + done.
    + by apply Hu in Hv2.
    + subst v. by apply Hu in Hv1.
    + eauto.
  - intros d1 v [[<- <-]|[Hn1 Hv1]]%lookup_insert_Some; eauto.
  - intros d1 v [[<- <-]|[Hn1 Hv1]]%lookup_insert_Some; eauto.
Qed.
Lemma with_member_ok id n d c :
  is_Some (mn_member_certificate_ids n !! d) → mc_network_id c = id → mc_device_id c = d →
  len (mc_device_public_key c) = 32 →
  assigned_addresses_for_device (mn_network n) (mn_members n) d = Some (mc_assigned_addresses c) →
  network_ok id n → network_ok id (with_member n d c).
Proof.
  intros Hid Hn Hd Hk (Hv4 & Ha)%assigned_addresses_spec [].
  assert (∀ a d1 c1, a ∈ mc_assigned_addresses c → mn_members n !! d1 = Some c1 →
    a ∈ mc_assigned_addresses c1 → d = d1) as Hdis.
  { intros a d1 c1 Hc Hc1 Ha1. destruct (Ha a Hc) as [(c0 & Hc0 & Ha0)|[Hna _]]; [eauto|].
    destruct Hna. apply elem_of_member_addresses. eauto. }
  split; cbn; eauto.
  - intros d1 c1 [[<- <-]|[_ Hl]]%lookup_insert_Some; eauto.
  - intros d1 c1 [[<- <-]|[_ Hl]]%lookup_insert_Some; eauto.
  - intros d1 c1 d2 c2 a [[<- <-]|[Hn1 Hl1]]%lookup_insert_Some
      [[<- <-]|[Hn2 Hl2]]%lookup_insert_Some Ha1 Ha2; eauto.
    symmetry. eauto.
  - intros d1 c1 a [[<- <-]|[_ Hl]]%lookup_insert_Some Ha1; [|eauto].
    destruct (Ha a Ha1) as [(c0 & Hc0 & Ha0)|[_ Hh]]; [eauto|done].
  - intros d1 c1 [[<- <-]|[_ Hl]]%lookup_insert_Some; eauto.
  - destruct no_epochs0 as (? & ? & ?). unfold sat_add64, u64_max in *. lia.
Qed.

(** ** Requests *)
Lemma server_ok_memory s m nonces :
  server_ok s → state_ok m → server_ok (mkServer m (sv_disk s) nonces).
Proof. by intros [_ ?] ?. Qed.
Lemma server_ok_written m nonces : state_ok m → server_ok (mkServer m m nonces).
Proof. done. Qed.
Lemma find_managed_ok m id n :
  state_ok m → find_managed m id = Ok n → network_ok id n ∧ cs_networks m !! id = Some n.
Proof. intros [Hn _] Hf. unfold find_managed in Hf. inv_ok. eauto. Qed.

(** A goal about a server that kept, set or wrote its memory: only the new
    memory is left to justify. *)
Ltac server_ok_memory :=
  first [ assumption | apply server_ok_written | apply server_ok_memory; [assumption|] ].

Lemma create_network_ok env q s r s' :
  good_draws env (sv_memory s) → server_ok s → create_network env q s = (r, s') → server_ok s'.
Proof.
  intros [_ Hkey] Hok Hr. unfold create_network in Hr. run_request Hr; server_ok_memory.
  all: match goal with Hk : map_err _ (NetworkKey_generate _) = Ok _ |- _ =>
    unfold NetworkKey_generate in Hk end.
  all: inv_ok; subst; apply with_network_ok; [apply Hok|].
  all: apply (new_network_ok (mkVirtualNetwork _ _ _ _ _)); by apply Hkey.
Qed.
Lemma issue_token_ok env id q s r s' : server_ok s → issue_token env id q s = (r, s') → server_ok s'.
Proof.
  intros Hok Hr. unfold issue_token in Hr. run_request Hr; server_ok_memory.
  all: match goal with Hf : find_managed _ _ = Ok _ |- _ => apply find_managed_ok in Hf as [_ Hf] end;
    [|apply Hok]; apply with_token_ok; [apply Hok|by eexists].
Qed.
Lemma redeem_token_ok env q s r s' : server_ok s → redeem_token env q s = (r, s') →
  server_ok s' ∧ cs_networks (sv_memory s') = cs_networks (sv_memory s).
Proof.
  intros Hok Hr. unfold redeem_token in Hr. run_request Hr; try done.
  split; [|done]. server_ok_memory. destruct Hok as [[Hn Ht] Hd]. inv_ok.
  apply with_token_ok; [done|]. cbn. eauto.
Qed.
Lemma delete_network_ok env id s r s' : server_ok s → delete_network env id s = (r, s') → server_ok s'.
Proof.
  intros Hok Hr. unfold delete_network in Hr. run_request Hr; server_ok_memory.
  all: destruct Hok as [[Hn Ht] _]; split; cbn.
  all: try (by intros id' n' [_ ?]%lookup_delete_Some; apply Hn).
  all: intros t k [Hk Hne%bool_decide_eq_true]%lookup_retain; rewrite lookup_delete_ne by congruence.
  all: by eapply Ht.
Qed.
Lemma authorize_member_routes_ok env id d q s r s' :
  server_ok s → authorize_member_routes env id d q s = (r, s') → server_ok s'.
Proof.
  intros Hok Hr. unfold authorize_member_routes in Hr. run_request Hr; server_ok_memory.
  all: match goal with Hf : find_managed _ _ = Ok _ |- _ => apply find_managed_ok in Hf as [Hn _] end;
    [|apply Hok]; inv_ok; apply with_network_ok; [apply Hok|].
  all: by eapply with_same_claims_ok.
Qed.
Lemma update_policy_ok env id q s r s' :
  server_ok s → update_policy env id q s = (r, s') → server_ok s'.
Proof.
  intros Hok Hr. unfold update_policy in Hr. run_request Hr; server_ok_memory.
  all: match goal with Hf : find_managed _ _ = Ok _ |- _ => apply find_managed_ok in Hf as [Hn _] end;
    [|apply Hok]; apply with_network_ok; [apply Hok|]; apply with_policy_ok; [|done].
  all: apply next_epoch_bounds; apply Hn.
Qed.
Lemma remove_member_ok env id d s r s' :
  good_draws env (sv_memory s) → server_ok s → remove_member env id d s = (r, s') → server_ok s'.
Proof.
  intros [_ Hkey] Hok Hr. unfold remove_member in Hr. run_request Hr; server_ok_memory.
  all: match goal with Hf : find_managed _ _ = Ok _ |- _ => apply find_managed_ok in Hf as [Hn _] end;
    [|apply Hok].
  all: apply (without_member_ok _ _ d (ce_now env)) in Hn; apply with_network_ok; [apply Hok|]; try done.
  all: match goal with Hk : map_err _ (NetworkKey_generate _) = Ok _ |- _ =>
    unfold NetworkKey_generate in Hk end; inv_ok; subst; apply rekeyed_ok; [by apply Hkey|done].
Qed.
Lemma refresh_membership_ok env q s r s' :
  server_ok s → refresh_membership env q s = (r, s') →
  server_ok s' ∧ sv_memory s' = sv_memory s ∧ sv_disk s' = sv_disk s.
Proof. intros Hok Hr. unfold refresh_membership in Hr. by run_request Hr. Qed.
Lemma enroll_ok env q s r s' :
  good_draws env (sv_memory s) → server_ok s → enroll env q s = (r, s') → server_ok s'.
Proof.
  intros [Hfresh _] Hok Hr. unfold enroll in Hr.
  apply handler_bind_run in Hr as [(x & s1 & Hx & Hr)|(e & Hx & _)]; [|by run_request Hx].
  run_request Hx. apply handler_bind_run in Hr as [(x2 & s2 & Hredeem & Hr)|(e & Hredeem & _)];
    [|by eapply redeem_token_ok].
  apply redeem_token_ok in Hredeem as [Hok2 Hsame]; [|done].
  assert (fresh (ce_uuid env) (sv_memory s2)) as Hfresh2 by (unfold fresh; by rewrite Hsame).
  clear Hok Hfresh Hsame s. run_request Hr; server_ok_memory.
  all: match goal with Hf : find_managed _ _ = Ok _ |- _ =>
    apply find_managed_ok in Hf as [Hn Hl] end; [|apply Hok2].
  all: inv_ok; apply with_network_ok; [apply Hok2|].
  all: set (u := default (ce_uuid env) _).
  all: lazymatch type of Hn with network_ok _ ?n =>
    assert (network_ok (er_network_id q) (with_certificate_id n (er_device_id q) u)) as Hid end.
  all: try (apply with_certificate_id_ok; [|exact Hn]; subst u;
    destruct (mn_member_certificate_ids _ !! er_device_id q) eqn:Hid; [by left|];
    right; destruct Hfresh2 as [Hnil Hnew]; destruct (Hnew _ _ Hl); done).
  all: first [done|apply with_member_ok; cbn; try done].
  all: first [rewrite lookup_insert_eq; by eexists|by apply Z.eqb_eq].
Qed.

(** ** Opening a file the controller wrote *)
Lemma migrate_network_same draws v id n n' b :
  network_ok id n → migrate_network draws v id n = Ok (n', b) → n' = n.
Proof.
  intros [] Hm. unfold migrate_network in Hm. rewrite (proj2 (Z.eqb_eq (len (mn_network_key n)) 32)) in Hm by done.
  cbn in Hm. injection Hm as <- _.
  assert (missing_certificates n = []) as ->.
  { unfold missing_certificates. destruct (List.filter _ _) as [|d l] eqn:Hf; [done|].
    assert (d ∈ d :: l) as Hd by left. rewrite <-Hf, list_elem_of_In, List.filter_In in Hd.
    destruct Hd as [Hd%list_elem_of_In Hnone]. apply elem_of_hash_keys in Hd as [c Hc].
    apply no_certificate0 in Hc as [u Hu]. by rewrite Hu in Hnone. }
  unfold at_least_one. rewrite !(proj2 (Z.eqb_neq _ _)) by lia. by destruct n.
Qed.
Lemma migrate_entries_same draws v networks l b networks' b' :
  (∀ id n, networks !! id = Some n → network_ok id n) →
  (∀ e, e ∈ l → networks !! e.1 = Some e.2) →
  try_foldl (migrate_entry draws v) (networks, b) l = Ok (networks', b') → networks' = networks.
Proof.
  intros Hok. revert b. induction l as [|[id n] l IH]; intros b Hl Hf; cbn in Hf; [by simplify_eq|].
  apply bind_Ok in Hf as ([nets b2] & He & Hf). unfold migrate_entry in He.
  apply bind_Ok in He as ([n1 b1] & Hm & He). injection He as <- <-. cbn in Hm.
  assert (networks !! id = Some n) as Hn by (by apply (Hl (id, n)); left).
  apply migrate_network_same in Hm as ->; [|by apply Hok].
  cbn in Hf. rewrite insert_id in Hf by done. eapply IH; [|exact Hf]. intros e He. apply Hl. by right.
Qed.
Lemma open_state_ok draws now m s : state_ok m → open_state draws now m = Ok s →
  server_ok s ∧ cs_networks (sv_memory s) = cs_networks m.
Proof.
  intros Hok Ho. unfold open_state in Ho. apply bind_Ok in Ho as ([m1 migrated] & Hm & Ho).
  injection Ho as <-. unfold migrate_and_validate_controller_state in Hm.
  apply bind_Ok in Hm as (? & _ & Hm). apply bind_Ok in Hm as ([managed b] & Hf & Hm).
  apply bind_Ok in Hm as (? & _ & Hm). injection Hm as <- <-.
  apply migrate_entries_same in Hf as ->; [|apply Hok|intros [id n]; by rewrite elem_of_hash_iter].
  destruct Hok as [Hn Ht]. split; [|done].
  assert (state_ok (mkControllerState (Z.max (cs_schema_version m) CONTROLLER_STATE_SCHEMA_VERSION)
    (cs_signing_key m) (cs_admin_token m) (cs_networks m) (cs_enrollment_tokens m))) as Hnew by done.
  split; cbn; [done|]. by destruct (b || _).
Qed.

(** ** The running controller *)
Inductive controller_step : Server → Server → Prop :=
| step_request env call s r s' :
    good_draws env (sv_memory s) → serve env call s = (r, s') → controller_step s s'
| step_restart draws now s s' :
    open_state draws now (sv_disk s) = Ok s' → controller_step s s'.

Lemma serve_ok env call s r s' :
  good_draws env (sv_memory s) → server_ok s → serve env call s = (r, s') → server_ok s'.
Proof.
  intros Hd Hok Hs. destruct call; cbn [serve] in Hs;
    try (apply handler_bind_run in Hs as [(x & s1 & Hs & Hr)|(e & Hs & _)];
         [apply ret_run in Hr as [_ ->]|]).
  all: first [by eapply create_network_ok | by eapply issue_token_ok | by eapply enroll_ok
    | by eapply delete_network_ok | by eapply authorize_member_routes_ok | by eapply remove_member_ok
    | by eapply update_policy_ok | by eapply refresh_membership_ok].
Qed.
Lemma initial_ok key token : state_ok (initialize_new_controller_state key token).
Proof. split; cbn; intros *; by rewrite lookup_empty. Qed.
Lemma reachable_ok s s' : rtc controller_step s s' → server_ok s → server_ok s'.
Proof.
  induction 1 as [|s s1 s' Hs _ IH]; [done|]. intros Hok. apply IH.
  destruct Hs; [by eapply serve_ok|]. eapply open_state_ok; [apply Hok|done].
Qed.
End preservation.
