(* ===== verification/ControllerSamples.v ===== *)
(** * A sample controller for the witnesses

    A controller that created a network and enrolled two members, built by
    serving requests one after the other. *)
From S2P Require Import Prelude Net Text Ext Concrete Model ServiceIdentity Membership.
From S2P Require Import Authorization.
From S2P Require Import RelayProto Session RootProto Planet Policy TransportHealth.
From S2P Require Import Samples Request Responses Controller ControllerStateFacts.
#[local] Open Scope Z_scope.

Import Controller.

#[export] Instance controller_planet_serde : PlanetSerde :=
  {| serde_planet_v1 := const_serde _; serde_planet_v2 := const_serde _;
     serde_planet_v3 := const_serde _; serde_planet_v4 := const_serde _;
     serde_planet_v5 := const_serde _; serde_planet_semantic := const_serde _ |}.
#[export] Instance controller_concrete : ControllerLib := {|
  controller_uuid_text := uuid_text_concrete;
  base64_encode := of_bytes;
  hmac_sha1 k m := Some (be_bytes 20 (from_be k + from_be m));
  url_with_pairs base pairs :=
    (base ++ String.concat "&" (map (λ p, p.1 ++ "=" ++ p.2) pairs))%string;
|}.

(** ** Requests one after the other *)
Definition run_call (s : Server) (c : Env * Call) : Server := (serve c.1 c.2 s).2.
Definition run_calls (s : Server) (calls : list (Env * Call)) : Server := foldl run_call s calls.
Fixpoint good_calls (s : Server) (calls : list (Env * Call)) : bool :=
  match calls with
  | [] => true
  | c :: calls => good_draws_b c.1 (sv_memory s) && good_calls (run_call s c) calls
  end.
Lemma run_calls_reachable s calls :
  good_calls s calls = true → rtc controller_step s (run_calls s calls).
Proof.
  revert s. induction calls as [|c calls IH]; intros s; [reflexivity|].
  cbn [good_calls]. intros [Hd%good_draws_b_true Hg]%andb_true_iff.
  eapply rtc_l; [|by apply IH]. eapply step_request; [exact Hd|]. apply surjective_pairing.
Qed.

Lemma ran_ok {E A} (x : result E A * Server) d : is_ok x.1 = true → x = (Ok (unwrap x.1 d), x.2).
Proof. by destruct x as [[]]. Qed.
Lemma ran_unit {E} (x : result E unit * Server) : is_ok x.1 = true → x = (Ok tt, x.2).
Proof. by destruct x as [[[]|]]. Qed.

(** ** The sample *)
Definition admin_token : Uuid := uuid_of 99.
Definition fresh_controller : Server :=
  let m := initialize_new_controller_state (be_bytes 32 1) admin_token in mkServer m m ∅.
Definition admin_env (now uuid : Z) : Env :=
  mkEnv now (secs now) (uuid_of uuid) (Some (be_bytes 32 uuid))
    (Some (uuid_to_string admin_token)) Written None.
Definition device_env (now uuid : Z) : Env :=
  mkEnv now (secs now) (uuid_of uuid) (Some (be_bytes 32 uuid)) None Written None.
Definition new_network : UpsertNetworkRequest :=
  mkUpsertNetworkRequest (Some net_a) "office" (cidr4 (ip4 100 64 0 0) 24)
    (Some (cidr6 (2 ^ 127) 64)) Preferred.
Definition enrolment (device : DeviceId) (key : SigningKey) (token : Z) : EnrollmentRequest :=
  mkEnrollmentRequest net_a device (public_bytes key) (uuid_to_string (uuid_of token)).
Definition set_up : list (Env * Call) :=
  [(admin_env 100 60, CreateNetwork new_network);
   (admin_env 101 70, IssueToken net_a (mkTokenRequest None));
   (admin_env 102 71, IssueToken net_a (mkTokenRequest (Some 5)))].
Definition enrol_members : list (Env * Call) :=
  [(device_env 110 31, Enroll (enrolment alice alice_key 70));
   (device_env 111 32, Enroll (enrolment bob bob_key 71))].
Definition open_for_members : Server := run_calls fresh_controller set_up.
Definition two_members : Server := run_calls open_for_members enrol_members.
Lemma open_for_members_reachable : rtc controller_step fresh_controller open_for_members.
Proof. apply run_calls_reachable. by vm_compute. Qed.
Lemma two_members_reachable : rtc controller_step fresh_controller two_members.
Proof.
  etrans; [apply open_for_members_reachable|]. apply run_calls_reachable. by vm_compute.
Qed.
Definition managed (s : Server) : ManagedNetwork :=
  default (mkManagedNetwork (mkVirtualNetwork net_b "" "" None Preferred) ∅ [] 0 0 ∅ ∅ 0
    ManagedPolicy_default) (cs_networks (sv_memory s) !! net_a).
Example two_members_addresses :
  (mc_assigned_addresses <$> mn_members (managed two_members) !! alice)
    = Some [addr 1; V6 (2 ^ 127 + 1)]
  ∧ (mc_assigned_addresses <$> mn_members (managed two_members) !! bob)
    = Some [addr 2; V6 (2 ^ 127 + 2)].
Proof. vm_decide. Qed.
