(* ===== verification/ControllerDocumentFacts.v ===== *)
(** * The documents the controller signs: whom they authorise, and whom no longer *)
From S2P Require Import Prelude Request Net Text Ext Concrete Model ServiceIdentity Membership.
From S2P Require Import Authorization Responses RelayProto Session RootProto Planet Policy.
From S2P Require Import Joined DataPlane PeerDirectory Observability TransportHealth.
From S2P Require Import AgentSession Controller Samples ControllerFacts ControllerStateFacts.
From S2P Require Import ControllerSamples.
#[local] Open Scope Z_scope.

(** ** Every request and restart keeps the state consistent *)
Import Controller.

Section consistency.
Context `{UuidLib} `{Ed25519} `{IpNetLib} `{!IpNetLaws} `{HashOrder} `{SessionCrypto}.
Context `{!ControllerLib} `{!MembershipSerde} `{!AuthorizationSerde} `{!PolicySerde} `{!PlanetSerde}.

(** C9: the controller's state stays consistent.  Whatever requests arrive,
    whether they succeed or fail half-way, and across restarts from whatever
    state file was left, in memory and in the file: members of a network have no
    address in common and only host addresses of its prefixes; each has an IPv4
    address, a key of 32 bytes and a certificate identifier of its own, which is
    not revoked; epochs are positive; and enrolment tokens name networks that
    exist. *)
Theorem controller_state_consistent key token s :
  let m := initialize_new_controller_state key token in
  rtc controller_step (mkServer m m ∅) s →
  ∀ m' id n, m' = sv_memory s ∨ m' = sv_disk s → cs_networks m' !! id = Some n →
    (∀ d1 c1 d2 c2 a, mn_members n !! d1 = Some c1 → mn_members n !! d2 = Some c2 →
       a ∈ mc_assigned_addresses c1 → a ∈ mc_assigned_addresses c2 → d1 = d2)
    ∧ (∀ d c, mn_members n !! d = Some c →
         mc_network_id c = id ∧ mc_device_id c = d ∧ len (mc_device_public_key c) = 32
         ∧ (∃ ip, V4 ip ∈ mc_assigned_addresses c)
         ∧ (∀ a, a ∈ mc_assigned_addresses c → host_address (mn_network n) a)
         ∧ ∃ u, mn_member_certificate_ids n !! d = Some u
             ∧ mn_revoked_certificate_ids n !! u = None
             ∧ ∀ d', mn_member_certificate_ids n !! d' = Some u → d' = d)
    ∧ (1 ≤ mn_network_key_epoch n ≤ u64_max ∧ 1 ≤ mn_authorization_epoch n ≤ u64_max
       ∧ 1 ≤ mn_policy_epoch n ≤ u64_max)
    ∧ (∀ t k, cs_enrollment_tokens m' !! t = Some k → is_Some (cs_networks m' !! et_network_id k)).
Proof.
  intros m Hr m' id n Hm' Hn.
  assert (server_ok s) as [Hmem Hdisk] by (eapply reachable_ok; [exact Hr|]; split; apply initial_ok).
  assert (state_ok m') as Hok by (by destruct Hm' as [->| ->]).
  pose proof (so_network _ Hok id n Hn) as Hnet.
  split; [apply (no_disjoint _ _ Hnet)|]. split; [|split; [apply (no_epochs _ _ Hnet)|apply Hok]].
  intros d c Hc. destruct (no_member _ _ Hnet d c Hc) as (? & ? & ?).
  destruct (no_certificate _ _ Hnet d c Hc) as [u Hu].
  split_and!; [done..|by eapply no_v4|intros a; by eapply no_hosts|].
  exists u. split_and!; [done|by eapply no_revoked|]. intros d' Hd'. by eapply no_unique.
Qed.
End consistency.

Lemma controller_state_consistent_witness :
  is_Some (mn_members (managed two_members) !! alice)
  ∧ is_Some (mn_members (managed two_members) !! bob)
  ∧ (∀ d1 c1 d2 c2 a, mn_members (managed two_members) !! d1 = Some c1 →
       mn_members (managed two_members) !! d2 = Some c2 →
       a ∈ mc_assigned_addresses c1 → a ∈ mc_assigned_addresses c2 → d1 = d2).
Proof.
  split; [vm_decide|]. split; [vm_decide|].
  eapply proj1, (controller_state_consistent (be_bytes 32 1) admin_token two_members
    two_members_reachable (sv_memory two_members) net_a (managed two_members)).
  - left. reflexivity.
  - apply default_Some. vm_decide.
Defined.


Section documents.
Context `{UuidLib} `{Ed25519} `{!Ed25519Laws} `{IpNetLib} `{!IpNetLaws} `{HashOrder} `{SessionCrypto}.
Context `{!ControllerLib} `{!MembershipSerde} `{!AuthorizationSerde} `{!PolicySerde} `{!PlanetSerde}.
Implicit Types (m : ControllerState) (n : ManagedNetwork) (s : Server) (env : Env).

(** ** The authorization manifest *)
Lemma elem_of_active n (a : AuthorizedMembership) :
  a ∈ omap (active_member n) (hash_iter (mn_members n)) ↔
    ∃ claims, mn_members n !! am_device_id a = Some claims
      ∧ mn_member_certificate_ids n !! am_device_id a = Some (am_certificate_id a)
      ∧ am_device_public_key a = mc_device_public_key claims
      ∧ am_network_key_epoch a = mn_network_key_epoch n.
Proof.
  rewrite list_elem_of_omap. split.
  - intros ([d claims] & Hin%elem_of_hash_iter & Ha). unfold active_member in Ha. cbn in Ha.
    apply bind_Some in Ha as (u & Hu & [= <-]). by exists claims.
  - intros (claims & Hd & Hu & Hk & He). exists (am_device_id a, claims).
    split; [by apply elem_of_hash_iter|]. unfold active_member. cbn. rewrite Hu. cbn.
    destruct a. cbn in *. by subst.
Qed.
Lemma sign_authorization_iff id n key now manifest c :
  network_ok id n → sign_authorization n key now = Ok manifest →
  authorizes manifest c = true ↔
    mc_network_id (cert_claims c) = id ∧ cert_network_key_epoch c = mn_network_key_epoch n
    ∧ mn_member_certificate_ids n !! mc_device_id (cert_claims c) = Some (cert_id c)
    ∧ ∃ claims, mn_members n !! mc_device_id (cert_claims c) = Some claims
        ∧ mc_device_public_key (cert_claims c) = mc_device_public_key claims.
Proof.
  intros Hok Hs. rewrite authorizes_iff, (auth_sign_authorizes _ _ _ _ _ _ _ _ _ _ Hs), elem_of_active.
  cbn. rewrite (no_id _ _ Hok). split.
  - intros (? & ? & _ & claims & ? & ? & ? & _). eauto 10.
  - intros (? & He & Hu & claims & ? & ?). split_and!; [done|done| |by exists claims].
    intros [x Hx]%elem_of_hash_keys. by rewrite (no_revoked _ _ Hok _ _ Hu) in Hx.
Qed.

(** C11: the authorization manifest is exact.  In every state the controller
    reaches, the manifest it signs for a network authorises exactly the
    certificates of this network, of the current key epoch, whose device is a
    member with this certificate identifier and this public key; and the agents
    accept the manifest for its ninety seconds. *)
Theorem authorization_exact k0 token s id n key now manifest c t :
  let m := initialize_new_controller_state k0 token in
  rtc controller_step (mkServer m m ∅) s →
  cs_networks (sv_memory s) !! id = Some n → sign_authorization n key now = Ok manifest →
  0 ≤ now → now + MANIFEST_LIFETIME ≤ u64_max → now ≤ t ≤ now + MANIFEST_LIFETIME →
  is_ok (auth_verify_from_controller manifest (public_bytes key) t) = true
  ∧ (authorizes manifest c = true ↔
      mc_network_id (cert_claims c) = id ∧ cert_network_key_epoch c = mn_network_key_epoch n
      ∧ mn_member_certificate_ids n !! mc_device_id (cert_claims c) = Some (cert_id c)
      ∧ ∃ claims, mn_members n !! mc_device_id (cert_claims c) = Some claims
          ∧ mc_device_public_key (cert_claims c) = mc_device_public_key claims).
Proof.
  intros m Hr Hn Hs H0' Hmax Ht.
  assert (server_ok s) as [Hok _] by (eapply reachable_ok; [exact Hr|]; split; apply initial_ok).
  split; [|eapply sign_authorization_iff; [by eapply so_network|exact Hs]].
  apply is_ok_true. exists tt. apply auth_verify_iff. eapply auth_sign_valid; [exact Hs|..].
  - unfold wrap_add64, wrap64. rewrite Z.mod_small; [lia|]. unfold u64_max in Hmax. lia.
  - unfold sat_add64, u64_max in *. lia.
Qed.

(** ** Networks only move forward while the controller runs *)
(** The network key changes to one that was drawn. *)
Record evolves (drawn : list bytes) n n' : Prop := {
  ev_key : mn_network_key n' = mn_network_key n ∨ mn_network_key n' ∈ drawn;
  ev_epochs : mn_network_key_epoch n ≤ mn_network_key_epoch n'
    ∧ mn_authorization_epoch n ≤ mn_authorization_epoch n' ∧ mn_policy_epoch n ≤ mn_policy_epoch n';
  ev_revoked u : is_Some (mn_revoked_certificate_ids n !! u) →
    is_Some (mn_revoked_certificate_ids n' !! u);
  ev_certificate d u : mn_member_certificate_ids n !! d = Some u →
    mn_member_certificate_ids n' !! d = Some u ∨ is_Some (mn_revoked_certificate_ids n' !! u);
}.
#[local] Instance evolves_preorder drawn : PreOrder (evolves drawn).
Proof.
  split; [intros n; split; [by left|lia|auto..]|]. intros n1 n2 n3 [Hk1 ? Hr1 Hc1] [Hk2 ? Hr2 Hc2].
  split; [destruct Hk2 as [->|]; auto|lia|auto|]. intros d u Hu. destruct (Hc1 d u Hu) as [Hu2|Hu2]; [auto|right; auto].
Qed.
Lemma evolves_more drawn drawn' n n' : drawn ⊆ drawn' → evolves drawn n n' → evolves drawn' n n'.
Proof. intros Hd [[Hk|Hk] ? ? ?]; split; auto. Qed.
Definition memory_evolves (drawn : list bytes) m m' : Prop :=
  ∀ id n n', cs_networks m !! id = Some n → cs_networks m' !! id = Some n' → evolves drawn n n'.
Lemma same_evolves drawn m m' : cs_networks m' = cs_networks m → memory_evolves drawn m m'.
Proof. intros Heq id n n' Hn Hn'. rewrite Heq, Hn in Hn'. by injection Hn' as <-. Qed.
Lemma with_network_evolves drawn m id n n' :
  cs_networks m !! id = Some n → evolves drawn n n' → memory_evolves drawn m (with_network m id n').
Proof.
  intros Hn He id1 n1 n2 Hn1 Hn2. cbn in Hn2. apply lookup_insert_Some in Hn2 as [[<- <-]|[_ Hn2]].
  - rewrite Hn in Hn1. by injection Hn1 as <-.
  - rewrite Hn1 in Hn2. by injection Hn2 as <-.
Qed.
Lemma new_network_evolves drawn m id n' :
  cs_networks m !! id = None → memory_evolves drawn m (with_network m id n').
Proof.
  intros Hn id1 n1 n2 Hn1 Hn2. cbn in Hn2. apply lookup_insert_Some in Hn2 as [[<- <-]|[_ Hn2]]; [congruence|].
  rewrite Hn1 in Hn2. by injection Hn2 as <-.
Qed.
Lemma with_certificate_id_evolves drawn n d u :
  mn_member_certificate_ids n !! d = None ∨ mn_member_certificate_ids n !! d = Some u →
  evolves drawn n (with_certificate_id n d u).
Proof.
  intros Hd. split; cbn; [by left|lia|auto|]. intros d' u' Hu'. left.
  destruct (decide (d = d')) as [<-|]; [|by rewrite lookup_insert_ne].
  rewrite lookup_insert_eq. destruct Hd; congruence.
Qed.
Lemma with_member_evolves drawn id n d c : network_ok id n → evolves drawn n (with_member n d c).
Proof.
  intros Hn. split; cbn; [by left| |auto..]. destruct (no_epochs _ _ Hn) as (_ & ? & _).
  unfold sat_add64, u64_max in *. lia.
Qed.
Lemma without_member_evolves drawn id n d now : network_ok id n → evolves drawn n (without_member n d now).
Proof.
  intros Hn. split; cbn.
  - by left.
  - destruct (no_epochs _ _ Hn) as (_ & _ & [? _]%next_epoch_bounds). destruct (_ || _); lia.
  - intros u [x Hx]. destruct (mn_member_certificate_ids n !! d) as [u'|]; [|by eexists].
    destruct (decide (u' = u)) as [->|]; [rewrite lookup_insert_eq|rewrite lookup_insert_ne by done];
      by eexists.
  - intros d' u Hu. destruct (decide (d = d')) as [<-|Hne].
    + right. rewrite Hu, lookup_insert_eq. by eexists.
    + left. by rewrite lookup_delete_ne.
Qed.
Lemma rekeyed_evolves drawn id n key :
  network_ok id n → NetworkKey_to_bytes key ∈ drawn → evolves drawn n (rekeyed n key).
Proof.
  intros Hn Hk. destruct (no_epochs _ _ Hn) as ([? _]%next_epoch_bounds & [? _]%next_epoch_bounds & _).
  split; cbn; [by right|lia|auto..].
Qed.
Lemma removed_evolves drawn id n d now key :
  network_ok id n → NetworkKey_to_bytes key ∈ drawn →
  evolves drawn n (rekeyed (without_member n d now) key).
Proof.
  intros Hn Hk. etrans; [by apply (without_member_evolves drawn _ _ d now Hn)|].
  eapply rekeyed_evolves; [by apply without_member_ok|done].
Qed.

(** Every request that ran to some end. *)
Lemma with_policy_evolves drawn id n p : network_ok id n →
  evolves drawn n (with_policy n (next_epoch (mn_policy_epoch n)) p).
Proof.
  intros Hn. destruct (no_epochs _ _ Hn) as (_ & _ & [? _]%next_epoch_bounds).
  split; cbn; [by left|lia|auto..].
Qed.
Lemma generated_drawn {F} env key (e : CryptoError → F) :
  map_err e (NetworkKey_generate (ce_random env)) = Ok key →
  NetworkKey_to_bytes key ∈ option_list (ce_random env).
Proof.
  unfold NetworkKey_generate. destruct (ce_random env) as [b|]; [|done]. cbn. intros [= <-]. by left.
Qed.
Ltac found_network Hok :=
  match goal with Hf : find_managed _ _ = Ok _ |- _ =>
    apply find_managed_ok in Hf as [Hn Hl]; [|apply Hok] end.
Lemma create_network_evolves env q s r s' :
  create_network env q s = (r, s') → memory_evolves (option_list (ce_random env)) (sv_memory s) (sv_memory s').
Proof.
  intros Hr. unfold create_network in Hr. run_request Hr; try by apply same_evolves.
  all: inv_ok; apply new_network_evolves; by apply is_some_false.
Qed.
Lemma enroll_evolves env q s r s' :
  server_ok s → good_draws env (sv_memory s) → enroll env q s = (r, s') →
  memory_evolves (option_list (ce_random env)) (sv_memory s) (sv_memory s').
Proof.
  intros Hok [_ Hfresh] Hr. unfold enroll in Hr.
  apply handler_bind_run in Hr as [(x & s1 & Hx & Hr)|(e & Hx & _)];
    [|run_request Hx; by apply same_evolves].
  run_request Hx. apply handler_bind_run in Hr as [(x2 & s2 & Hredeem & Hr)|(e & Hredeem & _)];
    [|apply same_evolves; by eapply redeem_token_ok].
  apply redeem_token_ok in Hredeem as [Hok2 Hsame]; [|done].
  set (drawn := option_list _).
  assert (∀ m', memory_evolves drawn (sv_memory s2) m' → memory_evolves drawn (sv_memory s) m') as Hback.
  { intros m' He id n n' Hn. apply He. by rewrite Hsame. }
  run_request Hr; apply Hback; try by apply same_evolves.
  all: found_network Hok2; eapply with_network_evolves; [exact Hl|].
  all: set (u := default (ce_uuid env) _).
  all: lazymatch type of Hn with network_ok _ ?n =>
    assert (evolves drawn n (with_certificate_id n (er_device_id q) u)) as Hid
      by (apply with_certificate_id_evolves; subst u;
          destruct (mn_member_certificate_ids n !! er_device_id q); auto) end.
  all: first [exact Hid|etrans; [exact Hid|]].
  all: split; cbn; [by left| |auto..]; destruct (no_epochs _ _ Hn) as (_ & ? & _);
    unfold sat_add64, u64_max in *; lia.
Qed.
Lemma serve_evolves env call s r s' :
  server_ok s → good_draws env (sv_memory s) → serve env call s = (r, s') →
  memory_evolves (option_list (ce_random env)) (sv_memory s) (sv_memory s').
Proof.
  intros Hok Hd Hs. destruct call; cbn [serve] in Hs;
    try (apply handler_bind_run in Hs as [(x & s1 & Hs & Hr)|(e & Hs & _)];
         [apply ret_run in Hr as [_ ->]|]).
  - by eapply create_network_evolves.
  - by eapply create_network_evolves.
  - unfold issue_token in Hs. run_request Hs; by apply same_evolves.
  - unfold issue_token in Hs. run_request Hs; by apply same_evolves.
  - by eapply enroll_evolves.
  - by eapply enroll_evolves.
  - unfold delete_network in Hs. run_request Hs; try by apply same_evolves.
    all: intros id n n' Hn Hn'; cbn in Hn'; apply lookup_delete_Some in Hn' as [_ Hn'];
      rewrite Hn in Hn'; by injection Hn' as <-.
  - unfold authorize_member_routes in Hs. run_request Hs; try by apply same_evolves.
    all: found_network Hok; eapply with_network_evolves; [exact Hl|]; split; cbn; [by left|lia|auto..].
  - unfold authorize_member_routes in Hs. run_request Hs; try by apply same_evolves.
    all: found_network Hok; eapply with_network_evolves; [exact Hl|]; split; cbn; [by left|lia|auto..].
  - unfold remove_member in Hs. run_request Hs; try by apply same_evolves.
    all: found_network Hok; eapply with_network_evolves; [exact Hl|].
    all: first [by eapply without_member_evolves|eapply removed_evolves; [done|by eapply generated_drawn]].
  - unfold update_policy in Hs. run_request Hs; try by apply same_evolves.
    all: found_network Hok; eapply with_network_evolves; [exact Hl|]; by eapply with_policy_evolves.
  - unfold update_policy in Hs. run_request Hs; try by apply same_evolves.
    all: found_network Hok; eapply with_network_evolves; [exact Hl|]; by eapply with_policy_evolves.
  - apply same_evolves. apply refresh_membership_ok in Hs as (_ & -> & _); done.
  - apply same_evolves. apply refresh_membership_ok in Hs as (_ & -> & _); done.
Qed.

(** Requests that leave the network in place, with the randomness they drew for a network
    key. *)
Inductive uptime (id : NetworkId) : list bytes → Server → Server → Prop :=
| uptime_none s : uptime id [] s s
| uptime_serve env call r s1 s2 s3 drawn :
    good_draws env (sv_memory s1) → serve env call s1 = (r, s2) →
    is_Some (cs_networks (sv_memory s2) !! id) → uptime id drawn s2 s3 →
    uptime id (option_list (ce_random env) ++ drawn) s1 s3.
Lemma uptime_evolves id drawn s s' n :
  server_ok s → cs_networks (sv_memory s) !! id = Some n → uptime id drawn s s' →
  server_ok s' ∧ ∃ n', cs_networks (sv_memory s') !! id = Some n' ∧ evolves drawn n n'.
Proof.
  intros Hok Hn Hu. revert n Hok Hn.
  induction Hu as [s|env call r s1 s2 s3 drawn Hd Hs [n2 Hn2] _ IH]; intros n Hok Hn.
  { split; [done|]. by exists n. }
  pose proof (serve_evolves _ _ _ _ _ Hok Hd Hs id n n2 Hn Hn2) as He.
  apply serve_ok in Hs; [|done..]. destruct (IH n2) as (? & n3 & ? & ?); [done..|].
  split; [done|]. exists n3. split; [done|].
  etrans; (eapply evolves_more; [|done]); intros k Hk; apply elem_of_app; auto.
Qed.
Lemma refresh_revoked env q s id n :
  server_ok s → cs_networks (sv_memory s) !! id = Some n →
  rp_network_id (rr_payload q) = id →
  is_Some (mn_revoked_certificate_ids n !! rp_certificate_id (rr_payload q)) →
  refresh_membership env q s = (Err Unauthorized, s).
Proof.
  intros [Hok _] Hn Hid [x Hx]. pose proof (so_network _ Hok _ _ Hn) as Hnet.
  unfold refresh_membership, state, find_managed, read, lift, mbind, handler_bind, mret, handler_ret.
  rewrite Hid, Hn. cbn -[lookup].
  destruct (mn_members n !! _) as [claims|]; [|done]. cbn.
  destruct (mn_member_certificate_ids n !! _) as [u|] eqn:Hu; [|done]. cbn.
  case_bool_decide as Heq; [done|]. rewrite Heq in Hx.
  by rewrite (no_revoked _ _ Hnet _ _ Hu) in Hx.
Qed.

(** C10: removal locks a member out.  Once an administrator's removal of a member
    succeeded, and for as long as the controller runs and keeps the network,
    whatever is requested of it: the member's certificate identifier is revoked,
    no authorization manifest authorises a certificate with this identifier, and its
    refresh is refused without any effect.  The network key is the one the removal
    drew, or one drawn by a later request, under a later epoch (the epoch saturates):
    the key the member knew is gone, unless the randomness repeats it. *)
Theorem removal_locks_out k0 token s env id d s1 s2 n u drawn :
  let m := initialize_new_controller_state k0 token in
  rtc controller_step (mkServer m m ∅) s → good_draws env (sv_memory s) →
  cs_networks (sv_memory s) !! id = Some n → mn_member_certificate_ids n !! d = Some u →
  remove_member env id d s = (Ok tt, s1) → uptime id drawn s1 s2 →
  ∃ n2, cs_networks (sv_memory s2) !! id = Some n2
    ∧ is_Some (mn_revoked_certificate_ids n2 !! u)
    ∧ mn_network_key n2 ∈ option_list (ce_random env) ++ drawn
    ∧ next_epoch (mn_network_key_epoch n) ≤ mn_network_key_epoch n2
    ∧ (∀ key now manifest c, sign_authorization n2 key now = Ok manifest → cert_id c = u →
         authorizes manifest c = false)
    ∧ (∀ env' q, rp_network_id (rr_payload q) = id → rp_certificate_id (rr_payload q) = u →
         refresh_membership env' q s2 = (Err Unauthorized, s2)).
Proof.
  intros m Hreach Hd Hn Hu Hr Hup.
  assert (server_ok s) as Hok by (eapply reachable_ok; [exact Hreach|]; split; apply initial_ok).
  assert (∃ key, NetworkKey_to_bytes key ∈ option_list (ce_random env)
    ∧ cs_networks (sv_memory s1) !! id
      = Some (rekeyed (without_member n d (ce_now env)) key)) as (key & Hkey & Hn1).
  { unfold remove_member in Hr. run_request Hr; try done.
    all: match goal with Hf : find_managed _ _ = Ok _ |- _ =>
      unfold find_managed in Hf; rewrite Hn in Hf; injection Hf as <- end.
    all: match goal with Hk : map_err _ (NetworkKey_generate _) = Ok ?key |- _ =>
      exists key; split; [by eapply generated_drawn|apply lookup_insert_eq] end. }
  apply remove_member_ok in Hr; [|done..].
  destruct (uptime_evolves _ _ _ _ _ Hr Hn1 Hup) as (Hok2 & n2 & Hn2 & He).
  assert (is_Some (mn_revoked_certificate_ids n2 !! u)) as Hrev.
  { apply (ev_revoked _ _ _ He). cbn. rewrite Hu, lookup_insert_eq. by eexists. }
  exists n2. split; [done|]. split; [done|].
  split; [apply elem_of_app; destruct (ev_key _ _ _ He) as [->|]; [by left|by right]|].
  split; [apply (ev_epochs _ _ _ He)|]. split.
  - intros k now manifest c Hs Hc. apply not_true_is_false. intros Ha.
    assert (network_ok id n2) as Hnet by (eapply so_network; [exact (proj1 Hok2)|done]).
    apply (sign_authorization_iff _ _ _ _ _ _ Hnet Hs) in Ha as (_ & _ & Hcid & _).
    rewrite Hc in Hcid. rewrite (no_revoked _ _ Hnet _ _ Hcid) in Hrev. by destruct Hrev.
  - intros env' q Hq Hcid. eapply refresh_revoked; [done..|]. by rewrite Hcid.
Qed.
End documents.

(** ** Witnesses *)
Definition no_manifest : NetworkAuthorizationManifest :=
  mkNetworkAuthorizationManifest 0 net_a 0 0 [] [] 0 0 [] [] None.
Definition managed_manifest (s : Server) (now : Z) : NetworkAuthorizationManifest :=
  unwrap (sign_authorization (managed s) controller_key now) no_manifest.
Lemma authorization_exact_witness :
  is_ok (auth_verify_from_controller (managed_manifest two_members 200) controller_public 250) = true
  ∧ authorizes (managed_manifest two_members 200) bob_certificate = true.
Proof.
  destruct (authorization_exact (be_bytes 32 1) admin_token two_members net_a (managed two_members)
    controller_key 200 (managed_manifest two_members 200) bob_certificate 250) as [Hv Ha].
  - exact two_members_reachable.
  - apply default_Some. vm_decide.
  - apply unwrap_Ok. vm_decide.
  - lia.
  - unfold MANIFEST_LIFETIME, u64_max. lia.
  - unfold MANIFEST_LIFETIME. lia.
  - split; [exact Hv|]. apply Ha. split; [vm_decide|]. split; [vm_decide|]. split; [vm_decide|].
    exists (default (cert_claims alice_certificate) (mn_members (managed two_members) !! bob)).
    split; [apply default_Some; vm_decide|vm_decide].
Defined.

(** Bob is removed, and enrols again. *)
Definition removal_env : Env := admin_env 300 61.
Definition without_bob : Server := (remove_member removal_env net_a bob two_members).2.
Definition enrol_again : list (Env * Call) :=
  [(admin_env 301 72, IssueToken net_a (mkTokenRequest None));
   (device_env 302 33, Enroll (enrolment bob bob_key 72))].
Definition with_bob_again : Server := run_calls without_bob enrol_again.
Definition since_removal : list bytes :=
  option_list (ce_random (admin_env 301 72)) ++ option_list (ce_random (device_env 302 33)) ++ [].
Lemma removal_locks_out_witness :
  remove_member removal_env net_a bob two_members = (Ok tt, without_bob)
  ∧ is_Some (mn_members (managed with_bob_again) !! bob)
  ∧ ∃ n2, cs_networks (sv_memory with_bob_again) !! net_a = Some n2
    ∧ is_Some (mn_revoked_certificate_ids n2 !! uuid_of 32)
    ∧ mn_network_key n2 ∈ option_list (ce_random removal_env) ++ since_removal.
Proof.
  assert (remove_member removal_env net_a bob two_members = (Ok tt, without_bob)) as Hr.
  { apply (ran_unit (remove_member removal_env net_a bob two_members)). vm_decide. }
  split; [exact Hr|]. split; [vm_decide|].
  destruct (removal_locks_out (be_bytes 32 1) admin_token two_members removal_env net_a bob
    without_bob with_bob_again (managed two_members) (uuid_of 32) since_removal) as (n2 & Hn2 & Hu & Hk & _).
  - exact two_members_reachable.
  - apply good_draws_b_true. vm_decide.
  - apply default_Some. vm_decide.
  - vm_decide.
  - exact Hr.
  - eapply (uptime_serve _ (admin_env 301 72) (IssueToken net_a (mkTokenRequest None)));
      [apply good_draws_b_true; vm_decide|apply surjective_pairing|vm_decide|].
    eapply (uptime_serve _ (device_env 302 33) (Enroll (enrolment bob bob_key 72)) _ _ with_bob_again);
      [apply good_draws_b_true; vm_decide|apply surjective_pairing|vm_decide|].
    apply uptime_none.
  - exists n2. split; [exact Hn2|]. split; [exact Hu|exact Hk].
Defined.
