(* ===== verification/ControllerEnrollFacts.v ===== *)
(** * Enrolment at the controller: tokens, and the response the agent receives *)
From S2P Require Import Prelude Net Text Ext Model ServiceIdentity Membership Authorization.
From S2P Require Import RelayProto Session RootProto Planet Policy Joined DataPlane.
From S2P Require Import PeerDirectory.
From S2P Require Import Observability TransportHealth Frames AgentSession.
From S2P Require Import Request Responses Controller ControllerFacts ControllerStateFacts.
From S2P Require Import ControllerDocumentFacts.
From S2P Require Import Concrete Samples ControllerSamples.
#[local] Open Scope Z_scope.

Import Controller.

Section enrolment.
Context `{UuidLib} `{Ed25519} `{!Ed25519Laws} `{IpNetLib} `{!IpNetLaws} `{HashOrder} `{SessionCrypto}.
Context `{!ControllerLib} `{!MembershipSerde} `{!AuthorizationSerde} `{!PolicySerde} `{!PlanetSerde}.
Implicit Types (m : ControllerState) (n : ManagedNetwork) (s : Server) (env : Env).

(** ** What an enrolment that succeeded did *)
Definition redeemed (q : EnrollmentRequest) (k : EnrollmentToken) : EnrollmentToken :=
  mkEnrollmentToken (et_network_id k) (et_expires_at k) (Some (er_device_id q)).
Record redeemable env q s (t : Uuid) (k : EnrollmentToken) : Prop := {
  rd_token : uuid_parse (er_token q) = Some t;
  rd_issued : cs_enrollment_tokens (sv_memory s) !! t = Some k;
  rd_network : et_network_id k = er_network_id q;
  rd_current : ce_now env ≤ et_expires_at k;
  rd_device d : et_used_by k = Some d → d = er_device_id q;
}.
Lemma redeem_token_Ok env q s u s' :
  redeem_token env q s = (Ok u, s') →
  ∃ t k, redeemable env q s t k
    ∧ s' = mkServer (with_token (sv_memory s) t (redeemed q k)) (sv_disk s) (sv_refresh_nonces s).
Proof.
  intros Hr. unfold redeem_token in Hr. run_request Hr. inv_ok. do 2 eexists. split; [|reflexivity].
  split; [done|done| |done|].
  - match goal with Hn : ¬ (_ ≠ _) |- _ => by apply dec_stable in Hn end.
  - intros d Hd. match goal with Hu : is_some_and _ _ = false |- _ => rewrite Hd in Hu; cbn in Hu;
      apply bool_decide_eq_false in Hu; by apply dec_stable end.
Qed.

(** The claims of the certificate. *)
Definition enrolled_claims env (q : EnrollmentRequest) n (addresses : list IpAddr) : MembershipClaims :=
  mkMembershipClaims (er_network_id q) (er_device_id q) (er_device_public_key q) addresses
    (default_routes (mn_network n)) (ce_now env) (Some (wrap_add64 (ce_now env) CERTIFICATE_LIFETIME)).
Record enrolled env q s (resp : EnrollmentResponse) s' (t : Uuid) (k : EnrollmentToken) (key : SigningKey)
    n (u : Uuid) (claims : MembershipClaims) n' : Prop := {
  el_token : redeemable env q s t k;
  el_key : signing_key (sv_memory s) = Some key;
  el_network : cs_networks (sv_memory s) !! er_network_id q = Some n;
  el_public_key : len (er_device_public_key q) = 32;
  el_certificate_id : u = default (ce_uuid env) (mn_member_certificate_ids n !! er_device_id q);
  el_claims : ∃ addresses, claims = enrolled_claims env q n addresses
    ∧ assigned_addresses_for_device (mn_network n) (mn_members n) (er_device_id q) = Some addresses;
  el_managed : n' = with_member (with_certificate_id n (er_device_id q) u) (er_device_id q) claims;
  el_certificate : sign_authorized claims u (mn_network_key_epoch n) key = Ok (en_certificate resp);
  el_authorization : sign_authorization n' key (ce_now env) = Ok (en_authorization resp);
  el_network_key : en_network_key resp = mn_network_key n';
  el_memory : sv_memory s' = with_network (with_token (sv_memory s) t (redeemed q k)) (er_network_id q) n';
  el_disk : sv_disk s' = sv_memory s';
}.
Lemma write_state_Ok env s u s' :
  write_state env s = (Ok u, s') → s' = mkServer (sv_memory s) (sv_memory s) (sv_refresh_nonces s).
Proof. intros [[_ ?]| ->]%write_state_run; done. Qed.
Lemma enroll_Ok env q s resp s' :
  enroll env q s = (Ok resp, s') →
  ∃ t k key n u claims n', enrolled env q s resp s' t k key n u claims n'.
Proof.
  intros Hr. unfold enroll in Hr.
  apply handler_bind_Ok in Hr as (x & s1 & Hx & Hr). run_request Hx.
  apply handler_bind_Ok in Hr as (x2 & s2 & Hredeem & Hr).
  apply redeem_token_Ok in Hredeem as (t & k & Hk & ->).
  run_request Hr; try done.
  unfold key_of_state, find_managed in *. inv_ok. subst. cbn in *.
  do 7 eexists. split; try done; try (by apply Z.eqb_eq).
  eexists; split; [reflexivity|eassumption].
Qed.

(** The agent takes the manifest of the response for what it is. *)
Lemma signed_manifest_verified network n key env manifest now :
  sign_authorization n key (ce_now env) = Ok manifest →
  0 ≤ ce_now env → ce_now env + CERTIFICATE_LIFETIME ≤ u64_max →
  ce_now env ≤ now ≤ ce_now env + MANIFEST_LIFETIME →
  cp_authorization_manifest (jn_control_plane network) = Some manifest →
  pinned_controller_key network = public_bytes key →
  verified_authorization_manifest network now = Some manifest.
Proof.
  intros Hsa H0' Hmax Ht Hauth Hpin.
  assert (CERTIFICATE_LIFETIME = 86400 ∧ MANIFEST_LIFETIME = 90) as [Hcl Hml] by done.
  assert (manifest_valid (public_bytes key) now manifest) as Hvalid.
  { eapply auth_sign_valid; [exact Hsa|..].
    - unfold wrap_add64, wrap64. rewrite Z.mod_small; unfold u64_max in *; lia.
    - unfold sat_add64, u64_max in *. lia. }
  unfold verified_authorization_manifest. rewrite Hauth, Hpin. cbn.
  by rewrite (proj2 (auth_verify_iff _ _ _ tt) Hvalid).
Qed.

(** C12: an enrolled member is accepted.  When the controller enrols a device, the
    agent that stores the response, with the controller's key pinned, accepts the
    certificate, and for the ninety seconds of the manifest considers itself
    authorised, and likewise every certificate the controller's tables hold for
    the current key epoch of the network, with this device among them. *)
Theorem enrolled_member_accepted k0 token s env q resp s' now network :
  let m := initialize_new_controller_state k0 token in
  rtc controller_step (mkServer m m ∅) s → good_draws env (sv_memory s) →
  enroll env q s = (Ok resp, s') →
  0 ≤ ce_now env → ce_now env + CERTIFICATE_LIFETIME ≤ u64_max →
  ce_now env ≤ now ≤ ce_now env + MANIFEST_LIFETIME →
  jn_certificate network = Some (en_certificate resp) →
  cp_authorization_manifest (jn_control_plane network) = Some (en_authorization resp) →
  (∀ key, signing_key (sv_memory s) = Some key → pinned_controller_key network = public_bytes key) →
  is_ok (cert_verify_from_controller (en_certificate resp) (pinned_controller_key network) now) = true
  ∧ local_network_is_authorized network now = true
  ∧ ∃ n claims, cs_networks (sv_disk s') !! er_network_id q = Some n
      ∧ mn_members n !! er_device_id q = Some claims ∧ claims = cert_claims (en_certificate resp)
      ∧ mc_device_public_key claims = er_device_public_key q
      ∧ ∀ c claims', mn_members n !! mc_device_id (cert_claims c) = Some claims' →
          mn_member_certificate_ids n !! mc_device_id (cert_claims c) = Some (cert_id c) →
          mc_network_id (cert_claims c) = er_network_id q →
          mc_device_public_key (cert_claims c) = mc_device_public_key claims' →
          cert_network_key_epoch c = mn_network_key_epoch n →
          peer_certificate_is_authorized network c now = true.
Proof.
  intros m Hreach Hd He Hnow Hmax Ht Hcert Hauth Hpin.
  assert (server_ok s) as Hok by (eapply reachable_ok; [exact Hreach|]; split; apply initial_ok).
  assert (server_ok s') as Hok' by (by eapply enroll_ok).
  apply enroll_Ok in He as (t & k & key & n & u & claims & n' & [Hk Hkey Hn Hlen Hu
    (addresses & Hc & Haddr) Hn' Hsign Hsa Hnk Hmem Hdisk]).
  assert (network_ok (er_network_id q) n') as Hnet.
  { apply (so_network _ (proj1 Hok')). rewrite Hmem. apply lookup_insert_eq. }
  specialize (Hpin _ Hkey).
  pose proof (signed_manifest_verified _ _ _ _ _ _ Hsa Hnow Hmax Ht Hauth Hpin) as Hver.
  assert (CERTIFICATE_LIFETIME = 86400 ∧ MANIFEST_LIFETIME = 90) as [Hcl Hml] by done.
  assert (mn_member_certificate_ids n' !! er_device_id q = Some u) as Hid
    by (rewrite Hn'; apply lookup_insert_eq).
  pose proof (sign_authorized_Ok _ _ _ _ _ Hsign) as (encoded & _ & Hcertificate).
  assert (mn_members n' !! er_device_id q = Some claims) as Hmember
    by (rewrite Hn'; apply lookup_insert_eq).
  assert (∀ c claims', mn_members n' !! mc_device_id (cert_claims c) = Some claims' →
    mn_member_certificate_ids n' !! mc_device_id (cert_claims c) = Some (cert_id c) →
    mc_network_id (cert_claims c) = er_network_id q →
    mc_device_public_key (cert_claims c) = mc_device_public_key claims' →
    cert_network_key_epoch c = mn_network_key_epoch n' →
    peer_certificate_is_authorized network c now = true) as Hpeers.
  { intros c claims' ?????. unfold peer_certificate_is_authorized. rewrite Hver. cbn.
    apply (sign_authorization_iff _ _ _ _ _ _ Hnet Hsa). eauto 10. }
  split; [|split].
  - apply is_ok_true. exists tt. apply cert_verify_iff. rewrite Hpin.
    eapply sign_authorized_valid; [exact Hsign|by eapply no_not_nil| |].
    + pose proof (no_epochs _ _ Hnet) as [He _]. rewrite Hn' in He. cbn in He. lia.
    + subst claims. intros e [= <-]. unfold wrap_add64, wrap64.
      rewrite Z.mod_small; unfold u64_max in *; lia.
  - unfold local_network_is_authorized. rewrite Hcert.
    apply (Hpeers _ claims); rewrite Hcertificate; cbn; [subst claims; done..| |].
    + done.
    + by rewrite Hn'.
  - exists n', claims. split_and!; [|done|by rewrite Hcertificate|by subst claims|done].
    rewrite Hdisk, Hmem. apply lookup_insert_eq.
Qed.

(** ** A token and the device it is bound to *)
Definition bound (t : Uuid) (k : EnrollmentToken) m : Prop :=
  ∀ k', cs_enrollment_tokens m !! t = Some k' → k' = k.
Definition server_bound (t : Uuid) (k : EnrollmentToken) s : Prop :=
  bound t k (sv_memory s) ∧ bound t k (sv_disk s).
(** Anything that happens later, as long as the identifier is not drawn again. *)
Inductive later_step (t : Uuid) : Server → Server → Prop :=
| later_request env call s r s' :
    ce_uuid env ≠ t → serve env call s = (r, s') → later_step t s s'
| later_restart draws now s s' :
    open_state draws now (sv_disk s) = Ok s' → later_step t s s'.

Lemma bound_same t k m m' :
  cs_enrollment_tokens m' = cs_enrollment_tokens m → bound t k m → bound t k m'.
Proof. intros Heq Hb k'. rewrite Heq. apply Hb. Qed.
Lemma bound_insert t k m t' k' :
  (t' = t → k' = k) → bound t k m → bound t k (with_token m t' k').
Proof.
  intros Hk Hb k1 Hk1. cbn in Hk1.
  apply lookup_insert_Some in Hk1 as [[<- <-]|[_ Hl]]; [by apply Hk|by apply Hb].
Qed.
Lemma redeem_bound t k env q s r s' :
  is_Some (et_used_by k) → redeem_token env q s = (r, s') → server_bound t k s → server_bound t k s'.
Proof.
  intros [d Hk] Hr Hb. destruct r as [u|e]; [|unfold redeem_token in Hr; by run_request Hr].
  apply redeem_token_Ok in Hr as (t' & k' & [] & ->). destruct Hb as [Hm Hd]. split; [|done].
  apply bound_insert; [|done]. intros ->. apply Hm in rd_issued0 as ->.
  unfold redeemed. rewrite <-(rd_device0 d) by done. destruct k. cbn in *. by rewrite Hk.
Qed.
Ltac same_tokens :=
  match goal with Hb : server_bound ?t ?k ?s |- server_bound ?t ?k _ =>
    destruct Hb as [? ?]; split; cbn; try done; by (eapply bound_same; [|eassumption]) end.
Lemma enroll_bound t k env q s r s' :
  is_Some (et_used_by k) → enroll env q s = (r, s') → server_bound t k s → server_bound t k s'.
Proof.
  intros Hk Hs Hb. unfold enroll in Hs.
  apply handler_bind_run in Hs as [(y & s2 & Hy & Hs)|(e & Hy & _)]; run_request Hy; try done.
  apply handler_bind_run in Hs as [(z & s3 & Hz & Hs)|(e' & Hz & _)];
    eapply redeem_bound in Hz; try done.
  clear Hb. run_request Hs; try done; same_tokens.
Qed.
Lemma serve_bound t k env call s r s' :
  is_Some (et_used_by k) → ce_uuid env ≠ t → serve env call s = (r, s') →
  server_bound t k s → server_bound t k s'.
Proof.
  intros Hk Ht Hs Hb. destruct call; cbn [serve] in Hs;
    try (apply handler_bind_run in Hs as [(x & s1 & Hs & Hr)|(e & Hs & _)];
         [apply ret_run in Hr as [_ ->]|]).
  1,2: unfold create_network in Hs; run_request Hs; try done; same_tokens.
  1,2: unfold issue_token in Hs; run_request Hs; try done;
    destruct Hb; split; cbn; try done; by apply bound_insert.
  1,2: by eapply enroll_bound.
  1: { unfold delete_network in Hs. run_request Hs; try done.
       all: destruct Hb as [Hm Hd]; split; cbn; try done.
       all: intros k' [Hl _]%lookup_retain; by apply Hm. }
  1,2: unfold authorize_member_routes in Hs; run_request Hs; try done; same_tokens.
  1: unfold remove_member in Hs; run_request Hs; try done; same_tokens.
  1,2: unfold update_policy in Hs; run_request Hs; try done; same_tokens.
  all: unfold refresh_membership in Hs; run_request Hs; done.
Qed.
Lemma open_state_bound t k draws now s s' :
  open_state draws now (sv_disk s) = Ok s' → server_bound t k s → server_bound t k s'.
Proof.
  intros Ho [_ Hd]. unfold open_state in Ho. apply bind_Ok in Ho as ([m1 migrated] & Hm & Ho).
  injection Ho as <-. unfold migrate_and_validate_controller_state in Hm.
  apply bind_Ok in Hm as (? & _ & Hm). apply bind_Ok in Hm as ([managed b] & _ & Hm).
  apply bind_Ok in Hm as (? & _ & Hm). injection Hm as <- <-.
  split; cbn; [done|]. by destruct (b || _).
Qed.

(** C13: an enrolment token admits one device.  After an enrolment with a token
    succeeded, whatever is requested and however often the controller restarts
    (as long as no later draw is this identifier again), another enrolment that
    succeeds with it is of the same device, in the same network, before the same
    expiry. *)
Theorem token_admits_one t env q resp s s1 s2 env' q' resp' s3 :
  enroll env q s = (Ok resp, s1) → uuid_parse (er_token q) = Some t →
  rtc (later_step t) s1 s2 →
  enroll env' q' s2 = (Ok resp', s3) → uuid_parse (er_token q') = Some t →
  er_device_id q' = er_device_id q ∧ er_network_id q' = er_network_id q
  ∧ ∃ k, cs_enrollment_tokens (sv_memory s) !! t = Some k
      ∧ ce_now env ≤ et_expires_at k ∧ ce_now env' ≤ et_expires_at k.
Proof.
  intros (t1 & k & key & n & u & claims & n' & [Hk _ _ _ _ _ _ _ _ _ Hmem Hdisk])%enroll_Ok Ht Hrun
    (t2 & k2 & key2 & n2 & u2 & claims2 & n2' & [Hk2 _ _ _ _ _ _ _ _ _ _ _])%enroll_Ok Ht2.
  destruct Hk, Hk2. assert (t1 = t) as -> by congruence. assert (t2 = t) as -> by congruence.
  assert (server_bound t (redeemed q k) s1) as Hb.
  { unfold server_bound. rewrite Hdisk, Hmem. split; intros k' Hk'; cbn in Hk';
      rewrite lookup_insert_eq in Hk'; by injection Hk' as <-. }
  assert (server_bound t (redeemed q k) s2) as [Hb2 _].
  { clear -Hrun Hb. induction Hrun as [|s1 s2 s3 Hstep _ IH]; [done|]. apply IH. destruct Hstep.
    - eapply serve_bound; [|done..]. by eexists.
    - by eapply open_state_bound. }
  apply Hb2 in rd_issued1 as ->. specialize (rd_device1 _ eq_refl).
  cbn in *. split; [done|]. split; [congruence|]. by exists k.
Qed.
End enrolment.

(** ** Witnesses *)
Definition alice_env : Env := device_env 110 31.
Definition alice_enrolment : EnrollmentRequest := enrolment alice alice_key 70.
Definition no_response : EnrollmentResponse :=
  mkEnrollmentResponse (mkVirtualNetwork net_b "" "" None Preferred) alice_certificate [] no_manifest None.
Definition alice_enrolled : result ApiError EnrollmentResponse * Server :=
  enroll alice_env alice_enrolment open_for_members.
Definition alice_response : EnrollmentResponse := unwrap alice_enrolled.1 no_response.
Definition alice_joined : JoinedNetwork :=
  mkJoinedNetwork (en_network alice_response) [] (Some (en_certificate alice_response))
    (en_network_key alice_response)
    (mkNetworkControlPlane None controller_public None None None None None [] [] [] [] [] []
       (Some (en_authorization alice_response)) None ExitNodeSelection_default).
Lemma alice_enrolled_Ok :
  enroll alice_env alice_enrolment open_for_members = (Ok alice_response, alice_enrolled.2).
Proof. apply (ran_ok alice_enrolled). vm_decide. Qed.
Lemma enrolled_member_accepted_witness :
  is_ok (cert_verify_from_controller (en_certificate alice_response) controller_public 200) = true
  ∧ local_network_is_authorized alice_joined 200 = true.
Proof.
  destruct (enrolled_member_accepted (be_bytes 32 1) admin_token open_for_members alice_env
    alice_enrolment alice_response alice_enrolled.2 200 alice_joined) as (Hc & Hl & _).
  - exact open_for_members_reachable.
  - apply good_draws_b_true. vm_decide.
  - exact alice_enrolled_Ok.
  - vm_decide.
  - vm_decide.
  - vm_decide.
  - reflexivity.
  - reflexivity.
  - intros key Hk.
    assert (signing_key (sv_memory open_for_members) = Some controller_key) as Hk' by vm_decide.
    rewrite Hk' in Hk. injection Hk as <-. vm_decide.
  - split; [exact Hc|exact Hl].
Defined.

(** Alice enrols twice with her token, the controller restarting in between. *)
Definition restarted : Server :=
  unwrap (open_state (mkDraws (λ _, None) (λ _ _, uuid_of 0)) 150 (sv_disk alice_enrolled.2))
    fresh_controller.
Definition alice_enrolled_again : result ApiError EnrollmentResponse * Server :=
  enroll (device_env 160 35) alice_enrolment restarted.
Lemma token_admits_one_witness :
  is_ok alice_enrolled_again.1 = true ∧ er_network_id alice_enrolment = net_a.
Proof.
  assert (is_ok alice_enrolled_again.1 = true) as Hok by vm_decide.
  split; [exact Hok|].
  destruct (token_admits_one (uuid_of 70) alice_env alice_enrolment alice_response open_for_members
    alice_enrolled.2 restarted (device_env 160 35) alice_enrolment
    (unwrap alice_enrolled_again.1 no_response) alice_enrolled_again.2) as (_ & Hn & _).
  - exact alice_enrolled_Ok.
  - vm_decide.
  - apply rtc_once. eapply later_restart. apply unwrap_Ok. vm_decide.
  - exact (ran_ok alice_enrolled_again no_response Hok).
  - vm_decide.
  - exact Hn.
Defined.
