(* ===== verification/ControllerAccessFacts.v ===== *)
(** * Who may change the controller's state, and how often a refresh is used *)
From S2P Require Import Prelude Request Net Text Ext Concrete Model ServiceIdentity Membership.
From S2P Require Import Authorization Responses Planet Policy TransportHealth Controller.
From S2P Require Import Samples ControllerFacts ControllerStateFacts ControllerSamples.
From S2P Require Import ControllerEnrollFacts.
#[local] Open Scope Z_scope.

Import Controller.

Section access.
Context `{UuidLib} `{Ed25519} `{IpNetLib} `{HashOrder} `{SessionCrypto}.
Context `{!ControllerLib} `{!MembershipSerde} `{!AuthorizationSerde} `{!PolicySerde} `{!PlanetSerde}.
Implicit Types (m : ControllerState) (n : ManagedNetwork) (s : Server) (env : Env).

(** ** The administrator *)
Definition admin_call (call : Call) : bool :=
  match call with Enroll _ | RefreshMembership _ => false | _ => true end.
Lemma require_admin_refused m env :
  default ""%string (ce_admin_header env) ≠ cs_admin_token m →
  require_admin m env = Err Unauthorized.
Proof. intros Hne. unfold require_admin. by rewrite bool_decide_eq_true_2. Qed.

Lemma enroll_networks env q s r s' id :
  enroll env q s = (r, s') → id ≠ er_network_id q →
  cs_networks (sv_memory s') !! id = cs_networks (sv_memory s) !! id.
Proof.
  intros Hr Hid. unfold enroll in Hr.
  apply handler_bind_run in Hr as [(y & s2 & Hy & Hr)|(e & Hy & _)]; run_request Hy; try done.
  assert (∀ r1 s1, redeem_token env q s = (r1, s1) →
    cs_networks (sv_memory s1) = cs_networks (sv_memory s)) as Hredeem.
  { intros r1 s1 Hs1. unfold redeem_token in Hs1. by run_request Hs1. }
  apply handler_bind_run in Hr as [(z & s3 & Hz & Hr)|(e' & Hz & _)];
    apply Hredeem in Hz; rewrite <-Hz; [clear Hz|done].
  run_request Hr; try done; cbn; by rewrite ?lookup_insert_ne by done.
Qed.

(** only the administrator changes networks.  A request to create or delete
    a network, to issue a token, to authorise routes, to remove a member or to
    change the policy that does not carry the administrator's token in its
    header is refused, and changes nothing, in memory or in the state file; the
    list of members is refused as well.  Of the two requests without the token,
    an enrolment changes no network but its own, and a refresh none. *)
Theorem administrator_required env call s :
  default ""%string (ce_admin_header env) ≠ cs_admin_token (sv_memory s) →
  match call with
  | Enroll q => ∀ id, id ≠ er_network_id q →
      cs_networks (sv_memory (serve env call s).2) !! id = cs_networks (sv_memory s) !! id
  | RefreshMembership q => sv_memory (serve env call s).2 = sv_memory s
      ∧ sv_disk (serve env call s).2 = sv_disk s
  | _ => serve env call s = (Err Unauthorized, s) ∨ serve env call s = (Err BadRequest, s)
  end ∧ ∀ id, members env id s = (Err Unauthorized, s).
Proof.
  intros Hne%require_admin_refused.
  assert (∀ A (f : unit → handler Server ApiError A), (state ≫= λ m, lift (require_admin m env) ≫= f) s
    = (Err Unauthorized, s)) as Hno.
  { intros A f. unfold state, read, lift, mbind, handler_bind, mret, handler_ret. cbn. by rewrite Hne. }
  split; [|by intros id; apply Hno].
  destruct call; try (left; first [apply Hno|apply handler_bind_Err, Hno]).
  - cbn [serve]. unfold create_network.
    destruct (UpsertNetworkRequest_validate r); [left|right]; apply handler_bind_Err; [|done].
    exact (Hno _ _).
  - intros id Hid. destruct (serve _ _ _) as [r' s'] eqn:Hs. cbn [serve] in Hs.
    apply handler_bind_run in Hs as [(x & s1 & Hs & [_ ->]%ret_run)|(e & Hs & _)];
      by eapply enroll_networks.
  - destruct (serve _ _ _) as [r' s'] eqn:Hs. cbn [serve] in Hs.
    apply handler_bind_run in Hs as [(x & s1 & Hs & [_ ->]%ret_run)|(e & Hs & _)];
      unfold refresh_membership in Hs; by run_request Hs.
Qed.

(** ** Refresh requests are used once *)
Definition kept_nonces env s : gmap bytes Z :=
  retain (λ _ seen, duration_since (ce_instant env) seen <=? REFRESH_NONCE_TTL) (sv_refresh_nonces s).
Lemma refresh_run env q s r s' :
  refresh_membership env q s = (r, s') →
  (s' = s ∧ is_ok r = false)
  ∨ (s' = mkServer (sv_memory s) (sv_disk s)
            (<[rp_nonce (rr_payload q) := ce_instant env]> (kept_nonces env s))
     ∧ abs_diff (ce_now env) (rp_issued_at (rr_payload q)) ≤ 120
     ∧ (is_ok r = true → kept_nonces env s !! rp_nonce (rr_payload q) = None)).
Proof.
  intros Hr. unfold refresh_membership in Hr. run_request Hr; subst; try by left.
  all: right; split; [done|]; inv_ok.
  all: match goal with Hv : refresh_verify _ _ _ _ = Ok _ |- _ =>
    apply refresh_verify_iff in Hv; split; [apply Hv|] end.
  all: intros Hgranted; first [discriminate Hgranted|by apply is_some_false].
Qed.
(** The nonce is remembered, with a time from [i] on. *)
Definition seen_since (nonce : bytes) (i : Z) s : Prop :=
  ∃ j, sv_refresh_nonces s !! nonce = Some j ∧ i ≤ j.
(** Requests between two readings of the monotonic clock. *)
Definition served_between (i j : Z) : Server → Server → Prop :=
  rtc (λ s s', ∃ env call r, serve env call s = (r, s') ∧ i ≤ ce_instant env ≤ j).
Lemma kept_seen env s nonce i :
  ce_instant env ≤ i + REFRESH_NONCE_TTL → seen_since nonce i s →
  ∃ j, kept_nonces env s !! nonce = Some j ∧ i ≤ j.
Proof.
  intros Hi (j & Hj & Hij). exists j. split; [|done]. apply lookup_retain. split; [done|].
  apply Z.leb_le. unfold duration_since, sat_sub. assert (0 ≤ REFRESH_NONCE_TTL) by done. lia.
Qed.
Lemma refresh_seen env q s r s' nonce i :
  refresh_membership env q s = (r, s') → i ≤ ce_instant env ≤ i + REFRESH_NONCE_TTL →
  seen_since nonce i s → seen_since nonce i s'.
Proof.
  intros [[-> _]|(-> & _ & _)]%refresh_run Hi Hseen; [done|].
  unfold seen_since. cbn. destruct (decide (rp_nonce (rr_payload q) = nonce)) as [->|Hne].
  - rewrite lookup_insert_eq. exists (ce_instant env). split; [done|lia].
  - rewrite lookup_insert_ne by done. apply kept_seen; [lia|done].
Qed.
Lemma serve_seen env call s r s' nonce i :
  serve env call s = (r, s') → i ≤ ce_instant env ≤ i + REFRESH_NONCE_TTL →
  seen_since nonce i s → seen_since nonce i s'.
Proof.
  intros Hs Hi Hseen.
  assert (sv_refresh_nonces s' = sv_refresh_nonces s → seen_since nonce i s') as Hsame
    by (unfold seen_since; by intros ->).
  destruct call; cbn [serve] in Hs;
    try (apply handler_bind_run in Hs as [(x & s1 & Hs & Hr)|(e & Hs & _)];
         [apply ret_run in Hr as [_ ->]|]).
  1,2: unfold create_network in Hs; run_request Hs; by apply Hsame.
  1,2: unfold issue_token in Hs; run_request Hs; by apply Hsame.
  1,2: unfold enroll, redeem_token in Hs; run_request Hs; by apply Hsame.
  1: unfold delete_network in Hs; run_request Hs; by apply Hsame.
  1,2: unfold authorize_member_routes in Hs; run_request Hs; by apply Hsame.
  1: unfold remove_member in Hs; run_request Hs; by apply Hsame.
  1,2: unfold update_policy in Hs; run_request Hs; by apply Hsame.
  all: by eapply refresh_seen.
Qed.

(** C14: a refresh request is granted once.  While the controller runs, after it
    granted a refresh it refuses the same request whenever it comes again, the
    nonce being remembered for longer than the request's time stamp is fresh;
    this needs no more of the two clocks than that once five minutes of the
    monotonic one have passed, four minutes of the other have. *)
Theorem refresh_granted_once env q s resp s1 s2 env' :
  refresh_membership env q s = (Ok resp, s1) →
  served_between (ce_instant env) (ce_instant env') s1 s2 → ce_instant env ≤ ce_instant env' →
  (ce_instant env + REFRESH_NONCE_TTL < ce_instant env' → ce_now env + 240 < ce_now env') →
  is_ok (refresh_membership env' q s2).1 = false.
Proof.
  intros Hr Hrun Hi Hclocks. apply refresh_run in Hr as [[_ ?]|(-> & Hfresh & _)]; [done|].
  destruct (refresh_membership env' q s2) as [r s3] eqn:Hr'.
  apply refresh_run in Hr' as [[-> ?]|(-> & Hfresh' & Hnone)]; [done|]. cbn.
  apply not_true_is_false. intros Hok%Hnone.
  destruct (decide (ce_instant env + REFRESH_NONCE_TTL < ce_instant env')) as [Hl|Hl].
  { specialize (Hclocks Hl). unfold abs_diff in *. lia. }
  assert (seen_since (rp_nonce (rr_payload q)) (ce_instant env) s2) as Hseen.
  { remember (mkServer _ _ _) as s0 eqn:Hs0 in Hrun.
    assert (seen_since (rp_nonce (rr_payload q)) (ce_instant env) s0) as Hseen.
    { rewrite Hs0. unfold seen_since. cbn. rewrite lookup_insert_eq. by eexists. }
    clear -Hseen Hrun Hl. induction Hrun as [|s1 s2 s3 (env1 & call & r & Hs & Hi) _ IH]; [done|].
    apply IH. eapply serve_seen; [done|lia|done]. }
  apply (kept_seen env') in Hseen as (j & Hj & _); [|lia]. congruence.
Qed.
End access.

(** ** Witnesses *)
Lemma administrator_required_witness :
  serve (device_env 120 80) (RemoveMember net_a bob) two_members = (Err Unauthorized, two_members)
  ∨ serve (device_env 120 80) (RemoveMember net_a bob) two_members = (Err BadRequest, two_members).
Proof.
  refine (proj1 (administrator_required (device_env 120 80) (RemoveMember net_a bob) two_members _)).
  vm_decide.
Defined.

Definition refresh_request : MembershipRefreshRequest :=
  unwrap (refresh_sign net_a bob (uuid_of 32) 130 sample_nonce bob_key)
    (mkMembershipRefreshRequest (mkMembershipRefreshRequestPayload 0 net_b bob (uuid_of 0) 0 []) []).
Definition no_refresh : MembershipRefreshResponse :=
  mkMembershipRefreshResponse true
    (mkNetworkAuthorizationManifest 0 net_a 0 0 [] [] 0 0 [] [] None) None [] None.
Definition bob_refreshed : result ApiError MembershipRefreshResponse * Server :=
  refresh_membership (device_env 131 81) refresh_request two_members.
Lemma refresh_granted_once_witness :
  is_ok bob_refreshed.1 = true
  ∧ is_ok (refresh_membership (device_env 140 82) refresh_request bob_refreshed.2).1 = false.
Proof.
  assert (is_ok bob_refreshed.1 = true) as Hok by vm_decide.
  split; [exact Hok|].
  apply (refresh_granted_once (device_env 131 81) refresh_request two_members
    (unwrap bob_refreshed.1 no_refresh) bob_refreshed.2 bob_refreshed.2 (device_env 140 82)).
  - exact (ran_ok bob_refreshed no_refresh Hok).
  - apply rtc_refl.
  - vm_decide.
  - intros Hlate. exfalso. revert Hlate. vm_decide.
Defined.

(** ** A removal without randomness *)
(** When no randomness is left for a new network key, the removal fails with an
    error, and a second attempt finds no such member: yet in memory the member
    is gone and its certificate revoked, while the network key and the epochs,
    which the removal was to replace, are the old ones, and the state file
    still has the member. *)
Definition dry_env : Env :=
  mkEnv 300 (secs 300) (uuid_of 61) None (Some (uuid_to_string admin_token)) Written None.
Definition half_removed : Server := (remove_member dry_env net_a bob two_members).2.
Lemma removal_without_randomness :
  (remove_member dry_env net_a bob two_members).1 = Err Internal
  ∧ mn_members (managed half_removed) !! bob = None
  ∧ mn_network_key (managed half_removed) = mn_network_key (managed two_members)
  ∧ mn_network_key_epoch (managed half_removed) = mn_network_key_epoch (managed two_members)
  ∧ mn_authorization_epoch (managed half_removed) = mn_authorization_epoch (managed two_members)
  ∧ (remove_member (admin_env 301 62) net_a bob half_removed).1 = Err NotFound
  ∧ is_Some (cs_networks (sv_disk half_removed) !! net_a ≫= λ n, mn_members n !! bob).
Proof. split_and!; vm_decide. Qed.

(** ** Enrolling again, and the policy *)

Section gateways.
Context `{UuidLib} `{Ed25519} `{IpNetLib} `{!IpNetLaws} `{HashOrder} `{SessionCrypto}.
Context `{!ControllerLib} `{!MembershipSerde} `{!AuthorizationSerde} `{!PolicySerde} `{!PlanetSerde}.
Implicit Types (m : ControllerState) (n : ManagedNetwork) (s : Server) (env : Env).

(** Signing a policy checks every route against its gateway's claims. *)
Lemma sign_policy_routes n key now manifest r :
  sign_policy n key now = Ok manifest → r ∈ mpo_routes (mn_policy n) →
  ∃ claims, mn_members n !! mr_gateway r = Some claims
    ∧ existsb (λ allowed, route_prefix_covers allowed (mr_prefix r)) (mc_allowed_routes claims) = true.
Proof.
  intros Hs Hr. unfold sign_policy in Hs. apply bind_Ok in Hs as (routes & Hroutes & _).
  apply try_map_Ok in Hroutes. apply list_elem_of_lookup in Hr as [i Hi].
  destruct (Forall2_lookup_l _ _ _ _ _ Hroutes Hi) as (y & _ & Hy).
  unfold sign_policy_route, gateway_claims in Hy.
  apply bind_Ok in Hy as ([claims u] & Hc & Hy). apply bind_Ok in Hy as (? & Hcov & _).
  apply bail_if_Ok, negb_false_iff in Hcov. exists claims. split; [|done].
  apply bind_Ok in Hc as (claims' & Hm & Hc). apply bind_Ok in Hc as (u' & _ & Hc).
  injection Hc as <- <-. by apply ok_or_Ok in Hm.
Qed.
Lemma open_state_signs draws now m s id n :
  state_ok m → cs_networks m !! id = Some n → open_state draws now m = Ok s →
  ∃ key manifest, sign_policy n key now = Ok manifest.
Proof.
  intros Hok Hn Ho. unfold open_state in Ho. apply bind_Ok in Ho as ([m1 migrated] & Hm & _).
  unfold migrate_and_validate_controller_state in Hm.
  apply bind_Ok in Hm as (? & _ & Hm). apply bind_Ok in Hm as ([managed b] & Hf & Hm).
  apply bind_Ok in Hm as (u & Hv & _).
  apply migrate_entries_same in Hf as ->; [|apply Hok|intros [id' n']; by rewrite elem_of_hash_iter].
  unfold validate_controller_state in Hv. apply bind_Ok in Hv as (key & _ & Hv).
  apply bind_Ok in Hv as (? & _ & Hv). apply for_each_Ok in Hv. rewrite Forall_forall in Hv.
  specialize (Hv n). cbn [cs_networks] in Hv. rewrite elem_of_hash_values in Hv.
  specialize (Hv (ex_intro _ id Hn)). unfold validate_network in Hv.
  apply bind_Ok in Hv as (? & _ & Hv). apply bind_Ok in Hv as (manifest & Hp & _).
  apply map_err_Ok in Hp. by exists key, manifest.
Qed.

(** C40: enrolling a gateway again breaks its network.  An enrolment gives the
    member the routes of the network only.  When the policy names this member as
    the gateway of another prefix, every request for the policy fails from then
    on, and the state file the enrolment has just written is refused whenever
    the controller is started with it. *)
Theorem reenrollment_breaks_policy k0 token s env q resp s' n r :
  let m := initialize_new_controller_state k0 token in
  rtc controller_step (mkServer m m ∅) s → good_draws env (sv_memory s) →
  enroll env q s = (Ok resp, s') →
  cs_networks (sv_memory s) !! er_network_id q = Some n →
  r ∈ mpo_routes (mn_policy n) → mr_gateway r = er_device_id q →
  existsb (λ allowed, route_prefix_covers allowed (mr_prefix r)) (default_routes (mn_network n)) = false →
  (∀ env', is_ok (policy env' (er_network_id q) s').1 = false)
  ∧ ∀ draws now, is_ok (open_state draws now (sv_disk s')) = false.
Proof.
  intros m Hreach Hd He Hn Hr Hg Hcov.
  assert (server_ok s) as Hok by (eapply reachable_ok; [exact Hreach|]; split; apply initial_ok).
  assert (server_ok s') as [Hok' _] by (by eapply enroll_ok).
  apply enroll_Ok in He as (t & k & key & n0 & u & claims & n' & [_ _ Hn0 _ _ (addresses & Hc & _) Hn'
    _ _ _ Hmem Hdisk]).
  rewrite Hn in Hn0. injection Hn0 as <-.
  assert (cs_networks (sv_memory s') !! er_network_id q = Some n') as Hlook
    by (rewrite Hmem; apply lookup_insert_eq).
  assert (∀ key now manifest, sign_policy n' key now ≠ Ok manifest) as Hno.
  { intros key' now manifest Hs. apply (sign_policy_routes _ _ _ _ r) in Hs as (claims' & Hm & Hcov').
    - rewrite Hg, Hn' in Hm. cbn in Hm. rewrite lookup_insert_eq in Hm. injection Hm as <-.
      rewrite Hc in Hcov'. change (mc_allowed_routes _) with (default_routes (mn_network n)) in Hcov'.
      congruence.
    - rewrite Hn'. exact Hr. }
  split.
  - intros env'. apply not_true_is_false. intros (manifest & Hp)%is_ok_true.
    destruct (policy env' (er_network_id q) s') as [r' s1] eqn:Hrun. cbn in Hp. subst r'.
    unfold policy in Hrun. run_request Hrun. unfold find_managed in *. inv_ok. subst.
    match goal with Hf : cs_networks _ !! er_network_id q = Some ?n1, Hs : sign_policy ?n1 _ _ = _ |- _ =>
      rewrite Hlook in Hf; injection Hf as <- end.
    by eapply Hno.
  - intros draws now. apply not_true_is_false. intros (s1 & Ho)%is_ok_true.
    rewrite Hdisk in Ho. destruct (open_state_signs _ _ _ _ _ _ Hok' Hlook Ho) as (? & ? & Hs).
    by eapply Hno.
Qed.
End gateways.

(** Bob becomes a gateway, and enrols again. *)
Definition gateway_route : ManagedPolicyRoute := mkManagedPolicyRoute (cidr4 (ip4 10 1 0 0) 16) bob.
Definition gateway_setup : list (Env * Call) :=
  [(admin_env 200 62, AuthorizeMemberRoutes net_a bob
      (mkMemberRouteAuthorizationRequest [cidr4 (ip4 10 1 0 0) 16]));
   (admin_env 201 63, UpdatePolicy net_a (mkPolicyUpdateRequest [gateway_route] [] DnsPolicy_default));
   (admin_env 202 72, IssueToken net_a (mkTokenRequest None))].
Definition with_gateway : Server := run_calls two_members gateway_setup.
Lemma with_gateway_reachable : rtc controller_step fresh_controller with_gateway.
Proof. etrans; [apply two_members_reachable|]. apply run_calls_reachable. by vm_compute. Qed.
#[local] Notation gateway_again :=
  (enroll (device_env 210 36) (enrolment bob bob_key 72) with_gateway).
Definition no_draws : Draws := mkDraws (λ _, None) (λ _ _, uuid_of 0).
Lemma gateway_again_Ok : gateway_again = (Ok (unwrap gateway_again.1 no_response), gateway_again.2).
Proof. apply ran_ok. vm_decide. Qed.
Lemma with_gateway_opens : is_ok (open_state no_draws 205 (sv_disk with_gateway)) = true.
Proof. by vm_compute. Qed.
#[local] Instance ManagedPolicyRoute_eq_dec : EqDecision ManagedPolicyRoute.
Proof. solve_decision. Defined.
Lemma gateway_route_stored : gateway_route ∈ mpo_routes (mn_policy (managed with_gateway)).
Proof. vm_decide. Qed.
Lemma reenrollment_breaks_policy_witness :
  is_ok (open_state no_draws 205 (sv_disk with_gateway)) = true
  ∧ is_ok (open_state no_draws 212 (sv_disk gateway_again.2)) = false.
Proof.
  split; [exact with_gateway_opens|].
  destruct (reenrollment_breaks_policy (be_bytes 32 1) admin_token with_gateway
    (device_env 210 36) (enrolment bob bob_key 72) (unwrap gateway_again.1 no_response)
    gateway_again.2 (managed with_gateway) gateway_route) as [_ Hopen].
  - exact with_gateway_reachable.
  - apply good_draws_b_true. vm_decide.
  - exact gateway_again_Ok.
  - apply default_Some. vm_decide.
  - exact gateway_route_stored.
  - reflexivity.
  - vm_decide.
  - exact (Hopen no_draws 212).
Defined.
