(* ===== verification/ControllerFile.v ===== *)
(** * The state file of a controller, and its first administrator token
    ([meshlake-controller/src/main.rs]) *)
From S2P Require Import Prelude Request Net Text Ext Concrete Model FileSystem StateProtection.
From S2P Require Import StateFile ServiceIdentity Membership Authorization Responses Planet.
From S2P Require Import Policy StateBackup StateCommand Controller Samples FileFacts.
From S2P Require Import StateFileFacts ProtectionFacts ControllerSamples.
#[local] Open Scope Z_scope.

Import Controller.
From S2P Require Import FileSystem StateProtection StateFile StateBackup StateCommand.
#[local] Open Scope Z_scope.

Inductive InitialAdminTokenOutput : Type := InteractiveOutput | RestrictedFileOutput (path : string).

Section controller_file.
Context `{UuidLib} `{Ed25519} `{IpNetLib} `{HashOrder} `{SessionCrypto} `{!UuidText} `{!ControllerLib}.
Context `{!MembershipSerde} `{!AuthorizationSerde} `{!PolicySerde} `{!PlanetSerde}.
Context `{StateLib} `{Argon2Lib} `{!Serde ProtectedStateEnvelope} `{!Serde BackupEnvelope}.
Context `{!Serde AssociatedData} `{!Serde ControllerState}.
Context (draws : Draws) (now : Z).

Definition controller_owner : StateOwner ControllerState :=
  mkStateOwner CONTROLLER_STATE_PROTECTION_PURPOSE ControllerBackup
    (λ s, ok (migrate_and_validate_controller_state draws now s)).
(** [terminal]: whether there is a terminal, and whether writing to it works. *)
Definition deliver_initial_admin_token (kn : Kernel) (token : string)
    (destination : InitialAdminTokenOutput) (terminal : bool * bool) : command unit :=
  match destination with
  | InteractiveOutput => lift (bail_if (negb (terminal.1 && terminal.2)) CommandState)
  | RestrictedFileOutput path =>
      convert (λ _, CommandState)
        (create_restricted_secret_file kn (components path) (bytes_of_string token ++ [10]))
  end.
Definition create_controller_state (kn : Kernel) (d : CommandDraws) (path : string)
    (signing_key : option bytes) (admin_token : Uuid) (destination : InitialAdminTokenOutput)
    (terminal : bool * bool) (protection : StateProtection) : command ControllerState :=
  signing_key ← lift (ok_or signing_key CommandState);
  let state := initialize_new_controller_state signing_key admin_token in
  deliver_initial_admin_token kn (cs_admin_token state) destination terminal ;;
  r ← attempt (write_state_with_protection controller_owner kn (cd_state_name d) (cd_state_nonce d) path state protection);
  match (r : result CommandError unit) with
  | Ok _ => mret state
  | Err e =>
      (match destination with
       | InteractiveOutput => mret tt
       | RestrictedFileOutput token_path =>
           removed ← attempt (remove_file kn (components token_path));
           mret (const tt (removed : result IoErrorKind unit))
       end) ;;
      lift (Err e)
  end.
Definition open_controller (kn : Kernel) (d : CommandDraws) (path : string)
    (signing_key : option bytes) (admin_token : Uuid)
    (destination : option InitialAdminTokenOutput) (terminal : bool * bool)
    (protection : StateProtection) : command (Handle * ControllerState) :=
  keeping_lock kn path (
    command_file (recover_protected_state_file kn (cd_recovery_name d) path) ;;
    there ← path_exists kn (components path);
    '(state, outdated) ← (if (there : bool) then
       lift (bail_if (is_some destination) CommandState) ;;
       command_file (restrict_state_file_permissions kn path) ;;
       decoded ← read_state controller_owner kn path protection;
       mret (ds_value decoded, ds_needs_protection_upgrade decoded)
     else
       destination ← lift (ok_or destination CommandState);
       resolved ← match destination with
                  | InteractiveOutput => mret InteractiveOutput
                  | RestrictedFileOutput output =>
                      at_ ← command_backup (resolve_state_backup_path kn path output);
                      mret (RestrictedFileOutput (path_text at_))
                  end;
       state ← create_controller_state kn d path signing_key admin_token resolved terminal protection;
       mret (state, false));
    settle_state controller_owner kn d path state (outdated : bool) protection).
End controller_file.

(** ** A first administrator token that is lost *)
#[local] Open Scope Z_scope.

Definition first_state : ControllerState := initialize_new_controller_state (be_bytes 32 1) admin_token.
#[export] Instance first_state_serde : Serde ControllerState := only_serde [9] first_state.
Definition controller_draws : CommandDraws :=
  mkCommandDraws _ (uuid_of 11) (uuid_of 12) None (uuid_of 13) None (uuid_of 14) None None.
Definition fresh_machine : FileSystem := files ((["root"%string], Directory) :: meshlake_names) [].
Definition token_location : location := ["root"; "token"]%string.
Definition create_sample (fails : nat → option IoErrorKind)
    : result CommandError ControllerState * FileSystem :=
  create_controller_state (mkDraws (λ _, None) (λ _ _, uuid_of 0)) 100 (kernel fails) controller_draws (text_of state_location)
    (Some (be_bytes 32 1)) admin_token (RestrictedFileOutput (text_of token_location))
    (false, false) platform_default fresh_machine.
Definition open_sample (s : FileSystem) : result CommandError (Handle * ControllerState) * FileSystem :=
  open_controller (mkDraws (λ _, None) (λ _ _, uuid_of 0)) 100 (kernel (λ _, None)) controller_draws
    (text_of state_location) (Some (be_bytes 32 2)) (uuid_of 98)
    (Some (RestrictedFileOutput (text_of token_location))) (false, false) platform_default s.
Lemma run_result {A B} (x : A * B) (a : A) : x.1 = a → x = (a, x.2).
Proof. destruct x. by intros [= ->]. Qed.
Ltac evaluate := match goal with |- _ = ?b => vm_cast_no_check (eq_refl b) end.
Definition token_text : bytes := bytes_of_string (cs_admin_token first_state) ++ [10].

(** The first administrator token is removed when the new state could not be
    written, as the code means it; but also when the state was installed and only
    the last step failed.  Creating a controller on a machine where nothing fails
    leaves the state and the token file.  When only the synchronisation of the
    directory after the rename fails, creation reports an error and removes the
    token file, the state with that token stays installed, and a second start with
    the same options is refused because a state exists: nobody was given the token
    that it accepts. *)
Theorem token_file_lost :
  (∃ s, create_sample (λ _, None) = (Ok first_state, s)
     ∧ content s state_location = to_vec first_state
     ∧ content s token_location = Some token_text)
  ∧ (∃ s, create_sample (fails_at 44) = (Err (CommandFile (IoFailed OtherIo)), s)
     ∧ content s state_location = to_vec first_state
     ∧ fs_names s !! token_location = None
     ∧ (open_sample (rebooted s)).1 = Err CommandState)
  ∧ (∃ s, create_sample (fails_at 34) = (Err (CommandFile (IoFailed OtherIo)), s)
     ∧ fs_names s !! state_location = None ∧ fs_names s !! token_location = None).
Proof.
  split_and!; (eexists; split; [apply run_result; evaluate|]);
    split_and!; evaluate.
Qed.
